(* ===== verification/_CoqProject ===== *)
-Q . S2P
Prelude.v
GoStrings.v
Text.v
Crypto.v
Validate.v
Authz.v
RateLimit.v
Paths.v
SafeFs.v
ServerIDs.v
Cron.v
Cfg.v
ServerFiles.v
Settings.v
ConfigFiles.v
Stores.v
Backups.v
Schedule.v
Scheduler.v
GoNet.v
ProxyRules.v
ProxyController.v
Passwords.v
Auth.v
TwoFactor.v
AuthInv.v
Replay.v
Version.v
WebSocket.v
GoHttp.v
Http.v
ServerApi.v
Nodes.v
NodeAccess.v
Query.v
Login.v
Guesses.v
Slots.v
Hub.v
Output.v
Ports.v
Locks.v
Manager.v
Status.v
Autostart.v
HostUsers.v
Deps.v
HostInstall.v
Discovery.v
ProxyFirewall.v
