(* ===== verification/Prelude.v ===== *)
(** * LinuxGSM dashboard: verification development

    The LinuxGSM dashboard is one Go binary ([src/main.go], package
    [src/backend]) that manages LinuxGSM game servers: it discovers them, runs
    their commands, edits their config files and crontabs, signs users in, and
    can send the traffic of a server through a proxy machine.  It runs the
    servers itself or talks to nodes, which are the same binary in agent mode.
    This library translates the decisions the program makes into Gallina
    functions and proves that they are right.  What only moves bytes between
    the operating system, the network and the browser is left out.

    ** Files

    Each file opens with a comment that says more.  A definition keeps the name
    of the Go function, method or type it translates.

    - [Prelude]: results, 64-bit integers, shared tactics and lemmas.
    - [GoStrings], [Text], [GoNet], [Crypto], [GoHttp]: what the source calls of
      the Go standard library ([strings], [strconv], UTF-8, [net], SHA-1, SHA-256,
      HMAC, hex, base64, base32, [net/url] and the routing of [net/http]),
      executable, with the lemmas the components share.
    - [Validate] (security.go, agent_pki.go): identifiers, global server IDs of
      the form node~id, values of config files, shell quoting.
    - [Authz] (authz.go, agent_access.go, action_input.go): roles, permissions,
      [AuthorizeServerAction], what a node allows in its access mode.
    - [RateLimit] (ratelimit.go): the login limiter; [Guesses]: guesses by requests at
      the same time, with the clock.
    - [Paths] (paths.go, layout.go and the path checks of manager.go): lexical
      paths, [ResolveInRoot], the directories a server may have.
    - [SafeFs] (safefs_linux.go): a file system of inodes, the system calls on
      directory handles, and the functions that write as root without following
      links; [ServerFiles] (server_files.go): the writers and the file manager.
    - [ServerIDs] (serverids.go): stable server IDs.
    - [Cron] (cron.go): schedules as bit sets.
    - [Cfg] (lgsmcfg.go, alerts.go, server_files.go): one config file bash
      sources; [Settings]: the five files of a server together and the forms
      that write them; [ConfigFiles] (configfiles.go, server_files.go): variables
      in values, which files the editor opens, the scan for config files.
    - [Stores] (server_files.go): tags, FastDL modes, custom directories.
    - [Backups] (backups.go): names and directories of backups, the validation of
      archives, the commands of a restore and its whole course.
    - [Schedule] (schedule.go): the crontab and backup forms.
    - [Scheduler] (docker_scheduler.go): the scheduler of Docker mode.
    - [ProxyRules] (proxy_rules.go): plans, their validation, the WireGuard
      configuration.
    - [ProxyFirewall] (proxy_rules.go): the nftables texts of both sides, the
      rules they stand for, and what those let through.
    - [ProxyController] (proxy_controller.go): the links between nodes and
      proxies, and the plan each machine runs.
    - [Passwords] (security.go), [Auth] (auth.go), [TwoFactor] (twofactor.go):
      password hashes, users and sessions, TOTP and recovery codes; [AuthInv]
      holds the step relation over all of them and its theorems, [Replay] the
      life of a TOTP registration, over restarts too.
    - [Version] (selfupdate.go, releasenotes.go, agent_update.go): version order,
      the signed update, release notes, which nodes may be updated.
    - [WebSocket] (agent_ws.go, docker_exec.go): frames of the tunnel, streams of
      container commands.
    - [Http] (main.go): origin and CSRF checks, the route table and its guards;
      [ServerApi] (main.go): requests for servers, bulk actions, the way of a
      request to a node, the routes of a node, FastDL; [Login] (main.go): the
      login handlers.
    - [Nodes] (agent_nodes.go, agent_pki.go): the registry of nodes and pairing
      tokens; [NodeAccess]: the specification of which keys are trusted, and the
      refinement.
    - [Hub] (agent_hub.go, agent_cache.go): tunnels of nodes and their cached
      servers; [Slots] (limitlistener.go, agent_gateway.go, agent_tunnel.go): the
      limits on what runs at once.
    - [Query] (query.go): the query protocols of game servers.
    - [Output] (runtime.go, manager.go, helpers.go): streamed output, log tails,
      server details, game names; [Ports] (helpers.go): ports found in config
      files and the port check.
    - [Locks] (manager.go): the lock of a server directory and the slots of bulk
      actions; [Manager] (manager.go, commands.go, install.go, steamlogin.go):
      tmux sessions, the console, actions, bulk actions, installation requests,
      deletion; [Status] (manager.go, backups.go): discovery merged with what is
      known, and the life cycle of a status.
    - [Autostart] (autostart.go): systemd units of servers.  [HostUsers]
      (host_users.go, runtime_host.go): the Linux accounts of servers, their reuse
      and deletion.  [Deps] (deps.go): the packages a game needs.  [HostInstall]
      (runtime_host.go): commands as another user, install directories,
      installation and clones.  [Discovery] (runtime_host.go): how servers are
      found.

    ** How the parts interact

    A request is routed ([GoHttp], [Http]), throttled ([RateLimit]), signed in
    ([Login] with [Auth], [TwoFactor], [Passwords] and [Crypto]) and authorized
    ([Authz], which reads the user and the server ID checked by [Validate] and
    assigned by [ServerIDs]).  [ServerApi] then calls the operation, or sends the
    request through the tunnel ([WebSocket]) of a node the [Hub] knows and
    [Nodes] trusts.  An operation reads or rewrites config files ([Settings] on
    [Cfg]), a crontab ([Schedule], which calls [Cron]), files ([ServerFiles] on
    [Paths] and [SafeFs]) or backups ([Backups], on the same).  In Docker mode
    [Scheduler] runs what [Schedule] wrote.  [Manager] takes the
    locks of [Locks] and streams through [Output]; [Status] merges what
    [Discovery] finds with the IDs of [ServerIDs].  An installation uses
    [HostUsers] and [Deps]; a deletion uses [HostUsers], [Autostart] and
    [Schedule].  The proxy is apart: [ProxyController] builds plans and calls the
    validation and rendering of [ProxyRules] and [ProxyFirewall], which use
    [GoNet].

    ** How the code is translated

    - State is passed explicitly.  An operation returns its result beside the
      state it leaves, also when it fails, since Go keeps the writes made before
      an error.
    - What the code reads from outside is an argument: the clock, random draws,
      whether a write of a file succeeds, what a machine or a server answers.
      Theorems quantify over it, so they hold for every failure at every point.
    - Concurrency: [RateLimit], [Guesses], [AuthInv], [Replay], [Scheduler], [Hub],
      [Slots], [Locks] and [Status] make every critical section of a mutex one step of
      a relation.  What a goroutine read before it took the lock is arbitrary.
      [ProxyController] and [Nodes] hold their mutex over whole operations, so their
      steps are operations, with every answer arbitrary; [ForgetNode], which takes it
      several times, is several of them.
    - Users of the servers change files at any time: in [SafeFs] a program is a
      sequence of system calls, before each of which an adversary changes what
      belongs to it, and each of which may fail.
    - Third-party and unreadable code is a class with laws: [Argon2] with
      [Argon2Laws] (golang.org/x/crypto/argon2), [FileSystem] in [Paths] (symbolic
      links and directories), X.509 in [Nodes], the Ed25519 check in [Version],
      the JSON decoders in [Query], the evaluation of rules by nftables ([Nft] in
      [ProxyFirewall]).  Each has an instance at which the theorems
      are applied.
    - An [int] of Go is a [Z]; where it can overflow ([Cron], durations in
      [RateLimit], TOTP steps) the wrap-around is written out with [wrap64] and
      [u32].  A string is a sequence of bytes, and white space is that of
      [unicode.IsSpace] on UTF-8.

    ** Fuel

    A loop that is not structural takes fuel, with a theorem that the fuel is
    enough.  The bit-setting loop of [Cron] takes 200 rounds, more than the
    largest field has values, also where the step overflows.  The search for a
    free ID in [ServerIDs] takes one round more than IDs are in use, by the
    pigeonhole principle.  [ResolveInRoot] takes one round per path element.
    Decimal output takes 20 digits, the length of the largest 64-bit number;
    IPv6 parsing takes one round per group of 16 bits, of which there are eight.
    The scan of [ConfigFiles] takes one round per level, of which the code allows
    seven.  The choice of an ID in [Discovery] takes one round more than IDs are
    taken, and the check of install directories in [HostInstall] one round per
    path element.  Readers of [WebSocket] and [Query] take one round per byte or packet.

    ** What the theorems show

    - Accounts ([AuthInv]): user names stay unique and an administrator remains;
      sessions end after seven days, on a password change and with their user; a
      login with a second factor signs in only the challenged user, after at most
      five tries; no TOTP code or recovery code is accepted twice ([Replay] for
      everything that may come in between); a write that fails restores the old
      state.  [Passwords]: hash and verify agree.
      [RateLimit]: at most five attempts per key run at once, cooldowns double up
      to 15 minutes, nobody is locked out for longer, memory is bounded.
      [Authz]: authorization grants exactly what it should.
    - Requests ([Http], [ServerApi], [Login]): handlers run only for a live session
      with its CSRF token; a server request runs exactly the route it names and the
      user may use; a forwarded request reaches that route on the node or none; a
      node in read-only mode changes nothing; sessions are made only by a complete
      login.  [Guesses]: in half an hour at most 14 + 11 m guesses are checked for a
      key, where m bounds the attempts between two critical sections of the limiter;
      one request after the other, fifteen.
    - Nodes ([NodeAccess], [Hub], [Slots]): the registry implements the
      specification of trusted keys, through failing writes and restarts; a
      pairing token works once; what a node lists is bounded and its own; control
      requests always find a stream.
    - Protocols ([WebSocket], [Query]): what one side writes the other reads; the
      readers are bounded and never read outside a buffer; split answers are put
      together in every order.
    - Files ([Paths], [SafeFs], [ServerFiles]): resolved paths stay in their root;
      writes as root change nothing outside of the server directory, whatever its
      users do meanwhile and whatever fails, as long as the roots lead there along
      directories they cannot change; a write replaces the whole file or leaves it.
    - Settings ([Cfg], [Settings], [ConfigFiles], [Stores]): a changed config file
      holds exactly the values asked for, and so does the merge of all five files;
      the editor opens only what it may; the scan is bounded and complete.
    - Backups ([Backups]): entries and links of an accepted archive, read as text,
      stay in the destination; a restore takes its course from the status it read
      when it was asked for.
    - Identity ([ServerIDs]): IDs are unique, assigned to every server, and stay
      over later discoveries in any order, when the file of IDs was written once and
      can be read.
    - Schedules ([Cron], [Schedule], [Scheduler]): a schedule matches the minutes
      Vixie cron documents; saving and reading the forms round trips and keeps the
      lines of others; a saved job is due in its minutes, and the due
      commands of a server run one at a time.
    - Commands ([Locks], [Manager], [Output], [Status], [Ports]): of the commands
      that take the lock one runs per directory, and requests end when commands do
      and newcomers stay away; an action takes the course its form asks for; the
      shown output is that of the stream however it is cut into chunks; a server is
      shown as updating while a command works on it; files are deleted only when
      the server is known to be stopped; the port check names every known port once.
    - Host ([HostUsers], [HostInstall], [Discovery], [Autostart], [Deps]): accounts
      are deleted only when they may be; deleting one instance keeps the files of the
      others; an existing user is reused only when it may be; an installation
      takes its course and never changes an existing account; arguments reach the
      shell as they are; every script of a server where it must be found is listed,
      under IDs of its own; a unit stands for one server; packages are installed as needed.
    - Proxy ([ProxyRules], [ProxyFirewall], [ProxyController]): the validation accepts exactly the
      plans that are safe to load, and the WireGuard configuration reads back as
      the plan; the firewall of each side is its plan, and lets through exactly
      what the policy of that side allows; links stay consistent, both ends of a link
      agree, a machine not listed for cleanup runs the plan of its links unless a
      rollback to it was lost or its last call failed midway, and a sync that reaches
      every machine repairs all of them.
    - Updates ([Version]): the binary is replaced only by a signed, checksummed
      and newer stable release.

    Where the code does less than its comments say, the theorem states what it
    does, and a closed case is proved beside it: [Cron.huge_step_wraps],
    [ProxyRules.key_with_line_break], [ProxyFirewall.tunnel_ip_alias],
    [ProxyFirewall.target_v6_valid], [ProxyController.failed_rollback_forgotten],
    [AuthInv.failed_write_keeps_nodes], [NodeAccess.removed_node_returns],
    [Hub.late_failure_hides_node], [ServerFiles.root_swap_escapes],
    [ConfigFiles.scan_over_limit], [ConfigFiles.backtick_in_variable],
    [Stores.failed_write_shows_tag], [Backups.size_limit_wraps],
    [Backups.double_slash_link], [Backups.chained_link_escapes],
    [Backups.stale_status_not_stopped], [Status.stale_status_sticks],
    [Manager.missed_server_deletes_user], [Autostart.unit_names_collide],
    [HostUsers.admin_after_long_line], [RateLimit.reserve_race],
    [ProxyController.push_fails_midway], [ServerIDs.failed_save_swaps_ids],
    [ServerIDs.failed_read_swaps_ids], [SafeFs.mode_after_failed_stat],
    [ServerFiles.unseen_root_leaves_file], [Locks.stop_meets_command],
    [Locks.newcomer_overtakes].

    ** What is not modelled

    Left out because they are almost only calls of the operating system, the
    Docker socket or other programs: the Docker runtime (runtime_docker.go,
    docker.go, docker_containers.go), starting, killing and measuring processes
    and disks, system information, the proxy host (proxy_host.go: wg, nft, ip),
    TLS and yamux, JSON codecs, the bodies of most HTTP handlers, and the web
    interface.  Left out as well: the background loops of the manager, the game
    list (crawler.go), and the renewal of node certificates. *)

From Stdlib Require Import ZArith Lia Bool String Ascii List.
From stdpp Require Import base gmap strings list.

#[global] Open Scope Z_scope.

(** ** Results *)

(** A Go function that returns [(value, error)].  The state an operation leaves
    behind is returned next to the result, because Go keeps every write made
    before an error is returned. *)
Inductive result (E A : Type) : Type :=
| Ok (a : A)
| Err (e : E).
Arguments Ok {E A} a.
Arguments Err {E A} e.

Definition is_ok {E A} (r : result E A) : bool :=
  match r with Ok _ => true | Err _ => false end.

Declare Scope go_scope.
Delimit Scope go_scope with go.

Notation "'let?' x := c 'in' k" :=
  (match c with Ok x => k | Err e => Err e end)
  (at level 10, x pattern, k at level 200) : go_scope.
Notation "'check' b 'else' e ';;' k" :=
  (if b then k else Err e)
  (at level 10, b at level 100, e at level 99, k at level 200) : go_scope.
#[global] Open Scope go_scope.

(** ** Machine integers *)

Definition int64_min : Z := - 2 ^ 63.
Definition int64_max : Z := 2 ^ 63 - 1.
(** Two's complement wrap-around of a 64-bit signed addition. *)
Definition wrap64 (z : Z) : Z := (z + 2 ^ 63) mod 2 ^ 64 - 2 ^ 63.
Definition u32 (z : Z) : Z := z mod 2 ^ 32.

Lemma wrap64_id z : int64_min <= z <= int64_max -> wrap64 z = z.
Proof. unfold wrap64, int64_min, int64_max. intros. rewrite Z.mod_small; lia. Qed.

Lemma wrap64_over z : int64_max < z <= int64_max + 2 ^ 63 -> wrap64 z = z - 2 ^ 64.
Proof.
  unfold wrap64, int64_max. intros.
  replace (z + 2 ^ 63) with (z - 2 ^ 63 + 1 * 2 ^ 64) by lia.
  rewrite Z.mod_add by lia. rewrite Z.mod_small; lia.
Qed.

(** Durations in nanoseconds, as Go counts them. *)
Definition ns_second : Z := 10 ^ 9.
Definition ns_minute : Z := 60 * ns_second.
Definition ns_hour : Z := 60 * ns_minute.

(** ** Tactics *)

(** Case analysis on every [if]/[match] of the goal or a hypothesis whose
    scrutinee is a plain term. *)
Ltac split_match :=
  match goal with
  | |- context [match ?x with _ => _ end] => destruct x eqn:?
  | H : context [match ?x with _ => _ end] |- _ => destruct x eqn:?
  end.

(** Turns boolean tests into propositions. *)
Ltac to_prop :=
  repeat match goal with
  | H : (_ && _)%bool = true |- _ => apply andb_true_iff in H; destruct H
  | H : (_ && _)%bool = false |- _ => apply andb_false_iff in H
  | H : (_ || _)%bool = false |- _ => apply orb_false_iff in H; destruct H
  | H : (_ || _)%bool = true |- _ => apply orb_true_iff in H
  | H : negb _ = true |- _ => apply negb_true_iff in H
  | H : negb _ = false |- _ => apply negb_false_iff in H
  | H : (_ =? _)%Z = true |- _ => apply Z.eqb_eq in H
  | H : (_ =? _)%Z = false |- _ => apply Z.eqb_neq in H
  | H : (_ <? _)%Z = true |- _ => apply Z.ltb_lt in H
  | H : (_ <? _)%Z = false |- _ => apply Z.ltb_ge in H
  | H : (_ <=? _)%Z = true |- _ => apply Z.leb_le in H
  | H : (_ <=? _)%Z = false |- _ => apply Z.leb_gt in H
  | H : String.eqb _ _ = true |- _ => apply String.eqb_eq in H
  | H : String.eqb _ _ = false |- _ => apply String.eqb_neq in H
  | H : bool_decide _ = true |- _ => apply bool_decide_eq_true in H
  | H : bool_decide _ = false |- _ => apply bool_decide_eq_false in H
  end.

(** ** Lists *)

(** [slices.Contains] on strings. *)
Definition mem (s : string) (l : list string) : bool := existsb (String.eqb s) l.

Lemma mem_true s l : mem s l = true <-> In s l.
Proof.
  unfold mem. rewrite existsb_exists. split.
  - intros (x & Hx & He). apply String.eqb_eq in He. by subst.
  - intros H. exists s. by rewrite String.eqb_refl.
Qed.

Lemma mem_false s l : mem s l = false <-> ~ In s l.
Proof. rewrite <- mem_true. destruct (mem s l); split; congruence. Qed.

(** The elements of a list after one is replaced. *)
Lemma lookup_put {A} (l : list A) i x y j z : l !! i = Some x ->
  <[i := y]> l !! j = Some z <-> (j = i /\ z = y) \/ (j <> i /\ l !! j = Some z).
Proof.
  intros H. rewrite list_lookup_insert_Some. apply lookup_lt_Some in H. split; [intros [(-> & -> & _)|[? ?]]|intros [[-> ->]|[? ?]]]; auto.
Qed.
