(* ===== verification/GoStrings.v ===== *)
(** * Go strings

    A Go string is a sequence of bytes: [string] with one [ascii] per byte.
    This file models the functions of packages [strings] and [strconv] the
    source calls, and the lemmas the components share about them.  White space
    is that of [unicode.IsSpace] on the UTF-8 bytes, so [Fields] and [TrimSpace]
    are exact on every byte string. *)

From Stdlib Require Import ZArith Lia Bool String Ascii List.
From stdpp Require Import base gmap strings list.
From S2P Require Import Prelude.

Definition bytes := list ascii.
Definition to_bytes (s : string) : bytes := list_ascii_of_string s.
Definition of_bytes (l : bytes) : string := string_of_list_ascii l.

(** The value of a byte. *)
Definition code (a : ascii) : Z := Z.of_N (N_of_ascii a).
Definition chr (z : Z) : ascii := ascii_of_N (Z.to_N z).
Definition between (lo hi : Z) (a : ascii) : bool := (lo <=? code a) && (code a <=? hi).

(** [len(s)] *)
Definition slen (s : string) : Z := Z.of_nat (String.length s).

(** ** Bytes and classes of bytes *)

Definition is_lower (a : ascii) : bool := between 97 122 a.
Definition is_upper (a : ascii) : bool := between 65 90 a.
Definition is_digit (a : ascii) : bool := between 48 57 a.
Definition is_ctl (a : ascii) : bool := (code a <? 32) || (code a =? 127).
Definition one_of (set : string) (a : ascii) : bool := existsb (Ascii.eqb a) (to_bytes set).

Definition sall (f : ascii -> bool) (s : string) : bool := forallb f (to_bytes s).
Definition sany (f : ascii -> bool) (s : string) : bool := existsb f (to_bytes s).
(** [strings.ContainsAny] with a set of ASCII bytes. *)
Definition contains_any (s set : string) : bool := sany (one_of set) s.
Definition contains_byte (s : string) (c : ascii) : bool := sany (Ascii.eqb c) s.

(** ** Prefixes, suffixes, substrings *)

Fixpoint lprefix (p l : bytes) : bool :=
  match p, l with
  | [], _ => true
  | a :: p', b :: l' => Ascii.eqb a b && lprefix p' l'
  | _, _ => false
  end.
Definition has_prefix (s p : string) : bool := lprefix (to_bytes p) (to_bytes s).
Definition has_suffix (s p : string) : bool := lprefix (rev (to_bytes p)) (rev (to_bytes s)).
Definition sdrop (n : nat) (s : string) : string := of_bytes (drop n (to_bytes s)).
Definition stake (n : nat) (s : string) : string := of_bytes (take n (to_bytes s)).
Definition trim_prefix (s p : string) : string :=
  if has_prefix s p then sdrop (String.length p) s else s.
Definition trim_suffix (s p : string) : string :=
  if has_suffix s p then stake (String.length s - String.length p) s else s.
(** [strings.CutPrefix] *)
Definition cut_prefix (s p : string) : option string :=
  if has_prefix s p then Some (sdrop (String.length p) s) else None.

Fixpoint lcontains (p l : bytes) : bool :=
  lprefix p l || match l with [] => false | _ :: l' => lcontains p l' end.
Definition contains (s p : string) : bool := lcontains (to_bytes p) (to_bytes s).

(** ** Splitting on a byte *)

Fixpoint lsplit (c : ascii) (l : bytes) : list bytes :=
  match l with
  | [] => [[]]
  | x :: r =>
      if Ascii.eqb x c then [] :: lsplit c r
      else match lsplit c r with
           | h :: t => (x :: h) :: t
           | [] => [[x]]
           end
  end.
(** [strings.Split] with a one byte separator: never empty. *)
Definition split (c : ascii) (s : string) : list string := map of_bytes (lsplit c (to_bytes s)).

Fixpoint lcut (c : ascii) (l : bytes) : option (bytes * bytes) :=
  match l with
  | [] => None
  | x :: r =>
      if Ascii.eqb x c then Some ([], r)
      else match lcut c r with
           | Some (a, b) => Some (x :: a, b)
           | None => None
           end
  end.
(** [strings.Cut] with a one byte separator; also [strings.Index] followed by
    slicing, and [strings.SplitN] with two parts. *)
Definition cut (c : ascii) (s : string) : option (string * string) :=
  match lcut c (to_bytes s) with
  | Some (a, b) => Some (of_bytes a, of_bytes b)
  | None => None
  end.

Fixpoint ljoin (sep : bytes) (l : list bytes) : bytes :=
  match l with
  | [] => []
  | [x] => x
  | x :: r => x ++ sep ++ ljoin sep r
  end.
(** [strings.Join] *)
Definition join (sep : string) (l : list string) : string :=
  of_bytes (ljoin (to_bytes sep) (map to_bytes l)).

(** ** White space *)

Definition ascii_space (a : ascii) : bool := between 9 13 a || (code a =? 32).

(** Width in bytes of the white space rune [l] starts with, 0 if it starts with
    none: the White_Space property of Unicode in UTF-8 (U+0085, U+00A0, U+1680,
    U+2000-200A, U+2028, U+2029, U+202F, U+205F, U+3000).  The lead bytes of
    these runes never occur inside another valid encoding. *)
Definition space_width (l : bytes) : nat :=
  match map code (take 3 l) with
  | a :: r =>
      if ((9 <=? a) && (a <=? 13)) || (a =? 32) then 1%nat else
      if a <? 128 then 0%nat else
      match r with
      | b :: r' =>
          if (a =? 194) && ((b =? 133) || (b =? 160)) then 2%nat else
          match r' with
          | c :: _ =>
              if ((a =? 225) && (b =? 154) && (c =? 128))
              || ((a =? 226) && (b =? 128) && (((128 <=? c) && (c <=? 138)) || (c =? 168) || (c =? 169) || (c =? 175)))
              || ((a =? 226) && (b =? 129) && (c =? 159))
              || ((a =? 227) && (b =? 128) && (c =? 128)) then 3%nat else 0%nat
          | [] => 0%nat
          end
      | [] => 0%nat
      end
  | [] => 0%nat
  end.

(** Width of the white space rune at the end of the text whose reverse is [l]. *)
Definition space_width_rev (l : bytes) : nat :=
  if Nat.eqb (space_width (rev (take 3 l))) 3 then 3%nat
  else if Nat.eqb (space_width (rev (take 2 l))) 2 then 2%nat
  else space_width (take 1 l).

Definition flush (cur : bytes) : list bytes := match cur with [] => [] | _ => [rev cur] end.

Fixpoint lfields (skip : nat) (cur l : bytes) : list bytes :=
  match l with
  | [] => flush cur
  | x :: r =>
      match skip with
      | S k => lfields k cur r
      | O => match space_width l with
             | O => lfields 0 (x :: cur) r
             | S k => flush cur ++ lfields k [] r
             end
      end
  end.
(** [strings.Fields] *)
Definition fields (s : string) : list string := map of_bytes (lfields 0 [] (to_bytes s)).

Fixpoint ltrim (width : bytes -> nat) (skip : nat) (l : bytes) : bytes :=
  match l with
  | [] => []
  | x :: r =>
      match skip with
      | S k => ltrim width k r
      | O => match width l with
             | O => l
             | S k => ltrim width k r
             end
      end
  end.
Definition ltrim_space (l : bytes) : bytes :=
  rev (ltrim space_width_rev 0 (rev (ltrim space_width 0 l))).
(** [strings.TrimSpace] *)
Definition trim_space (s : string) : string := of_bytes (ltrim_space (to_bytes s)).

Fixpoint ldrop_while (f : ascii -> bool) (l : bytes) : bytes :=
  match l with
  | [] => []
  | x :: r => if f x then ldrop_while f r else l
  end.
(** [strings.TrimRight], [strings.TrimLeft] and [strings.Trim] with a set of ASCII bytes. *)
Definition trim_right (s set : string) : string :=
  of_bytes (rev (ldrop_while (one_of set) (rev (to_bytes s)))).
Definition trim_left (s set : string) : string :=
  of_bytes (ldrop_while (one_of set) (to_bytes s)).
Definition trim (s set : string) : string := trim_right (trim_left s set) set.

(** [strings.ToLower], as far as a comparison with a text of ASCII letters can tell: of the
    runes outside of ASCII only U+0130 and U+212A (in UTF-8) have an ASCII letter as lower case. *)
Definition lower (a : ascii) : ascii := if is_upper a then chr (code a + 32) else a.
Fixpoint llower (l : bytes) : bytes :=
  match l with
  | a :: ((b :: r) as l1) =>
      if (code a =? 196) && (code b =? 176) then "i"%char :: llower r else
      match r with
      | c :: r1 => if (code a =? 226) && (code b =? 132) && (code c =? 170) then "k"%char :: llower r1 else lower a :: llower l1
      | [] => lower a :: llower l1
      end
  | [a] => [lower a]
  | [] => []
  end.
Definition to_lower (s : string) : string := of_bytes (llower (to_bytes s)).

(** [strings.ReplaceAll] of one byte. *)
Definition replace_byte (s : string) (c : ascii) (by_ : string) : string :=
  of_bytes (flat_map (fun x => if Ascii.eqb x c then to_bytes by_ else [x]) (to_bytes s)).

(** ** strconv *)

Definition digit (a : ascii) : Z := code a - 48.
Definition digits_value (l : bytes) : Z := fold_left (fun acc a => acc * 10 + digit a) l 0.

(** [strconv.Atoi]: an optional sign and decimal digits, within 64 bits. *)
Definition atoi (s : string) : option Z :=
  let '(neg, ds) :=
    match to_bytes s with
    | c :: r => if Ascii.eqb c "-"%char then (true, r)
                else if Ascii.eqb c "+"%char then (false, r) else (false, c :: r)
    | [] => (false, [])
    end in
  match ds with
  | [] => None
  | _ => if forallb is_digit ds then
           let v := if neg : bool then - digits_value ds else digits_value ds in
           if (int64_min <=? v) && (v <=? int64_max) then Some v else None
         else None
  end.

Fixpoint dec_digits (fuel : nat) (z : Z) (acc : bytes) : bytes :=
  match fuel with
  | O => acc
  | S f => let acc' := chr (48 + z mod 10) :: acc in
           if z / 10 =? 0 then acc' else dec_digits f (z / 10) acc'
  end.
(** [strconv.Itoa]; 20 digits hold every 64-bit value. *)
Definition itoa (z : Z) : string :=
  of_bytes (if z <? 0 then "-"%char :: dec_digits 20 (- z) [] else dec_digits 20 z []).

Arguments split c%_char s%_string.
Arguments cut c%_char s%_string.
Arguments replace_byte s%_string c%_char by_%_string.
Arguments contains_byte s%_string c%_char.

(** * Lemmas *)

Create HintDb gostr.
Create Rewrite HintDb gostr.

Lemma of_to_bytes s : of_bytes (to_bytes s) = s.
Proof. apply string_of_list_ascii_of_string. Qed.
Lemma to_of_bytes l : to_bytes (of_bytes l) = l.
Proof. apply list_ascii_of_string_of_list_ascii. Qed.
#[export] Hint Rewrite of_to_bytes to_of_bytes : gostr.

Lemma to_bytes_inj s t : to_bytes s = to_bytes t -> s = t.
Proof. intros H. by rewrite <- (of_to_bytes s), <- (of_to_bytes t), H. Qed.
Lemma of_bytes_inj s t : of_bytes s = of_bytes t -> s = t.
Proof. intros H. by rewrite <- (to_of_bytes s), <- (to_of_bytes t), H. Qed.

Lemma to_bytes_app s t : to_bytes (s +:+ t) = (to_bytes s ++ to_bytes t)%list.
Proof. unfold to_bytes. induction s; simpl; [done|]. by rewrite IHs. Qed.
Lemma of_bytes_app s t : of_bytes (s ++ t)%list = of_bytes s +:+ of_bytes t.
Proof. apply to_bytes_inj. by rewrite to_bytes_app, !to_of_bytes. Qed.
Lemma length_to_bytes s : length (to_bytes s) = String.length s.
Proof. unfold to_bytes. induction s; simpl; congruence. Qed.
Lemma length_of_bytes l : String.length (of_bytes l) = length l.
Proof. by rewrite <- length_to_bytes, to_of_bytes. Qed.
Lemma string_app_length s t : String.length (s +:+ t) = (String.length s + String.length t)%nat.
Proof. rewrite <- !length_to_bytes, to_bytes_app. apply length_app. Qed.
Lemma string_app_nil_r s : s +:+ "" = s.
Proof. apply to_bytes_inj. rewrite to_bytes_app. apply app_nil_r. Qed.
Lemma string_app_assoc (s t u : string) : (s +:+ t) +:+ u = s +:+ (t +:+ u).
Proof. apply to_bytes_inj. rewrite !to_bytes_app. by rewrite app_assoc. Qed.
Lemma to_bytes_nil s : to_bytes s = [] -> s = "".
Proof. intros H. apply to_bytes_inj. by rewrite H. Qed.
#[export] Hint Rewrite to_bytes_app of_bytes_app length_to_bytes length_of_bytes : gostr.

Lemma code_range a : 0 <= code a < 256.
Proof. unfold code. pose proof (N_ascii_bounded a). lia. Qed.
Lemma code_chr z : 0 <= z < 256 -> code (chr z) = z.
Proof. intros. unfold code, chr. rewrite N_ascii_embedding; lia. Qed.
Lemma code_inj a b : code a = code b -> a = b.
Proof.
  unfold code. intros H. rewrite <- (ascii_N_embedding a), <- (ascii_N_embedding b).
  f_equal. lia.
Qed.
Lemma chr_code a : chr (code a) = a.
Proof. apply code_inj, code_chr, code_range. Qed.

Lemma sall_forall f s : sall f s = true <-> forall c, In c (to_bytes s) -> f c = true.
Proof. apply forallb_forall. Qed.
Lemma sall_app f s t : sall f (s +:+ t) = sall f s && sall f t.
Proof. unfold sall. rewrite to_bytes_app. apply forallb_app. Qed.
Lemma sall_of_bytes f l : sall f (of_bytes l) = forallb f l.
Proof. unfold sall. by rewrite to_of_bytes. Qed.
Lemma sany_false_sall f s : sany f s = false <-> sall (fun c => negb (f c)) s = true.
Proof.
  unfold sany, sall. induction (to_bytes s) as [|c l IH]; simpl; [done|].
  destruct (f c); simpl; [split; discriminate|done].
Qed.
Lemma sall_impl (f g : ascii -> bool) s :
  (forall c, f c = true -> g c = true) -> sall f s = true -> sall g s = true.
Proof. rewrite !sall_forall. auto. Qed.
Lemma contains_byte_false s c : contains_byte s c = false <-> ~ In c (to_bytes s).
Proof.
  unfold contains_byte, sany. rewrite <- not_true_iff_false, existsb_exists.
  split; intros H.
  - intros Hin. apply H. exists c. by rewrite Ascii.eqb_refl.
  - intros (x & Hx & He). apply Ascii.eqb_eq in He. by subst.
Qed.

(** ** Prefixes *)

Lemma lprefix_spec p l : lprefix p l = true <-> exists r, l = (p ++ r)%list.
Proof.
  revert l. induction p as [|a p IH]; intros l; simpl.
  - split; [by exists l | done].
  - destruct l as [|b l]; [split; [done | by intros (r & [=])]|].
    rewrite andb_true_iff, IH, Ascii.eqb_eq. split.
    + intros (-> & r & ->). by exists r.
    + intros (r & [= -> ->]). eauto.
Qed.
Lemma has_prefix_spec s p : has_prefix s p = true <-> exists r, s = p +:+ r.
Proof.
  unfold has_prefix. rewrite lprefix_spec. split; intros (r & H).
  - exists (of_bytes r). apply to_bytes_inj. by rewrite to_bytes_app, to_of_bytes.
  - exists (to_bytes r). by rewrite H, to_bytes_app.
Qed.
Lemma has_prefix_app p r : has_prefix (p +:+ r) p = true.
Proof. apply has_prefix_spec. eauto. Qed.
Lemma has_suffix_spec s p : has_suffix s p = true <-> exists r, s = r +:+ p.
Proof.
  unfold has_suffix. rewrite lprefix_spec. split; intros (r & H).
  - exists (of_bytes (rev r)). apply to_bytes_inj. rewrite to_bytes_app, to_of_bytes.
    rewrite <- (rev_involutive (to_bytes s)), H, rev_app_distr. by rewrite rev_involutive.
  - exists (rev (to_bytes r)). by rewrite H, to_bytes_app, rev_app_distr.
Qed.

Lemma sdrop_app p r : sdrop (String.length p) (p +:+ r) = r.
Proof.
  unfold sdrop. rewrite to_bytes_app, drop_app_length'; [apply of_to_bytes|].
  by rewrite length_to_bytes.
Qed.
Lemma trim_prefix_app p r : trim_prefix (p +:+ r) p = r.
Proof. unfold trim_prefix. by rewrite has_prefix_app, sdrop_app. Qed.
Lemma trim_suffix_app p r : trim_suffix (r +:+ p) p = r.
Proof.
  unfold trim_suffix. replace (has_suffix (r +:+ p) p) with true
    by (symmetry; apply has_suffix_spec; eauto).
  unfold stake. rewrite to_bytes_app, string_app_length.
  rewrite Nat.add_sub, <- length_to_bytes, take_app_length. apply of_to_bytes.
Qed.
#[export] Hint Rewrite trim_prefix_app trim_suffix_app has_prefix_app : gostr.

(** ** Splitting and joining *)

Lemma lsplit_not_nil c l : lsplit c l <> [].
Proof. destruct l as [|x l]; simpl; [done|]. destruct (Ascii.eqb x c), (lsplit c l); done. Qed.

Lemma lsplit_app c w l :
  ~ In c w -> lsplit c (w ++ l)%list =
    match lsplit c l with h :: t => (w ++ h)%list :: t | [] => [] end.
Proof.
  induction w as [|x w IH]; intros Hn; simpl.
  - by destruct (lsplit c l) eqn:E.
  - destruct (Ascii.eqb x c) eqn:E; [apply Ascii.eqb_eq in E; subst; exfalso; apply Hn; by left|].
    rewrite IH by (intros ?; apply Hn; by right).
    destruct (lsplit c l) eqn:E2; [by apply lsplit_not_nil in E2|done].
Qed.

Lemma lsplit_no_sep c l : ~ In c l -> lsplit c l = [l].
Proof. intros H. rewrite <- (app_nil_r l) at 1. rewrite lsplit_app by done. simpl. by rewrite app_nil_r. Qed.

Lemma lsplit_join c l : l <> [] -> Forall (fun w => ~ In c w) l -> lsplit c (ljoin [c] l) = l.
Proof.
  induction l as [|w l IH]; intros Hne Hf; [done|].
  inversion Hf as [|? ? Hw Hl]; subst. destruct l as [|w' l].
  - simpl. by apply lsplit_no_sep.
  - change (ljoin [c] (w :: w' :: l)) with (w ++ ([c] ++ ljoin [c] (w' :: l)))%list.
    rewrite lsplit_app by done.
    change (lsplit c ([c] ++ ljoin [c] (w' :: l))%list)
      with (if Ascii.eqb c c then [] :: lsplit c (ljoin [c] (w' :: l)) else
            match lsplit c (ljoin [c] (w' :: l)) with h :: t => (c :: h) :: t | [] => [[c]] end).
    rewrite Ascii.eqb_refl, app_nil_r. by rewrite IH.
Qed.

Lemma ljoin_lsplit c l : ljoin [c] (lsplit c l) = l.
Proof.
  induction l as [|x l IH]; [done|]. simpl. destruct (Ascii.eqb x c) eqn:E.
  - apply Ascii.eqb_eq in E as ->. destruct (lsplit c l) eqn:E2; [by apply lsplit_not_nil in E2|].
    by rewrite <- IH.
  - destruct (lsplit c l) as [|h t] eqn:E2; [by apply lsplit_not_nil in E2|].
    rewrite <- IH. by destruct t.
Qed.

Lemma lsplit_pieces c l : Forall (fun w => ~ In c w) (lsplit c l).
Proof.
  induction l as [|x l IH]; simpl; [repeat constructor; by intros []|].
  destruct (Ascii.eqb x c) eqn:E; [constructor; [by intros []|done]|].
  destruct (lsplit c l) as [|h t] eqn:E2; [by apply lsplit_not_nil in E2|].
  inversion IH; subst. constructor; [|done].
  intros [->|Hin]; [by rewrite Ascii.eqb_refl in E|done].
Qed.

Definition byte_str (c : ascii) : string := of_bytes [c].

Lemma map_to_of_bytes (l : list bytes) : map to_bytes (map of_bytes l) = l.
Proof. induction l; simpl; [done|]. by rewrite to_of_bytes, IHl. Qed.
Lemma map_of_to_bytes (l : list string) : map of_bytes (map to_bytes l) = l.
Proof. induction l; simpl; [done|]. by rewrite of_to_bytes, IHl. Qed.

(** Splitting and joining again gives the text back. *)
Lemma join_split c s : join (byte_str c) (split c s) = s.
Proof.
  unfold join, split, byte_str. rewrite map_to_of_bytes, to_of_bytes, ljoin_lsplit. apply of_to_bytes.
Qed.
(** Joining pieces without the separator and splitting gives the pieces back. *)
Lemma split_join c l :
  l <> [] -> Forall (fun w => contains_byte w c = false) l -> split c (join (byte_str c) l) = l.
Proof.
  intros Hne Hf. unfold join, split, byte_str. rewrite !to_of_bytes, lsplit_join.
  - apply map_of_to_bytes.
  - by destruct l.
  - apply Forall_map. eapply Forall_impl; [exact Hf|]. intros w. by rewrite contains_byte_false.
Qed.
Lemma split_not_nil c s : split c s <> [].
Proof. unfold split. pose proof (lsplit_not_nil c (to_bytes s)). by destruct (lsplit _ _). Qed.

Lemma join_cons sep x y l : join sep (x :: y :: l) = x +:+ sep +:+ join sep (y :: l).
Proof.
  apply to_bytes_inj. unfold join. rewrite !to_bytes_app, !to_of_bytes. done.
Qed.
Lemma join_one sep x : join sep [x] = x.
Proof. unfold join. simpl. apply of_to_bytes. Qed.

Lemma lcut_app c w l : ~ In c w -> lcut c (w ++ c :: l)%list = Some (w, l).
Proof.
  induction w as [|x w IH]; intros Hn; simpl; [by rewrite Ascii.eqb_refl|].
  destruct (Ascii.eqb x c) eqn:E; [apply Ascii.eqb_eq in E; subst; exfalso; apply Hn; by left|].
  rewrite IH; [done|]. intros ?; apply Hn; by right.
Qed.
Lemma cut_app c a b : contains_byte a c = false -> cut c (a +:+ byte_str c +:+ b) = Some (a, b).
Proof.
  intros H. apply contains_byte_false in H. unfold cut, byte_str.
  rewrite !to_bytes_app, to_of_bytes. simpl. rewrite lcut_app by done. by rewrite !of_to_bytes.
Qed.
Lemma lcut_none c l : lcut c l = None <-> ~ In c l.
Proof.
  induction l as [|x l IH]; simpl; [by split; [intros _ []|]|].
  destruct (Ascii.eqb x c) eqn:E.
  - apply Ascii.eqb_eq in E as ->. split; [done|]. intros H. exfalso. apply H. by left.
  - apply Ascii.eqb_neq in E. destruct (lcut c l) as [[a b]|].
    + split; [done|]. intros H. assert (~ In c l) as Hn by tauto. by apply IH in Hn.
    + split; [|done]. intros _ [->|Hi]; [done|]. by apply IH.
Qed.
Lemma cut_none c s : cut c s = None <-> contains_byte s c = false.
Proof.
  rewrite contains_byte_false, <- lcut_none. unfold cut. by destruct (lcut c (to_bytes s)) as [[a b]|].
Qed.
Lemma lcut_some c l a b : lcut c l = Some (a, b) -> l = (a ++ c :: b)%list /\ ~ In c a.
Proof.
  revert a b. induction l as [|x l IH]; intros a b; simpl; [done|].
  destruct (Ascii.eqb x c) eqn:E.
  - apply Ascii.eqb_eq in E as ->. intros [= <- <-]. split; [done|by intros []].
  - destruct (lcut c l) as [[a' b']|] eqn:E2; [|done]. intros [= <- <-].
    destruct (IH _ _ eq_refl) as [-> Hn]. split; [done|].
    apply Ascii.eqb_neq in E. intros [->|?]; done.
Qed.
Lemma cut_some c s a b : cut c s = Some (a, b) -> s = a +:+ byte_str c +:+ b /\ contains_byte a c = false.
Proof.
  unfold cut. destruct (lcut c (to_bytes s)) as [[x y]|] eqn:E; [|done]. intros [= <- <-].
  apply lcut_some in E as [E Hn]. split.
  - apply to_bytes_inj. unfold byte_str. by rewrite !to_bytes_app, !to_of_bytes.
  - apply contains_byte_false. by rewrite to_of_bytes.
Qed.

(** ** Fields and white space *)

(** A byte that is neither white space nor part of a multi-byte rune. *)
Definition plain (c : ascii) : bool := (code c <? 128) && negb (ascii_space c).

(** UTF-8 continuation bytes. *)
Definition cont (c : ascii) : bool := (128 <=? code c) && (code c <? 192).
Definition starts_rune (l : bytes) : Prop :=
  match l with c :: _ => cont c = false | [] => True end.

Lemma space_width_plain c l : plain c = true -> space_width (c :: l) = 0%nat.
Proof.
  unfold plain, ascii_space, between. intros H.
  unfold space_width. simpl take. cbn [map].
  replace (((9 <=? code c) && (code c <=? 13)) || (code c =? 32)) with false by lia.
  by replace (code c <? 128) with true by lia.
Qed.

Lemma space_width_app l w : l <> [] -> starts_rune w -> space_width (l ++ w)%list = space_width l.
Proof.
  intros Hl Hw. destruct l as [|a l]; [done|].
  destruct l as [|b l]; [|destruct l as [|c l]; [|done]].
  - destruct w as [|x w]; [done|]. simpl in Hw. unfold space_width, cont in *.
    change (take 3 ([a] ++ x :: w)%list) with (a :: x :: take 1 w). cbn [map take].
    destruct (((9 <=? code a) && (code a <=? 13)) || (code a =? 32)); [done|].
    destruct (code a <? 128); [done|].
    replace ((code a =? 194) && ((code x =? 133) || (code x =? 160))) with false by lia.
    destruct w as [|y w]; [done|]. cbn [map take].
    match goal with |- (if ?b then _ else _) = _ => replace b with false by lia end. done.
  - destruct w as [|x w]; [done|]. simpl in Hw. unfold space_width, cont in *.
    change (take 3 ([a; b] ++ x :: w)%list) with [a; b; x]. cbn [map take].
    destruct (((9 <=? code a) && (code a <=? 13)) || (code a =? 32)); [done|].
    destruct (code a <? 128); [done|].
    destruct ((code a =? 194) && ((code b =? 133) || (code b =? 160))); [done|].
    match goal with |- (if ?b then _ else _) = _ => replace b with false by lia end. done.
Qed.

Lemma space_width_le l : (space_width l <= length l)%nat.
Proof.
  unfold space_width. destruct l as [|a [|b [|c l]]]; simpl; try lia; repeat split_match; simpl in *; lia.
Qed.

(** A space rune starts with a byte that is not a continuation byte. *)
Lemma space_width_starts l : (0 < space_width l)%nat -> starts_rune l.
Proof.
  destruct l as [|a l]; [done|]. simpl. unfold cont.
  destruct ((128 <=? code a) && (code a <? 192)) eqn:E; [|done]. intros H. exfalso.
  unfold space_width in H. simpl in H. repeat split_match; lia.
Qed.


(** A white space rune after [l] ends the last field of [l]. *)
Lemma lfields_app_space k cur l w t :
  (k <= length l)%nat -> w <> [] -> space_width (w ++ t)%list = length w ->
  lfields k cur (l ++ w ++ t)%list = (lfields k cur l ++ lfields 0 [] t)%list.
Proof.
  intros Hk Hw0 Hw.
  assert (Hskip : forall u c, lfields (length u) c (u ++ t)%list = lfields 0 c t).
  { intros u. induction u as [|x u IH]; intros c; simpl; [done|apply IH]. }
  assert (Hst : starts_rune (w ++ t)%list).
  { apply space_width_starts. rewrite Hw. destruct w; [done|simpl; lia]. }
  revert k cur Hk. induction l as [|x l IH]; intros k cur Hk; simpl in Hk.
  - replace k with 0%nat by lia. destruct w as [|x w]; [done|]. cbn [app] in *.
    cbn [lfields]. rewrite Hw. cbn [length]. by rewrite Hskip.
  - cbn [app lfields]. destruct k as [|k]; [|apply IH; lia].
    change (x :: (l ++ w ++ t))%list with ((x :: l) ++ w ++ t)%list.
    rewrite space_width_app by done.
    pose proof (space_width_le (x :: l)) as Hle. simpl in Hle.
    destruct (space_width (x :: l)) as [|m]; [by rewrite IH by lia|].
    rewrite IH by lia. by rewrite app_assoc.
Qed.

Lemma fields_space s t : fields (s +:+ " " +:+ t) = (fields s ++ fields t)%list.
Proof.
  unfold fields. rewrite !to_bytes_app. change (to_bytes " ") with [" "%char].
  rewrite lfields_app_space by (done || simpl; lia). by rewrite map_app.
Qed.

Lemma lfields_plain w cur l :
  forallb plain w = true -> lfields 0 cur (w ++ l)%list = lfields 0 (rev w ++ cur)%list l.
Proof.
  revert cur. induction w as [|x w IH]; intros cur Hp; simpl in *; [done|].
  to_prop. rewrite space_width_plain by done. rewrite IH by done. by rewrite <- app_assoc.
Qed.

Lemma fields_word s : s <> "" -> sall plain s = true -> fields s = [s].
Proof.
  intros Hne Hp. unfold fields. rewrite <- (app_nil_r (to_bytes s)), lfields_plain by done.
  simpl. rewrite app_nil_r. destruct (rev (to_bytes s)) as [|x l] eqn:E.
  - exfalso. apply Hne, to_bytes_nil. by rewrite <- (rev_involutive (to_bytes s)), E.
  - simpl. change (rev l ++ [x])%list with (rev (x :: l)). rewrite <- E, rev_involutive.
    simpl. by rewrite of_to_bytes.
Qed.
Lemma fields_nil : fields "" = [].
Proof. done. Qed.

(** Words joined by single spaces are read back by [Fields]. *)
Lemma fields_join ws :
  Forall (fun w => w <> "" /\ sall plain w = true) ws -> fields (join " " ws) = ws.
Proof.
  induction ws as [|w ws IH]; intros Hf; [done|].
  inversion Hf as [|? ? [Hw1 Hw2] Hws]; subst.
  destruct ws as [|w' ws]; [rewrite join_one; by apply fields_word|].
  by rewrite join_cons, fields_space, fields_word, IH.
Qed.

Lemma ltrim_skip k l : (k <= length l)%nat -> ltrim space_width k l = ltrim space_width 0 (drop k l).
Proof.
  revert k. induction l as [|x l IH]; intros k Hk; [destruct k; done|].
  destruct k as [|k]; [done|]. simpl. apply IH. simpl in Hk. lia.
Qed.
Lemma lfields_skip k cur l : (k <= length l)%nat -> lfields k cur l = lfields 0 cur (drop k l).
Proof.
  revert k. induction l as [|x l IH]; intros k Hk; [destruct k; done|].
  destruct k as [|k]; [done|]. cbn [lfields drop]. apply IH. simpl in Hk. lia.
Qed.

Lemma lfields_ltrim l : lfields 0 [] (ltrim space_width 0 l) = lfields 0 [] l.
Proof.
  induction l as [l IH] using (well_founded_induction (Wf_nat.well_founded_ltof _ (@length ascii))).
  destruct l as [|x l]; [done|]. cbn [ltrim lfields].
  pose proof (space_width_le (x :: l)) as Hle. simpl in Hle.
  destruct (space_width (x :: l)) as [|m] eqn:E; [cbn [lfields]; by rewrite E|].
  cbn [flush app]. rewrite (ltrim_skip m l), (lfields_skip m [] l) by lia. apply IH.
  unfold Wf_nat.ltof. rewrite length_drop. simpl. lia.
Qed.

(** What [space_width_rev] finds is a white space rune at the end. *)
Lemma space_width_rev_spec l :
  (0 < space_width_rev l)%nat ->
  (space_width_rev l <= length l)%nat /\
  space_width (rev (take (space_width_rev l) l)) = space_width_rev l.
Proof.
  unfold space_width_rev.
  destruct (Nat.eqb (space_width (rev (take 3 l))) 3) eqn:E3.
  { apply Nat.eqb_eq in E3. intros _. split; [|done].
    pose proof (space_width_le (rev (take 3 l))) as H. rewrite length_rev, length_take in H. lia. }
  destruct (Nat.eqb (space_width (rev (take 2 l))) 2) eqn:E2.
  { apply Nat.eqb_eq in E2. intros _. split; [|done].
    pose proof (space_width_le (rev (take 2 l))) as H. rewrite length_rev, length_take in H. lia. }
  intros H. destruct l as [|x l]; [by apply Nat.lt_irrefl in H|]. change (take 1 (x :: l)) with [x] in *.
  pose proof (space_width_le [x]) as Hl. simpl length in Hl.
  assert (space_width [x] = 1%nat) as E by lia. rewrite E. split; [simpl; lia|exact E].
Qed.

Lemma ltrim_rev_skip k l :
  (k <= length l)%nat -> ltrim space_width_rev k l = ltrim space_width_rev 0 (drop k l).
Proof.
  revert k. induction l as [|x l IH]; intros k Hk; [destruct k; done|].
  destruct k as [|k]; [done|]. cbn [ltrim drop]. apply IH. simpl in Hk. lia.
Qed.

Lemma lfields_rtrim l cur : lfields 0 cur (rev (ltrim space_width_rev 0 l)) = lfields 0 cur (rev l).
Proof.
  induction l as [l IH] using (well_founded_induction (Wf_nat.well_founded_ltof _ (@length ascii))).
  destruct l as [|x l]; [done|]. cbn [ltrim].
  destruct (space_width_rev (x :: l)) as [|m] eqn:E; [done|].
  destruct (space_width_rev_spec (x :: l)) as [Hle Hsp]; [lia|]. rewrite E in Hle, Hsp.
  rewrite ltrim_rev_skip by (simpl in Hle; lia).
  rewrite IH by (unfold Wf_nat.ltof; rewrite length_drop; simpl; lia).
  rewrite <- (take_drop (S m) (x :: l)), rev_app_distr.
  rewrite <- (app_nil_r (rev (take (S m) (x :: l)))).
  rewrite lfields_app_space.
  - simpl. by rewrite app_nil_r.
  - lia.
  - simpl. by destruct (rev (take m l)).
  - rewrite app_nil_r, Hsp, length_rev, length_take. lia.
Qed.

(** Trimming white space does not change the fields. *)
Lemma fields_trim_space s : fields (trim_space s) = fields s.
Proof.
  unfold fields, trim_space, ltrim_space. rewrite to_of_bytes, lfields_rtrim, rev_involutive.
  by rewrite lfields_ltrim.
Qed.

Lemma ltrim_no_space l : space_width l = 0%nat -> ltrim space_width 0 l = l.
Proof. destruct l; [done|]. cbn [ltrim]. by intros ->. Qed.

(** A text that starts and ends with plain bytes is not changed by [TrimSpace]. *)
Lemma trim_space_plain c l d :
  plain c = true -> plain d = true -> ltrim_space (c :: l ++ [d])%list = (c :: l ++ [d])%list.
Proof.
  intros Hc Hd. unfold ltrim_space. rewrite ltrim_no_space by by apply space_width_plain.
  change (c :: l ++ [d])%list with ((c :: l) ++ [d])%list.
  rewrite rev_app_distr. change (rev [d] ++ rev (c :: l))%list with (d :: rev (c :: l)).
  cbn [ltrim]. replace (space_width_rev (d :: rev (c :: l))) with 0%nat.
  - change (rev (d :: rev (c :: l))) with (rev (rev (c :: l)) ++ [d])%list.
    by rewrite rev_involutive.
  - unfold plain, ascii_space, between in Hd. unfold space_width_rev.
    assert (Hend : forall p n, length p = n -> (1 < S n)%nat -> space_width (p ++ [d])%list <> S n).
    { intros p n Hp Hn Hsw. rewrite space_width_app in Hsw.
      - pose proof (space_width_le p). lia.
      - destruct p; simpl in *; [lia|done].
      - simpl. unfold cont. lia. }
    destruct (rev (c :: l)) as [|x [|y r]] eqn:Er.
    + simpl in Er. by destruct (rev l).
    + change (rev (take 3 [d; x])) with ([x] ++ [d])%list.
      change (rev (take 2 [d; x])) with ([x] ++ [d])%list.
      pose proof (Hend [x] 1%nat eq_refl). pose proof (space_width_le ([x] ++ [d])%list) as Hle.
      simpl length in Hle.
      destruct (Nat.eqb_spec (space_width ([x] ++ [d])%list) 3); [lia|].
      destruct (Nat.eqb_spec (space_width ([x] ++ [d])%list) 2); [lia|].
      symmetry. apply space_width_plain. unfold plain, ascii_space, between. lia.
    + change (rev (take 3 (d :: x :: y :: r))) with ([y; x] ++ [d])%list.
      change (rev (take 2 (d :: x :: y :: r))) with ([x] ++ [d])%list.
      pose proof (Hend [x] 1%nat eq_refl). pose proof (Hend [y; x] 2%nat eq_refl).
      destruct (Nat.eqb_spec (space_width ([y; x] ++ [d])%list) 3); [lia|].
      destruct (Nat.eqb_spec (space_width ([x] ++ [d])%list) 2); [lia|].
      symmetry. apply space_width_plain. unfold plain, ascii_space, between. lia.
Qed.

(** ** Decimal numbers *)

Lemma digit_chr d : 0 <= d < 10 -> is_digit (chr (48 + d)) = true /\ digit (chr (48 + d)) = d.
Proof. intros. unfold is_digit, between, digit. rewrite code_chr by lia. lia. Qed.

Lemma digits_value_snoc l a : digits_value (l ++ [a])%list = digits_value l * 10 + digit a.
Proof. unfold digits_value. by rewrite fold_left_app. Qed.

Lemma dec_digits_spec fuel z acc :
  0 <= z < 10 ^ Z.of_nat fuel ->
  exists d, dec_digits fuel z acc = (d ++ acc)%list /\ forallb is_digit d = true /\
            digits_value d = z /\ (d = [] -> fuel = 0%nat).
Proof.
  revert z acc. induction fuel as [|fuel IH]; intros z acc Hz.
  { exists []. simpl in *. unfold digits_value. simpl. repeat split; lia. }
  cbn [dec_digits]. pose proof (Z.mod_pos_bound z 10). pose proof (Z.div_mod z 10).
  destruct (digit_chr (z mod 10)) as [Hd1 Hd2]; [lia|].
  destruct (z / 10 =? 0) eqn:E; to_prop.
  - exists [chr (48 + z mod 10)]. simpl. rewrite Hd1. unfold digits_value. simpl.
    rewrite Hd2. repeat split; (done || lia).
  - destruct (IH (z / 10) (chr (48 + z mod 10) :: acc)) as (d & He & Hf & Hv & Hn).
    { rewrite Nat2Z.inj_succ, Z.pow_succ_r in Hz by lia. split; [lia|].
      apply Z.div_lt_upper_bound; lia. }
    exists (d ++ [chr (48 + z mod 10)])%list. rewrite He. split; [by rewrite <- app_assoc|].
    rewrite forallb_app, Hf. simpl. rewrite Hd1, digits_value_snoc, Hv, Hd2.
    repeat split; try lia. by destruct d.
Qed.

(** What a non-negative number is printed as. *)
Lemma itoa_digits z :
  0 <= z <= int64_max ->
  exists d, to_bytes (itoa z) = d /\ forallb is_digit d = true /\ digits_value d = z /\ d <> [].
Proof.
  unfold int64_max. intros Hz. unfold itoa. replace (z <? 0) with false by lia.
  rewrite to_of_bytes. destruct (dec_digits_spec 20 z []) as (d & He & Hf & Hv & Hn).
  { split; [lia|]. eapply Z.le_lt_trans; [apply Hz|]. by vm_compute. }
  exists d. rewrite He, app_nil_r. repeat split; try done. intros ->. by specialize (Hn eq_refl).
Qed.

Lemma atoi_digits d :
  d <> [] -> forallb is_digit d = true -> digits_value d <= int64_max -> 0 <= digits_value d ->
  atoi (of_bytes d) = Some (digits_value d).
Proof.
  intros Hne Hf Hv H0. unfold atoi. rewrite to_of_bytes. destruct d as [|c d]; [done|].
  pose proof Hf as Hf'. simpl in Hf'. to_prop.
  assert (Ascii.eqb c "-"%char = false) as ->.
  { apply Ascii.eqb_neq. intros ->. by vm_compute in H. }
  assert (Ascii.eqb c "+"%char = false) as ->.
  { apply Ascii.eqb_neq. intros ->. by vm_compute in H. }
  rewrite Hf. unfold int64_min.
  replace (-2 ^ 63 <=? digits_value (c :: d)) with true by (change (-2^63) with (-9223372036854775808); lia).
  by replace (digits_value (c :: d) <=? int64_max) with true by lia.
Qed.

(** Printing and reading a number gives it back. *)
Lemma atoi_itoa z : 0 <= z <= int64_max -> atoi (itoa z) = Some z.
Proof.
  intros Hz. destruct (itoa_digits z Hz) as (d & He & Hf & Hv & Hne).
  rewrite <- (of_to_bytes (itoa z)), He. rewrite atoi_digits by (try done; lia). by rewrite Hv.
Qed.
Lemma itoa_inj a b : 0 <= a <= int64_max -> 0 <= b <= int64_max -> itoa a = itoa b -> a = b.
Proof. intros Ha Hb H. pose proof (atoi_itoa a Ha). pose proof (atoi_itoa b Hb). congruence. Qed.
(** Different numbers at the end of a text make it different. *)
Lemma numbered_inj base a b :
  0 <= a <= int64_max -> 0 <= b <= int64_max -> base +:+ "-" +:+ itoa a = base +:+ "-" +:+ itoa b -> a = b.
Proof.
  intros Ha Hb H. apply (f_equal to_bytes) in H. rewrite !to_bytes_app in H. do 2 apply app_inv_head in H.
  apply to_bytes_inj in H. by apply itoa_inj.
Qed.
Lemma itoa_sall (f : ascii -> bool) z :
  0 <= z <= int64_max -> (forall c, is_digit c = true -> f c = true) -> sall f (itoa z) = true.
Proof.
  intros Hz Hf. destruct (itoa_digits z Hz) as (d & He & Hd & _). apply sall_forall.
  rewrite He. intros c Hc. apply Hf. rewrite forallb_forall in Hd. auto.
Qed.
Lemma itoa_not_empty z : 0 <= z <= int64_max -> itoa z <> "".
Proof. intros Hz E. destruct (itoa_digits z Hz) as (d & He & _ & _ & Hne). rewrite E in He. by subst. Qed.

Lemma digit_plain c : is_digit c = true -> plain c = true.
Proof. unfold is_digit, plain, ascii_space, between. lia. Qed.
#[export] Hint Resolve digit_plain : gostr.

(** ** White space trimming keeps plain bytes *)

Lemma space_width_not_plain l c : In c (take (space_width l) l) -> plain c = false.
Proof.
  unfold space_width, plain, ascii_space, between. intros H.
  destruct l as [|a [|b [|d l]]]; simpl in H; [done|..];
    repeat match type of H with context [if ?b then _ else _] => destruct b eqn:? end;
    simpl in H; intuition (subst; lia).
Qed.

Lemma ltrim_keeps l c : In c l -> plain c = true -> In c (ltrim space_width 0 l).
Proof.
  induction l as [l IH] using (well_founded_induction (Wf_nat.well_founded_ltof _ (@length ascii))).
  destruct l as [|x l]; [done|]. intros Hin Hc. cbn [ltrim].
  destruct (space_width (x :: l)) as [|m] eqn:E; [done|].
  pose proof (space_width_le (x :: l)) as Hle. rewrite E in Hle. simpl in Hle.
  rewrite ltrim_skip by lia. apply IH; [unfold Wf_nat.ltof; rewrite length_drop; simpl; lia| |done].
  rewrite <- (take_drop (S m) (x :: l)) in Hin. apply in_app_iff in Hin as [Hin|Hin]; [|done].
  rewrite <- E in Hin. apply space_width_not_plain in Hin. congruence.
Qed.

Lemma ltrim_rev_keeps l c : In c l -> plain c = true -> In c (ltrim space_width_rev 0 l).
Proof.
  induction l as [l IH] using (well_founded_induction (Wf_nat.well_founded_ltof _ (@length ascii))).
  destruct l as [|x l]; [done|]. intros Hin Hc. cbn [ltrim].
  destruct (space_width_rev (x :: l)) as [|m] eqn:E; [done|].
  destruct (space_width_rev_spec (x :: l)) as [Hle Hsp]; [lia|]. rewrite E in Hle, Hsp. simpl in Hle.
  rewrite ltrim_rev_skip by lia. apply IH; [unfold Wf_nat.ltof; rewrite length_drop; simpl; lia| |done].
  rewrite <- (take_drop (S m) (x :: l)) in Hin. apply in_app_iff in Hin as [Hin|Hin]; [|done].
  exfalso. assert (plain c = false); [|congruence]. apply (space_width_not_plain (rev (take (S m) (x :: l)))).
  rewrite Hsp, firstn_all2; [by apply in_rev in Hin|]. rewrite length_rev, length_take. lia.
Qed.

(** A line that [TrimSpace] empties holds no plain byte. *)
Lemma trim_space_empty s c : trim_space s = "" -> In c (to_bytes s) -> plain c = false.
Proof.
  intros H Hin. destruct (plain c) eqn:Hc; [|done]. exfalso. unfold trim_space, ltrim_space in H.
  apply (ltrim_keeps _ _) in Hin; [|done]. apply in_rev, (ltrim_rev_keeps _ _) in Hin; [|done].
  apply in_rev in Hin. apply (f_equal to_bytes) in H. rewrite to_of_bytes in H. by rewrite H in Hin.
Qed.

(** ** Trimming twice *)

Lemma ltrim_stop width l : (forall x, (width x <= length x)%nat) ->
  forall k, (k <= length l)%nat -> width (ltrim width k l) = 0%nat.
Proof.
  intros Hw. induction l as [|x l IH]; intros k Hk; cbn [ltrim].
  - pose proof (Hw []). simpl in *. lia.
  - destruct k as [|k]; [|apply IH; simpl in Hk; lia].
    destruct (width (x :: l)) as [|m] eqn:E; [done|]. apply IH. pose proof (Hw (x :: l)). simpl in *. lia.
Qed.

Lemma space_width_rev_le l : (space_width_rev l <= length l)%nat.
Proof. destruct (space_width_rev l) eqn:E; [lia|]. rewrite <- E. apply space_width_rev_spec. lia. Qed.

Lemma space_width_prefix p w : space_width (p ++ w)%list = 0%nat -> space_width p = 0%nat.
Proof.
  destruct p as [|a [|b [|c p]]]; [done| | |done];
    (destruct w as [|x [|y w]]; [by rewrite ?app_nil_r|..]); unfold space_width; cbn [app take map];
    repeat match goal with |- context [if ?b then _ else _] => destruct b end; done.
Qed.

Lemma ltrim_suffix width l : forall k, exists p, l = (p ++ ltrim width k l)%list.
Proof.
  induction l as [|x l IH]; intros k; cbn [ltrim]; [by exists []|].
  destruct k as [|k]; [destruct (width (x :: l)) as [|m]; [by exists []|]|];
    (edestruct IH as [p Hp]; exists (x :: p); by rewrite Hp at 1).
Qed.

Lemma ltrim_done width l : width l = 0%nat -> ltrim width 0 l = l.
Proof. destruct l; [done|]. cbn [ltrim]. by intros ->. Qed.

Lemma trim_space_idem s : trim_space (trim_space s) = trim_space s.
Proof.
  unfold trim_space. rewrite to_of_bytes. f_equal. unfold ltrim_space.
  set (m := ltrim space_width 0 (to_bytes s)). set (r := ltrim space_width_rev 0 (rev m)).
  assert (Hm : space_width m = 0%nat) by (apply ltrim_stop; [apply space_width_le|lia]).
  assert (Hr : space_width_rev r = 0%nat) by (apply ltrim_stop; [apply space_width_rev_le|lia]).
  rewrite (ltrim_done _ (rev r)).
  - rewrite rev_involutive. by rewrite (ltrim_done _ r Hr).
  - destruct (ltrim_suffix space_width_rev (rev m) 0) as [p Hp]. fold r in Hp.
    apply (f_equal (@rev ascii)) in Hp. rewrite rev_involutive, rev_app_distr in Hp.
    rewrite Hp in Hm. exact (space_width_prefix _ _ Hm).
Qed.

Lemma trim_space_In s c : In c (to_bytes (trim_space s)) -> In c (to_bytes s).
Proof.
  unfold trim_space, ltrim_space. rewrite to_of_bytes, <- in_rev. intros H.
  destruct (ltrim_suffix space_width (to_bytes s) 0) as [p Hp]. rewrite Hp. apply in_app_iff. right.
  apply in_rev. destruct (ltrim_suffix space_width_rev (rev (ltrim space_width 0 (to_bytes s))) 0) as [q Hq].
  rewrite Hq. apply in_app_iff. by right.
Qed.

(** A text that starts with a plain byte has a first field that starts with it. *)
Lemma lfields_cur l : forall cur, cur <> [] -> exists w r, lfields 0 cur l = (rev cur ++ w)%list :: r.
Proof.
  induction l as [|x l IH]; intros cur Hc; cbn [lfields].
  - exists [], []. rewrite app_nil_r. by destruct cur.
  - destruct (space_width (x :: l)) as [|m].
    + destruct (IH (x :: cur)) as (w & r & ->); [done|]. exists (x :: w), r. simpl. by rewrite <- app_assoc.
    + exists [], (lfields m [] l). rewrite app_nil_r. by destruct cur.
Qed.

Lemma fields_first c s t : plain c = true -> s = byte_str c +:+ t ->
  exists w r, fields s = (byte_str c +:+ w) :: r.
Proof.
  intros Hc ->. unfold fields. rewrite to_bytes_app. unfold byte_str at 1. rewrite to_of_bytes.
  cbn [app lfields]. rewrite space_width_plain by done.
  destruct (lfields_cur (to_bytes t) [c]) as (w & r & ->); [done|]. cbn [map rev app].
  exists (of_bytes w), (map of_bytes r). done.
Qed.

(** ** The words of each line are not changed by trimming the text *)

Lemma space_width_max l : (space_width l <= 3)%nat.
Proof. unfold space_width. destruct l as [|a [|b [|d l]]]; cbn [take map]; repeat case_match; lia. Qed.

Lemma space_width_complete w t : w <> [] -> space_width (w ++ t)%list = length w ->
  forall u, space_width (w ++ u)%list = length w.
Proof.
  intros Hw H u. destruct w as [|a [|b [|c [|d w]]]]; [done|..].
  - revert H. destruct t as [|x [|y t]], u as [|p [|q u]]; unfold space_width; cbn [app take map length];
      repeat match goal with |- context [if ?b then _ else _] => destruct b end; done.
  - revert H. destruct t as [|x t], u as [|p u]; unfold space_width; cbn [app take map length];
      repeat match goal with |- context [if ?b then _ else _] => destruct b end; done.
  - done.
  - exfalso. pose proof (space_width_max ((a :: b :: c :: d :: w) ++ t)%list). simpl in *. lia.
Qed.

Definition newline : ascii := chr 10.

Lemma space_rune_newline w t : space_width (w ++ t)%list = length w -> In newline w -> w = [newline].
Proof.
  intros H Hin. destruct w as [|a [|b [|c [|d w]]]]; [done|..].
  - destruct Hin as [<-|[]]. done.
  - exfalso. unfold space_width in H.
    destruct t as [|x t]; cbn [app take map length] in H;
      destruct Hin as [->|[->|[]]]; change (code newline) with 10 in *;
      repeat match type of H with context [if ?b then _ else _] => destruct b eqn:? end; try done; lia.
  - exfalso. unfold space_width in H. cbn [app take map length] in H.
    destruct Hin as [->|[->|[->|[]]]]; change (code newline) with 10 in *;
      repeat match type of H with context [if ?b then _ else _] => destruct b eqn:? end; try done; lia.
  - exfalso. pose proof (space_width_max ((a :: b :: c :: d :: w) ++ t)%list). simpl in *. lia.
Qed.

(** The words of the lines that hold any. *)
Definition line_words (l : bytes) : list (list bytes) :=
  filter (fun ws => ws <> []) (map (lfields 0 []) (lsplit newline l)).

Lemma lsplit_snoc l w : exists i h, lsplit newline l = (i ++ [h])%list /\
  (~ In newline w -> lsplit newline (l ++ w)%list = (i ++ [h ++ w])%list) /\
  lsplit newline (l ++ [newline])%list = (i ++ [h; []])%list.
Proof.
  induction l as [|x l (i & h & H1 & H2 & H3)].
  - exists [], []. split_and!; [done|intros Hn; by apply lsplit_no_sep|done].
  - cbn [app lsplit]. rewrite H1, H3. destruct (Ascii.eqb x newline) eqn:E.
    + exists ([] :: i), h. split_and!; [done|intros Hn; by rewrite H2|done].
    + destruct i as [|y i].
      * exists [], (x :: h). split_and!; [done|intros Hn; by rewrite H2|done].
      * exists ((x :: y) :: i), h. split_and!; [done|intros Hn; by rewrite H2|done].
Qed.

Lemma line_words_left w t : w <> [] -> space_width (w ++ t)%list = length w -> line_words (w ++ t) = line_words t.
Proof.
  intros Hw H. unfold line_words. destruct (in_dec Ascii.ascii_dec newline w) as [Hin|Hn].
  - rewrite (space_rune_newline w t H Hin). done.
  - rewrite lsplit_app by done. destruct (lsplit newline t) as [|h tl] eqn:E; [by apply lsplit_not_nil in E|].
    cbn [map]. change (w ++ h)%list with ([] ++ w ++ h)%list.
    rewrite lfields_app_space; [done|done|done|]. by apply (space_width_complete w t).
Qed.

Lemma line_words_right l w : w <> [] -> space_width w = length w -> line_words (l ++ w) = line_words l.
Proof.
  intros Hw H. unfold line_words. destruct (lsplit_snoc l w) as (i & h & -> & H2 & H3).
  destruct (in_dec Ascii.ascii_dec newline w) as [Hin|Hn].
  - rewrite (space_rune_newline w []), H3; [|by rewrite app_nil_r|done].
    rewrite !map_app, !filter_app. done.
  - rewrite H2 by done. rewrite !map_app. cbn [map].
    replace (lfields 0 [] (h ++ w)%list) with (lfields 0 [] h); [done|].
    rewrite <- (app_nil_r w). rewrite lfields_app_space; [by rewrite app_nil_r|lia|done|by rewrite app_nil_r].
Qed.

Lemma line_words_ltrim l : line_words (ltrim space_width 0 l) = line_words l.
Proof.
  induction l as [l IH] using (well_founded_induction (Wf_nat.well_founded_ltof _ (@length ascii))).
  destruct l as [|x l]; [done|]. cbn [ltrim].
  destruct (space_width (x :: l)) as [|m] eqn:E; [done|].
  pose proof (space_width_le (x :: l)) as Hle. rewrite E in Hle. simpl in Hle.
  rewrite ltrim_skip by lia. rewrite IH by (unfold Wf_nat.ltof; rewrite length_drop; simpl; lia).
  pose proof (line_words_left (take (S m) (x :: l)) (drop (S m) (x :: l))) as H.
  rewrite take_drop in H. symmetry. apply H; [done|]. rewrite E, length_take. simpl. lia.
Qed.

Lemma line_words_rtrim l : line_words (rev (ltrim space_width_rev 0 l)) = line_words (rev l).
Proof.
  induction l as [l IH] using (well_founded_induction (Wf_nat.well_founded_ltof _ (@length ascii))).
  destruct l as [|x l]; [done|]. cbn [ltrim].
  destruct (space_width_rev (x :: l)) as [|m] eqn:E; [done|].
  destruct (space_width_rev_spec (x :: l)) as [Hle Hsp]; [lia|]. rewrite E in Hle, Hsp.
  rewrite ltrim_rev_skip by (simpl in Hle; lia).
  rewrite IH by (unfold Wf_nat.ltof; rewrite length_drop; simpl; lia).
  pose proof (line_words_right (rev (drop (S m) (x :: l))) (rev (take (S m) (x :: l)))) as H.
  rewrite <- rev_app_distr, take_drop in H. symmetry. apply H.
  - simpl. by destruct (rev (take m l)).
  - rewrite Hsp, length_rev, length_take. lia.
Qed.

Lemma line_words_trim s : line_words (to_bytes (trim_space s)) = line_words (to_bytes s).
Proof.
  unfold trim_space, ltrim_space. by rewrite to_of_bytes, line_words_rtrim, rev_involutive, line_words_ltrim.
Qed.

(** The same for strings. *)
Lemma fields_lines s : filter (fun ws => ws <> []) (map fields (split newline s)) =
  map (map of_bytes) (line_words (to_bytes s)).
Proof.
  unfold line_words, split. induction (lsplit newline (to_bytes s)) as [|x l IH]; [done|].
  cbn [map]. rewrite !filter_cons, IH. replace (fields (of_bytes x)) with (map of_bytes (lfields 0 [] x))
    by (unfold fields; by rewrite to_of_bytes).
  by destruct (lfields 0 [] x).
Qed.

Lemma fields_lines_trim s : filter (fun ws => ws <> []) (map fields (split newline (trim_space s))) =
  filter (fun ws => ws <> []) (map fields (split newline s)).
Proof. by rewrite !fields_lines, line_words_trim. Qed.

Lemma ldrop_while_In f l c : In c (ldrop_while f l) -> In c l.
Proof. induction l as [|x l IH]; simpl; [done|]. destruct (f x); [auto|done]. Qed.

Lemma trim_right_In s set c : In c (to_bytes (trim_right s set)) -> In c (to_bytes s).
Proof.
  unfold trim_right. rewrite to_of_bytes. intros H. apply in_rev in H.
  apply ldrop_while_In in H. by apply in_rev.
Qed.

Lemma trim_right_last s set d : one_of set d = false ->
  trim_right (s +:+ byte_str d) set = s +:+ byte_str d.
Proof.
  intros Hd. unfold trim_right. rewrite to_bytes_app. unfold byte_str at 1. rewrite to_of_bytes.
  rewrite rev_app_distr. cbn [rev app ldrop_while]. rewrite Hd.
  cbn [rev]. by rewrite rev_involutive, of_bytes_app, of_to_bytes.
Qed.

Lemma join_snoc sep l x : l <> [] -> join sep (l ++ [x])%list = join sep l +:+ sep +:+ x.
Proof.
  induction l as [|a [|b l] IH]; intros Hl; [done|..].
  - simpl app. by rewrite join_cons, !join_one.
  - change ((a :: b :: l) ++ [x])%list with (a :: b :: (l ++ [x]))%list.
    rewrite !join_cons. change (b :: l ++ [x])%list with ((b :: l) ++ [x])%list.
    rewrite IH by done. by rewrite !string_app_assoc.
Qed.

(** ** UTF-8 *)

(** Width of the valid encoding [l] starts with, 0 if it starts with none. *)
Definition rune_width (l : bytes) : nat :=
  let in_ lo hi v := (lo <=? v) && (v <=? hi) in
  let cont_ := in_ 0x80 0xBF in
  match map code (take 4 l) with
  | a :: r =>
      if a <? 0x80 then 1%nat else
      match r with
      | b :: r' =>
          if in_ 0xC2 0xDF a && cont_ b then 2%nat else
          match r' with
          | c :: r'' =>
              if ((a =? 0xE0) && in_ 0xA0 0xBF b && cont_ c)
              || ((in_ 0xE1 0xEC a || in_ 0xEE 0xEF a) && cont_ b && cont_ c)
              || ((a =? 0xED) && in_ 0x80 0x9F b && cont_ c) then 3%nat else
              match r'' with
              | d :: _ =>
                  if ((a =? 0xF0) && in_ 0x90 0xBF b && cont_ c && cont_ d)
                  || (in_ 0xF1 0xF3 a && cont_ b && cont_ c && cont_ d)
                  || ((a =? 0xF4) && in_ 0x80 0x8F b && cont_ c && cont_ d) then 4%nat else 0%nat
              | [] => 0%nat
              end
          | [] => 0%nat
          end
      | [] => 0%nat
      end
  | [] => 0%nat
  end.

(** [keep] more bytes belong to the rune that is being copied. *)
Fixpoint valid_bytes (keep : nat) (l : bytes) : bytes :=
  match l with
  | [] => []
  | x :: r =>
      match keep with
      | S k => x :: valid_bytes k r
      | O => match rune_width l with
             | O => valid_bytes 0 r
             | S w => x :: valid_bytes w r
             end
      end
  end.
(** [strings.ToValidUTF8(s, "")] *)
Definition to_valid_utf8 (s : string) : string := of_bytes (valid_bytes 0 (to_bytes s)).
