(* ===== verification/Text.v ===== *)
(** * Text of users, nodes and game servers (packages strings and unicode; manager.go)

    Upper and lower case as the identifiers of the program need them, UTF-8 text as
    a list of runes, and [sanitizeDisplayText], through which every name goes that a
    node or a game server chose. *)

From Stdlib Require Import ZArith Lia Bool String Ascii List.
From stdpp Require Import base strings list.
From S2P Require Import Prelude GoStrings.

(** ** Case *)

Definition lower_ascii (c : ascii) : ascii := if is_upper c then chr (code c + 32) else c.

(** [strings.ToUpper] and [strings.ToLower] where only ASCII letters and digits of
    the result count: base 32, recovery codes, pairing tokens and node IDs.  A few
    letters outside ASCII have an ASCII letter as their other case. *)
Fixpoint upper_bytes (l : bytes) : bytes :=
  match l with
  | a :: ((b :: r) as t) =>
      if (code a =? 0xC4) && (code b =? 0xB1) then "I"%char :: upper_bytes r
      else if (code a =? 0xC5) && (code b =? 0xBF) then "S"%char :: upper_bytes r
      else (if is_lower a then chr (code a - 32) else a) :: upper_bytes t
  | [a] => [if is_lower a then chr (code a - 32) else a]
  | [] => []
  end.
Fixpoint lower_bytes (l : bytes) : bytes :=
  match l with
  | a :: t =>
      match t with
      | b :: r =>
          if (code a =? 0xC4) && (code b =? 0xB0) then "i"%char :: lower_bytes r
          else match r with
               | c :: r' => if (code a =? 0xE2) && (code b =? 0x84) && (code c =? 0xAA)
                            then "k"%char :: lower_bytes r' else lower_ascii a :: lower_bytes t
               | [] => lower_ascii a :: lower_bytes t
               end
      | [] => [lower_ascii a]
      end
  | [] => []
  end.

(** ** Runes *)

(** U+FFFD, which a byte that is no UTF-8 counts as. *)
Definition rune_error : bytes := map chr [0xEF; 0xBF; 0xBD].

(** The runes of a text, each as its encoding: what ranging over a string visits. *)
Fixpoint runes_fuel (fuel : nat) (l : bytes) : list bytes :=
  match fuel, l with
  | S f, x :: r =>
      match rune_width l with
      | O => rune_error :: runes_fuel f r
      | w => take w l :: runes_fuel f (drop w l)
      end
  | _, _ => []
  end.
Definition runes (l : bytes) : list bytes := runes_fuel (length l) l.

(** [unicode.IsControl] of a rune: U+0000 to U+001F and U+007F to U+009F. *)
Definition is_control (r : bytes) : bool :=
  match map code r with
  | [a] => (a <? 0x20) || (a =? 0x7F)
  | [a; b] => (a =? 0xC2) && (b <=? 0x9F)
  | _ => false
  end.

Definition sanitizeDisplayText (s : string) (max : nat) : string :=
  let s := concat (List.filter (fun r => negb (is_control r)) (runes (to_bytes s))) in
  let s := to_bytes (trim_space (of_bytes s)) in
  of_bytes (if (max <? length (runes s))%nat then concat (take max (runes s)) else s).

Example sanitize_vectors :
  sanitizeDisplayText (of_bytes (map chr [32; 65; 10; 0xC2; 0x85; 66; 0xFF; 32])) 64 =
    of_bytes (map chr [65; 66; 0xEF; 0xBF; 0xBD]) /\
  sanitizeDisplayText (of_bytes (map chr [0xC3; 0xA9; 0xC3; 0xA9; 65])) 2 = of_bytes (map chr [0xC3; 0xA9; 0xC3; 0xA9]).
Proof. by vm_compute. Qed.

(** ** Lemmas *)

Lemma rune_width_le l : (rune_width l <= length l)%nat /\ (rune_width l <= 4)%nat.
Proof.
  destruct l as [|a [|b [|c [|d l]]]]; unfold rune_width; cbn -[Z.leb Z.ltb Z.eqb code]; repeat case_match; simpl; lia.
Qed.

(** An encoding is one wherever it stands. *)
Lemma rune_width_prefix c t : rune_width c = length c -> c <> [] -> rune_width (c ++ t)%list = length c.
Proof.
  intros H Hne. pose proof (rune_width_le c) as [_ H4]. rewrite H in H4.
  destruct c as [|a [|b [|c0 [|d [|? ?]]]]]; [done| | | | |simpl in H4; lia].
  all: unfold rune_width in *; revert H; cbn -[Z.leb Z.ltb Z.eqb code app]; cbn [app take map];
    repeat (case_match; try done).
Qed.

Lemma rune_width_take l w : rune_width l = S w -> rune_width (take (S w) l) = S w /\ length (take (S w) l) = S w.
Proof.
  intros H. pose proof (rune_width_le l) as [Hl H4]. rewrite H in Hl, H4. rewrite length_take. split; [|lia].
  destruct l as [|a [|b [|c0 [|d l]]]]; [done|..];
    destruct w as [|[|[|[|?]]]]; try (simpl in Hl; lia); try lia;
    unfold rune_width in *; revert H; cbn -[Z.leb Z.ltb Z.eqb code]; repeat (case_match; try done).
Qed.

(** A valid encoding of one rune. *)
Definition is_rune (r : bytes) : Prop := r <> [] /\ rune_width r = length r.

Lemma runes_fuel_ok f l : Forall is_rune (runes_fuel f l).
Proof.
  revert l. induction f as [|f IH]; intros l; cbn [runes_fuel]; [constructor|]. destruct l as [|x r]; [constructor|].
  destruct (rune_width (x :: r)) as [|w] eqn:E.
  - constructor; [split; [done|by vm_compute]|apply IH].
  - apply rune_width_take in E as [E1 E2]. constructor; [|apply IH]. split; [|by rewrite E1, E2].
    intros H. rewrite H in E2. done.
Qed.

Lemma runes_concat rs : Forall is_rune rs -> runes (concat rs) = rs.
Proof.
  assert (H : forall f, (length (concat rs) <= f)%nat -> Forall is_rune rs -> runes_fuel f (concat rs) = rs).
  { induction rs as [|r rs IH]; intros f Hf Hr; [by destruct f|]. inversion Hr as [|? ? [Hne Hw] Hrs]; subst.
    cbn [concat] in *. rewrite length_app in Hf. destruct r as [|x r]; [done|].
    destruct f as [|f]; [simpl in Hf; lia|]. cbn [app runes_fuel].
    change (x :: (r ++ concat rs))%list with ((x :: r) ++ concat rs)%list. rewrite rune_width_prefix by done.
    cbn [length]. change (S (length r)) with (length (x :: r)). rewrite take_app_length, drop_app_length.
    rewrite IH; [done|simpl in Hf; lia|done]. }
  intros Hr. by apply H.
Qed.

Lemma runes_fuel_length f l : (length (runes_fuel f l) <= length l)%nat.
Proof.
  revert l. induction f as [|f IH]; intros l; cbn [runes_fuel]; [simpl; lia|]. destruct l as [|x r]; [simpl; lia|].
  destruct (rune_width (x :: r)) as [|w]; cbn [length]; [specialize (IH r); lia|].
  specialize (IH (drop (S w) (x :: r))). rewrite length_drop in IH. simpl in *. lia.
Qed.

Lemma runes_fuel_bytes f l c : In c (concat (runes_fuel f l)) -> In c l \/ In c rune_error.
Proof.
  revert l. induction f as [|f IH]; intros l; cbn [runes_fuel]; [done|]. destruct l as [|x r]; [done|].
  destruct (rune_width (x :: r)) as [|w]; cbn [concat]; intros [H|H]%in_app_or.
  - by right.
  - apply IH in H as [H|H]; [left; by right|by right].
  - left. rewrite <- (take_drop (S w) (x :: r)). apply in_or_app. by left.
  - apply IH in H as [H|H]; [|by right]. left. rewrite <- (take_drop (S w) (x :: r)). apply in_or_app. by right.
Qed.

Lemma runes_length_bytes f l : (length l <= f)%nat -> (length l <= 4 * length (runes_fuel f l))%nat.
Proof.
  revert l. induction f as [|f IH]; intros l Hf; cbn [runes_fuel]; [destruct l; simpl in *; lia|].
  destruct l as [|x r]; [simpl; lia|]. pose proof (rune_width_le (x :: r)) as [_ H4].
  destruct (rune_width (x :: r)) as [|w]; cbn [length].
  - specialize (IH r ltac:(simpl in Hf; lia)). simpl. lia.
  - specialize (IH (drop (S w) (x :: r))). rewrite length_drop in IH. simpl in *. lia.
Qed.

(** An encoding with an ASCII byte is that byte. *)
Lemma rune_ascii r c : is_rune r -> In c r -> code c < 0x80 -> r = [c].
Proof.
  intros [Hne Hw] Hin Hc. pose proof (rune_width_le r) as [_ H4]. rewrite Hw in H4.
  destruct r as [|a [|b [|d [|e0 [|? ?]]]]]; [done| | | | |simpl in H4; lia].
  { simpl in Hin. destruct Hin as [->|[]]. done. }
  all: exfalso; unfold rune_width in Hw; revert Hw; cbn -[Z.leb Z.ltb Z.eqb code];
    repeat (case_match; try discriminate); intros _; clear H4; simpl in Hin;
    repeat (match goal with H : _ \/ _ |- _ => destruct H | H : False |- _ => destruct H | H : _ = ?x |- _ => is_var x; subst x end); to_prop; lia.
Qed.

(** What a sanitized text is. *)
Lemma sanitize_ok s max :
  let r := sanitizeDisplayText s max in
  sall (fun c => negb (is_ctl c)) r = true /\
  (length (runes (to_bytes r)) <= max)%nat /\ (String.length r <= 4 * max)%nat.
Proof.
  unfold sanitizeDisplayText. set (l := concat (List.filter _ (runes (to_bytes s)))). set (t := to_bytes (trim_space (of_bytes l))).
  assert (Hl : forall c, In c l -> is_ctl c = false).
  { intros c (r & Hr & Hc)%in_concat. apply filter_In in Hr as [Hr Hk]. apply not_true_iff_false. intros Hctl.
    pose proof (runes_fuel_ok (length (to_bytes s)) (to_bytes s)) as Hok. rewrite Forall_forall in Hok.
    assert (Hlow : code c < 0x80) by (unfold is_ctl in Hctl; to_prop; destruct Hctl; to_prop; lia).
    assert (r = [c]) as -> by (apply rune_ascii; [apply Hok, list_elem_of_In|..]; done).
    unfold is_ctl in Hctl. unfold is_control in Hk. cbn [map] in Hk. by rewrite Hctl in Hk. }
  assert (Ht : forall c, In c t -> is_ctl c = false).
  { intros c Hc. apply trim_space_In in Hc. rewrite to_of_bytes in Hc. by apply Hl. }
  destruct (Nat.ltb_spec max (length (runes t))) as [Hlt|Hle]; cbn zeta; rewrite sall_of_bytes, to_of_bytes, length_of_bytes.
  - assert (Hr : Forall is_rune (take max (runes t))) by (apply Forall_take, runes_fuel_ok). split_and!.
    + rewrite forallb_forall. intros c (r & Hr' & Hc)%in_concat. apply negb_true_iff.
      assert (Hin : In c (concat (runes t))).
      { apply in_concat. exists r. split; [|done]. apply list_elem_of_In, elem_of_take in Hr' as (i & Hi & _).
        apply list_elem_of_In. by eapply list_elem_of_lookup_2. }
      apply runes_fuel_bytes in Hin as [Hin|Hin]; [by apply Ht|].
      vm_compute in Hin. by destruct Hin as [<-|[<-|[<-|[]]]].
    + rewrite runes_concat by done. rewrite length_take. lia.
    + assert (Hb : forall rs, Forall is_rune rs -> (length (concat rs) <= 4 * length rs)%nat).
      { intros rs H. induction H as [|r rs [_ Hw] _ IH]; [simpl; lia|]. cbn [concat]. rewrite length_app. cbn [length].
        pose proof (rune_width_le r). lia. }
      specialize (Hb _ Hr). rewrite length_take in Hb. lia.
  - split_and!; [|done|].
    + rewrite forallb_forall. intros c Hc. by apply negb_true_iff, Ht.
    + pose proof (runes_length_bytes (length t) t ltac:(lia)) as Hb. fold (runes t) in Hb. lia.
Qed.

(** * Properties *)

(** a name that comes from outside never holds a control byte (no line break, no
    escape sequence, no NUL) once it is sanitized, and it is at most as long as asked
    for, in runes and in bytes. *)
Theorem sanitize_display_text_safe s max :
  let r := sanitizeDisplayText s max in
  sall (fun c => negb (is_ctl c)) r = true /\
  (length (runes (to_bytes r)) <= max)%nat /\ (String.length r <= 4 * max)%nat.
Proof. exact (sanitize_ok s max). Qed.
