(* ===== verification/Crypto.v ===== *)
(** * Hashes and encodings of the Go standard library

    What [backend/security.go] and [backend/twofactor.go] use of [crypto/sha1],
    [crypto/sha256], [crypto/hmac], [encoding/hex], [encoding/base64],
    [encoding/base32] and [encoding/binary], executable, and checked against
    published test vectors.  Bytes are numbers below 256, words numbers below
    2^32. *)

From Stdlib Require Import ZArith Lia Bool String Ascii List.
From stdpp Require Import base gmap strings list.
From S2P Require Import Prelude GoStrings.

Definition octets (s : string) : list Z := map code (to_bytes s).
Definition of_octets (l : list Z) : string := of_bytes (map chr l).

(** ** Words *)

Definition add32 (a b : Z) : Z := u32 (a + b).
Definition rotl (x n : Z) : Z := u32 (Z.lor (Z.shiftl x n) (Z.shiftr x (32 - n))).
Definition rotr (x n : Z) : Z := rotl x (32 - n).
Definition not32 (x : Z) : Z := Z.lxor x (2 ^ 32 - 1).

(** Big-endian bytes of a number, [binary.BigEndian.PutUint32] and [PutUint64]. *)
Fixpoint be_bytes (n : nat) (v : Z) : list Z :=
  match n with O => [] | S n' => (v / 256 ^ Z.of_nat n') mod 256 :: be_bytes n' v end.
Definition be_value (l : list Z) : Z := fold_left (fun a b => a * 256 + b) l 0.

Fixpoint chunks (fuel n : nat) (l : list Z) : list (list Z) :=
  match fuel, l with
  | S f, _ :: _ => take n l :: chunks f n (drop n l)
  | _, _ => []
  end.

(** Merkle-Damgard padding to blocks of 64 bytes, split into words. *)
Definition md_blocks (msg : list Z) : list (list Z) :=
  let len := Z.of_nat (length msg) in
  let zeros := Z.to_nat ((55 - len) mod 64) in
  let padded := (msg ++ 128 :: repeat 0%Z zeros ++ be_bytes 8 (8 * len))%list in
  map (fun block => map be_value (chunks 16 4 block)) (chunks (length padded) 64 padded).

(** ** SHA-1 *)

Fixpoint sha1_schedule (n : nat) (rev_w : list Z) : list Z :=
  match n with
  | O => rev rev_w
  | S n' =>
      let g i := nth (i - 1) rev_w 0%Z in
      sha1_schedule n'
        (rotl (Z.lxor (Z.lxor (g 3%nat) (g 8%nat)) (Z.lxor (g 14%nat) (g 16%nat))) 1 :: rev_w)
  end.

Definition sha1_round (st : Z * Z * Z * Z * Z) (tw : nat * Z) : Z * Z * Z * Z * Z :=
  let '(a, b, c, d, e) := st in
  let '(t, w) := tw in
  let '(f, k) :=
    if (t <? 20)%nat then (Z.lor (Z.land b c) (Z.land (not32 b) d), 0x5A827999)
    else if (t <? 40)%nat then (Z.lxor (Z.lxor b c) d, 0x6ED9EBA1)
    else if (t <? 60)%nat
    then (Z.lor (Z.lor (Z.land b c) (Z.land b d)) (Z.land c d), 0x8F1BBCDC)
    else (Z.lxor (Z.lxor b c) d, 0xCA62C1D6) in
  (u32 (rotl a 5 + f + e + k + w), a, rotl b 30, c, d).

Definition sha1_block (st : Z * Z * Z * Z * Z) (block : list Z) : Z * Z * Z * Z * Z :=
  let ws := sha1_schedule 64 (rev block) in
  let '(a, b, c, d, e) := fold_left sha1_round (combine (seq 0 80) ws) st in
  let '(h0, h1, h2, h3, h4) := st in
  (add32 h0 a, add32 h1 b, add32 h2 c, add32 h3 d, add32 h4 e).

Definition sha1 (msg : list Z) : list Z :=
  let '(a, b, c, d, e) :=
    fold_left sha1_block (md_blocks msg)
      (0x67452301, 0xEFCDAB89, 0x98BADCFE, 0x10325476, 0xC3D2E1F0) in
  (be_bytes 4 a ++ be_bytes 4 b ++ be_bytes 4 c ++ be_bytes 4 d ++ be_bytes 4 e)%list.

(** ** SHA-256 *)

(** The constants of FIPS 180-4: the first 32 bits of the fractional parts of the
    cube roots of the first 64 primes, and of the square roots of the first 8. *)
Definition is_prime (n : nat) : bool :=
  (2 <=? n)%nat && forallb (fun d => negb (n mod d =? 0)%nat) (seq 2 (n - 2)).
Definition primes : list Z := map Z.of_nat (List.filter is_prime (seq 2 310)).
Fixpoint cube_root (bits : nat) (n r : Z) : Z :=
  match bits with
  | O => r
  | S b => let r' := r + 2 ^ Z.of_nat b in cube_root b n (if r' ^ 3 <=? n then r' else r)
  end.
Definition sha256_k : list Z := Eval vm_compute in map (fun p => u32 (cube_root 36 (p * 2 ^ 96) 0)) primes.
Definition sha256_init : list Z :=
  Eval vm_compute in map (fun p => u32 (Z.sqrt (p * 2 ^ 64))) (take 8 primes).

Definition ssig0 (x : Z) : Z := Z.lxor (Z.lxor (rotr x 7) (rotr x 18)) (Z.shiftr x 3).
Definition ssig1 (x : Z) : Z := Z.lxor (Z.lxor (rotr x 17) (rotr x 19)) (Z.shiftr x 10).
Definition bsig0 (x : Z) : Z := Z.lxor (Z.lxor (rotr x 2) (rotr x 13)) (rotr x 22).
Definition bsig1 (x : Z) : Z := Z.lxor (Z.lxor (rotr x 6) (rotr x 11)) (rotr x 25).

Fixpoint sha256_schedule (n : nat) (rev_w : list Z) : list Z :=
  match n with
  | O => rev rev_w
  | S n' =>
      let g i := nth (i - 1) rev_w 0%Z in
      sha256_schedule n'
        (u32 (ssig1 (g 2%nat) + g 7%nat + ssig0 (g 15%nat) + g 16%nat) :: rev_w)
  end.

Definition sha256_round (st : list Z) (kw : Z * Z) : list Z :=
  match st with
  | [a; b; c; d; e; f; g; h] =>
      let t1 := u32 (h + bsig1 e + Z.lxor (Z.land e f) (Z.land (not32 e) g) + fst kw + snd kw) in
      let t2 := u32 (bsig0 a + Z.lxor (Z.lxor (Z.land a b) (Z.land a c)) (Z.land b c)) in
      [add32 t1 t2; a; b; c; add32 d t1; e; f; g]
  | _ => st
  end.

Definition sha256_block (st : list Z) (block : list Z) : list Z :=
  let ws := sha256_schedule 48 (rev block) in
  map (fun p => add32 (fst p) (snd p)) (combine st (fold_left sha256_round (combine sha256_k ws) st)).

Definition sha256 (msg : list Z) : list Z :=
  flat_map (be_bytes 4)
    (fold_left sha256_block (md_blocks msg) sha256_init).

(** ** HMAC-SHA1 *)

Definition hmac_sha1 (key msg : list Z) : list Z :=
  let key := if (64 <? length key)%nat then sha1 key else key in
  let key := (key ++ repeat 0%Z (64 - length key))%list in
  sha1 (map (Z.lxor 0x5c) key ++ sha1 (map (Z.lxor 0x36) key ++ msg))%list.

(** ** Hex *)

Definition hex_digit (v : Z) : ascii := if v <? 10 then chr (48 + v) else chr (87 + v).
(** [hex.EncodeToString] *)
Definition hex_encode (l : list Z) : string :=
  of_bytes (flat_map (fun b => [hex_digit (b / 16); hex_digit (b mod 16)]) l).
Definition is_hex (c : ascii) : bool := is_digit c || between 97 102 c || between 65 70 c.
(** Whether [hex.DecodeString] succeeds. *)
Definition hex_decodes (s : string) : bool := (slen s mod 2 =? 0) && sall is_hex s.

(** ** Base 64, [RawStdEncoding] *)

Definition b64_char (v : Z) : ascii :=
  if v <? 26 then chr (65 + v) else if v <? 52 then chr (71 + v)
  else if v <? 62 then chr (v - 4) else if v =? 62 then "+"%char else "/"%char.
Definition b64_value (c : ascii) : option Z :=
  if is_upper c then Some (code c - 65) else if is_lower c then Some (code c - 71)
  else if is_digit c then Some (code c + 4)
  else if Ascii.eqb c "+" then Some 62 else if Ascii.eqb c "/" then Some 63 else None.

Fixpoint b64_encode (l : list Z) : list Z :=
  match l with
  | a :: b :: c :: r =>
      a / 4 :: a mod 4 * 16 + b / 16 :: b mod 16 * 4 + c / 64 :: c mod 64 :: b64_encode r
  | [a; b] => [a / 4; a mod 4 * 16 + b / 16; b mod 16 * 4]
  | [a] => [a / 4; a mod 4 * 16]
  | [] => []
  end.
(** The final quantum may have two or three characters; the bits a decoder drops
    are not checked (the encoding is not [Strict]). *)
Fixpoint b64_decode (l : list Z) : option (list Z) :=
  match l with
  | v0 :: v1 :: v2 :: v3 :: r =>
      match b64_decode r with
      | Some d => Some (v0 * 4 + v1 / 16 :: v1 mod 16 * 16 + v2 / 4 :: v2 mod 4 * 64 + v3 :: d)
      | None => None
      end
  | [v0; v1; v2] => Some [v0 * 4 + v1 / 16; v1 mod 16 * 16 + v2 / 4]
  | [v0; v1] => Some [v0 * 4 + v1 / 16]
  | [_] => None
  | [] => Some []
  end.

(** Decoders skip line breaks. *)
Definition no_breaks (s : string) : bytes :=
  List.filter (fun c => negb ((code c =? 10) || (code c =? 13))) (to_bytes s).

Fixpoint all_values (f : ascii -> option Z) (l : bytes) : option (list Z) :=
  match l with
  | [] => Some []
  | c :: r => match f c, all_values f r with Some v, Some vs => Some (v :: vs) | _, _ => None end
  end.

Definition base64_encode (l : list Z) : string := of_bytes (map b64_char (b64_encode l)).
Definition base64_decode (s : string) : option (list Z) :=
  match all_values b64_value (no_breaks s) with Some vs => b64_decode vs | None => None end.

(** ** Base 32, [StdEncoding] without padding *)

Definition b32_value (c : ascii) : option Z :=
  if is_upper c then Some (code c - 65) else if between 50 55 c then Some (code c - 24) else None.
Definition b32_char (v : Z) : ascii := if v <? 26 then chr (65 + v) else chr (24 + v).

(** A quantum of eight characters is five bytes; a shorter last one gives the
    bytes the decoder's switch writes for its length. *)
Fixpoint b32_decode (l : list Z) : list Z :=
  match l with
  | v0 :: v1 :: v2 :: v3 :: v4 :: v5 :: v6 :: v7 :: r =>
      (v0 * 8 + v1 / 4) :: (v1 mod 4 * 64 + v2 * 2 + v3 / 16) :: (v3 mod 16 * 16 + v4 / 2)
      :: (v4 mod 2 * 128 + v5 * 4 + v6 / 8) :: (v6 mod 8 * 32 + v7) :: b32_decode r
  | [v0; v1; v2; v3; v4; v5; v6] =>
      [v0 * 8 + v1 / 4; v1 mod 4 * 64 + v2 * 2 + v3 / 16; v3 mod 16 * 16 + v4 / 2;
       v4 mod 2 * 128 + v5 * 4 + v6 / 8]
  | [v0; v1; v2; v3; v4] =>
      [v0 * 8 + v1 / 4; v1 mod 4 * 64 + v2 * 2 + v3 / 16; v3 mod 16 * 16 + v4 / 2]
  | [v0; v1; v2; v3] => [v0 * 8 + v1 / 4; v1 mod 4 * 64 + v2 * 2 + v3 / 16]
  | [v0; v1] => [v0 * 8 + v1 / 4]
  | _ => []
  end.
Fixpoint b32_encode (l : list Z) : list Z :=
  match l with
  | a :: b :: c :: d :: e :: r =>
      a / 8 :: a mod 8 * 4 + b / 64 :: b / 2 mod 32 :: b mod 2 * 16 + c / 16 :: c mod 16 * 2 + d / 128
      :: d / 4 mod 32 :: d mod 4 * 8 + e / 32 :: e mod 32 :: b32_encode r
  | [a; b; c; d] =>
      [a / 8; a mod 8 * 4 + b / 64; b / 2 mod 32; b mod 2 * 16 + c / 16; c mod 16 * 2 + d / 128;
       d / 4 mod 32; d mod 4 * 8]
  | [a; b; c] =>
      [a / 8; a mod 8 * 4 + b / 64; b / 2 mod 32; b mod 2 * 16 + c / 16; c mod 16 * 2]
  | [a; b] => [a / 8; a mod 8 * 4 + b / 64; b / 2 mod 32; b mod 2 * 16]
  | [a] => [a / 8; a mod 8 * 4]
  | [] => []
  end.
Definition base32_encode (l : list Z) : string := of_bytes (map b32_char (b32_encode l)).
Definition base32_decode (s : string) : option (list Z) :=
  match all_values b32_value (no_breaks s) with Some vs => Some (b32_decode vs) | None => None end.

(** ** Test vectors *)

Example sha1_abc : hex_encode (sha1 (octets "abc")) = "a9993e364706816aba3e25717850c26c9cd0d89d".
Proof. vm_compute. reflexivity. Qed.
Example sha256_abc : hex_encode (sha256 (octets "abc")) =
  "ba7816bf8f01cfea414140de5dae2223b00361a396177a9cb410ff61f20015ad".
Proof. vm_compute. reflexivity. Qed.
Example sha256_two_blocks :
  hex_encode (sha256 (octets "abcdbcdecdefdefgefghfghighijhijkijkljklmklmnlmnomnopnopq")) =
  "248d6a61d20638b8e5c026930c3e6039a33ce45964ff2167f6ecedd419db06c1".
Proof. vm_compute. reflexivity. Qed.
Example hmac_rfc2202 : hex_encode (hmac_sha1 (octets "Jefe") (octets "what do ya want for nothing?")) =
  "effcdf6ae5eb2fa2d27416d5f184df9c259a7c79".
Proof. vm_compute. reflexivity. Qed.
Example base64_vector : base64_encode (octets "foobar!") = "Zm9vYmFyIQ" /\
  base64_decode "Zm9vYmFyIQ" = Some (octets "foobar!").
Proof. by vm_compute. Qed.
Example base32_vector : base32_encode (octets "foobar") = "MZXW6YTBOI" /\
  base32_decode "MZXW6YTBOI" = Some (octets "foobar").
Proof. by vm_compute. Qed.

(** ** Round trips *)

Definition octet_list (l : list Z) : Prop := Forall (fun b => 0 <= b < 256) l.

Lemma be_value_acc l a : fold_left (fun a b => a * 256 + b) l a = a * 256 ^ Z.of_nat (length l) + be_value l.
Proof.
  unfold be_value. revert a. induction l as [|b l IH]; intros a; cbn [fold_left length]; [simpl; lia|].
  rewrite (IH (a * 256 + b)), (IH (0 * 256 + b)), Nat2Z.inj_succ, Z.pow_succ_r by lia. lia.
Qed.

Lemma be_value_bound l : octet_list l -> 0 <= be_value l < 256 ^ Z.of_nat (length l).
Proof.
  induction 1 as [|b l Hb Hl IH]; [done|]. unfold be_value. cbn [fold_left length].
  rewrite be_value_acc, Nat2Z.inj_succ, Z.pow_succ_r by lia. nia.
Qed.

Lemma octets_octets s : octet_list (octets s).
Proof.
  unfold octets, octet_list. apply Forall_forall. intros x Hx.
  apply list_elem_of_In, in_map_iff in Hx as (c & <- & _). apply code_range.
Qed.

Lemma of_octets_octets s : of_octets (octets s) = s.
Proof.
  unfold of_octets, octets. rewrite map_map. rewrite (map_ext _ id) by apply chr_code.
  rewrite map_id. apply of_to_bytes.
Qed.

Lemma octets_of_octets l : octet_list l -> octets (of_octets l) = l.
Proof.
  intros H. unfold of_octets, octets. rewrite to_of_bytes, map_map.
  induction H as [|b l Hb H IH]; simpl; [done|]. by rewrite IH, code_chr.
Qed.

Lemma octets_inj s t : octets s = octets t -> s = t.
Proof. intros H. rewrite <- (of_octets_octets s), H. apply of_octets_octets. Qed.

(** Finite checks over an interval of numbers. *)
Lemma check_range (f : Z -> bool) n v :
  forallb (fun i => f (Z.of_nat i)) (seq 0 n) = true -> 0 <= v < Z.of_nat n -> f v = true.
Proof.
  intros H Hv. rewrite forallb_forall in H. specialize (H (Z.to_nat v)).
  rewrite Z2Nat.id in H by lia. apply H, in_seq. lia.
Qed.

Definition opt_is (o : option Z) (v : Z) : bool := match o with Some x => x =? v | None => false end.
Lemma opt_is_true o v : opt_is o v = true -> o = Some v.
Proof. destruct o; simpl; [|done]. intros ?%Z.eqb_eq. by subst. Qed.

Lemma b64_char_value v : 0 <= v < 64 -> b64_value (b64_char v) = Some v.
Proof.
  intros Hv. apply opt_is_true.
  by apply (check_range (fun v => opt_is (b64_value (b64_char v)) v) 64).
Qed.
Lemma b32_char_value v : 0 <= v < 32 -> b32_value (b32_char v) = Some v.
Proof.
  intros Hv. apply opt_is_true.
  by apply (check_range (fun v => opt_is (b32_value (b32_char v)) v) 32).
Qed.

Definition b64_letter (c : ascii) : bool := is_digit c || is_lower c || is_upper c || one_of "+/" c.
Lemma b64_char_letter v : 0 <= v < 64 -> b64_letter (b64_char v) = true.
Proof. intros Hv. by apply (check_range (fun v => b64_letter (b64_char v)) 64). Qed.

Lemma no_breaks_id s : sall (fun c => negb ((code c =? 10) || (code c =? 13))) s = true ->
  no_breaks s = to_bytes s.
Proof.
  unfold no_breaks, sall. induction (to_bytes s) as [|c l IH]; simpl; [done|].
  intros [H1 H2]%andb_true_iff. rewrite H1, IH; done.
Qed.

Lemma all_values_map f g l :
  Forall (fun v => f (g v) = Some v) l -> all_values f (map g l) = Some l.
Proof. induction 1 as [|v l Hv H IH]; simpl; [done|]. by rewrite Hv, IH. Qed.

Ltac div_mod := Z.to_euclidean_division_equations; lia.

Lemma b64_encode_range l : octet_list l -> Forall (fun v => 0 <= v < 64) (b64_encode l).
Proof.
  unfold octet_list. revert l. fix IH 1. intros [|a [|b [|c r]]] H; simpl; [done|..];
    repeat match goal with H : Forall _ (_ :: _) |- _ => inversion H; clear H; subst end;
    repeat constructor; try div_mod. by apply IH.
Qed.

Lemma b64_decode_encode l : octet_list l -> b64_decode (b64_encode l) = Some l.
Proof.
  unfold octet_list. revert l. fix IH 1. intros [|a [|b [|c r]]] H; [done|..];
    repeat match goal with H : Forall _ (_ :: _) |- _ => inversion H; clear H; subst end;
    cbn [b64_encode b64_decode]; [..|rewrite IH by done]; do 2 f_equal; try div_mod;
    f_equal; try div_mod; f_equal; div_mod.
Qed.

Lemma base64_letters l : octet_list l -> sall b64_letter (base64_encode l) = true.
Proof.
  intros H%b64_encode_range. unfold base64_encode. rewrite sall_of_bytes, forallb_forall.
  intros c (v & <- & Hv)%in_map_iff. apply b64_char_letter. rewrite Forall_forall in H.
  by apply H, list_elem_of_In.
Qed.

Lemma letter_no_break c : b64_letter c = true -> negb ((code c =? 10) || (code c =? 13)) = true.
Proof.
  intros H. destruct (Z.eqb_spec (code c) 10) as [E|]; [|destruct (Z.eqb_spec (code c) 13) as [E|]; [|done]];
    exfalso; rewrite <- (chr_code c), E in H; vm_compute in H; discriminate.
Qed.

Lemma base64_roundtrip l : octet_list l -> base64_decode (base64_encode l) = Some l.
Proof.
  intros H. unfold base64_decode. rewrite no_breaks_id.
  2:{ eapply sall_impl; [|by apply base64_letters]. apply letter_no_break. }
  unfold base64_encode. rewrite to_of_bytes, all_values_map; [by apply b64_decode_encode|].
  eapply Forall_impl; [by apply b64_encode_range|]. apply b64_char_value.
Qed.

(** ** Base 64 with padding, [StdEncoding] *)

Definition strip_padding (l : bytes) : bytes :=
  match rev l with
  | "="%char :: "="%char :: r => rev r
  | "="%char :: r => rev r
  | _ => l
  end.
Definition base64_std_decode (s : string) : option (list Z) :=
  let chars := no_breaks s in
  if negb (Nat.modulo (length chars) 4 =? 0)%nat then None else
  match all_values b64_value (strip_padding chars) with Some vs => b64_decode vs | None => None end.

Example base64_std_vector : base64_std_decode "Zm9vYmFyIQ==" = Some (octets "foobar!") /\
  base64_std_decode "Zm9vYmFyIQ" = None /\ base64_std_decode "Zm9v" = Some (octets "foo").
Proof. by vm_compute. Qed.
