(* ===== verification/Validate.v ===== *)
(** * Input validation (backend/security.go, backend/agent_pki.go, main.go)

    The validators every identifier passes before it reaches a path, a crontab,
    a shell or a config file that bash sources, and the global server IDs
    ("<node>~<local ID>") of the multi-node setup. *)

From Stdlib Require Import ZArith Lia Bool String Ascii List.
From stdpp Require Import base gmap strings list.
From S2P Require Import Prelude GoStrings.

Definition is_alnum (a : ascii) : bool := is_lower a || is_upper a || is_digit a.

(** [^first rest{0,max}$] *)
Definition re_word (first rest : ascii -> bool) (max : nat) (s : string) : bool :=
  match to_bytes s with
  | c :: r => first c && forallb rest r && (length r <=? max)%nat
  | [] => false
  end.

Definition reLinuxUsername : string -> bool :=
  re_word (fun c => is_lower c || one_of "_" c)
          (fun c => is_lower c || is_digit c || one_of "_-" c) 31.
Definition reScriptName : string -> bool :=
  re_word is_alnum (fun c => is_alnum c || one_of "._-" c) 63.
Definition reServerID : string -> bool :=
  re_word is_alnum (fun c => is_alnum c || one_of "._@-" c) 127.

Definition IsValidLinuxUsername (u : string) : bool := reLinuxUsername u.
Definition IsValidScriptName (s : string) : bool := reScriptName s && negb (contains s "..").
Definition IsValidLocalServerID (id : string) : bool := reServerID id && negb (contains id "..").

Definition node_char (c : ascii) : bool := is_lower c || is_digit c || one_of "-" c.
Definition IsValidNodeID (id : string) : bool :=
  if (slen id =? 0) || (32 <? slen id) || has_prefix id "-" || has_suffix id "-" then false
  else sall node_char id.

Definition IsValidServerID (id : string) : bool :=
  match cut "~" id with
  | Some (node, local) => IsValidNodeID node && IsValidLocalServerID local
  | None => IsValidLocalServerID id
  end.

Definition SplitServerID (id : string) : string * string :=
  match cut "~" id with
  | Some (n, l) => (n, l)
  | None => ("", id)
  end.

Definition GlobalServerID (node local : string) : string := node +:+ "~" +:+ local.

(** Bytes with a meaning inside a double-quoted bash word, and line breaks. *)
Definition cfg_unsafe (c : ascii) : bool :=
  existsb (Z.eqb (code c)) [34; 96; 36; 92; 10; 13; 0].
Definition IsSafeCfgValue (v : string) : bool :=
  if 2048 <? slen v then false else negb (sany cfg_unsafe v).

Definition quote1 : ascii := "'"%char.
Definition backslash : ascii := "\"%char.
Definition ShellQuote (s : string) : string :=
  "'" +:+ replace_byte s quote1 "'\''" +:+ "'".

(** main.go: names of dashboard users and of game server scripts to install. *)
Definition isValidUsername (u : string) : bool :=
  if (slen u <? 3) || (16 <? slen u) then false
  else sall (fun c => is_lower c || is_digit c || one_of "_" c) u.
Definition isValidGameCmd (c : string) : bool :=
  if negb (has_suffix c "server") || (slen c <? 7) || (64 <? slen c) then false
  else sall (fun c => is_lower c || is_digit c || one_of "-" c) c.

(** ** Global server IDs *)

Lemma re_word_inv first rest max s :
  re_word first rest max s = true ->
  s <> "" /\ (forall c, In c (to_bytes s) -> first c = true \/ rest c = true) /\
  (String.length s <= S max)%nat.
Proof.
  unfold re_word. rewrite <- length_to_bytes. destruct (to_bytes s) as [|c r] eqn:E; [done|].
  intros H. to_prop. rewrite forallb_forall in *. apply Nat.leb_le in H0. split.
  - intros ->. done.
  - split; [|simpl; lia]. intros x [<-|Hx]; [by left|right; auto].
Qed.

Lemma not_tilde_byte (f : ascii -> bool) s :
  f "~"%char = false -> sall f s = true -> contains_byte s "~" = false.
Proof.
  intros Hf Hs. apply contains_byte_false. intros Hin.
  rewrite sall_forall in Hs. apply Hs in Hin. congruence.
Qed.

Lemma valid_node_no_tilde id : IsValidNodeID id = true -> contains_byte id "~" = false.
Proof.
  unfold IsValidNodeID. intros H. split_match; [done|]. by apply (not_tilde_byte node_char).
Qed.
Lemma valid_node_nonempty id : IsValidNodeID id = true -> id <> "".
Proof. by intros H ->. Qed.
Lemma valid_local_no_tilde id : IsValidLocalServerID id = true -> contains_byte id "~" = false.
Proof.
  unfold IsValidLocalServerID, reServerID. intros H. to_prop.
  apply re_word_inv in H as (_ & H & _). apply contains_byte_false.
  intros Hin. apply H in Hin. by destruct Hin.
Qed.
#[export] Hint Resolve valid_node_no_tilde valid_node_nonempty valid_local_no_tilde : gostr.

Lemma cut_global n l :
  contains_byte n "~" = false -> cut "~" (GlobalServerID n l) = Some (n, l).
Proof. intros H. unfold GlobalServerID. change "~" with (byte_str "~"). by apply cut_app. Qed.

Lemma split_global n l :
  IsValidNodeID n = true -> SplitServerID (GlobalServerID n l) = (n, l).
Proof. intros H. unfold SplitServerID. rewrite cut_global by auto with gostr. done. Qed.

Lemma split_local l : IsValidLocalServerID l = true -> SplitServerID l = ("", l).
Proof.
  intros H. unfold SplitServerID. by rewrite (proj2 (cut_none _ _)) by auto with gostr.
Qed.

(** A valid ID is a valid local ID, or the global ID of a valid node and a valid local ID. *)
Lemma valid_server_id_cases id :
  IsValidServerID id = true ->
  (IsValidLocalServerID id = true /\ SplitServerID id = ("", id)) \/
  exists n l, id = GlobalServerID n l /\ IsValidNodeID n = true /\
              IsValidLocalServerID l = true /\ SplitServerID id = (n, l).
Proof.
  unfold IsValidServerID. destruct (cut "~" id) as [[n l]|] eqn:E; intros H.
  - right. to_prop. apply cut_some in E as [-> _]. exists n, l.
    repeat split; try done. by apply split_global.
  - left. split; [done|by apply split_local].
Qed.

(** The ID under which the controller shows a server of a node is valid
    exactly when both parts are, splitting it gives the parts back, and it never
    equals an ID of a server of the controller's own machine. *)
Theorem global_server_id_roundtrip n l l' :
  IsValidNodeID n = true ->
  IsValidServerID (GlobalServerID n l) = IsValidLocalServerID l /\
  SplitServerID (GlobalServerID n l) = (n, l) /\
  (IsValidLocalServerID l' = true -> GlobalServerID n l <> l').
Proof.
  intros Hn. repeat split.
  - unfold IsValidServerID. rewrite cut_global by auto with gostr. by rewrite Hn.
  - by apply split_global.
  - intros Hl E. apply valid_local_no_tilde, cut_none in Hl. rewrite <- E in Hl.
    by rewrite cut_global in Hl by auto with gostr.
Qed.

Lemma global_server_id_roundtrip_witness :
  IsValidServerID (GlobalServerID "lxc-1" "vhserver") = true /\
  SplitServerID (GlobalServerID "lxc-1" "vhserver") = ("lxc-1", "vhserver").
Proof.
  destruct (global_server_id_roundtrip "lxc-1" "vhserver" "vhserver" eq_refl) as (H1 & H2 & _).
  split; [rewrite H1; reflexivity|exact H2].
Defined.

(** ** Shell quoting *)

(** The POSIX rules for one word made of single-quoted parts and backslash
    escapes: what the shell makes of it, [None] if the word does not end where
    the text ends. *)
Fixpoint shell_word (quoted : bool) (l : bytes) : option bytes :=
  match l with
  | [] => if quoted then None else Some []
  | c :: r =>
      if quoted then
        if Ascii.eqb c quote1 then shell_word false r
        else option_map (cons c) (shell_word true r)
      else if Ascii.eqb c quote1 then shell_word true r
      else if Ascii.eqb c backslash then
        match r with
        | d :: r' => option_map (cons d) (shell_word false r')
        | [] => None
        end
      else None
  end.

Lemma shell_word_quoted l :
  shell_word true (flat_map (fun x => if Ascii.eqb x quote1 then to_bytes "'\''" else [x]) l ++ [quote1])%list
  = Some l.
Proof.
  assert (Hq : forall t, shell_word true (to_bytes "'\''" ++ t)%list
                         = option_map (cons quote1) (shell_word true t)) by done.
  induction l as [|x l IH]; [done|]. cbn [flat_map]. rewrite <- app_assoc.
  destruct (Ascii.eqb x quote1) eqn:E.
  - apply Ascii.eqb_eq in E as ->. by rewrite Hq, IH.
  - cbn [app shell_word]. by rewrite E, IH.
Qed.

(** Whatever the text, the shell reads the quoted text as one word with
    exactly this value. *)
Theorem shell_quote_roundtrip s : shell_word false (to_bytes (ShellQuote s)) = Some (to_bytes s).
Proof.
  unfold ShellQuote, replace_byte. rewrite !to_bytes_app, to_of_bytes.
  change (to_bytes "'") with [quote1]. cbn [app shell_word].
  rewrite Ascii.eqb_refl. apply shell_word_quoted.
Qed.
