(* ===== verification/Authz.v ===== *)
(** * Authorization (backend/authz.go, backend/agent_access.go)

    Roles, permissions and the single authorization decision of every server
    scoped request; the access classes a node allows in its access mode; and the
    stdin answers of LinuxGSM commands (backend/action_input.go). *)

From Stdlib Require Import ZArith Lia Bool String Ascii List.
From stdpp Require Import base gmap strings list.
From S2P Require Import Prelude GoStrings Validate.

(** ** Users *)

Definition RoleAdmin : string := "admin".
Definition RoleUser : string := "user".

Record User := mkUser {
  u_Username : string;
  u_PasswordHash : string;
  u_Role : string;
  u_Servers : list string;
  u_Nodes : list string;
  u_Permissions : list string;
  u_TOTPEnabled : bool;
  u_TOTPSecret : string;
  u_TOTPLastStep : Z;
  u_RecoveryCodes : list string;
  u_NotesSeen : string
}.

Definition PermStart : string := "start".
Definition PermStop : string := "stop".
Definition PermRestart : string := "restart".
Definition PermConsole : string := "console".
Definition PermConfig : string := "config".
Definition PermFiles : string := "files".
Definition PermBackup : string := "backup".
Definition PermSchedule : string := "schedule".
Definition PermAlerts : string := "alerts".
Definition PermView : string := "view".
Definition PermAdmin : string := "admin".

Definition AssignablePermissions : list string :=
  [PermStart; PermStop; PermRestart; PermConsole; PermConfig; PermFiles; PermBackup;
   PermSchedule; PermAlerts].

Definition IsAssignablePermission (p : string) : bool := mem p AssignablePermissions.

Inductive authz_error := ErrUnauthenticated | ErrForbidden | ErrServerNotFound.

(** User.IsAdmin *)
Definition IsAdmin (u : User) : bool := String.eqb (u_Role u) RoleAdmin.

(** User.CanAccessServer *)
Definition CanAccessServer (u : User) (serverID : string) : bool :=
  if IsAdmin u then true
  else if mem serverID (u_Servers u) then true
  else
    let '(node, _) := SplitServerID serverID in
    if negb (String.eqb node "") then mem node (u_Nodes u) else false.

(** User.HasPermission *)
Definition HasPermission (u : User) (perm : string) : bool :=
  if IsAdmin u then true
  else if String.eqb perm PermAdmin then false
  else if String.eqb perm PermView then true
  else mem perm (u_Permissions u).

(** The error, [None] for a granted request.  [serverExists] is [None] where the
    source passes nil. *)
Definition AuthorizeServerAction (user : option User) (serverID perm : string)
    (serverExists : option (string -> bool)) : option authz_error :=
  match user with
  | None => Some ErrUnauthenticated
  | Some u =>
      if String.eqb (u_Username u) "" then Some ErrUnauthenticated
      else if negb (IsValidServerID serverID) then Some ErrServerNotFound
      else if negb (CanAccessServer u serverID) then Some ErrForbidden
      else if match serverExists with Some f => negb (f serverID) | None => false end
      then Some ErrServerNotFound
      else if String.eqb perm "" || negb (HasPermission u perm) then Some ErrForbidden
      else None
  end.

(** ** LinuxGSM actions *)

Definition adminActions : list string :=
  ["update"; "validate"; "update-lgsm"; "force-update"; "test-alert"; "map-wipe"; "full-wipe";
   "change-password"; "check-update"; "mods-install"; "mods-update"; "mods-remove"; "fastdl";
   "map-compressor"; "skeleton"; "install-default-resources"; "postdetails"; "workshop-update"].

Definition ActionPermission (action : string) : option string :=
  if String.eqb action "start" then Some PermStart
  else if String.eqb action "stop" then Some PermStop
  else if String.eqb action "restart" then Some PermRestart
  else if String.eqb action "backup" then Some PermBackup
  else if String.eqb action "details" then Some PermConfig
  else if mem action adminActions then Some PermAdmin
  else None.

Definition BulkActionPermission (action : string) : option string :=
  if mem action ["start"; "stop"; "restart"; "update"; "backup"] then ActionPermission action
  else None.

(** ** Access modes of nodes *)

Definition AgentModeReadOnly : string := "read-only".
Definition AgentModeReadWrite : string := "read-write".
Definition IsValidAgentMode (mode : string) : bool :=
  String.eqb mode AgentModeReadOnly || String.eqb mode AgentModeReadWrite.
Definition LowerAgentMode (a b : string) : string :=
  if String.eqb a AgentModeReadWrite && String.eqb b AgentModeReadWrite
  then AgentModeReadWrite else AgentModeReadOnly.

Definition AccessRead : string := "read".
Definition AccessControl : string := "control".
Definition AccessWrite : string := "write".
Definition AccessByAction : string := "by-action".

Definition ActionAccess (action : string) : string :=
  if mem action ["start"; "stop"; "restart"] then AccessControl
  else if String.eqb action "details" then AccessRead
  else AccessWrite.

Definition AgentModeAllows (mode class : string) : bool :=
  if String.eqb class AccessRead || String.eqb class AccessControl
  then String.eqb mode AgentModeReadOnly || String.eqb mode AgentModeReadWrite
  else String.eqb mode AgentModeReadWrite.

(** ** Answers of commands that ask (backend/action_input.go) *)

Record ActionInput := mkActionInput { in_Mod : string; in_Password : string }.

Definition reModName : string -> bool :=
  re_word (fun c => is_lower c || is_digit c) (fun c => is_lower c || is_digit c || one_of "_-" c) 63.
Definition ts3_char (c : ascii) : bool := is_alnum c || one_of "._+=@#%^*!?:,~-" c.
Definition reTS3Password (s : string) : bool :=
  sall ts3_char s && (8 <=? slen s) && (slen s <=? 64).
Definition IsValidModName (name : string) : bool := reModName name.

Definition nl : string := of_bytes [chr 10].

Inductive input_error := ErrChooseMod | ErrTS3Password.

Definition ActionStdin (action : string) (i : ActionInput) : result input_error string :=
  if String.eqb action "fastdl" then Ok ("y" +:+ nl +:+ "y" +:+ nl +:+ "y" +:+ nl)
  else if String.eqb action "install-default-resources" then Ok ("y" +:+ nl)
  else if mem action ["mods-install"; "mods-remove"] then
    if negb (IsValidModName (in_Mod i)) then Err ErrChooseMod
    else Ok (in_Mod i +:+ nl +:+ "y" +:+ nl)
  else if String.eqb action "change-password" then
    if negb (reTS3Password (in_Password i)) then Err ErrTS3Password
    else Ok ("y" +:+ nl +:+ in_Password i +:+ nl)
  else Ok "".

(** * Properties *)

(** The servers a user may see: every server for administrators, otherwise the
    assigned ones and the servers of assigned nodes. *)
Definition may_access (u : User) (id : string) : Prop :=
  u_Role u = RoleAdmin \/ In id (u_Servers u) \/
  exists n l, SplitServerID id = (n, l) /\ n <> "" /\ In n (u_Nodes u).

Lemma can_access_spec u id : CanAccessServer u id = true <-> may_access u id.
Proof.
  unfold CanAccessServer, may_access, IsAdmin.
  destruct (String.eqb_spec (u_Role u) RoleAdmin) as [Ha|Ha]; [tauto|].
  destruct (mem id (u_Servers u)) eqn:Em; [apply mem_true in Em; tauto|].
  apply mem_false in Em. destruct (SplitServerID id) as [n l] eqn:Es.
  destruct (String.eqb_spec n "") as [->|Hn]; simpl.
  - split; [done|]. intros [?|[?|(n & l' & [= <- <-] & ? & ?)]]; tauto.
  - rewrite mem_true. split; [eauto 10|].
    intros [?|[?|(n' & l' & [= <- <-] & ? & ?)]]; tauto.
Qed.

Definition holds (u : User) (perm : string) : Prop :=
  u_Role u = RoleAdmin \/
  (perm <> PermAdmin /\ (perm = PermView \/ In perm (u_Permissions u))).

Lemma has_permission_spec u p : HasPermission u p = true <-> holds u p.
Proof.
  unfold HasPermission, holds, IsAdmin.
  destruct (String.eqb_spec (u_Role u) RoleAdmin); [tauto|].
  destruct (String.eqb_spec p PermAdmin) as [->|Hp]; [split; [done|tauto]|].
  destruct (String.eqb_spec p PermView) as [->|Hv]; [tauto|].
  rewrite mem_true. tauto.
Qed.
#[export] Hint Rewrite can_access_spec has_permission_spec : gostr.

(** A server scoped request is granted exactly when a user is logged in, the
    server ID is well formed, the user may access the server, the server exists
    (where existence is checked) and the user holds the non-empty permission. *)
Theorem authorize_granted_iff user id perm ex :
  AuthorizeServerAction user id perm ex = None <->
  exists u, user = Some u /\ u_Username u <> "" /\ IsValidServerID id = true /\
            may_access u id /\ (forall f, ex = Some f -> f id = true) /\
            perm <> "" /\ holds u perm.
Proof.
  unfold AuthorizeServerAction. destruct user as [u|].
  2: { split; [done|]. by intros (u & ? & _). }
  destruct (String.eqb_spec (u_Username u) "") as [Hu|Hu]; simpl.
  { split; [done|]. intros (u' & [= <-] & ? & _). done. }
  destruct (IsValidServerID id) eqn:Hv; simpl.
  2: { split; [done|]. by intros (u' & _ & _ & ? & _). }
  destruct (CanAccessServer u id) eqn:Hc; simpl.
  2: { split; [done|]. intros (u' & [= <-] & _ & _ & Hm & _).
       apply can_access_spec in Hm. congruence. }
  apply can_access_spec in Hc.
  destruct (match ex with Some f => negb (f id) | None => false end) eqn:Hx.
  { split; [done|]. intros (u' & _ & _ & _ & _ & Hex & _).
    destruct ex as [f|]; [|done]. by rewrite (Hex f eq_refl) in Hx. }
  destruct (String.eqb_spec perm "") as [->|Hp]; simpl.
  { split; [done|]. intros (? & _ & _ & _ & _ & _ & ? & _). done. }
  destruct (HasPermission u perm) eqn:Hh; simpl.
  - apply has_permission_spec in Hh. split; [|done]. intros _. exists u.
    repeat split; try done. intros f ->. by apply negb_false_iff in Hx.
  - split; [done|]. intros (u' & [= <-] & _ & _ & _ & _ & _ & Hh').
    apply has_permission_spec in Hh'. congruence.
Qed.

(** the answer to a request for a server the user is not assigned to does not
    depend on whether the server exists, so users cannot probe for servers. *)
Theorem authorize_hides_existence u id perm ex ex' :
  ~ may_access u id ->
  AuthorizeServerAction (Some u) id perm ex = AuthorizeServerAction (Some u) id perm ex' /\
  AuthorizeServerAction (Some u) id perm ex <> None.
Proof.
  rewrite <- can_access_spec. unfold AuthorizeServerAction.
  destruct (CanAccessServer u id); [done|]. intros _.
  destruct (String.eqb (u_Username u) ""); [done|]. by destruct (IsValidServerID id).
Qed.

Definition demo_user : User :=
  mkUser "anna" "" RoleUser ["vhserver"] ["lxc-1"] [PermStart; PermConsole] false "" 0 [] "".

Lemma authorize_hides_existence_witness :
  AuthorizeServerAction (Some demo_user) "rustserver" PermStart (Some (fun _ => true)) =
  AuthorizeServerAction (Some demo_user) "rustserver" PermStart (Some (fun _ => false)).
Proof.
  refine (proj1 (authorize_hides_existence demo_user "rustserver" PermStart _ _ _)).
  rewrite <- can_access_spec. vm_compute. discriminate.
Defined.

(** what a node in read-only mode lets the controller do: looking, and
    starting, stopping or restarting.  Every other LinuxGSM action and every
    write needs read-write on both sides, whatever string the node reports. *)
Theorem read_only_mode_actions a b action :
  AgentModeAllows (LowerAgentMode a b) (ActionAccess action) =
  (String.eqb a AgentModeReadWrite && String.eqb b AgentModeReadWrite)
  || mem action ["start"; "stop"; "restart"; "details"].
Proof.
  unfold LowerAgentMode, ActionAccess, mem.
  destruct (String.eqb a AgentModeReadWrite && String.eqb b AgentModeReadWrite); cbn [orb existsb];
  destruct (String.eqb action "start"), (String.eqb action "stop"),
      (String.eqb action "restart"), (String.eqb action "details"); done.
Qed.
