(* ===== verification/RateLimit.v ===== *)
(** * Login throttling (backend/ratelimit.go)

    [LoginLimiter] counts failed attempts per key and blocks a key for a
    cooldown that doubles with every failure.  Times and durations are in
    nanoseconds.  Every method holds the mutex for one critical section, except
    [Reserve] and its [done] function, which have two each: their halves are
    separate definitions, and [step] interleaves them freely. *)

From Stdlib Require Import ZArith Lia Bool String Ascii List Permutation.
From stdpp Require Import base gmap strings list fin_maps relations.
From S2P Require Import Prelude GoStrings.

Definition second : Z := 1000000000.
Definition minute : Z := 60 * second.
(** The zero [time.Time], before every time the program sees. *)
Definition zeroTime : Z := -62135596800 * second.

Record limiterEntry := mkEntry { failures : Z; lastFailure : Z; blockedTill : Z }.

Record LoginLimiter := mkLimiter {
  entries : gmap string limiterEntry;
  freeTries : Z;
  baseDelay : Z;
  maxDelay : Z;
  forgetAfter : Z;
  maxEntries : Z;
  inflight : gmap string Z
}.

Definition NewLoginLimiter : LoginLimiter :=
  mkLimiter ∅ 5 (2 * second) (15 * minute) (30 * minute) 10000 ∅.

Definition set_entries (l : LoginLimiter) (m : gmap string limiterEntry) : LoginLimiter :=
  mkLimiter m (freeTries l) (baseDelay l) (maxDelay l) (forgetAfter l) (maxEntries l) (inflight l).
Definition set_inflight (l : LoginLimiter) (m : gmap string Z) : LoginLimiter :=
  mkLimiter (entries l) (freeTries l) (baseDelay l) (maxDelay l) (forgetAfter l) (maxEntries l) m.

(** [len] of a map *)
Definition mlen {A} (m : gmap string A) : Z := Z.of_nat (size m).

(** ** Allow *)

Fixpoint allow_loop (now forget : Z) (keys : list string) (m : gmap string limiterEntry) (wait : Z)
    : gmap string limiterEntry * Z :=
  match keys with
  | [] => (m, wait)
  | k :: ks =>
      match m !! k with
      | None => allow_loop now forget ks m wait
      | Some e =>
          if now - lastFailure e >? forget then allow_loop now forget ks (delete k m) wait
          else
            let wait' :=
              if now <? blockedTill e then
                let d := blockedTill e - now in if d >? wait then d else wait
              else wait in
            allow_loop now forget ks m wait'
      end
  end.

Definition Allow (l : LoginLimiter) (now : Z) (keys : list string) : LoginLimiter * (bool * Z) :=
  let '(m, wait) := allow_loop now (forgetAfter l) keys (entries l) 0 in
  (set_entries l m, (wait =? 0, wait)).

(** ** Failure *)

(** [for i := 1; i < n && delay < max; i++ { delay *= 2 }] runs at most [n-1] times. *)
Fixpoint double_loop (iters : nat) (delay max : Z) : Z :=
  match iters with
  | O => delay
  | S i => if delay <? max then double_loop i (delay * 2) max else delay
  end.

(** The cooldown after the [n]-th failure beyond the free tries. *)
Definition cooldown (l : LoginLimiter) (n : Z) : Z :=
  let delay := double_loop (Z.to_nat (n - 1)) (baseDelay l) (maxDelay l) in
  if delay >? maxDelay l then maxDelay l else delay.

(** The deletions of the second loop of [pruneLocked]: every other entry in
    iteration order. *)
Fixpoint drop_even (i : nat) (order : list string) (m : gmap string limiterEntry)
    : gmap string limiterEntry :=
  match order with
  | [] => m
  | k :: ks => drop_even (S i) ks (if Nat.even i then delete k m else m)
  end.

Definition expired (l : LoginLimiter) (now : Z) (e : limiterEntry) : bool :=
  (now - lastFailure e >? forgetAfter l) && (blockedTill e <? now).

(** The entries the first loop of [pruneLocked] keeps. *)
Definition survivors (l : LoginLimiter) (now : Z) : gmap string limiterEntry :=
  filter (fun kv : string * limiterEntry => expired l now kv.2 = false) (entries l).

(** [order] is the order in which Go iterates over the entries that are left. *)
Definition pruneLocked (l : LoginLimiter) (now : Z) (order : list string) : LoginLimiter :=
  let m := survivors l now in
  set_entries l (if mlen m >=? maxEntries l then drop_even 0 order m else m).

Definition fail_entry (l : LoginLimiter) (now : Z) (e : limiterEntry) : limiterEntry :=
  let f := failures e + 1 in
  mkEntry f now
    (if f >? freeTries l then now + cooldown l (f - freeTries l) else blockedTill e).

Definition failure_key (now : Z) (l : LoginLimiter) (k : string) : LoginLimiter :=
  match entries l !! k with
  | Some e =>
      let e' := if now - lastFailure e >? forgetAfter l then mkEntry 0 zeroTime zeroTime else e in
      set_entries l (<[k := fail_entry l now e']> (entries l))
  | None =>
      if mlen (entries l) >=? maxEntries l then l
      else set_entries l (<[k := fail_entry l now (mkEntry 0 zeroTime zeroTime)]> (entries l))
  end.

Definition Failure (l : LoginLimiter) (now : Z) (order keys : list string) : LoginLimiter :=
  let l1 := if mlen (entries l) >=? maxEntries l then pruneLocked l now order else l in
  fold_left (failure_key now) keys l1.

Definition Success (l : LoginLimiter) (keys : list string) : LoginLimiter :=
  set_entries l (fold_left (fun m k => delete k m) keys (entries l)).

(** ** Reserve *)

Definition running (l : LoginLimiter) (k : string) : Z := default 0 (inflight l !! k).
Definition failed (l : LoginLimiter) (k : string) : Z :=
  match entries l !! k with Some e => failures e | None => 0 end.

Definition reserve_refused (l : LoginLimiter) (k : string) : bool :=
  (running l k >? 0) && (failed l k + running l k >=? freeTries l).

Definition add_inflight (d : Z) (l : LoginLimiter) (k : string) : LoginLimiter :=
  set_inflight l (<[k := running l k + d]> (inflight l)).

(** The second critical section of [Reserve]. *)
Definition reserve_locked (l : LoginLimiter) (keys : list string) : option LoginLimiter :=
  if existsb (reserve_refused l) keys then None
  else Some (fold_left (add_inflight 1) keys l).

(** The granted limiter state, or the time to wait. *)
Definition Reserve (l : LoginLimiter) (now : Z) (keys : list string)
    : LoginLimiter * (bool * Z) :=
  let '(l1, (ok, wait)) := Allow l now keys in
  if negb ok then (l1, (false, wait))
  else match reserve_locked l1 keys with
       | None => (l1, (false, baseDelay l1))
       | Some l2 => (l2, (true, 0))
       end.

Definition release_key (l : LoginLimiter) (k : string) : LoginLimiter :=
  let n := running l k - 1 in
  set_inflight l (if n <=? 0 then delete k (inflight l) else <[k := n]> (inflight l)).

(** The first critical section of [done]. *)
Definition done_release (l : LoginLimiter) (keys : list string) : LoginLimiter :=
  fold_left release_key keys l.

(** [done]; [sync.Once] makes later calls do nothing. *)
Definition done_ (l : LoginLimiter) (now : Z) (order keys : list string) (success : bool)
    : LoginLimiter :=
  let l1 := done_release l keys in
  if success then Success l1 keys else Failure l1 now order keys.

(** * Interleavings *)

(** The limiter together with the reservations that are being verified. *)
Definition config : Type := LoginLimiter * list (list string).

(** The orders in which Go may iterate in the second loop of [pruneLocked]. *)
Definition order_ok (l : LoginLimiter) (now : Z) (order : list string) : Prop :=
  order ≡ₚ map fst (map_to_list (survivors l now)).

Inductive step : config -> config -> Prop :=
| step_allow l act now keys :
    step (l, act) (fst (Allow l now keys), act)
| step_reserve l act keys l' :
    NoDup keys -> reserve_locked l keys = Some l' -> step (l, act) (l', keys :: act)
| step_release l a1 keys a2 :
    step (l, a1 ++ keys :: a2)%list (done_release l keys, a1 ++ a2)%list
| step_failure l act now order keys :
    order_ok l now order -> step (l, act) (Failure l now order keys, act)
| step_success l act keys :
    step (l, act) (Success l keys, act).

Definition reachable : config -> Prop := rtc step (NewLoginLimiter, []).

(** ** Invariant *)

(** The settings never change. *)
Definition settings (l : LoginLimiter) : Z * Z * Z * Z * Z :=
  (freeTries l, baseDelay l, maxDelay l, forgetAfter l, maxEntries l).

Definition entry_ok (l : LoginLimiter) (e : limiterEntry) : Prop :=
  0 <= failures e /\
  (failures e <= freeTries l -> blockedTill e = zeroTime) /\
  (blockedTill e = zeroTime \/ blockedTill e <= lastFailure e + maxDelay l).

Definition entries_ok (l : LoginLimiter) : Prop :=
  map_Forall (fun _ e => entry_ok l e) (entries l).

(** Reservations that are being verified for key [k]. *)
Definition active (k : string) (act : list (list string)) : Z :=
  Z.of_nat (length (List.filter (mem k) act)).

Record inv (c : config) : Prop := {
  inv_settings : settings (fst c) = settings NewLoginLimiter;
  inv_entries : entries_ok (fst c);
  inv_size : mlen (entries (fst c)) <= maxEntries (fst c);
  inv_running : forall k, running (fst c) k = active k (snd c);
  inv_nodup : Forall (fun ks : list string => NoDup ks) (snd c);
  inv_bound : forall k, active k (snd c) <= freeTries (fst c)
}.

Lemma settings_eq l l' :
  settings l = settings l' -> freeTries l = freeTries l' /\ baseDelay l = baseDelay l' /\
  maxDelay l = maxDelay l' /\ forgetAfter l = forgetAfter l' /\ maxEntries l = maxEntries l'.
Proof. unfold settings. by intros [= -> -> -> -> ->]. Qed.

(** *** Entries *)

Lemma allow_loop_sub now forget keys m w : fst (allow_loop now forget keys m w) ⊆ m.
Proof.
  revert m w. induction keys as [|k ks IH]; intros m w; simpl; [done|].
  destruct (m !! k) as [e|]; [|apply IH].
  destruct (now - lastFailure e >? forget); [|apply IH].
  etrans; [apply IH|apply delete_subseteq].
Qed.

Lemma mlen_sub {A} (m1 m2 : gmap string A) : m1 ⊆ m2 -> mlen m1 <= mlen m2.
Proof. intros H. unfold mlen. apply map_subseteq_size in H. lia. Qed.

Lemma entries_ok_sub l m : m ⊆ entries l -> entries_ok l -> entries_ok (set_entries l m).
Proof.
  intros Hs He k e Hk. simpl in *. apply (He k). eapply lookup_weaken; [exact Hk|done].
Qed.

Lemma double_loop_max n d max :
  0 < d -> Z.min max (double_loop n d max) = Z.min max (d * 2 ^ Z.of_nat n).
Proof.
  revert d. induction n as [|n IH]; intros d Hd; simpl double_loop.
  - rewrite Z.pow_0_r. f_equal. lia.
  - rewrite Nat2Z.inj_succ, Z.pow_succ_r by lia.
    assert (0 < 2 ^ Z.of_nat n) by (apply Z.pow_pos_nonneg; lia).
    destruct (d <? max) eqn:E; to_prop; [rewrite IH by lia; f_equal; nia|nia].
Qed.

Lemma cooldown_closed l n :
  0 < baseDelay l -> cooldown l n = Z.min (maxDelay l) (baseDelay l * 2 ^ Z.of_nat (Z.to_nat (n - 1))).
Proof.
  intros Hb. rewrite <- double_loop_max by done. unfold cooldown.
  destruct (double_loop _ _ _ >? _) eqn:E; lia.
Qed.

Lemma fail_entry_ok l now e :
  0 < baseDelay l -> entry_ok l e -> entry_ok l (fail_entry l now e).
Proof.
  intros Hb (Hf & Hz & _). unfold entry_ok, fail_entry. simpl.
  destruct (failures e + 1 >? freeTries l) eqn:E.
  - rewrite cooldown_closed by done. repeat split; lia.
  - rewrite Hz by lia. repeat split; lia.
Qed.

Lemma fresh_entry_ok l : entry_ok l (mkEntry 0 zeroTime zeroTime).
Proof. repeat split; simpl; auto; lia. Qed.
#[local] Hint Resolve fresh_entry_ok fail_entry_ok : core.

Lemma set_entries_same l m : settings (set_entries l m) = settings l.
Proof. done. Qed.

Lemma failure_key_inv now l k :
  0 < baseDelay l -> entries_ok l -> mlen (entries l) <= maxEntries l ->
  settings (failure_key now l k) = settings l /\ inflight (failure_key now l k) = inflight l /\
  entries_ok (failure_key now l k) /\ mlen (entries (failure_key now l k)) <= maxEntries l.
Proof.
  intros Hb He Hs. unfold failure_key. destruct (entries l !! k) as [e|] eqn:Ek.
  - split_and!; [done|done| |].
    + intros k' e'. simpl. rewrite lookup_insert_Some. intros [[<- <-]|[_ H]]; [|exact (He k' e' H)].
      refine (fail_entry_ok l now _ Hb _). destruct (_ >? _); [apply fresh_entry_ok|exact (He k e Ek)].
    + simpl. unfold mlen in *. rewrite map_size_insert_Some; eauto.
  - destruct (mlen (entries l) >=? maxEntries l) eqn:Em; [done|]. split_and!; [done|done| |].
    + intros k' e'. simpl. rewrite lookup_insert_Some. intros [[<- <-]|[_ H]]; [|exact (He k' e' H)].
      refine (fail_entry_ok l now _ Hb (fresh_entry_ok l)).
    + simpl. unfold mlen in *. rewrite map_size_insert_None by done. lia.
Qed.

Lemma failure_fold_inv now keys l :
  0 < baseDelay l -> entries_ok l -> mlen (entries l) <= maxEntries l ->
  let l' := fold_left (failure_key now) keys l in
  settings l' = settings l /\ inflight l' = inflight l /\
  entries_ok l' /\ mlen (entries l') <= maxEntries l'.
Proof.
  revert l. induction keys as [|k ks IH]; intros l Hb He Hs; simpl; [done|].
  destruct (failure_key_inv now l k Hb He Hs) as (H1 & H2 & H3 & H4).
  pose proof (settings_eq _ _ H1) as (_ & Hb' & _ & _ & Hm').
  destruct (IH (failure_key now l k)) as (H5 & H6 & H7 & H8); [lia|done|lia|].
  rewrite H5, H6. done.
Qed.

Lemma drop_even_sub i order m : drop_even i order m ⊆ m.
Proof.
  revert i m. induction order as [|k ks IH]; intros i m; simpl; [done|].
  destruct (Nat.even i); [|apply IH]. etrans; [apply IH|apply delete_subseteq].
Qed.

Lemma survivors_sub l now : survivors l now ⊆ entries l.
Proof. apply map_filter_subseteq. Qed.

Lemma prune_sub l now order : entries (pruneLocked l now order) ⊆ entries l.
Proof.
  unfold pruneLocked. simpl. destruct (_ >=? _); [|apply survivors_sub].
  etrans; [apply drop_even_sub|apply survivors_sub].
Qed.

Lemma failure_inv l now order keys :
  0 < baseDelay l -> entries_ok l -> mlen (entries l) <= maxEntries l ->
  let l' := Failure l now order keys in
  settings l' = settings l /\ inflight l' = inflight l /\
  entries_ok l' /\ mlen (entries l') <= maxEntries l'.
Proof.
  intros Hb He Hs. unfold Failure.
  set (l1 := if mlen (entries l) >=? maxEntries l then pruneLocked l now order else l).
  assert (settings l1 = settings l /\ inflight l1 = inflight l /\ entries l1 ⊆ entries l)
    as (H1 & H2 & H3).
  { unfold l1. destruct (_ >=? _); [|done]. split_and!; [done|done|apply prune_sub]. }
  pose proof (settings_eq _ _ H1) as (Hf & Hb' & Hm & _ & Hme).
  pose proof (mlen_sub _ _ H3).
  destruct (failure_fold_inv now keys l1) as (H5 & H6 & H7 & H8); [lia| |lia|].
  - intros k e Hk. unfold entry_ok. rewrite Hf, Hm. apply (He k). by eapply lookup_weaken.
  - by rewrite H5, H6.
Qed.

Lemma fold_delete_sub keys (m : gmap string limiterEntry) : fold_left (fun m k => delete k m) keys m ⊆ m.
Proof.
  revert m. induction keys as [|k ks IH]; intros m; simpl; [done|].
  etrans; [apply IH|apply delete_subseteq].
Qed.

(** *** Reservations *)

Lemma running_add d l k k' :
  running (add_inflight d l k) k' = running l k' + (if String.eqb k k' then d else 0).
Proof.
  unfold running, add_inflight. simpl. destruct (String.eqb_spec k k') as [->|Hne].
  - by rewrite lookup_insert_eq.
  - rewrite lookup_insert_ne by done. lia.
Qed.

Lemma running_reserve keys l k :
  NoDup keys -> running (fold_left (add_inflight 1) keys l) k = running l k + (if mem k keys then 1 else 0).
Proof.
  revert l. induction keys as [|k0 ks IH]; intros l Hn; simpl; [lia|].
  inversion Hn as [|? ? Hni Hn']; subst. rewrite IH, running_add by done. unfold mem. simpl.
  rewrite (String.eqb_sym k0 k). destruct (String.eqb_spec k k0) as [->|]; simpl; [|lia].
  change (existsb (String.eqb k0) ks) with (mem k0 ks).
  replace (mem k0 ks) with false; [lia|]. symmetry. apply mem_false. by rewrite <- list_elem_of_In.
Qed.

Lemma running_release_key l k k' :
  0 <= running l k' ->
  running (release_key l k) k' =
    if String.eqb k k' then Z.max 0 (running l k' - 1) else running l k'.
Proof.
  intros H0. unfold running at 1, release_key. simpl. destruct (String.eqb_spec k k') as [->|Hne].
  - destruct (running l k' - 1 <=? 0) eqn:E; to_prop;
      [rewrite lookup_delete_eq|rewrite lookup_insert_eq]; simpl; lia.
  - destruct (running l k - 1 <=? 0); [by rewrite lookup_delete_ne|by rewrite lookup_insert_ne].
Qed.

Lemma running_release keys l k :
  NoDup keys -> 0 <= running l k -> (mem k keys = true -> 1 <= running l k) ->
  running (done_release l keys) k = running l k - (if mem k keys then 1 else 0).
Proof.
  unfold done_release. revert l. induction keys as [|k0 ks IH]; intros l Hn H0 H1; simpl; [lia|].
  inversion Hn as [|? ? Hni Hn']; subst.
  unfold mem in H1 |- *. simpl in H1 |- *. fold (mem k ks) in H1 |- *.
  destruct (String.eqb_spec k k0) as [->|Hne]; simpl in H1 |- *.
  - specialize (H1 eq_refl).
    assert (mem k0 ks = false) as Hm by (apply mem_false; by rewrite <- list_elem_of_In).
    assert (Hr : running (release_key l k0) k0 = running l k0 - 1)
      by (rewrite running_release_key, String.eqb_refl by done; lia).
    rewrite IH; [|done|lia|congruence]. rewrite Hr, Hm. lia.
  - assert (Hr : running (release_key l k0) k = running l k).
    { rewrite running_release_key by done. destruct (String.eqb_spec k0 k); [congruence|done]. }
    rewrite IH by (rewrite ?Hr; auto). by rewrite Hr.
Qed.

Lemma settings_fold (f : LoginLimiter -> string -> LoginLimiter) keys l :
  (forall l k, settings (f l k) = settings l /\ entries (f l k) = entries l) ->
  settings (fold_left f keys l) = settings l /\ entries (fold_left f keys l) = entries l.
Proof.
  intros Hf. revert l. induction keys as [|k ks IH]; intros l; simpl; [done|].
  destruct (IH (f l k)) as [-> ->]. apply Hf.
Qed.

Lemma active_cons k ks act : active k (ks :: act) = active k act + (if mem k ks then 1 else 0).
Proof. unfold active. simpl. destruct (mem k ks); simpl; lia. Qed.
Lemma active_app k a1 a2 : active k (a1 ++ a2)%list = active k a1 + active k a2.
Proof. unfold active. rewrite List.filter_app, length_app. lia. Qed.
Lemma active_nonneg k act : 0 <= active k act.
Proof. unfold active. lia. Qed.

Lemma inv_init : inv (NewLoginLimiter, []).
Proof. split; simpl; done. Qed.

Lemma active_mem k ks a1 a2 : mem k ks = true -> 1 <= active k (a1 ++ ks :: a2)%list.
Proof.
  intros H. rewrite active_app, active_cons, H.
  pose proof (active_nonneg k a1). pose proof (active_nonneg k a2). lia.
Qed.

Lemma inv_same_flight l l' act :
  settings l' = settings l -> inflight l' = inflight l -> entries_ok l' ->
  mlen (entries l') <= maxEntries l' -> inv (l, act) -> inv (l', act).
Proof.
  intros H1 H2 H3 H4 [I1 I2 I3 I4 I5 I6]. simpl in *.
  pose proof (settings_eq _ _ H1) as (Hf & _). split; simpl; try done.
  - congruence.
  - intros k. unfold running. rewrite H2. apply I4.
  - intros k. rewrite Hf. apply I6.
Qed.

Lemma inv_sub l m act : m ⊆ entries l -> inv (l, act) -> inv (set_entries l m, act).
Proof.
  intros Hs I. apply (inv_same_flight l); try done.
  - destruct I as [_ I2 _ _ _ _]. intros k e Hk. apply (I2 k). simpl in Hk. by eapply lookup_weaken.
  - destruct I as [_ _ I3 _ _ _]. simpl in *. pose proof (mlen_sub _ _ Hs). lia.
Qed.

Lemma inv_fold (f : LoginLimiter -> string -> LoginLimiter) keys l act act' :
  (forall l k, settings (f l k) = settings l /\ entries (f l k) = entries l) ->
  inv (l, act) ->
  (forall k, running (fold_left f keys l) k = active k act') ->
  Forall (fun ks : list string => NoDup ks) act' -> (forall k, active k act' <= freeTries l) ->
  inv (fold_left f keys l, act').
Proof.
  intros Hf [I1 I2 I3 _ _ _] Hr Hn Hb. simpl in *.
  destruct (settings_fold f keys l Hf) as [Hs He].
  pose proof (settings_eq _ _ Hs) as (Hfr & Hba & Hmd & _ & Hme).
  split; simpl; try done.
  - congruence.
  - intros k e. rewrite He. intros Hk. unfold entry_ok. rewrite Hfr, Hmd. exact (I2 k e Hk).
  - rewrite He, Hme. done.
  - intros k. rewrite Hfr. apply Hb.
Qed.

Lemma inv_step c c' : step c c' -> inv c -> inv c'.
Proof.
  intros Hst I. destruct Hst as [l act now keys|l act keys l' Hn Hr|l a1 keys a2|l act now order keys Ho|l act keys].
  - unfold Allow. destruct (allow_loop _ _ _ _ _) as [m w] eqn:E. simpl.
    apply inv_sub; [|done]. change m with (fst (m, w)). rewrite <- E. apply allow_loop_sub.
  - unfold reserve_locked in Hr. destruct (existsb _ _) eqn:Ex; [done|]. injection Hr as <-.
    pose proof I as [I1 I2 _ I4 I5 I6]. simpl in *.
    apply (inv_fold _ _ _ act); try done.
    + intros k. by rewrite running_reserve, active_cons, I4.
    + by constructor.
    + intros k. rewrite active_cons. destruct (mem k keys) eqn:Em; [|specialize (I6 k); lia].
      assert (reserve_refused l k = false) as Hk.
      { apply not_true_iff_false. intros Ht. apply not_true_iff_false in Ex. apply Ex.
        apply existsb_exists. exists k. split; [by apply mem_true|done]. }
      assert (0 <= failed l k).
      { unfold failed. destruct (entries l !! k) as [e|] eqn:Ee; [|lia]. by apply (I2 k e) in Ee as []. }
      unfold reserve_refused in Hk. rewrite I4 in Hk.
      apply settings_eq in I1 as (Hfr & _). simpl in Hfr. pose proof (active_nonneg k act). lia.
  - pose proof I as [_ _ _ I4 I5 I6]. simpl in *.
    apply Forall_app in I5 as [J1 J2]. inversion J2 as [|? ? Jk J3]; subst.
    apply (inv_fold _ _ _ (a1 ++ keys :: a2)%list); try done.
    + intros k. change (running (done_release l keys) k = active k (a1 ++ a2)).
      rewrite running_release; [|done| |].
      * rewrite I4, !active_app, active_cons. lia.
      * rewrite I4. apply active_nonneg.
      * intros Hm. rewrite I4. by apply active_mem.
    + by apply Forall_app.
    + intros k. specialize (I6 k). rewrite active_app, active_cons in I6. rewrite active_app.
      destruct (mem k keys); lia.
  - pose proof I as [I1 I2 I3 _ _ _]. simpl in *. pose proof (settings_eq _ _ I1) as (_ & Hb & _).
    destruct (failure_inv l now order keys) as (H1 & H2 & H3 & H4); try done; [by rewrite Hb|].
    by apply (inv_same_flight l).
  - apply inv_sub; [apply fold_delete_sub|done].
Qed.

Lemma inv_reachable c : reachable c -> inv c.
Proof. apply (rtc_ind_r inv); [apply inv_init|]. eauto using inv_step. Qed.

(** * Properties *)

(** whatever the interleaving, the attempts verified at the same time for one
    key are counted exactly, and are never more than the five free tries. *)
Theorem inflight_bounded l act k :
  reachable (l, act) -> running l k = active k act /\ 0 <= running l k <= 5.
Proof.
  intros Hr. apply inv_reachable in Hr. pose proof (inv_running _ Hr k) as H1.
  pose proof (inv_bound _ Hr k) as H2. pose proof (settings_eq _ _ (inv_settings _ Hr)) as (H3 & _).
  pose proof (active_nonneg k act). simpl in *. lia.
Qed.

Lemma reserve_reachable : reachable (add_inflight 1 NewLoginLimiter "ip:1", [["ip:1"]]).
Proof.
  apply rtc_once. apply step_reserve; [apply NoDup_singleton|done].
Qed.

Lemma inflight_bounded_witness :
  running (add_inflight 1 NewLoginLimiter "ip:1") "ip:1" = active "ip:1" [["ip:1"]].
Proof. exact (proj1 (inflight_bounded _ _ "ip:1" reserve_reachable)). Defined.

(** The memory of the limiter is bounded: at most 10000 keys are tracked in
    every reachable state, also while an attacker makes up new keys. *)
Theorem entries_bounded l act : reachable (l, act) -> mlen (entries l) <= 10000.
Proof.
  intros Hr. apply inv_reachable in Hr.
  pose proof (settings_eq _ _ (inv_settings _ Hr)) as (_ & _ & _ & _ & Hm).
  pose proof (inv_size _ Hr). simpl in *. lia.
Qed.

Lemma entries_bounded_witness : mlen (entries (add_inflight 1 NewLoginLimiter "ip:1")) <= 10000.
Proof. exact (entries_bounded _ _ reserve_reachable). Defined.

(** The wait [Allow] reports is at most the bound all cooldowns end within. *)
Lemma allow_loop_bound now forget keys m w b :
  0 <= w <= b ->
  (forall k e, In k keys -> m !! k = Some e -> now < blockedTill e -> blockedTill e - now <= b) ->
  0 <= snd (allow_loop now forget keys m w) <= b.
Proof.
  revert m w. induction keys as [|k ks IH]; intros m w Hw Hb; simpl; [done|].
  destruct (m !! k) as [e|] eqn:Ek; [|apply IH; [done|eauto using in_cons]].
  destruct (now - lastFailure e >? forget).
  - apply IH; [done|]. intros k' e' Hin Hk'. apply (Hb k'); [by right|].
    by apply lookup_delete_Some in Hk' as [_ ?].
  - apply IH; [|eauto using in_cons]. destruct (now <? blockedTill e) eqn:E; to_prop; [|done].
    assert (blockedTill e - now <= b) by (apply (Hb k); [by left|done|done]).
    destruct (_ >? w) eqn:E2; lia.
Qed.

(** Nobody is locked out for good.  In every reachable state the wait an
    attempt is told is at most what is left of the 15 minute maximum after the
    last failure of its keys, and an attempt 15 minutes later is let through. *)
Theorem never_locked_out l act now keys b :
  reachable (l, act) -> 0 <= now -> 0 <= b ->
  (forall k e, In k keys -> entries l !! k = Some e -> lastFailure e + 15 * minute <= now + b) ->
  let '(_, (ok, wait)) := Allow l now keys in 0 <= wait <= b /\ ok = (wait =? 0).
Proof.
  intros Hr Hn Hb Hk. apply inv_reachable in Hr. pose proof (inv_entries _ Hr) as He.
  pose proof (settings_eq _ _ (inv_settings _ Hr)) as (_ & _ & Hm & _).
  unfold Allow. destruct (allow_loop _ _ _ _ _) as [m w] eqn:E.
  pose proof (allow_loop_bound now (forgetAfter l) keys (entries l) 0 b) as H.
  rewrite E in H. simpl in *. split; [|done]. apply H; [lia|].
  intros k e Hin Hlk Hlt. destruct (He k e Hlk) as (_ & _ & [Hz|Hbl]).
  - rewrite Hz in Hlt. unfold zeroTime, second in Hlt. lia.
  - specialize (Hk k e Hin Hlk). rewrite Hm in Hbl. lia.
Qed.

Lemma never_locked_out_witness :
  let '(_, (ok, wait)) := Allow (add_inflight 1 NewLoginLimiter "ip:1") 5 ["ip:1"] in
  0 <= wait <= 0 /\ ok = (wait =? 0).
Proof.
  refine (never_locked_out _ _ 5 ["ip:1"] 0 reserve_reachable _ _ _); [lia|lia|].
  intros k e _ H. vm_compute in H. discriminate.
Defined.

(** The cooldown after the n-th failure beyond the free tries is exactly
    2s * 2^(n-1), cut at 15 minutes, and until it has passed every attempt that
    names the key is refused. *)
Theorem failure_cooldown l now order k t n :
  freeTries l = 5 -> baseDelay l = 2 * second -> maxDelay l = 15 * minute ->
  forgetAfter l = 30 * minute -> mlen (entries l) < maxEntries l ->
  (exists e, entries l !! k = Some e /\ now - lastFailure e <= 30 * minute /\ failures e = 4 + n) ->
  1 <= n -> now <= t ->
  let d := Z.min (15 * minute) (2 * second * 2 ^ (n - 1)) in
  let '(_, (ok, wait)) := Allow (Failure l now order [k]) t [k] in
  ok = (d <=? t - now) /\ (ok = false -> wait = d - (t - now)).
Proof.
  intros H1 H2 H3 H4 Hs (e & Hk & Hlf & Hf) Hn Ht. cbv zeta.
  unfold Failure. replace (mlen (entries l) >=? maxEntries l) with false by lia.
  cbn [fold_left]. unfold failure_key. rewrite Hk, H4.
  replace (now - lastFailure e >? 30 * minute) with false by lia.
  unfold Allow. cbn [allow_loop entries set_entries forgetAfter]. rewrite lookup_insert_eq.
  assert (Hc : cooldown l (failures e + 1 - freeTries l) = Z.min (15 * minute) (2 * second * 2 ^ (n - 1))).
  { rewrite cooldown_closed by (rewrite H2; unfold second; lia). rewrite H1, H2, H3, Hf.
    do 3 f_equal. lia. }
  cbn [fail_entry lastFailure blockedTill]. rewrite Hc.
  replace (failures e + 1 >? freeTries l) with true by lia. rewrite H4.
  set (d := Z.min _ _).
  assert (0 < d <= 15 * minute).
  { assert (0 < 2 ^ (n - 1)) by (apply Z.pow_pos_nonneg; lia). unfold d, minute, second. lia. }
  destruct (t - now >? 30 * minute) eqn:E.
  { split; [|done]. symmetry. apply Z.leb_le. lia. }
  destruct (t <? now + d) eqn:E2; to_prop.
  - destruct (now + d - t >? 0) eqn:E3; [|lia].
    replace (d <=? t - now) with false by lia. replace (now + d - t =? 0) with false by lia.
    split; [done|lia].
  - replace (d <=? t - now) with true by lia. done.
Qed.

Definition demo_limiter : LoginLimiter :=
  set_entries NewLoginLimiter {[ "user:anna" := mkEntry 6 100 zeroTime ]}.
Lemma failure_cooldown_witness :
  let '(_, (ok, wait)) := Allow (Failure demo_limiter 200 [] ["user:anna"]) 300 ["user:anna"] in
  ok = (4 * second <=? 100) /\ (ok = false -> wait = 4 * second - 100).
Proof.
  refine (failure_cooldown demo_limiter 200 [] "user:anna" 300 2 eq_refl eq_refl eq_refl eq_refl _ _ _ _).
  - vm_compute. reflexivity.
  - exists (mkEntry 6 100 zeroTime). vm_compute. split; [reflexivity|split; [discriminate|reflexivity]].
  - lia.
  - lia.
Defined.

(** [done] gives the slot back before it records the failure.  Another attempt
    that is let in between makes the attempts at once (5) more than the free
    tries that are left (4). *)
Example reserve_race :
  exists l act, reachable (l, act) /\ failed l "ip:1" = 1 /\ running l "ip:1" = 5.
Proof.
  set (r n := fold_left (add_inflight 1) (repeat "ip:1" n) NewLoginLimiter).
  set (a n := repeat ["ip:1"] n).
  assert (Hst : forall n, (n < 5)%nat -> step (r n, a n) (r (S n), a (S n))).
  { intros n Hn. apply step_reserve; [apply NoDup_singleton|].
    destruct n as [|[|[|[|[|n]]]]]; try lia; reflexivity. }
  exists (Failure (r 5%nat) 7 [] ["ip:1"]), (a 5%nat).
  split; [|by vm_compute].
  apply rtc_r with (r 5%nat, a 5%nat).
  2:{ apply step_failure. vm_compute. constructor. }
  apply rtc_r with (r 4%nat, a 4%nat); [|apply Hst; lia].
  apply rtc_r with (r 5%nat, a 5%nat).
  2:{ exact (step_release (r 5%nat) [] ["ip:1"] (a 4%nat)). }
  do 5 (eapply rtc_r; [|apply Hst; lia]). apply rtc_refl.
Qed.
