(* ===== verification/Paths.v ===== *)
(** * Paths (backend/paths.go, backend/manager.go, backend/layout.go)

    The lexical functions of [path/filepath] on Unix, the containment checks for
    paths a user supplies, and the directories a server may have.  What the file
    system answers is the class [FileSystem]. *)

From Stdlib Require Import ZArith Lia Bool String Ascii List.
From stdpp Require Import base gmap strings list.
From S2P Require Import Prelude GoStrings Validate.

(** ** path/filepath *)

(** The elements of a path after [Clean]; the stack is reversed. *)
Fixpoint clean_loop (rooted : bool) (parts rstack : list string) : list string :=
  match parts with
  | [] => rev rstack
  | p :: r =>
      if String.eqb p "" || String.eqb p "." then clean_loop rooted r rstack
      else if String.eqb p ".." then
        match rstack with
        | top :: rest => if String.eqb top ".." then clean_loop rooted r (".." :: rstack)
                         else clean_loop rooted r rest
        | [] => clean_loop rooted r (if rooted then [] else [".."])
        end
      else clean_loop rooted r (p :: rstack)
  end.

Definition IsAbs (p : string) : bool := has_prefix p "/".
Definition elements (p : string) : list string := clean_loop (IsAbs p) (split "/" p) [].

Definition Clean (p : string) : string :=
  if String.eqb p "" then "." else
  let out := join "/" (elements p) in
  if IsAbs p then "/" +:+ out else if String.eqb out "" then "." else out.

Fixpoint Join (elem : list string) : string :=
  match elem with
  | [] => ""
  | e :: r => if String.eqb e "" then Join r else Clean (join "/" elem)
  end.

(** The elements of [Rel] once both paths are split; [None] is its error. *)
Fixpoint rel_elements (base targ : list string) : option (list string) :=
  match base, targ with
  | b :: bs, t :: ts =>
      if String.eqb b t then rel_elements bs ts
      else if String.eqb b ".." then None
      else Some (map (fun _ => "..") base ++ targ)%list
  | _, _ => Some (map (fun _ => "..") base ++ targ)%list
  end.
Definition Rel (base targ : string) : option string :=
  if String.eqb (Clean base) (Clean targ) then Some "."
  else if negb (Bool.eqb (IsAbs base) (IsAbs targ)) then None
  else match rel_elements (elements base) (elements targ) with
       | Some l => Some (join "/" l)
       | None => None
       end.

(** [filepath.Dir] and [filepath.Base] of a clean absolute path. *)
Definition Dir (p : string) : string := "/" +:+ join "/" (take (length (elements p) - 1) (elements p)).
Definition Base (p : string) : string := match rev (elements p) with x :: _ => x | [] => "/" end.

(** ** paths.go *)

Inductive path_error := ErrPathOutsideRoot | EFs.

Definition IsWithin (root path : string) : bool :=
  match Rel root path with
  | None => false
  | Some rel =>
      if String.eqb rel "." then true
      else negb (IsAbs rel || String.eqb rel ".." || has_prefix rel "../")
  end.

Definition to_slash (s : string) : string := replace_byte s "\" "/".
Definition cleanRelative (rel : string) : result path_error string :=
  if contains_byte rel (chr 0) then Err ErrPathOutsideRoot else
  let rel := to_slash rel in
  if has_prefix rel "/" then Err ErrPathOutsideRoot else
  let cleaned := Clean rel in
  if String.eqb cleaned ".." || has_prefix cleaned "../" then Err ErrPathOutsideRoot
  else Ok (if String.eqb cleaned "." then "" else cleaned).

(** What [EvalSymlinks] answers. *)
Inductive eval_result := Resolved (p : string) | NotExist | EvalError.

Class FileSystem := {
  EvalSymlinks : string -> eval_result;
  Lstat_ok : string -> bool;              (* an entry exists under this name *)
  fileOwnerUID : string -> option Z
}.

Section FileSystem.
Context `{FileSystem}.

(** The loop of [resolveExisting]; every round goes to the parent directory. *)
Fixpoint resolve_loop (fuel : nat) (cur suffix : string) : option (result path_error string) :=
  match EvalSymlinks cur with
  | Resolved p => Some (Ok (if String.eqb suffix "" then p else Join [p; suffix]))
  | EvalError => Some (Err EFs)
  | NotExist =>
      if Lstat_ok cur then Some (Err ErrPathOutsideRoot) else
      let parent := Dir cur in
      if String.eqb parent cur then Some (Err EFs) else
      match fuel with
      | O => None
      | S f => resolve_loop f parent (if String.eqb suffix "" then Base cur else Join [Base cur; suffix])
      end
  end.
Definition resolveExisting (p : string) : result path_error string :=
  match resolve_loop (length (elements p)) p "" with Some r => r | None => Err EFs end.

(** The root is absolute already: [filepath.Abs] cleans it. *)
Definition ResolveInRoot (root rel : string) : result path_error string :=
  let? cleaned := cleanRelative rel in
  match EvalSymlinks root with
  | Resolved rootResolved =>
      let rootResolved := Clean rootResolved in
      let? resolved := resolveExisting (Join [rootResolved; cleaned]) in
      if IsWithin rootResolved resolved then Ok resolved else Err ErrPathOutsideRoot
  | _ => Err EFs
  end.

Definition ResolveAbsInRoots (path : string) (roots : list string) : result path_error string :=
  if contains_byte path (chr 0) || negb (IsAbs path) then Err ErrPathOutsideRoot else
  let? resolved := resolveExisting (Clean path) in
  if existsb (fun root => match EvalSymlinks root with
                          | Resolved r => IsWithin r resolved
                          | _ => false end) roots
  then Ok resolved else Err ErrPathOutsideRoot.
End FileSystem.

Definition systemDirs : list string :=
  ["/bin"; "/boot"; "/dev"; "/etc"; "/lib"; "/lib32"; "/lib64"; "/libx32"; "/proc";
   "/root"; "/run"; "/sbin"; "/sys"; "/usr"; "/tmp"; "/var/tmp"; "/var/lib"; "/var/log";
   "/var/spool"; "/var/cache"; "/var/run"; "/var/mail"; "/snap"].
Definition containerDirs : list string :=
  ["/"; "/home"; "/var"; "/opt"; "/mnt"; "/srv"; "/media"; "/data"].

Definition IsForbiddenServerDir (dir : string) : bool :=
  let clean := Clean dir in
  mem clean containerDirs
  || existsb (fun s => String.eqb clean s || has_prefix clean (s +:+ "/")) systemDirs.

Section ServerSubRoot.
Context `{FileSystem}.
Definition ServerSubRoot (serverDir sub : string) (ownerUID : Z) : result path_error string :=
  let base := if String.eqb sub "" then serverDir else Join [serverDir; sub] in
  match EvalSymlinks base with
  | Resolved resolved =>
      if match EvalSymlinks serverDir with Resolved d => IsWithin d resolved | _ => false end
      then Ok resolved
      else if IsForbiddenServerDir resolved then Err ErrPathOutsideRoot
      else if ownerUID >=? 0 then
        match fileOwnerUID resolved with
        | None => Err EFs
        | Some uid => if (uid >=? 0) && negb (uid =? ownerUID) then Err ErrPathOutsideRoot else Ok resolved
        end
      else Ok resolved
  | _ => Err EFs
  end.
End ServerSubRoot.

(** ** manager.go, layout.go *)

Definition dir_char (c : ascii) : bool := is_alnum c || one_of "/._-+@" c.
Definition cleanSlashPath (p : string) : string := Clean p.
Definition IsSafeServerDir (dir : string) : bool :=
  if String.eqb dir "" || (255 <? slen dir) || negb (has_prefix dir "/") then false
  else if negb (sall dir_char dir) then false
  else if contains dir "//" || negb (String.eqb (cleanSlashPath dir) dir) then false
  else if existsb (fun part => String.eqb part ".." || String.eqb part ".") (split "/" dir) then false
  else negb (IsForbiddenServerDir dir).

Definition LayoutHost : string := "".
Definition LayoutData : string := "data".
Definition containerDataDir : string := "/data".
Definition dockerScriptDir : string := "/app".

(** What the path functions read of a [GameServerInstance]. *)
Record Instance := mkInstance {
  i_ID : string; i_User : string; i_Script : string; i_Dir : string; i_Layout : string
}.

Definition dashboardPath (srv : Instance) (p : string) : string :=
  if negb (String.eqb (i_Layout srv) LayoutData) then p else
  let p := cleanSlashPath p in
  if String.eqb p containerDataDir then i_Dir srv
  else if has_prefix p (containerDataDir +:+ "/")
  then Join [i_Dir srv; trim_prefix p (containerDataDir +:+ "/")]
  else "".

Definition containerPath (srv : Instance) (p : string) : string :=
  if negb (String.eqb (i_Layout srv) LayoutData) || String.eqb (i_Dir srv) "" then p else
  let dir := i_Dir srv in
  if String.eqb p dir then containerDataDir
  else if has_prefix p (dir +:+ "/") then containerDataDir +:+ "/" +:+ trim_prefix p (dir +:+ "/")
  else p.

Definition configLgsmRel (srv : Instance) : string :=
  if String.eqb (i_Layout srv) LayoutData then "config-lgsm" else Join ["lgsm"; "config-lgsm"].
Definition configRel (srv : Instance) (script : string) : string := Join [configLgsmRel srv; script].
Definition lgsmDataRel (srv : Instance) : string :=
  if String.eqb (i_Layout srv) LayoutData then "data" else Join ["lgsm"; "data"].
Definition modsRel (srv : Instance) : string :=
  if String.eqb (i_Layout srv) LayoutData then "mods" else Join ["lgsm"; "mods"].
Definition defaultBackupRel (srv : Instance) : string :=
  if String.eqb (i_Layout srv) LayoutData then "backup" else Join ["lgsm"; "backup"].
Definition gameServerName (script : string) : string := List.hd "" (split "-" script).

Example clean_examples :
  map Clean [""; "/"; "a//b/./c/"; "/../a/../b"; "../x/../.."; "a/.."] = ["."; "/"; "a/b/c"; "/b"; "../.."; "."].
Proof. reflexivity. Qed.
Example is_within_examples :
  [IsWithin "/base" "/base_evil"; IsWithin "/base" "/base/x"; IsWithin "/base" "/base/../etc"; IsWithin "/" "/x"]
  = [false; true; false; true].
Proof. reflexivity. Qed.
Example join_example : Join ["/srv/a"; ""; "../b"] = "/srv/b". Proof. reflexivity. Qed.

(** ** Lemmas: elements *)

Definition no_slash (s : string) : Prop := contains_byte s "/" = false.
(** A name that stands for an entry of a directory. *)
Definition name_ok (s : string) : Prop := s <> "" /\ s <> "." /\ s <> ".." /\ no_slash s.

Lemma clean_loop_ok parts rstack :
  Forall no_slash parts -> Forall name_ok rstack -> Forall name_ok (clean_loop true parts rstack).
Proof.
  intros Hp. revert rstack. induction Hp as [|p r Hp _ IH]; intros st Hs; cbn [clean_loop].
  { by apply Forall_rev. }
  destruct (String.eqb_spec p ""); [by apply IH|]. destruct (String.eqb_spec p "."); [by apply IH|]. cbn [orb].
  destruct (String.eqb_spec p "..").
  - destruct Hs as [|top rest Ht Hr]; [by apply IH|]. destruct (String.eqb_spec top "..") as [->|].
    + by destruct Ht as (_ & _ & ? & _).
    + by apply IH.
  - apply IH. constructor; [by split_and!|done].
Qed.

Lemma split_pieces c s : Forall (fun w => contains_byte w c = false) (split c s).
Proof.
  unfold split. apply Forall_map. eapply Forall_impl; [apply lsplit_pieces|]. intros w Hw.
  apply contains_byte_false. by rewrite to_of_bytes.
Qed.
Lemma split_no_slash s : Forall no_slash (split "/" s).
Proof. apply split_pieces. Qed.

Lemma elements_ok p : IsAbs p = true -> Forall name_ok (elements p).
Proof. intros Ha. unfold elements. rewrite Ha. apply clean_loop_ok; [apply split_no_slash|constructor]. Qed.

Lemma clean_loop_names rooted l st : Forall name_ok l -> clean_loop rooted l st = (rev st ++ l)%list.
Proof.
  intros H. revert st. induction H as [|p r (H1 & H2 & H3 & _) _ IH]; intros st; cbn [clean_loop].
  { by rewrite app_nil_r. }
  apply String.eqb_neq in H1, H2, H3. rewrite H1, H2, H3. cbn [orb]. rewrite IH. simpl. by rewrite <- app_assoc.
Qed.

Lemma split_slash s : split "/" ("/" +:+ s) = "" :: split "/" s.
Proof. reflexivity. Qed.

Lemma split_join_slash l : l <> [] -> Forall no_slash l -> split "/" (join "/" l) = l.
Proof. intros H1 H2. change "/"%string with (byte_str "/"). by apply split_join. Qed.

Lemma Forall_name_no_slash l : Forall name_ok l -> Forall no_slash l.
Proof. intros H. eapply Forall_impl; [exact H|]. by intros x (_ & _ & _ & ?). Qed.

Lemma elements_abs l : Forall name_ok l -> elements ("/" +:+ join "/" l) = l.
Proof.
  intros H. unfold elements. change (IsAbs ("/" +:+ join "/" l)) with true. rewrite split_slash.
  destruct l as [|x r]; [reflexivity|]. rewrite split_join_slash by (try done; by apply Forall_name_no_slash).
  change (clean_loop true ("" :: x :: r) []) with (clean_loop true (x :: r) []). by rewrite clean_loop_names.
Qed.

Lemma clean_abs p : IsAbs p = true -> Clean p = "/" +:+ join "/" (elements p).
Proof.
  intros Ha. unfold Clean. destruct (String.eqb_spec p "") as [->|]; [done|]. by rewrite Ha.
Qed.

Lemma clean_is_abs p : IsAbs p = true -> IsAbs (Clean p) = true.
Proof. intros Ha. by rewrite clean_abs. Qed.

Lemma elements_clean p : IsAbs p = true -> elements (Clean p) = elements p.
Proof. intros Ha. rewrite clean_abs by done. by apply elements_abs, elements_ok. Qed.

Lemma join_slash_inj l l' :
  Forall name_ok l -> Forall name_ok l' -> "/" +:+ join "/" l = "/" +:+ join "/" l' -> l = l'.
Proof. intros H1 H2 H. by rewrite <- (elements_abs l H1), <- (elements_abs l' H2), H. Qed.

(** ** Lemmas: containment *)

Lemma rel_elements_spec base targ :
  Forall name_ok base ->
  exists ups rest, rel_elements base targ = Some (ups ++ rest)%list /\ Forall (fun x => x = "..") ups /\
    (exists common, targ = (common ++ rest)%list) /\
    (ups = [] -> targ = (base ++ rest)%list) /\ (base `prefix_of` targ -> ups = []).
Proof.
  revert targ. induction base as [|b bs IH]; intros targ Hb.
  { exists [], targ. split_and!; [done|constructor|by exists []|done|done]. }
  inversion Hb as [|? ? Hb1 Hb2]; subst.
  assert (Hups : forall t, exists ups rest, Some (map (fun _ => "..") (b :: bs) ++ t)%list = Some (ups ++ rest)%list /\
      Forall (fun x => x = "..") ups /\ (exists common, t = (common ++ rest)%list) /\ ups <> []).
  { intros t. exists (map (fun _ => "..") (b :: bs)), t. split_and!; [done| |by exists []|done].
    apply Forall_map, Forall_true. done. }
  destruct targ as [|t ts].
  { destruct (Hups []) as (ups & rest & H1 & H2 & H3 & H4). exists ups, rest. split_and!; try done.
    intros [k Hk]. done. }
  cbn [rel_elements]. destruct (String.eqb_spec b t) as [->|Hne].
  - destruct (IH ts Hb2) as (ups & rest & H1 & H2 & (common & Hc) & H4 & H5). exists ups, rest.
    split_and!; [done|done|exists (t :: common); by rewrite Hc| |].
    + intros Hn. simpl. f_equal. by apply H4.
    + intros [k Hk]. simpl in Hk. injection Hk as Hk. apply H5. by exists k.
  - destruct (String.eqb_spec b "..") as [->|]; [by destruct Hb1 as (_ & _ & ? & _)|].
    destruct (Hups (t :: ts)) as (ups & rest & H1 & H2 & H3 & H4). exists ups, rest. split_and!; try done.
    intros [k Hk]. simpl in Hk. injection Hk as ? _. by subst.
Qed.

Lemma join_first x l : exists r, join "/" (x :: l) = x +:+ r /\ (r = "" \/ exists r', r = "/" +:+ r').
Proof.
  destruct l as [|y l].
  - exists "". rewrite join_one, string_app_nil_r. auto.
  - exists ("/" +:+ join "/" (y :: l)). rewrite join_cons. eauto.
Qed.

(** No relative path that starts with a name leaves the directory. *)
Lemma join_names_inside x l :
  name_ok x -> Forall name_ok l ->
  (IsAbs (join "/" (x :: l)) || String.eqb (join "/" (x :: l)) ".." || has_prefix (join "/" (x :: l)) "../") = false.
Proof.
  intros Hx Hl.
  assert (Hs : split "/" (join "/" (x :: l)) = x :: l)
    by (apply split_join_slash; [done|]; apply Forall_name_no_slash; by constructor).
  destruct Hx as (H1 & H2 & H3 & _).
  destruct (IsAbs _) eqn:Ea; [|destruct (String.eqb_spec (join "/" (x :: l)) "..") as [He|];
    [|destruct (has_prefix _ _) eqn:Ep; [|done]]]; exfalso.
  - apply has_prefix_spec in Ea as [r Hr]. rewrite Hr, split_slash in Hs. congruence.
  - rewrite He in Hs. vm_compute in Hs. congruence.
  - apply has_prefix_spec in Ep as [r Hr]. rewrite Hr in Hs.
    change (split "/" ("../" +:+ r)) with (".." :: split "/" r) in Hs. congruence.
Qed.

(** [IsWithin] compares element by element: "/base_evil" is not below "/base". *)
Lemma is_within_iff root path :
  IsAbs root = true -> IsAbs path = true ->
  IsWithin root path = true <-> elements root `prefix_of` elements path.
Proof.
  intros Hr Hp. pose proof (elements_ok _ Hr) as Er. pose proof (elements_ok _ Hp) as Ep.
  unfold IsWithin, Rel. rewrite !clean_abs, Hr, Hp by done. cbn [Bool.eqb negb].
  destruct (String.eqb_spec ("/" +:+ join "/" (elements root)) ("/" +:+ join "/" (elements path))) as [He|Hne].
  { apply join_slash_inj in He; [|done..]. rewrite He. split; done. }
  destruct (rel_elements_spec (elements root) (elements path) Er)
    as (ups & rest & -> & Hu & (common & Hc) & Hpre & Hpre2).
  rewrite Hc in Ep. apply Forall_app in Ep as [_ Erest].
  destruct ups as [|u ups]; cbn [app].
  - specialize (Hpre eq_refl). split; [intros _; by exists rest|]. intros _. destruct rest as [|x l].
    + exfalso. apply Hne. by rewrite Hpre, app_nil_r.
    + destruct (String.eqb_spec (join "/" (x :: l)) "."); [done|].
      inversion Erest; subst. by rewrite join_names_inside.
  - inversion Hu as [|? ? -> Hu']; subst. split; [|intros H; by apply Hpre2 in H]. intros H. exfalso.
    destruct (join_first ".." (ups ++ rest)) as (r & Hj & Hcase). rewrite Hj in H.
    destruct Hcase as [->|[r' ->]]; [done|]. simpl in H. discriminate H.
Qed.

(** ** Lemmas: joining *)

Lemma join_app sep a b : a <> [] -> b <> [] -> join sep (a ++ b)%list = join sep a +:+ sep +:+ join sep b.
Proof.
  intros Ha Hb. induction a as [|x [|y a] IH]; [done| |].
  - destruct b as [|z b]; [done|]. cbn [app]. by rewrite join_cons, join_one.
  - cbn [app]. rewrite !join_cons. cbn [app] in IH. rewrite IH by done. by rewrite !string_app_assoc.
Qed.

Lemma split_app c a b : split c (a +:+ byte_str c +:+ b) = (split c a ++ split c b)%list.
Proof.
  rewrite <- (join_split c a) at 1. rewrite <- (join_split c b) at 1.
  rewrite <- join_app by apply split_not_nil. apply split_join.
  - pose proof (split_not_nil c a). by destruct (split c a).
  - apply Forall_app. split; apply split_pieces.
Qed.
Lemma split_app_slash a b : split "/" (a +:+ "/" +:+ b) = (split "/" a ++ split "/" b)%list.
Proof. apply split_app. Qed.

(** A text that splits into two parts has only one split in two. *)
Lemma split_two c a b x y : split c (a +:+ byte_str c +:+ b) = [x; y] -> a = x /\ b = y.
Proof.
  rewrite split_app. pose proof (split_not_nil c a) as Ha. pose proof (split_not_nil c b) as Hb.
  rewrite <- (join_split c a) at 2. rewrite <- (join_split c b) at 2.
  intros H. pose proof (f_equal (@length string) H) as Hl. rewrite length_app in Hl.
  destruct (split c a) as [|u [|? ?]]; [done| |]; destruct (split c b) as [|v [|? ?]]; try done; cbn in Hl; try lia.
  injection H as -> ->. by rewrite !join_one.
Qed.

Lemma clean_loop_app rooted a b st :
  clean_loop rooted (a ++ b) st = clean_loop rooted b (rev (clean_loop rooted a st)).
Proof.
  revert st. induction a as [|p r IH]; intros st; cbn [app clean_loop]; [by rewrite rev_involutive|].
  destruct (_ || _); [apply IH|]. destruct (String.eqb p ".."); [|apply IH].
  destruct st as [|top rest]; [apply IH|]. destruct (String.eqb top ".."); apply IH.
Qed.

Lemma elements_join p names :
  IsAbs p = true -> Forall name_ok names -> names <> [] ->
  elements (Join [p; join "/" names]) = (elements p ++ names)%list /\ IsAbs (Join [p; join "/" names]) = true.
Proof.
  intros Ha Hn Hne. cbn [Join]. destruct (String.eqb_spec p "") as [->|_]; [done|].
  assert (Hab : IsAbs (join "/" [p; join "/" names]) = true).
  { rewrite join_cons, join_one. apply has_prefix_spec in Ha as [r ->]. reflexivity. }
  split; [|by apply clean_is_abs]. rewrite elements_clean by done. unfold elements at 1. rewrite Hab.
  rewrite join_cons, join_one, split_app_slash, clean_loop_app, split_join_slash
    by (try done; by apply Forall_name_no_slash).
  rewrite clean_loop_names by done. rewrite rev_involutive. unfold elements. by rewrite Ha.
Qed.

Lemma join_not_empty x l : name_ok x -> join "/" (x :: l) <> "".
Proof.
  intros (Hx & _) H. destruct (join_first x l) as (r & Hj & _). rewrite Hj in H. by destruct x.
Qed.

Lemma name_not_abs x l : name_ok x -> Forall name_ok l -> IsAbs (join "/" (x :: l)) = false.
Proof. intros Hx Hl. pose proof (join_names_inside x l Hx Hl) as H. by apply orb_false_iff in H as [[??]%orb_false_iff _]. Qed.

Lemma join_names x l : name_ok x -> Forall name_ok l -> l <> [] ->
  Join [x; join "/" l] = join "/" (x :: l).
Proof.
  intros Hx Hl Hne. cbn [Join]. pose proof Hx as (H1 & _). apply String.eqb_neq in H1. rewrite H1.
  assert (He : join "/" [x; join "/" l] = join "/" (x :: l)).
  { destruct l as [|y l]; [done|]. by rewrite !join_cons, join_one. }
  rewrite He. unfold Clean. destruct (String.eqb_spec (join "/" (x :: l)) "") as [E|_];
    [by apply join_not_empty in E|].
  assert (Hel : elements (join "/" (x :: l)) = x :: l).
  { unfold elements. rewrite split_join_slash, clean_loop_names; [done|by constructor|done|].
    apply Forall_name_no_slash. by constructor. }
  rewrite name_not_abs, Hel by done. by destruct (String.eqb_spec (join "/" (x :: l)) "") as [E|_];
    [apply join_not_empty in E|].
Qed.

(** ** Lemmas: resolving *)

Definition abs_path (l : list string) : string := "/" +:+ join "/" l.

Lemma dir_abs l x : Forall name_ok (l ++ [x])%list -> Dir (abs_path (l ++ [x])%list) = abs_path l.
Proof.
  intros H. unfold Dir, abs_path. rewrite elements_abs by done. rewrite length_app. simpl.
  replace (length l + 1 - 1)%nat with (length l) by lia. by rewrite take_app_length.
Qed.
Lemma base_abs l x : Forall name_ok (l ++ [x])%list -> Base (abs_path (l ++ [x])%list) = x.
Proof. intros H. unfold Base, abs_path. rewrite elements_abs by done. by rewrite rev_app_distr. Qed.

(** Trimming slashes off a path of names leaves the names. *)
Lemma trim_names l : l <> [] -> Forall name_ok l -> trim (abs_path l) "/" = join "/" l.
Proof.
  intros Hne Hn.
  assert (Hb : forall c s, name_ok s -> In c (to_bytes s) -> one_of "/" c = false).
  { intros c s (_ & _ & _ & H) Hc. apply contains_byte_false in H. unfold one_of. cbn.
    destruct (Ascii.eqb_spec c "/") as [->|]; done. }
  assert (Hleft : trim_left (abs_path l) "/" = join "/" l).
  { unfold trim_left, abs_path. rewrite to_bytes_app. change (to_bytes "/") with ["/"%char].
    destruct l as [|x t]; [done|]. inversion Hn as [|? ? Hx _]; subst. destruct (join_first x t) as (r & -> & _).
    rewrite to_bytes_app. destruct (to_bytes x) as [|c k] eqn:E; [by apply to_bytes_nil in E; destruct Hx|].
    change (one_of "/") with (one_of "/"). cbn [app ldrop_while]. change (one_of "/" "/") with true. cbn match.
    rewrite (Hb c x Hx) by (rewrite E; by left).
    change (c :: k ++ to_bytes r)%list with ((c :: k) ++ to_bytes r)%list. by rewrite <- E, of_bytes_app, !of_to_bytes. }
  unfold trim. rewrite Hleft.
  destruct l as [|x t _] using rev_ind; [done|]. clear Hleft. apply Forall_app in Hn as [_ Hx]. inversion Hx as [|? ? Hx' _]; subst.
  destruct (to_bytes x) as [|d k _] eqn:E using rev_ind; [by apply to_bytes_nil in E; destruct Hx'|].
  assert (Hxd : x = of_bytes k +:+ byte_str d).
  { rewrite <- (of_to_bytes x), E. by rewrite of_bytes_app. }
  assert (Hj : exists p, join "/" (t ++ [x]) = p +:+ byte_str d).
  { rewrite Hxd. destruct t as [|y t]; [exists (of_bytes k); cbn [app]; by rewrite join_one|].
    rewrite join_snoc by done. exists (join "/" (y :: t) +:+ "/" +:+ of_bytes k). by rewrite !string_app_assoc. }
  destruct Hj as [p ->]. apply trim_right_last. apply (Hb d x Hx'). rewrite E. apply in_or_app. right. by left.
Qed.

Section Resolve.
Context `{FileSystem}.

(** The names [l] below [anc] do not exist, not even as dangling links. *)
Definition missing (anc l : list string) : Prop :=
  forall k, (k < length l)%nat ->
    EvalSymlinks (abs_path (anc ++ take (S k) l)) = NotExist /\
    Lstat_ok (abs_path (anc ++ take (S k) l)) = false.

Definition resolved_as (p : list string) (q : string) : Prop :=
  exists anc names r, p = (anc ++ names)%list /\ EvalSymlinks (abs_path anc) = Resolved r /\
    q = (match names with [] => r | _ => Join [r; join "/" names] end) /\ missing anc names.

Lemma missing_cons anc x l :
  EvalSymlinks (abs_path (anc ++ [x])) = NotExist -> Lstat_ok (abs_path (anc ++ [x])) = false ->
  missing (anc ++ [x]) l -> missing anc (x :: l).
Proof.
  intros H1 H2 Hm k Hk. destruct k as [|k]; [done|]. cbn [take] in *. specialize (Hm k).
  rewrite <- app_assoc in Hm. apply Hm. simpl in Hk. lia.
Qed.

Lemma resolve_loop_spec fuel anc names :
  Forall name_ok anc -> Forall name_ok names -> (length anc <= fuel)%nat -> missing anc names ->
  exists res, resolve_loop fuel (abs_path anc) (join "/" names) = Some res /\
    forall q, res = Ok q -> resolved_as (anc ++ names) q.
Proof.
  revert anc names. induction fuel as [|fuel IH]; intros anc names Ha Hn Hf Hm.
  all: assert (Hsuf : forall p, (if String.eqb (join "/" names) "" then p else Join [p; join "/" names])
         = match names with [] => p | _ => Join [p; join "/" names] end)
    by (intros p; destruct names as [|x l]; [done|]; inversion Hn; subst;
        destruct (String.eqb_spec (join "/" (x :: l)) "") as [E|]; [by apply join_not_empty in E|done]).
  all: cbn [resolve_loop]; destruct (EvalSymlinks (abs_path anc)) as [p| |] eqn:Ee;
    [eexists; split; [done|]; intros q [= <-]; exists anc, names, p; by rewrite Hsuf
    | |by eexists].
  all: destruct (Lstat_ok (abs_path anc)) eqn:El; [by eexists|].
  - destruct anc; [|simpl in Hf; lia]. by eexists.
  - destruct anc as [|x anc _] using rev_ind; [by eexists|].
    pose proof Ha as Ha'. apply Forall_app in Ha' as [Ha1 Ha2]. inversion Ha2 as [|? ? Hx _]; subst.
    rewrite dir_abs, base_abs by done. destruct (String.eqb (abs_path anc) (abs_path (anc ++ [x]))); [by eexists|].
    rewrite length_app in Hf. simpl in Hf.
    assert (Hj : (if String.eqb (join "/" names) "" then x else Join [x; join "/" names]) = join "/" (x :: names)).
    { rewrite Hsuf. destruct names as [|y l]; [by rewrite join_one|]. by apply join_names. }
    rewrite Hj. destruct (IH anc (x :: names)) as (res & Hr & Hq); [done|by constructor|lia|by apply missing_cons|].
    exists res. split; [exact Hr|]. rewrite <- app_assoc. exact Hq.
Qed.

Lemma abs_path_clean p : IsAbs p = true -> Clean p = p -> p = abs_path (elements p).
Proof. intros Ha Hc. rewrite <- Hc at 1. by apply clean_abs. Qed.

Lemma resolve_existing_spec p q :
  IsAbs p = true -> Clean p = p -> resolveExisting p = Ok q -> resolved_as (elements p) q.
Proof.
  intros Ha Hc. unfold resolveExisting. rewrite (abs_path_clean p Ha Hc) at 2.
  destruct (resolve_loop_spec (length (elements p)) (elements p) [] (elements_ok _ Ha)) as (res & Hr & Hq);
    [constructor|done|intros k Hk; simpl in Hk; lia|].
  change (join "/" []) with "" in Hr. rewrite Hr. rewrite app_nil_r in Hq. intros ->. by apply Hq.
Qed.
End Resolve.

(** What the code relies on: resolving an absolute path gives a clean absolute one. *)
Class FileSystemLaws (F : FileSystem) := {
  eval_abs p q : IsAbs p = true -> EvalSymlinks p = Resolved q -> IsAbs q = true /\ Clean q = q
}.

Lemma resolve_existing_abs `{FileSystemLaws} p q : IsAbs p = true -> Clean p = p -> resolveExisting p = Ok q -> IsAbs q = true.
Proof.
  intros Ha Hc Hq. destruct (resolve_existing_spec _ _ Ha Hc Hq) as (anc & names & r & Hel & Hev & -> & _).
  destruct (eval_abs _ _ (eq_refl : IsAbs (abs_path anc) = true) Hev) as [Hr _].
  destruct names as [|x l]; [done|]. apply elements_join; [done| |done].
  pose proof (elements_ok _ Ha) as Hok. rewrite Hel in Hok. by apply Forall_app in Hok as [_ ?].
Qed.

Lemma join_root_clean r rel : IsAbs r = true -> IsAbs (Join [r; rel]) = true /\ Clean (Join [r; rel]) = Join [r; rel].
Proof.
  intros Ha. cbn [Join]. destruct (String.eqb_spec r "") as [->|_]; [done|].
  assert (Hab : IsAbs (join "/" [r; rel]) = true)
    by (rewrite join_cons; apply has_prefix_spec in Ha as [k ->]; reflexivity).
  split; [by apply clean_is_abs|].
  rewrite (clean_abs (Clean _)) by (by apply clean_is_abs). by rewrite elements_clean, clean_abs.
Qed.

(** What [ResolveInRoot] returns lies below the resolved root. *)
Lemma resolve_in_root_below `{FileSystemLaws} root rel p r :
  IsAbs root = true -> EvalSymlinks root = Resolved r -> ResolveInRoot root rel = Ok p ->
  IsAbs r = true /\ Clean r = r /\ IsAbs p = true /\ elements r `prefix_of` elements p.
Proof.
  intros Hroot Er. destruct (eval_abs _ _ Hroot Er) as [Ha Hc]. unfold ResolveInRoot. rewrite Er, Hc.
  destruct (cleanRelative rel) as [cleaned|]; [|done]. destruct (resolveExisting _) as [q|] eqn:Eq; [|done].
  destruct (IsWithin r q) eqn:Ew; [|done]. intros [= <-]. destruct (join_root_clean r cleaned Ha) as [Hj1 Hj2].
  pose proof (resolve_existing_abs _ _ Hj1 Hj2 Eq) as Hq. split_and!; [done|done|done|by apply is_within_iff].
Qed.

(** * Properties *)

(** C16: a relative path a user supplies resolves to a place below the root, in
    the sense of whole path elements: what exists is fully resolved, and what
    does not exist yet is appended as plain names, none of which is a link. *)
Theorem resolve_in_root_contained `{FileSystemLaws} root rel p :
  IsAbs root = true -> ResolveInRoot root rel = Ok p ->
  exists r, EvalSymlinks root = Resolved r /\ IsAbs p = true /\ elements r `prefix_of` elements p /\
    (exists cleaned, cleanRelative rel = Ok cleaned /\ resolved_as (elements (Join [r; cleaned])) p).
Proof.
  intros Hroot. unfold ResolveInRoot. destruct (cleanRelative rel) as [cleaned|] eqn:Ec; [|done].
  destruct (EvalSymlinks root) as [r| |] eqn:Er; [|done|done].
  destruct (eval_abs _ _ Hroot Er) as [Ha Hc]. rewrite Hc.
  destruct (resolveExisting _) as [q|] eqn:Eq; [|done]. destruct (IsWithin r q) eqn:Ew; [|done]. intros [= <-].
  destruct (join_root_clean r cleaned Ha) as [Hj1 Hj2]. pose proof (resolve_existing_abs _ _ Hj1 Hj2 Eq) as Hq.
  pose proof (resolve_existing_spec _ _ Hj1 Hj2 Eq) as Hres.
  exists r. split_and!; [done|done| |by exists cleaned]. by apply is_within_iff.
Qed.

(** A file system with the directory /srv/data only, for concrete runs. *)
Definition toy_fs : FileSystem := {|
  EvalSymlinks p := if mem p ["/"; "/srv"; "/srv/data"] then Resolved p else NotExist;
  Lstat_ok p := mem p ["/srv/data/dangling"];
  fileOwnerUID _ := Some 0
|}.
Lemma toy_fs_laws : FileSystemLaws toy_fs.
Proof.
  split. intros p q _. cbn [EvalSymlinks toy_fs].
  destruct (mem p ["/"; "/srv"; "/srv/data"]) eqn:E; [|done]. intros [= <-].
  apply mem_true in E. simpl in E. by destruct E as [<-|[<-|[<-|[]]]].
Qed.
Lemma resolve_in_root_contained_witness :
  elements "/srv/data" `prefix_of` elements "/srv/data/new/x".
Proof.
  destruct (@resolve_in_root_contained toy_fs toy_fs_laws "/srv/data" "a/../new/x" "/srv/data/new/x"
    eq_refl eq_refl) as (r & Hr & _ & Hp & _).
  injection Hr as <-. exact Hp.
Defined.
Example resolve_dangling : @ResolveInRoot toy_fs "/srv/data" "dangling/x" = Err ErrPathOutsideRoot.
Proof. reflexivity. Qed.

Lemma safe_dir_facts d :
  IsSafeServerDir d = true -> IsAbs d = true /\ Clean d = d /\ sall dir_char d = true /\ d <> "/".
Proof.
  unfold IsSafeServerDir. destruct (String.eqb d "" || (255 <? slen d) || negb (has_prefix d "/")) eqn:E; [done|].
  apply orb_false_iff in E as [_ Ha]. apply negb_false_iff in Ha.
  destruct (sall dir_char d) eqn:Es; [|done]. cbn [negb].
  destruct (contains d "//" || negb (String.eqb (cleanSlashPath d) d)) eqn:Ec; [done|].
  apply orb_false_iff in Ec as [_ Ec]. apply negb_false_iff, String.eqb_eq in Ec. unfold cleanSlashPath in Ec.
  destruct (existsb _ (split "/" d)); [done|]. intros Hf. split_and!; [done|done|done|]. by intros ->.
Qed.

(** The directory of a game server is a clean absolute path of harmless
    bytes, and no system directory contains it. *)
Theorem safe_server_dir_spec d :
  IsSafeServerDir d = true ->
  IsAbs d = true /\ Clean d = d /\ sall dir_char d = true /\
  Forall (fun s => IsWithin s d = false) systemDirs /\ ~ In d containerDirs.
Proof.
  unfold IsSafeServerDir. destruct (String.eqb d "" || (255 <? slen d) || negb (has_prefix d "/")) eqn:E; [done|].
  apply orb_false_iff in E as [_ Ha]. apply negb_false_iff in Ha.
  destruct (sall dir_char d) eqn:Es; [|done]. cbn [negb].
  destruct (contains d "//" || negb (String.eqb (cleanSlashPath d) d)) eqn:Ec; [done|].
  apply orb_false_iff in Ec as [_ Ec]. apply negb_false_iff, String.eqb_eq in Ec. unfold cleanSlashPath in Ec.
  destruct (existsb _ (split "/" d)); [done|]. intros Hf. apply negb_true_iff in Hf.
  unfold IsForbiddenServerDir in Hf. rewrite Ec in Hf. apply orb_false_iff in Hf as [Hf1 Hf2].
  split_and!; [done|done|done| |by apply mem_false].
  assert (Hsys : Forall (fun s => exists x l, s = abs_path (x :: l) /\ Forall name_ok (x :: l)) systemDirs).
  { assert (Hall : Forall (fun s => IsAbs s = true /\ abs_path (elements s) = s /\ elements s <> []) systemDirs)
      by (repeat constructor; vm_compute; congruence).
    eapply Forall_impl; [exact Hall|]. intros s (H1 & H2 & H3). pose proof (elements_ok _ H1) as H4.
    destruct (elements s) as [|x l] eqn:El; [done|]. exists x, l. split; [|done]. by rewrite H2. }
  apply Forall_forall. intros s Hs. rewrite Forall_forall in Hsys. destruct (Hsys s Hs) as (x & l & Hse & Hok).
  apply list_elem_of_In in Hs.
  apply not_true_iff_false. intros Hw. apply is_within_iff in Hw as [k Hk]; [|by rewrite Hse|done].
  rewrite Hse in Hk at 1. unfold abs_path in Hk. rewrite elements_abs in Hk by done.
  apply not_true_iff_false in Hf2. apply Hf2, existsb_exists. exists s. split; [done|].
  rewrite (abs_path_clean d Ha Ec), Hk, Hse. destruct k as [|y k].
  - rewrite app_nil_r, String.eqb_refl. done.
  - apply orb_true_iff. right. apply has_prefix_spec. exists (join "/" (y :: k)). unfold abs_path.
    rewrite join_app by done. by rewrite !string_app_assoc.
Qed.
Lemma safe_server_dir_spec_witness : IsWithin "/var/lib" "/home/vhserver" = false.
Proof.
  pose proof (safe_server_dir_spec "/home/vhserver" eq_refl) as (_ & _ & _ & H & _).
  rewrite Forall_forall in H. apply H. apply list_elem_of_In. unfold systemDirs. simpl. tauto.
Defined.
