(* ===== verification/SafeFs.v ===== *)
(** * Files of game servers (backend/safefs_linux.go, backend/server_files.go)

    The dashboard works as root in directories whose users can change them at any time.
    This file models the file system as inodes, the system calls the code makes on
    directory handles, and the functions of safefs_linux.go as programs over these calls.
    Before every call the users of the servers may change what belongs to them ([adv]), and a
    call may fail ([fault], with [EIO] for every reason that has nothing to do with the path).  The theorems say that whatever they do and whatever fails,
    nothing outside of their directories is changed. *)

From Stdlib Require Import ZArith Lia Bool String Ascii List.
From stdpp Require Import base gmap strings list fin_maps.
From S2P Require Import Prelude GoStrings Validate Paths.

(** ** The file system *)

Inductive kind :=
| KDir (es : gmap string positive)
| KFile (data : string)
| KLink (target : string)
| KOther.
Record inode := mkInode { i_kind : kind; i_uid : Z; i_gid : Z; i_mode : Z }.
Record fs := mkFs { inodes : gmap positive inode; root_dir : positive }.

Inductive errno := ENOENT | ELOOP | ENOTDIR | EEXIST | EISDIR | ENOTEMPTY | EIO.

Definition kind_of (s : fs) (i : positive) : option kind := i_kind <$> inodes s !! i.
Definition dir_entries (s : fs) (i : positive) : option (gmap string positive) :=
  match kind_of s i with Some (KDir es) => Some es | _ => None end.
Definition is_dir (s : fs) (i : positive) : bool := bool_decide (is_Some (dir_entries s i)).
Definition set_inode (i : positive) (n : inode) (s : fs) : fs := mkFs (<[i := n]> (inodes s)) (root_dir s).
Definition update_inode (i : positive) (f : inode -> inode) (s : fs) : fs := mkFs (alter f i (inodes s)) (root_dir s).
Definition set_entries (d : positive) (es : gmap string positive) : fs -> fs :=
  update_inode d (fun n => mkInode (KDir es) (i_uid n) (i_gid n) (i_mode n)).
Definition new_inode (s : fs) : positive := fresh (dom (inodes s)).

(** *** System calls

    [openat] and the others on the handle [d] of a directory.  The caller is root, so no
    permission is checked. *)

(** [openat(d, name, O_DIRECTORY|O_NOFOLLOW)] *)
Definition openat_dir (d : positive) (name : string) (s : fs) : result errno positive * fs :=
  (match dir_entries s d with
   | None => Err ENOTDIR
   | Some es =>
       match es !! name with
       | None => Err ENOENT
       | Some j => match kind_of s j with Some (KDir _) => Ok j | Some (KLink _) => Err ELOOP | _ => Err ENOTDIR end
       end
   end, s).

(** [openat(d, name, O_RDONLY|O_NOFOLLOW)] *)
Definition openat_read (d : positive) (name : string) (s : fs) : result errno positive * fs :=
  (match dir_entries s d with
   | None => Err ENOTDIR
   | Some es =>
       match es !! name with
       | None => Err ENOENT
       | Some j => match kind_of s j with Some (KLink _) => Err ELOOP | Some _ => Ok j | None => Err EIO end
       end
   end, s).

(** A new inode of root under a name that is free: [mkdirat], and [openat] with
    [O_CREAT|O_EXCL|O_NOFOLLOW]. *)
Definition create_at (d : positive) (name : string) (k : kind) (mode : Z) (s : fs) : result errno positive * fs :=
  match dir_entries s d with
  | None => (Err ENOTDIR, s)
  | Some es =>
      match es !! name with
      | Some _ => (Err EEXIST, s)
      | None => let i := new_inode s in (Ok i, set_entries d (<[name := i]> es) (set_inode i (mkInode k 0 0 mode) s))
      end
  end.

(** [fstatat(d, name, AT_SYMLINK_NOFOLLOW)] *)
Definition fstatat (d : positive) (name : string) (s : fs) : option inode :=
  match dir_entries s d with
  | None => None
  | Some es => match es !! name with Some j => inodes s !! j | None => None end
  end.

(** Writing to an open file, [fchmod] and [fchown]. *)
Definition write_inode (i : positive) (data : string) : fs -> fs :=
  update_inode i (fun n => mkInode (KFile data) (i_uid n) (i_gid n) (i_mode n)).
Definition fchmod (i : positive) (mode : Z) : fs -> fs := update_inode i (fun n => mkInode (i_kind n) (i_uid n) (i_gid n) mode).
Definition fchown (i : positive) (uid gid : Z) : fs -> fs := update_inode i (fun n => mkInode (i_kind n) uid gid (i_mode n)).

(** [renameat(d, from, d, to)]: a directory replaces only an empty directory, another inode
    replaces anything but a directory. *)
Definition renameat (d : positive) (from to : string) (s : fs) : result errno unit * fs :=
  match dir_entries s d with
  | None => (Err ENOTDIR, s)
  | Some es =>
      match es !! from with
      | None => (Err ENOENT, s)
      | Some j =>
          let moved := (Ok tt, set_entries d (<[to := j]> (delete from es)) s) in
          match es !! to with
          | None => moved
          | Some t =>
              match dir_entries s j, dir_entries s t with
              | None, None => moved
              | None, Some _ => (Err EISDIR, s)
              | Some _, None => (Err ENOTDIR, s)
              | Some _, Some ts => if decide (ts = ∅) then moved else (Err ENOTEMPTY, s)
              end
          end
      end
  end.

(** [unlinkat(d, name, 0)] *)
Definition unlinkat (d : positive) (name : string) (s : fs) : result errno unit * fs :=
  match dir_entries s d with
  | None => (Err ENOTDIR, s)
  | Some es =>
      match es !! name with
      | None => (Err ENOENT, s)
      | Some j => if is_dir s j then (Err EISDIR, s) else (Ok tt, set_entries d (delete name es) s)
      end
  end.

(** ** Programs over system calls *)

Record world := mkWorld { tick : nat; fsys : fs }.
Definition sys (A : Type) : Type := world -> A * world.
Definition sret {A} (a : A) : sys A := fun w => (a, w).
Definition sbind {A B} (m : sys A) (k : A -> sys B) : sys B := fun w => let '(a, w) := m w in k a w.
Notation "'let*' x := m 'in' k" := (sbind m (fun x => k)) (at level 10, x pattern, k at level 200) : go_scope.

Inductive fs_error := OutsideRoot | PathError (e : errno) | TargetIsDirectory | FillError.
Definition noSymlinkErr (e : errno) : fs_error :=
  match e with ELOOP | ENOTDIR => OutsideRoot | e => PathError e end.

(** Fills the temporary file: the bytes written, and whether all went well. *)
Definition filling : Type := string * bool.

Section Programs.
(** What the users of the servers do before the n-th call, and whether that call fails. *)
Context (adv : nat -> fs -> fs) (fault : nat -> bool).

Definition syscall {A} (f : fs -> result errno A * fs) : sys (result errno A) := fun w =>
  let s := adv (tick w) (fsys w) in
  if fault (tick w) then (Err EIO, mkWorld (S (tick w)) s)
  else let '(r, s) := f s in (r, mkWorld (S (tick w)) s).
(** A call on an open file. *)
Definition on_file (f : fs -> fs) : sys (result errno unit) := syscall (fun s => (Ok tt, f s)).
(** A call that only looks; [None] when there is nothing to see or the call fails. *)
Definition look {A} (f : fs -> option A) : sys (option A) := fun w =>
  let s := adv (tick w) (fsys w) in (if fault (tick w) then None else f s, mkWorld (S (tick w)) s).

Fixpoint open_parts (parts : list string) (fd : positive) : sys (result fs_error positive) :=
  match parts with
  | [] => sret (Ok fd)
  | part :: parts =>
      if String.eqb part "" then open_parts parts fd else
      let* r := syscall (openat_dir fd part) in
      match r with Ok next => open_parts parts next | Err e => sret (Err (noSymlinkErr e)) end
  end.
Definition openDirNoSymlinks (dir : string) : sys (result fs_error positive) :=
  if negb (IsAbs dir) then sret (Err OutsideRoot) else
  let* r := syscall (fun s => (Ok (root_dir s), s)) in
  match r with Err e => sret (Err (PathError e)) | Ok fd => open_parts (split "/" (Clean dir)) fd end.

(** [openNoFollow] for reading. *)
Definition openNoFollow (path : string) : sys (result fs_error positive) :=
  let* r := openDirNoSymlinks (Dir path) in
  match r with
  | Err e => sret (Err e)
  | Ok dirfd =>
      let* r := syscall (openat_read dirfd (Base path)) in
      match r with Ok fd => sret (Ok fd) | Err e => sret (Err (noSymlinkErr e)) end
  end.

Definition readDirNoSymlinks (dir : string) : sys (result fs_error (gmap string positive)) :=
  let* r := openDirNoSymlinks dir in
  match r with
  | Err e => sret (Err e)
  | Ok fd => 
      let* es := look (fun s => dir_entries s fd) in
      sret (match es with Some es => Ok es | None => Err (PathError EIO) end)
  end.

Definition removeNoSymlinks (path : string) : sys (result fs_error unit) :=
  let* r := openDirNoSymlinks (Dir path) in
  match r with
  | Err e => sret (Err e)
  | Ok dirfd =>
      let* r := syscall (unlinkat dirfd (Base path)) in
      match r with Ok _ => sret (Ok tt) | Err e => sret (Err (noSymlinkErr e)) end
  end.

Fixpoint mkdir_parts (perm uid gid : Z) (parts : list string) (fd : positive) : sys (result fs_error unit) :=
  match parts with
  | [] => sret (Ok tt)
  | part :: parts =>
      if String.eqb part "" then mkdir_parts perm uid gid parts fd else
      let* r := syscall (openat_dir fd part) in
      match r with
      | Ok next => mkdir_parts perm uid gid parts next
      | Err ENOENT =>
          let* m := syscall (create_at fd part (KDir ∅) perm) in
          match m with
          | Err (ENOENT | ELOOP | ENOTDIR | EISDIR | ENOTEMPTY | EIO) as e =>
              sret (match e with Err e => Err (noSymlinkErr e) | Ok _ => Ok tt end)
          | _ =>
              let* r := syscall (openat_dir fd part) in
              match r with
              | Err e => sret (Err (noSymlinkErr e))
              | Ok next =>
                  let* _ := (if 0 <? uid then on_file (fchown next uid gid) else sret (Ok tt)) in
                  mkdir_parts perm uid gid parts next
              end
          end
      | Err e => sret (Err (noSymlinkErr e))
      end
  end.
Definition mkdirAllNoSymlinks (dir : string) (perm uid gid : Z) : sys (result fs_error unit) :=
  if negb (IsAbs dir) then sret (Err OutsideRoot) else
  let* r := syscall (fun s => (Ok (root_dir s), s)) in
  match r with Err e => sret (Err (PathError e)) | Ok fd => mkdir_parts perm uid gid (split "/" (Clean dir)) fd end.

(** The chain of [if err == nil] between creating and renaming the temporary file [fd]. *)
Definition finish_file (dirfd fd : positive) (tmpName base : string) (perm uid gid : Z) (fill : filling)
  : sys (result fs_error unit) :=
  let* r := on_file (write_inode fd fill.1) in
  match r with
  | Err e => sret (Err (PathError e))
  | Ok _ =>
  if negb fill.2 then sret (Err FillError) else
  let* r := on_file (fchmod fd perm) in
  match r with
  | Err e => sret (Err (PathError e))
  | Ok _ =>
  let* r := (if 0 <? uid then on_file (fchown fd uid gid) else sret (Ok tt)) in
  match r with
  | Err e => sret (Err (PathError e))
  | Ok _ =>
  let* r := on_file (fun s => s) in (* close *)
  match r with
  | Err e => sret (Err (PathError e))
  | Ok _ =>
  let* r := syscall (renameat dirfd tmpName base) in
  match r with Err e => sret (Err (PathError e)) | Ok _ => sret (Ok tt) end
  end end end end.

(** [rnd] is the random part of the temporary name, in hexadecimal. *)
Definition tmp_name (rnd : string) : string := ".lgsm-dashboard-" +:+ rnd.
Definition writeFileNoSymlinks (target : string) (perm : Z) (keepPerm : bool) (uid gid : Z) (rnd : string) (fill : filling)
  : sys (result fs_error unit) :=
  let* r := openDirNoSymlinks (Dir target) in
  match r with
  | Err e => sret (Err e)
  | Ok dirfd =>
      let base := Base target in
      let* st := look (fstatat dirfd base) in
      match st with
      | Some (mkInode (KDir _) _ _ _) => sret (Err TargetIsDirectory)
      | _ =>
          let perm := match st with
                      | Some (mkInode (KFile _) _ _ mode) => if keepPerm then Z.land mode 0x1ff else perm
                      | _ => perm
                      end in
          let* c := syscall (create_at dirfd (tmp_name rnd) (KFile "") 0x180) in
          match c with
          | Err e => sret (Err (noSymlinkErr e))
          | Ok fd =>
              let* r := finish_file dirfd fd (tmp_name rnd) base perm uid gid fill in
              match r with
              | Ok _ => sret (Ok tt)
              | Err e => let* _ := syscall (unlinkat dirfd (tmp_name rnd)) in sret (Err e)
              end
          end
      end
  end.
End Programs.

(** ** What the users of the servers can do

    [P] are the directories and files the dashboard must not touch: everything outside of
    the directories of the servers.  A user can change, create and remove what is not in [P].
    Linux has no hard links to directories, moving one needs write permission where it is, and
    a file of somebody else cannot be linked (fs.protected_hardlinks), so no inode of [P]
    turns up in a directory outside of [P]. *)

Definition sealed (P : gset positive) (s : fs) : Prop :=
  forall d es name j, d ∉ P -> dir_entries s d = Some es -> es !! name = Some j -> j ∉ P.

(** What stays as it was in [s0], whatever happens. *)
Record intact (P : gset positive) (s0 s : fs) : Prop := mkIntact {
  intact_root : root_dir s = root_dir s0;
  intact_same : forall i, i ∈ P -> inodes s !! i = inodes s0 !! i;
  intact_dirs : forall i, is_dir s0 i = true -> is_dir s i = true;
  intact_sealed : sealed P s
}.
(** What a user can do in one go. *)
Definition present (P : gset positive) (s : fs) : Prop := forall i, i ∈ P -> is_Some (inodes s !! i).
Definition attack (P : gset positive) (s s' : fs) : Prop := sealed P s -> present P s -> intact P s s'.

(** A program that leaves [P] alone and returns what satisfies [Q]. *)
Definition safe {A} (P : gset positive) (s0 : fs) (m : sys A) (Q : A -> Prop) : Prop :=
  forall w, intact P s0 (fsys w) -> intact P s0 (fsys (m w).2) /\ Q (m w).1.

Lemma is_dir_entries s i : is_dir s i = true <-> exists es, dir_entries s i = Some es.
Proof. unfold is_dir. rewrite bool_decide_eq_true. done. Qed.

Lemma intact_refl P s : sealed P s -> intact P s s.
Proof. by intros; split. Qed.

Lemma intact_trans P s0 s1 s2 : intact P s0 s1 -> intact P s1 s2 -> intact P s0 s2.
Proof.
  intros [A1 A2 A3 A4] [B1 B2 B3 B4]. split; [congruence| |by eauto|done]. intros i Hi. by rewrite B2, A2.
Qed.

Lemma intact_entries P s0 s d : intact P s0 s -> d ∈ P -> dir_entries s d = dir_entries s0 d.
Proof. intros H Hd. unfold dir_entries, kind_of. by rewrite (intact_same _ _ _ H d Hd). Qed.

Lemma safe_ret {A} P s0 (a : A) (Q : A -> Prop) : Q a -> safe P s0 (sret a) Q.
Proof. by intros HQ w Hw. Qed.

Lemma safe_bind {A B} P s0 (m : sys A) (k : A -> sys B) Q R :
  safe P s0 m Q -> (forall a, Q a -> safe P s0 (k a) R) -> safe P s0 (sbind m k) R.
Proof.
  intros Hm Hk w Hw. unfold sbind. destruct (Hm w Hw) as [H1 H2]. destruct (m w) as [a w']. by apply (Hk a H2).
Qed.

Lemma safe_mono {A} P s0 (m : sys A) (Q R : A -> Prop) : safe P s0 m Q -> (forall a, Q a -> R a) -> safe P s0 m R.
Proof. intros Hm HQ w Hw. destruct (Hm w Hw). eauto. Qed.

(** Changing one inode outside of [P], or adding one. *)
Lemma intact_update P s0 s i f : intact P s0 s -> i ∉ P -> (forall n, i_kind (f n) = i_kind n) ->
  intact P s0 (update_inode i f s).
Proof.
  intros [H1 H2 H3 H4] Hi Hf.
  assert (Hk : forall j, kind_of (update_inode i f s) j = kind_of s j).
  { intros j. unfold kind_of. cbn. destruct (decide (i = j)) as [->|]; [|by rewrite lookup_alter_ne].
    rewrite lookup_alter_eq. destruct (inodes s !! j); cbn; [by rewrite Hf|done]. }
  split; [done| | |].
  - intros j Hj. cbn. rewrite lookup_alter_ne by set_solver. by apply H2.
  - intros j Hj. unfold is_dir, dir_entries. rewrite Hk. by apply H3.
  - intros d es name j Hd He. unfold dir_entries in He. rewrite Hk in He. by eapply H4.
Qed.

Lemma entries_set_entries s d es i : is_dir s d = true ->
  dir_entries (set_entries d es s) i = if decide (d = i) then Some es else dir_entries s i.
Proof.
  intros Hd. unfold dir_entries at 1, kind_of. cbn. destruct (decide (d = i)) as [->|Hne].
  - rewrite lookup_alter_eq. apply is_dir_entries in Hd as [x Hx]. unfold dir_entries, kind_of in Hx.
    by destruct (inodes s !! i).
  - by rewrite lookup_alter_ne.
Qed.

Lemma intact_set_entries P s0 s d es : intact P s0 s -> is_dir s d = true -> d ∉ P ->
  (forall name j, es !! name = Some j -> j ∉ P) -> intact P s0 (set_entries d es s).
Proof.
  intros [H1 H2 H3 H4] Hdir Hd Hes. split; [done| | |].
  - intros j Hj. cbn. rewrite lookup_alter_ne by set_solver. by apply H2.
  - intros j Hj. apply H3 in Hj. apply is_dir_entries in Hj as [x Hx]. apply is_dir_entries.
    rewrite entries_set_entries by done. case_decide; eauto.
  - intros d' es' name j Hd'. rewrite entries_set_entries by done. case_decide; [|by eauto]. intros [= <-]. eauto.
Qed.

Section Safety.
Context (adv : nat -> fs -> fs) (fault : nat -> bool) (P : gset positive) (s0 : fs).
Hypothesis adv_attack : forall n s, attack P s (adv n s).
Hypothesis P_exists : present P s0.

Lemma intact_adv n s : intact P s0 s -> intact P s0 (adv n s).
Proof.
  intros H. eapply intact_trans; [exact H|]. apply adv_attack; [apply H|].
  intros i Hi. rewrite (intact_same _ _ _ H i Hi). by apply P_exists.
Qed.

Lemma safe_syscall {A} (f : fs -> result errno A * fs) (Q : A -> Prop) :
  (forall s, intact P s0 s -> intact P s0 (f s).2 /\ forall a, (f s).1 = Ok a -> Q a) ->
  safe P s0 (syscall adv fault f) (fun r => forall a, r = Ok a -> Q a).
Proof.
  intros Hf w Hw. unfold syscall. pose proof (intact_adv (tick w) _ Hw) as Ha.
  destruct (fault (tick w)); [done|]. destruct (Hf _ Ha) as [H1 H2]. destruct (f _) as [r s]. done.
Qed.

Lemma safe_on_file f : (forall s, intact P s0 s -> intact P s0 (f s)) ->
  safe P s0 (on_file adv fault f) (fun _ => True).
Proof.
  intros Hf. eapply safe_mono; [apply (safe_syscall _ (fun _ => True))|done]. intros s Hs. by split; [apply Hf|].
Qed.

Lemma safe_look {A} (f : fs -> option A) (Q : option A -> Prop) :
  (forall n s, intact P s0 s -> Q (if fault n then None else f s)) -> safe P s0 (look adv fault f) Q.
Proof. intros Hf w Hw. pose proof (intact_adv (tick w) _ Hw) as Ha. split; [exact Ha|by apply Hf]. Qed.

(** A path that leaves [P] for a directory of a server, along directories of [P] which nobody
    can change. *)
Inductive leads : positive -> list string -> Prop :=
| leads_out d l : d ∉ P -> is_dir s0 d = true -> leads d l
| leads_in d es x l j : d ∈ P -> dir_entries s0 d = Some es -> es !! x = Some j -> leads j l -> leads d (x :: l).

Lemma leads_app d l l' : leads d l -> leads d (l ++ l').
Proof. induction 1; cbn; [by apply leads_out|by eapply leads_in]. Qed.

Definition names (parts : list string) : list string := List.filter (fun p => negb (String.eqb p "")) parts.
(** The handle of a directory: outside of [P], or still on the way. *)
Definition on_way (l : list string) (d : positive) : Prop := d ∉ P \/ leads d l.

Lemma safe_openat d x l : on_way (x :: l) d ->
  safe P s0 (syscall adv fault (openat_dir d x)) (fun r => (forall j, r = Ok j -> on_way l j) /\ (r = Err ENOENT -> d ∉ P)).
Proof.
  intros Hd w Hw. pose proof (intact_adv (tick w) _ Hw) as Hs. unfold syscall.
  destruct (fault (tick w)); [done|]. split; [done|]. revert Hs. generalize (adv (tick w) (fsys w)) as s. intros s Hs. cbn [fst].
  split; cycle 1.
  { unfold openat_dir. cbn [fst]. intros Hr HP. destruct Hd as [|Hl]; [done|].
    inversion Hl as [|? es0 ? ? i H1 H2 H3 H4]; subst; [done|]. rewrite (intact_entries _ _ _ _ Hs HP), H2, H3 in Hr.
    by destruct (kind_of s i) as [[]|]. }
  unfold openat_dir. cbn [fst]. intros j.
  destruct (dir_entries s d) as [es|] eqn:Ee; [|done]. destruct (es !! x) as [i|] eqn:Ei; [|done].
  intros Hj. assert (i = j) as -> by (destruct (kind_of s i) as [[]|]; congruence).
  destruct (decide (d ∈ P)) as [HP|HP].
  - destruct Hd as [|Hl]; [done|]. inversion Hl as [|? es0 ? ? i0 H1 H2 H3 H4]; subst; [done|].
    rewrite (intact_entries _ _ _ _ Hs HP), H2 in Ee. injection Ee as <-. rewrite H3 in Ei. injection Ei as <-. by right.
  - left. by eapply (intact_sealed _ _ _ Hs).
Qed.

Lemma safe_open_parts l parts d : on_way (names parts ++ l) d ->
  safe P s0 (open_parts adv fault parts d) (fun r => forall fd, r = Ok fd -> on_way l fd).
Proof.
  revert d. induction parts as [|x parts IH]; intros d Hd; cbn [open_parts].
  - apply safe_ret. by intros fd [= <-].
  - unfold names in Hd. cbn [List.filter] in Hd. destruct (String.eqb_spec x "") as [->|Hx]; [by apply IH|].
    cbn [negb app] in Hd. fold (names parts) in Hd.
    eapply safe_bind; [apply (safe_openat d x _ Hd)|]. intros [j|e] [Hj _]; [by apply IH, Hj|by apply safe_ret].
Qed.

Lemma names_split dir : IsAbs dir = true -> names (split "/" (Clean dir)) = elements dir.
Proof.
  intros Ha. rewrite clean_abs, split_slash by done. cbn [names List.filter].
  pose proof (elements_ok _ Ha) as Hok. destruct (elements dir) as [|x l] eqn:E; [done|].
  change (names ("" :: split "/" (join "/" (x :: l))) = x :: l). unfold names. cbn [List.filter].
  rewrite split_join_slash by (done || by apply Forall_name_no_slash).
  clear E. revert Hok. generalize (x :: l) as ns. induction 1 as [|y ns (Hy & _) _ IH]; [done|].
  cbn. destruct (String.eqb_spec y ""); [done|]. cbn. by f_equal.
Qed.

Lemma safe_open_dir dir l : IsAbs dir = true -> leads (root_dir s0) (elements dir ++ l) ->
  safe P s0 (openDirNoSymlinks adv fault dir) (fun r => forall fd, r = Ok fd -> on_way l fd).
Proof.
  intros Ha Hl. unfold openDirNoSymlinks. rewrite Ha. cbn [negb].
  eapply safe_bind; [apply (safe_syscall _ (fun d => d = root_dir s0))|].
  - intros s Hs. split; [done|]. intros a [= <-]. apply (intact_root _ _ _ Hs).
  - intros [d|e] Hd; [|by apply safe_ret]. rewrite (Hd d eq_refl). apply safe_open_parts. right. by rewrite names_split.
Qed.

(** *** Changes below a handle outside of [P] *)

Lemma intact_dir_not_P s d : intact P s0 s -> d ∉ P -> forall es, dir_entries s d = Some es -> forall x j, es !! x = Some j -> j ∉ P.
Proof. intros Hs Hd es He x j Hx. by eapply (intact_sealed _ _ _ Hs). Qed.

Lemma intact_create d x k mode s : intact P s0 s -> d ∉ P -> (forall es, k = KDir es -> es = ∅) ->
  intact P s0 (create_at d x k mode s).2 /\
  forall i, (create_at d x k mode s).1 = Ok i -> (i ∉ P) /\ is_dir s0 i = false.
Proof.
  intros Hs Hd Hk. unfold create_at. destruct (dir_entries s d) as [es|] eqn:Ee; [|done].
  destruct (es !! x) as [j|] eqn:Ej; [done|]. cbn [fst snd].
  assert (Hn : inodes s !! new_inode s = None) by (apply not_elem_of_dom; unfold new_inode; apply is_fresh).
  assert (HP : new_inode s ∉ P).
  { intros Hin. pose proof (intact_same _ _ _ Hs _ Hin) as E. destruct (P_exists _ Hin) as [y Hy]. congruence. }
  assert (Hnd : is_dir s0 (new_inode s) = false).
  { apply not_true_iff_false. intros H. apply (intact_dirs _ _ _ Hs), is_dir_entries in H as [y Hy].
    unfold dir_entries, kind_of in Hy. by rewrite Hn in Hy. }
  assert (Hds : d <> new_inode s) by (intros ->; unfold dir_entries, kind_of in Ee; by rewrite Hn in Ee).
  set (n := mkInode k 0 0 mode). set (s1 := set_inode (new_inode s) n s).
  assert (He : forall i, i <> new_inode s -> dir_entries s1 i = dir_entries s i)
    by (intros i Hi; unfold dir_entries, kind_of; cbn; by rewrite lookup_insert_ne).
  assert (Hs1 : intact P s0 s1).
  { destruct Hs as [H1 H2 H3 H4]. split; [done| | |].
    - intros i Hi. cbn. rewrite lookup_insert_ne by congruence. by apply H2.
    - intros i Hi. assert (i <> new_inode s) by congruence. unfold is_dir. rewrite He by done. by apply H3.
    - intros d' es' y j' Hd' He' Hy. destruct (decide (d' = new_inode s)) as [->|Hne].
      + unfold dir_entries, kind_of in He'. cbn in He'. rewrite lookup_insert_eq in He'. cbn in He'.
        destruct k as [es0| | |]; try done. injection He' as <-. rewrite (Hk es0 eq_refl) in Hy. by rewrite lookup_empty in Hy.
      + rewrite He in He' by done. by eapply H4. }
  split.
  - apply intact_set_entries; [done| |done|].
    + apply is_dir_entries. exists es. by rewrite He.
    + intros y i. rewrite lookup_insert_Some. intros [[_ <-]|[_ Hy]]; [done|]. by eapply (intact_sealed _ _ _ Hs d es y i).
  - by intros i [= <-].
Qed.

Lemma intact_unlink d x s : intact P s0 s -> d ∉ P -> intact P s0 (unlinkat d x s).2.
Proof.
  intros Hs Hd. unfold unlinkat. destruct (dir_entries s d) as [es|] eqn:Ee; [|done].
  destruct (es !! x); [|done]. destruct (is_dir s p); [done|]. cbn. apply intact_set_entries; [done| |done|].
  - apply is_dir_entries. eauto.
  - intros y j Hy. apply lookup_delete_Some in Hy as [_ Hy]. by eapply intact_dir_not_P.
Qed.

Lemma intact_rename d x y s : intact P s0 s -> d ∉ P -> intact P s0 (renameat d x y s).2.
Proof.
  intros Hs Hd. unfold renameat. destruct (dir_entries s d) as [es|] eqn:Ee; [|done].
  destruct (es !! x) as [j|] eqn:Ej; [|done].
  assert (Hm : intact P s0 (set_entries d (<[y:=j]> (delete x es)) s)).
  { apply intact_set_entries; [done| |done|].
    - apply is_dir_entries. eauto.
    - intros z i. rewrite lookup_insert_Some, lookup_delete_Some. intros [[_ <-]|[_ [_ Hz]]]; by eapply intact_dir_not_P. }
  repeat case_match; done.
Qed.

Lemma intact_write s i data : intact P s0 s -> i ∉ P -> is_dir s0 i = false -> intact P s0 (write_inode i data s).
Proof.
  intros [H1 H2 H3 H4] Hi Hnd.
  assert (He : forall j, dir_entries (write_inode i data s) j = if decide (i = j) then None else dir_entries s j).
  { intros j. unfold dir_entries, kind_of. cbn. case_decide; [subst; rewrite lookup_alter_eq; by destruct (inodes s !! j)|].
    by rewrite lookup_alter_ne. }
  split; [done| | |].
  - intros j Hj. cbn. rewrite lookup_alter_ne by congruence. by apply H2.
  - intros j Hj. unfold is_dir. rewrite He. case_decide; [congruence|]. by apply H3.
  - intros d es x j Hd. rewrite He. case_decide; [done|]. by apply H4.
Qed.

(** *** The programs *)

Lemma safe_finish d fd tmp base perm uid gid fill : d ∉ P -> fd ∉ P -> is_dir s0 fd = false ->
  safe P s0 (finish_file adv fault d fd tmp base perm uid gid fill) (fun _ => True).
Proof.
  intros Hd Hf Hn. unfold finish_file.
  eapply safe_bind; [apply safe_on_file; intros s Hs; by apply intact_write|]. intros [?|?] _; [|by apply safe_ret].
  destruct (negb fill.2); [by apply safe_ret|].
  eapply safe_bind; [apply safe_on_file; intros s Hs; by apply intact_update|]. intros [?|?] _; [|by apply safe_ret].
  eapply (safe_bind _ _ _ _ (fun _ => True)).
  { destruct (0 <? uid); [|by apply safe_ret]. apply safe_on_file. intros s Hs. by apply intact_update. }
  intros [?|?] _; [|by apply safe_ret].
  eapply safe_bind; [apply safe_on_file; by intros s Hs|]. intros [?|?] _; [|by apply safe_ret].
  eapply safe_bind; [apply (safe_syscall _ (fun _ => True)); intros s Hs; split; [by apply intact_rename|done]|].
  intros [?|?] _; by apply safe_ret.
Qed.

(** [writeFileNoSymlinks] to a name in a directory of a server, or to the directory itself,
    which it refuses if it can look at it. *)
Lemma safe_write target perm keep uid gid rnd fill l x :
  Dir target = abs_path l -> Base target = x -> Forall name_ok l ->
  leads (root_dir s0) l \/ leads (root_dir s0) (l ++ [x]) /\ (forall n, fault n = false) ->
  safe P s0 (writeFileNoSymlinks adv fault target perm keep uid gid rnd fill) (fun _ => True).
Proof.
  intros Hd Hb Hl Hw. unfold writeFileNoSymlinks. rewrite Hd, Hb.
  eapply (safe_bind _ _ _ _ (fun r => forall d, r = Ok d -> d ∉ P \/ leads d [x] /\ forall n, fault n = false)).
  { destruct Hw as [Hw|[Hw Hf]].
    - eapply safe_mono; [apply (safe_open_dir _ []); [done|unfold abs_path; by rewrite elements_abs, app_nil_r]|].
      intros r Ho d Hr. destruct (Ho d Hr) as [|Hlead]; [by left|]. inversion Hlead; subst. by left.
    - eapply safe_mono; [apply (safe_open_dir _ [x]); [done|unfold abs_path; by rewrite elements_abs]|].
      intros r Ho d Hr. destruct (Ho d Hr) as [|Hlead]; [by left|by right]. }
  intros [d|e] Ho; [|by apply safe_ret]. specialize (Ho d eq_refl). cbn zeta.
  eapply (safe_bind _ _ _ _ (fun st => d ∈ P -> exists n es, st = Some n /\ i_kind n = KDir es)).
  { apply safe_look. intros t s Hs HP. destruct Ho as [|[Hlead Hf]]; [done|]. rewrite Hf.
    inversion Hlead as [|? es0 ? ? j H1 H2 H3 H4]; subst; [done|]. unfold fstatat.
    rewrite (intact_entries _ _ _ _ Hs HP), H2, H3. inversion H4 as [? ? H5 H6|]; subst.
    apply (intact_dirs _ _ _ Hs), is_dir_entries in H6 as [ts Ht]. unfold dir_entries, kind_of in Ht.
    destruct (inodes s !! j) as [n|]; [|done]. cbn in Ht. exists n, ts. split; [done|]. by destruct (i_kind n); simplify_eq. }
  intros st Hst. destruct (decide (d ∈ P)) as [HP|HP].
  { destruct (Hst HP) as ([k u g m] & es & -> & Hk). cbn in Hk. subst k. by apply safe_ret. }
  assert (Hgo : forall perm, safe P s0 (let* c := syscall adv fault (create_at d (tmp_name rnd) (KFile "") 0x180) in
    match c with
    | Err e => sret (Err (noSymlinkErr e))
    | Ok fd => let* r := finish_file adv fault d fd (tmp_name rnd) x perm uid gid fill in
        match r with Ok _ => sret (Ok tt) | Err e => let* _ := syscall adv fault (unlinkat d (tmp_name rnd)) in sret (Err e) end
    end) (fun _ => True)).
  { intros p. eapply safe_bind; [apply (safe_syscall _ (fun i => (i ∉ P) /\ is_dir s0 i = false)); intros s Hs; by apply intact_create|].
    intros [fd|e] Hfd; [|by apply safe_ret]. destruct (Hfd fd eq_refl) as [H1 H2].
    eapply safe_bind; [by apply safe_finish|]. intros [?|e] _; [by apply safe_ret|].
    eapply safe_bind; [apply (safe_syscall _ (fun _ => True)); intros s Hs; split; [by apply intact_unlink|done]|].
    intros ? _. by apply safe_ret. }
  destruct st as [[[?|?|?|] ? ? ?]|]; first [by apply safe_ret|apply Hgo].
Qed.

Lemma safe_mkdir_parts perm uid gid parts d : on_way (names parts) d ->
  safe P s0 (mkdir_parts adv fault perm uid gid parts d) (fun _ => True).
Proof.
  revert d. induction parts as [|x parts IH]; intros d Hd; cbn [mkdir_parts]; [by apply safe_ret|].
  unfold names in Hd. cbn [List.filter] in Hd. destruct (String.eqb_spec x "") as [->|Hx]; [by apply IH|].
  cbn [negb] in Hd. fold (names parts) in Hd.
  eapply safe_bind; [apply (safe_openat d x _ Hd)|]. intros [j|e] [Hj HP]; [by apply IH, Hj|].
  destruct e; try by apply safe_ret. clear Hj. specialize (HP eq_refl).
  eapply (safe_bind _ _ _ _ (fun _ => True)).
  { eapply safe_mono; [apply (safe_syscall _ (fun _ => True))|done]. intros s Hs. split; [|done]. apply intact_create; [done|done|]. by intros ? [= <-]. }
  assert (Hgo : safe P s0 (let* r := syscall adv fault (openat_dir d x) in
    match r with
    | Err e => sret (Err (noSymlinkErr e))
    | Ok next => let* _ := (if 0 <? uid then on_file adv fault (fchown next uid gid) else sret (Ok tt)) in
        mkdir_parts adv fault perm uid gid parts next
    end) (fun _ => True)).
  { eapply (safe_bind _ _ _ _ (fun r => forall j, r = Ok j -> j ∉ P)).
    { apply safe_syscall. intros s Hs. split; [done|]. intros j. unfold openat_dir. cbn [fst].
      destruct (dir_entries s d) as [es|] eqn:Ee; [|done]. destruct (es !! x) as [i|] eqn:Ei; [|done].
      pose proof (intact_dir_not_P _ _ Hs HP _ Ee _ _ Ei). by destruct (kind_of s i) as [[]|]; intros [= <-]. }
    intros [j|e] Hj; [|by apply safe_ret]. specialize (Hj j eq_refl).
    eapply (safe_bind _ _ _ _ (fun _ => True)); [|intros _ _; apply IH; by left].
    destruct (0 <? uid); [|by apply safe_ret]. apply safe_on_file. intros s Hs. by apply intact_update. }
  intros [m|[]] _; first [exact Hgo|by apply safe_ret].
Qed.
Lemma safe_mkdir dir perm uid gid : IsAbs dir = true -> leads (root_dir s0) (elements dir) ->
  safe P s0 (mkdirAllNoSymlinks adv fault dir perm uid gid) (fun _ => True).
Proof.
  intros Ha Hl. unfold mkdirAllNoSymlinks. rewrite Ha. cbn [negb].
  eapply safe_bind; [apply (safe_syscall _ (fun d => d = root_dir s0))|].
  - intros s Hs. split; [done|]. intros a [= <-]. apply (intact_root _ _ _ Hs).
  - intros [d|e] Hd; [|by apply safe_ret]. rewrite (Hd d eq_refl). apply safe_mkdir_parts. right. by rewrite names_split.
Qed.

Lemma safe_remove path l x : Dir path = abs_path l -> Base path = x -> Forall name_ok l -> leads (root_dir s0) (l ++ [x]) ->
  safe P s0 (removeNoSymlinks adv fault path) (fun _ => True).
Proof.
  intros Hd Hb Hl Hw. unfold removeNoSymlinks. rewrite Hd, Hb.
  eapply safe_bind; [apply (safe_open_dir _ [x]); [done|unfold abs_path; by rewrite elements_abs]|].
  intros [d|e] Ho; [|by apply safe_ret]. specialize (Ho d eq_refl).
  eapply (safe_bind _ _ _ _ (fun _ => True)); [|intros [?|?] _; by apply safe_ret].
  eapply safe_mono; [apply (safe_syscall _ (fun _ => True))|done]. intros s Hs. split; [|done].
  destruct (decide (d ∈ P)) as [HP|HP]; [|by apply intact_unlink].
  destruct Ho as [|Hlead]; [done|]. inversion Hlead as [|? es0 ? ? j H1 H2 H3 H4]; subst; [done|].
  unfold unlinkat. rewrite (intact_entries _ _ _ _ Hs HP), H2, H3. inversion H4 as [? ? H5 H6|]; subst.
  by rewrite (intact_dirs _ _ _ Hs _ H6).
Qed.

(** What is opened for reading lies outside of [P]. *)
Lemma safe_read path l x : Dir path = abs_path l -> Base path = x -> Forall name_ok l -> leads (root_dir s0) (l ++ [x]) ->
  safe P s0 (openNoFollow adv fault path) (fun r => forall fd, r = Ok fd -> fd ∉ P).
Proof.
  intros Hd Hb Hl Hw. unfold openNoFollow. rewrite Hd, Hb.
  eapply safe_bind; [apply (safe_open_dir _ [x]); [done|unfold abs_path; by rewrite elements_abs]|].
  intros [d|e] Ho; [|by apply safe_ret]. specialize (Ho d eq_refl).
  eapply (safe_bind _ _ _ _ (fun r => forall fd, r = Ok fd -> fd ∉ P));
    [|intros [fd|e] Hfd; apply safe_ret; intros ? [= <-]; by apply Hfd].
  apply safe_syscall. intros s Hs. split; [done|]. intros fd. unfold openat_read. cbn [fst].
  destruct (dir_entries s d) as [es|] eqn:Ee; [|done]. destruct (es !! x) as [j|] eqn:Ej; [|done].
  intros Hfd. assert (j = fd) as -> by (destruct (kind_of s j) as [[]|]; congruence).
  destruct (decide (d ∈ P)) as [HP|HP]; [|by eapply intact_dir_not_P].
  destruct Ho as [|Hlead]; [done|]. inversion Hlead as [|? es0 ? ? i H1 H2 H3 H4]; subst; [done|].
  rewrite (intact_entries _ _ _ _ Hs HP), H2 in Ee. injection Ee as <-. rewrite H3 in Ej. injection Ej as <-. by inversion H4.
Qed.
End Safety.

(** ** Without interference *)

(** [l] are the names of directories, from [d] on. *)
Fixpoint walk (s : fs) (d : positive) (l : list string) : option positive :=
  match l with
  | [] => Some d
  | x :: l => match (openat_dir d x s).1 with Ok j => walk s j l | Err _ => None end
  end.

Definition calm : nat -> fs -> fs := fun _ s => s.
Definition no_fault : nat -> bool := fun _ => false.

Lemma open_parts_calm fault parts d w r w' : open_parts calm fault parts d w = (r, w') ->
  fsys w' = fsys w /\ forall fd, r = Ok fd ->
    walk (fsys w) d (names parts) = Some fd /\ tick w' = (tick w + length (names parts))%nat.
Proof.
  revert d w. induction parts as [|x parts IH]; intros d w; cbn [open_parts].
  - intros [= <- <-]. split; [done|]. intros fd [= <-]. split; [done|]. cbn. lia.
  - unfold names. cbn [List.filter]. destruct (String.eqb_spec x "") as [->|Hx]; [apply IH|]. cbn [negb walk].
    fold (names parts). unfold sbind, syscall, calm. destruct (fault (tick w)); [by intros [= <- <-]|].
    destruct (openat_dir d x (fsys w)) as [o s] eqn:Eo. assert (s = fsys w) as -> by (by injection Eo).
    destruct o as [j|e]; [|by intros [= <- <-]]. cbn [fst]. intros H. apply IH in H as [H1 H2].
    split; [done|]. intros fd Hfd. destruct (H2 fd Hfd) as [H3 H4]. split; [done|]. rewrite H4. cbn. lia.
Qed.

(** Two states that differ at the inode [i] only. *)
Definition only_at (i : positive) (s s' : fs) : Prop :=
  root_dir s' = root_dir s /\ forall j, j <> i -> inodes s' !! j = inodes s !! j.

Lemma only_at_update i f s : only_at i s (update_inode i f s).
Proof. split; [done|]. intros j Hj. cbn. by rewrite lookup_alter_ne. Qed.

Lemma only_at_trans i s1 s2 s3 : only_at i s1 s2 -> only_at i s2 s3 -> only_at i s1 s3.
Proof. intros [A1 A2] [B1 B2]. split; [congruence|]. intros j Hj. by rewrite B2, A2. Qed.

Lemma only_at_entries i s s' d : only_at i s s' -> d <> i -> dir_entries s' d = dir_entries s d.
Proof. intros [_ H] Hd. unfold dir_entries, kind_of. by rewrite H. Qed.

#[local] Hint Resolve only_at_update only_at_trans : core.

Section Exact.
Context (fault : nat -> bool).

(** One call on the open file. *)
Lemma on_file_calm i f w r w' : on_file calm fault (update_inode i f) w = (r, w') ->
  only_at i (fsys w) (fsys w') /\ (r = Ok tt -> fsys w' = update_inode i f (fsys w)).
Proof. unfold on_file, syscall, calm. destruct (fault (tick w)); intros [= <- <-]; by split; cbn; auto. Qed.

Definition owner_of (uid gid : Z) : Z * Z := if 0 <? uid then (uid, gid) else (0, 0).

Lemma finish_calm d fd tmp base es perm uid gid fill w r w' t0 :
  finish_file calm fault d fd tmp base perm uid gid fill w = (r, w') ->
  dir_entries (fsys w) d = Some (<[tmp := fd]> es) -> es !! tmp = None -> tmp <> base -> d <> fd ->
  inodes (fsys w) !! fd = Some (mkInode (KFile "") 0 0 t0) ->
  (forall t, es !! base = Some t -> t <> fd) ->
  match r with
  | Ok _ => fill.2 = true /\ root_dir (fsys w') = root_dir (fsys w) /\ dir_entries (fsys w') d = Some (<[base := fd]> es) /\
      inodes (fsys w') !! fd = Some (mkInode (KFile fill.1) (owner_of uid gid).1 (owner_of uid gid).2 perm) /\
      forall j, j <> fd -> j <> d -> inodes (fsys w') !! j = inodes (fsys w) !! j
  | Err _ => only_at fd (fsys w) (fsys w')
  end.
Proof.
  intros E Hd Htmp Hne Hdf Hfd Hbase. unfold finish_file, sbind in E.
  destruct (on_file calm fault (write_inode fd fill.1) w) as [r1 w1] eqn:E1. apply on_file_calm in E1 as [O1 F1].
  destruct r1 as [[]|]; [|by injection E as <- <-]. specialize (F1 eq_refl).
  destruct fill.2; cbn [negb] in E; [|by injection E as <- <-].
  destruct (on_file calm fault (fchmod fd perm) w1) as [r2 w2] eqn:E2. apply on_file_calm in E2 as [O2 F2].
  destruct r2 as [[]|]; [|injection E as <- <-; eauto]. specialize (F2 eq_refl).
  set (m3 := if 0 <? uid then _ else _) in E.
  assert (H3 : forall r3 w3, m3 w2 = (r3, w3) -> only_at fd (fsys w2) (fsys w3) /\
    (r3 = Ok tt -> fsys w3 = if 0 <? uid then fchown fd uid gid (fsys w2) else fsys w2)).
  { intros r3 w3. unfold m3. destruct (0 <? uid); [apply on_file_calm|]. by intros [= <- <-]. }
  destruct (m3 w2) as [r3 w3]. specialize (H3 _ _ eq_refl) as [O3 F3]. clear m3.
  destruct r3 as [[]|]; [|injection E as <- <-; eauto]. specialize (F3 eq_refl).
  destruct (on_file calm fault (fun s => s) w3) as [r4 w4] eqn:E4.
  assert (F4 : fsys w4 = fsys w3) by (unfold on_file, syscall, calm in E4; destruct (fault (tick w3)); by injection E4 as <- <-).
  assert (O4 : only_at fd (fsys w) (fsys w4)) by (rewrite F4; eauto).
  destruct r4 as [[]|]; [|by injection E as <- <-].
  assert (Hfile : inodes (fsys w4) !! fd = Some (mkInode (KFile fill.1) (owner_of uid gid).1 (owner_of uid gid).2 perm)).
  { rewrite F4, F3, F2, F1. unfold owner_of. destruct (0 <? uid); cbn; rewrite !lookup_alter_eq, Hfd; done. }
  assert (Hd4 : dir_entries (fsys w4) d = Some (<[tmp := fd]> es)) by (by rewrite (only_at_entries _ _ _ _ O4)).
  unfold syscall, calm in E. destruct (fault (tick w4)); [by injection E as <- <-|]. unfold renameat in E.
  rewrite Hd4, lookup_insert_eq, (lookup_insert_ne _ _ _ _ Hne) in E.
  assert (Hmoved : set_entries d (<[base:=fd]> (delete tmp (<[tmp:=fd]> es))) (fsys w4) = set_entries d (<[base:=fd]> es) (fsys w4))
    by (by rewrite delete_insert_id).
  assert (Hfd4 : dir_entries (fsys w4) fd = None) by (unfold dir_entries, kind_of; by rewrite Hfile).
  assert (E' : (r = Err (PathError EISDIR) /\ w' = mkWorld (S (tick w4)) (fsys w4)) \/
    (Ok tt, mkWorld (S (tick w4)) (set_entries d (<[base:=fd]> es) (fsys w4))) = (r, w')).
  { destruct (es !! base) as [t|] eqn:Et; [|right; by rewrite Hmoved in E].
    rewrite Hfd4 in E. destruct (dir_entries (fsys w4) t); [left; by injection E|right; by rewrite Hmoved in E]. }
  destruct E' as [[-> ->]|E']; [done|]. injection E' as <- <-. cbn [fsys]. destruct O4 as [O4r O4]. split_and!; [done|done| | |].
  - rewrite entries_set_entries by (apply is_dir_entries; eauto). by case_decide.
  - cbn. by rewrite lookup_alter_ne.
  - intros j Hj1 Hj2. cbn. rewrite lookup_alter_ne by done. by apply O4.
Qed.

(** The mode of the written file. *)
Definition mode_of (st : option inode) (perm : Z) (keepPerm : bool) : Z :=
  match st with Some (mkInode (KFile _) _ _ mode) => if keepPerm then Z.land mode 0x1ff else perm | _ => perm end.

(** A handle opened on a path of names. *)
Lemma open_dir_calm l w r w' : Forall name_ok l -> openDirNoSymlinks calm fault (abs_path l) w = (r, w') ->
  fsys w' = fsys w /\ forall fd, r = Ok fd ->
    walk (fsys w) (root_dir (fsys w)) l = Some fd /\ tick w' = S (tick w + length l).
Proof.
  intros Hl. unfold openDirNoSymlinks. change (IsAbs (abs_path l)) with true. cbn [negb]. unfold sbind, syscall, calm.
  destruct (fault (tick w)); [by intros [= <- <-]|]. intros E%open_parts_calm. cbn -[walk] in E. rewrite names_split in E by done.
  unfold abs_path in E. by rewrite elements_abs in E.
Qed.

(** Every name in a directory stands for an inode, and no directory is in itself. *)
Definition linked (s : fs) : Prop :=
  forall d es n j, dir_entries s d = Some es -> es !! n = Some j -> is_Some (inodes s !! j) /\ j <> d.

(** The new name [tmp] in the directory [d], and changes of its inode. *)
Definition beside (d : positive) (tmp : string) (s s' : fs) : Prop :=
  exists es es' i, dir_entries s d = Some es /\ dir_entries s' d = Some es' /\ inodes s !! i = None /\
    (forall n, n <> tmp -> es' !! n = es !! n) /\ forall j, j <> i -> j <> d -> inodes s' !! j = inodes s !! j.

Lemma beside_fstatat d tmp s s' x : beside d tmp s s' -> linked s -> x <> tmp -> fstatat d x s' = fstatat d x s.
Proof.
  intros (es & es' & i & He & He' & Hi & Hn & Hj) Hl Hx. unfold fstatat in *. rewrite He, He', Hn in * by done.
  destruct (es !! x) as [j|] eqn:Ex; [|done]. destruct (Hl _ _ _ _ He Ex) as [[n Hjn] Hjd].
  apply Hj; [congruence|done].
Qed.

(** From creating the temporary file on. *)
Lemma create_and_rename d x mode uid gid rnd fill w r w' :
  linked (fsys w) -> tmp_name rnd <> x ->
  (let* c := syscall calm fault (create_at d (tmp_name rnd) (KFile "") 0x180) in
   match c with
   | Err e => sret (Err (noSymlinkErr e))
   | Ok fd => let* r := finish_file calm fault d fd (tmp_name rnd) x mode uid gid fill in
       match r with Ok _ => sret (Ok tt) | Err e => let* _ := syscall calm fault (unlinkat d (tmp_name rnd)) in sret (Err e) end
   end) w = (r, w') ->
  match r with
  | Ok _ => fill.2 = true /\ exists es i,
      dir_entries (fsys w) d = Some es /\
      dir_entries (fsys w') d = Some (<[x := i]> es) /\ inodes (fsys w) !! i = None /\
      inodes (fsys w') !! i = Some (mkInode (KFile fill.1) (owner_of uid gid).1 (owner_of uid gid).2 mode) /\
      forall j, j <> i -> j <> d -> inodes (fsys w') !! j = inodes (fsys w) !! j
  | Err _ => fsys w' = fsys w \/
      beside d (tmp_name rnd) (fsys w) (fsys w') /\ fstatat d x (fsys w') = fstatat d x (fsys w)
  end.
Proof.
  intros Hlk Htmp E.
  unfold sbind at 1, syscall at 1 in E. change (calm (tick w) (fsys w)) with (fsys w) in E.
  destruct (fault (tick w)); [injection E as <- <-; by left|].
  unfold create_at in E. destruct (dir_entries (fsys w) d) as [es|] eqn:Ees; [|injection E as <- <-; by left].
  destruct (es !! tmp_name rnd) as [?|] eqn:Etmp; [injection E as <- <-; by left|].
  set (i := new_inode (fsys w)) in E. set (s3 := set_entries d _ _) in E.
  assert (Hi : inodes (fsys w) !! i = None) by (apply not_elem_of_dom; unfold i, new_inode; apply is_fresh).
  assert (Hdi : d <> i) by (intros ->; unfold dir_entries, kind_of in Ees; by rewrite Hi in Ees).
  assert (He2 : forall j, j <> i -> dir_entries (set_inode i (mkInode (KFile "") 0 0 0x180) (fsys w)) j = dir_entries (fsys w) j)
    by (intros j Hj; unfold dir_entries, kind_of; cbn; by rewrite lookup_insert_ne).
  assert (Hd3 : dir_entries s3 d = Some (<[tmp_name rnd:=i]> es)).
  { unfold s3. rewrite entries_set_entries by (apply is_dir_entries; rewrite He2 by done; eauto). by case_decide. }
  assert (Hi3 : inodes s3 !! i = Some (mkInode (KFile "") 0 0 0x180)).
  { cbn. rewrite lookup_alter_ne by done. apply lookup_insert_eq. }
  assert (Hj3 : forall j, j <> i -> j <> d -> inodes s3 !! j = inodes (fsys w) !! j).
  { intros j H1 H2. cbn. by rewrite lookup_alter_ne, lookup_insert_ne. }
  assert (Hes : forall n, n <> tmp_name rnd -> (<[tmp_name rnd:=i]> es : gmap string positive) !! n = es !! n)
    by (intros; by rewrite lookup_insert_ne).
  unfold sbind at 1 in E. destruct (finish_file _ _ _ _ _ _ _ _ _ _ _) as [r1 w3] eqn:Efin.
  eapply finish_calm in Efin; [|exact Hd3|exact Etmp|done|exact Hdi|exact Hi3|].
  2:{ intros t Et. destruct (Hlk _ _ _ _ Ees Et) as [[n Hn] _]. congruence. }
  destruct r1 as [[]|e].
  - injection E as <- <-. destruct Efin as (F1 & F2 & F3 & F4 & F5). split; [done|]. exists es, i.
    split_and!; try done. intros j H1 H2. rewrite F5 by done. by apply Hj3.
  - unfold sbind, syscall, calm in E. cbn [fsys] in Efin. destruct Efin as [Er Ej].
    assert (Hb3 : beside d (tmp_name rnd) (fsys w) (fsys w3)).
    { exists es, (<[tmp_name rnd:=i]> es), i. split_and!; try done.
      - unfold dir_entries, kind_of in *. by rewrite Ej.
      - intros j H1 H2. rewrite Ej by done. by apply Hj3. }
    assert (Hb' : beside d (tmp_name rnd) (fsys w) (fsys w') /\ r = Err e).
    { destruct (fault (tick w3)); [by injection E as <- <-|].
      assert (Hd4 : dir_entries (fsys w3) d = Some (<[tmp_name rnd:=i]> es)) by (unfold dir_entries, kind_of in *; by rewrite Ej).
      unfold unlinkat in E. rewrite Hd4, lookup_insert_eq in E. destruct (is_dir (fsys w3) i); injection E as <- <-; (split; [|done]); [exact Hb3|].
      exists es, es, i. cbn [fsys]. rewrite delete_insert_id by done. split_and!; try done.
      - rewrite entries_set_entries by (apply is_dir_entries; eauto). by case_decide.
      - intros j H1 H2. cbn. rewrite lookup_alter_ne by done. rewrite Ej by done. by apply Hj3. }
    destruct Hb' as [Hb' ->]. right. split; [done|]. by apply (beside_fstatat d (tmp_name rnd)).
Qed.

(** C23: writing a file (writeFileNoSymlinks), while nobody else changes the file system and
    whichever of its calls fail.  If it succeeds, the name holds a new file with exactly the
    bytes and the owner; nothing else has changed.  The mode is that of the file it replaces
    where that is to be kept, and [perm] otherwise, also when the fstatat of the old file (the
    call after opening the directories [l]) failed, which the code does not tell from a free
    name.  If the write fails, at
    whatever point, the name still holds what it held, and at most a temporary file is left
    beside it. *)
Theorem write_file_atomic target l x perm keepPerm uid gid rnd fill w r w' :
  Dir target = abs_path l -> Base target = x -> Forall name_ok l -> tmp_name rnd <> x ->
  linked (fsys w) ->
  writeFileNoSymlinks calm fault target perm keepPerm uid gid rnd fill w = (r, w') ->
  match r with
  | Ok _ => fill.2 = true /\ exists d es i seen,
      walk (fsys w) (root_dir (fsys w)) l = Some d /\ dir_entries (fsys w) d = Some es /\
      dir_entries (fsys w') d = Some (<[x := i]> es) /\ inodes (fsys w) !! i = None /\
      inodes (fsys w') !! i = Some (mkInode (KFile fill.1) (owner_of uid gid).1 (owner_of uid gid).2
                                      (mode_of seen perm keepPerm)) /\
      seen = (if fault (S (tick w + length l)) then None else fstatat d x (fsys w)) /\
      forall j, j <> i -> j <> d -> inodes (fsys w') !! j = inodes (fsys w) !! j
  | Err _ => fsys w' = fsys w \/
      exists d, walk (fsys w) (root_dir (fsys w)) l = Some d /\ beside d (tmp_name rnd) (fsys w) (fsys w') /\
        fstatat d x (fsys w') = fstatat d x (fsys w)
  end.
Proof.
  intros Hd Hb Hl Htmp Hlk E. unfold writeFileNoSymlinks in E. rewrite Hd, Hb in E. unfold sbind at 1 in E.
  destruct (openDirNoSymlinks _ _ _ w) as [[d|e] w1] eqn:Eo; apply open_dir_calm in Eo as [Ef Ew]; try done.
  2:{ injection E as <- <-. by left. }
  destruct (Ew d eq_refl) as [Hwalk Htick]. cbn zeta in E. unfold sbind at 1, look in E. rewrite Ef, Htick in E.
  change (calm (S (tick w + length l)) (fsys w)) with (fsys w) in E.
  set (w2 := mkWorld (S (S (tick w + length l))) (fsys w)) in E.
  remember (if fault (S (tick w + length l)) then None else fstatat d x (fsys w)) as st eqn:Hst.
  assert (Hcase : (r = Err TargetIsDirectory /\ w' = w2) \/
     (let* c := syscall calm fault (create_at d (tmp_name rnd) (KFile "") 0x180) in
      match c with
      | Err e => sret (Err (noSymlinkErr e))
      | Ok fd => let* r := finish_file calm fault d fd (tmp_name rnd) x (mode_of st perm keepPerm) uid gid fill in
          match r with Ok _ => sret (Ok tt) | Err e => let* _ := syscall calm fault (unlinkat d (tmp_name rnd)) in sret (Err e) end
      end) w2 = (r, w')).
  { destruct st as [[[es|data|t|] u g m]|]; [left; by injection E|right; exact E..]. }
  clear E. destruct Hcase as [[-> ->]|E]; [by left|].
  apply create_and_rename in E; [|done..]. destruct r as [[]|].
  - destruct E as (H1 & es & i & E1 & E2 & E3 & E4 & E5). split; [done|]. by exists d, es, i, st.
  - destruct E as [E|[E1 E2]]; [by left|right]. by exists d.
Qed.
End Exact.

(** A directory with one config file, and the disk that fails at the rename. *)
Definition atomic_fs : fs := mkFs
  (<[1%positive := mkInode (KDir {[ "a.cfg" := 2%positive ]}) 0 0 0x1ed]>
   {[ 2%positive := mkInode (KFile "old") 1000 1000 0x180 ]}) 1%positive.

Lemma write_file_atomic_witness :
  let w := writeFileNoSymlinks calm (fun _ => false) "/a.cfg" 0x1a4 true 1000 1000 "7" ("new", true) (mkWorld 0 atomic_fs) in
  w.1 = Ok tt /\ exists i, inodes (fsys w.2) !! i = Some (mkInode (KFile "new") 1000 1000 0x180).
Proof.
  cbv zeta. split; [vm_compute; reflexivity|].
  assert (Hlk : linked atomic_fs).
  { intros d es x j Hd Hx. assert (d = 1%positive \/ d <> 1%positive) as [->|H1] by lia.
    - assert (E : dir_entries atomic_fs 1 = Some {[ "a.cfg" := 2%positive ]}) by reflexivity.
      rewrite E in Hd. injection Hd as <-. apply lookup_singleton_Some in Hx as [_ <-].
      split; [eexists; reflexivity|discriminate].
    - exfalso. unfold dir_entries, kind_of, atomic_fs in Hd. cbn [inodes] in Hd. rewrite lookup_insert_ne in Hd by congruence.
      destruct (decide (d = 2%positive)) as [->|H2]; [discriminate Hd|]. by rewrite lookup_singleton_ne in Hd by congruence. }
  destruct (write_file_atomic (fun _ => false) "/a.cfg" [] "a.cfg" 0x1a4 true 1000 1000 "7" ("new", true) (mkWorld 0 atomic_fs) (Ok tt) _
    eq_refl eq_refl (Forall_nil_2 _) ltac:(discriminate) Hlk ltac:(vm_compute; reflexivity))
    as (_ & d & es & i & seen & Hw & _ & _ & _ & Hi & Hs & _).
  exists i. etransitivity; [exact Hi|]. rewrite Hs. vm_compute in Hw. injection Hw as <-. reflexivity.
Defined.

(** When the fstatat of the old file fails, the new file gets [perm], here 0644 for a file
    that was 0600. *)
Example mode_after_failed_stat :
  let w := writeFileNoSymlinks calm (fun n => Nat.eqb n 1) "/a.cfg" 0x1a4 true 1000 1000 "7" ("new", true) (mkWorld 0 atomic_fs) in
  w.1 = Ok tt /\ exists i, inodes (fsys w.2) !! i = Some (mkInode (KFile "new") 1000 1000 0x1a4).
Proof. cbv zeta. split; [vm_compute; reflexivity|]. exists 3%positive. vm_compute. reflexivity. Qed.
