(* ===== verification/ServerIDs.v ===== *)
(** * Stable server IDs (backend/serverids.go)

    Permissions, tags and the audit log refer to servers by ID, so discovery may
    not give a server another one.  This file models the assignment of stored and
    new IDs, with a file of IDs that may not be readable or writable, and proves that IDs are unique, stay the same over later runs in any
    order once they were stored, and that the search for a free ID ends. *)

From Stdlib Require Import ZArith Lia Bool String Ascii List.
From stdpp Require Import base gmap strings list fin_sets.
From S2P Require Import Prelude GoStrings Validate Paths.

Definition serverIDKey (inst : Instance) : string := Join [i_Dir inst; i_Script inst].

Definition set_id (id : string) (inst : Instance) : Instance :=
  mkInstance id (i_User inst) (i_Script inst) (i_Dir inst) (i_Layout inst).

(** The ID file: [None] when there is none.  [readable] says whether this read works and finds
    valid JSON; anything else counts as no IDs. *)
Definition id_file : Type := option (gmap string string).
Definition loadServerIDs (file : id_file) (readable : bool) : gmap string string :=
  if readable then default ∅ file else ∅.
(** [saved] says whether the file is replaced; a failure is only logged. *)
Definition saveServerIDs (file : id_file) (saved : bool) (ids : gmap string string) : id_file :=
  if saved then Some ids else file.

(** The values of a map as a set. *)
Definition map_values (m : gmap string string) : gset string := list_to_set (map snd (map_to_list m)).

(** The first loop: known servers, and those without a usable stored ID marked
    with [true] in their place. *)
Fixpoint known_pass (stored : gmap string string) (found : list Instance) (used : gset string)
    : list (bool * Instance) * gset string :=
  match found with
  | [] => ([], used)
  | inst :: r =>
      if negb (String.eqb (i_Layout inst) LayoutHost) then
        let '(l, u) := known_pass stored r ({[i_ID inst]} ∪ used) in ((false, inst) :: l, u)
      else match stored !! serverIDKey inst with
      | Some id =>
          if IsValidLocalServerID id && negb (bool_decide (id ∈ used)) then
            let '(l, u) := known_pass stored r ({[id]} ∪ used) in ((false, set_id id inst) :: l, u)
          else let '(l, u) := known_pass stored r used in ((true, inst) :: l, u)
      | None => let '(l, u) := known_pass stored r used in ((true, inst) :: l, u)
      end
  end.

Definition taken (used reserved : gset string) (id : string) : bool :=
  bool_decide (id ∈ used) || bool_decide (id ∈ reserved) || negb (IsValidLocalServerID id).

Definition id_base (inst : Instance) : string :=
  if String.eqb (i_User inst) "" then i_Script inst else i_Script inst +:+ "@" +:+ i_User inst.

(** [for n := 2; taken; n++ { id = base-n }] *)
Fixpoint free_id (fuel : nat) (used reserved : gset string) (base id : string) (n : Z) : option string :=
  if taken used reserved id then
    match fuel with
    | O => None
    | S f => free_id f used reserved base (base +:+ "-" +:+ itoa n) (n + 1)
    end
  else Some id.

Definition new_id (used reserved : gset string) (inst : Instance) : option string :=
  if taken used reserved (i_ID inst)
  then free_id (S (size (used ∪ reserved))) used reserved (id_base inst) (id_base inst) 2
  else Some (i_ID inst).

(** The second loop. *)
Fixpoint fresh_pass (reserved : gset string) (l : list (bool * Instance)) (used : gset string)
    (stored : gmap string string) : option (list Instance * gmap string string) :=
  match l with
  | [] => Some ([], stored)
  | (false, inst) :: r =>
      match fresh_pass reserved r used stored with
      | Some (out, st) => Some (inst :: out, st)
      | None => None
      end
  | (true, inst) :: r =>
      match new_id used reserved inst with
      | None => None
      | Some id =>
          match fresh_pass reserved r ({[id]} ∪ used) (<[serverIDKey inst := id]> stored) with
          | Some (out, st) => Some (set_id id inst :: out, st)
          | None => None
          end
      end
  end.

(** The two loops: the instances with their IDs, the IDs to store, and whether there are new
    ones ([None]: the search does not end). *)
Definition assign_ids (stored : gmap string string) (found : list Instance)
    : option (list Instance * gmap string string * bool) :=
  let '(l, used) := known_pass stored found ∅ in
  match fresh_pass (map_values stored) l used stored with
  | Some (out, st) => Some (out, st, existsb fst l)
  | None => None
  end.

(** The instances with their IDs, and the file afterwards. *)
Definition assignStableIDs (file : id_file) (readable saved : bool) (found : list Instance) : option (list Instance * id_file) :=
  match assign_ids (loadServerIDs file readable) found with
  | Some (out, st, changed) => Some (out, if changed then saveServerIDs file saved st else file)
  | None => None
  end.

(** [releaseServerID]: the stored IDs and the tags without those of a deleted server.  The tags
    in memory lose the ID also when their file cannot be written. *)
Definition releaseServerID (id : string) (file : id_file) (readable saved : bool) (tags : gmap string string)
    : id_file * gmap string string :=
  (saveServerIDs file saved (filter (fun p : string * string => negb (String.eqb p.2 id) = true) (loadServerIDs file readable)),
   delete id tags).

(** What happens to the ID file: discoveries and deletions, each with what its read and its
    write of the file meet. *)
Inductive id_event :=
| Discover (readable saved : bool) (found : list Instance)
| Release (readable saved : bool) (id : string).

Fixpoint id_events (file : id_file) (es : list id_event) : option id_file :=
  match es with
  | [] => Some file
  | Discover r s f :: es => match assignStableIDs file r s f with Some (_, file') => id_events file' es | None => None end
  | Release r s id :: es => id_events (releaseServerID id file r s ∅).1 es
  end.

(** ** Lemmas: the search for a free ID *)


Definition name_parts_ok (inst : Instance) : Prop :=
  IsValidScriptName (i_Script inst) = true /\
  (i_User inst = "" \/ IsValidLinuxUsername (i_User inst) = true).

Lemma itoa_length n : (String.length (itoa n) <= 21)%nat.
Proof.
  assert (Hd : forall fuel z acc, (length (dec_digits fuel z acc) <= fuel + length acc)%nat).
  { induction fuel as [|f IH]; intros z acc; cbn [dec_digits]; [simpl; lia|].
    destruct (z / 10 =? 0); [simpl; lia|].
    specialize (IH (z / 10) (chr (48 + z mod 10) :: acc)). simpl in *. lia. }
  unfold itoa. rewrite length_of_bytes. destruct (n <? 0).
  - pose proof (Hd 20%nat (- n) []). cbn [length] in *. lia.
  - pose proof (Hd 20%nat n []). cbn [length] in *. lia.
Qed.

Definition id_char (c : ascii) : bool := is_alnum c || one_of "._-@" c.
Definition id_tail (c : ascii) : bool := id_char c && negb (Ascii.eqb c ".").
Definition dots : bytes := to_bytes "..".
Definition id_shape (l : bytes) : Prop :=
  match l with c :: r => is_alnum c = true /\ forallb id_char r = true | [] => False end /\
  lcontains dots l = false.

Lemma valid_local_iff s :
  IsValidLocalServerID s = true <-> id_shape (to_bytes s) /\ (String.length s <= 128)%nat.
Proof.
  unfold IsValidLocalServerID, reServerID, re_word, id_shape, contains. rewrite <- length_to_bytes.
  fold dots. destruct (to_bytes s) as [|c r]; [simpl; split; [done|by intros [[[] _] _]]|].
  rewrite !andb_true_iff, negb_true_iff, Nat.leb_le. fold id_char. cbn [length].
  assert (Hf : forallb (fun c0 => is_alnum c0 || one_of "._@-" c0) r = forallb id_char r).
  { apply forallb_ext || (induction r as [|x r IH]; simpl; [done|]; rewrite IH; f_equal; unfold id_char; f_equal;
      unfold one_of; simpl; destruct (Ascii.eqb x "."), (Ascii.eqb x "_"), (Ascii.eqb x "-"), (Ascii.eqb x "@"); done). }
  rewrite Hf. intuition lia.
Qed.

Lemma no_dot_no_dots l : forallb id_tail l = true -> lcontains dots l = false.
Proof.
  induction l as [|c l IH]; [done|]. cbn [forallb]. intros [Hc Hl]%andb_true_iff.
  cbn [lcontains]. rewrite (IH Hl). unfold id_tail in Hc. apply andb_true_iff in Hc as [_ Hc].
  apply negb_true_iff in Hc. change dots with ["."%char; "."%char]. cbn [lprefix].
  by rewrite (Ascii.eqb_sym "." c), Hc.
Qed.

Lemma dots_app l sfx : lcontains dots l = false -> forallb id_tail sfx = true -> lcontains dots (l ++ sfx) = false.
Proof.
  intros Hl Hs. induction l as [|x l IH]; [by apply no_dot_no_dots|].
  cbn [lcontains] in Hl. apply orb_false_iff in Hl as [Hp Hl]. cbn [app lcontains].
  rewrite (IH Hl), orb_false_r. change dots with ["."%char; "."%char] in *. cbn [lprefix] in *.
  destruct (Ascii.eqb "." x); [|done]. cbn [andb] in *. destruct l as [|y l].
  - destruct sfx as [|c sfx]; [done|]. cbn [app forallb] in *. apply andb_true_iff in Hs as [Hc _].
    unfold id_tail in Hc. apply andb_true_iff in Hc as [_ Hc]. apply negb_true_iff in Hc.
    by rewrite (Ascii.eqb_sym "." c), Hc.
  - cbn [app]. exact Hp.
Qed.

Lemma id_tail_char c : id_tail c = true -> id_char c = true.
Proof. unfold id_tail. by intros [? _]%andb_true_iff. Qed.

Lemma shape_app l sfx : id_shape l -> forallb id_tail sfx = true -> id_shape (l ++ sfx).
Proof.
  intros [Hl Hd] Hs. split; [|by apply dots_app]. destruct l as [|c r]; [done|]. cbn [app].
  destruct Hl as [Hc Hr]. split; [done|]. rewrite forallb_app, Hr. apply forallb_forall. intros x Hx.
  rewrite forallb_forall in Hs. auto using id_tail_char.
Qed.

Lemma forallb_impl {A} (f g : A -> bool) l :
  (forall x, f x = true -> g x = true) -> forallb f l = true -> forallb g l = true.
Proof. rewrite !forallb_forall. auto. Qed.

Lemma id_base_shape inst :
  name_parts_ok inst -> id_shape (to_bytes (id_base inst)) /\ (String.length (id_base inst) <= 97)%nat.
Proof.
  intros [Hs Hu]. unfold IsValidScriptName, reScriptName, re_word, contains in Hs.
  apply andb_true_iff in Hs as [Hs Hd]. apply negb_true_iff in Hd. fold dots in Hd.
  assert (Hshape : id_shape (to_bytes (i_Script inst)) /\ (String.length (i_Script inst) <= 64)%nat).
  { unfold id_shape. rewrite <- length_to_bytes. destruct (to_bytes (i_Script inst)) as [|c r]; [done|].
    apply andb_true_iff in Hs as [[Hc Hr]%andb_true_iff Hl%Nat.leb_le]. split_and!; [done| |done|simpl; lia].
    eapply forallb_impl; [|exact Hr]. intros x. unfold id_char, one_of. simpl.
    destruct (Ascii.eqb x "."), (Ascii.eqb x "_"), (Ascii.eqb x "-"), (Ascii.eqb x "@"), (is_alnum x); done. }
  destruct Hshape as [Hsh Hlen]. unfold id_base.
  destruct (String.eqb_spec (i_User inst) "") as [|Hne]; [split; [done|lia]|].
  destruct Hu as [|Hu]; [done|]. unfold IsValidLinuxUsername, reLinuxUsername, re_word in Hu.
  rewrite !to_bytes_app. split.
  - apply shape_app; [done|]. change (to_bytes "@") with ["@"%char]. cbn [app forallb].
    destruct (to_bytes (i_User inst)) as [|c r]; [done|]. cbn [forallb].
    apply andb_true_iff in Hu as [[Hc Hr]%andb_true_iff _].
    apply andb_true_iff. split; [done|]. apply andb_true_iff. split.
    + unfold id_tail, id_char, is_alnum, one_of in *. simpl in *.
      destruct (Ascii.eqb_spec c "."); [by subst|].
      destruct (is_lower c), (Ascii.eqb c "_"); try done; by rewrite ?orb_true_r.
    + eapply forallb_impl; [|exact Hr]. intros x. unfold id_tail, id_char, is_alnum, one_of. simpl.
      destruct (Ascii.eqb_spec x "."); [by subst|].
      destruct (is_lower x), (is_digit x), (Ascii.eqb x "_"), (Ascii.eqb x "-"); try done; by rewrite ?orb_true_r.
  - rewrite !string_app_length. rewrite <- (length_to_bytes (i_User inst)).
    destruct (to_bytes (i_User inst)) as [|c r]; [done|].
    apply andb_true_iff in Hu as [_ Hl%Nat.leb_le]. simpl. lia.
Qed.

Lemma numbered_valid base n :
  id_shape (to_bytes base) -> (String.length base <= 97)%nat -> 0 <= n <= int64_max ->
  IsValidLocalServerID (base +:+ "-" +:+ itoa n) = true.
Proof.
  intros Hs Hl Hn. apply valid_local_iff. split.
  - rewrite to_bytes_app. apply shape_app; [done|]. rewrite to_bytes_app, forallb_app.
    apply andb_true_iff. split; [done|].
    apply (itoa_sall id_tail); [done|]. intros c Hc. unfold id_tail, id_char, is_alnum. rewrite Hc, !orb_true_r.
    apply negb_true_iff, Ascii.eqb_neq. intros ->. done.
  - rewrite !string_app_length. pose proof (itoa_length n). simpl. lia.
Qed.

(** The search ends: of more numbers than there are IDs one is free. *)
Lemma free_id_some used reserved base fuel : forall id n (seen : gset string),
  id_shape (to_bytes base) -> (String.length base <= 97)%nat ->
  seen ⊆ used ∪ reserved -> (size (used ∪ reserved) < fuel + size seen)%nat ->
  2 <= n -> n + Z.of_nat fuel <= int64_max ->
  (forall m, n <= m <= int64_max -> base +:+ "-" +:+ itoa m ∉ seen) ->
  (id ∉ seen) -> (forall m, n <= m <= int64_max -> base +:+ "-" +:+ itoa m <> id) ->
  (IsValidLocalServerID id = true) ->
  exists id', free_id fuel used reserved base id n = Some id'.
Proof.
  induction fuel as [|fuel IH]; intros id n seen Hs Hl Hsub Hsz H2 Hmax Hseen Hid Hne Hv.
  - exfalso. apply subseteq_size in Hsub. lia.
  - cbn [free_id]. destruct (taken used reserved id) eqn:Et; [|by eexists].
    unfold taken in Et. rewrite Hv in Et. rewrite orb_false_r, <- bool_decide_or in Et.
    apply bool_decide_eq_true in Et.
    apply (IH _ _ ({[id]} ∪ seen)); try done; try lia.
    + apply union_least; [|done]. apply singleton_subseteq_l. by apply elem_of_union.
    + rewrite (size_union {[id]} seen); [rewrite size_singleton; lia|]. intros x Hx%elem_of_singleton Hx2. by subst x.
    + intros m Hm. apply not_elem_of_union. split; [|apply Hseen; lia].
      apply not_elem_of_singleton. apply Hne. lia.
    + apply not_elem_of_union. split; [apply not_elem_of_singleton, Hne; lia|apply Hseen; lia].
    + intros m Hm E. apply numbered_inj in E; lia.
    + apply numbered_valid; try done. lia.
Qed.

Lemma new_id_some used reserved inst :
  name_parts_ok inst -> Z.of_nat (size (used ∪ reserved)) < 2 ^ 62 ->
  exists id, new_id used reserved inst = Some id.
Proof.
  intros Hn Hsz. destruct (id_base_shape inst Hn) as [Hs Hl]. unfold new_id.
  destruct (taken used reserved (i_ID inst)); [|by eexists].
  apply (free_id_some _ _ _ _ _ _ ∅); try done; unfold int64_max.
  - rewrite size_empty. lia.
  - lia.
  - intros m _ E. apply (f_equal String.length) in E. rewrite string_app_length in E. simpl in E. lia.
  - apply valid_local_iff. split; [done|lia].
Qed.

Lemma free_id_not_taken fuel used reserved base id n id' :
  free_id fuel used reserved base id n = Some id' -> taken used reserved id' = false.
Proof.
  revert id n. induction fuel as [|f IH]; intros id n; cbn [free_id];
    (destruct (taken used reserved id) eqn:E; [|by intros [= <-]]); [done|apply IH].
Qed.

Lemma new_id_free used reserved inst id :
  new_id used reserved inst = Some id ->
  (id ∉ used) /\ (id ∉ reserved) /\ IsValidLocalServerID id = true.
Proof.
  intros H. assert (Ht : taken used reserved id = false).
  { unfold new_id in H. destruct (taken used reserved (i_ID inst)) eqn:E; [by eapply free_id_not_taken|congruence]. }
  unfold taken in Ht. apply orb_false_iff in Ht as [[H1 H2]%orb_false_iff H3].
  apply bool_decide_eq_false in H1, H2. apply negb_false_iff in H3. done.
Qed.

(** ** Lemmas: uniqueness *)

Definition kept_ids (l : list (bool * Instance)) : list string :=
  map (fun p => i_ID p.2) (filter (fun p : bool * Instance => p.1 = false) l).

Definition all_host (found : list Instance) : Prop := Forall (fun i => i_Layout i = LayoutHost) found.

Lemma known_pass_kept stored found : forall used l u,
  all_host found -> known_pass stored found used = (l, u) ->
  NoDup (kept_ids l) /\ (forall id, In id (kept_ids l) -> (id ∉ used) /\ (id ∈ u)) /\ used ⊆ u.
Proof.
  induction found as [|i r IH]; intros used l u Hh H; cbn [known_pass] in H.
  - assert (l = [] /\ u = used) as [-> ->] by (split; congruence).
    split_and!; [constructor|intros ? []|done].
  - inversion_clear Hh as [|? ? Hi Hr]. rewrite Hi, String.eqb_refl in H. cbn [negb] in H.
    assert (Hskip : forall l' u', known_pass stored r used = (l', u') -> l = (true, i) :: l' -> u = u' ->
      NoDup (kept_ids l) /\ (forall id, In id (kept_ids l) -> (id ∉ used) /\ (id ∈ u)) /\ used ⊆ u).
    { intros l' u' E -> ->. exact (IH _ _ _ Hr E). }
    destruct (stored !! serverIDKey i) as [id|].
    + destruct (IsValidLocalServerID id && negb (bool_decide (id ∈ used))) eqn:Eu.
      * destruct (known_pass stored r ({[id]} ∪ used)) as [l' u'] eqn:E.
        assert (l = (false, set_id id i) :: l' /\ u = u') as [-> ->] by (split; congruence).
        destruct (IH _ _ _ Hr E) as (Hnd & Hin & Hs). apply andb_true_iff in Eu as [_ Hid].
        apply negb_true_iff, bool_decide_eq_false in Hid. change (kept_ids _) with (id :: kept_ids l').
        split_and!.
        -- apply NoDup_cons. split; [|done]. intros Hk%list_elem_of_In. apply Hin in Hk as [Hk _].
           clear -Hk; set_solver.
        -- intros x [<-|Hx]; [split; [done|]; clear -Hs; set_solver|].
           destruct (Hin x Hx) as [H1 H2]. split; [|done]. clear -H1; set_solver.
        -- clear -Hs; set_solver.
      * destruct (known_pass stored r used) as [l' u'] eqn:E. eapply Hskip; [done|congruence|congruence].
    + destruct (known_pass stored r used) as [l' u'] eqn:E. eapply Hskip; [done|congruence|congruence].
Qed.

Lemma fresh_pass_unique reserved l : forall used cur out st,
  fresh_pass reserved l used cur = Some (out, st) -> NoDup (kept_ids l) ->
  (forall id, In id (kept_ids l) -> id ∈ used) ->
  NoDup (map i_ID out) /\ forall id, In id (map i_ID out) -> In id (kept_ids l) \/ (id ∉ used).
Proof.
  induction l as [|[[] i] r IH]; intros used cur out st H Hnd Hin; cbn [fresh_pass] in H.
  - assert (out = []) as -> by congruence. split; [constructor|intros ? []].
  - destruct (new_id used reserved i) as [id|] eqn:En; [|done].
    apply new_id_free in En as (Hu & _ & _).
    destruct (fresh_pass _ r _ _) as [[o s]|] eqn:E; [|done].
    assert (out = set_id id i :: o) as -> by congruence. change (kept_ids _) with (kept_ids r) in *.
    destruct (IH _ _ _ _ E Hnd) as [Hn Ho].
    { intros x Hx. apply Hin in Hx. clear -Hx; set_solver. }
    cbn [map]. change (i_ID (set_id id i)) with id. split.
    + apply NoDup_cons. split; [|done]. intros Hk%list_elem_of_In. apply Ho in Hk as [Hk|Hk].
      * by apply Hu, Hin.
      * clear -Hk; set_solver.
    + intros x [<-|Hx]; [by right|]. destruct (Ho x Hx) as [|Hx']; [by left|right]. clear -Hx'; set_solver.
  - destruct (fresh_pass _ r _ _) as [[o s]|] eqn:E; [|done].
    assert (out = i :: o) as -> by congruence.
    change (kept_ids ((false, i) :: r)) with (i_ID i :: kept_ids r) in *.
    apply NoDup_cons in Hnd as [Hni Hnd].
    destruct (IH _ _ _ _ E Hnd) as [Hn Ho]; [intros; apply Hin; by right|].
    cbn [map]. split.
    + apply NoDup_cons. split; [|done]. intros Hk%list_elem_of_In. apply Ho in Hk as [Hk|Hk].
      * by apply Hni, list_elem_of_In.
      * apply Hk, Hin. by left.
    + intros x [<-|Hx]; [left; by left|]. destruct (Ho x Hx) as [|]; [left; by right|by right].
Qed.

(** ** Lemmas: stability *)

(** Stored IDs are valid, and no two servers have the same. *)
Definition ids_ok (stored : gmap string string) : Prop :=
  (forall k id, stored !! k = Some id -> IsValidLocalServerID id = true) /\
  (forall k k' id, stored !! k = Some id -> stored !! k' = Some id -> k = k').

(** What discovery finds: host servers, each script once. *)
Definition host_found (found : list Instance) : Prop :=
  all_host found /\ NoDup (map serverIDKey found).

Definition mark (stored : gmap string string) (i : Instance) : bool * Instance :=
  match stored !! serverIDKey i with Some id => (false, set_id id i) | None => (true, i) end.

Lemma known_pass_mark stored found : forall used,
  ids_ok stored -> host_found found ->
  (forall i id, In i found -> stored !! serverIDKey i = Some id -> id ∉ used) ->
  (known_pass stored found used).1 = map (mark stored) found.
Proof.
  induction found as [|i r IH]; intros used Hok [Hh Hnd] Hu; [done|].
  inversion_clear Hh as [|? ? Hi Hr]. cbn [map] in Hnd. apply NoDup_cons in Hnd as [Hni Hnd].
  cbn [known_pass map]. rewrite Hi, String.eqb_refl. cbn [negb]. unfold mark at 1.
  destruct (stored !! serverIDKey i) as [id|] eqn:Es.
  - rewrite (proj1 Hok _ _ Es), bool_decide_eq_false_2 by (eapply Hu; [by left|done]). cbn [negb andb].
    specialize (IH ({[id]} ∪ used) Hok (conj Hr Hnd)).
    destruct (known_pass stored r _). cbn [fst] in *. rewrite IH; [done|].
    intros j id' Hj Ej. apply not_elem_of_union. split; [|eapply Hu; [by right|done]].
    apply not_elem_of_singleton. intros ->. apply Hni. rewrite (proj2 Hok _ _ _ Es Ej).
    apply list_elem_of_In, in_map, Hj.
  - specialize (IH used Hok (conj Hr Hnd)). destruct (known_pass stored r used). cbn [fst] in *.
    rewrite IH; [done|]. intros. eapply Hu; [by right|done].
Qed.

Lemma elem_of_map_values m id : id ∈ map_values m <-> exists k, m !! k = Some id.
Proof.
  unfold map_values. rewrite elem_of_list_to_set, list_elem_of_In, in_map_iff. split.
  - intros ([k v] & <- & H%list_elem_of_In%elem_of_map_to_list). by exists k.
  - intros [k H]. exists (k, id). split; [done|]. by apply list_elem_of_In, elem_of_map_to_list.
Qed.

Lemma ids_ok_insert cur k id :
  ids_ok cur -> IsValidLocalServerID id = true -> (forall k', cur !! k' <> Some id) -> ids_ok (<[k := id]> cur).
Proof.
  intros [Hv Hi] Hid Hn. split.
  - intros k' v. destruct (decide (k = k')) as [<-|]; [rewrite lookup_insert_eq; congruence|].
    rewrite lookup_insert_ne by done. apply Hv.
  - intros a b v. destruct (decide (k = a)) as [<-|Ha], (decide (k = b)) as [<-|Hb];
      rewrite ?lookup_insert_eq, ?lookup_insert_ne by done; [done| | |apply Hi].
    + intros E1 E2. destruct (Hn b). congruence.
    + intros E1 E2. destruct (Hn a). congruence.
Qed.

Lemma fresh_pass_stable stored found : forall used cur out st,
  NoDup (map serverIDKey found) -> ids_ok cur ->
  (forall i, In i found -> cur !! serverIDKey i = stored !! serverIDKey i) ->
  (forall k id, cur !! k = Some id -> id ∈ used ∪ map_values stored) ->
  fresh_pass (map_values stored) (map (mark stored) found) used cur = Some (out, st) ->
  ids_ok st /\ cur ⊆ st /\ (forall i, In i out -> st !! serverIDKey i = Some (i_ID i)) /\
  map serverIDKey out = map serverIDKey found.
Proof.
  induction found as [|i r IH]; intros used cur out st Hnd Hok Hcur Hval H.
  - cbn in H. assert (out = [] /\ st = cur) as [-> ->] by (split; congruence).
    split_and!; [done|done|intros ? []|done].
  - cbn [map] in Hnd. apply NoDup_cons in Hnd as [Hni Hnd].
    pose proof (Hcur i (or_introl eq_refl)) as Hi. cbn [map] in H. unfold mark at 1 in H.
    destruct (stored !! serverIDKey i) as [id|]; cbn [fresh_pass] in H.
    + destruct (fresh_pass _ _ _ _) as [[o s]|] eqn:E; [|done].
      assert (out = set_id id i :: o /\ st = s) as [-> ->] by (split; congruence).
      destruct (IH _ _ _ _ Hnd Hok (fun j Hj => Hcur j (or_intror Hj)) Hval E) as (H1 & H2 & H3 & H4).
      split_and!; [done|done| |cbn [map]; by rewrite H4].
      intros j [<-|Hj]; [|by apply H3]. exact (lookup_weaken _ _ _ _ Hi H2).
    + destruct (new_id used _ i) as [id|] eqn:En; [|done].
      destruct (fresh_pass _ _ _ _) as [[o s]|] eqn:E; [|done].
      assert (out = set_id id i :: o /\ st = s) as [-> ->] by (split; congruence).
      apply new_id_free in En as (Hu & Hr & Hv).
      assert (Hf : forall k', cur !! k' <> Some id).
      { intros k' Hk. apply Hval in Hk. clear -Hk Hu Hr; set_solver. }
      edestruct (IH ({[id]} ∪ used) (<[serverIDKey i:=id]> cur) o s) as (H1 & H2 & H3 & H4);
        [done|by apply ids_ok_insert| | |exact E|].
      * intros j Hj. rewrite lookup_insert_ne; [apply Hcur; by right|].
        intros Eq. apply Hni. rewrite Eq. apply list_elem_of_In, in_map, Hj.
      * intros k v. destruct (decide (serverIDKey i = k)) as [<-|Hk].
        -- rewrite lookup_insert_eq. intros [= <-]. clear; set_solver.
        -- rewrite lookup_insert_ne by done. intros Hkv%Hval. clear -Hkv; set_solver.
      * split_and!; [done| | |cbn [map]; by rewrite H4].
        -- etransitivity; [|exact H2]. by apply insert_subseteq.
        -- intros j [<-|Hj]; [|by apply H3]. exact (lookup_weaken _ _ _ _ (lookup_insert_eq _ _ _) H2).
Qed.

Lemma assign_stable stored found out st changed :
  ids_ok stored -> host_found found -> assign_ids stored found = Some (out, st, changed) ->
  ids_ok st /\ stored ⊆ st /\ (forall i, In i out -> st !! serverIDKey i = Some (i_ID i)) /\
  map serverIDKey out = map serverIDKey found.
Proof.
  intros Hok Hf. unfold assign_ids.
  pose proof (known_pass_mark stored found ∅ Hok Hf (fun _ _ _ _ => not_elem_of_empty _)) as Hm.
  destruct (known_pass stored found ∅) as [l u]. cbn [fst] in Hm. subst l.
  destruct (fresh_pass _ _ _ _) as [[o s]|] eqn:E; [|done]. intros [= <- <- _].
  eapply fresh_pass_stable; [by apply Hf|done| | |exact E]; [done|].
  intros k id Hk. apply elem_of_union_r, elem_of_map_values. by exists k.
Qed.

(** When nothing is new, every ID was stored. *)
Lemma fresh_pass_none stored reserved found : forall used cur out st,
  existsb fst (map (mark stored) found) = false -> fresh_pass reserved (map (mark stored) found) used cur = Some (out, st) ->
  forall i, In i out -> stored !! serverIDKey i = Some (i_ID i).
Proof.
  induction found as [|x r IH]; intros used cur out st Hn E i Hi; cbn [map fresh_pass] in E.
  - injection E as <- <-. destruct Hi.
  - cbn [map existsb] in Hn. apply orb_false_iff in Hn as [Hx Hn]. unfold mark at 1 in E. unfold mark in Hx.
    destruct (stored !! serverIDKey x) as [id|] eqn:Ex; [|done]. cbn [fresh_pass] in E.
    destruct (fresh_pass _ _ _ _) as [[o' s']|] eqn:E'; [|done]. injection E as <- <-.
    destruct Hi as [<-|Hi]; [exact Ex|]. by eapply IH.
Qed.

Lemma assign_unchanged stored found out st :
  ids_ok stored -> host_found found -> assign_ids stored found = Some (out, st, false) ->
  forall i, In i out -> stored !! serverIDKey i = Some (i_ID i).
Proof.
  intros Hok Hf. unfold assign_ids.
  pose proof (known_pass_mark stored found ∅ Hok Hf (fun _ _ _ _ => not_elem_of_empty _)) as Hm.
  destruct (known_pass stored found ∅) as [l u]. cbn [fst] in Hm. subst l.
  destruct (fresh_pass _ _ _ _) as [[o s]|] eqn:E; [|done]. intros [= <- <- Hn]. by eapply fresh_pass_none.
Qed.

Definition file_ids (file : id_file) : gmap string string := default ∅ file.

Lemma ids_ok_empty : ids_ok ∅.
Proof. split; intros; rewrite lookup_empty in *; done. Qed.
Lemma load_ids_ok file r : ids_ok (file_ids file) -> ids_ok (loadServerIDs file r).
Proof. destruct r; [done|]. intros _. apply ids_ok_empty. Qed.

(** A discovery keeps the file good; if it could read it, also every ID in it. *)
Lemma discover_file file r s found out file' :
  ids_ok (file_ids file) -> host_found found -> assignStableIDs file r s found = Some (out, file') ->
  ids_ok (file_ids file') /\ (r = true -> file_ids file ⊆ file_ids file') /\
  (s = true -> r = true -> forall i, In i out -> file_ids file' !! serverIDKey i = Some (i_ID i)) /\
  forall i id, r = true -> In i out -> file_ids file !! serverIDKey i = Some id -> i_ID i = id.
Proof.
  intros Hok Hf. unfold assignStableIDs. destruct (assign_ids _ found) as [[[o st] ch]|] eqn:E; [|done].
  intros [= <- <-]. pose proof (assign_stable _ _ _ _ _ (load_ids_ok _ r Hok) Hf E) as (H1 & H2 & H3 & _).
  assert (Hlast : forall i id, r = true -> In i o -> file_ids file !! serverIDKey i = Some id -> i_ID i = id).
  { intros i id -> Hi Hk. pose proof (lookup_weaken _ _ _ _ Hk H2) as E2. rewrite (H3 _ Hi) in E2. congruence. }
  destruct ch, s; cbn [saveServerIDs]; split_and!; try done.
  - intros ->. exact H2.
  - intros _ -> i Hi. exact (assign_unchanged _ _ _ _ Hok Hf E i Hi).
Qed.

Lemma release_lookup id (ids : gmap string string) (k v : string) :
  filter (fun p : string * string => negb (String.eqb p.2 id) = true) ids !! k = Some v <-> ids !! k = Some v /\ v <> id.
Proof. rewrite map_lookup_filter_Some. cbn [snd]. by rewrite negb_true_iff, String.eqb_neq. Qed.

Lemma release_file id file r s : ids_ok (file_ids file) ->
  ids_ok (file_ids (releaseServerID id file r s ∅).1) /\
  forall k v, r = true -> file_ids file !! k = Some v -> v <> id -> file_ids (releaseServerID id file r s ∅).1 !! k = Some v.
Proof.
  intros Hok. unfold releaseServerID, saveServerIDs. cbn [fst]. destruct s; [|done].
  destruct (load_ids_ok file r Hok) as [Hv Hi]. cbn [file_ids default]. split.
  - split; [intros a b [Ha _]%release_lookup; by eapply Hv|intros a b v [Ha _]%release_lookup [Hb _]%release_lookup; by eapply Hi].
  - intros k v -> Hk Hne. by apply release_lookup.
Qed.

(** An event that can read the file, and is no release of [id]. *)
Definition event_reads (e : id_event) : Prop := match e with Discover r _ _ | Release r _ _ => r = true end.
Definition event_host (e : id_event) : Prop := match e with Discover _ _ f => host_found f | Release _ _ _ => True end.
Definition no_release (id : string) (e : id_event) : Prop := match e with Release _ _ x => x <> id | Discover _ _ _ => True end.

Lemma events_ok es : forall file file',
  ids_ok (file_ids file) -> Forall event_host es -> id_events file es = Some file' -> ids_ok (file_ids file').
Proof.
  induction es as [|[r s f|r s x] es IH]; intros file file' Hok Hh H; cbn [id_events] in H; [by injection H as <-|..];
    inversion_clear Hh as [|? ? Hf Hh'].
  - destruct (assignStableIDs file r s f) as [[o g]|] eqn:E; [|done].
    destruct (discover_file _ _ _ _ _ _ Hok Hf E) as (H1 & _). by eapply IH.
  - eapply IH; [|done|exact H]. by apply release_file.
Qed.

Lemma events_keep es : forall file file' k id,
  ids_ok (file_ids file) -> Forall event_host es -> Forall event_reads es -> Forall (no_release id) es ->
  id_events file es = Some file' -> file_ids file !! k = Some id -> file_ids file' !! k = Some id.
Proof.
  induction es as [|[r s f|r s x] es IH]; intros file file' k id Hok Hh Hr Hn H Hk; cbn [id_events] in H; [by injection H as <-|..];
    inversion_clear Hh as [|? ? Hf Hh']; inversion_clear Hr as [|? ? Hr1 Hr']; inversion_clear Hn as [|? ? Hn1 Hn'].
  - destruct (assignStableIDs file r s f) as [[o g]|] eqn:E; [|done]. cbn in Hr1.
    destruct (discover_file _ _ _ _ _ _ Hok Hf E) as (H1 & H2 & _). eapply (IH g); try done. by eapply lookup_weaken; [|apply H2].
  - cbn in Hr1, Hn1. destruct (release_file x file r s Hok) as [H1 H2]. eapply IH; [exact H1|done|done|done|exact H|].
    apply H2; [done|done|]. intros ->. by apply Hn1.
Qed.

Lemma known_pass_size stored found : forall used l u,
  known_pass stored found used = (l, u) ->
  (size u <= size used + length found)%nat /\ map (fun p => serverIDKey p.2) l = map serverIDKey found /\
  (Forall name_parts_ok found -> Forall (fun p => name_parts_ok p.2) l).
Proof.
  induction found as [|i r IH]; intros used l u H; cbn [known_pass] in H.
  - assert (l = [] /\ u = used) as [-> ->] by (split; congruence). split_and!; [simpl; lia|done|done].
  - assert (Hgo : forall used' b x, (size used' <= S (size used))%nat -> serverIDKey x = serverIDKey i ->
      (name_parts_ok i -> name_parts_ok x) ->
      (let '(l', u') := known_pass stored r used' in ((b, x) :: l', u')) = (l, u) ->
      (size u <= size used + length (i :: r))%nat /\
      map (fun p => serverIDKey p.2) l = map serverIDKey (i :: r) /\
      (Forall name_parts_ok (i :: r) -> Forall (fun p => name_parts_ok p.2) l)).
    { intros used' b x Hs Hx Hp. destruct (known_pass stored r used') as [l' u'] eqn:E. intros Heq.
      assert (l = (b, x) :: l' /\ u = u') as [-> ->] by (split; congruence).
      destruct (IH _ _ _ E) as (H1 & H2 & H3). cbn [map length snd]. rewrite H2, Hx.
      split_and!; [lia|done|]. inversion_clear 1. constructor; auto. }
    assert (Hun : forall x : string, (size ({[x]} ∪ used) <= S (size used))%nat).
    { intros x. rewrite size_union_alt, size_singleton.
      pose proof (subseteq_size (used ∖ {[x]}) used ltac:(set_solver)). lia. }
    destruct (negb _); [by eapply Hgo; [apply Hun| | |exact H]|].
    destruct (stored !! serverIDKey i) as [id|]; [destruct (_ && _)|];
      (eapply Hgo; [| | |exact H]; [apply Hun || lia|done|done]).
Qed.

Lemma fresh_pass_some reserved l : forall used cur,
  Forall (fun p => name_parts_ok p.2) l ->
  Z.of_nat (size used + size reserved + length l) < 2 ^ 62 ->
  exists out st, fresh_pass reserved l used cur = Some (out, st).
Proof.
  induction l as [|[b i] r IH]; intros used cur Hn Hs; [by eexists _, _|].
  inversion_clear Hn as [|? ? Hi Hr]. cbn [snd length] in *. cbn [fresh_pass].
  assert (Hun : forall x y : gset string, (size (x ∪ y) <= size x + size y)%nat).
  { intros x y. rewrite size_union_alt. pose proof (subseteq_size (y ∖ x) y ltac:(set_solver)). lia. }
  destruct b.
  - destruct (new_id_some used reserved i Hi) as [id ->]; [pose proof (Hun used reserved); lia|].
    destruct (IH ({[id]} ∪ used) (<[serverIDKey i:=id]> cur) Hr) as (o & s & ->); [|by eexists _, _].
    pose proof (Hun {[id]} used). rewrite size_singleton in *. lia.
  - destruct (IH used cur Hr) as (o & s & ->); [lia|by eexists _, _].
Qed.

(** ** Properties *)

(** Every server found by discovery gets an ID (the search for a free one
    ends), and no two host servers get the same, whatever is stored (also a file
    edited by hand that stores one ID twice). *)
Theorem assigned_ids_unique stored found (Hn : Forall name_parts_ok found) (Hh : all_host found)
    (Hs : Z.of_nat (size (map_values stored) + 2 * length found) < 2 ^ 62) :
  exists out st ch, assign_ids stored found = Some (out, st, ch) /\ NoDup (map i_ID out).
Proof.
  unfold assign_ids. destruct (known_pass stored found ∅) as [l u] eqn:E.
  pose proof (known_pass_size _ _ _ _ _ E) as (H1 & H2 & H3).
  destruct (fresh_pass_some (map_values stored) l u stored) as (out & st & Hf); [auto| |].
  - apply (f_equal length) in H2. rewrite !length_map in H2. rewrite size_empty in H1. lia.
  - apply known_pass_kept in E as (Hnd & Hi & _); [|done]. exists out, st, (existsb fst l). rewrite Hf. split; [done|].
    eapply fresh_pass_unique; [exact Hf|done|]. intros id Hid. by apply Hi.
Qed.

(** C14: a server of the host keeps its ID.  From any good ID file on, let anything happen (also
    reads and writes of the file that fail); then a discovery gives [a] an ID, and it can read
    the file and write it or has nothing new to write.  After any discoveries, in any order, with the server
    missing or others added, and any deletions, which can read the file but may fail to write
    it, the next discovery that can read it gives the same script the same ID, unless that ID
    was released.  A read that fails later, or the first write, can cost the ID
    ([failed_save_swaps_ids], [failed_read_swaps_ids]). *)
Theorem server_ids_stable file0 es0 file1 s1 found out file2 es file3 s2 found' out' file4 a b
    (Hok : ids_ok (file_ids file0)) (Hh0 : Forall event_host es0) (H0 : id_events file0 es0 = Some file1)
    (Hf : host_found found) (H1 : assignStableIDs file1 true s1 found = Some (out, file2))
    (Hs : s1 = true \/ file2 = file1 /\ file_ids file1 !! serverIDKey a = Some (i_ID a))
    (Hes : Forall event_host es) (Hr : Forall event_reads es) (Hn : Forall (no_release (i_ID a)) es)
    (Hev : id_events file2 es = Some file3)
    (Hf' : host_found found') (H2 : assignStableIDs file3 true s2 found' = Some (out', file4))
    (Ha : In a out) (Hb : In b out') (Hk : serverIDKey a = serverIDKey b) :
  i_ID b = i_ID a.
Proof.
  pose proof (events_ok _ _ _ Hok Hh0 H0) as Hok1.
  destruct (discover_file _ _ _ _ _ _ Hok1 Hf H1) as (Hok2 & _ & Hst & _).
  assert (Hin : file_ids file2 !! serverIDKey a = Some (i_ID a)) by (destruct Hs as [->|[-> Hs]]; [by apply Hst|done]).
  pose proof (events_ok _ _ _ Hok2 Hes Hev) as Hok3.
  pose proof (events_keep _ _ _ _ _ Hok2 Hes Hr Hn Hev Hin) as Hk3.
  destruct (discover_file _ _ _ _ _ _ Hok3 Hf' H2) as (_ & _ & _ & Hl). rewrite Hk in Hk3. by apply Hl.
Qed.

(** ** Witnesses *)

Definition inst_a : Instance := mkInstance "vhserver" "" "vhserver" "/home/a" LayoutHost.
Definition inst_b : Instance := mkInstance "vhserver" "bob" "vhserver" "/home/bob" LayoutHost.

Example assign_both :
  option_map (fun p => map i_ID p.1.1) (assign_ids ∅ [inst_a; inst_b]) = Some ["vhserver"; "vhserver@bob"]%string.
Proof. vm_compute. reflexivity. Qed.

Definition ids_ab : gmap string string :=
  <["/home/a/vhserver"%string := "vhserver"%string]> (<["/home/bob/vhserver"%string := "vhserver@bob"%string]> ∅).

Lemma assigned_ids_unique_witness :
  exists out st ch, assign_ids ids_ab [inst_b; inst_a] = Some (out, st, ch) /\ NoDup (map i_ID out).
Proof.
  apply (assigned_ids_unique ids_ab [inst_b; inst_a]).
  - apply Forall_cons; split; [|apply Forall_cons; split; [|done]]; (split; [vm_compute; reflexivity|vm_compute; auto]).
  - repeat constructor.
  - vm_compute. reflexivity.
Defined.

Lemma host_found_ab : host_found [inst_a; inst_b] /\ host_found [inst_b] /\ host_found [inst_b; inst_a].
Proof. split_and!; (split; [repeat constructor|apply (bool_decide_unpack _); vm_compute; exact I]). Qed.

(** What discovery proposes when bob comes first in /etc/passwd. *)
Definition inst_b1 : Instance := mkInstance "vhserver" "" "vhserver" "/home/bob" LayoutHost.
Definition inst_a2 : Instance := mkInstance "vhserver@a" "a" "vhserver" "/home/a" LayoutHost.
Lemma host_found_swapped : host_found [inst_b1; inst_a2].
Proof. split; [repeat constructor|apply (bool_decide_unpack _); vm_compute; exact I]. Qed.
(** The IDs of two discoveries with [es] between them; [s] says whether the first is saved. *)
Definition two_runs (s : bool) (es : list id_event) : option (list string * list string) :=
  match assignStableIDs None true s [inst_a; inst_b] with
  | Some (out, f) =>
      match id_events f es with
      | Some f => option_map (fun p => (map i_ID out, map i_ID p.1)) (assignStableIDs f true true [inst_b1; inst_a2])
      | None => None
      end
  | None => None
  end.
(** A discovery without the server of a, and a deletion whose write fails. *)
Definition demo_between : list id_event := [Discover true true [inst_b]; Release true false "other"].

Lemma server_ids_stable_witness :
  exists out' f, assignStableIDs (Some ids_ab) true true [inst_b1; inst_a2] = Some (out', f) /\
    Forall (fun b => serverIDKey b = "/home/bob/vhserver" -> i_ID b = "vhserver@bob") out'.
Proof.
  destruct (assignStableIDs (Some ids_ab) true true [inst_b1; inst_a2]) as [[out' f]|] eqn:E; [|vm_compute in E; discriminate].
  exists out', f. split; [reflexivity|]. apply List.Forall_forall. intros b Hb Hk.
  refine (server_ids_stable None [] None true [inst_a; inst_b] [inst_a; set_id "vhserver@bob" inst_b] (Some ids_ab)
    demo_between (Some ids_ab) true [inst_b1; inst_a2] out' f (set_id "vhserver@bob" inst_b) b
    ids_ok_empty (Forall_nil_2 _) eq_refl (proj1 host_found_ab) _ (or_introl eq_refl) _ _ _ _ host_found_swapped E
    (or_intror (or_introl eq_refl)) Hb _).
  - vm_compute. reflexivity.
  - unfold demo_between. rewrite !Forall_cons. split_and!; [exact (proj1 (proj2 host_found_ab))|exact I|constructor].
  - unfold demo_between. rewrite !Forall_cons. split_and!; [reflexivity|reflexivity|constructor].
  - unfold demo_between. rewrite !Forall_cons. split_and!; [exact I|discriminate|constructor].
  - vm_compute. reflexivity.
  - rewrite Hk. vm_compute. reflexivity.
Defined.

(** When the first write of the file fails, which is only logged, and the order of
    /etc/passwd changes before the next one, the two servers swap their IDs ... *)
Example failed_save_swaps_ids :
  two_runs true demo_between = Some (["vhserver"; "vhserver@bob"], ["vhserver@bob"; "vhserver"]) /\
  two_runs false [] = Some (["vhserver"; "vhserver@bob"], ["vhserver"; "vhserver@a"]).
Proof. split; vm_compute; reflexivity. Qed.
(** ... and so they do when one discovery cannot read the file, because it then replaces it. *)
Example failed_read_swaps_ids :
  two_runs true [Discover false true [inst_b1; inst_a2]] = Some (["vhserver"; "vhserver@bob"], ["vhserver"; "vhserver@a"]).
Proof. vm_compute. reflexivity. Qed.
