(* ===== verification/Cron.v ===== *)
(** * Cron schedules ([backend/cron.go], the checks of [backend/schedule.go])

    [ParseCron] and [parseCronField] with the loop that sets the bits on 64-bit
    integers, [Matches], and the two validators.  The properties compare
    what is accepted, and when it is due, with a grammar and a reading of fields that
    use nothing of the parser. *)

From Stdlib Require Import ZArith Lia Bool String Ascii List.
From stdpp Require Import base gmap strings list.
From S2P Require Import Prelude GoStrings.


(** ** Parsing *)

Record CronSpec := mkCronSpec {
  minute : Z; hour : Z; dom : Z; month : Z; dow : Z;  (* uint64 bit sets *)
  domStar : bool; dowStar : bool
}.

Inductive cron_error :=
| InvalidStep (part : string)
| InvalidRange (part : string)
| InvalidValue (part : string)
| OutOfRange (part : string)
| NotFiveFields
| LoopFuel.

Definition cronMacros (expr : string) : option string :=
  match expr with
  | "@yearly" => Some "0 0 1 1 *"
  | "@annually" => Some "0 0 1 1 *"
  | "@monthly" => Some "0 0 1 * *"
  | "@weekly" => Some "0 0 * * 0"
  | "@daily" => Some "0 0 * * *"
  | "@midnight" => Some "0 0 * * *"
  | "@hourly" => Some "0 * * * *"
  | _ => None
  end.

(** [1 << uint(v)] on [uint64]: zero when the count is 64 or more, which every
    negative [v] is after the conversion. *)
Definition shl1 (v : Z) : Z := if (0 <=? v) && (v <? 64) then 2 ^ v else 0.

(** [for v := lo; v <= hi; v += step { bits |= 1 << uint(v) }] *)
Fixpoint bits_loop (fuel : nat) (v hi step bits : Z) : option Z :=
  if v <=? hi then
    match fuel with
    | O => None
    | S fuel' => bits_loop fuel' (wrap64 (v + step)) hi step (Z.lor bits (shl1 v))
    end
  else Some bits.

Definition loop_fuel : nat := 200.

(** The step and the bounds one part of a list names, checked as the code does. *)
Definition parse_part (part : string) (min max : Z) : result cron_error (Z * Z * Z) :=
  let? (rangePart, step) :=
    match cut "/" part with
    | Some (r, s) =>
        match atoi s with
        | Some n => if n <=? 0 then Err (InvalidStep part) else Ok (r, n)
        | None => Err (InvalidStep part)
        end
    | None => Ok (part, 1)
    end in
  let? (lo, hi) :=
    if String.eqb rangePart "*" then Ok (min, max)
    else match cut "-" rangePart with
    | Some (b0, b1) =>
        match atoi b0, atoi b1 with
        | Some a, Some b => if a >? b then Err (InvalidRange rangePart) else Ok (a, b)
        | _, _ => Err (InvalidRange rangePart)
        end
    | None =>
        match atoi rangePart with
        | Some n => Ok (n, if step >? 1 then max else n)
        | None => Err (InvalidValue rangePart)
        end
    end in
  if (lo <? min) || (hi >? max) then Err (OutOfRange part) else Ok (lo, hi, step).

Fixpoint parse_parts (parts : list string) (min max bits : Z) : result cron_error Z :=
  match parts with
  | [] => Ok bits
  | part :: rest =>
      let? (lo, hi, step) := parse_part part min max in
      match bits_loop loop_fuel lo hi step bits with
      | Some bits' => parse_parts rest min max bits'
      | None => Err LoopFuel
      end
  end.

Definition parseCronField (field : string) (min max : Z) : result cron_error Z :=
  parse_parts (split "," field) min max 0.

Definition ParseCron (expr : string) : result cron_error CronSpec :=
  let expr := trim_space expr in
  let expr := match cronMacros expr with Some m => m | None => expr end in
  match fields expr with
  | [f0; f1; f2; f3; f4] =>
      let? minute := parseCronField f0 0 59 in
      let? hour := parseCronField f1 0 23 in
      let? dom := parseCronField f2 1 31 in
      let? month := parseCronField f3 1 12 in
      let? dow := parseCronField f4 0 7 in
      let dow := if negb (Z.land dow (2 ^ 7) =? 0) then Z.lor dow 1 else dow in
      Ok (mkCronSpec minute hour dom month dow (has_prefix f2 "*") (has_prefix f4 "*"))
  | _ => Err NotFiveFields
  end.

(** ** Matching *)

(** What [Matches] reads of a [time.Time]: [t.Minute()], [t.Hour()], [t.Day()],
    [t.Month()] and [t.Weekday()]. *)
Record civil := mkCivil { Minute : Z; Hour : Z; Day : Z; Month : Z; Weekday : Z }.

Definition in_set (bits v : Z) : bool := negb (Z.land bits (shl1 v) =? 0).

Definition Matches (s : CronSpec) (t : civil) : bool :=
  if negb (in_set (minute s) (Minute t)) || negb (in_set (hour s) (Hour t))
     || negb (in_set (month s) (Month t)) then false
  else
    let domOK := in_set (dom s) (Day t) in
    let dowOK := in_set (dow s) (Weekday t) in
    if domStar s || dowStar s then domOK && dowOK else domOK || dowOK.

(** ** Validation *)

(** [`^[0-9*/,-]{1,64}$`] *)
Definition reCronField (f : string) : bool :=
  (1 <=? slen f) && (slen f <=? 64) && sall (one_of "0123456789*/,-") f.

Definition IsValidCronExpr (expr : string) : bool :=
  let expr := trim_space expr in
  if mem expr ["@hourly"; "@daily"; "@midnight"; "@weekly"; "@monthly"; "@yearly"; "@annually"]
  then true
  else if contains_any expr (byte_str (chr 10) +:+ byte_str (chr 13)) then false
  else let fs := fields expr in (Z.of_nat (length fs) =? 5) && forallb reCronField fs.

Definition isIntInRange (s : string) (min max : Z) : bool :=
  if String.eqb s "" || (slen s >? 3) then false
  else match atoi s with
  | Some n => (n >=? min) && (n <=? max) && String.eqb (itoa n) s
  | None => false
  end.

Inductive cron_invalid := NotValid | NotParsed (e : cron_error).

Definition ValidateCronExpr (expr : string) : option cron_invalid :=
  if negb (IsValidCronExpr expr) then Some NotValid
  else match ParseCron expr with
  | Err e => Some (NotParsed e)
  | Ok _ => None
  end.

Example parse_hourly : ParseCron "*/20 8-10,22 * * 7" =
  Ok (mkCronSpec (2^0 + 2^20 + 2^40) (2^8 + 2^9 + 2^10 + 2^22) (2^32 - 2) (2^13 - 2) (2^7 + 1) true false).
Proof. reflexivity. Qed.
Example parse_bad : is_ok (ParseCron "*/0 * * * *") = false. Proof. reflexivity. Qed.

(** ** Reference reading of a schedule

    Written without the parser: what a part of a list can look like, and which values it
    names.  Numbers are read as [strconv.Atoi] reads them. *)

Inductive form := FStar | FOne (n : Z) | FRange (a b : Z).
(** "*", "n" and "a-b" *)
Inductive form_written : string -> form -> Prop :=
| w_star : form_written "*" FStar
| w_one s n : contains_byte s "-" = false -> atoi s = Some n -> form_written s (FOne n)
| w_range s t a b : contains_byte s "-" = false -> atoi s = Some a -> atoi t = Some b ->
    form_written (s +:+ "-" +:+ t) (FRange a b).
(** A form, alone or with a step after a slash. *)
Inductive part_written : string -> form -> option Z -> Prop :=
| w_plain s f : contains_byte s "/" = false -> form_written s f -> part_written s f None
| w_step s t f n : contains_byte s "/" = false -> form_written s f -> atoi t = Some n -> part_written (s +:+ "/" +:+ t) f (Some n).

(** The first and the last value: "5/15" means from 5 to the largest value; a step of 1 after a
    single number changes nothing. *)
Definition first_last (min max : Z) (f : form) (step : option Z) : Z * Z :=
  match f, step with
  | FStar, _ => (min, max)
  | FRange a b, _ => (a, b)
  | FOne n, None => (n, n)
  | FOne n, Some k => if k =? 1 then (n, n) else (n, max)
  end.
Definition step_of (step : option Z) : Z := match step with Some k => k | None => 1 end.
(** The values a part names: from the first to the last in steps. *)
Definition part_names (min max : Z) (f : form) (step : option Z) (v : Z) : Prop :=
  let '(lo, hi) := first_last min max f step in lo <= v <= hi /\ (v - lo) mod step_of step = 0.
(** What is accepted: a step of at least 1, a range that goes up, and nothing out of bounds. *)
Definition part_fits (min max : Z) (f : form) (step : option Z) : Prop :=
  1 <= step_of step /\ (match f with FRange a b => a <= b | _ => True end) /\
  min <= (first_last min max f step).1 /\ (first_last min max f step).2 <= max.

Definition field_due (field : string) (min max v : Z) : Prop :=
  exists part f step, In part (split "," field) /\ part_written part f step /\ part_names min max f step v.
Definition field_fits (field : string) (min max : Z) : Prop :=
  forall part, In part (split "," field) -> exists f step, part_written part f step /\ part_fits min max f step.
(** No step is beyond 2^62, so adding one to a value does not overflow the 64-bit integer. *)
Definition small_steps (field : string) : Prop :=
  forall part f n, In part (split "," field) -> part_written part f (Some n) -> n <= 2 ^ 62.

(** The five fields, and what the names stand for. *)
Definition documented_fields (expr : string) : list string :=
  if mem expr ["@yearly"; "@annually"] then ["0"; "0"; "1"; "1"; "*"]
  else if mem expr ["@monthly"] then ["0"; "0"; "1"; "*"; "*"]
  else if mem expr ["@weekly"] then ["0"; "0"; "*"; "*"; "0"]
  else if mem expr ["@daily"; "@midnight"] then ["0"; "0"; "*"; "*"; "*"]
  else if mem expr ["@hourly"] then ["0"; "*"; "*"; "*"; "*"]
  else fields expr.

(** What Vixie cron documents: minute, hour and month must match, and of the day
    fields both when one of them starts with a star, otherwise either. Sunday is
    0 and 7. *)
Definition vixie_due (f0 f1 f2 f3 f4 : string) (t : civil) : Prop :=
  let domOK := field_due f2 1 31 (Day t) in
  let dowOK := field_due f4 0 7 (Weekday t) \/ (Weekday t = 0 /\ field_due f4 0 7 7) in
  field_due f0 0 59 (Minute t) /\ field_due f1 0 23 (Hour t) /\ field_due f3 1 12 (Month t) /\
  (if has_prefix f2 "*" || has_prefix f4 "*" then domOK /\ dowOK else domOK \/ dowOK).

Definition civil_ok (t : civil) : Prop :=
  0 <= Minute t <= 59 /\ 0 <= Hour t <= 23 /\ 1 <= Day t <= 31 /\ 1 <= Month t <= 12
  /\ 0 <= Weekday t <= 6.

(** ** Lemmas *)

Lemma testbit_shl1 v i : 0 <= i -> 0 <= v < 64 -> Z.testbit (shl1 v) i = (v =? i).
Proof.
  intros Hi Hv. unfold shl1. replace ((0 <=? v) && (v <? 64)) with true by lia.
  apply Z.pow2_bits_eqb. lia.
Qed.

Lemma in_set_testbit bits v : 0 <= v < 64 -> in_set bits v = Z.testbit bits v.
Proof.
  intros Hv. unfold in_set. destruct (Z.testbit bits v) eqn:E.
  - apply negb_true_iff, Z.eqb_neq. intros H0.
    assert (Hb : Z.testbit (Z.land bits (shl1 v)) v = true)
      by (rewrite Z.land_spec, testbit_shl1, E, Z.eqb_refl by lia; done).
    rewrite H0, Z.bits_0 in Hb. done.
  - apply negb_false_iff, Z.eqb_eq. apply Z.bits_inj'. intros i Hi.
    rewrite Z.land_spec, testbit_shl1, Z.bits_0 by lia.
    destruct (Z.eqb_spec v i) as [->|]; [by rewrite E|by rewrite andb_false_r].
Qed.

Lemma bits_loop_exact fuel v hi step bits :
  0 <= v -> hi < 64 -> 1 <= step <= int64_max - hi -> hi - v < Z.of_nat fuel ->
  exists b, bits_loop fuel v hi step bits = Some b /\
    forall i, 0 <= i ->
      Z.testbit b i = Z.testbit bits i || (v <=? i) && (i <=? hi) && ((i - v) mod step =? 0).
Proof.
  revert v bits. induction fuel as [|fuel IH]; intros v bits Hv Hhi Hs Hf; simpl.
  - replace (v <=? hi) with false by lia. exists bits. split; [done|].
    intros i Hi. replace ((v <=? i) && (i <=? hi)) with false by lia. by rewrite orb_false_r.
  - destruct (v <=? hi) eqn:E; to_prop.
    + rewrite wrap64_id by (unfold int64_min, int64_max in *; lia).
      destruct (IH (v + step) (Z.lor bits (shl1 v))) as (b & Hb & Hspec); try lia.
      exists b. split; [done|]. intros i Hi. rewrite Hspec, Z.lor_spec, testbit_shl1 by lia.
      rewrite <- orb_assoc. f_equal. destruct (Z.eqb_spec v i) as [->|Hne]; simpl.
      * rewrite Z.sub_diag, Zmod_0_l. lia.
      * destruct (i <=? hi) eqn:E2; [|by rewrite !andb_false_r]. rewrite !andb_true_r.
        replace (i - v) with (i - (v + step) + 1 * step) by lia. rewrite Z.mod_add by lia.
        destruct (v <=? i) eqn:E3; [|replace (v + step <=? i) with false by lia; done].
        destruct (v + step <=? i) eqn:E4; [done|]. simpl. symmetry. apply Z.eqb_neq.
        replace (i - (v + step)) with (i - v + (-1) * step) by lia. rewrite Z.mod_add by lia.
        rewrite Z.mod_small; lia.
    + exists bits. split; [done|].
      intros i Hi. replace ((v <=? i) && (i <=? hi)) with false by lia. by rewrite orb_false_r.
Qed.

(** With a step so large that the addition overflows, the value comes back two
    rounds later, lower by at least two. *)
Lemma bits_loop_overflow fuel v hi step bits :
  0 <= hi < 64 -> int64_max - hi < step <= int64_max ->
  -100 <= v < 64 -> v + 3 <= Z.of_nat fuel -> 2 <= Z.of_nat fuel ->
  exists b, bits_loop fuel v hi step bits = Some b.
Proof.
  intros Hhi Hs. unfold int64_max in *.
  revert v bits. induction fuel as [fuel IH] using lt_wf_ind. intros v bits Hv Hf H2.
  destruct fuel as [|[|fuel]]; [lia|lia|].
  cbn [bits_loop]. destruct (v <=? hi) eqn:E; [|by eexists]. to_prop.
  destruct (Z.leb_spec v (2 ^ 63 - 1 - step)) as [Hle|Hgt].
  - rewrite wrap64_id by (unfold int64_min, int64_max; lia).
    replace (v + step <=? hi) with false by lia. by eexists.
  - rewrite wrap64_over by (unfold int64_max; lia).
    replace (v + step - 2 ^ 64 <=? hi) with true by lia.
    rewrite wrap64_id by (unfold int64_min, int64_max; lia).
    apply IH; lia.
Qed.

Lemma atoi_max s n : atoi s = Some n -> n <= int64_max.
Proof. unfold atoi. intros H. repeat split_match; try done; simplify_eq; lia. Qed.

Lemma parse_part_bounds part min max lo hi step :
  parse_part part min max = Ok (lo, hi, step) -> min <= lo /\ hi <= max /\ 1 <= step <= int64_max.
Proof.
  intros H. unfold parse_part in H.
  match type of H with (match ?X with _ => _ end) = _ =>
    destruct X as [[r s]|] eqn:E; [|done] end.
  assert (Hs : 1 <= s <= int64_max).
  { clear H. repeat split_match; simplify_eq; try (unfold int64_max; lia).
    match goal with Ha : atoi _ = Some _ |- _ => apply atoi_max in Ha end. lia. }
  match type of H with (match ?X with _ => _ end) = _ =>
    destruct X as [[l h]|] eqn:E2; [|done] end.
  destruct ((l <? min) || (h >? max)) eqn:E3; [done|]. simplify_eq. lia.
Qed.

Lemma bits_loop_stop fuel v hi step bits : hi < v -> bits_loop fuel v hi step bits = Some bits.
Proof. intros H. destruct fuel; simpl; by replace (v <=? hi) with false by lia. Qed.

#[local] Arguments bits_loop : simpl never.

Lemma loop_fuel_eq : Z.of_nat loop_fuel = 200.
Proof. reflexivity. Qed.

Lemma bits_loop_total part min max lo hi step bits :
  0 <= min -> 0 <= max < 64 -> parse_part part min max = Ok (lo, hi, step) ->
  exists b, bits_loop loop_fuel lo hi step bits = Some b.
Proof.
  intros Hmin Hmax Hp. apply parse_part_bounds in Hp as (H1 & H2 & H3).
  pose proof loop_fuel_eq as Hf.
  destruct (Z.leb_spec step (int64_max - hi)) as [Hle|Hgt].
  - destruct (bits_loop_exact loop_fuel lo hi step bits) as (b & Hb & _); [lia..|]. by exists b.
  - destruct (Z.leb_spec lo hi).
    + apply bits_loop_overflow; lia.
    + exists bits. by apply bits_loop_stop.
Qed.

(** *** The parser finds what is written *)

Definition read_form (s : string) : option form :=
  if String.eqb s "*" then Some FStar else
  match cut "-" s with
  | Some (a, b) => match atoi a, atoi b with Some a, Some b => Some (FRange a b) | _, _ => None end
  | None => option_map FOne (atoi s)
  end.
Lemma read_form_iff s f : form_written s f <-> read_form s = Some f.
Proof.
  unfold read_form. split.
  - destruct 1 as [|s n Hd Hn|s t a b Hd Ha Hb]; [done|..].
    + destruct (String.eqb_spec s "*") as [->|_]; [done|]. apply cut_none in Hd. by rewrite Hd, Hn.
    + pose proof (cut_app "-" s t Hd) as E. change (byte_str "-") with "-" in E.
      destruct (String.eqb_spec (s +:+ "-" +:+ t) "*") as [Es|_]; [by rewrite Es in E|]. by rewrite E, Ha, Hb.
  - destruct (String.eqb_spec s "*") as [->|_]; [intros [= <-]; constructor|].
    destruct (cut "-" s) as [[a b]|] eqn:E.
    + apply cut_some in E as [-> Hd]. destruct (atoi a) eqn:Ea; [|done]. destruct (atoi b) eqn:Eb; [|done].
      intros [= <-]. by apply w_range.
    + apply cut_none in E. destruct (atoi s) eqn:Es; [|done]. intros [= <-]. by apply w_one.
Qed.

Definition read_part (part : string) : option (form * option Z) :=
  match cut "/" part with
  | Some (r, t) => match read_form r, atoi t with Some f, Some n => Some (f, Some n) | _, _ => None end
  | None => option_map (fun f => (f, None)) (read_form part)
  end.
Lemma read_part_iff part f step : part_written part f step <-> read_part part = Some (f, step).
Proof.
  unfold read_part. split.
  - destruct 1 as [s f Hd Hf|s t f n Hd Hf Hn]; apply read_form_iff in Hf.
    + apply cut_none in Hd. by rewrite Hd, Hf.
    + pose proof (cut_app "/" s t Hd) as E. change (byte_str "/") with "/" in E. by rewrite E, Hf, Hn.
  - destruct (cut "/" part) as [[r t]|] eqn:E.
    + apply cut_some in E as [-> Hd]. destruct (read_form r) eqn:Er; [|done]. destruct (atoi t) eqn:Et; [|done].
      intros [= <- <-]. apply w_step; [done| |done]. by apply read_form_iff.
    + apply cut_none in E. destruct (read_form part) eqn:Er; [|done]. intros [= <- <-]. apply w_plain; [done|by apply read_form_iff].
Qed.

(** A part is accepted exactly when it is written well and fits, with its own values. *)
Lemma parse_part_read part min max :
  match parse_part part min max with
  | Ok (lo, hi, k) => exists f step, read_part part = Some (f, step) /\ part_fits min max f step /\
      first_last min max f step = (lo, hi) /\ k = step_of step
  | Err _ => forall f step, read_part part = Some (f, step) -> ~ part_fits min max f step
  end.
Proof.
  unfold parse_part, read_part, part_fits.
  assert (Hform : forall r k step, 1 <= k -> k = step_of step ->
    match (let? (lo, hi) := if String.eqb r "*" then Ok (min, max) else
             match cut "-" r with
             | Some (b0, b1) => match atoi b0, atoi b1 with
                 | Some a, Some b => if a >? b then Err (InvalidRange r) else Ok (a, b)
                 | _, _ => Err (InvalidRange r) end
             | None => match atoi r with Some n => Ok (n, if k >? 1 then max else n) | None => Err (InvalidValue r) end
             end in
           if (lo <? min) || (hi >? max) then Err (OutOfRange part) else Ok (lo, hi, k)) with
    | Ok (lo, hi, k') => exists f, read_form r = Some f /\
        (1 <= step_of step /\ (match f with FRange a b => a <= b | _ => True end) /\
         min <= (first_last min max f step).1 /\ (first_last min max f step).2 <= max) /\
        first_last min max f step = (lo, hi) /\ k' = step_of step
    | Err _ => forall f, read_form r = Some f -> ~ (1 <= step_of step /\ (match f with FRange a b => a <= b | _ => True end) /\
         min <= (first_last min max f step).1 /\ (first_last min max f step).2 <= max)
    end).
  { intros r k step Hk ->. unfold read_form. destruct (String.eqb r "*").
    - destruct ((min <? min) || (max >? max)) eqn:E; [lia|]. exists FStar. cbn. split_and!; try done; lia.
    - destruct (cut "-" r) as [[a b]|].
      + destruct (atoi a) as [x|]; [|done]. destruct (atoi b) as [y|]; [|done]. destruct (x >? y) eqn:Ex.
        * intros f [= <-] (_ & H & _). lia.
        * destruct (_ || _) eqn:E; [intros f [= <-] (_ & _ & H1 & H2); cbn in *; lia|].
          exists (FRange x y). cbn. split_and!; try done; lia.
      + destruct (atoi r) as [n|]; [|done]. cbn [option_map].
        assert (Hfl : first_last min max (FOne n) step = (n, if step_of step >? 1 then max else n)).
        { destruct step as [j|]; cbn in *; [|done]. destruct (Z.eqb_spec j 1); [by subst|]. by replace (j >? 1) with true by lia. }
        destruct (_ || _) eqn:E; [intros f [= <-]; rewrite Hfl; cbn; lia|].
        exists (FOne n). rewrite Hfl. cbn. split_and!; try done; lia. }
  destruct (cut "/" part) as [[r t]|] eqn:Ec.
  - destruct (atoi t) as [k|] eqn:Et; [|intros f step H; by destruct (read_form r)]. destruct (Z.leb_spec k 0) as [Hk|Hk].
    + intros f step H (H1 & _). destruct (read_form r); [|done]. injection H as <- <-. cbn in H1. lia.
    + specialize (Hform r k (Some k) ltac:(lia) eq_refl). revert Hform. cbn beta iota zeta.
      match goal with |- context [match ?X with Ok _ => _ | Err _ => _ end] => destruct X as [[[lo hi] k']|] end.
      * intros (f & -> & Hf). by exists f, (Some k).
      * intros H f step Hr. destruct (read_form r); [|done]. injection Hr as <- <-. by apply H.
  - specialize (Hform part 1 None ltac:(lia) eq_refl). revert Hform. cbn beta iota zeta.
    match goal with |- context [match ?X with Ok _ => _ | Err _ => _ end] => destruct X as [[[lo hi] k']|] end.
    + intros (f & -> & Hf). by exists f, None.
    + intros H f step Hr. destruct (read_form part); [|done]. injection Hr as <- <-. by apply H.
Qed.

Definition due_in (parts : list string) (min max v : Z) : Prop :=
  exists part f step, In part parts /\ part_written part f step /\ part_names min max f step v.
Definition fits_in (parts : list string) (min max : Z) : Prop :=
  forall part, In part parts -> exists f step, part_written part f step /\ part_fits min max f step.

Lemma parse_parts_spec parts min max bits :
  0 <= min -> 0 <= max < 64 ->
  (forall part f n, In part parts -> part_written part f (Some n) -> n <= 2 ^ 62) ->
  match parse_parts parts min max bits with
  | Ok b => fits_in parts min max /\ forall i, 0 <= i ->
      Z.testbit b i = true <-> Z.testbit bits i = true \/ due_in parts min max i
  | Err e => ~ fits_in parts min max
  end.
Proof.
  intros Hmin Hmax. revert bits. induction parts as [|part parts IH]; intros bits Hs; simpl.
  - split; [by intros ? []|]. intros i _. split; [by left|]. by intros [|(? & ? & ? & [] & _)].
  - pose proof (parse_part_read part min max) as Hp.
    destruct (parse_part part min max) as [[[lo hi] k]|e] eqn:Ep.
    2:{ intros H. destruct (H part (or_introl eq_refl)) as (f & step & Hw & Hf). apply read_part_iff in Hw. by apply (Hp _ _ Hw). }
    destruct Hp as (f & step & Hw%read_part_iff & Hf & Hfl & ->).
    assert (Hst : step_of step <= 2 ^ 62) by (destruct step as [n|]; [by eapply Hs; [left|]|done]).
    apply parse_part_bounds in Ep as (H1 & H2 & H3). pose proof loop_fuel_eq as Hfuel.
    destruct (bits_loop_exact loop_fuel lo hi (step_of step) bits) as (b & -> & Hb); [lia|lia|unfold int64_max in *; lia|lia|].
    assert (Hone : forall i, 0 <= i -> Z.testbit b i = true <-> Z.testbit bits i = true \/ part_names min max f step i).
    { intros i Hi. rewrite Hb by done. unfold part_names. rewrite Hfl, orb_true_iff, !andb_true_iff, !Z.leb_le, Z.eqb_eq. tauto. }
    specialize (IH b ltac:(eauto using in_cons)). destruct (parse_parts parts min max b) as [b'|e].
    + destruct IH as [IH1 IH2]. split; [intros p [<-|Hin]; [by exists f, step|by apply IH1]|].
      intros i Hi. rewrite IH2, Hone by done. split.
      * intros [[?|?]|(p & g & st & Hin & ?)]; [by left|right; exists part, f, step; split; [by left|done]|].
        right. exists p, g, st. split; [by right|done].
      * intros [?|(p & g & st & [<-|Hin] & Hpw & Hpn)]; [by left; left| |right; by exists p, g, st].
        left. right. apply read_part_iff in Hpw, Hw. rewrite Hw in Hpw. by injection Hpw as <- <-.
    + intros H. apply IH. intros p Hin. apply H. by right.
Qed.

Lemma parse_parts_fuel parts min max bits :
  0 <= min -> 0 <= max < 64 -> parse_parts parts min max bits <> Err LoopFuel.
Proof.
  intros Hmin Hmax. revert bits. induction parts as [|part parts IH]; intros bits; simpl; [done|].
  destruct (parse_part part min max) as [[[lo hi] step]|e] eqn:Ep.
  - destruct (bits_loop_total _ _ _ _ _ _ bits Hmin Hmax Ep) as (b & ->). apply IH.
  - unfold parse_part in Ep. repeat split_match; simplify_eq; done.
Qed.

Lemma field_bits field min max : 0 <= min -> 0 <= max < 64 -> small_steps field ->
  match parseCronField field min max with
  | Ok b => field_fits field min max /\ forall v, 0 <= v < 64 -> in_set b v = true <-> field_due field min max v
  | Err _ => ~ field_fits field min max
  end.
Proof.
  intros Hmin Hmax Hs. pose proof (parse_parts_spec (split "," field) min max 0 Hmin Hmax Hs) as Hp.
  unfold parseCronField. destruct (parse_parts _ _ _ _) as [b|]; [|done]. destruct Hp as [Hf Hb]. split; [done|].
  intros v Hv. rewrite in_set_testbit, Hb, Z.bits_0 by lia. split; [by intros [|]|by right].
Qed.

Lemma in_set_sunday d v :
  0 <= v < 64 ->
  in_set (if negb (Z.land d (2 ^ 7) =? 0) then Z.lor d 1 else d) v
  = in_set d v || ((v =? 0) && in_set d 7).
Proof.
  intros Hv. change (negb (Z.land d (2 ^ 7) =? 0)) with (in_set d 7).
  rewrite !in_set_testbit by lia. destruct (Z.testbit d 7) eqn:E.
  - rewrite Z.lor_spec, andb_true_r. f_equal.
  - by rewrite andb_false_r, orb_false_r.
Qed.

Lemma macro_fields expr : fields (match cronMacros expr with Some m => m | None => expr end) = documented_fields expr.
Proof.
  destruct (mem expr ["@yearly"; "@annually"; "@monthly"; "@weekly"; "@daily"; "@midnight"; "@hourly"]) eqn:E.
  - apply mem_true in E. repeat destruct E as [<-|E]; [reflexivity..|done].
  - apply mem_false in E.
    assert (Hn : cronMacros expr = None) by (unfold cronMacros; repeat (case_match; try done); subst; exfalso; apply E; cbn [In]; tauto).
    rewrite Hn. unfold documented_fields. repeat (rewrite (proj2 (mem_false _ _)); [|cbn [In] in *; tauto]). done.
Qed.

(** * Properties *)

(** C32: [ParseCron] accepts exactly the schedules with five well-written fields that fit (or
    one of the names for such), and an accepted schedule is due in exactly the minutes its
    fields name: numbers, ranges, lists and steps read as the comments of cron.go say, 7 as
    Sunday, and Vixie cron's rule that combines the two day fields.  Steps are at most 2^62:
    beyond, the addition in the loop wraps around ([huge_step_wraps]). *)
Theorem cron_matches_vixie expr f0 f1 f2 f3 f4 :
  documented_fields (trim_space expr) = [f0; f1; f2; f3; f4] ->
  small_steps f0 -> small_steps f1 -> small_steps f2 -> small_steps f3 -> small_steps f4 ->
  match ParseCron expr with
  | Ok spec => (field_fits f0 0 59 /\ field_fits f1 0 23 /\ field_fits f2 1 31 /\ field_fits f3 1 12 /\ field_fits f4 0 7) /\
      forall t, civil_ok t -> Matches spec t = true <-> vixie_due f0 f1 f2 f3 f4 t
  | Err _ => ~ (field_fits f0 0 59 /\ field_fits f1 0 23 /\ field_fits f2 1 31 /\ field_fits f3 1 12 /\ field_fits f4 0 7)
  end.
Proof.
  intros Hf S0 S1 S2 S3 S4. unfold ParseCron. rewrite macro_fields, Hf.
  pose proof (field_bits f0 0 59 ltac:(lia) ltac:(lia) S0) as H0. destruct (parseCronField f0 0 59) as [b0|]; [|tauto].
  pose proof (field_bits f1 0 23 ltac:(lia) ltac:(lia) S1) as H1. destruct (parseCronField f1 0 23) as [b1|]; [|tauto].
  pose proof (field_bits f2 1 31 ltac:(lia) ltac:(lia) S2) as H2. destruct (parseCronField f2 1 31) as [b2|]; [|tauto].
  pose proof (field_bits f3 1 12 ltac:(lia) ltac:(lia) S3) as H3. destruct (parseCronField f3 1 12) as [b3|]; [|tauto].
  pose proof (field_bits f4 0 7 ltac:(lia) ltac:(lia) S4) as H4. destruct (parseCronField f4 0 7) as [b4|]; [|tauto].
  cbn [minute]. destruct H0 as [F0 H0], H1 as [F1 H1], H2 as [F2 H2], H3 as [F3 H3], H4 as [F4 H4]. split; [done|].
  intros t (T0 & T1 & T2 & T3 & T4). unfold Matches, vixie_due. cbn [minute hour dom month dow domStar dowStar].
  assert (Hd : in_set (if negb (Z.land b4 (2 ^ 7) =? 0) then Z.lor b4 1 else b4) (Weekday t) = true <->
    field_due f4 0 7 (Weekday t) \/ (Weekday t = 0 /\ field_due f4 0 7 7)).
  { rewrite in_set_sunday by lia. rewrite orb_true_iff, andb_true_iff, H4, H4, Z.eqb_eq by lia. done. }
  destruct (has_prefix f2 "*" || has_prefix f4 "*"); rewrite <- (H0 (Minute t)), <- (H1 (Hour t)), <- (H3 (Month t)), <- (H2 (Day t)), <- Hd by lia;
    destruct (in_set b0 _), (in_set b1 _), (in_set b3 _), (in_set b2 _), (in_set _ _); cbn; intuition congruence.
Qed.

(** Whether all steps are small, computed. *)
Lemma small_steps_check field :
  forallb (fun part => match cut "/" part with
                       | Some (_, t) => match atoi t with Some n => n <=? 2 ^ 62 | None => true end
                       | None => true end) (split "," field) = true ->
  small_steps field.
Proof.
  intros H part f n Hin Hp%read_part_iff. rewrite forallb_forall in H. specialize (H _ Hin). unfold read_part in Hp.
  destruct (cut "/" part) as [[r t]|]; [|by destruct (read_form part)]. destruct (read_form r); [|done].
  destruct (atoi t) as [k|]; [|done]. injection Hp as _ <-. lia.
Qed.

(** "5/15" runs in the minutes 5, 20, 35 and 50. *)
Definition demo_spec : CronSpec :=
  match ParseCron "5/15 8-10,22 1 * 7" with Ok s => s | Err _ => mkCronSpec 0 0 0 0 0 false false end.
Lemma cron_matches_vixie_witness :
  Matches demo_spec (mkCivil 50 22 5 6 0) = true /\ vixie_due "5/15" "8-10,22" "1" "*" "7" (mkCivil 50 22 5 6 0).
Proof.
  split; [vm_compute; reflexivity|].
  pose proof (cron_matches_vixie "5/15 8-10,22 1 * 7" "5/15" "8-10,22" "1" "*" "7" eq_refl
    (small_steps_check "5/15" eq_refl) (small_steps_check "8-10,22" eq_refl) (small_steps_check "1" eq_refl)
    (small_steps_check "*" eq_refl) (small_steps_check "7" eq_refl)) as H.
  assert (E : ParseCron "5/15 8-10,22 1 * 7" = Ok demo_spec) by (vm_compute; reflexivity).
  rewrite E in H. apply H; [|vm_compute; reflexivity]. vm_compute. repeat split; discriminate.
Defined.

(** Parsing a schedule always ends: the loop over the values of a part stops
    for every step an [int] can hold, also where the addition overflows. *)
Theorem parse_cron_terminates expr : ParseCron expr <> Err LoopFuel.
Proof.
  unfold ParseCron. destruct (fields _) as [|f0 [|f1 [|f2 [|f3 [|f4 [|]]]]]]; try done.
  assert (Hp : forall f min max, 0 <= min -> 0 <= max < 64 -> parseCronField f min max <> Err LoopFuel)
    by (intros; apply parse_parts_fuel; lia).
  pose proof (Hp f0 0 59). pose proof (Hp f1 0 23). pose proof (Hp f2 1 31).
  pose proof (Hp f3 1 12). pose proof (Hp f4 0 7).
  destruct (parseCronField f0 0 59) as [|e0]; [|intros [= ->]; apply H; (done || lia)].
  destruct (parseCronField f1 0 23) as [|e1]; [|intros [= ->]; apply H0; (done || lia)].
  destruct (parseCronField f2 1 31) as [|e2]; [|intros [= ->]; apply H1; (done || lia)].
  destruct (parseCronField f3 1 12) as [|e3]; [|intros [= ->]; apply H2; (done || lia)].
  destruct (parseCronField f4 0 7) as [|e4]; [done|intros [= ->]; apply H3; (done || lia)].
Qed.

(** the bound on the steps in the reading above is needed.  The addition of
    a huge step wraps around, so a schedule the validator accepts runs in minutes
    it does not name: "5/9223372036854775807" also in minutes 3 and 1. *)
Theorem huge_step_wraps :
  ValidateCronExpr "5/9223372036854775807 * * * *" = None /\
  match ParseCron "5/9223372036854775807 * * * *" with
  | Ok spec => forall t, civil_ok t ->
      Matches spec t = ((Minute t =? 1) || (Minute t =? 3) || (Minute t =? 5))
  | Err _ => False
  end.
Proof.
  split; [reflexivity|].
  destruct (ParseCron _) as [spec|] eqn:E; [|by vm_compute in E].
  assert (Hs : spec = mkCronSpec 42 16777215 4294967294 8190 255 true true)
    by (vm_compute in E; congruence). subst spec. clear E.
  intros t (T0 & T1 & T2 & T3 & T4). unfold Matches. cbn [minute hour dom month dow domStar dowStar].
  assert (Ht : forall bits lo hi v, forallb (fun i => in_set bits i) (map Z.of_nat (seq lo hi)) = true ->
             Z.of_nat lo <= v < Z.of_nat lo + Z.of_nat hi -> in_set bits v = true).
  { intros bits lo hi v H Hv. rewrite forallb_forall in H. apply H, in_map_iff.
    exists (Z.to_nat v). split; [lia|]. apply in_seq. lia. }
  rewrite (Ht 16777215 0%nat 24%nat), (Ht 8190 1%nat 12%nat), (Ht 4294967294 1%nat 31%nat),
    (Ht 255 0%nat 7%nat) by (reflexivity || lia).
  rewrite in_set_testbit by lia.
  assert (Hm : forallb (fun i => Bool.eqb (Z.testbit 42 i) ((i =? 1) || (i =? 3) || (i =? 5)))
                 (map Z.of_nat (seq 0 60)) = true) by reflexivity.
  rewrite forallb_forall in Hm. specialize (Hm (Minute t)).
  rewrite eqb_true_iff in Hm. rewrite Hm; [by destruct (_ || _)|].
  apply in_map_iff. exists (Z.to_nat (Minute t)). split; [lia|]. apply in_seq. lia.
Qed.
