(* ===== verification/Cfg.v ===== *)
(** * LinuxGSM config files (backend/lgsmcfg.go, backend/alerts.go, backend/server_files.go)

    LinuxGSM sources these files with bash.  This file models how the dashboard
    reads assignments and their values, how it replaces, adds and removes them
    line by line, how it quotes values and masks secrets, and proves that what
    was written is what is read, and that other settings stay as they are. *)

From Stdlib Require Import ZArith Lia Bool String Ascii List.
From stdpp Require Import base gmap strings list.
From S2P Require Import Prelude GoStrings Validate Cron.

Definition cr : string := of_bytes [chr 13].
Definition lf : ascii := chr 10.
Definition dq : string := of_bytes [chr 34].

(** ** Reading *)

(** [\s] of a Go regular expression. *)
Definition re_space (c : ascii) : bool := existsb (Z.eqb (code c)) [9; 10; 12; 13; 32].
Definition ident_start (c : ascii) : bool := is_lower c || is_upper c || one_of "_" c.
Definition ident_char (c : ascii) : bool := ident_start c || is_digit c.

Fixpoint span (f : ascii -> bool) (l : bytes) : bytes * bytes :=
  match l with
  | c :: r => if f c then let '(a, b) := span f r in (c :: a, b) else ([], l)
  | [] => ([], [])
  end.

(** The pattern of an assignment on one line: leading white space, an identifier,
    [=] and the rest of the line.  The result is the key and the right-hand side. *)
Definition reCfgAssignment (line : string) : option (string * string) :=
  match ldrop_while re_space (to_bytes line) with
  | c :: r =>
      if ident_start c then
        match span ident_char r with
        | (id, e :: v) => if Ascii.eqb e "=" then Some (of_bytes (c :: id), of_bytes v) else None
        | (_, []) => None
        end
      else None
  | [] => None
  end.

(** The assignment on a line of a file, whose line end may be CR LF. *)
Definition assignment (line : string) : option (string * string) := reCfgAssignment (trim_right line cr).

(** The text between double quotes, with the escapes bash knows there. *)
Fixpoint dq_text (l : bytes) : bytes :=
  match l with
  | [] => []
  | c :: r =>
      match r with
      | d :: r' => if Ascii.eqb c "\" && existsb (Z.eqb (code d)) [34; 92; 36; 96] then d :: dq_text r'
                   else if code c =? 34 then [] else c :: dq_text r
      | [] => if code c =? 34 then [] else [c]
      end
  end.

Definition cfgValue (raw : string) : string :=
  match to_bytes (trim_space raw) with
  | [] => ""
  | c :: r =>
      of_bytes
        (if code c =? 34 then dq_text r
         else if code c =? 39 then fst (span (fun x => negb (code x =? 39)) r)
         else fst (span (fun x => negb (existsb (Z.eqb (code x)) [32; 9; 35; 59])) (c :: r)))
  end.

Definition add_value (m : gmap string string) (line : string) : gmap string string :=
  match assignment line with
  | Some (k, v) => <[k := cfgValue v]> m
  | None => m
  end.
Definition cfgValues (content : string) : gmap string string := fold_left add_value (split lf content) ∅.

(** The merge of [lgsmCfgValues]: the files in LinuxGSM's load order, [None] for
    one that cannot be read. *)
Definition merge_values (files : list (option string)) : gmap string string :=
  fold_left (fun m f => match f with Some content => cfgValues content ∪ m | None => m end) files ∅.

(** ** Writing plain values ([updateCfgLines]) *)

Definition plain_line (key val : string) : string := key +:+ "=" +:+ dq +:+ val +:+ dq.

Fixpoint update_lines (values : gmap string string) (keepEmpty : bool) (lines : list string) (seen : gset string)
    : list string * gset string :=
  match lines with
  | [] => ([], seen)
  | line :: r =>
      match assignment line with
      | None => let '(out, s) := update_lines values keepEmpty r seen in (line :: out, s)
      | Some (k, _) =>
          match values !! k with
          | None => let '(out, s) := update_lines values keepEmpty r seen in (line :: out, s)
          | Some val =>
              if bool_decide (k ∈ seen) || (String.eqb val "" && negb keepEmpty)
              then update_lines values keepEmpty r seen
              else let '(out, s) := update_lines values keepEmpty r ({[k]} ∪ seen) in
                   (plain_line k val :: out, s)
          end
      end
  end.

(** Drops lines at the end for which [blank] holds. *)
Fixpoint drop_while (blank : string -> bool) (l : list string) : list string :=
  match l with x :: r => if blank x then drop_while blank r else l | [] => [] end.
Definition drop_last_while (blank : string -> bool) (lines : list string) : list string :=
  rev (drop_while blank (rev lines)).

Definition updateCfgLines (content : string) (values : gmap string string) (order : list string)
    (keepEmpty appendMissing : bool) : string :=
  let '(out, seen) := update_lines values keepEmpty (split lf content) ∅ in
  if appendMissing then
    let added := flat_map (fun key =>
      match values !! key with
      | Some val => if negb (bool_decide (key ∈ seen)) && (negb (String.eqb val "") || keepEmpty)
                    then [plain_line key val] else []
      | None => []
      end) order in
    join (byte_str lf) (drop_last_while (String.eqb "") out ++ added)%list +:+ byte_str lf
  else join (byte_str lf) out.

(** ** Writing quoted values ([applyCfgChanges]) *)

Definition dq_special (c : ascii) : bool := existsb (Z.eqb (code c)) [34; 92; 36; 96].
Definition bashDoubleQuote (s : string) : string :=
  dq +:+ of_bytes (flat_map (fun c => if dq_special c then ["\"%char; c] else [c]) (to_bytes s)) +:+ dq.
Definition quoted_line (key val : string) : string := key +:+ "=" +:+ bashDoubleQuote val.

(** The loop over the lines of a file.  [changes]: [Some v] sets a key, [None]
    removes it; [render] writes the new line. *)
Fixpoint replace_lines (render : string -> string -> string) (changes : gmap string (option string))
    (lines : list string) (done : gset string) : list string * gset string :=
  match lines with
  | [] => ([], done)
  | line :: r =>
      match assignment line with
      | None => let '(out, d) := replace_lines render changes r done in (line :: out, d)
      | Some (k, _) =>
          match changes !! k with
          | None => let '(out, d) := replace_lines render changes r done in (line :: out, d)
          | Some None => replace_lines render changes r done
          | Some (Some v) =>
              if bool_decide (k ∈ done) then replace_lines render changes r done
              else let '(out, d) := replace_lines render changes r ({[k]} ∪ done) in (render k v :: out, d)
          end
      end
  end.
Definition change_lines : gmap string (option string) -> list string -> gset string -> list string * gset string :=
  replace_lines quoted_line.

(** [sort.Strings]: byte order. *)
Fixpoint insert_sorted (s : string) (l : list string) : list string :=
  match l with
  | [] => [s]
  | x :: r => if String.leb s x then s :: l else x :: insert_sorted s r
  end.
Definition sort_strings (l : list string) : list string := fold_right insert_sorted [] l.

(** The lines for keys the file does not have yet; Go iterates in any order and sorts. *)
Definition added_lines (changes : gmap string (option string)) (done : gset string) : list string :=
  sort_strings (omap (fun p : string * option string =>
    match p with
    | (k, Some v) => if bool_decide (k ∈ done) then None else Some (quoted_line k v)
    | (_, None) => None
    end) (map_to_list changes)).

Definition applyCfgChanges (content : string) (changes : gmap string (option string)) : string :=
  if bool_decide (changes = ∅) then content else
  let '(out, done) := change_lines changes (split lf content) ∅ in
  match added_lines changes done with
  | [] => join (byte_str lf) out
  | add => join (byte_str lf) (drop_last_while (fun l => String.eqb (trim_space l) "") out ++ add)%list
           +:+ byte_str lf
  end.

(** ** Raw values ([cfgRawValues], [setCfgRawValues]) *)

(** Right-hand sides with their quotes, and the keys in the order they first appear. *)
Definition add_raw (st : gmap string string * list string) (line : string) : gmap string string * list string :=
  let '(values, order) := st in
  match assignment line with
  | None => st
  | Some (k, v) =>
      (<[k := trim_space v]> values, match values !! k with Some _ => order | None => order ++ [k] end)%list
  end.
Definition cfgRawValues (content : string) : gmap string string * list string :=
  fold_left add_raw (split lf content) (∅, []).

Definition raw_line (values : gmap string string) (line : string) : string :=
  match assignment line with
  | Some (k, _) => match values !! k with Some val => k +:+ "=" +:+ val | None => line end
  | None => line
  end.
Definition raw_updated (values : gmap string string) (lines : list string) : gset string :=
  list_to_set (omap (fun line => match assignment line with
    | Some (k, _) => match values !! k with Some _ => Some k | None => None end
    | None => None end) lines).
Definition drop_last_empty (lines : list string) : list string :=
  match rev lines with x :: r => if String.eqb x "" then rev r else lines | [] => [] end.
Definition setCfgRawValues (content : string) (values : gmap string string) (order : list string) : string :=
  let lines := split lf content in
  let updated := raw_updated values lines in
  let kept := drop_last_empty (map (raw_line values) lines) in
  let added := omap (fun key => if bool_decide (key ∈ updated) then None
                                else Some (key +:+ "=" +:+ default "" (values !! key))) order in
  join (byte_str lf) (kept ++ added)%list +:+ byte_str lf.

(** ** Alert settings and the stop mode *)

Record AlertField := mkField { f_Key : string; f_Secret : bool; f_Switch : bool }.
Definition onOffField (key : string) : AlertField := mkField key false true.
Definition textField (key : string) : AlertField := mkField key false false.
Definition secretField (key : string) : AlertField := mkField key true false.

Definition AlertServices : list (string * list AlertField) :=
  [("general", [onOffField "statusalert"; onOffField "postalert"; textField "displayip"]);
   ("discord", [onOffField "discordalert"; secretField "discordwebhook"]);
   ("email", [onOffField "emailalert"; textField "email"; textField "emailfrom"]);
   ("gotify", [onOffField "gotifyalert"; secretField "gotifytoken"; secretField "gotifywebhook"]);
   ("ifttt", [onOffField "iftttalert"; secretField "ifttttoken"; textField "iftttevent"]);
   ("matrix", [onOffField "matrixalert"; textField "matrixhomeserver"; secretField "matrixtoken"; textField "matrixroom"]);
   ("ntfy", [onOffField "ntfyalert"; textField "ntfyserver"; textField "ntfytopic"; secretField "ntfytoken";
             textField "ntfyusername"; secretField "ntfypassword"; textField "ntfypriority"; textField "ntfytags"]);
   ("pushbullet", [onOffField "pushbulletalert"; secretField "pushbullettoken"; textField "channeltag"]);
   ("pushover", [onOffField "pushoveralert"; secretField "pushovertoken"; secretField "pushoveruserkey"]);
   ("rocketchat", [onOffField "rocketchatalert"; secretField "rocketchatwebhook"]);
   ("slack", [onOffField "slackalert"; secretField "slackwebhook"]);
   ("telegram", [onOffField "telegramalert"; secretField "telegramtoken"; textField "telegramchatid";
                 textField "telegramthreadid"; textField "telegramapi"])].

Definition alertField (key : string) : option AlertField :=
  List.find (fun f => String.eqb (f_Key f) key) (flat_map snd AlertServices).

Definition SecretMask : string := "********".

(** The value of one setting in the answer of [GetAlertSettings]. *)
Definition masked_value (key v : string) : string :=
  match alertField key with
  | Some f => if f_Secret f && negb (String.eqb v "") then SecretMask else v
  | None => v
  end.

Definition IsValidStopMode (mode : string) : bool :=
  String.eqb mode "" || String.eqb mode "default" || isIntInRange mode 1 16.

Example cfg_value_examples :
  map cfgValue [dq +:+ "a b" +:+ dq +:+ " # c"; "'x y'z"; "plain # c"; dq +:+ "\\ \n" +:+ dq; " 5;"]
  = ["a b"; "x y"; "plain"; "\ \n"; "5"].
Proof. reflexivity. Qed.

(** ** Lemmas: quoting *)

Definition no_lf (s : string) : Prop := contains_byte s lf = false.
Definition is_ident (k : string) : bool :=
  match to_bytes k with c :: r => ident_start c && forallb ident_char r | [] => false end.

Lemma dq_text_quoted l : dq_text (flat_map (fun c => if dq_special c then ["\"%char; c] else [c]) l ++ [chr 34])%list = l.
Proof.
  induction l as [|c l IH]; [done|]. cbn [flat_map].
  destruct (dq_special c) eqn:E.
  - cbn [app dq_text]. unfold dq_special in E. rewrite E. simpl. by rewrite IH.
  - cbn [app]. assert (Hb : Ascii.eqb c "\" = false) by (apply Ascii.eqb_neq; intros ->; done).
    assert (Hq : (code c =? 34) = false) by (unfold dq_special in E; simpl in E; lia).
    cbn [dq_text]. rewrite Hb, Hq. cbn [andb].
    destruct (flat_map _ l ++ [chr 34])%list as [|d r] eqn:Er; [by destruct (flat_map _ l)|].
    by rewrite IH.
Qed.

Lemma dq_text_safe l :
  forallb (fun c => negb (cfg_unsafe c)) l = true -> dq_text (l ++ [chr 34])%list = l.
Proof.
  induction l as [|c l IH]; [done|]. cbn [forallb]. intros [Hc Hl]%andb_true_iff.
  cbn [app dq_text]. unfold cfg_unsafe in Hc. simpl in Hc.
  assert (Hb : Ascii.eqb c "\" = false) by (apply Ascii.eqb_neq; intros ->; done).
  assert (Hq : (code c =? 34) = false) by lia. rewrite Hb, Hq. cbn [andb].
  destruct (l ++ [chr 34])%list as [|d r] eqn:Er; [by destruct l|]. by rewrite IH.
Qed.

Lemma cfgValue_quotes t v :
  dq_text (to_bytes t ++ [chr 34])%list = to_bytes v -> cfgValue (dq +:+ t +:+ dq) = v.
Proof.
  intros H. unfold cfgValue, trim_space.
  assert (He : to_bytes (dq +:+ t +:+ dq) = (chr 34 :: to_bytes t ++ [chr 34])%list)
    by (by rewrite !to_bytes_app).
  rewrite He, trim_space_plain, to_of_bytes by done. simpl. rewrite H. apply of_to_bytes.
Qed.

Lemma cfgValue_bashDoubleQuote v : cfgValue (bashDoubleQuote v) = v.
Proof. apply cfgValue_quotes. rewrite to_of_bytes. apply dq_text_quoted. Qed.

Lemma cfgValue_safe v : IsSafeCfgValue v = true -> cfgValue (dq +:+ v +:+ dq) = v.
Proof.
  unfold IsSafeCfgValue. destruct (2048 <? slen v); [done|]. intros Hs.
  apply negb_true_iff, sany_false_sall in Hs. apply cfgValue_quotes, dq_text_safe. exact Hs.
Qed.

(** ** Lemmas: assignments *)

Lemma span_all f l e r : forallb f l = true -> f e = false -> span f (l ++ e :: r)%list = (l, e :: r).
Proof. intros Hl He. induction l as [|c l IH]; simpl in *; [by rewrite He|]. to_prop. by rewrite H, IH. Qed.

Lemma span_spec f l a b : span f l = (a, b) -> l = (a ++ b)%list /\ forallb f a = true.
Proof.
  revert a b. induction l as [|c l IH]; simpl; intros a b.
  - by intros [= <- <-].
  - destruct (f c) eqn:E; [|by intros [= <- <-]]. destruct (span f l) as [a' b']. intros [= <- <-].
    destruct (IH _ _ eq_refl) as [-> H]. simpl. by rewrite E.
Qed.

Lemma assignment_ident line k v : assignment line = Some (k, v) -> is_ident k = true /\ In "="%char (to_bytes line).
Proof.
  unfold assignment, reCfgAssignment. destruct (ldrop_while re_space _) as [|c r] eqn:E; [done|].
  destruct (ident_start c) eqn:Ec; [|done]. destruct (span ident_char r) as [id rest] eqn:Es.
  apply span_spec in Es as [Hr Hid]. destruct rest as [|e w]; [done|].
  destruct (Ascii.eqb_spec e "=") as [->|]; [|done]. intros H.
  assert (k = of_bytes (c :: id)) as -> by congruence. split.
  - unfold is_ident. rewrite to_of_bytes. by rewrite Ec, Hid.
  - apply (trim_right_In _ cr), (ldrop_while_In re_space). rewrite E, Hr. right. apply in_app_iff. right. by left.
Qed.

Lemma ident_no_space c : ident_start c = true -> re_space c = false.
Proof.
  unfold ident_start, re_space, is_lower, is_upper, between, one_of. simpl.
  destruct (Ascii.eqb_spec c "_") as [->|]; [done|]. lia.
Qed.

Lemma assignment_key_value k t :
  is_ident k = true -> assignment (k +:+ "=" +:+ dq +:+ t +:+ dq) = Some (k, dq +:+ t +:+ dq).
Proof.
  intros Hk. unfold assignment, reCfgAssignment, cr.
  assert (Hl : trim_right (k +:+ "=" +:+ dq +:+ t +:+ dq) (of_bytes [chr 13]) = k +:+ "=" +:+ dq +:+ t +:+ dq).
  { assert (He : k +:+ "=" +:+ dq +:+ t +:+ dq = (k +:+ "=" +:+ dq +:+ t) +:+ byte_str (chr 34))
      by (by rewrite !string_app_assoc).
    rewrite He. by apply trim_right_last. }
  rewrite Hl, to_bytes_app. unfold is_ident in Hk. destruct (to_bytes k) as [|c r] eqn:E; [done|].
  apply andb_true_iff in Hk as [Hc Hr]. cbn [app ldrop_while]. rewrite ident_no_space by done.
  rewrite Hc. change (to_bytes ("=" +:+ dq +:+ t +:+ dq)) with ("="%char :: to_bytes (dq +:+ t +:+ dq)).
  rewrite span_all by done. rewrite Ascii.eqb_refl, of_to_bytes, <- E, of_to_bytes. reflexivity.
Qed.

(** ** Lemmas: the last assignment of a key *)

Definition sets (k line : string) : option string :=
  match assignment line with
  | Some (k', v) => if String.eqb k' k then Some (cfgValue v) else None
  | None => None
  end.
Definition later (acc : option string) (o : option string) : option string :=
  match o with Some v => Some v | None => acc end.
(** The value of [k] after the lines, [acc] before them. *)
Definition last_value (k : string) (acc : option string) (lines : list string) : option string :=
  fold_left (fun acc line => later acc (sets k line)) lines acc.

Lemma last_value_app k acc a b : last_value k acc (a ++ b)%list = last_value k (last_value k acc a) b.
Proof. apply fold_left_app. Qed.

Lemma add_value_lookup m line k : add_value m line !! k = later (m !! k) (sets k line).
Proof.
  unfold add_value, sets. destruct (assignment line) as [[k' v]|]; [|done].
  destruct (String.eqb_spec k' k) as [->|]; [apply lookup_insert_eq|by apply lookup_insert_ne].
Qed.

Lemma fold_values_lookup lines m k : fold_left add_value lines m !! k = last_value k (m !! k) lines.
Proof.
  revert m. induction lines as [|l r IH]; intros m; simpl; [done|]. by rewrite IH, add_value_lookup.
Qed.

Lemma cfgValues_lookup content k : cfgValues content !! k = last_value k None (split lf content).
Proof. unfold cfgValues. by rewrite fold_values_lookup, lookup_empty. Qed.

Lemma last_value_none k acc lines : Forall (fun l => sets k l = None) lines -> last_value k acc lines = acc.
Proof. intros H. revert acc. induction H as [|l r Hl _ IH]; intros acc; simpl; [done|]. by rewrite Hl, IH. Qed.

Lemma last_value_all k acc v lines :
  Forall (fun l => sets k l = None \/ sets k l = Some v) lines -> Exists (fun l => sets k l = Some v) lines ->
  last_value k acc lines = Some v.
Proof.
  intros Ha. revert acc. induction Ha as [|l r Hl Hr IH]; intros acc He; [by inversion He|]. simpl.
  destruct (decide (Exists (fun l => sets k l = Some v) r)) as [Hd|Hd]; [by apply IH|].
  inversion He as [? ? Hs|]; subst; [|done]. rewrite Hs. apply last_value_none.
  apply Forall_forall. intros x Hx. rewrite Forall_forall in Hr. destruct (Hr x Hx) as [|Hx2]; [done|].
  exfalso. apply Hd, Exists_exists. eauto.
Qed.

Lemma sets_quoted k v k' : is_ident k = true -> sets k' (quoted_line k v) = if String.eqb k k' then Some v else None.
Proof.
  intros Hk. unfold sets, quoted_line, bashDoubleQuote. rewrite assignment_key_value by done.
  fold (bashDoubleQuote v). by rewrite cfgValue_bashDoubleQuote.
Qed.

Lemma sets_plain k v k' :
  is_ident k = true -> IsSafeCfgValue v = true ->
  sets k' (plain_line k v) = if String.eqb k k' then Some v else None.
Proof.
  intros Hk Hv. unfold sets, plain_line. rewrite assignment_key_value by done. by rewrite cfgValue_safe.
Qed.

Lemma sets_blank k line : trim_space line = "" -> sets k line = None.
Proof.
  intros Hb. unfold sets. destruct (assignment line) as [[k' v]|] eqn:E; [|done].
  apply assignment_ident in E as [_ Hin]. by apply trim_space_empty in Hin.
Qed.

Lemma drop_last_while_spec blank lines :
  exists tail, lines = (drop_last_while blank lines ++ tail)%list /\ Forall (fun l => blank l = true) tail.
Proof.
  assert (H : forall r, exists tail, rev r = (rev (drop_while blank r) ++ tail)%list
                       /\ Forall (fun l => blank l = true) tail).
  { induction r as [|x r (tail & Ht & Hf)]; [by exists []|]. simpl.
    destruct (blank x) eqn:E; [|by exists []; rewrite app_nil_r].
    exists (tail ++ [x])%list. rewrite Ht. split; [by rewrite app_assoc|].
    apply Forall_app. split; [done|by constructor]. }
  destruct (H (rev lines)) as (tail & Ht & Hf). rewrite rev_involutive in Ht. by exists tail.
Qed.

Lemma last_value_drop_blank k acc blank lines :
  (forall l, blank l = true -> trim_space l = "") ->
  last_value k acc (drop_last_while blank lines) = last_value k acc lines.
Proof.
  intros Hb. destruct (drop_last_while_spec blank lines) as (tail & Ht & Hf).
  rewrite Ht at 2. rewrite last_value_app, (last_value_none _ _ tail); [done|].
  eapply Forall_impl; [exact Hf|]. intros l Hl. by apply sets_blank, Hb.
Qed.

Lemma Forall_drop_last (P : string -> Prop) blank lines : Forall P lines -> Forall P (drop_last_while blank lines).
Proof.
  destruct (drop_last_while_spec blank lines) as (tail & Ht & _). intros H. rewrite Ht in H.
  by apply Forall_app in H as [? _].
Qed.

(** ** Lemmas: lines and files *)

Lemma split_no_lf content : Forall no_lf (split lf content).
Proof.
  unfold split. apply Forall_map. eapply Forall_impl; [apply lsplit_pieces|]. intros w Hw.
  unfold no_lf. apply contains_byte_false. by rewrite to_of_bytes.
Qed.

Lemma values_join lines k :
  Forall no_lf lines -> cfgValues (join (byte_str lf) lines) !! k = last_value k None lines.
Proof.
  intros Hl. rewrite cfgValues_lookup. destruct lines as [|l r]; [done|]. by rewrite split_join.
Qed.

Lemma values_join_nl lines k :
  Forall no_lf lines -> cfgValues (join (byte_str lf) lines +:+ byte_str lf) !! k = last_value k None lines.
Proof.
  intros Hl. destruct lines as [|l r]; [by rewrite cfgValues_lookup|].
  assert (He : join (byte_str lf) (l :: r) +:+ byte_str lf = join (byte_str lf) ((l :: r) ++ [""])%list).
  { rewrite join_snoc by done. by rewrite string_app_nil_r. }
  rewrite He, values_join; [|by apply Forall_app; split; [|repeat constructor]].
  rewrite last_value_app. simpl. unfold sets. by simpl.
Qed.

(** ** Lemmas: replacing lines *)

Lemma sets_other k line k' v : assignment line = Some (k', v) -> k' <> k -> sets k line = None.
Proof. intros H Hne. unfold sets. rewrite H. by apply String.eqb_neq in Hne as ->. Qed.
Lemma sets_no_assignment k line : assignment line = None -> sets k line = None.
Proof. intros H. unfold sets. by rewrite H. Qed.

Definition renders (render : string -> string -> string) (ch : gmap string (option string)) : Prop :=
  forall k v k', ch !! k = Some (Some v) -> is_ident k = true ->
    sets k' (render k v) = if String.eqb k k' then Some v else None.

Lemma replace_lines_spec render ch k lines : renders render ch -> forall done acc out d,
  replace_lines render ch lines done = (out, d) ->
  done ⊆ d /\
  last_value k acc out =
    match ch !! k with
    | None => last_value k acc lines
    | Some None => acc
    | Some (Some v) => if decide (k ∈ done) then acc else if decide (k ∈ d) then Some v else acc
    end.
Proof.
  intros Hren. induction lines as [|line r IH]; intros done acc out d; cbn [replace_lines].
  { intros [= <- <-]. split; [done|]. destruct (ch !! k) as [[v|]|]; [|done..].
    by destruct (decide (k ∈ done)). }
  destruct (assignment line) as [[k0 w]|] eqn:Ea.
  2:{ destruct (replace_lines render ch r done) as [o s] eqn:E. intros [= <- <-].
      cbn [last_value fold_left]. rewrite sets_no_assignment by done. by eapply IH. }
  pose proof (assignment_ident _ _ _ Ea) as [Hid _].
  destruct (ch !! k0) as [[v|]|] eqn:Ec.
  - case_bool_decide as Hd.
    + intros H. destruct (IH _ acc _ _ H) as [Hs He]. split; [done|]. rewrite He.
      destruct (decide (k0 = k)) as [->|Hne]; [by rewrite Ec|].
      cbn [last_value fold_left]. by rewrite (sets_other _ _ _ _ Ea Hne).
    + destruct (replace_lines render ch r _) as [o s] eqn:E. intros [= <- <-].
      cbn [last_value fold_left]. rewrite Hren by done.
      destruct (String.eqb_spec k0 k) as [->|Hne]; cbn [later].
      * destruct (IH _ (Some v) _ _ E) as [Hs He]. clear IH. split; [set_solver|]. fold (last_value k (Some v) o).
        rewrite He, Ec, decide_True, decide_False, decide_True by set_solver. done.
      * destruct (IH _ acc _ _ E) as [Hs He]. clear IH. split; [set_solver|]. fold (last_value k acc o). rewrite He.
        rewrite (sets_other _ _ _ _ Ea Hne). destruct (ch !! k) as [[v'|]|]; [|done..].
        destruct (decide (k ∈ done)); [rewrite decide_True by set_solver; done|].
        rewrite decide_False by (clear - n Hne; set_solver). done.
  - intros H. destruct (IH _ acc _ _ H) as [Hs He]. split; [done|]. rewrite He.
    destruct (decide (k0 = k)) as [->|Hne]; [by rewrite Ec|].
    cbn [last_value fold_left]. by rewrite (sets_other _ _ _ _ Ea Hne).
  - destruct (replace_lines render ch r done) as [o s] eqn:E. intros [= <- <-].
    cbn [last_value fold_left]. destruct (decide (k0 = k)) as [->|Hne].
    + destruct (IH _ (later acc (sets k line)) _ _ E) as [Hs He]. rewrite Ec in He |- *. done.
    + rewrite (sets_other _ _ _ _ Ea Hne). by eapply IH.
Qed.

Lemma no_lf_app s t : no_lf s -> no_lf t -> no_lf (s +:+ t).
Proof.
  unfold no_lf. rewrite !contains_byte_false, to_bytes_app. intros H1 H2 [?|?]%in_app_iff; auto.
Qed.

Lemma ident_no_lf k : is_ident k = true -> no_lf k.
Proof.
  unfold is_ident, no_lf. rewrite contains_byte_false. destruct (to_bytes k) as [|c r]; [done|].
  intros [Hc Hr]%andb_true_iff [->|Hin]; [done|]. rewrite forallb_forall in Hr. by specialize (Hr _ Hin).
Qed.

Lemma quoted_no_lf k v : is_ident k = true -> no_lf v -> no_lf (quoted_line k v).
Proof.
  intros Hk Hv. unfold quoted_line, bashDoubleQuote. repeat apply no_lf_app; try done; [by apply ident_no_lf|].
  unfold no_lf in *. rewrite contains_byte_false in *. rewrite to_of_bytes. intros Hin.
  apply in_flat_map in Hin as (c & Hc & Hin). destruct (dq_special c).
  - destruct Hin as [Hl|[->|[]]]; [done|auto].
  - destruct Hin as [->|[]]; auto.
Qed.

Lemma replace_lines_no_lf render ch lines :
  (forall k v, ch !! k = Some (Some v) -> is_ident k = true -> no_lf (render k v)) -> Forall no_lf lines ->
  forall done, Forall no_lf (fst (replace_lines render ch lines done)).
Proof.
  intros Hc. induction 1 as [|line r Hl _ IH]; intros done; cbn [replace_lines]; [constructor|].
  destruct (assignment line) as [[k w]|] eqn:Ea.
  2:{ specialize (IH done). destruct (replace_lines _ ch r done). by constructor. }
  destruct (ch !! k) as [[v|]|] eqn:Ek; [|done|].
  - case_bool_decide; [done|]. specialize (IH ({[k]} ∪ done)).
    destruct (replace_lines _ ch r _). constructor; [|done].
    apply Hc; [done|]. by apply assignment_ident in Ea as [].
  - specialize (IH done). destruct (replace_lines _ ch r done). by constructor.
Qed.

Lemma insert_sorted_perm s l : insert_sorted s l ≡ₚ s :: l.
Proof.
  induction l as [|x l IH]; simpl; [done|]. destruct (String.leb s x); [done|].
  rewrite IH. apply Permutation_swap.
Qed.
Lemma sort_strings_perm l : sort_strings l ≡ₚ l.
Proof. induction l as [|x l IH]; simpl; [done|]. by rewrite insert_sorted_perm, IH. Qed.

Lemma added_lines_elem ch done l :
  l ∈ added_lines ch done <-> exists k v, ch !! k = Some (Some v) /\ (k ∉ done) /\ l = quoted_line k v.
Proof.
  unfold added_lines. rewrite sort_strings_perm, list_elem_of_omap. split.
  - intros ([k [v|]] & Hin & Hl); [|done]. case_bool_decide; [done|]. injection Hl as <-.
    apply elem_of_map_to_list in Hin. by exists k, v.
  - intros (k & v & Hk & Hd & ->). exists (k, Some v). rewrite elem_of_map_to_list.
    split; [done|]. by rewrite bool_decide_eq_false_2.
Qed.

(** The added lines set exactly the keys that are missing. *)
Lemma added_lines_value ch done k acc :
  (forall k v, ch !! k = Some (Some v) -> is_ident k = true) ->
  last_value k acc (added_lines ch done) =
    (match ch !! k with
     | Some (Some v) => if decide (k ∈ done) then acc else Some v
     | _ => acc
     end).
Proof.
  intros Hid.
  assert (Hs : forall l, l ∈ added_lines ch done -> sets k l = None \/
             (exists v, ch !! k = Some (Some v) /\ (k ∉ done) /\ sets k l = Some v)).
  { intros l (k' & v & Hk' & Hd & ->)%added_lines_elem. rewrite sets_quoted by eauto.
    destruct (String.eqb_spec k' k) as [->|]; [right; by exists v|by left]. }
  assert (Hnone : (forall v, ch !! k = Some (Some v) -> k ∈ done) ->
                  last_value k acc (added_lines ch done) = acc).
  { intros Hn. apply last_value_none, Forall_forall. intros l Hl.
    destruct (Hs l Hl) as [|(v & Hv & Hd & _)]; [done|]. by apply Hn in Hv. }
  destruct (ch !! k) as [[v|]|] eqn:Ek; [|by apply Hnone..].
  destruct (decide (k ∈ done)) as [Hd|Hd]; [by apply Hnone|].
  apply last_value_all.
  - apply Forall_forall. intros l Hl. destruct (Hs l Hl) as [|(v' & Hv & _ & ?)]; [by left|right; congruence].
  - apply Exists_exists. exists (quoted_line k v). split; [apply added_lines_elem; eauto|].
    rewrite sets_quoted by eauto. by rewrite String.eqb_refl.
Qed.

(** * Properties *)

(** The changes [updateCfgLines] makes: an empty value removes the key. *)
Definition effective (values : gmap string string) (keepEmpty : bool) : gmap string (option string) :=
  (fun v => if String.eqb v "" && negb keepEmpty then None else Some v) <$> values.

Lemma update_lines_replace values keep lines seen :
  update_lines values keep lines seen = replace_lines plain_line (effective values keep) lines seen.
Proof.
  revert seen. induction lines as [|line r IH]; intros seen; cbn [update_lines replace_lines]; [done|].
  destruct (assignment line) as [[k w]|]; [|by rewrite IH]. unfold effective. rewrite lookup_fmap.
  destruct (values !! k) as [v|]; simpl; [|by rewrite IH].
  destruct (String.eqb v "" && negb keep); [by rewrite orb_true_r, IH|].
  rewrite orb_false_r. case_bool_decide; by rewrite IH.
Qed.

Lemma added_plain_value values keep order seen k acc :
  (forall k v, values !! k = Some v -> is_ident k = true /\ IsSafeCfgValue v = true) ->
  last_value k acc (flat_map (fun key =>
      match values !! key with
      | Some val => if negb (bool_decide (key ∈ seen)) && (negb (String.eqb val "") || keep)
                    then [plain_line key val] else []
      | None => []
      end) order) =
    (match effective values keep !! k with
     | Some (Some v) => if decide (k ∈ order /\ k ∉ (seen : gset string)) then Some v else acc
     | _ => acc
     end).
Proof.
  intros Hv. unfold effective. rewrite lookup_fmap. revert acc.
  induction order as [|key r IH]; intros acc; cbn [flat_map].
  { destruct (values !! k) as [v|]; [|done]. simpl. by destruct (String.eqb v "" && negb keep). }
  rewrite last_value_app, IH. clear IH.
  destruct (values !! key) as [v|] eqn:Ek.
  - destruct (Hv _ _ Ek) as [Hid Hsafe].
    destruct (decide (key = k)) as [->|Hne].
    + rewrite Ek. simpl. destruct (String.eqb v "" && negb keep) eqn:Ee.
      * replace (negb (String.eqb v "") || keep) with false by (destruct (String.eqb v ""), keep; done).
        by rewrite andb_false_r.
      * replace (negb (String.eqb v "") || keep) with true by (destruct (String.eqb v ""), keep; done).
        rewrite andb_true_r. case_bool_decide as Hs; cbn [negb].
        -- rewrite !decide_False by tauto. done.
        -- cbn [last_value fold_left]. rewrite sets_plain by done. rewrite String.eqb_refl. cbn [later].
           rewrite (decide_True (P := k ∈ k :: r /\ _)) by (split; [left|done]). by destruct (decide _).
    + assert (Hl : forall l acc, last_value k acc (if l : bool then [plain_line key v] else []) = acc).
      { intros [] a; [|done]. cbn [last_value fold_left]. rewrite sets_plain by done.
        by apply String.eqb_neq in Hne as ->. }
      rewrite Hl. destruct (values !! k) as [v'|]; [|done]. simpl.
      destruct (String.eqb v' "" && negb keep); [done|].
      apply decide_ext. rewrite elem_of_cons. naive_solver.
  - simpl. destruct (values !! k) as [v'|] eqn:Ek'; [|done]. simpl.
    destruct (String.eqb v' "" && negb keep); [done|].
    apply decide_ext. rewrite elem_of_cons. split; [naive_solver|]. intros [[->|?] ?]; [congruence|done].
Qed.

(** what a change of a config file does, for every key: a set key has
    exactly the new value, a removed key has none, and every other key keeps the
    value it had, whatever the file contains. *)
Theorem apply_cfg_changes_lookup content ch k :
  (forall k v, ch !! k = Some (Some v) -> is_ident k = true /\ no_lf v) ->
  cfgValues (applyCfgChanges content ch) !! k =
    match ch !! k with
    | Some (Some v) => Some v
    | Some None => None
    | None => cfgValues content !! k
    end.
Proof.
  intros Hch. unfold applyCfgChanges. case_bool_decide as He; [by rewrite He, lookup_empty|].
  destruct (change_lines ch (split lf content) ∅) as [out d] eqn:E.
  unfold change_lines in E.
  pose proof (replace_lines_spec quoted_line ch k _ (fun k v k' _ => sets_quoted k v k') _ None _ _ E) as [_ Hv].
  pose proof (replace_lines_no_lf quoted_line ch (split lf content)
    (fun k v H Hid => quoted_no_lf k v Hid (proj2 (Hch k v H))) (split_no_lf content) ∅) as Hn.
  rewrite E in Hn. cbn [fst] in Hn.
  pose proof (added_lines_value ch d k (last_value k None out) (fun k v H => proj1 (Hch k v H))) as Ha.
  assert (Hfin : forall X, X = last_value k (last_value k None out) (added_lines ch d) ->
    X = (match ch !! k with Some (Some v) => Some v | Some None => None | None => cfgValues content !! k end)).
  { intros X ->. rewrite Ha, Hv, cfgValues_lookup. destruct (ch !! k) as [[v|]|]; [|done..].
    destruct (decide (k ∈ d)); [|done]. rewrite decide_False by (clear; set_solver). done. }
  destruct (added_lines ch d) as [|a add] eqn:Eadd.
  - apply Hfin. rewrite values_join by done. done.
  - apply Hfin. rewrite values_join_nl.
    + rewrite last_value_app, last_value_drop_blank; [done|].
      intros l Hl. by apply String.eqb_eq in Hl.
    + apply Forall_app. split; [by apply Forall_drop_last|]. rewrite <- Eadd. apply Forall_forall.
      intros l (k' & v & Hk & _ & ->)%added_lines_elem. by apply quoted_no_lf; apply (Hch _ _ Hk).
Qed.

Definition demo_cfg : string :=
  join (byte_str lf) ["# alerts"; "discordalert=" +:+ dq +:+ "off" +:+ dq; "ntfytopic='x'"; "email=me"; ""].
Definition demo_changes : gmap string (option string) :=
  {[ "discordalert" := Some "on"; "email" := None; "ntfytoken" := Some ("a$b" +:+ dq) ]}.
Lemma apply_cfg_changes_lookup_witness :
  cfgValues (applyCfgChanges demo_cfg demo_changes) !! "ntfytopic" = Some "x".
Proof.
  rewrite (apply_cfg_changes_lookup demo_cfg demo_changes "ntfytopic"); [vm_compute; reflexivity|].
  intros k v Hk. unfold demo_changes in Hk.
  apply lookup_insert_Some in Hk as [[<- [= <-]]|[_ Hk]]; [split; reflexivity|].
  apply lookup_insert_Some in Hk as [[<- Hk]|[_ Hk]]; [discriminate Hk|].
  apply lookup_singleton_Some in Hk as [<- [= <-]]. split; reflexivity.
Defined.

Lemma effective_values values keep k v : effective values keep !! k = Some (Some v) -> values !! k = Some v.
Proof.
  unfold effective. rewrite lookup_fmap. destruct (values !! k) as [v1|]; [|done]. simpl.
  destruct (_ && _); [done|]. congruence.
Qed.

Lemma safe_value_no_lf v : IsSafeCfgValue v = true -> no_lf v.
Proof.
  intros Hs. unfold IsSafeCfgValue in Hs. destruct (2048 <? slen v); [done|].
  apply negb_true_iff, sany_false_sall in Hs. unfold no_lf. rewrite contains_byte_false. intros Hin.
  rewrite sall_forall in Hs. by specialize (Hs _ Hin).
Qed.

Lemma plain_no_lf k v : is_ident k = true -> IsSafeCfgValue v = true -> no_lf (plain_line k v).
Proof.
  intros H1 H2. unfold plain_line. repeat apply no_lf_app; try done; [by apply ident_no_lf|by apply safe_value_no_lf].
Qed.

(** what [updateCfgLines] does, for every key: each listed setting has its
    new value, or none when the value is empty and empty values are not kept, and
    every other setting keeps the value it had. *)
Theorem update_cfg_lines_lookup content values order keep k :
  (forall k v, values !! k = Some v -> is_ident k = true /\ IsSafeCfgValue v = true /\ k ∈ order) ->
  cfgValues (updateCfgLines content values order keep true) !! k =
    match values !! k with
    | Some v => if String.eqb v "" && negb keep then None else Some v
    | None => cfgValues content !! k
    end.
Proof.
  intros Hvals.
  assert (Hv : forall k v, values !! k = Some v -> is_ident k = true /\ IsSafeCfgValue v = true)
    by (intros k0 v0 H0; destruct (Hvals _ _ H0) as (? & ? & _); done).
  assert (Hren : renders plain_line (effective values keep)).
  { intros k0 v0 k' H0 Hid. apply sets_plain; [done|]. apply effective_values in H0. by apply Hv in H0 as []. }
  unfold updateCfgLines. rewrite update_lines_replace.
  destruct (replace_lines plain_line (effective values keep) (split lf content) ∅) as [out seen] eqn:E.
  pose proof (replace_lines_spec plain_line (effective values keep) k _ Hren _ None _ _ E) as [_ Hval].
  rewrite values_join_nl.
  - rewrite last_value_app, last_value_drop_blank
      by (intros l Hl; apply String.eqb_eq in Hl; by subst).
    rewrite added_plain_value by done. rewrite Hval, cfgValues_lookup.
    unfold effective. rewrite lookup_fmap. destruct (values !! k) as [v|] eqn:Ek; [|done]. simpl.
    destruct (String.eqb v "" && negb keep); [done|].
    destruct (decide (k ∈ order /\ k ∉ seen)) as [|Hno]; [done|].
    rewrite decide_False by (clear; set_solver). rewrite decide_True; [done|].
    destruct (decide (k ∈ seen)); [done|]. exfalso. apply Hno. split; [by apply (Hvals _ _ Ek)|done].
  - apply Forall_app. split.
    + apply Forall_drop_last. pose proof (replace_lines_no_lf plain_line (effective values keep) (split lf content)
        (fun k v H Hid => plain_no_lf k v Hid (proj2 (Hv _ _ (effective_values _ _ _ _ H)))) (split_no_lf content) ∅) as Hn.
      by rewrite E in Hn.
    + apply Forall_flat_map, Forall_forall. intros key _. destruct (values !! key) as [v|] eqn:Ek; [|constructor].
      destruct (_ && _); constructor; [|constructor]. by apply plain_no_lf; apply Hv in Ek as [].
Qed.

Lemma update_cfg_lines_lookup_witness :
  cfgValues (updateCfgLines demo_cfg {[ "maxbackups" := "5" ]} ["maxbackups"] false true) !! "email" = Some "me".
Proof.
  rewrite (update_cfg_lines_lookup demo_cfg {[ "maxbackups" := "5" ]} ["maxbackups"] false "email");
    [vm_compute; reflexivity|].
  intros k v Hk. apply lookup_singleton_Some in Hk as [<- <-]. split; [reflexivity|]. split; [reflexivity|left].
Defined.
