(* ===== verification/ServerFiles.v ===== *)
(** * The files of a server (backend/server_files.go, backend/safefs_linux.go)

    The file manager, the config editor and the settings the dashboard keeps beside them.  A
    request resolves a path (Paths.v) and then works on it with the functions of SafeFs.v.
    What the path functions see of the file system may change between two of them, so each has
    its own [FileSystem]. *)

From Stdlib Require Import ZArith Lia Bool String Ascii List.
From stdpp Require Import base gmap strings list fin_maps.
From S2P Require Import Prelude GoStrings Text Validate Paths SafeFs Cfg.

(** ** Writing files *)

(** What the operations read of a [GameServerInstance]. *)
Record server_root := mkServerRoot { sr_Dir : string; sr_UID : Z; sr_GID : Z }.

Inductive file_error :=
| EPath (e : path_error) | EFile (e : fs_error)
| EInvalidPath | EInvalidFilename | ENoServerfiles | EParent | ESave.

Definition lift {A} (r : result fs_error A) : result file_error A :=
  match r with Ok a => Ok a | Err e => Err (EFile e) end.

Section Writing.
Context (adv : nat -> fs -> fs) (fault : nat -> bool).

Definition mkdirAllForServer (F : FileSystem) (srv : server_root) (dir : string) : sys (result file_error unit) :=
  match EvalSymlinks (sr_Dir srv) with
  | Resolved root =>
      match resolveExisting dir with
      | Err e => sret (Err (EPath e))
      | Ok resolved =>
          if negb (IsWithin root resolved) then sret (Err (EPath ErrPathOutsideRoot)) else
          let* r := mkdirAllNoSymlinks adv fault resolved 0x1ed (sr_UID srv) (sr_GID srv) in sret (lift r)
      end
  | _ => sret (Err (EPath EFs))
  end.

Definition writeResolvedFile (srv : server_root) (target data : string) (perm : Z) (rnd : string) : sys (result file_error unit) :=
  let* r := writeFileNoSymlinks adv fault target perm true (sr_UID srv) (sr_GID srv) rnd (data, true) in sret (lift r).

(** [io.Copy] of a body: what arrived, and whether it was complete and within its limit. *)
Definition streamToResolvedFile (srv : server_root) (target : string) (body : filling) (rnd : string) : sys (result file_error unit) :=
  let* r := writeFileNoSymlinks adv fault target 0x1a4 false (sr_UID srv) (sr_GID srv) rnd body in sret (lift r).

(** [writeServerFilePerm]; [F1], [F2] and [F3] are what its three path checks see. *)
Definition writeServerFilePerm (F1 F2 F3 : FileSystem) (srv : server_root) (rel data : string) (perm : Z) (rnd : string)
  : sys (result file_error unit) :=
  match @ResolveInRoot F1 (sr_Dir srv) rel with
  | Err e => sret (Err (EPath e))
  | Ok target =>
      let* r := mkdirAllForServer F2 srv (Dir target) in
      match r with
      | Err e => sret (Err e)
      | Ok _ =>
          match @ResolveInRoot F3 (sr_Dir srv) rel with
          | Err e => sret (Err (EPath e))
          | Ok target => writeResolvedFile srv target data perm rnd
          end
      end
  end.
Definition writeServerFile (F1 F2 F3 : FileSystem) (srv : server_root) (rel data : string) (rnd : string) : sys (result file_error unit) :=
  writeServerFilePerm F1 F2 F3 srv rel data 0x1a4 rnd.

(** *** The file manager *)

Definition serverfilesRoot (F : FileSystem) (srv : server_root) : result path_error string :=
  ServerSubRoot (sr_Dir srv) "serverfiles" (sr_UID srv).

(** [isDir] answers [os.Stat] for the directory of the target. *)
Definition SaveServerFileContent (F1 F2 : FileSystem) (isDir : string -> bool) (srv : server_root) (relPath content rnd : string)
  : sys (result file_error unit) :=
  match serverfilesRoot F1 srv with
  | Err _ => sret (Err ENoServerfiles)
  | Ok baseDir =>
      match @ResolveInRoot F2 baseDir relPath with
      | Err _ => sret (Err EInvalidPath)
      | Ok target =>
          if String.eqb target baseDir then sret (Err EInvalidPath) else
          if negb (isDir (Dir target)) then sret (Err EParent) else
          let* r := writeResolvedFile srv target content 0x1a4 rnd in
          sret (match r with Ok _ => Ok tt | Err _ => Err ESave end)
      end
  end.

Definition IsValidUploadFilename (name : string) : bool :=
  if String.eqb name "" || (255 <? slen name) || String.eqb name "." || String.eqb name ".." then false
  else negb (sany (one_of ("/\" +:+ of_bytes [chr 0])) name) && negb (sany (one_of (of_bytes [chr 13; chr 10])) name).

(** [filepath.Base] of any text. *)
Definition base_name (p : string) : string :=
  if String.eqb p "" then "." else
  let p := trim_right p "/" in
  if String.eqb p "" then "/" else default "" (last (split "/" p)).

Definition UploadServerFile (F1 F2 F3 : FileSystem) (isDir : string -> bool) (srv : server_root) (subPath filename : string) (body : filling) (rnd : string)
  : sys (result file_error unit) :=
  let filename := base_name (replace_byte filename "\" "/") in
  if negb (IsValidUploadFilename filename) then sret (Err EInvalidFilename) else
  match serverfilesRoot F1 srv with
  | Err _ => sret (Err ENoServerfiles)
  | Ok baseDir =>
      match @ResolveInRoot F2 baseDir subPath with
      | Err _ => sret (Err EInvalidPath)
      | Ok targetDir =>
          if negb (isDir targetDir) then sret (Err EParent) else
          match @ResolveInRoot F3 baseDir (Join [subPath; filename]) with
          | Err _ => sret (Err EInvalidPath)
          | Ok target => streamToResolvedFile srv target body rnd
          end
      end
  end.
End Writing.

(** ** Nothing outside of the server is touched *)

Lemma abs_path_abs l : IsAbs (abs_path l) = true. Proof. done. Qed.

Lemma clean_abs_path l : Forall name_ok l -> Clean (abs_path l) = abs_path l.
Proof. intros H. rewrite clean_abs by done. unfold abs_path. by rewrite elements_abs. Qed.

(** The directory and the name of a path, as lists. *)
Lemma dir_base p : IsAbs p = true ->
  (elements p = [] /\ Dir p = "/" /\ Base p = "/") \/
  exists l x, elements p = (l ++ [x])%list /\ Forall name_ok (l ++ [x])%list /\ Dir p = abs_path l /\ Base p = x.
Proof.
  intros Ha. pose proof (elements_ok _ Ha) as Hok. unfold Dir, Base.
  destruct (elements p) as [|x l _] using rev_ind; [by left|right]. exists l, x. split_and!; [done|done| |].
  - rewrite length_app. cbn. replace (length l + 1 - 1)%nat with (length l) by lia. by rewrite take_app_length.
  - by rewrite rev_app_distr.
Qed.

Section Containment.
Context (adv : nat -> fs -> fs) (fault : nat -> bool) (P : gset positive) (s0 : fs).
Hypothesis adv_attack : forall n s, attack P s (adv n s).
Hypothesis P_exists : present P s0.

(** The place of a target below a root which [leads] out of [P]. *)
Lemma target_leads root target : leads P s0 (root_dir s0) (elements root) -> IsAbs target = true ->
  elements root `prefix_of` elements target -> (elements target = elements root -> forall n, fault n = false) ->
  exists l x, Dir target = abs_path l /\ Base target = x /\ Forall name_ok l /\
    (leads P s0 (root_dir s0) l \/ leads P s0 (root_dir s0) (l ++ [x]) /\ forall n, fault n = false).
Proof.
  intros Hl Ha [rest Hp] Hf. destruct (dir_base target Ha) as [(He & Hd & Hb)|(l & x & He & Hok & Hd & Hb)].
  - exists [], "/". split_and!; [done|done|constructor|]. rewrite He in Hp. symmetry in Hp. apply app_nil in Hp as [Hp ->].
    rewrite Hp in Hl. by left.
  - exists l, x. apply Forall_app in Hok as [Hok _]. split_and!; [done|done|done|].
    destruct rest as [|y rest _] using rev_ind.
    + rewrite app_nil_r in Hp. right. rewrite <- He, Hp. by split; [|apply Hf].
    + left. rewrite He, app_assoc in Hp. apply app_inj_tail in Hp as [-> _]. by apply leads_app.
Qed.

Lemma safe_lift {A} (m : sys (result fs_error A)) : safe P s0 m (fun _ => True) ->
  safe P s0 (let* r := m in sret (lift r)) (fun _ => True).
Proof. intros H. eapply safe_bind; [exact H|]. intros ? _. by apply safe_ret. Qed.

Lemma safe_write_target root target perm keep uid gid rnd fill :
  leads P s0 (root_dir s0) (elements root) -> IsAbs target = true -> elements root `prefix_of` elements target ->
  (elements target = elements root -> forall n, fault n = false) ->
  safe P s0 (writeFileNoSymlinks adv fault target perm keep uid gid rnd fill) (fun _ => True).
Proof.
  intros Hl Ha Hp Hf. destruct (target_leads root target Hl Ha Hp Hf) as (l & x & Hd & Hb & Hok & Hw).
  by apply (safe_write adv fault P s0 adv_attack P_exists target perm keep uid gid rnd fill l x).
Qed.

(** The roots a path check may resolve [dir] to, and the targets it may find in them. *)
Definition root_leads (F : FileSystem) (dir : string) : Prop :=
  forall root, @EvalSymlinks F dir = Resolved root -> leads P s0 (root_dir s0) (elements root).
Definition below_or_seen (F : FileSystem) (dir rel : string) : Prop :=
  forall root t, @EvalSymlinks F dir = Resolved root -> @ResolveInRoot F dir rel = Ok t ->
    elements t = elements root -> forall n, fault n = false.

Lemma resolve_root (F : FileSystem) dir rel t : @ResolveInRoot F dir rel = Ok t -> exists root, @EvalSymlinks F dir = Resolved root.
Proof. unfold ResolveInRoot. destruct (cleanRelative rel); [|done]. destruct (EvalSymlinks dir); [eauto|done..]. Qed.

(** Writing to a resolved target. *)
Lemma safe_write_resolved (F : FileSystem) `{!FileSystemLaws F} dir rel t perm keep uid gid rnd fill :
  IsAbs dir = true -> root_leads F dir -> below_or_seen F dir rel -> @ResolveInRoot F dir rel = Ok t ->
  safe P s0 (let* r := writeFileNoSymlinks adv fault t perm keep uid gid rnd fill in sret (lift r)) (fun _ => True).
Proof.
  intros Ha Hl Hf E. destruct (resolve_root _ _ _ _ E) as [root Hr].
  destruct (resolve_in_root_below _ _ _ _ Ha Hr E) as (_ & _ & Ht & Hp).
  apply safe_lift, (safe_write_target root); eauto.
Qed.

Lemma safe_mkdir_server (F : FileSystem) `{!FileSystemLaws F} srv dir :
  IsAbs (sr_Dir srv) = true -> root_leads F (sr_Dir srv) -> IsAbs dir = true -> Clean dir = dir ->
  safe P s0 (mkdirAllForServer adv fault F srv dir) (fun _ => True).
Proof.
  intros Hs Hl Ha Hc. unfold mkdirAllForServer. destruct (EvalSymlinks (sr_Dir srv)) as [root| |] eqn:Hr; try by apply safe_ret.
  destruct (resolveExisting dir) as [q|] eqn:Eq; [|by apply safe_ret].
  destruct (IsWithin root q) eqn:Ew; cbn [negb]; [|by apply safe_ret].
  pose proof (resolve_existing_abs _ _ Ha Hc Eq) as Hq. destruct (eval_abs _ _ Hs Hr) as [Hra _].
  apply is_within_iff in Ew as [rest He]; [|done|done].
  apply safe_lift, safe_mkdir; [done..|]. rewrite He. by apply leads_app, Hl.
Qed.

Lemma safe_write_server (F1 F2 F3 : FileSystem) `{!FileSystemLaws F1, !FileSystemLaws F2, !FileSystemLaws F3} srv rel data perm rnd :
  IsAbs (sr_Dir srv) = true -> root_leads F2 (sr_Dir srv) -> root_leads F3 (sr_Dir srv) -> below_or_seen F3 (sr_Dir srv) rel ->
  safe P s0 (writeServerFilePerm adv fault F1 F2 F3 srv rel data perm rnd) (fun _ => True).
Proof.
  intros Ha H2 H3 Hf. unfold writeServerFilePerm.
  destruct (@ResolveInRoot F1 _ _) as [t1|] eqn:E1; [|by apply safe_ret].
  destruct (resolve_root _ _ _ _ E1) as [root Hr].
  destruct (resolve_in_root_below _ _ _ _ Ha Hr E1) as (_ & _ & Ht & _).
  eapply (safe_bind _ _ _ _ (fun _ => True)).
  { apply (safe_mkdir_server F2 srv (Dir t1)); [done|done| |].
    - destruct (dir_base t1 Ht) as [(_ & -> & _)|(l & x & _ & _ & -> & _)]; done.
    - destruct (dir_base t1 Ht) as [(_ & -> & _)|(l & x & _ & Hok & -> & _)]; [done|].
      apply clean_abs_path. by apply Forall_app in Hok as [? _]. }
  intros [?|?] _; [|by apply safe_ret]. destruct (@ResolveInRoot F3 _ _) as [t3|] eqn:E3; [|by apply safe_ret].
  exact (safe_write_resolved F3 _ _ _ _ _ _ _ _ _ Ha H3 Hf E3).
Qed.

(** A base directory of the file manager. *)
Lemma safe_save (F1 F2 : FileSystem) `{!FileSystemLaws F2} isDir srv rel content rnd base :
  serverfilesRoot F1 srv = Ok base -> IsAbs base = true -> root_leads F2 base -> below_or_seen F2 base rel ->
  safe P s0 (SaveServerFileContent adv fault F1 F2 isDir srv rel content rnd) (fun _ => True).
Proof.
  intros Hb Ha Hl Hf. unfold SaveServerFileContent. rewrite Hb.
  destruct (@ResolveInRoot F2 _ _) as [t|] eqn:E; [|by apply safe_ret].
  destruct (String.eqb t base); [by apply safe_ret|]. destruct (negb _); [by apply safe_ret|].
  eapply safe_bind; [exact (safe_write_resolved F2 _ _ _ _ _ _ _ _ _ Ha Hl Hf E)|]. intros ? _. by apply safe_ret.
Qed.

(** The path below its base directory that an upload writes to. *)
Definition upload_path (sub name : string) : string := Join [sub; base_name (replace_byte name "\" "/")].

Lemma safe_upload (F1 F2 F3 : FileSystem) `{!FileSystemLaws F3} isDir srv sub name body rnd base :
  serverfilesRoot F1 srv = Ok base -> IsAbs base = true -> root_leads F3 base -> below_or_seen F3 base (upload_path sub name) ->
  safe P s0 (UploadServerFile adv fault F1 F2 F3 isDir srv sub name body rnd) (fun _ => True).
Proof.
  intros Hb Ha Hl Hf. unfold UploadServerFile. rewrite Hb. cbn zeta. destruct (negb _); [by apply safe_ret|].
  destruct (@ResolveInRoot F2 _ _); [|by apply safe_ret]. destruct (negb _); [by apply safe_ret|].
  destruct (@ResolveInRoot F3 _ _) as [t|] eqn:E; [|by apply safe_ret]. by eapply (safe_write_resolved F3).
Qed.
End Containment.

(** C8: the dashboard writes as root into directories whose users change them meanwhile.
    [P] is everything outside of the server: its users cannot write there.  The theorem asks
    that each path check finds the root of the server (or of its serverfiles) at a path which
    leaves [P] for the server along directories of [P] ([root_leads]), and that calls fail
    only if the target is not that root itself ([below_or_seen]).  Then, whatever the users
    do before any system call, a write of a settings file, a save of the file manager and an
    upload leave every inode of [P] as it was; the path checks need not agree with each
    other or with the file system.  Both conditions are needed: a user who can replace the
    root itself makes it resolve elsewhere ([root_swap_escapes]), and a root that is its own
    target and cannot be looked at leaves a temporary file beside it
    ([unseen_root_leaves_file]). *)
Theorem server_files_contained adv fault P s0 (F1 F2 F3 : FileSystem) srv base w :
  (forall n s, attack P s (adv n s)) -> present P s0 -> sealed P s0 -> fsys w = s0 ->
  FileSystemLaws F1 -> FileSystemLaws F2 -> FileSystemLaws F3 ->
  (IsAbs (sr_Dir srv) = true -> root_leads P s0 F2 (sr_Dir srv) -> root_leads P s0 F3 (sr_Dir srv) ->
   forall rel data perm rnd, below_or_seen fault F3 (sr_Dir srv) rel ->
     intact P s0 (fsys (writeServerFilePerm adv fault F1 F2 F3 srv rel data perm rnd w).2)) /\
  (serverfilesRoot F1 srv = Ok base -> IsAbs base = true -> root_leads P s0 F2 base -> root_leads P s0 F3 base ->
   forall isDir rel name rnd content body,
     (below_or_seen fault F2 base rel ->
      intact P s0 (fsys (SaveServerFileContent adv fault F1 F2 isDir srv rel content rnd w).2)) /\
     (below_or_seen fault F3 base (upload_path rel name) ->
      intact P s0 (fsys (UploadServerFile adv fault F1 F2 F3 isDir srv rel name body rnd w).2))).
Proof.
  intros Hadv HP Hs Hw L1 L2 L3. assert (Hi : intact P s0 (fsys w)) by (rewrite Hw; by apply intact_refl). split.
  - intros Ha H2 H3 rel data perm rnd Hf.
    exact (proj1 (safe_write_server adv fault P s0 Hadv HP F1 F2 F3 srv rel data perm rnd Ha H2 H3 Hf w Hi)).
  - intros Hb Ha H2 H3 isDir rel name rnd content body. split; intros Hf.
    + exact (proj1 (safe_save adv fault P s0 Hadv HP F1 F2 isDir srv rel content rnd base Hb Ha H2 Hf w Hi)).
    + exact (proj1 (safe_upload adv fault P s0 Hadv HP F1 F2 F3 isDir srv rel name body rnd base Hb Ha H3 Hf w Hi)).
Qed.

(** A machine with /etc and the server directory /srv/data, whose user owns the inode 4. *)
Definition demo_fs : fs := mkFs
  (<[1%positive := mkInode (KDir {[ "srv" := 2%positive; "etc" := 3%positive ]}) 0 0 0x1ed]>
   (<[2%positive := mkInode (KDir {[ "data" := 4%positive ]}) 0 0 0x1ed]>
    (<[3%positive := mkInode (KDir ∅) 0 0 0x1ed]> {[ 4%positive := mkInode (KDir ∅) 1000 1000 0x1ed ]}))) 1%positive.
Definition demo_root : server_root := mkServerRoot "/srv/data" 1000 1000.
Definition demo_P : gset positive := {[ 1%positive; 2%positive; 3%positive ]}.
(** The user plants a link to /etc where the dashboard is about to create a directory. *)
Definition demo_adv (n : nat) (s : fs) : fs :=
  match n with 1%nat => (create_at 4 "lgsm" (KLink "/etc") 0x1ff s).2 | _ => s end.

Lemma demo_attack n s : attack demo_P s (demo_adv n s).
Proof.
  intros Hs Hp. destruct n as [|[|n]]; try by apply intact_refl. cbn [demo_adv].
  apply (intact_create demo_P s); [exact Hp|by apply intact_refl|set_solver|done].
Qed.

Lemma demo_sealed : sealed demo_P demo_fs.
Proof.
  intros d es name j Hd He Hn. destruct (decide (d = 4%positive)) as [->|H4].
  - assert (E : dir_entries demo_fs 4 = Some ∅) by reflexivity. rewrite E in He. injection He as <-. by rewrite lookup_empty in Hn.
  - exfalso. assert (d <> 1%positive /\ d <> 2%positive /\ d <> 3%positive) as (H1 & H2 & H3) by (unfold demo_P in Hd; set_solver).
    unfold dir_entries, kind_of, demo_fs in He. cbn in He. by rewrite !lookup_insert_ne, lookup_singleton_ne in He.
Qed.

Lemma demo_present : present demo_P demo_fs.
Proof.
  intros i Hi. assert (i = 1%positive \/ i = 2%positive \/ i = 3%positive) as [->|[->| ->]] by (unfold demo_P in Hi; set_solver);
    eexists; reflexivity.
Qed.

Lemma demo_leads : leads demo_P demo_fs 1 (elements "/srv/data").
Proof.
  change (elements "/srv/data") with ["srv"; "data"].
  eapply leads_in; [by vm_compute|reflexivity|reflexivity|].
  eapply leads_in; [by vm_compute|reflexivity|reflexivity|].
  apply leads_out; [by vm_compute|reflexivity].
Qed.

Lemma server_files_contained_witness :
  let w := (writeServerFilePerm demo_adv (fun _ => false) toy_fs toy_fs toy_fs demo_root "lgsm/x.cfg" "a=1" 0x1a4 "00" (mkWorld 0 demo_fs)) in
  inodes (fsys w.2) !! 3%positive = Some (mkInode (KDir ∅) 0 0 0x1ed).
Proof.
  cbv zeta.
  destruct (server_files_contained demo_adv (fun _ => false) demo_P demo_fs toy_fs toy_fs toy_fs demo_root "" (mkWorld 0 demo_fs)
    demo_attack demo_present demo_sealed eq_refl toy_fs_laws toy_fs_laws toy_fs_laws) as [H _].
  assert (Hl : root_leads demo_P demo_fs toy_fs (sr_Dir demo_root)) by (intros r [= <-]; exact demo_leads).
  rewrite (intact_same _ _ _ (H eq_refl Hl Hl "lgsm/x.cfg" "a=1" 0x1a4 "00" (fun _ _ _ _ _ _ => eq_refl)) 3%positive);
    [reflexivity|by vm_compute].
Defined.

(** What the condition on the roots is needed for.  [ServerSubRoot] answers
    /srv/data/serverfiles, which the user then replaces by a link to /etc, and
    [ResolveInRoot] resolves its root again: the file is written into /etc. *)
Definition before_swap : FileSystem := {|
  EvalSymlinks p := if mem p ["/"; "/srv"; "/srv/data"; "/srv/data/serverfiles"] then Resolved p else NotExist;
  Lstat_ok p := false; fileOwnerUID _ := Some 1000 |}.
Definition after_swap : FileSystem := {|
  EvalSymlinks p := if String.eqb p "/srv/data/serverfiles" then Resolved "/etc"
                    else if mem p ["/"; "/srv"; "/srv/data"; "/etc"] then Resolved p else NotExist;
  Lstat_ok p := false; fileOwnerUID _ := Some 1000 |}.
Example root_swap_escapes :
  let w := SaveServerFileContent (fun _ s => s) (fun _ => false) before_swap after_swap (fun _ => true) demo_root "crontab" "x" "00" (mkWorld 0 demo_fs) in
  w.1 = Ok tt /\ exists i, dir_entries (fsys w.2) 3 = Some {[ "crontab" := i ]}.
Proof. split; [vm_compute; reflexivity|]. eexists. vm_compute. reflexivity. Qed.

(** A target that resolves to the root itself, here /srv/data, is refused because it is a
    directory.  When the fstatat fails, the code goes on as if the name were free: it makes a
    temporary file as root in /srv, which stays there when the last call fails as well. *)
Example unseen_root_leaves_file :
  let w := writeResolvedFile (fun _ s => s) (fun n => Nat.eqb n 2 || Nat.eqb n 9) demo_root "/srv/data" "x" 0x1a4 "00" (mkWorld 0 demo_fs) in
  w.1 = Err (EFile (PathError EISDIR)) /\ exists i, dir_entries (fsys w.2) 2 = Some (<[tmp_name "00" := i]> {[ "data" := 4%positive ]}).
Proof. split; [vm_compute; reflexivity|]. eexists. vm_compute. reflexivity. Qed.
