(* ===== verification/Settings.v ===== *)
(** * Settings of a server (backend/lgsmcfg.go, alerts.go, server_files.go)

    A server has five config files, which LinuxGSM sources one after the other:
    _default.cfg (restored by LinuxGSM on every run), common.cfg,
    secrets-common.cfg, the instance file and the secrets file of the instance.
    What counts is the merged value.  This file models the forms that write them
    ([saveInstanceCfgValues], [SaveStopModeSettings], [SaveAlertSettings],
    [saveDefaultCfgOverrides]) and shows what each does to the merged values.

    The five names are taken to be different, as they are for every script name
    but "common".  Go's iteration order over a map is the parameter [iter]. *)

From Stdlib Require Import ZArith Lia Bool String Ascii List.
From stdpp Require Import base gmap strings list fin_maps.
From S2P Require Import Prelude GoStrings Validate Cron Cfg.

(** ** The files *)

(** What a read finds at the place of a config file. *)
Inductive cfg_file := Missing | Unreadable | Content (text : string).

(** Nothing is there: an empty text; too large, or not a regular file: an error. *)
Definition readServerCfg (f : cfg_file) : option string :=
  match f with Missing => Some "" | Unreadable => None | Content t => Some t end.

Inductive cfg_name := CCommon | CSecretsCommon | CInstance | CSecrets.
#[export] Instance cfg_name_eq : EqDecision cfg_name.
Proof. solve_decision. Defined.

Record cfg_dir := mkCfgDir {
  c_default : cfg_file; c_common : cfg_file; c_secrets_common : cfg_file; c_instance : cfg_file; c_secrets : cfg_file }.

(** The files below the default one, in load order. *)
Definition user_files (d : cfg_dir) : list (cfg_name * cfg_file) :=
  [(CCommon, c_common d); (CSecretsCommon, c_secrets_common d); (CInstance, c_instance d); (CSecrets, c_secrets d)].
Definition lgsmCfgFiles (d : cfg_dir) (includeDefault : bool) : list cfg_file :=
  (if includeDefault then [c_default d] else []) ++ map snd (user_files d).
Definition lgsmCfgValues (d : cfg_dir) (includeDefault : bool) : gmap string string :=
  merge_values (map readServerCfg (lgsmCfgFiles d includeDefault)).

Inductive settings_error :=
| ReadFailed | WriteFailed | UnknownSetting (key : string) | NotASwitch (key : string) | InvalidValue (key : string) | InvalidStopMode.

Definition put (f : cfg_name) (text : string) (d : cfg_dir) : cfg_dir :=
  match f with
  | CCommon => mkCfgDir (c_default d) (Content text) (c_secrets_common d) (c_instance d) (c_secrets d)
  | CSecretsCommon => mkCfgDir (c_default d) (c_common d) (Content text) (c_instance d) (c_secrets d)
  | CInstance => mkCfgDir (c_default d) (c_common d) (c_secrets_common d) (Content text) (c_secrets d)
  | CSecrets => mkCfgDir (c_default d) (c_common d) (c_secrets_common d) (c_instance d) (Content text)
  end.

Section Writing.
(** Whether a write succeeds; one that fails leaves the file (SafeFs). *)
Context (ok : cfg_name -> bool).

Definition write (f : cfg_name) (text : string) (d : cfg_dir) : result settings_error unit * cfg_dir :=
  if ok f then (Ok tt, put f text d) else (Err WriteFailed, d).
(** The write is left out when nothing changed. *)
Definition write_changed (f : cfg_name) (old new : string) (d : cfg_dir) : result settings_error unit * cfg_dir :=
  if String.eqb new old then (Ok tt, d) else write f new d.

Definition saveInstanceCfgValues (values : gmap string string) (order : list string) (keepEmpty : bool) (d : cfg_dir)
  : result settings_error unit * cfg_dir :=
  match readServerCfg (c_instance d) with
  | None => (Err ReadFailed, d)
  | Some content =>
      match write CInstance (updateCfgLines content values order keepEmpty true) d with
      | (Err e, d1) => (Err e, d1)
      | (Ok _, d1) =>
          match readServerCfg (c_secrets d1) with
          | None => (Ok tt, d1)
          | Some secrets =>
              if String.eqb secrets "" then (Ok tt, d1)
              else write_changed CSecrets secrets (updateCfgLines secrets values order keepEmpty false) d1
          end
      end
  end.

(** ** Stop mode *)

Definition GetStopModeSettings (d : cfg_dir) : string :=
  match lgsmCfgValues d false !! "stopmode" with
  | Some mode => if String.eqb mode "" then "default" else mode
  | None => "default"
  end.
Definition SaveStopModeSettings (stopMode : string) (d : cfg_dir) : result settings_error unit * cfg_dir :=
  if negb (IsValidStopMode stopMode) then (Err InvalidStopMode, d)
  else
    let stopMode := if String.eqb stopMode "default" then "" else stopMode in
    match saveInstanceCfgValues {[ "stopmode" := stopMode ]} ["stopmode"] false d with
    | (Err _, d1) => (Err WriteFailed, d1)
    | r => r
    end.

(** ** Alerts *)

Definition legacyAlertKeys : gmap string string := list_to_map
  [("emaildest", "email"); ("matrixroomid", "matrixroom"); ("matrixaccesstoken", "matrixtoken");
   ("ntfyurl", "ntfyserver"); ("ntfyauthtoken", "ntfytoken"); ("pushoveruser", "pushoveruserkey");
   ("iftttkey", "ifttttoken"); ("pushbulletchannel", "channeltag");
   ("emailserver", ""); ("emailport", ""); ("emailuser", ""); ("emailpassword", "")].

Record alert_state := mkAlerts {
  a_values : gmap string string; a_sources : gmap string cfg_name; a_legacy : gmap string bool }.

(** One value of the file [name]. *)
Definition alert_step (name : cfg_name) (st : alert_state) (kv : string * string) : alert_state :=
  let '(k, v) := kv in
  let add key :=
    match alertField key with
    | None => st
    | Some _ => mkAlerts (<[key := v]> (a_values st)) (<[key := name]> (a_sources st))
                  (<[key := negb (String.eqb key k)]> (a_legacy st))
    end in
  match legacyAlertKeys !! k with
  | Some newKey =>
      if String.eqb newKey "" then st
      else match a_sources st !! newKey with Some _ => st | None => add newKey end
  | None => add k
  end.

Context (iter : gmap string string -> list (string * string)).

Definition alert_file (st : alert_state) (f : cfg_name * cfg_file) : alert_state :=
  match readServerCfg f.2 with
  | None => st
  | Some content => fold_left (alert_step f.1) (iter (cfgValues content)) st
  end.
Definition alertState (d : cfg_dir) : alert_state := fold_left alert_file (user_files d) (mkAlerts ∅ ∅ ∅).
Definition alert_defaults (d : cfg_dir) : gmap string string :=
  match readServerCfg (c_default d) with Some content => cfgValues content | None => ∅ end.

(** What the browser gets; the defaults of secrets are left out. *)
Record AlertSettings := mkAlertSettings {
  as_Values : gmap string string; as_Defaults : gmap string string; as_Sources : gmap string cfg_name }.
Definition GetAlertSettings (d : cfg_dir) : AlertSettings :=
  let st := alertState d in
  mkAlertSettings (map_imap (fun key v => Some (masked_value key v)) (a_values st))
    (filter (fun kv => (match alertField kv.1 with Some f => negb (f_Secret f) | None => false end) = true) (alert_defaults d))
    (a_sources st).

(** Unchanged values that are written again: found under an old name, or a secret in the
    plain file. *)
Definition move (st : alert_state) (key : string) (f : AlertField) : bool :=
  default false (a_legacy st !! key) || (f_Secret f && bool_decide (a_sources st !! key = Some CInstance)).

Definition bad_alert_text (v : string) : bool :=
  contains_any v (of_bytes [chr 13; chr 10; chr 0]) || (2048 <? slen v).

(** One submitted value: nothing to do, or the new value of a secret or a plain key. *)
Definition submitted_value (st : alert_state) (defaults : gmap string string) (key v : string)
  : result settings_error (option (bool * string)) :=
  match alertField key with
  | None => Err (UnknownSetting key)
  | Some f =>
      let masked := f_Secret f && String.eqb v SecretMask in
      if masked && negb (move st key f) then Ok None else
      let v := if masked then default "" (a_values st !! key) else v in
      if f_Switch f && negb (String.eqb v "on") && negb (String.eqb v "off") then Err (NotASwitch key) else
      if bad_alert_text v then Err (InvalidValue key) else
      match a_values st !! key with
      | None => if String.eqb v "" || String.eqb v (default "" (defaults !! key)) then Ok None else Ok (Some (f_Secret f, v))
      | Some old => if String.eqb old v && negb (String.eqb v "") && negb (move st key f) then Ok None
                    else Ok (Some (f_Secret f, v))
      end
  end.

Fixpoint collect_alerts (st : alert_state) (defaults : gmap string string) (l : list (string * string))
    (plain secret : gmap string string) : result settings_error (gmap string string * gmap string string) :=
  match l with
  | [] => Ok (plain, secret)
  | (key, v) :: r =>
      match submitted_value st defaults key v with
      | Err e => Err e
      | Ok None => collect_alerts st defaults r plain secret
      | Ok (Some (true, v)) => collect_alerts st defaults r plain (<[key := v]> secret)
      | Ok (Some (false, v)) => collect_alerts st defaults r (<[key := v]> plain) secret
      end
  end.

(** An empty value removes the key. *)
Definition clear (m : gmap string (option string)) : gmap string (option string) :=
  (fun v => match v with Some s => if String.eqb s "" then None else v | None => None end) <$> m.
Definition legacy_removed : gmap string (option string) := (fun _ => None) <$> legacyAlertKeys.

(** The changes of the instance file and of the secrets file.  The keys of the three parts
    differ, so the order of the assignments in the code does not matter. *)
Definition inst_changes (plain secret secretsKeys : gmap string string) : gmap string (option string) :=
  clear (((fun _ => None) <$> secret)
         ∪ map_imap (fun key v => Some (match secretsKeys !! key with Some _ => None | None => Some v end)) plain
         ∪ legacy_removed).
Definition sec_changes (plain secret secretsKeys : gmap string string) : gmap string (option string) :=
  clear ((Some <$> secret)
         ∪ map_imap (fun key v => match secretsKeys !! key with Some _ => Some (Some v) | None => None end) plain
         ∪ legacy_removed).

Definition SaveAlertSettings (submitted : gmap string string) (d : cfg_dir) : result settings_error unit * cfg_dir :=
  match collect_alerts (alertState d) (alert_defaults d) (iter submitted) ∅ ∅ with
  | Err e => (Err e, d)
  | Ok (plain, secret) =>
      match readServerCfg (c_instance d), readServerCfg (c_secrets d) with
      | Some instance, Some secrets =>
          let keys := cfgValues secrets in
          match write_changed CInstance instance (applyCfgChanges instance (inst_changes plain secret keys)) d with
          | (Err e, d1) => (Err e, d1)
          | (Ok _, d1) => write_changed CSecrets secrets (applyCfgChanges secrets (sec_changes plain secret keys)) d1
          end
      | _, _ => (Err ReadFailed, d)
      end
  end.
End Writing.

(** ** Edits of _default.cfg *)

(** The keys of the edited text whose value differs, in the order they first appear. *)
Definition changed_keys (old : gmap string string) (new : gmap string string) (order : list string) : list string :=
  filter (fun key => old !! key <> Some (default "" (new !! key))) order.
Definition changed_values (new : gmap string string) (keys : list string) : gmap string string :=
  list_to_map (map (fun key => (key, default "" (new !! key))) keys).

(** [resolve]: whether the instance and the secrets file may be opened (resolveConfigPath).
    The result lists the keys that were redirected. *)
Definition saveDefaultCfgOverrides (ok resolve : cfg_name -> bool) (content : string) (d : cfg_dir)
  : result settings_error (list string) * cfg_dir :=
  match c_default d with
  | Missing | Unreadable => (Err ReadFailed, d)
  | Content current =>
      let '(new, order) := cfgRawValues content in
      let keys := changed_keys (cfgRawValues current).1 new order in
      let changed := changed_values new keys in
      if decide (keys = []) then (Ok [], d) else
      if negb (resolve CInstance) then (Err ReadFailed, d) else
      match readServerCfg (c_instance d) with
      | None => (Err ReadFailed, d)
      | Some inst =>
          match write ok CInstance (setCfgRawValues inst changed keys) d with
          | (Err e, d1) => (Err e, d1)
          | (Ok _, d1) =>
              match resolve CSecrets, c_secrets d1 with
              | true, Content secrets =>
                  let overlap := filter (fun kv => is_Some ((cfgRawValues secrets).1 !! kv.1)) changed in
                  if decide (overlap = ∅) then (Ok keys, d1)
                  else match write ok CSecrets (setCfgRawValues secrets overlap []) d1 with
                       | (Err e, d2) => (Err e, d2)
                       | (Ok _, d2) => (Ok keys, d2)
                       end
              | _, _ => (Ok keys, d1)
              end
          end
      end
  end.

(** * Lemmas *)

(** ** Merged values *)

Definition file_value (f : cfg_file) (k : string) : option string :=
  match readServerCfg f with Some c => cfgValues c !! k | None => None end.
(** The value from the files below the instance file. *)
Definition below (d : cfg_dir) (includeDefault : bool) (k : string) : option string :=
  later (later (if includeDefault then file_value (c_default d) k else None) (file_value (c_common d) k)) (file_value (c_secrets_common d) k).

Lemma merge_lookup files m k :
  fold_left (fun m f => match f with Some content => cfgValues content ∪ m | None => m end) (map readServerCfg files) m !! k
  = fold_left (fun acc f => later acc (file_value f k)) files (m !! k).
Proof.
  revert m. induction files as [|f r IH]; intros m; [done|]. cbn [map fold_left]. rewrite IH. f_equal.
  unfold file_value. destruct (readServerCfg f) as [c|]; [|done]. rewrite lookup_union.
  by destruct (cfgValues c !! k), (m !! k).
Qed.

Lemma merged_split d b k :
  lgsmCfgValues d b !! k = later (later (below d b k) (file_value (c_instance d) k)) (file_value (c_secrets d) k).
Proof.
  unfold lgsmCfgValues, merge_values, lgsmCfgFiles. rewrite merge_lookup, lookup_empty. unfold below. destruct b; cbn; [|done]. by destruct (file_value (c_default d) k).
Qed.

Lemma later_none (acc : option string) : later acc None = acc. Proof. done. Qed.

(** ** [updateCfgLines] without appending *)

Lemma last_value_none_iff k lines :
  last_value k None lines = None -> Forall (fun l => sets k l = None) lines.
Proof.
  assert (H : forall acc, last_value k acc lines = None -> acc = None /\ Forall (fun l => sets k l = None) lines).
  { induction lines as [|l r IH]; intros acc; cbn [last_value fold_left]; [done|]. intros [H1 H2]%IH.
    unfold later in H1. destruct (sets k l) eqn:E; [done|]. split; [done|by constructor]. }
  intros Hl. by apply H in Hl as [].
Qed.

Lemma replace_lines_seen render ch lines k : forall done out d, replace_lines render ch lines done = (out, d) -> k ∈ d ->
  k ∈ done \/ last_value k None lines <> None.
Proof.
  induction lines as [|line r IH]; intros done out d; cbn [replace_lines]; [intros [= <- <-]; by left|].
  assert (Hstep : last_value k None r <> None -> last_value k None (line :: r) <> None).
  { intros Hr Hn. apply Hr. apply last_value_none_iff in Hn. inversion Hn; subst. by apply last_value_none. }
  destruct (assignment line) as [[k0 w]|] eqn:Ea.
  2:{ destruct (replace_lines render ch r done) eqn:E. intros [= <- <-] Hd. destruct (IH _ _ _ E Hd); auto. }
  destruct (ch !! k0) as [[v|]|].
  - case_bool_decide.
    + intros E Hd. destruct (IH _ _ _ E Hd); auto.
    + destruct (replace_lines render ch r _) eqn:E. intros [= <- <-] Hd.
      destruct (IH _ _ _ E Hd) as [[->%elem_of_singleton|]%elem_of_union|]; auto.
      right. intros Hn. apply last_value_none_iff in Hn. inversion Hn as [|? ? Hs]; subst. unfold sets in Hs.
      by rewrite Ea, String.eqb_refl in Hs.
  - intros E Hd. destruct (IH _ _ _ E Hd); auto.
  - destruct (replace_lines render ch r done) eqn:E. intros [= <- <-] Hd. destruct (IH _ _ _ E Hd); auto.
Qed.

Lemma replace_lines_kept render ch lines k v : ch !! k = Some (Some v) -> last_value k None lines <> None ->
  forall done out d, replace_lines render ch lines done = (out, d) -> k ∈ d.
Proof.
  intros Hk. induction lines as [|line r IH]; [done|]. intros Hl done out d. cbn [replace_lines].
  assert (Hmono : forall done out d, replace_lines render ch r done = (out, d) -> k ∈ done -> k ∈ d).
  { clear -Hk. induction r as [|l r IH]; intros done out d; cbn [replace_lines]; [by intros [= <- <-]|].
    destruct (assignment l) as [[k0 w]|]; [|destruct (replace_lines _ _ r done) eqn:E; intros [= <- <-]; eauto].
    destruct (ch !! k0) as [[v0|]|]; [|eauto|destruct (replace_lines _ _ r done) eqn:E; intros [= <- <-]; eauto].
    case_bool_decide; [eauto|]. destruct (replace_lines _ _ r _) eqn:E. intros [= <- <-] Hd. eapply IH; [done|]. by apply elem_of_union_r. }
  destruct (sets k line) as [w|] eqn:Es.
  - unfold sets in Es. destruct (assignment line) as [[k0 w0]|]; [|done].
    destruct (String.eqb_spec k0 k) as [->|]; [|done]. rewrite Hk. case_bool_decide; [eauto|].
    destruct (replace_lines _ _ r _) eqn:E. intros [= <- <-]. eapply Hmono; [done|]. by apply elem_of_union_l, elem_of_singleton.
  - assert (Hr : last_value k None r <> None) by (cbn [last_value fold_left] in Hl; by rewrite Es in Hl).
    destruct (assignment line) as [[k0 w]|]; [|destruct (replace_lines _ _ r done) eqn:E; intros [= <- <-]; eauto].
    destruct (ch !! k0) as [[v0|]|]; [|eauto|destruct (replace_lines _ _ r done) eqn:E; intros [= <- <-]; eauto].
    case_bool_decide; [eauto|]. destruct (replace_lines _ _ r _) eqn:E. intros [= <- <-]. eauto.
Qed.

Lemma update_cfg_lines_kept content values order keep k :
  (forall k v, values !! k = Some v -> is_ident k = true /\ IsSafeCfgValue v = true) ->
  cfgValues (updateCfgLines content values order keep false) !! k =
    match cfgValues content !! k, values !! k with
    | Some _, Some v => if String.eqb v "" && negb keep then None else Some v
    | old, None => old
    | None, Some _ => None
    end.
Proof.
  intros Hv. unfold updateCfgLines. rewrite update_lines_replace.
  destruct (replace_lines plain_line (effective values keep) (split lf content) ∅) as [out seen] eqn:E.
  assert (Hren : renders plain_line (effective values keep)).
  { intros k0 v0 k' H0 Hid. apply sets_plain; [done|]. apply effective_values in H0. by apply Hv in H0 as []. }
  pose proof (replace_lines_spec plain_line (effective values keep) k _ Hren _ None _ _ E) as [_ Hval].
  rewrite values_join.
  2:{ pose proof (replace_lines_no_lf plain_line (effective values keep) (split lf content)
        (fun k v H Hid => plain_no_lf k v Hid (proj2 (Hv _ _ (effective_values _ _ _ _ H)))) (split_no_lf content) ∅) as Hn.
      by rewrite E in Hn. }
  rewrite Hval, cfgValues_lookup. unfold effective. rewrite lookup_fmap. destruct (values !! k) as [v|] eqn:Ek; cbn [fmap option_fmap option_map].
  2: by destruct (last_value k None (split lf content)).
  destruct (String.eqb v "" && negb keep) eqn:Ee; [by destruct (last_value k None (split lf content))|].
  rewrite decide_False by (clear; set_solver).
  assert (Heff : effective values keep !! k = Some (Some v)) by (unfold effective; rewrite lookup_fmap, Ek; simpl; by rewrite Ee).
  destruct (last_value k None (split lf content)) as [o|] eqn:El.
  - rewrite decide_True; [done|]. eapply replace_lines_kept; [exact Heff| |exact E]. by rewrite El.
  - rewrite decide_False; [done|]. intros Hin. destruct (replace_lines_seen _ _ _ k _ _ _ E Hin) as [Hd|Hn]; [|by rewrite El in Hn].
    clear -Hd. set_solver.
Qed.

(** ** Writes *)

(** [d'] differs from [d] only in the instance file, which holds [i], and the secrets file,
    which holds [s]. *)
Definition holds (d d' : cfg_dir) (i s : option string) : Prop :=
  readServerCfg (c_instance d') = i /\ readServerCfg (c_secrets d') = s /\ forall b k, below d' b k = below d b k.

Lemma write_instance ok old new s d0 d u d' : holds d0 d (Some old) s ->
  write_changed ok CInstance old new d = (Ok u, d') -> holds d0 d' (Some new) s.
Proof.
  intros (H1 & H2 & H3). unfold write_changed, write. destruct (String.eqb_spec new old) as [->|]; [by intros [= <- <-]|].
  destruct (ok CInstance); [|done]. intros [= <- <-]. by split_and!.
Qed.
Lemma write_secrets ok old new i d0 d u d' : holds d0 d i (Some old) ->
  write_changed ok CSecrets old new d = (Ok u, d') -> holds d0 d' i (Some new).
Proof.
  intros (H1 & H2 & H3). unfold write_changed, write. destruct (String.eqb_spec new old) as [->|]; [by intros [= <- <-]|].
  destruct (ok CSecrets); [|done]. intros [= <- <-]. by split_and!.
Qed.
Lemma put_instance ok new s d0 d u d' i : holds d0 d i s -> write ok CInstance new d = (Ok u, d') -> holds d0 d' (Some new) s.
Proof. intros (H1 & H2 & H3). unfold write. destruct (ok CInstance); [|done]. intros [= <- <-]. by split_and!. Qed.

Definition text_value (t : option string) (k : string) : option string :=
  match t with Some c => cfgValues c !! k | None => None end.
Lemma holds_merged d d' i s b k : holds d d' i s ->
  lgsmCfgValues d' b !! k = later (later (below d b k) (text_value i k)) (text_value s k).
Proof. intros (H1 & H2 & H3). rewrite merged_split, H3. unfold file_value. by rewrite H1, H2. Qed.
Lemma holds_refl d : holds d d (readServerCfg (c_instance d)) (readServerCfg (c_secrets d)).
Proof. done. Qed.
Lemma merged_texts d b k :
  lgsmCfgValues d b !! k = later (later (below d b k) (text_value (readServerCfg (c_instance d)) k)) (text_value (readServerCfg (c_secrets d)) k).
Proof. apply holds_merged, holds_refl. Qed.

(** [saveInstanceCfgValues]: each value given is the merged value, or the one of the files
    below when it is cleared; every other setting keeps its merged value. *)
Lemma save_instance_values ok values order keep d u d' b k :
  (forall k v, values !! k = Some v -> is_ident k = true /\ IsSafeCfgValue v = true /\ k ∈ order) ->
  saveInstanceCfgValues ok values order keep d = (Ok u, d') ->
  lgsmCfgValues d' b !! k =
    match values !! k with
    | Some v => if String.eqb v "" && negb keep then below d b k else Some v
    | None => lgsmCfgValues d b !! k
    end.
Proof.
  intros Hv. assert (Hv' : forall k v, values !! k = Some v -> is_ident k = true /\ IsSafeCfgValue v = true)
    by (intros k0 v0 H0; destruct (Hv _ _ H0) as (? & ? & _); done).
  unfold saveInstanceCfgValues. destruct (readServerCfg (c_instance d)) as [content|] eqn:Ei; [|done].
  destruct (write ok CInstance _ d) as [[u1|e] d1] eqn:Ew; [|done].
  eapply put_instance in Ew; [|apply holds_refl].
  assert (Hs : readServerCfg (c_secrets d1) = readServerCfg (c_secrets d)) by apply Ew.
  rewrite Hs. destruct (readServerCfg (c_secrets d)) as [secrets|] eqn:Es.
  2:{ intros [= _ <-]. rewrite (holds_merged _ _ _ _ b k Ew), merged_texts, Ei, Es. cbn [text_value later].
      rewrite update_cfg_lines_lookup by done. destruct (values !! k) as [v|]; [|done]. by destruct (_ && _). }
  destruct (String.eqb_spec secrets "") as [->|Hne].
  { intros [= _ <-]. rewrite (holds_merged _ _ _ _ b k Ew), merged_texts, Ei, Es. cbn [text_value].
    rewrite update_cfg_lines_lookup by done. change (cfgValues "" !! k) with (@None string). cbn [later].
    destruct (values !! k) as [v|]; [|done]. by destruct (_ && _). }
  intros E. apply (write_secrets _ _ _ _ _ _ _ _ Ew) in E. rewrite (holds_merged _ _ _ _ b k E), merged_texts, Ei, Es.
  cbn [text_value]. rewrite update_cfg_lines_lookup, update_cfg_lines_kept by done.
  destruct (values !! k) as [v|], (cfgValues secrets !! k) as [o|]; cbn [later]; try done; by destruct (_ && _).
Qed.

(** ** Alerts *)

(** No LinuxGSM variable is one of the old names. *)
Lemma alert_not_legacy key f : alertField key = Some f -> legacyAlertKeys !! key = None.
Proof.
  intros H. destruct (legacyAlertKeys !! key) as [n|] eqn:E; [|done]. exfalso.
  apply elem_of_map_to_list in E.
  assert (Hall : Forall (fun kv => alertField kv.1 = None) (map_to_list legacyAlertKeys)) by (vm_compute; repeat constructor).
  rewrite Forall_forall in Hall. specialize (Hall _ E). simpl in Hall. congruence.
Qed.
Lemma legacy_target key n : legacyAlertKeys !! key = Some n -> n = "" \/ is_Some (alertField n).
Proof.
  intros E. apply elem_of_map_to_list in E.
  assert (Hall : Forall (fun kv => kv.2 = "" \/ is_Some (alertField kv.2)) (map_to_list legacyAlertKeys))
    by (vm_compute; repeat (constructor; [first [by left|right; by eexists]|]); constructor).
  rewrite Forall_forall in Hall. by specialize (Hall _ E).
Qed.
Lemma alert_ident key f : alertField key = Some f -> is_ident key = true.
Proof.
  unfold alertField. intros H. apply find_some in H as [Hin He]. apply String.eqb_eq in He as <-.
  assert (Hall : forallb (fun f => is_ident (f_Key f)) (flat_map snd AlertServices) = true) by (vm_compute; reflexivity).
  rewrite forallb_forall in Hall. by apply Hall.
Qed.
Lemma legacy_ident key n : legacyAlertKeys !! key = Some n -> is_ident key = true.
Proof.
  intros E. apply elem_of_map_to_list in E.
  assert (Hall : Forall (fun kv => is_ident kv.1 = true) (map_to_list legacyAlertKeys)) by (vm_compute; repeat constructor).
  rewrite Forall_forall in Hall. by specialize (Hall _ E).
Qed.

Section AlertLemmas.
Context (iter : gmap string string -> list (string * string)) (Hiter : forall m, iter m ≡ₚ map_to_list m).

Lemma iter_keys m : NoDup (iter m).*1.
Proof. rewrite Hiter. apply NoDup_fst_map_to_list. Qed.
Lemma iter_elem m k v : (k, v) ∈ iter m <-> m !! k = Some v.
Proof. rewrite Hiter. apply elem_of_map_to_list. Qed.

(** The state agrees with the value [r] the variable [key] really has so far: a value under
    an old name counts only where there is none. *)
Definition tracks (key : string) (st : alert_state) (r : option string) : Prop :=
  match r with
  | Some v => a_values st !! key = Some v /\ a_legacy st !! key = Some false /\ is_Some (a_sources st !! key)
  | None => (a_values st !! key = None /\ a_sources st !! key = None /\ a_legacy st !! key = None) \/
            (is_Some (a_values st !! key) /\ a_legacy st !! key = Some true /\ is_Some (a_sources st !! key))
  end.

Definition own (key : string) (kv : string * string) : option string := if String.eqb kv.1 key then Some kv.2 else None.

Lemma tracks_step key f name st r kv : alertField key = Some f -> tracks key st r ->
  tracks key (alert_step name st kv) (later r (own key kv)).
Proof.
  intros Hf Ht. destruct kv as [k v]. unfold own. cbn [fst snd].
  assert (Hadd : forall key' k', key' <> key -> tracks key (match alertField key' with None => st | Some _ =>
    mkAlerts (<[key' := v]> (a_values st)) (<[key' := name]> (a_sources st)) (<[key' := negb (String.eqb key' k')]> (a_legacy st)) end) r).
  { intros key' k' Hne. destruct (alertField key'); [|done]. unfold tracks in *. cbn. by rewrite !lookup_insert_ne by done. }
  destruct (String.eqb_spec k key) as [->|Hne]; cbn [later].
  - unfold alert_step. rewrite (alert_not_legacy _ _ Hf), Hf. cbn. rewrite !lookup_insert_eq, String.eqb_refl. by split_and!.
  - unfold alert_step. destruct (legacyAlertKeys !! k) as [n|] eqn:El; [|by apply Hadd].
    destruct (String.eqb_spec n "") as [->|Hn]; [done|]. destruct (a_sources st !! n) as [src|] eqn:Es; [done|].
    destruct (decide (n = key)) as [->|Hnk]; [|by apply Hadd]. rewrite Hf. unfold tracks in *. destruct r as [w|].
    + destruct Ht as (_ & _ & [x Hx]). congruence.
    + right. cbn. rewrite !lookup_insert_eq. split_and!; eauto. apply not_eq_sym, String.eqb_neq in Hne. by rewrite Hne.
Qed.

Lemma tracks_fold key f name l : alertField key = Some f -> forall st r, tracks key st r ->
  tracks key (fold_left (alert_step name) l st) (fold_left (fun acc kv => later acc (own key kv)) l r).
Proof. intros Hf. induction l as [|kv l IH]; [done|]. intros st r Ht. cbn [fold_left]. by apply IH, (tracks_step key f). Qed.

Lemma own_fold key m r : fold_left (fun acc kv => later acc (own key kv)) (iter m) r = later r (m !! key).
Proof.
  assert (H : forall l, NoDup l.*1 -> forall acc,
    fold_left (fun acc kv => later acc (own key kv)) l acc = later acc (list_to_map (M := gmap string string) l !! key)).
  { induction l as [|[k v] l IH]; intros Hnd acc; [done|]. cbn [fold_left fmap list_fmap fst] in *.
    apply NoDup_cons in Hnd as [Hk Hnd]. rewrite IH by done. unfold own. cbn [fst snd list_to_map foldr uncurry].
    destruct (String.eqb_spec k key) as [->|Hne].
    - rewrite lookup_insert_eq. cbn [later]. by rewrite not_elem_of_list_to_map_1.
    - by rewrite lookup_insert_ne. }
  rewrite H by apply iter_keys. f_equal. rewrite <- (list_to_map_to_list m) at 2. f_equal.
  apply list_to_map_proper; [apply iter_keys|apply Hiter].
Qed.

Lemma tracks_file key f st r name file : alertField key = Some f -> tracks key st r ->
  tracks key (alert_file iter st (name, file)) (later r (file_value file key)).
Proof.
  intros Hf Ht. unfold alert_file, file_value. cbn [fst snd]. destruct (readServerCfg file); [|done].
  rewrite <- own_fold. by apply (tracks_fold key f).
Qed.

Lemma alert_state_tracks key f d : alertField key = Some f -> tracks key (alertState iter d) (lgsmCfgValues d false !! key).
Proof.
  intros Hf. rewrite merged_split. unfold below. change (later None (file_value (c_common d) key)) with (later None (file_value (c_common d) key)).
  unfold alertState, user_files. cbn [fold_left]. repeat apply (tracks_file key f); try done.
  left. cbn. by rewrite !lookup_empty.
Qed.

Lemma merged_default d k : lgsmCfgValues d true !! k = later (file_value (c_default d) k) (lgsmCfgValues d false !! k).
Proof.
  rewrite !merged_split. unfold below. by destruct (file_value (c_common d) k), (file_value (c_secrets_common d) k),
    (file_value (c_instance d) k), (file_value (c_secrets d) k).
Qed.

(** What [collect_alerts] gathers for each key. *)
Lemma collect_spec st defaults l : NoDup l.*1 -> forall p s p' s', collect_alerts st defaults l p s = Ok (p', s') ->
  (forall key v, (key, v) ∈ l -> match submitted_value st defaults key v with
     | Ok None => p' !! key = p !! key /\ s' !! key = s !! key
     | Ok (Some (true, w)) => s' !! key = Some w /\ p' !! key = p !! key
     | Ok (Some (false, w)) => p' !! key = Some w /\ s' !! key = s !! key
     | Err _ => False
     end) /\
  (forall key, key ∉ l.*1 -> p' !! key = p !! key /\ s' !! key = s !! key).
Proof.
  induction l as [|[k v] l IH]; intros Hnd p s p' s'; cbn [collect_alerts].
  { intros [= <- <-]. split; [by intros ? ? ?%not_elem_of_nil|done]. }
  cbn [fmap list_fmap fst] in *. apply NoDup_cons in Hnd as [Hk Hnd].
  destruct (submitted_value st defaults k v) as [o|] eqn:E; [|done]. intros Hc.
  assert (Hrest : exists p1 s1, collect_alerts st defaults l p1 s1 = Ok (p', s') /\
     (forall key, key <> k -> p1 !! key = p !! key /\ s1 !! key = s !! key) /\
     match o with None => p1 = p /\ s1 = s | Some (true, w) => p1 = p /\ s1 !! k = Some w | Some (false, w) => p1 !! k = Some w /\ s1 = s end).
  { destruct o as [[[] w]|]; eexists _, _; (split; [exact Hc|]).
    all: split; [intros key Hne; by rewrite ?lookup_insert_ne by done|by rewrite ?lookup_insert_eq]. }
  clear Hc. destruct Hrest as (p1 & s1 & Hc & Hother & Hmine). apply IH in Hc as [H1 H2]; [|done].
  destruct (H2 k Hk) as [Hp Hs]. split.
  - intros key v' [[= -> ->]|Hin]%elem_of_cons.
    + rewrite E. destruct o as [[[] w]|]; destruct Hmine as [Hm1 Hm2]; rewrite Hp, Hs; subst; done.
    + specialize (H1 _ _ Hin). assert (Hne : key <> k) by (intros ->; apply Hk, list_elem_of_fmap; by exists (k, v')).
      destruct (Hother _ Hne) as [<- <-]. exact H1.
  - intros key [Hne Hin]%not_elem_of_cons. destruct (H2 _ Hin) as [-> ->]. by apply Hother.
Qed.

Lemma submitted_ok st defaults key v b w : submitted_value st defaults key v = Ok (Some (b, w)) ->
  exists f, alertField key = Some f /\ b = f_Secret f /\ no_lf w.
Proof.
  unfold submitted_value. destruct (alertField key) as [f|]; [|done]. intros H. exists f. split; [done|].
  destruct (_ && negb (move st key f)); [done|]. set (u := if _ && _ then default "" _ else v) in *.
  destruct (_ && negb (String.eqb u "on") && _); [done|]. destruct (bad_alert_text u) eqn:Eb; [done|].
  assert (Hr : b = f_Secret f /\ w = u) by (repeat case_match; by simplify_eq).
  destruct Hr as [-> ->]. split; [done|]. unfold bad_alert_text in Eb. apply orb_false_iff in Eb as [Eb _].
  unfold no_lf, contains_byte. unfold contains_any in Eb. apply sany_false_sall in Eb. apply sany_false_sall.
  eapply sall_impl; [|exact Eb]. intros c Hc. cbv beta in *. rewrite negb_true_iff in *.
  destruct (Ascii.eqb_spec lf c) as [<-|]; [|done]. by vm_compute in Hc.
Qed.
End AlertLemmas.

(** The value a submitted one stands for: the mask of a secret that has to be moved stands for
    the stored secret. *)
Definition asked_value (st : alert_state) (f : AlertField) (key v : string) : string :=
  if f_Secret f && String.eqb v SecretMask then default "" (a_values st !! key) else v.
(** Submitting the mask of a secret keeps it where it is. *)
Definition keeps_secret (st : alert_state) (f : AlertField) (key v : string) : bool :=
  f_Secret f && String.eqb v SecretMask && negb (move st key f).

Definition shown (w : string) (b : option string) : option string := if String.eqb w "" then b else Some w.

Section SaveAlerts.
Context (ok : cfg_name -> bool) (iter : gmap string string -> list (string * string)) (Hiter : forall m, iter m ≡ₚ map_to_list m).

(** A value that is not written because it is the one in force. *)
Lemma unwritten_value d key v f : alertField key = Some f ->
  submitted_value (alertState iter d) (alert_defaults d) key v = Ok None -> keeps_secret (alertState iter d) f key v = false ->
  lgsmCfgValues d true !! key = shown (asked_value (alertState iter d) f key v) (below d true key).
Proof.
  intros Hf. pose proof (alert_state_tracks iter Hiter key f d Hf) as Ht.
  unfold submitted_value, keeps_secret, asked_value, shown. rewrite Hf.
  destruct (f_Secret f && String.eqb v SecretMask && negb (move _ key f)); [done|].
  set (u := if _ && _ then default "" _ else v). clearbody u. destruct (_ && negb (String.eqb u "on") && _); [done|].
  destruct (bad_alert_text u); [done|]. intros H _. destruct (a_values (alertState iter d) !! key) as [old|] eqn:Ea.
  - destruct (String.eqb_spec old u) as [->|]; [|done]. destruct (String.eqb u ""); [done|].
    destruct (move _ key f) eqn:Em; [done|]. rewrite merged_default. unfold tracks in Ht.
    destruct (lgsmCfgValues d false !! key) as [r|]; [cbn; destruct Ht as [Ht _]; congruence|].
    exfalso. destruct Ht as [(Ht & _)|(_ & Ht & _)]; [congruence|]. unfold move in Em. by rewrite Ht in Em.
  - unfold tracks in Ht. destruct (lgsmCfgValues d false !! key) as [r|] eqn:El; [destruct Ht; congruence|].
    assert (Hb : lgsmCfgValues d true !! key = file_value (c_default d) key) by (by rewrite merged_default, El).
    destruct (String.eqb_spec u "") as [->|Hu].
    + rewrite merged_split in El |- *. destruct (file_value (c_instance d) key), (file_value (c_secrets d) key); done.
    + destruct (String.eqb_spec u (default "" (alert_defaults d !! key))) as [->|]; [|done]. rewrite Hb.
      unfold alert_defaults, file_value in *. destruct (readServerCfg (c_default d)) as [c|]; [|done]. by destruct (cfgValues c !! key).
Qed.

Lemma clear_lookup m k : clear m !! k = (fun v => match v with Some s => if String.eqb s "" then None else v | None => None end) <$> m !! k.
Proof. apply lookup_fmap. Qed.

Lemma inst_changes_lookup plain secret keys k : legacyAlertKeys !! k = None ->
  inst_changes plain secret keys !! k =
    match secret !! k, plain !! k with
    | Some _, _ => Some None
    | None, Some v => Some (match keys !! k with Some _ => None | None => if String.eqb v "" then None else Some v end)
    | None, None => None
    end.
Proof.
  intros Hl. unfold inst_changes. rewrite clear_lookup, !lookup_union. unfold legacy_removed. rewrite !lookup_fmap, map_lookup_imap, Hl.
  destruct (secret !! k), (plain !! k); cbn; try done; by destruct (keys !! k).
Qed.
Lemma sec_changes_lookup plain secret keys k : legacyAlertKeys !! k = None ->
  sec_changes plain secret keys !! k =
    match secret !! k, plain !! k, keys !! k with
    | Some v, _, _ => Some (if String.eqb v "" then None else Some v)
    | None, Some v, Some _ => Some (if String.eqb v "" then None else Some v)
    | _, _, _ => None
    end.
Proof.
  intros Hl. unfold sec_changes. rewrite clear_lookup, !lookup_union. unfold legacy_removed. rewrite !lookup_fmap, map_lookup_imap, Hl.
  destruct (secret !! k), (plain !! k); cbn; try done; by destruct (keys !! k).
Qed.
Lemma legacy_changes plain secret keys k n : legacyAlertKeys !! k = Some n -> plain !! k = None -> secret !! k = None ->
  inst_changes plain secret keys !! k = Some None /\ sec_changes plain secret keys !! k = Some None.
Proof.
  intros Hl Hp Hs. unfold inst_changes, sec_changes. rewrite !clear_lookup, !lookup_union. unfold legacy_removed.
  by rewrite !lookup_fmap, !map_lookup_imap, Hl, Hp, Hs.
Qed.

(** What was collected holds names of LinuxGSM variables and texts of one line. *)
Definition collected (plain secret : gmap string string) : Prop :=
  forall k v, plain !! k = Some v \/ secret !! k = Some v -> is_Some (alertField k) /\ no_lf v.

Lemma changes_ok plain secret keys k v : collected plain secret ->
  inst_changes plain secret keys !! k = Some (Some v) \/ sec_changes plain secret keys !! k = Some (Some v) ->
  is_ident k = true /\ no_lf v.
Proof.
  intros Hc H. destruct (legacyAlertKeys !! k) as [n|] eqn:El.
  { exfalso. assert (Hnot : forall m : gmap string string, (forall v, m !! k = Some v -> is_Some (alertField k) /\ no_lf v) -> m !! k = None).
    { intros m Hm. destruct (m !! k) as [w|]; [|done]. destruct (Hm w eq_refl) as [[f Hf] _].
      by rewrite (alert_not_legacy _ _ Hf) in El. }
    destruct (legacy_changes plain secret keys k n El) as [E1 E2]; [apply Hnot; eauto..|].
    rewrite E1, E2 in H. by destruct H. }
  assert (Hv : plain !! k = Some v \/ secret !! k = Some v).
  { rewrite inst_changes_lookup, sec_changes_lookup in H by done.
    destruct (secret !! k) as [s|], (plain !! k) as [p|], (keys !! k); cbn in H;
      repeat match goal with _ : context [String.eqb ?x ""] |- _ => destruct (String.eqb x "") end;
      destruct H as [H|H]; simplify_eq; auto. }
  destruct (Hc _ _ Hv) as [[f Hf] Hn]. split; [by eapply alert_ident|done].
Qed.

Lemma collect_collected d submitted plain secret :
  collect_alerts (alertState iter d) (alert_defaults d) (iter submitted) ∅ ∅ = Ok (plain, secret) -> collected plain secret.
Proof.
  intros Hc. apply collect_spec in Hc as [H1 H2]; [|by apply iter_keys]. intros k v Hk.
  destruct (decide (k ∈ (iter submitted).*1)) as [Hin|Hout].
  2:{ destruct (H2 _ Hout) as [E1 E2]. rewrite E1, E2, !lookup_empty in Hk. by destruct Hk. }
  apply list_elem_of_fmap in Hin as ([k' u] & -> & Hin). specialize (H1 _ _ Hin). cbn [fst] in *.
  destruct (submitted_value _ _ k' u) as [[[b w]|]|] eqn:Eo; [|destruct H1 as [E1 E2]; rewrite E1, E2, !lookup_empty in Hk; by destruct Hk|done].
  destruct (submitted_ok _ _ _ _ _ _ Eo) as (f & Hf & _ & Hn).
  destruct b; destruct H1 as [E1 E2]; rewrite E1, E2, lookup_empty in Hk; destruct Hk as [[= <-]|[= <-]]; eauto.
Qed.

(** The files after a save that succeeded. *)
Lemma save_alerts_files submitted d u d' : SaveAlertSettings ok iter submitted d = (Ok u, d') ->
  exists plain secret instance secrets,
    collect_alerts (alertState iter d) (alert_defaults d) (iter submitted) ∅ ∅ = Ok (plain, secret) /\
    readServerCfg (c_instance d) = Some instance /\ readServerCfg (c_secrets d) = Some secrets /\
    holds d d' (Some (applyCfgChanges instance (inst_changes plain secret (cfgValues secrets))))
               (Some (applyCfgChanges secrets (sec_changes plain secret (cfgValues secrets)))).
Proof.
  unfold SaveAlertSettings. destruct (collect_alerts _ _ _ _ _) as [[plain secret]|]; [|done].
  destruct (readServerCfg (c_instance d)) as [instance|] eqn:Ei; [|done].
  destruct (readServerCfg (c_secrets d)) as [secrets|] eqn:Es; [|done].
  destruct (write_changed ok CInstance _ _ d) as [[u1|e] d1] eqn:E1; [|done]. intros E2.
  exists plain, secret, instance, secrets. split_and!; try done.
  eapply write_instance in E1; [|by rewrite <- Ei; apply holds_refl]. rewrite Es in E1. by eapply write_secrets in E2.
Qed.

Lemma asked_is_written st defaults key v f b w : alertField key = Some f -> submitted_value st defaults key v = Ok (Some (b, w)) ->
  w = asked_value st f key v /\ b = f_Secret f /\ keeps_secret st f key v = false.
Proof.
  intros Hf. unfold submitted_value, keeps_secret, asked_value. rewrite Hf.
  destruct (f_Secret f && String.eqb v SecretMask && negb (move st key f)); [done|].
  destruct (_ && negb (String.eqb _ "on") && _); [done|]. destruct (bad_alert_text _); [done|].
  intros H. repeat case_match; by simplify_eq.
Qed.
End SaveAlerts.

(** saving the alert form (SaveAlertSettings).  When it succeeds, the value LinuxGSM
    reads for every variable is the one submitted, in whatever file it was set before; a cleared
    field falls back to the files below the instance; the mask of a secret keeps the secret; and
    every variable that was not submitted keeps its value.  A secret that was set is in the
    secrets file only. *)
Theorem alerts_saved ok iter submitted d d' key :
  (forall m, iter m ≡ₚ map_to_list m) -> legacyAlertKeys !! key = None ->
  SaveAlertSettings ok iter submitted d = (Ok tt, d') ->
  lgsmCfgValues d' true !! key =
    match submitted !! key, alertField key with
    | Some v, Some f =>
        if keeps_secret (alertState iter d) f key v then lgsmCfgValues d true !! key
        else shown (asked_value (alertState iter d) f key v) (below d true key)
    | _, _ => lgsmCfgValues d true !! key
    end /\
  (forall v f, submitted !! key = Some v -> alertField key = Some f -> f_Secret f = true ->
     lgsmCfgValues d' true !! key <> lgsmCfgValues d true !! key -> file_value (c_instance d') key = None).
Proof.
  intros Hiter Hl E. apply save_alerts_files in E as (plain & secret & inst & secs & Hc & Hi & Hs & Hh).
  pose proof (collect_collected iter Hiter _ _ _ _ Hc) as Hco.
  assert (Hm : lgsmCfgValues d' true !! key = later (later (below d true key)
      (match inst_changes plain secret (cfgValues secs) !! key with Some (Some v) => Some v | Some None => None | None => cfgValues inst !! key end))
      (match sec_changes plain secret (cfgValues secs) !! key with Some (Some v) => Some v | Some None => None | None => cfgValues secs !! key end)
    /\ file_value (c_instance d') key =
      match inst_changes plain secret (cfgValues secs) !! key with Some (Some v) => Some v | Some None => None | None => cfgValues inst !! key end).
  { rewrite (holds_merged _ _ _ _ true key Hh). cbn [text_value]. unfold file_value. rewrite (proj1 Hh).
    rewrite !apply_cfg_changes_lookup; [done|..]; intros k v Hk; eapply changes_ok; eauto. }
  destruct Hm as [-> ->]. rewrite inst_changes_lookup, sec_changes_lookup by done.
  assert (Hold : lgsmCfgValues d true !! key = later (later (below d true key) (cfgValues inst !! key)) (cfgValues secs !! key))
    by (by rewrite merged_texts, Hi, Hs).
  apply collect_spec in Hc as [H1 H2]; [|by apply iter_keys].
  destruct (submitted !! key) as [v|] eqn:Esub.
  2:{ destruct (H2 key) as [-> ->]; [|rewrite !lookup_empty; by split]. intros ([k v] & -> & Hin)%list_elem_of_fmap. apply (iter_elem iter Hiter) in Hin.
      cbn [fst] in Esub. congruence. }
  specialize (H1 key v ltac:(by apply (iter_elem iter Hiter))). rewrite !lookup_empty in H1.
  destruct (submitted_value _ _ key v) as [[[b w]|]|] eqn:Eo; [..|done].
  - destruct (submitted_ok _ _ _ _ _ _ Eo) as (f & Hf & _). rewrite Hf. destruct (asked_is_written _ _ _ _ _ _ _ Hf Eo) as (-> & -> & ->).
    destruct (f_Secret f) eqn:Ef; destruct H1 as [E1 E2]; rewrite E1, ?E2.
    + unfold shown. by destruct (String.eqb _ "").
    + split; [|intros ? ? _ [= <-]; congruence]. unfold shown. destruct (cfgValues secs !! key), (String.eqb _ ""); done.
  - destruct H1 as [E1 E2]. rewrite E1, E2, <- Hold. split; [|done]. destruct (alertField key) as [f|] eqn:Hf; [|done].
    destruct (keeps_secret _ f key v) eqn:Ek; [done|]. by apply unwritten_value.
Qed.

(** A server whose webhook an earlier version wrote into the plain file. *)
Definition demo_dir : cfg_dir := mkCfgDir
  (Content (join (byte_str lf) ["discordalert=" +:+ dq +:+ "off" +:+ dq; "email=" +:+ dq +:+ "you@example.com" +:+ dq; ""]))
  Missing (Content ("email='ops@example.com'" +:+ byte_str lf))
  (Content (join (byte_str lf) ["discordwebhook=" +:+ dq +:+ "https://d/1" +:+ dq; "email='me@example.com'"; ""])) Missing.
Definition demo_submitted : gmap string string :=
  {[ "discordalert" := "on"; "discordwebhook" := SecretMask; "email" := "" ]}.

Lemma alerts_saved_witness :
  let d' := (SaveAlertSettings (fun _ => true) map_to_list demo_submitted demo_dir).2 in
  lgsmCfgValues d' true !! "email" = Some "ops@example.com" /\ lgsmCfgValues d' true !! "discordwebhook" = Some "https://d/1".
Proof.
  cbv zeta. split.
  - refine (eq_trans (proj1 (alerts_saved (fun _ => true) map_to_list demo_submitted demo_dir
      (SaveAlertSettings (fun _ => true) map_to_list demo_submitted demo_dir).2 "email"
      (fun m => reflexivity _) ltac:(vm_compute; reflexivity) ltac:(vm_compute; reflexivity))) _). vm_compute. reflexivity.
  - refine (eq_trans (proj1 (alerts_saved (fun _ => true) map_to_list demo_submitted demo_dir
      (SaveAlertSettings (fun _ => true) map_to_list demo_submitted demo_dir).2 "discordwebhook"
      (fun m => reflexivity _) ltac:(vm_compute; reflexivity) ltac:(vm_compute; reflexivity))) _). vm_compute. reflexivity.
Defined.

(** the answer of [GetAlertSettings] holds no secret. *)
Lemma alert_answer_masked iter d key f : alertField key = Some f -> f_Secret f = true ->
  as_Defaults (GetAlertSettings iter d) !! key = None /\
  (as_Values (GetAlertSettings iter d) !! key = None \/ as_Values (GetAlertSettings iter d) !! key = Some "" \/
   as_Values (GetAlertSettings iter d) !! key = Some SecretMask).
Proof.
  intros Hf Hs. unfold GetAlertSettings. cbn [as_Defaults as_Values]. split.
  - apply map_lookup_filter_None_2. right. intros v _. cbn [fst]. by rewrite Hf, Hs.
  - rewrite map_lookup_imap. destruct (a_values (alertState iter d) !! key) as [v|]; [|by left]. right. cbn [mbind option_bind].
    unfold masked_value. rewrite Hf, Hs. destruct (String.eqb_spec v "") as [->|]; [by left|by right].
Qed.

(** ** The stop mode *)

Lemma int_range_safe mode : isIntInRange mode 1 16 = true -> IsSafeCfgValue mode = true.
Proof.
  unfold isIntInRange. destruct (_ || _); [done|]. destruct (atoi mode) as [n|]; [|done]. intros H. to_prop.
  match goal with He : itoa n = mode |- _ => subst mode end.
  assert (Hn : In n (map Z.of_nat (seq 1 16))) by (apply in_map_iff; exists (Z.to_nat n); rewrite in_seq; lia).
  assert (Hall : forallb (fun n => IsSafeCfgValue (itoa n)) (map Z.of_nat (seq 1 16)) = true) by (vm_compute; reflexivity).
  rewrite forallb_forall in Hall. by apply Hall.
Qed.

(** saving a stop mode (SaveStopModeSettings) that succeeds: the form then shows it,
    and "default" or an empty mode removes what the instance set, so the form shows what the
    common files say, if anything.  No other setting changes its value. *)
Theorem stop_mode_saved ok mode d d' :
  SaveStopModeSettings ok mode d = (Ok tt, d') ->
  IsValidStopMode mode = true /\
  GetStopModeSettings d' =
    (if mem mode [""; "default"] then
       match below d false "stopmode" with Some m => if String.eqb m "" then "default" else m | None => "default" end
     else mode) /\
  forall k, k <> "stopmode" -> lgsmCfgValues d' true !! k = lgsmCfgValues d true !! k.
Proof.
  unfold SaveStopModeSettings. destruct (IsValidStopMode mode) eqn:Ev; [|done]. cbn [negb].
  set (m := if String.eqb mode "default" then "" else mode).
  destruct (saveInstanceCfgValues _ _ _ _ d) as [[u|] d1] eqn:Es; [|done]. intros [= _ <-]. split; [done|].
  assert (Hsafe : IsSafeCfgValue m = true /\ String.eqb m "" = mem mode [""; "default"] /\ (String.eqb m "" = false -> m = mode)).
  { unfold m. destruct (String.eqb_spec mode "default") as [->|Hd]; [done|].
    unfold IsValidStopMode, mem in *. cbn in *. destruct (String.eqb_spec mode "") as [->|He]; [done|]. destruct (String.eqb_spec mode "default"); [done|].
    split; [|done]. cbn in Ev. by apply int_range_safe in Ev. }
  destruct Hsafe as (Hsafe & He & Hm).
  assert (Hv : forall k v, ({[ "stopmode" := m ]} : gmap string string) !! k = Some v -> is_ident k = true /\ IsSafeCfgValue v = true /\ k ∈ ["stopmode"]).
  { intros k v [<- <-]%lookup_singleton_Some. split; [done|]. split; [done|left]. }
  split.
  - unfold GetStopModeSettings. rewrite (save_instance_values _ _ _ _ _ _ _ false "stopmode" Hv Es), lookup_singleton_eq.
    cbn [negb]. rewrite andb_true_r, He. destruct (mem mode _); [done|]. rewrite He. by apply Hm.
  - intros k Hk. rewrite (save_instance_values _ _ _ _ _ _ _ true k Hv Es). by rewrite lookup_singleton_ne.
Qed.

Lemma stop_mode_saved_witness :
  let d' := (SaveStopModeSettings (fun _ => true) "5" demo_dir).2 in
  GetStopModeSettings d' = "5" /\ lgsmCfgValues d' true !! "email" = Some "me@example.com".
Proof.
  cbv zeta. destruct (stop_mode_saved (fun _ => true) "5" demo_dir
    (SaveStopModeSettings (fun _ => true) "5" demo_dir).2 ltac:(vm_compute; reflexivity)) as (_ & H1 & H2).
  split; [exact H1|]. etransitivity; [apply H2; discriminate|]. vm_compute. reflexivity.
Defined.

(** ** Raw values *)

Definition raw_sets (k line : string) : option string :=
  match assignment line with
  | Some (k', v) => if String.eqb k' k then Some (trim_space v) else None
  | None => None
  end.
Definition raw_last (k : string) (acc : option string) (lines : list string) : option string :=
  fold_left (fun acc line => later acc (raw_sets k line)) lines acc.

Lemma raw_fold lines st k : (fold_left add_raw lines st).1 !! k = raw_last k (st.1 !! k) lines.
Proof.
  revert st. induction lines as [|l r IH]; intros [m o]; cbn [fold_left raw_last]; [done|]. rewrite IH.
  change (raw_last k ((add_raw (m, o) l).1 !! k) r = raw_last k (later (m !! k) (raw_sets k l)) r). f_equal.
  unfold add_raw, raw_sets. destruct (assignment l) as [[k' v]|]; [|done]. cbn [fst].
  destruct (String.eqb_spec k' k) as [->|]; [apply lookup_insert_eq|by apply lookup_insert_ne].
Qed.
Lemma raw_lookup content k : (cfgRawValues content).1 !! k = raw_last k None (split lf content).
Proof. unfold cfgRawValues. rewrite raw_fold. cbn. by rewrite lookup_empty. Qed.

(** The order lists exactly the keys that have a value, each once. *)
Lemma raw_order lines st : (forall k, k ∈ st.2 <-> is_Some (st.1 !! k)) -> NoDup st.2 ->
  let st' := fold_left add_raw lines st in (forall k, k ∈ st'.2 <-> is_Some (st'.1 !! k)) /\ NoDup st'.2.
Proof.
  revert st. induction lines as [|l r IH]; intros [m o] H1 H2; [done|]. cbn [fold_left]. apply IH.
  - intros k. unfold add_raw. destruct (assignment l) as [[k' v]|]; [|apply H1]. cbn in *.
    destruct (decide (k' = k)) as [->|Hne].
    + rewrite lookup_insert_eq. split; [eauto|]. intros _. destruct (m !! k) as [x|] eqn:E; [apply H1; eauto|].
      apply elem_of_app. right. by left.
    + rewrite lookup_insert_ne by done. destruct (m !! k'); [apply H1|]. rewrite elem_of_app, list_elem_of_singleton, H1.
      split; [intros [|]; congruence|by left].
  - unfold add_raw. destruct (assignment l) as [[k' v]|]; [|done]. cbn in *. destruct (m !! k') as [x|] eqn:E; [done|].
    apply NoDup_app. split; [done|]. split; [|by apply NoDup_singleton]. intros k Hk ->%list_elem_of_singleton.
    apply H1 in Hk as [y Hy]. congruence.
Qed.
Lemma raw_order_spec content k : k ∈ (cfgRawValues content).2 <-> is_Some ((cfgRawValues content).1 !! k).
Proof.
  apply (raw_order (split lf content) (∅, [])); [|constructor]. intros k'. cbn. rewrite lookup_empty. split; [by intros ?%elem_of_nil|by intros []].
Qed.

Lemma cfg_value_trim v : cfgValue (trim_space v) = cfgValue v.
Proof. unfold cfgValue. by rewrite trim_space_idem. Qed.

Lemma raw_to_value content k : cfgValues content !! k = cfgValue <$> (cfgRawValues content).1 !! k.
Proof.
  rewrite cfgValues_lookup, raw_lookup. change None with (cfgValue <$> @None string) at 1. generalize (@None string).
  induction (split lf content) as [|l r IH]; intros acc; [done|]. 
  change (last_value k (later (cfgValue <$> acc) (sets k l)) r = cfgValue <$> raw_last k (later acc (raw_sets k l)) r).
  rewrite <- IH. f_equal.
  unfold sets, raw_sets. destruct (assignment l) as [[k' v]|]; [|done]. destruct (String.eqb k' k); [|done]. cbn. by rewrite cfg_value_trim.
Qed.

Lemma trimmed_no_cr v w : trim_space v = v -> to_bytes v <> (w ++ [chr 13])%list.
Proof.
  intros Ht He. unfold trim_space in Ht. apply (f_equal to_bytes) in Ht. rewrite to_of_bytes in Ht. unfold ltrim_space in Ht.
  set (m := rev (ltrim space_width 0 (to_bytes v))) in Ht.
  assert (Hr : space_width_rev (ltrim space_width_rev 0 m) = 0%nat) by (apply ltrim_stop; [apply space_width_rev_le|lia]).
  rewrite He in Ht. apply (f_equal (@rev ascii)) in Ht. rewrite rev_involutive, rev_app_distr in Ht. rewrite Ht in Hr.
  unfold space_width_rev in Hr. cbn [rev app] in Hr.
  destruct (Nat.eqb _ 3); [done|]. by destruct (Nat.eqb _ 2).
Qed.

Definition raw_ok (v : string) : Prop := trim_space v = v /\ no_lf v.

Lemma raw_line_trim k v : is_ident k = true -> raw_ok v -> trim_right (k +:+ "=" +:+ v) cr = k +:+ "=" +:+ v.
Proof.
  intros Hk [Hv _]. unfold trim_right, cr. rewrite <- (of_to_bytes (k +:+ "=" +:+ v)) at 2. f_equal.
  assert (Hl : exists w c, to_bytes (k +:+ "=" +:+ v) = (w ++ [c])%list /\ c <> chr 13).
  { rewrite to_bytes_app. change (to_bytes ("=" +:+ v)) with ("="%char :: to_bytes v).
    destruct (to_bytes v) as [|c0 r0] eqn:E using rev_ind.
    - exists (to_bytes k), "="%char. by split.
    - exists (to_bytes k ++ "="%char :: r0)%list, c0. split; [by rewrite <- app_assoc|]. intros ->. by apply (trimmed_no_cr v r0 Hv). }
  destruct Hl as (w & c & -> & Hc). rewrite rev_app_distr. cbn [rev app ldrop_while].
  assert (Hone : one_of (of_bytes [chr 13]) c = false).
  { unfold one_of. rewrite to_of_bytes. cbn [existsb]. rewrite orb_false_r. by apply Ascii.eqb_neq. }
  rewrite Hone. cbn [rev]. by rewrite rev_involutive.
Qed.

Lemma assignment_raw_line k v : is_ident k = true -> raw_ok v -> assignment (k +:+ "=" +:+ v) = Some (k, v).
Proof.
  intros Hk Hv. unfold assignment. rewrite raw_line_trim by done. unfold reCfgAssignment. rewrite to_bytes_app.
  unfold is_ident in Hk. destruct (to_bytes k) as [|c r] eqn:E; [done|]. apply andb_true_iff in Hk as [Hc Hr]. cbn [app ldrop_while].
  rewrite ident_no_space by done. rewrite Hc. change (to_bytes ("=" +:+ v)) with ("="%char :: to_bytes v).
  rewrite span_all by done. rewrite Ascii.eqb_refl, of_to_bytes, <- E, of_to_bytes. reflexivity.
Qed.

Lemma raw_sets_line k v k' : is_ident k = true -> raw_ok v -> raw_sets k' (k +:+ "=" +:+ v) = if String.eqb k k' then Some v else None.
Proof. intros Hk Hv. unfold raw_sets. rewrite assignment_raw_line by done. by rewrite (proj1 Hv). Qed.

(** Values that were read from a text. *)
Lemma reCfg_value line k v c : reCfgAssignment line = Some (k, v) -> In c (to_bytes v) -> In c (to_bytes line).
Proof.
  unfold reCfgAssignment. destruct (ldrop_while re_space (to_bytes line)) as [|a r] eqn:E; [done|].
  destruct (ident_start a); [|done]. destruct (span ident_char r) as [id rest] eqn:Es. destruct rest as [|e w]; [done|].
  destruct (Ascii.eqb e "="); [|done]. intros [= _ <-]. rewrite to_of_bytes. intros Hin.
  apply (ldrop_while_In re_space). rewrite E. right. apply span_spec in Es as [-> _]. apply in_app_iff. right. by right.
Qed.
Lemma raw_sets_ok k line v : no_lf line -> raw_sets k line = Some v -> raw_ok v.
Proof.
  unfold raw_sets. intros Hn. destruct (assignment line) as [[k' w]|] eqn:E; [|done]. destruct (String.eqb k' k); [|done].
  intros [= <-]. split; [apply trim_space_idem|]. unfold no_lf in *. rewrite contains_byte_false in *. intros Hin. apply Hn.
  apply (trim_right_In _ cr). eapply reCfg_value; [exact E|]. by apply trim_space_In.
Qed.
Lemma raw_value_ok content k v : (cfgRawValues content).1 !! k = Some v -> is_ident k = true /\ raw_ok v.
Proof.
  rewrite raw_lookup.
  assert (H : forall lines acc, Forall no_lf lines -> raw_last k acc lines = Some v -> acc = Some v \/ is_ident k = true /\ raw_ok v).
  { induction lines as [|l r IH]; intros acc Hl; [by left|]. inversion Hl; subst. cbn [raw_last fold_left]. intros [H|H]%IH; [|by right|done].
    unfold later in H. destruct (raw_sets k l) as [x|] eqn:E; [|by left]. injection H as ->. right. split; [|by eapply raw_sets_ok].
    unfold raw_sets in E. destruct (assignment l) as [[k' w]|] eqn:Ea; [|done]. destruct (String.eqb_spec k' k) as [<-|]; [|done].
    by apply assignment_ident in Ea as [].  }
  intros Hr. apply H in Hr as [|]; [done..|apply split_no_lf].
Qed.

(** ** Writing raw values *)

Definition raw_values_ok (values : gmap string string) : Prop := forall k v, values !! k = Some v -> is_ident k = true /\ raw_ok v.

Lemma raw_sets_ident k line v : raw_sets k line = Some v -> is_ident k = true.
Proof.
  unfold raw_sets. destruct (assignment line) as [[k' w]|] eqn:E; [|done]. destruct (String.eqb_spec k' k) as [<-|]; [|done].
  by apply assignment_ident in E as [].
Qed.
Lemma raw_line_sets values line k : raw_values_ok values ->
  raw_sets k (raw_line values line) = (fun v => default v (values !! k)) <$> raw_sets k line.
Proof.
  intros Hv. unfold raw_line. destruct (assignment line) as [[k' w]|] eqn:E; [|unfold raw_sets; by rewrite E].
  destruct (values !! k') as [x|] eqn:Ex.
  - destruct (Hv _ _ Ex). rewrite raw_sets_line by done. unfold raw_sets. rewrite E.
    destruct (String.eqb_spec k' k) as [->|]; [|done]. simpl. by rewrite Ex.
  - unfold raw_sets. rewrite E. destruct (String.eqb_spec k' k) as [->|]; [|done]. simpl. by rewrite Ex.
Qed.

Lemma raw_last_app k acc a b : raw_last k acc (a ++ b)%list = raw_last k (raw_last k acc a) b.
Proof. apply fold_left_app. Qed.
Lemma raw_last_cons k acc l r : raw_last k acc (l :: r) = raw_last k (later acc (raw_sets k l)) r.
Proof. done. Qed.
Lemma raw_last_acc k lines acc : raw_last k acc lines = later acc (raw_last k None lines).
Proof.
  revert acc. induction lines as [|l r IH]; intros acc; [done|]. rewrite !raw_last_cons, (IH (later acc _)), (IH (later None _)).
  by destruct (raw_last k None r), (raw_sets k l).
Qed.

Lemma raw_last_map values lines k : raw_values_ok values ->
  raw_last k None (map (raw_line values) lines) = (fun v => default v (values !! k)) <$> raw_last k None lines.
Proof.
  intros Hv. induction lines as [|l r IH]; [done|]. cbn [map]. rewrite !raw_last_cons, raw_line_sets by done.
  rewrite (raw_last_acc k (map _ r)), (raw_last_acc k r), IH. by destruct (raw_last k None r), (raw_sets k l).
Qed.

Lemma raw_updated_spec values lines k : k ∈ raw_updated values lines <-> is_Some (values !! k) /\ is_Some (raw_last k None lines).
Proof.
  unfold raw_updated. induction lines as [|l r IH]; cbn [omap list_omap]; [split; [by intros ?%elem_of_empty|by intros [_ []]]|].
  rewrite raw_last_cons, raw_last_acc.
  assert (Hcons : forall o : option string, k ∈ list_to_set (C := gset string) (match o with Some y => y :: omap (fun line => match assignment line with
    | Some (k, _) => match values !! k with Some _ => Some k | None => None end | None => None end) r | None => omap (fun line => match assignment line with
    | Some (k, _) => match values !! k with Some _ => Some k | None => None end | None => None end) r end)
    <-> o = Some k \/ (is_Some (values !! k) /\ is_Some (raw_last k None r))).
  { intros [y|]; rewrite <- IH; [|naive_solver]. cbn [list_to_set]. rewrite elem_of_union, elem_of_singleton. naive_solver. }
  rewrite Hcons. clear IH Hcons. unfold raw_sets. destruct (assignment l) as [[k' v]|].
  - destruct (String.eqb_spec k' k) as [->|Hne].
    + destruct (values !! k) as [x|] eqn:Ex; [|split; [intros [|[[] _]]; done|by intros [[] _]]].
      split; [intros _|by left]. split; [eauto|]. destruct (raw_last k None r); eauto.
    + destruct (values !! k'); destruct (raw_last k None r); cbn; split; intros H; try (destruct H as [H|H]); naive_solver.
  - destruct (raw_last k None r); cbn; naive_solver.
Qed.

Lemma drop_last_empty_raw k lines : raw_last k None (drop_last_empty lines) = raw_last k None lines.
Proof.
  unfold drop_last_empty. destruct (rev lines) as [|x r] eqn:E; [by apply (f_equal (@rev string)) in E; rewrite rev_involutive in E; subst|].
  destruct (String.eqb_spec x "") as [->|]; [|done]. apply (f_equal (@rev string)) in E. rewrite rev_involutive in E. subst.
  cbn [rev]. by rewrite raw_last_app.
Qed.

Lemma raw_last_added values updated order k : raw_values_ok values -> (forall key, key ∈ order -> is_Some (values !! key)) ->
  raw_last k None (omap (fun key => if bool_decide (key ∈ (updated : gset string)) then None
                                   else Some (key +:+ "=" +:+ default "" (values !! key))) order)
  = if decide (k ∈ order /\ k ∉ updated) then values !! k else None.
Proof.
  intros Hv. induction order as [|key r IH]; intros Ho; [by rewrite decide_False by (intros [?%elem_of_nil _]; done)|].
  cbn [omap list_omap]. specialize (IH (fun key H => Ho key (list_elem_of_further _ _ _ H))).
  destruct (Ho key ltac:(left)) as [x Hx]. destruct (Hv _ _ Hx) as [Hid Hok].
  case_bool_decide as Hu.
  - rewrite IH. apply decide_ext. rewrite elem_of_cons. naive_solver.
  - rewrite raw_last_cons, Hx, raw_last_acc, IH, raw_sets_line by done. cbn [default later].
    destruct (String.eqb_spec key k) as [->|Hne].
    + rewrite (decide_True (P := k ∈ k :: r /\ _)) by (split; [left|done]). rewrite Hx. by destruct (decide _).
    + rewrite (decide_ext (k ∈ key :: r /\ k ∉ updated) (k ∈ r /\ k ∉ updated)) by (rewrite elem_of_cons; clear -Hne; naive_solver).
      by destruct (decide _), (values !! k).
Qed.

Lemma raw_join_nl lines k : Forall no_lf lines -> (cfgRawValues (join (byte_str lf) lines +:+ byte_str lf)).1 !! k = raw_last k None lines.
Proof.
  intros Hl. rewrite raw_lookup. destruct lines as [|l r]; [done|].
  assert (He : join (byte_str lf) (l :: r) +:+ byte_str lf = join (byte_str lf) ((l :: r) ++ [""])%list).
  { rewrite join_snoc by done. by rewrite string_app_nil_r. }
  rewrite He, split_join; [by rewrite raw_last_app|done|by apply Forall_app; split; [|repeat constructor]].
Qed.

Lemma raw_line_no_lf k v : is_ident k = true -> raw_ok v -> no_lf (k +:+ "=" +:+ v).
Proof. intros Hk [_ Hv]. repeat apply no_lf_app; try done. by apply ident_no_lf. Qed.

Lemma set_raw_lookup content values order k : raw_values_ok values -> (forall key, key ∈ order -> is_Some (values !! key)) ->
  (cfgRawValues (setCfgRawValues content values order)).1 !! k =
    match values !! k with
    | None => (cfgRawValues content).1 !! k
    | Some w => if decide (k ∈ order \/ is_Some ((cfgRawValues content).1 !! k)) then Some w else None
    end.
Proof.
  intros Hv Ho. unfold setCfgRawValues. rewrite raw_join_nl.
  - rewrite raw_last_app, raw_last_acc, raw_last_added, drop_last_empty_raw, raw_last_map, raw_lookup by done.
    pose proof (raw_updated_spec values (split lf content) k) as Hu.
    destruct (values !! k) as [w|] eqn:Ew.
    + destruct (raw_last k None (split lf content)) as [o|]; cbn.
      * rewrite decide_False by (intros [_ Hn]; apply Hn, Hu; eauto). by rewrite decide_True by eauto.
      * destruct (decide (k ∈ order)).
        -- rewrite !decide_True; [done|by left|]. split; [done|]. intros Hin. apply Hu in Hin as [_ []]. done.
        -- rewrite !decide_False; [done|intros [|[]]; done|by intros []].
    + rewrite decide_False; [|intros [Hin _]; apply Ho in Hin as [? ?]; congruence]. by destruct (raw_last k None (split lf content)).
  - apply Forall_app. split.
    + assert (Hm : Forall no_lf (map (raw_line values) (split lf content))).
      { apply Forall_map. eapply Forall_impl; [apply split_no_lf|]. intros line Hl. unfold raw_line.
        destruct (assignment line) as [[k' x]|]; [|done]. destruct (values !! k') as [y|] eqn:Ey; [|done].
        destruct (Hv _ _ Ey). by apply raw_line_no_lf. }
      unfold drop_last_empty. destruct (rev _) as [|x r] eqn:E; [done|]. destruct (String.eqb x ""); [|done].
      apply Forall_rev. assert (Hr : Forall no_lf (rev (map (raw_line values) (split lf content)))) by (by apply Forall_rev).
      rewrite E in Hr. by inversion Hr.
    + apply Forall_forall. intros line Hin. apply list_elem_of_omap in Hin as (key & Hk & He). case_bool_decide; [done|].
      injection He as <-. destruct (Ho _ Hk) as [x Hx]. rewrite Hx. destruct (Hv _ _ Hx). by apply raw_line_no_lf.
Qed.

(** ** Edits of _default.cfg *)

Lemma changed_keys_spec content current k :
  k ∈ changed_keys (cfgRawValues current).1 (cfgRawValues content).1 (cfgRawValues content).2 <->
  is_Some ((cfgRawValues content).1 !! k) /\ (cfgRawValues current).1 !! k <> (cfgRawValues content).1 !! k.
Proof.
  unfold changed_keys. rewrite list_elem_of_filter, raw_order_spec. split.
  - intros [H1 [x Hx]]. rewrite Hx in H1 |- *. by split.
  - intros [[x Hx] H2]. rewrite Hx in H2 |- *. by split.
Qed.

Lemma changed_values_lookup content keys k : (forall k, k ∈ keys -> is_Some ((cfgRawValues content).1 !! k)) ->
  changed_values (cfgRawValues content).1 keys !! k = if decide (k ∈ keys) then (cfgRawValues content).1 !! k else None.
Proof.
  unfold changed_values. induction keys as [|key r IH]; intros Hk; [done|]. cbn [map list_to_map foldr uncurry].
  destruct (Hk key ltac:(left)) as [x Hx]. destruct (decide (key = k)) as [->|Hne].
  - rewrite lookup_insert_eq, decide_True by left. by rewrite Hx.
  - rewrite lookup_insert_ne, IH by (try done; intros; apply Hk; by right). apply decide_ext. rewrite elem_of_cons. naive_solver.
Qed.

(** The two rewrites of a save, for the changed keys [ks]. *)
Section Overrides.
Context (content : string) (ks : list string) (Hks : forall k, k ∈ ks -> is_Some ((cfgRawValues content).1 !! k)).
Let changed := changed_values (cfgRawValues content).1 ks.
Definition overlap (secs : string) : gmap string string := filter (fun kv => is_Some ((cfgRawValues secs).1 !! kv.1)) changed.

Lemma edited_value k : k ∈ ks -> exists x, (cfgRawValues content).1 !! k = Some x /\ cfgValues content !! k = Some (cfgValue x).
Proof. intros Hk. destruct (Hks k Hk) as [x Hx]. exists x. split; [done|]. by rewrite raw_to_value, Hx. Qed.

Lemma changed_ok : raw_values_ok changed.
Proof. intros k v. unfold changed. rewrite changed_values_lookup by done. destruct (decide _); [apply raw_value_ok|done]. Qed.

Lemma instance_override inst k :
  cfgValues (setCfgRawValues inst changed ks) !! k = if decide (k ∈ ks) then cfgValues content !! k else cfgValues inst !! k.
Proof.
  rewrite !raw_to_value, set_raw_lookup; [|apply changed_ok|].
  - unfold changed. rewrite changed_values_lookup by done. destruct (decide (k ∈ ks)) as [Hk|]; [|done].
    destruct (Hks k Hk) as [x ->]. by rewrite decide_True by (by left).
  - intros key Hk. unfold changed. rewrite changed_values_lookup, decide_True by done. by apply Hks.
Qed.

Lemma overlap_lookup secs k :
  overlap secs !! k = if decide (k ∈ ks /\ is_Some ((cfgRawValues secs).1 !! k)) then (cfgRawValues content).1 !! k else None.
Proof.
  unfold overlap, changed. rewrite map_lookup_filter, changed_values_lookup by done. destruct (decide (k ∈ ks)) as [Hk|].
  2: by rewrite decide_False by tauto.
  destruct (Hks k Hk) as [x ->]. cbn. destruct (decide (is_Some ((cfgRawValues secs).1 !! k))) as [Hs|Hs].
  - rewrite option_guard_True by done. by rewrite decide_True by tauto.
  - rewrite option_guard_False by done. by rewrite decide_False by tauto.
Qed.

(** What a text that is loaded last must say for the edit to take effect. *)
Definition overridden (old new : option string) : Prop :=
  forall k, text_value new k = match text_value old k with
    | Some o => if decide (k ∈ ks) then cfgValues content !! k else Some o | None => None end.

Lemma secrets_override secs : overridden (Some secs) (Some (setCfgRawValues secs (overlap secs) [])).
Proof.
  intros k. cbn [text_value]. rewrite raw_to_value, (raw_to_value secs), set_raw_lookup.
  - rewrite overlap_lookup. destruct ((cfgRawValues secs).1 !! k) as [o|] eqn:Eo; cbn.
    + destruct (decide (k ∈ ks)) as [Hk|]; [|by rewrite decide_False by tauto].
      destruct (edited_value k Hk) as (x & Hx & ->). by rewrite decide_True, Hx, decide_True by eauto.
    + by rewrite decide_False by (intros [_ []]; done).
  - intros k' v. rewrite overlap_lookup. destruct (decide _); [apply raw_value_ok|done].
  - by intros key ?%elem_of_nil.
Qed.
Lemma no_overlap secs : overlap secs = ∅ -> overridden (Some secs) (Some secs).
Proof.
  intros He k. cbn [text_value]. pose proof (overlap_lookup secs k) as Hov. rewrite He, lookup_empty in Hov. rewrite (raw_to_value secs).
  destruct ((cfgRawValues secs).1 !! k) as [o|]; [|done]. cbn. destruct (decide (k ∈ ks)) as [Hk|]; [|done].
  rewrite decide_True in Hov by eauto. destruct (Hks k Hk) as [x Hx]. congruence.
Qed.

Lemma override_merged d d' inst s k : readServerCfg (c_instance d) = Some inst ->
  holds d d' (Some (setCfgRawValues inst changed ks)) s -> overridden (readServerCfg (c_secrets d)) s ->
  lgsmCfgValues d' true !! k = if decide (k ∈ ks) then cfgValues content !! k else lgsmCfgValues d true !! k.
Proof.
  intros Hi Hh Hs. rewrite (holds_merged _ _ _ _ true k Hh), (Hs k), merged_texts, Hi. cbn [text_value]. rewrite instance_override.
  destruct (decide (k ∈ ks)) as [Hk|]; [|by destruct (text_value _ k)].
  destruct (edited_value k Hk) as (x & _ & ->). by destruct (text_value _ k).
Qed.
End Overrides.

(** editing _default.cfg (saveDefaultCfgOverrides), which LinuxGSM restores on every
    run.  When it succeeds, exactly the settings whose line in the edited text differs take the
    value of the edited text, whatever the other files set, all other settings keep their value,
    and _default.cfg itself is not written. *)
Theorem default_edit_takes_effect ok resolve content d keys d' :
  resolve CSecrets = true -> saveDefaultCfgOverrides ok resolve content d = (Ok keys, d') ->
  c_default d' = c_default d /\
  exists current, c_default d = Content current /\
  (forall k, k ∈ keys <-> is_Some ((cfgRawValues content).1 !! k) /\ (cfgRawValues current).1 !! k <> (cfgRawValues content).1 !! k) /\
  (forall k, lgsmCfgValues d' true !! k = if decide (k ∈ keys) then cfgValues content !! k else lgsmCfgValues d true !! k).
Proof.
  intros Hres. unfold saveDefaultCfgOverrides. destruct (c_default d) as [| |current] eqn:Ed; [done..|].
  rewrite (surjective_pairing (cfgRawValues content)).
  set (ks := changed_keys _ _ _). pose proof (changed_keys_spec content current) as Hspec. fold ks in Hspec.
  assert (Hks : forall k, k ∈ ks -> is_Some ((cfgRawValues content).1 !! k)) by (intros k Hk; by apply Hspec in Hk as []).
  assert (Hfin : c_default d' = Content current -> (forall k, lgsmCfgValues d' true !! k = if decide (k ∈ ks) then cfgValues content !! k
      else lgsmCfgValues d true !! k) -> keys = ks -> c_default d' = Content current /\ exists current0, Content current = Content current0 /\
    (forall k, k ∈ keys <-> is_Some ((cfgRawValues content).1 !! k) /\ (cfgRawValues current0).1 !! k <> (cfgRawValues content).1 !! k) /\
    (forall k, lgsmCfgValues d' true !! k = if decide (k ∈ keys) then cfgValues content !! k else lgsmCfgValues d true !! k))
    by (intros H1 H2 ->; split; [done|]; by exists current).
  destruct (decide (ks = [])) as [He|_].
  { intros [= <- <-]. apply Hfin; [done| |done]. intros k. by rewrite He, decide_False by apply not_elem_of_nil. }
  destruct (resolve CInstance); [|done]. cbn [negb]. destruct (readServerCfg (c_instance d)) as [inst|] eqn:Ei; [|done].
  destruct (write ok CInstance _ d) as [[u1|e] d1] eqn:Ew; [|done].
  assert (Hd1 : c_default d1 = Content current /\ c_secrets d1 = c_secrets d)
    by (unfold write in Ew; destruct (ok CInstance); [injection Ew as _ <-; done|done]).
  destruct Hd1 as [Hd1 Hs1]. eapply put_instance in Ew; [|apply holds_refl]. rewrite Hres, Hs1.
  pose proof (fun s k => override_merged content ks Hks d d' inst s k Ei) as Hm. 
  destruct (c_secrets d) as [| |secs] eqn:Es; cbn [readServerCfg] in *.
  - intros [= <- <-]. apply Hfin; [done| |done]. intros k. by apply (Hm (Some "")).
  - intros [= <- <-]. apply Hfin; [done| |done]. intros k. by apply (Hm None).
  - fold (overlap content ks secs). destruct (decide (overlap content ks secs = ∅)) as [He|_].
    + intros [= <- <-]. apply Hfin; [done| |done]. intros k. apply (Hm (Some secs)); [done|by apply no_overlap].
    + destruct (write ok CSecrets _ d1) as [[u2|e] d2] eqn:Ew2; [|done]. intros [= <- <-].
      unfold write in Ew2. destruct (ok CSecrets); [|done]. injection Ew2 as _ <-.
      apply Hfin; [done| |done]. intros k. apply (Hm (Some (setCfgRawValues secs (overlap content ks secs) []))).
      * by destruct Ew as (H1 & _ & H3).
      * by apply secrets_override.
Qed.

Definition demo_edit : string := join (byte_str lf) ["discordalert=on"; "email=new@example.com"; ""].
Lemma default_edit_takes_effect_witness :
  let d' := (saveDefaultCfgOverrides (fun _ => true) (fun _ => true) demo_edit demo_dir).2 in
  lgsmCfgValues d' true !! "email" = Some "new@example.com" /\ lgsmCfgValues d' true !! "discordwebhook" = Some "https://d/1".
Proof.
  cbv zeta. destruct (default_edit_takes_effect (fun _ => true) (fun _ => true) demo_edit demo_dir ["discordalert"; "email"]
    (saveDefaultCfgOverrides (fun _ => true) (fun _ => true) demo_edit demo_dir).2 eq_refl ltac:(vm_compute; reflexivity)) as (_ & _ & _ & _ & H).
  split; (etransitivity; [apply H|]); vm_compute; reflexivity.
Defined.
