(* ===== verification/ConfigFiles.v ===== *)
(** * Config files and their editor (backend/configfiles.go, backend/server_files.go)

    Which files the editor lists, opens and saves: LinuxGSM's own configs, the game config
    LinuxGSM names in them, and what a scan of serverfiles finds; and the reads of the file
    manager.  The writes are in ServerFiles.v and Settings.v. *)

From Stdlib Require Import ZArith Lia Bool String Ascii List.
From stdpp Require Import base gmap strings list fin_maps.
From S2P Require Import Prelude GoStrings Validate Paths SafeFs Cfg ServerFiles.

(** ** Variables of LinuxGSM *)

(** A variable at the start of the text: [${name}] or [$name], and what follows. *)
Definition braced_var (l : bytes) : option (bytes * bytes) :=
  match l with
  | d :: b :: c :: r =>
      if Ascii.eqb d "$" && Ascii.eqb b "{" && ident_start c then
        match span ident_char r with
        | (id, e :: rest) => if Ascii.eqb e "}" then Some (c :: id, rest) else None
        | (_, []) => None
        end
      else None
  | _ => None
  end.
Definition plain_var (l : bytes) : option (bytes * bytes) :=
  match l with
  | d :: c :: r => if Ascii.eqb d "$" && ident_start c then let '(id, rest) := span ident_char r in Some (c :: id, rest) else None
  | _ => None
  end.
Definition reLGSMVar (l : bytes) : option (bytes * bytes) :=
  match braced_var l with Some m => Some m | None => plain_var l end.

(** One round of [ReplaceAllStringFunc]; [None] for an unknown variable.  A match is never
    empty, so the length of the text is fuel enough. *)
Fixpoint replace_vars (look : string -> option string) (fuel : nat) (l : bytes) : option bytes :=
  match fuel, l with
  | _, [] => Some []
  | O, _ :: _ => None
  | S fuel, c :: r =>
      match reLGSMVar l with
      | Some (name, rest) =>
          match look (of_bytes name) with
          | Some v => option_map (fun out => to_bytes v ++ out)%list (replace_vars look fuel rest)
          | None => None
          end
      | None => option_map (cons c) (replace_vars look fuel r)
      end
  end.

Definition lgsm_look (values base : gmap string string) (name : string) : option string :=
  match base !! name with Some v => Some v | None => values !! name end.

Fixpoint expand_loop (look : string -> option string) (depth : nat) (value : string) : option string :=
  match depth with
  | O => Some value
  | S depth =>
      if contains_byte value "$" then
        match replace_vars look (String.length value) (to_bytes value) with
        | Some l => expand_loop look depth (of_bytes l)
        | None => None
        end
      else Some value
  end.
Definition expandLGSMValue (value : string) (values base : gmap string string) : option string :=
  if contains_byte value "`" || contains value "$(" then None else
  match expand_loop (lgsm_look values base) 10 value with
  | Some v => if contains_byte v "$" then None else Some v
  | None => None
  end.

(** [home]: the home directory of the user of the server in the password file, if any. *)
Definition lgsmBaseVars (srv : Instance) (home : option string) : gmap string string :=
  if String.eqb (i_Layout srv) LayoutData then
    list_to_map [("rootdir", dockerScriptDir); ("lgsmdir", dockerScriptDir +:+ "/lgsm"); ("serverfiles", containerDataDir +:+ "/serverfiles");
                 ("HOME", containerDataDir); ("selfname", i_Script srv); ("USER", "linuxgsm"); ("username", "linuxgsm")]
  else
    let home := match home with Some h => if String.eqb h "" then i_Dir srv else h | None => i_Dir srv end in
    list_to_map [("rootdir", i_Dir srv); ("lgsmdir", Join [i_Dir srv; "lgsm"]); ("serverfiles", Join [i_Dir srv; "serverfiles"]);
                 ("HOME", home); ("selfname", i_Script srv); ("USER", i_User srv); ("username", i_User srv)].

(** The game configs LinuxGSM names, as paths of the dashboard; [values] are the merged configs. *)
Definition linuxGSMConfigPaths (srv : Instance) (home : option string) (values : gmap string string) : list string :=
  omap (fun key =>
    match values !! key with
    | None => None
    | Some raw =>
        if String.eqb raw "" then None else
        match expandLGSMValue raw values (lgsmBaseVars srv home) with
        | None => None
        | Some p =>
            if negb (IsAbs p) then None else
            if String.eqb (i_Layout srv) LayoutData then
              let p := dashboardPath srv p in if String.eqb p "" then None else Some (Clean p)
            else Some (Clean p)
        end
    end) ["servercfgfullpath"; "clustercfgfullpath"].

(** ** What the editor may open *)

Definition lgsmConfigRel (srv : Instance) (gameName : string) : string :=
  configRel srv (if String.eqb (i_Layout srv) LayoutData then gameServerName (i_Script srv) else gameName).

Definition ext_of (path : string) : string :=
  let l := rev (to_bytes path) in
  let '(e, rest) := span (fun c => negb (Ascii.eqb c "." || Ascii.eqb c "/")) l in
  match rest with c :: _ => if Ascii.eqb c "." then of_bytes (c :: rev e) else "" | [] => "" end.
Definition editableConfigExt : list string :=
  [".cfg"; ".ini"; ".properties"; ".conf"; ".json"; ".yml"; ".yaml"; ".xml"; ".txt"; ".toml"].
Definition IsEditableConfigFile (name : string) : bool := mem (to_lower (ext_of name)) editableConfigExt.

Inductive config_error := ENotEditable | EOutside.

Section Editor.
Context (F : FileSystem) (srv : Instance) (uid : Z) (gameName : string) (home : option string) (values : gmap string string).

Definition configRoots : list string :=
  omap (fun rel => match ServerSubRoot (i_Dir srv) rel uid with Ok r => Some r | Err _ => None end)
    [lgsmConfigRel srv gameName; "serverfiles"].

Definition user_home : string := default "" (lgsmBaseVars srv home !! "HOME").
Definition gameConfigRoots : list string :=
  (i_Dir srv :: configRoots) ++
  (if negb (String.eqb (i_Layout srv) LayoutData) && negb (String.eqb user_home (i_Dir srv)) && negb (IsForbiddenServerDir user_home)
   then [user_home] else []).
Definition inside_server (resolved : string) : bool :=
  match EvalSymlinks (i_Dir srv) with Resolved dir => IsWithin dir resolved | _ => false end.
(** The owner of a file of another user is refused; -1 is an unknown owner. *)
Definition owned_by_user (resolved : string) : bool :=
  match fileOwnerUID resolved with Some u => negb ((u >=? 0) && negb (u =? uid)) | None => false end.

Definition isLinuxGSMConfigFile (path : string) : option string :=
  let clean := Clean path in
  if mem clean (linuxGSMConfigPaths srv home values) then
    match ResolveAbsInRoots clean gameConfigRoots with
    | Err _ => None
    | Ok resolved => if inside_server resolved || owned_by_user resolved then Some resolved else None
    end
  else None.

Definition resolveConfigPath (path : string) : result config_error string :=
  match isLinuxGSMConfigFile path with
  | Some resolved => Ok resolved
  | None =>
      if negb (IsEditableConfigFile path) then Err ENotEditable else
      match ResolveAbsInRoots path configRoots with
      | Err _ => Err EOutside
      | Ok resolved => if IsEditableConfigFile resolved then Ok resolved else Err ENotEditable
      end
  end.

(** The file an editor opens lies in LinuxGSM's own files. *)
Definition IsLinuxGSMSettingsFile (path : string) : bool :=
  let dir := Join [i_Dir srv; configLgsmRel srv] in
  if IsWithin dir (Clean path) then true
  else match EvalSymlinks dir, EvalSymlinks path with
       | Resolved realDir, Resolved realPath => IsWithin realDir realPath
       | _, _ => false
       end.
End Editor.

(** *** The list of files *)

Record ConfigFile := mkConfigFile { cf_Name : string; cf_Path : string; cf_Layer : string }.

Definition addConfig (st : gset string * list ConfigFile) (c : ConfigFile) : gset string * list ConfigFile :=
  let '(seen, out) := st in
  let clean := Clean (cf_Path c) in
  if decide (clean ∈ seen) then st
  else ({[ clean ]} ∪ seen, (out ++ [mkConfigFile (cf_Name c) clean (cf_Layer c)])%list).

(** LinuxGSM's configs in load order, the game configs ([game]: those [isLinuxGSMConfigFile]
    accepts, with the name shown), and the files found below serverfiles. *)
Definition GetConfigFiles (srv : Instance) (gameName : string) (isRegular : string -> bool)
    (game : list (string * string)) (found : option (list ConfigFile)) : list ConfigFile :=
  let configDir := Join [i_Dir srv; lgsmConfigRel srv gameName] in
  let own := omap (fun f : string * string => let p := Join [configDir; f.1] in
                     if isRegular p then Some (mkConfigFile f.1 p f.2) else None)
    [("_default.cfg", "default"); ("common.cfg", "common"); ("secrets-common.cfg", "secrets");
     (i_Script srv +:+ ".cfg", "instance"); ("secrets-" +:+ i_Script srv +:+ ".cfg", "secrets")] in
  let games := map (fun g : string * string => mkConfigFile g.1 g.2 "game") game in
  let scan := map (fun c => mkConfigFile (cf_Name c) (cf_Path c) "instance") (default [] found) in
  (fold_left addConfig (own ++ games ++ scan) (∅, [])).2.

(** *** The scan of serverfiles *)

Definition skipConfigDirs : list string :=
  ["steamapps"; "steam"; "steamclient"; ".steam"; "Engine"; "MonoBleedingEdge"; "linux64"; "node_modules"; ".git";
   "lgsm"; "log"; "logs"; "Logs"; "backups"; "SaveGames"; "Crashes"; "Content"; "Paks"; "Movies";
   "world"; "world_nether"; "world_the_end"; "cache"; "Cache"].
Definition listedConfigExt : list string := [".cfg"; ".ini"; ".properties"; ".conf"; ".yml"; ".yaml"; ".xml"; ".toml"].
Definition maxConfigScanDepth : nat := 6.
Definition maxConfigScanFiles : nat := 400.
Definition maxConfigScanDirs : nat := 5000.

Inductive entry_type := EDir | ERegular | EOtherType.
(** [os.ReadDir]: the entries of a directory. *)
Definition dir_reader := string -> option (list (string * entry_type)).

Definition listed (depth : nat) (name : string) : bool :=
  let ext := to_lower (ext_of name) in
  mem ext listedConfigExt || (mem ext [".json"; ".txt"] && (depth <=? 1)%nat).

Section Scan.
Context (readDir : dir_reader) (baseDir : string).

Record scan_state := mkScan { sc_out : list ConfigFile; sc_dirs : nat }.

(** The entries of the directory [path]; [walk] goes one level down. *)
Fixpoint scan_entries (walk : string -> scan_state -> scan_state) (depth : nat) (path : string)
    (es : list (string * entry_type)) (st : scan_state) : scan_state :=
  match es with
  | [] => st
  | (name, t) :: es =>
      let full := Join [path; name] in
      match t with
      | EDir => scan_entries walk depth path es (if mem name skipConfigDirs then st else walk full st)
      | EOtherType => scan_entries walk depth path es st
      | ERegular =>
          if listed depth name then
            let out := (sc_out st ++ [mkConfigFile (default name (Rel baseDir full)) full ""])%list in
            let st := mkScan out (sc_dirs st) in
            if (maxConfigScanFiles <=? length out)%nat then st else scan_entries walk depth path es st
          else scan_entries walk depth path es st
      end
  end.

(** [fuel] is the number of levels that may still be visited. *)
Fixpoint scan_walk (fuel : nat) (path : string) (st : scan_state) : scan_state :=
  match fuel with
  | O => st
  | S fuel' =>
      if (maxConfigScanFiles <=? length (sc_out st))%nat || (maxConfigScanDirs <=? sc_dirs st)%nat then st else
      let st := mkScan (sc_out st) (S (sc_dirs st)) in
      match readDir path with
      | None => st
      | Some entries => scan_entries (scan_walk fuel') (S maxConfigScanDepth - fuel) path entries st
      end
  end.
Definition findConfigs (dir : string) : list ConfigFile :=
  sc_out (scan_walk (S maxConfigScanDepth) dir (mkScan [] 0)).
End Scan.

Example scan_example :
  let fs p := if String.eqb p "/s" then Some [("world", EDir); ("cfg", EDir); ("a.json", ERegular); ("B.CFG", ERegular); ("x.so", ERegular)]
              else if String.eqb p "/s/cfg" then Some [("s.ini", ERegular); ("b.txt", ERegular); ("d", EDir)]
              else if String.eqb p "/s/cfg/d" then Some [("t.txt", ERegular); ("u.xml", ERegular)] else None in
  map cf_Path (findConfigs fs "/" "/s") = ["/s/cfg/s.ini"; "/s/cfg/b.txt"; "/s/cfg/d/u.xml"; "/s/a.json"; "/s/B.CFG"].
Proof. vm_compute. reflexivity. Qed.
Example expand_examples :
  let values : gmap string string := {[ "cfgname" := "${selfname}.ini"; "loop" := "$loop"; "cmd" := "`id`" ]} in
  let base := lgsmBaseVars (mkInstance "s" "vh" "vhserver-2" "/home/vh" "") None in
  map (fun v => expandLGSMValue v values base) ["${serverfiles}/$cfgname"; "$loop"; "$nothing"; "$(id)"; "a$"]
  = [Some "/home/vh/serverfiles/vhserver-2.ini"; None; None; None; None].
Proof. vm_compute. reflexivity. Qed.
(** A command substitution inside of a variable is not noticed: it becomes part of the path. *)
Example backtick_in_variable :
  expandLGSMValue "/x/$cmd" {[ "cmd" := "`id`" ]} ∅ = Some "/x/`id`".
Proof. vm_compute. reflexivity. Qed.

(** * Properties *)

(** ** The scan *)

Section ScanLemmas.
Context (readDir : dir_reader) (baseDir : string).

(** The config files at most [fuel] levels deep from [path], none of them in a skipped directory. *)
Inductive beneath : nat -> string -> string -> Prop :=
| beneath_here fuel path es name :
    readDir path = Some es -> (name, ERegular) ∈ es -> listed (maxConfigScanDepth - fuel) name = true ->
    beneath (S fuel) path (Join [path; name])
| beneath_down fuel path es name file :
    readDir path = Some es -> (name, EDir) ∈ es -> mem name skipConfigDirs = false ->
    beneath fuel (Join [path; name]) file -> beneath (S fuel) path file.

Definition below_limits (st : scan_state) : Prop :=
  (length (sc_out st) < maxConfigScanFiles)%nat /\ (sc_dirs st < maxConfigScanDirs)%nat.
(** A scan only adds, and only config files that satisfy [Q]. *)
Definition adds (Q : string -> Prop) (st st' : scan_state) : Prop :=
  (exists l, sc_out st' = (sc_out st ++ l)%list /\ Forall (fun c => Q (cf_Path c)) l) /\ (sc_dirs st <= sc_dirs st')%nat.

Lemma adds_refl Q st : adds Q st st.
Proof. split; [|done]. exists []. by rewrite app_nil_r. Qed.
Lemma adds_trans Q st1 st2 st3 : adds Q st1 st2 -> adds Q st2 st3 -> adds Q st1 st3.
Proof.
  intros [(l & E & Hl) H1] [(m & E' & Hm) H2]. split; [|lia]. exists (l ++ m)%list. rewrite E', E, app_assoc.
  split; [done|by apply Forall_app].
Qed.
Lemma adds_mono (Q Q' : string -> Prop) st st' : (forall f, Q f -> Q' f) -> adds Q st st' -> adds Q' st st'.
Proof. intros Hq [(l & E & Hl) H]. split; [|done]. exists l. split; [done|]. eapply Forall_impl; [exact Hl|]. auto. Qed.

(** A level may add one file after the ones below it have used up the limit. *)
Definition walk_ok (fuel : nat) (walk : string -> scan_state -> scan_state) : Prop :=
  forall path st, (sc_dirs st <= maxConfigScanDirs)%nat ->
    (sc_dirs (walk path st) <= maxConfigScanDirs)%nat /\
    (length (sc_out (walk path st)) <= max (length (sc_out st)) (maxConfigScanFiles - 1 + fuel))%nat /\
    adds (beneath fuel path) st (walk path st).

Lemma files_pos : (1 <= maxConfigScanFiles)%nat.
Proof. unfold maxConfigScanFiles. lia. Qed.

Lemma adds_one Q st c : Q (cf_Path c) -> adds Q st (mkScan (sc_out st ++ [c]) (sc_dirs st)).
Proof. intros H. split; [|done]. exists [c]. split; [done|by constructor]. Qed.

Lemma scan_entries_ok walk fuel path es0 es : walk_ok fuel walk -> readDir path = Some es0 -> (forall e, e ∈ es -> e ∈ es0) ->
  forall st, (sc_dirs st <= maxConfigScanDirs)%nat -> (length (sc_out st) <= maxConfigScanFiles - 1 + fuel)%nat ->
  let st' := scan_entries baseDir walk (maxConfigScanDepth - fuel) path es st in
  (sc_dirs st' <= maxConfigScanDirs)%nat /\ (length (sc_out st') <= maxConfigScanFiles + fuel)%nat /\ adds (beneath (S fuel) path) st st'.
Proof.
  pose proof files_pos as Hpos. intros Hw Hr. induction es as [|[name t] es IH]; intros Hin st Hd Hl; cbn [scan_entries].
  { split_and!; [done|lia|apply adds_refl]. }
  specialize (IH (fun e He => Hin e (list_elem_of_further _ _ _ He))). pose proof (Hin (name, t) ltac:(left)) as Hmem.
  destruct t; [|destruct (listed _ name) eqn:El|].
  - destruct (mem name skipConfigDirs) eqn:Es; [by apply IH|]. destruct (Hw (Join [path; name]) st Hd) as (Hd1 & Hl1 & Ha).
    destruct (IH (walk (Join [path; name]) st)) as (H1 & H2 & H3); [done|lia|]. split_and!; [done..|].
    eapply adds_trans; [|exact H3]. eapply adds_mono; [|exact Ha]. intros f Hf. by eapply beneath_down.
  - assert (Hone : adds (beneath (S fuel) path) st (mkScan (sc_out st ++ [mkConfigFile (default name (Rel baseDir (Join [path; name]))) (Join [path; name]) ""]) (sc_dirs st)))
      by (apply adds_one; by eapply beneath_here).
    cbn zeta. destruct (Nat.leb_spec maxConfigScanFiles (length (sc_out st ++ [mkConfigFile (default name (Rel baseDir (Join [path; name]))) (Join [path; name]) ""]))) as [Hm|Hm].
    + split_and!; [done| |done]. cbn [sc_out]. rewrite length_app. cbn. unfold maxConfigScanFiles in *. lia.
    + destruct (IH (mkScan (sc_out st ++ [mkConfigFile (default name (Rel baseDir (Join [path; name]))) (Join [path; name]) ""]) (sc_dirs st))) as (H1 & H2 & H3);
        [done|cbn [sc_out]; lia|]. split_and!; [done..|]. by eapply adds_trans.
  - by apply IH.
  - by apply IH.
Qed.

Lemma walk_sound fuel : (fuel <= S maxConfigScanDepth)%nat -> walk_ok fuel (scan_walk readDir baseDir fuel).
Proof.
  pose proof files_pos as Hpos. induction fuel as [|fuel IH]; intros Hf path st Hd; cbn [scan_walk]; [split_and!; [done|lia|apply adds_refl]|].
  destruct (Nat.leb_spec maxConfigScanFiles (length (sc_out st))) as [|Hm]; cbn [orb]; [split_and!; [done|lia|apply adds_refl]|].
  destruct (Nat.leb_spec maxConfigScanDirs (sc_dirs st)) as [|Hn]; cbn [orb]; [split_and!; [done|lia|apply adds_refl]|].
  assert (Hinc : adds (beneath (S fuel) path) st (mkScan (sc_out st) (S (sc_dirs st))))
    by (split; [exists []; by rewrite app_nil_r|cbn; lia]).
  destruct (readDir path) as [es|] eqn:Er; [|split_and!; [cbn; lia|cbn; lia|done]].
  replace (S maxConfigScanDepth - S fuel)%nat with (maxConfigScanDepth - fuel)%nat by lia.
  destruct (scan_entries_ok (scan_walk readDir baseDir fuel) fuel path es es (IH ltac:(lia)) Er ltac:(auto) (mkScan (sc_out st) (S (sc_dirs st)))) as (H1 & H2 & H3);
    [cbn; lia|cbn [sc_out]; lia|]. split_and!; [done|unfold maxConfigScanFiles in *; lia|by eapply adds_trans].
Qed.

Lemma adds_below Q st st' : adds Q st st' -> below_limits st' -> below_limits st.
Proof. intros [(l & E & _) Hd] [H1 H2]. rewrite E, length_app in H1. unfold below_limits. lia. Qed.
Lemma adds_file Q st st' c : adds Q st st' -> c ∈ sc_out st -> c ∈ sc_out st'.
Proof. intros [(l & E & _) _] H. rewrite E. apply elem_of_app. by left. Qed.

(** While no limit is reached every entry is looked at. *)
Lemma scan_entries_complete walk fuel path es0 es : walk_ok fuel walk -> readDir path = Some es0 -> (forall e, e ∈ es -> e ∈ es0) ->
  forall st, (sc_dirs st <= maxConfigScanDirs)%nat -> (length (sc_out st) <= maxConfigScanFiles - 1 + fuel)%nat ->
  let st' := scan_entries baseDir walk (maxConfigScanDepth - fuel) path es st in
  below_limits st' ->
  (forall name, (name, ERegular) ∈ es -> listed (maxConfigScanDepth - fuel) name = true -> exists c, c ∈ sc_out st' /\ cf_Path c = Join [path; name]) /\
  (forall name, (name, EDir) ∈ es -> mem name skipConfigDirs = false ->
     exists st1, (sc_dirs st1 <= maxConfigScanDirs)%nat /\ adds (fun _ => True) (walk (Join [path; name]) st1) st').
Proof.
  pose proof files_pos as Hpos. intros Hw Hr. induction es as [|[name t] es IH]; intros Hin st Hd Hl; cbn [scan_entries].
  { intros _. split; by intros ? ?%elem_of_nil. }
  pose proof (fun e He => Hin e (list_elem_of_further _ _ _ He)) as Hin'. specialize (IH Hin').
  pose proof (scan_entries_ok walk fuel path es0 es Hw Hr Hin') as Hok.
  destruct t; [|destruct (listed _ name) eqn:El|].
  - destruct (mem name skipConfigDirs) eqn:Es.
    + intros Hb. destruct (IH st Hd Hl Hb) as [H1 H2]. split; intros n [[=]|Hn]%elem_of_cons; [by apply H1|congruence|by apply H2].
    + destruct (Hw (Join [path; name]) st Hd) as (Hd1 & Hl1 & Ha). intros Hb.
      assert (Hl2 : (length (sc_out (walk (Join [path; name]) st)) <= maxConfigScanFiles - 1 + fuel)%nat) by lia.
      destruct (IH _ Hd1 Hl2 Hb) as [H1 H2]. destruct (Hok _ Hd1 Hl2) as (_ & _ & H3).
      split; intros n [[=]|Hn]%elem_of_cons; [by apply H1| |by apply H2]. subst n. intros _. exists st. split; [done|]. by eapply adds_mono.
  - cbn zeta. set (c := mkConfigFile _ _ _). destruct (Nat.leb_spec maxConfigScanFiles (length (sc_out st ++ [c]))) as [Hm|Hm].
    { intros [Hb _]. cbn [sc_out] in Hb. lia. }
    intros Hb. assert (Hl2 : (length (sc_out (mkScan (sc_out st ++ [c]) (sc_dirs st))) <= maxConfigScanFiles - 1 + fuel)%nat) by (cbn [sc_out]; lia).
    destruct (IH (mkScan (sc_out st ++ [c]) (sc_dirs st)) Hd Hl2 Hb) as [H1 H2]. destruct (Hok (mkScan (sc_out st ++ [c]) (sc_dirs st)) Hd Hl2) as (_ & _ & H3).
    split; intros n [[=]|Hn]%elem_of_cons; [|by apply H1|by apply H2]. subst n. intros _. exists c. split; [|done].
    eapply adds_file; [exact H3|]. cbn [sc_out]. apply elem_of_app. right. by left.
  - intros Hb. destruct (IH st Hd Hl Hb) as [H1 H2]. split; intros n [[=]|Hn]%elem_of_cons; [congruence|by apply H1|by apply H2].
  - intros Hb. destruct (IH st Hd Hl Hb) as [H1 H2]. split; intros n [[=]|Hn]%elem_of_cons; [by apply H1|by apply H2].
Qed.

Lemma walk_complete fuel : (fuel <= S maxConfigScanDepth)%nat -> forall path st file, (sc_dirs st <= maxConfigScanDirs)%nat ->
  beneath fuel path file -> below_limits (scan_walk readDir baseDir fuel path st) ->
  exists c, c ∈ sc_out (scan_walk readDir baseDir fuel path st) /\ cf_Path c = file.
Proof.
  pose proof files_pos as Hpos. induction fuel as [|fuel IH]; intros Hf path st file Hd Hb; [by inversion Hb|]. cbn [scan_walk].
  destruct (Nat.leb_spec maxConfigScanFiles (length (sc_out st))) as [|Hm]; cbn [orb]; [intros [? _]; lia|].
  destruct (Nat.leb_spec maxConfigScanDirs (sc_dirs st)) as [|Hn]; cbn [orb]; [intros [_ ?]; lia|].
  assert (Hes : exists es, readDir path = Some es) by (inversion Hb; eauto). destruct Hes as [es Er]. rewrite Er.
  replace (S maxConfigScanDepth - S fuel)%nat with (maxConfigScanDepth - fuel)%nat by lia. intros Hlim.
  destruct (scan_entries_complete (scan_walk readDir baseDir fuel) fuel path es es (walk_sound fuel ltac:(lia)) Er ltac:(auto) (mkScan (sc_out st) (S (sc_dirs st)))) as [H1 H2];
    [cbn; lia|cbn [sc_out]; lia|done|]. inversion Hb as [? ? es1 name Er1 Hin Hl|? ? es1 name ? Er1 Hin Hs Hbelow]; subst.
  - apply H1; [congruence|done].
  - destruct (H2 name) as (st1 & Hd1 & Ha); [congruence|done|].
    destruct (IH ltac:(lia) (Join [path; name]) st1 file Hd1 Hbelow) as (c & Hc & <-); [by eapply adds_below|].
    exists c. split; [by eapply adds_file|done].
Qed.
End ScanLemmas.

(** the scan for config files ends after at most 5,000 directories with at most 406
    files, and every one of them is a file of a listed kind at most six levels below the
    directory that no skipped directory leads to.  When it lists fewer than 400 files and
    reads fewer than 5,000 directories, it lists all of these. *)
Theorem config_scan_exact readDir baseDir dir :
  let st := scan_walk readDir baseDir (S maxConfigScanDepth) dir (mkScan [] 0) in
  (sc_dirs st <= maxConfigScanDirs)%nat /\ (length (findConfigs readDir baseDir dir) <= maxConfigScanFiles + maxConfigScanDepth)%nat /\
  (forall c, c ∈ findConfigs readDir baseDir dir -> beneath readDir (S maxConfigScanDepth) dir (cf_Path c)) /\
  ((length (findConfigs readDir baseDir dir) < maxConfigScanFiles)%nat -> (sc_dirs st < maxConfigScanDirs)%nat ->
   forall file, beneath readDir (S maxConfigScanDepth) dir file -> exists c, c ∈ findConfigs readDir baseDir dir /\ cf_Path c = file).
Proof.
  cbn zeta. unfold findConfigs. destruct (walk_sound readDir baseDir (S maxConfigScanDepth) (le_n _) dir (mkScan [] 0)) as (H1 & H2 & [(l & E & Hl) _]); [cbn; lia|].
  split_and!; [done|cbn [sc_out length] in H2; unfold maxConfigScanFiles, maxConfigScanDepth in *; lia| |].
  - intros c Hc. rewrite E in Hc. cbn in Hc. rewrite Forall_forall in Hl. by apply Hl.
  - intros Hlen Hdirs file Hb. apply walk_complete; [done|cbn; lia|done|done].
Qed.

(** The limit on files can be exceeded: 400 files below a directory, and one beside it. *)
Example scan_over_limit :
  let fs p := if String.eqb p "/s" then Some [("d", EDir); ("z.cfg", ERegular)]
              else if String.eqb p "/s/d" then Some (repeat ("a.cfg", ERegular) 400) else None in
  length (findConfigs fs "/" "/s") = 401%nat.
Proof. vm_compute. reflexivity. Qed.

(** ** Variables *)

(** A value as its author means it. *)
Inductive token := Lit (text : string) | Var (name : string).
Definition show_token (t : token) : bytes :=
  match t with Lit s => to_bytes s | Var x => ("$" :: "{" :: to_bytes x ++ ["}"])%char%list end.
Definition show_tokens (ts : list token) : string := of_bytes (flat_map show_token ts).
Definition token_ok (t : token) : Prop :=
  match t with Lit s => contains_byte s "$" = false /\ contains_byte s "`" = false | Var x => is_ident x = true end.

Section Expansion.
Context (env : gmap string (list token)) (values base : gmap string string)
  (Henv : forall x ts, env !! x = Some ts -> Forall token_ok ts /\ lgsm_look values base x = Some (show_tokens ts)).

(** What bash makes of a value: a variable stands for its own value, [n] levels deep. *)
Fixpoint bash_value (n : nat) (ts : list token) : option string :=
  (fix go (ts : list token) : option string :=
     match ts with
     | [] => Some ""
     | Lit s :: r => option_map (append s) (go r)
     | Var x :: r =>
         match n with
         | O => None
         | S m =>
             match env !! x with
             | None => None
             | Some t => match bash_value m t, go r with Some a, Some b => Some (a +:+ b) | _, _ => None end
             end
         end
     end) ts.
Definition subst_token (t : token) : list token :=
  match t with Lit s => [Lit s] | Var x => default [] (env !! x) end.

Lemma bash_value_cons n t r : bash_value n (t :: r) =
  match t with
  | Lit s => option_map (append s) (bash_value n r)
  | Var x => match n with O => None | S m => match env !! x with None => None | Some t =>
      match bash_value m t, bash_value n r with Some a, Some b => Some (a +:+ b) | _, _ => None end end end
  end.
Proof. by destruct n, t. Qed.

Lemma bash_value_app n a b s : bash_value n (a ++ b)%list = Some s <->
  exists u v, bash_value n a = Some u /\ bash_value n b = Some v /\ s = u +:+ v.
Proof.
  revert s. induction a as [|t a IH]; intros s.
  - assert (E : bash_value n [] = Some "") by (by destruct n). rewrite E. cbn [app]. split.
    + intros H. by exists "", s.
    + intros (u & v & [= <-] & Hv & ->). by rewrite Hv.
  - cbn [app]. rewrite !bash_value_cons. destruct t as [l|x].
    + split.
      * destruct (bash_value n (a ++ b)) as [r|] eqn:E; [|done]. intros [= <-]. destruct (proj1 (IH r) eq_refl) as (u & v & -> & Hv & ->).
        exists (l +:+ u), v. split_and!; [done|done|]. by rewrite string_app_assoc.
      * intros (u & v & Hu & Hv & ->). destruct (bash_value n a) as [u'|]; [|done]. injection Hu as <-.
        rewrite (proj2 (IH (u' +:+ v))) by eauto. cbn. f_equal. by rewrite string_app_assoc.
    + destruct n as [|m]; [split; [done|by intros (? & ? & ? & _)]|]. destruct (env !! x) as [t|]; [|split; [done|by intros (? & ? & ? & _)]].
      destruct (bash_value m t) as [w|]; [|split; [done|by intros (? & ? & ? & _)]]. split.
      * destruct (bash_value (S m) (a ++ b)) as [r|] eqn:E; [|done]. intros [= <-]. destruct (proj1 (IH r) eq_refl) as (u & v & -> & Hv & ->).
        exists (w +:+ u), v. split_and!; [done|done|]. by rewrite string_app_assoc.
      * intros (u & v & Hu & Hv & ->). destruct (bash_value (S m) a) as [u'|]; [|done]. injection Hu as <-.
        rewrite (proj2 (IH (u' +:+ v))) by eauto. f_equal. by rewrite string_app_assoc.
Qed.

Lemma bash_value_lits n m ts s : Forall (fun t => match t with Lit _ => True | Var _ => False end) ts ->
  bash_value n ts = Some s -> bash_value m ts = Some s /\ show_tokens ts = s.
Proof.
  intros Hl. revert s. induction Hl as [|t ts Ht _ IH]; intros s; [destruct n, m; by intros [= <-]|].
  rewrite !bash_value_cons. destruct t as [l|]; [|done]. destruct (bash_value n ts) as [r|]; [|done]. intros [= <-].
  destruct (IH r eq_refl) as [-> <-]. split; [done|]. unfold show_tokens. cbn [flat_map show_token]. by rewrite of_bytes_app, of_to_bytes.
Qed.

(** One round replaces every variable by its value. *)
Lemma bash_value_subst n ts s : bash_value (S n) ts = Some s -> bash_value n (flat_map subst_token ts) = Some s.
Proof.
  revert s. induction ts as [|t ts IH]; intros s; [by destruct n|]. rewrite bash_value_cons. cbn [flat_map]. destruct t as [l|x].
  - destruct (bash_value (S n) ts) as [r|]; [|done]. intros [= <-]. apply bash_value_app. exists l, r. split_and!; [|by apply IH|done].
    cbn [subst_token]. rewrite bash_value_cons. destruct n; cbn; by rewrite string_app_nil_r.
  - destruct (env !! x) as [t|] eqn:E; [|done]. destruct (bash_value n t) as [a|] eqn:Ea; [|done].
    destruct (bash_value (S n) ts) as [r|]; [|done]. intros [= <-]. apply bash_value_app. exists a, r. cbn [subst_token]. rewrite E. by split_and!; [|apply IH|].
Qed.

Lemma var_at x rest : is_ident x = true -> reLGSMVar (show_token (Var x) ++ rest)%list = Some (to_bytes x, rest).
Proof.
  unfold is_ident, reLGSMVar, braced_var, show_token. destruct (to_bytes x) as [|c r]; [done|]. intros [Hc Hr]%andb_true_iff.
  cbn [app]. rewrite !Ascii.eqb_refl, Hc. cbn [andb]. rewrite <- app_assoc. cbn [app]. rewrite span_all by done. by rewrite Ascii.eqb_refl.
Qed.
Lemma no_var_at c r : c <> "$"%char -> reLGSMVar (c :: r) = None.
Proof. intros H. apply Ascii.eqb_neq in H. unfold reLGSMVar, braced_var, plain_var. destruct r as [|b [|d r]]; rewrite ?H; done. Qed.

Lemma replace_tokens ts : Forall token_ok ts -> (exists n s, bash_value n ts = Some s) -> forall fuel,
  (length (flat_map show_token ts) <= fuel)%nat ->
  replace_vars (lgsm_look values base) fuel (flat_map show_token ts) = Some (flat_map show_token (flat_map subst_token ts)).
Proof.
  induction 1 as [|t ts Ht _ IH]; intros (n & s & Hs) fuel Hf; [by destruct fuel|].
  rewrite bash_value_cons in Hs. cbn [flat_map] in *. rewrite length_app in Hf. destruct t as [l|x].
  - assert (Hr : exists n s, bash_value n ts = Some s) by (destruct (bash_value n ts) as [r|] eqn:E; [eauto|done]).
    specialize (IH Hr). cbn [show_token subst_token app flat_map] in *. destruct Ht as [Hd _]. rewrite contains_byte_false in Hd. clear Hs Hr.
    revert fuel Hf. induction (to_bytes l) as [|c r IHl]; intros fuel Hf; [by apply IH|].
    destruct fuel as [|fuel]; [simpl in Hf; lia|]. cbn [app replace_vars].
    rewrite no_var_at by (intros ->; apply Hd; by left). rewrite IHl; [done|intros Hi; apply Hd; by right|simpl in Hf; lia].
  - destruct n as [|m]; [done|]. destruct (env !! x) as [t|] eqn:Ex; [|done]. destruct (Henv _ _ Ex) as [_ Hlook].
    destruct (bash_value m t); [|done]. destruct (bash_value (S m) ts) as [r|] eqn:E; [|done].
    destruct fuel as [|fuel]; [cbn in Hf; lia|]. cbn [subst_token]. rewrite Ex. cbn [default].
    assert (Hne : exists c r, (show_token (Var x) ++ flat_map show_token ts)%list = c :: r) by (by eexists _, _).
    destruct Hne as (c & r0 & Hne). rewrite Hne. cbn [replace_vars]. rewrite <- Hne, var_at by done. rewrite of_to_bytes, Hlook.
    rewrite IH; [|eauto|cbn in Hf; rewrite length_app in Hf; cbn in Hf; lia]. cbn [option_map]. unfold show_tokens. by rewrite to_of_bytes, flat_map_app.
Qed.

Lemma subst_ok ts : Forall token_ok ts -> Forall token_ok (flat_map subst_token ts).
Proof.
  induction 1 as [|t ts Ht _ IH]; [constructor|]. cbn [flat_map]. apply Forall_app. split; [|done]. destruct t as [l|x]; cbn [subst_token].
  - constructor; [done|constructor].
  - destruct (env !! x) as [t|] eqn:E; [|constructor]. by destruct (Henv _ _ E).
Qed.

Lemma no_dollar_lits ts : Forall token_ok ts -> contains_byte (show_tokens ts) "$" = false ->
  Forall (fun t => match t with Lit _ => True | Var _ => False end) ts.
Proof.
  unfold show_tokens. rewrite contains_byte_false, to_of_bytes. induction 1 as [|t ts _ _ IH]; intros Hd; [constructor|].
  cbn [flat_map] in Hd. rewrite in_app_iff in Hd. constructor; [|tauto]. destruct t as [l|x]; [done|]. apply Hd. left. by left.
Qed.
Lemma lits_no_dollar ts : Forall token_ok ts -> Forall (fun t => match t with Lit _ => True | Var _ => False end) ts ->
  contains_byte (show_tokens ts) "$" = false.
Proof.
  unfold show_tokens. rewrite contains_byte_false, to_of_bytes. induction 1 as [|t ts Ht _ IH]; intros Hl; [by intros []|].
  inversion Hl; subst. cbn [flat_map]. rewrite in_app_iff. intros [Hi|Hi]; [|by apply IH]. destruct t as [l|]; [|done].
  destruct Ht as [Ht _]. by apply contains_byte_false in Ht.
Qed.

Lemma expand_tokens n ts s : Forall token_ok ts -> bash_value n ts = Some s ->
  expand_loop (lgsm_look values base) n (show_tokens ts) = Some s /\ contains_byte s "$" = false.
Proof.
  revert ts. induction n as [|n IH]; intros ts Hok Hs.
  - assert (Hl : Forall (fun t => match t with Lit _ => True | Var _ => False end) ts).
    { clear Hok. revert s Hs. induction ts as [|t ts IH]; intros s Hs; [constructor|]. rewrite bash_value_cons in Hs. destruct t; [|done].
      destruct (bash_value 0 ts) eqn:E; [|done]. constructor; eauto. }
    destruct (bash_value_lits 0 0 ts s Hl Hs) as [_ <-]. split; [done|by apply lits_no_dollar].
  - cbn [expand_loop]. destruct (contains_byte (show_tokens ts) "$") eqn:Ed.
    + assert (Hr : replace_vars (lgsm_look values base) (String.length (show_tokens ts)) (to_bytes (show_tokens ts))
                   = Some (flat_map show_token (flat_map subst_token ts))).
      { unfold show_tokens at 2. rewrite to_of_bytes. apply replace_tokens; [done|eauto|]. unfold show_tokens. by rewrite length_of_bytes. }
      rewrite Hr. apply IH; [by apply subst_ok|by apply bash_value_subst].
    + assert (Hl := no_dollar_lits ts Hok Ed). destruct (bash_value_lits (S n) n ts s Hl Hs) as [_ <-]. by split.
Qed.
End Expansion.

(** Values of this form hold no command substitution. *)
Lemma var_body x c : is_ident x = true -> In c (to_bytes x ++ ["}"%char])%list -> c <> "$"%char /\ c <> "`"%char.
Proof.
  unfold is_ident. intros Hx [Hi|[<-|[]]]%in_app_iff; [|done]. destruct (to_bytes x) as [|d r]; [done|].
  apply andb_true_iff in Hx as [Hd Hr]. assert (Hc : ident_char c = true).
  { destruct Hi as [->|Hi]; [unfold ident_char; by rewrite Hd|]. rewrite forallb_forall in Hr. by apply Hr. }
  split; intros ->; done.
Qed.
Lemma token_bytes ts c : Forall token_ok ts -> In c (flat_map show_token ts) -> c <> "`"%char.
Proof.
  intros Hok (t & Ht & Hi)%in_flat_map ->. rewrite Forall_forall in Hok. specialize (Hok t (proj2 (list_elem_of_In _ _) Ht)).
  destruct t as [l|x]; cbn in *; [destruct Hok as [_ Hb]; by apply contains_byte_false in Hb|].
  destruct Hi as [|[|Hi]]; [done..|]. by destruct (var_body _ _ Hok Hi).
Qed.
Lemma contains_skip l rest : ~ In "$"%char l -> lcontains (to_bytes "$(") (l ++ rest)%list = lcontains (to_bytes "$(") rest.
Proof.
  induction l as [|c l IH]; intros Hd; [done|]. cbn [app lcontains]. rewrite IH by (intros Hi; apply Hd; by right).
  cbn [to_bytes list_ascii_of_string lprefix].
  assert (Hc : Ascii.eqb "$" c = false) by (apply Ascii.eqb_neq; intros <-; apply Hd; by left). by rewrite Hc.
Qed.
Lemma no_substitution ts : Forall token_ok ts -> contains_byte (show_tokens ts) "`" = false /\ contains (show_tokens ts) "$(" = false.
Proof.
  intros Hok. split.
  - unfold show_tokens. rewrite contains_byte_false, to_of_bytes. intros Hi. by apply token_bytes in Hi.
  - unfold contains, show_tokens. rewrite to_of_bytes. induction Hok as [|t ts Ht _ IH]; [done|]. cbn [flat_map]. destruct t as [l|x].
    + destruct Ht as [Ht _]. rewrite contains_byte_false in Ht. by rewrite contains_skip.
    + cbn [show_token app]. change (lcontains (to_bytes "$(") (("{" :: to_bytes x ++ ["}"]) ++ flat_map show_token ts)%char%list = false).
      rewrite contains_skip; [done|]. intros [|Hi]; [done|]. by destruct (var_body _ _ Ht Hi).
Qed.

(** reading a value of the LinuxGSM configs (expandLGSMValue): texts and variables, nested at
    most ten levels deep, give exactly what bash makes of them.  A value that is not
    understood in ten rounds is refused: what is returned holds no dollar sign. *)
Theorem lgsm_value_expanded env values base ts s :
  (forall x us, env !! x = Some us -> Forall token_ok us /\ lgsm_look values base x = Some (show_tokens us)) ->
  Forall token_ok ts -> bash_value env 10 ts = Some s ->
  expandLGSMValue (show_tokens ts) values base = Some s /\
  forall value r, expandLGSMValue value values base = Some r -> contains_byte r "$" = false.
Proof.
  intros Henv Hok Hs. split.
  - unfold expandLGSMValue. destruct (expand_tokens env values base Henv 10 ts s Hok Hs) as [-> Hd]. rewrite Hd.
    by destruct (no_substitution ts Hok) as [-> ->].
  - intros value r. unfold expandLGSMValue. destruct (_ || _); [done|]. destruct (expand_loop _ 10 value) as [v|]; [|done].
    destruct (contains_byte v "$") eqn:E; [done|]. by intros [= <-].
Qed.

Lemma lgsm_value_expanded_witness :
  expandLGSMValue "${serverfiles}/${cfgname}" {[ "cfgname" := "${selfname}.ini" ]}
    (lgsmBaseVars (mkInstance "s" "vh" "vhserver-2" "/home/vh" "") None) = Some "/home/vh/serverfiles/vhserver-2.ini".
Proof.
  refine (proj1 (lgsm_value_expanded {[ "serverfiles" := [Lit "/home/vh/serverfiles"]; "cfgname" := [Var "selfname"; Lit ".ini"]; "selfname" := [Lit "vhserver-2"] ]}
    _ _ [Var "serverfiles"; Lit "/"; Var "cfgname"] _ _ _ _)).
  - intros x us H. apply lookup_insert_Some in H as [[<- <-]|[_ H]].
    { split; [by repeat constructor|vm_compute; reflexivity]. }
    apply lookup_insert_Some in H as [[<- <-]|[_ H]]; [split; [by repeat constructor|vm_compute; reflexivity]|].
    apply lookup_singleton_Some in H as [<- <-]. split; [by repeat constructor|vm_compute; reflexivity].
  - by repeat constructor.
  - vm_compute. reflexivity.
Defined.

(** ** Which files the editor opens *)

Lemma resolve_abs_below `{FileSystemLaws} path roots p : Forall (fun r => IsAbs r = true) roots -> ResolveAbsInRoots path roots = Ok p ->
  IsAbs p = true /\ exists root r, root ∈ roots /\ EvalSymlinks root = Resolved r /\ elements r `prefix_of` elements p.
Proof.
  intros Hr. unfold ResolveAbsInRoots. destruct (contains_byte path (chr 0) || negb (IsAbs path)) eqn:Ea; [done|].
  apply orb_false_iff in Ea as [_ Ha]. apply negb_false_iff in Ha.
  destruct (resolveExisting (Clean path)) as [q|] eqn:Eq; [|done]. destruct (existsb _ roots) eqn:Ee; [|done]. intros [= <-].
  assert (Hq : IsAbs q = true).
  { eapply resolve_existing_abs; [| |exact Eq]; [by apply clean_is_abs|]. rewrite (clean_abs (Clean path)) by (by apply clean_is_abs).
    by rewrite elements_clean, clean_abs. }
  split; [done|]. apply existsb_exists in Ee as (root & Hin & Hw). destruct (EvalSymlinks root) as [r| |] eqn:Er; [|done..].
  exists root, r. apply list_elem_of_In in Hin. split_and!; [done|done|]. rewrite Forall_forall in Hr.
  destruct (eval_abs _ _ (Hr _ Hin) Er) as [Hra _]. by apply is_within_iff.
Qed.

Lemma server_sub_root_abs `{FileSystemLaws} dir sub uid r : IsAbs dir = true -> ServerSubRoot dir sub uid = Ok r -> IsAbs r = true.
Proof.
  intros Ha. unfold ServerSubRoot. set (base := if String.eqb sub "" then dir else Join [dir; sub]).
  assert (Hb : IsAbs base = true) by (unfold base; destruct (String.eqb sub ""); [done|by apply join_root_clean]).
  destruct (EvalSymlinks base) as [q| |] eqn:E; [|done..]. destruct (eval_abs _ _ Hb E) as [Hq _].
  destruct (match EvalSymlinks dir with Resolved d => IsWithin d q | _ => false end); [by intros [= <-]|].
  destruct (IsForbiddenServerDir q); [done|]. destruct (uid >=? 0); [|by intros [= <-]].
  destruct (fileOwnerUID q) as [u|]; [|done]. destruct (_ && _); [done|by intros [= <-]].
Qed.

Lemma config_roots_abs F `{!FileSystemLaws F} srv uid gameName : IsAbs (i_Dir srv) = true ->
  Forall (fun r => IsAbs r = true) (configRoots F srv uid gameName).
Proof.
  intros Ha. unfold configRoots. apply Forall_forall. intros r Hr. apply list_elem_of_omap in Hr as (rel & _ & Hr).
  destruct (ServerSubRoot (i_Dir srv) rel uid) as [q|] eqn:E; [|done]. injection Hr as <-. by eapply server_sub_root_abs.
Qed.

(** C37: what the config editor opens (resolveConfigPath): a file with an editable extension
    inside the config directory or serverfiles of the server, wherever the links on the way lead;
    or the game config LinuxGSM itself names, and then it lies in the server directory or does
    not belong to another user. *)
Theorem config_path_allowed F srv uid gameName home values path p :
  FileSystemLaws F -> IsAbs (i_Dir srv) = true -> IsAbs (user_home srv home) = true ->
  resolveConfigPath F srv uid gameName home values path = Ok p ->
  IsAbs p = true /\
  ((IsEditableConfigFile p = true /\ exists rel base r, rel ∈ [lgsmConfigRel srv gameName; "serverfiles"] /\
      @ServerSubRoot F (i_Dir srv) rel uid = Ok base /\ @EvalSymlinks F base = Resolved r /\ elements r `prefix_of` elements p) \/
   (Clean path ∈ linuxGSMConfigPaths srv home values /\
    ((exists d, @EvalSymlinks F (i_Dir srv) = Resolved d /\ elements d `prefix_of` elements p) \/
     (exists u, @fileOwnerUID F p = Some u /\ (u = uid \/ u < 0))))).
Proof.
  intros L Hdir Hhome. unfold resolveConfigPath. destruct (isLinuxGSMConfigFile F srv uid gameName home values path) as [q|] eqn:El.
  - intros [= <-]. unfold isLinuxGSMConfigFile in El. destruct (mem (Clean path) _) eqn:Em; [|done]. apply mem_true in Em.
    destruct (ResolveAbsInRoots (Clean path) _) as [q'|] eqn:Er; [|done]. destruct (_ || _) eqn:Eo; [|done]. injection El as ->.
    apply resolve_abs_below in Er as [Hp _].
    2:{ unfold gameConfigRoots. apply Forall_app. split; [constructor; [done|by apply config_roots_abs]|]. destruct (_ && _); by repeat constructor. }
    split; [done|]. right. split; [by apply list_elem_of_In|]. apply orb_true_iff in Eo as [Ei|Eu]; [left|right].
    + unfold inside_server in Ei. destruct (EvalSymlinks (i_Dir srv)) as [d| |] eqn:Ed; [|done..]. exists d. split; [done|].
      destruct (eval_abs _ _ Hdir Ed) as [Hd _]. by apply is_within_iff.
    + unfold owned_by_user in Eu. destruct (fileOwnerUID q) as [u|]; [|done]. exists u. split; [done|]. apply negb_true_iff, andb_false_iff in Eu as [Eu|Eu]; lia.
  - destruct (IsEditableConfigFile path); [|done]. cbn [negb]. destruct (ResolveAbsInRoots path _) as [q|] eqn:Er; [|done].
    destruct (IsEditableConfigFile q) eqn:Ee; [|done]. intros [= <-]. apply resolve_abs_below in Er as [Hp (base & r & Hb & Hr & Hpre)];
      [|by apply config_roots_abs]. split; [done|]. left. split; [done|]. unfold configRoots in Hb. apply list_elem_of_omap in Hb as (rel & Hrel & Hs).
    exists rel, base, r. destruct (ServerSubRoot (i_Dir srv) rel uid) as [b|]; [|done]. injection Hs as ->. done.
Qed.

Definition demo_srv : Instance := mkInstance "s" "vh" "vhserver" "/srv/data" LayoutData.
Definition demo_names : list string := ["/"; "/srv"; "/srv/data"; "/srv/data/serverfiles"; "/srv/data/serverfiles/a.cfg"].
Definition demo_files : FileSystem := {|
  EvalSymlinks p := if mem p demo_names then Resolved p else NotExist;
  Lstat_ok p := false; fileOwnerUID _ := Some 1000 |}.
Lemma demo_files_laws : FileSystemLaws demo_files.
Proof.
  split. intros p q _. cbn [EvalSymlinks demo_files]. destruct (mem p demo_names) eqn:E; [|done]. intros [= <-]. apply mem_true in E.
  unfold demo_names in E. simpl in E. destruct E as [<-|[<-|[<-|[<-|[<-|[]]]]]]; split; reflexivity.
Qed.
Lemma config_path_allowed_witness : IsAbs "/srv/data/serverfiles/a.cfg" = true.
Proof.
  exact (proj1 (config_path_allowed demo_files demo_srv 1000 "vhserver" None ∅ "/srv/data/serverfiles/a.cfg" "/srv/data/serverfiles/a.cfg"
    demo_files_laws ltac:(vm_compute; reflexivity) ltac:(vm_compute; reflexivity) ltac:(vm_compute; reflexivity))).
Defined.
