(* ===== verification/Stores.v ===== *)
(** * Small settings kept by the dashboard (backend/server_files.go)

    Server tags, the additional directories servers are looked for in, the FastDL mode of each
    server, and the list of installed mods.  Each is one JSON file below the configuration
    directory, read and written as a whole under the mutex of the instance manager. *)

From Stdlib Require Import ZArith Lia Bool String Ascii List.
From stdpp Require Import base gmap strings list fin_maps sorting.
From S2P Require Import Prelude GoStrings Text Validate Paths Cfg.

Inductive store_error :=
| EServerNotFound | ENotNodeServer | EInvalidMode | ETooManyDirs | EInvalidDir (p : string) | EMissingDir (p : string)
| ESystemDir (p : string) | EWrite.

(** The files ([None]: not there) and what is kept in memory: the tag of each known server, and
    the additional directories. *)
Record stores := mkStores {
  st_tags : option (gmap string string); st_old_tags : gmap string string; (* the place of older versions *)
  st_modes : option (gmap string string); st_paths : option (list string);
  st_instances : gmap string string; st_customPaths : list string }.

(** ** Tags *)

Definition loadServerTags (st : stores) : gmap string string :=
  match st_tags st with Some tags => tags | None => st_old_tags st end.
Definition saveServerTags (ok : bool) (tags : gmap string string) (st : stores) : result store_error unit * stores :=
  if ok then (Ok tt, mkStores (Some tags) (st_old_tags st) (st_modes st) (st_paths st) (st_instances st) (st_customPaths st))
  else (Err EWrite, st).
Definition ServerTags (st : stores) : gmap string string := loadServerTags st.

Definition put_tag (id tag : string) (tags : gmap string string) : gmap string string :=
  if String.eqb tag "" then delete id tags else <[id := tag]> tags.

Definition SetNodeServerTag (ok : bool) (globalID tag : string) (st : stores) : result store_error unit * stores :=
  if String.eqb (SplitServerID globalID).1 "" || negb (IsValidServerID globalID) then (Err ENotNodeServer, st) else
  let tag := sanitizeDisplayText tag 64 in
  saveServerTags ok (put_tag globalID tag (loadServerTags st)) st.

(** The tag in memory is set before the file is written. *)
Definition SetServerTag (ok : bool) (serverID tag : string) (st : stores) : result store_error unit * stores :=
  let tag := sanitizeDisplayText tag 64 in
  match st_instances st !! serverID with
  | None => (Err EServerNotFound, st)
  | Some _ =>
      let st := mkStores (st_tags st) (st_old_tags st) (st_modes st) (st_paths st) (<[serverID := tag]> (st_instances st)) (st_customPaths st) in
      saveServerTags ok (put_tag serverID tag (loadServerTags st)) st
  end.

Definition of_node (nodeID : string) (kv : string * string) : Prop := (SplitServerID kv.1).1 = nodeID.
#[export] Instance of_node_dec nodeID kv : Decision (of_node nodeID kv).
Proof. unfold of_node. apply _. Defined.
Definition RemoveNodeServerTags (ok : bool) (nodeID : string) (st : stores) : result store_error unit * stores :=
  let tags := loadServerTags st in
  let kept := filter (fun kv => ~ of_node nodeID kv) tags in
  if decide (filter (of_node nodeID) tags = ∅) then (Ok tt, st) else saveServerTags ok kept st.

(** ** FastDL *)

Definition FastDLDashboard : string := "dashboard".
Definition FastDLNode : string := "node".
Definition FastDLOff : string := "off".
Definition IsValidFastDLMode (mode : string) : bool := mem mode [FastDLDashboard; FastDLNode; FastDLOff].

Definition loadFastDLModesLocked (st : stores) : gmap string string := default ∅ (st_modes st).
Definition FastDLMode (serverID : string) (st : stores) : string :=
  let mode := default "" (loadFastDLModesLocked st !! serverID) in
  if IsValidFastDLMode mode then mode else FastDLDashboard.
Definition SetFastDLMode (ok : bool) (serverID mode : string) (st : stores) : result store_error unit * stores :=
  if negb (IsValidFastDLMode mode) then (Err EInvalidMode, st) else
  match st_instances st !! serverID with
  | None => (Err EServerNotFound, st)
  | Some _ =>
      let modes := loadFastDLModesLocked st in
      let modes := if String.eqb mode FastDLDashboard then delete serverID modes else <[serverID := mode]> modes in
      if ok then (Ok tt, mkStores (st_tags st) (st_old_tags st) (Some modes) (st_paths st) (st_instances st) (st_customPaths st))
      else (Err EWrite, st)
  end.

(** ** Additional directories *)

Definition MaxCustomServerPaths : nat := 50.

Section Paths.
(** [isDir] answers [os.Stat]. *)
Context (F : FileSystem) (isDir : string -> bool).

Definition ValidateCustomServerPath (p : string) : result store_error string :=
  let p := trim_space p in
  let p := if 1 <? slen p then trim_right p "/" else p in
  if negb (IsSafeServerDir p) then Err (EInvalidDir p) else
  if negb (isDir p) then Err (EMissingDir p) else
  match EvalSymlinks p with
  | Resolved resolved => if IsForbiddenServerDir resolved then Err (ESystemDir p) else Ok p
  | _ => Ok p
  end.

(** The loop of [SetCustomServerPaths]: each directory once, in order. *)
Fixpoint clean_paths (paths : list string) (seen : list string) : result store_error (list string) :=
  match paths with
  | [] => Ok seen
  | p :: r =>
      match ValidateCustomServerPath p with
      | Err e => Err e
      | Ok v => clean_paths r (if decide (v ∈ seen) then seen else (seen ++ [v])%list)
      end
  end.

Definition SetCustomServerPaths (ok : bool) (paths : list string) (st : stores) : result store_error (list string) * stores :=
  if (MaxCustomServerPaths <? length paths)%nat then (Err ETooManyDirs, st) else
  match clean_paths paths [] with
  | Err e => (Err e, st)
  | Ok clean =>
      let clean := sort_strings clean in
      if ok then (Ok clean, mkStores (st_tags st) (st_old_tags st) (st_modes st) (Some clean) (st_instances st) clean)
      else (Err EWrite, st)
  end.

(** At the start of the program. *)
Definition loadCustomPaths (st : stores) : list string := List.filter IsSafeServerDir (default [] (st_paths st)).
Definition GetCustomServerPaths (st : stores) : list string := st_customPaths st.
Definition start_stores (st : stores) : stores :=
  mkStores (st_tags st) (st_old_tags st) (st_modes st) (st_paths st) (st_instances st) (loadCustomPaths st).
End Paths.

(** ** Mods *)

(** [bufio.Scanner]: it stops at a line that does not fit its buffer of 64 KiB. *)
Fixpoint scanner_lines (lines : list string) : list string :=
  match lines with
  | [] => []
  | l :: r => if 65535 <? slen l then [] else l :: scanner_lines r
  end.
(** The lines of lgsm/mods/installed-mods.txt. *)
Definition installed_mods (data : string) : list string :=
  List.filter (fun line => negb (String.eqb line "") && negb (has_prefix line "#"))
    (map trim_space (scanner_lines (split lf data))).

(** * Properties *)

(** ** Tags *)

(** The tag of each known server in memory is the stored one. *)
Definition tags_agree (st : stores) : Prop :=
  forall id tag, st_instances st !! id = Some tag -> tag = default "" (ServerTags st !! id).

Lemma put_tag_lookup id tag tags id' :
  default "" (put_tag id tag tags !! id') = if decide (id' = id) then tag else default "" (tags !! id').
Proof.
  unfold put_tag. destruct (String.eqb_spec tag "") as [->|]; destruct (decide (id' = id)) as [->|];
    by rewrite ?lookup_delete_eq, ?lookup_insert_eq, ?lookup_delete_ne, ?lookup_insert_ne by done.
Qed.

(** setting and removing tags.  A stored tag is the cleaned text under the ID it was
    given for, whether of this machine or of a node; removing a node removes exactly the tags of
    its servers; other tags stay; the tags shown for the servers of this machine are the stored
    ones; and an operation that fails changes no stored tag. *)
Theorem tags_stored ok id tag node st :
  tags_agree st ->
  let shown st id := default "" (ServerTags st !! id) in
  (let '(r, st') := SetServerTag ok id tag st in
   match r with
   | Ok _ => tags_agree st' /\ is_Some (st_instances st !! id) /\
             forall id', shown st' id' = if decide (id' = id) then sanitizeDisplayText tag 64 else shown st id'
   | Err _ => forall id', shown st' id' = shown st id'
   end) /\
  (let '(r, st') := SetNodeServerTag ok id tag st in
   match r with
   | Ok _ => IsValidServerID id = true /\ (SplitServerID id).1 <> "" /\
             forall id', shown st' id' = if decide (id' = id) then sanitizeDisplayText tag 64 else shown st id'
   | Err _ => st' = st
   end) /\
  (let '(r, st') := RemoveNodeServerTags ok node st in
   match r with
   | Ok _ => forall id', shown st' id' = if decide ((SplitServerID id').1 = node) then "" else shown st id'
   | Err _ => st' = st
   end).
Proof.
  intros Ha. cbn zeta. split_and!.
  - unfold SetServerTag, saveServerTags. destruct (st_instances st !! id) as [old|] eqn:Ei; [|done]. destruct ok; [|done]. split_and!; [|eauto|].
    + intros id' t. unfold ServerTags at 1. cbn [loadServerTags st_tags st_instances]. rewrite put_tag_lookup. intros Ht.
      destruct (decide (id' = id)) as [->|Hne]; [by rewrite lookup_insert_eq in Ht; injection Ht as <-|].
      rewrite lookup_insert_ne in Ht by done. by apply Ha.
    + intros id'. unfold ServerTags at 1. cbn [loadServerTags st_tags]. by rewrite put_tag_lookup.
  - unfold SetNodeServerTag, saveServerTags. destruct (String.eqb_spec (SplitServerID id).1 "") as [|Hn]; [done|].
    destruct (IsValidServerID id); [|done]. cbn [orb negb]. destruct ok; [|done]. split_and!; [done|done|]. intros id'.
    unfold ServerTags at 1. cbn [loadServerTags st_tags]. by rewrite put_tag_lookup.
  - unfold RemoveNodeServerTags, saveServerTags. destruct (decide _) as [He|Hne].
    + intros id'. destruct (decide ((SplitServerID id').1 = node)) as [Hn|]; [|done]. unfold ServerTags. destruct (loadServerTags st !! id') as [t|] eqn:El; [|done].
      exfalso. eapply map_filter_empty_not_lookup in He; [|exact Hn]. by apply He in El.
    + destruct ok; [|done]. intros id'. unfold ServerTags at 1. cbn [loadServerTags st_tags]. rewrite map_lookup_filter.
      unfold ServerTags. destruct (loadServerTags st !! id') as [t|]; cbn; [|by destruct (decide _)].
      unfold of_node. cbn [fst]. destruct (decide ((SplitServerID id').1 = node)); [by rewrite option_guard_False by tauto|by rewrite option_guard_True].
Qed.

Definition demo_stores : stores :=
  mkStores (Some {[ "vh" := "Fun"; "berlin~vh" := "EU" ]}) ∅ None None {[ "vh" := "Fun" ]} [].
Lemma tags_stored_witness :
  ServerTags (RemoveNodeServerTags true "berlin" demo_stores).2 !! "vh" = Some "Fun" /\
  default "" (ServerTags (RemoveNodeServerTags true "berlin" demo_stores).2 !! "berlin~vh") = "".
Proof.
  assert (Ha : tags_agree demo_stores).
  { intros id tag H. cbn [st_instances demo_stores] in H. apply lookup_singleton_Some in H as [<- <-]. vm_compute. reflexivity. }
  destruct (tags_stored true "" "" "berlin" demo_stores Ha) as (_ & _ & H). split; [vm_compute; reflexivity|].
  assert (E : RemoveNodeServerTags true "berlin" demo_stores = (Ok tt, (RemoveNodeServerTags true "berlin" demo_stores).2)) by (vm_compute; reflexivity).
  rewrite E in H. etransitivity; [apply H|]. vm_compute. reflexivity.
Defined.

(** A failed write leaves the new tag on the list of servers until the next start. *)
Example failed_write_shows_tag :
  let '(r, st) := SetServerTag false "vh" "New" demo_stores in
  r = Err EWrite /\ st_instances st !! "vh" = Some "New" /\ ServerTags st !! "vh" = Some "Fun".
Proof. vm_compute. done. Qed.

(** ** Additional directories *)

Lemma clean_paths_spec F isDir paths seen out : clean_paths F isDir paths seen = Ok out -> NoDup seen ->
  NoDup out /\ (length out <= length seen + length paths)%nat /\
  (forall v, v ∈ out <-> v ∈ seen \/ exists p, p ∈ paths /\ ValidateCustomServerPath F isDir p = Ok v).
Proof.
  revert seen. induction paths as [|p r IH]; intros seen; cbn [clean_paths].
  { intros [= <-] Hn. split_and!; [done|simpl; lia|]. intros v. split; [by left|]. intros [|(p & Hp%elem_of_nil & _)]; done. }
  destruct (ValidateCustomServerPath F isDir p) as [v|] eqn:E; [|done]. intros Hc Hn.
  destruct (decide (v ∈ seen)) as [Hin|Hout]; apply IH in Hc as (H1 & H2 & H3); try done.
  - split_and!; [done|simpl; lia|]. intros w. rewrite H3. split.
    + intros [|(q & Hq & Hv)]; [by left|right; exists q; split; [by right|done]].
    + intros [|(q & [->|Hq]%elem_of_cons & Hv)]; [by left|left; congruence|right; eauto].
  - split_and!; [done|rewrite length_app in H2; simpl in *; lia|]. intros w. rewrite H3, elem_of_app, list_elem_of_singleton. split.
    + intros [[| ->]|(q & Hq & Hv)]; [by left|right; exists p; split; [left|done]|right; exists q; split; [by right|done]].
    + intros [|(q & [->|Hq]%elem_of_cons & Hv)]; [by left; left|left; right; congruence|right; eauto].
  - apply NoDup_app. split; [done|]. split; [|by apply NoDup_singleton]. by intros x Hx ->%list_elem_of_singleton.
Qed.

Lemma validated_safe F isDir p v : ValidateCustomServerPath F isDir p = Ok v -> IsSafeServerDir v = true /\ isDir v = true.
Proof.
  unfold ValidateCustomServerPath. set (q := if 1 <? slen (trim_space p) then trim_right (trim_space p) "/" else trim_space p). destruct (IsSafeServerDir q) eqn:E1; [|done]. destruct (isDir q) eqn:E2; [|done]. cbn [negb].
  destruct (EvalSymlinks q) as [t| |]; [destruct (IsForbiddenServerDir t); [done|]|..]; by intros [= <-].
Qed.

Lemma insert_sorted_sorted x l : Sorted (fun a b => String.leb a b = true) l -> Sorted (fun a b => String.leb a b = true) (insert_sorted x l).
Proof.
  induction l as [|y l IH]; intros Hs; cbn [insert_sorted]; [by repeat constructor|].
  destruct (String.leb x y) eqn:E; [by constructor; [|constructor]|]. inversion Hs as [|? ? H1 H2]; subst. constructor; [by apply IH|].
  assert (Hyx : String.leb y x = true) by (destruct (String.leb_total x y); congruence).
  destruct l as [|z l]; cbn [insert_sorted]; [by constructor|]. destruct (String.leb x z); constructor; [done|]. by inversion H2.
Qed.
Lemma sort_strings_sorted l : Sorted (fun a b => String.leb a b = true) (sort_strings l).
Proof. induction l as [|x l IH]; [constructor|]. by apply insert_sorted_sorted. Qed.

Lemma filter_all {A} (f : A -> bool) l : Forall (fun x => f x = true) l -> List.filter f l = l.
Proof. induction 1 as [|x l Hx _ IH]; [done|]. cbn. by rewrite Hx, IH. Qed.

(** adding directories to look for servers in.  What is stored is the sorted list of the
    validated directories, each once, at most fifty, none of them a system directory; it is what
    the dashboard uses, before and after a restart; and a request with one bad directory, or
    whose list cannot be written, changes nothing. *)
Theorem custom_paths_saved F isDir ok paths st r st' :
  SetCustomServerPaths F isDir ok paths st = (r, st') ->
  match r with
  | Ok clean =>
      (forall v, v ∈ clean <-> exists p, p ∈ paths /\ ValidateCustomServerPath F isDir p = Ok v) /\
      Forall (fun v => IsSafeServerDir v = true /\ isDir v = true) clean /\
      NoDup clean /\ Sorted (fun a b => String.leb a b = true) clean /\ (length clean <= MaxCustomServerPaths)%nat /\
      GetCustomServerPaths st' = clean /\ GetCustomServerPaths (start_stores st') = clean
  | Err _ => st' = st
  end.
Proof.
  unfold SetCustomServerPaths. destruct (Nat.ltb_spec MaxCustomServerPaths (length paths)) as [|Hl]; [by intros [= <- <-]|].
  destruct (clean_paths F isDir paths []) as [c|] eqn:Ec; [|by intros [= <- <-]]. destruct ok; intros [= <- <-]; [|done].
  apply clean_paths_spec in Ec as (Hn & Hlen & Hin); [|constructor]. pose proof (sort_strings_perm c) as Hp.
  assert (Hmem : forall v, v ∈ sort_strings c <-> exists p, p ∈ paths /\ ValidateCustomServerPath F isDir p = Ok v).
  { intros v. rewrite Hp, Hin. split; [intros [?%elem_of_nil|]; done|by right]. }
  assert (Hsafe : Forall (fun v => IsSafeServerDir v = true /\ isDir v = true) (sort_strings c))
    by (apply Forall_forall; intros v (p & _ & Hv)%Hmem; by eapply validated_safe).
  split_and!; [done|done|by rewrite Hp|apply sort_strings_sorted|rewrite Hp; simpl in Hlen; lia|done|].
  cbn. unfold loadCustomPaths. cbn. apply filter_all. eapply Forall_impl; [exact Hsafe|]. by intros v [].
Qed.

Lemma custom_paths_saved_witness :
  (SetCustomServerPaths toy_fs (fun _ => true) true ["/srv/b/"; "/srv/a"; " /srv/b"] demo_stores).1 = Ok ["/srv/a"; "/srv/b"] /\ NoDup ["/srv/a"; "/srv/b"].
Proof.
  split; [vm_compute; reflexivity|].
  refine (proj1 (proj2 (proj2 (custom_paths_saved toy_fs (fun _ => true) true ["/srv/b/"; "/srv/a"; " /srv/b"] demo_stores (Ok ["/srv/a"; "/srv/b"])
    (SetCustomServerPaths toy_fs (fun _ => true) true ["/srv/b/"; "/srv/a"; " /srv/b"] demo_stores).2 _)))). vm_compute. reflexivity.
Defined.

(** ** FastDL *)

(** the mode that was stored is the mode in force, for that server only. *)
Lemma fastdl_mode_stored ok id mode st st' id' : SetFastDLMode ok id mode st = (Ok tt, st') ->
  FastDLMode id' st' = if decide (id' = id) then mode else FastDLMode id' st.
Proof.
  unfold SetFastDLMode. destruct (IsValidFastDLMode mode) eqn:Ev; [|done]. cbn [negb].
  destruct (st_instances st !! id); [|done]. destruct ok; [|done]. intros [= <-].
  assert (Hm : forall m a b c d e, FastDLMode id' (mkStores a b (Some m) c d e) =
    (if IsValidFastDLMode (default "" (m !! id')) then default "" (m !! id') else FastDLDashboard)) by done.
  rewrite Hm.
  destruct (String.eqb_spec mode FastDLDashboard) as [->|]; destruct (decide (id' = id)) as [->|].
  - by rewrite lookup_delete_eq.
  - by rewrite lookup_delete_ne by done.
  - rewrite lookup_insert_eq. change (default "" (Some mode)) with mode. by rewrite Ev.
  - by rewrite lookup_insert_ne by done.
Qed.
