(* ===== verification/Backups.v ===== *)
(** * Backups (backend/backups.go)

    Where the backups of a server are, which archives are accepted, and what a restore does.
    The files are listed, removed and uploaded with the functions of SafeFs.v; an archive is
    the list of headers [archive/tar] reads from it. *)

From Stdlib Require Import ZArith Lia Bool String Ascii List.
From stdpp Require Import base gmap strings list fin_maps.
From S2P Require Import Prelude GoStrings Validate Paths SafeFs Cfg ServerFiles ConfigFiles.

(** ** Directories *)

Definition customBackupDir (srv : Instance) (home : option string) (values : gmap string string) : string :=
  let customDir := trim_space (default "" (values !! "backupdir")) in
  if String.eqb customDir "" then "" else
  match expandLGSMValue customDir values (lgsmBaseVars srv home) with
  | Some expanded =>
      if negb (IsAbs expanded) then ""
      else if String.eqb (i_Layout srv) LayoutData then dashboardPath srv expanded else Clean expanded
  | None => ""
  end.

Section Dirs.
(** [isDir] answers [os.Stat]. *)
Context (F : FileSystem) (isDir : string -> bool) (srv : Instance) (uid : Z).

Definition isAllowedBackupDir (dir : string) : option string :=
  if negb (IsAbs dir) then None else
  match resolveExisting (Clean dir) with
  | Err _ => None
  | Ok resolved =>
      if match EvalSymlinks (i_Dir srv) with Resolved root => IsWithin root resolved | _ => false end then Some resolved
      else if IsForbiddenServerDir resolved then None
      else if negb (isDir resolved) then None
      else match fileOwnerUID resolved with
           | Some u => if (u >=? 0) && (u =? uid) && (uid >? 0) then Some resolved else None
           | None => None
           end
  end.

Fixpoint unique_dirs (dirs seen : list string) : list string :=
  match dirs with
  | [] => []
  | d :: r =>
      match isAllowedBackupDir d with
      | Some resolved => if mem resolved seen then unique_dirs r seen else resolved :: unique_dirs r (resolved :: seen)
      | None => unique_dirs r seen
      end
  end.
Definition getBackupDirsForServer (custom : string) : list string :=
  let dirs := [Join [i_Dir srv; defaultBackupRel srv]; Join [i_Dir srv; "lgsm"; "backup"]; Join [i_Dir srv; "lgsm"; "backups"];
               Join [i_Dir srv; "backup"]; Join [i_Dir srv; "backups"]] in
  unique_dirs (if String.eqb custom "" then dirs else custom :: dirs) [].
End Dirs.

(** ** Names *)

Inductive ArchiveFormat := ArchiveTar | ArchiveTarGz | ArchiveTarZst.
Definition BackupArchiveFormat (name : string) : option ArchiveFormat :=
  if has_suffix name ".tar.gz" then Some ArchiveTarGz
  else if has_suffix name ".tar.zst" then Some ArchiveTarZst
  else if has_suffix name ".tar" then Some ArchiveTar else None.
Definition ContentType (f : ArchiveFormat) : string :=
  match f with ArchiveTarGz => "application/gzip" | ArchiveTarZst => "application/zstd" | ArchiveTar => "application/x-tar" end.
Definition tarFlags (f : ArchiveFormat) : list string :=
  match f with ArchiveTarGz => ["-z"] | ArchiveTarZst => ["--zstd"] | ArchiveTar => [] end.

Definition backup_stem (stem : string) : bool :=
  match to_bytes stem with
  | c :: r => is_alnum c && forallb (fun c => is_alnum c || one_of "._+-" c) r && (length r <=? 200)%nat
  | [] => false
  end.
Definition reBackupName (name : string) : bool :=
  existsb (fun suf => has_suffix name suf && backup_stem (trim_suffix name suf)) [".tar"; ".tar.gz"; ".tar.zst"].
Definition IsValidBackupFilename (name : string) : bool := reBackupName name && negb (contains name "..").

(** ** Listing, deleting, uploading *)

Inductive backup_error := EBackupName | EBackupExt | EBackupNotFound | EBackupDir | EBackupFile (e : file_error).

(** [lstat]: whether an entry of this name is a regular file. *)
Fixpoint find_backup (lstat : string -> option bool) (filename : string) (dirs : list string) : result backup_error string :=
  match dirs with
  | [] => Err EBackupNotFound
  | dir :: r =>
      let p := Join [dir; filename] in
      match lstat p with
      | None => find_backup lstat filename r
      | Some regular => if regular then Ok p else Err EBackupNotFound
      end
  end.
Definition getBackupFilePath (lstat : string -> option bool) (dirs : list string) (filename : string) : result backup_error string :=
  if negb (IsValidBackupFilename filename) then Err EBackupName else find_backup lstat filename dirs.

(** The names of a directory and their types, as [ListBackups] filters them. *)
Definition backup_entries (dir : string) (entries : list (string * bool)) : list (string * string) :=
  omap (fun e : string * bool => if e.2 && IsValidBackupFilename e.1 then Some (e.1, Join [dir; e.1]) else None) entries.

Section FileOps.
Context (adv : nat -> fs -> fs) (fault : nat -> bool).

Definition DeleteBackup (lstat : string -> option bool) (dirs : list string) (filename : string) : sys (result backup_error unit) :=
  match getBackupFilePath lstat dirs filename with
  | Err e => sret (Err e)
  | Ok p => let* r := removeNoSymlinks adv fault p in sret (match r with Ok _ => Ok tt | Err e => Err (EBackupFile (EFile e)) end)
  end.

(** [F1] to [F3]: what the path checks see; [isDir] answers [os.Stat] for the directories. *)
Definition UploadBackup (F1 F2 F3 : FileSystem) (isDir : string -> bool) (srv : Instance) (root : server_root) (dirs : list string)
    (filename : string) (body : filling) (rnd : string) : sys (result backup_error unit) :=
  match BackupArchiveFormat filename with
  | None => sret (Err EBackupExt)
  | Some _ =>
      if negb (IsValidBackupFilename filename) then sret (Err EBackupName) else
      let fallback := Join [i_Dir srv; defaultBackupRel srv] in
      let store (targetDir : string) : sys (result backup_error unit) :=
        match @EvalSymlinks F2 targetDir with
        | Resolved resolvedDir =>
            match @ResolveInRoot F3 resolvedDir filename with
            | Err _ => sret (Err EBackupName)
            | Ok target =>
                let* r := streamToResolvedFile adv fault root target body rnd in
                sret (match r with Ok _ => Ok tt | Err e => Err (EBackupFile e) end)
            end
        | _ => sret (Err EBackupDir)
        end in
      match List.find isDir dirs with
      | Some dir => store dir
      | None =>
          let* r := mkdirAllForServer adv fault F1 root fallback in
          match r with Err _ => sret (Err EBackupDir) | Ok _ => store fallback end
      end
  end.
End FileOps.

(** ** Validation of an archive *)

Record ArchiveLimits := mkLimits { MaxEntries : Z; MaxTotalSize : Z }.
Definition DefaultArchiveLimits : ArchiveLimits := mkLimits 2000000 (2 ^ 40).

Definition archivePathEscapes (name : string) : bool :=
  String.eqb name "" || contains_byte name (chr 0) || has_prefix name "/" || has_prefix name "\"
  || existsb (String.eqb "..") (split "/" (replace_byte name "\" "/")).

(** The type flags of tar. *)
Definition TypeReg : Z := 48.
Definition TypeLink : Z := 49.
Definition TypeSymlink : Z := 50.
Definition TypeDir : Z := 53.
Definition TypeXGlobalHeader : Z := 103.
Definition TypeXHeader : Z := 120.
Definition TypeGNUSparse : Z := 83.
Record header := mkHeader { h_Name : string; h_Linkname : string; h_Typeflag : Z; h_Size : Z }.
(** An entry, and whether its content could be read; a corrupt header. *)
Inductive tar_item := Entry (h : header) (readable : bool) | Corrupt.

Inductive unsafe_archive :=
| NotCompressed | CorruptArchive | TooManyEntries | IllegalPath | IllegalHardLink | LinkOutside | UnsupportedType | InvalidSize | TooLarge | NoSpace
| NoServerData | UnresolvedLink.

(** [path.Dir] *)
Definition slash_dir (p : string) : string :=
  Clean (join "/" (removelast (split "/" p)) +:+ (if contains_byte p "/" then "/" else "")).

Definition check_link (destDir : string) (h : header) : option unsafe_archive :=
  if existsb (Z.eqb (h_Typeflag h)) [TypeReg; 0; TypeDir; TypeXGlobalHeader; TypeXHeader; TypeGNUSparse] then None
  else if h_Typeflag h =? TypeLink then (if archivePathEscapes (h_Linkname h) then Some IllegalHardLink else None)
  else if h_Typeflag h =? TypeSymlink then
    let target := h_Linkname h in
    if has_prefix target "/" then (if IsWithin (Clean destDir) (Clean target) then None else Some LinkOutside)
    else
      let joined := Clean (Join [slash_dir (trim_prefix (h_Name h) "./"); target]) in
      if String.eqb joined ".." || has_prefix joined "../" then Some LinkOutside else None
  else Some UnsupportedType.

(** The loop over the entries; [entries] and [total] are 64-bit integers.  The result also has
    the entries given to the callback. *)
Fixpoint validate_loop (destDir : string) (limits : ArchiveLimits) (items : list tar_item) (entries total : Z) (seen : list header)
  : result unsafe_archive (Z * list header) :=
  match items with
  | [] => Ok (total, rev seen)
  | Corrupt :: _ => Err CorruptArchive
  | Entry h readable :: r =>
      let entries := wrap64 (entries + 1) in
      check negb ((MaxEntries limits >? 0) && (entries >? MaxEntries limits)) else TooManyEntries;;
      check negb (archivePathEscapes (h_Name h)) else IllegalPath;;
      match check_link destDir h with
      | Some e => Err e
      | None =>
          check negb (h_Size h <? 0) else InvalidSize;;
          let total := wrap64 (total + h_Size h) in
          check negb ((MaxTotalSize limits >? 0) && (total >? MaxTotalSize limits)) else TooLarge;;
          check readable else CorruptArchive;;
          validate_loop destDir limits r entries total (h :: seen)
      end
  end.
(** [items] is [None] when the stream is not of the format; [free] is -1 when unknown. *)
Definition validateArchive (items : option (list tar_item)) (destDir : string) (limits : ArchiveLimits) (free : Z)
  : result unsafe_archive (list header) :=
  match items with
  | None => Err NotCompressed
  | Some items =>
      match validate_loop destDir limits items 0 0 [] with
      | Err e => Err e
      | Ok (total, seen) => if (free >=? 0) && (total >? free) then Err NoSpace else Ok seen
      end
  end.

(** ** What is restored *)

Fixpoint strip_dots (fuel : nat) (name prefix : string) : string * string :=
  match fuel with
  | O => (name, prefix)
  | S fuel => if has_prefix name "./" then strip_dots fuel (sdrop 2 name) (prefix +:+ "./") else (name, prefix)
  end.
Definition archiveRel (name : string) : string := trim_suffix (strip_dots (String.length name) name "").1 "/".
Definition underArchiveDir (name dir : string) : bool := has_prefix (archiveRel name) (dir +:+ "/").

Definition skip_header (enabled : bool) (h : header) : bool :=
  enabled && negb (contains_any (h_Name h) (of_bytes [chr 10; chr 13]))
  && (String.eqb (archiveRel (h_Name h)) "log/server" || underArchiveDir (h_Name h) "log/server"
      || ((h_Typeflag h =? TypeLink) && underArchiveDir (h_Linkname h) "log/server")).
Definition hostLogSkips (enabled : bool) (hs : list header) : list string := map h_Name (List.filter (skip_header enabled) hs).

Definition containerRestoreRoots : list string := ["serverfiles"; "log"; "lgsm/config-lgsm"; "lgsm/data"; "lgsm/mods"].
Definition restore_root (rel : string) : option string :=
  List.find (fun root => String.eqb rel root || has_prefix rel (root +:+ "/")) containerRestoreRoots.
(** The member of one entry, and the list of members. *)
Definition restore_member (name : string) : option string :=
  let '(rel, prefix) := strip_dots (String.length name) name "" in option_map (append prefix) (restore_root rel).
Definition add_member (list : list string) (name : string) : Datatypes.list string :=
  match restore_member name with Some m => if mem m list then list else (list ++ [m])%list | None => list end.
Definition containerRestoreMembers (hs : list header) : list string := fold_left add_member (map h_Name hs) [].

Definition sed_special (c : ascii) : bool := one_of "\.*[]^$," c.
Definition regexpQuoteSed (s : string) : string := of_bytes (flat_map (fun c => if sed_special c then ["\"%char; c] else [c]) (to_bytes s)).

Record hostRestoreCommand := mkCommand { hc_args : list string; hc_stdin : string }.
(** The loop over the members: those extracted directly, and the commands of those that are
    links on disk.  [link p]: [Some None] for a symbolic link that cannot be resolved. *)
Fixpoint host_members (link : string -> option (option string)) (dir archive : string) (base : list string) (stdin : string)
    (ms : list string) : result unsafe_archive (list string * list hostRestoreCommand) :=
  match ms with
  | [] => Ok ([], [])
  | m :: r =>
      let rel := archiveRel m in
      match link (Join [dir; rel]) with
      | None => let? (direct, cmds) := host_members link dir archive base stdin r in Ok (m :: direct, cmds)
      | Some None => Err UnresolvedLink
      | Some (Some target) =>
          let prefix := trim_suffix m rel in
          let expr := "s,^" +:+ regexpQuoteSed (prefix +:+ rel) +:+ "/,," in
          let cmd := mkCommand (base ++ ["--transform"; expr; "-xf"; archive; "-C"; target; "--"; m])%list stdin in
          let? (direct, cmds) := host_members link dir archive base stdin r in Ok (direct, cmd :: cmds)
      end
  end.
Definition hostRestoreCommands (link : string -> option (option string)) (dir : string) (format : ArchiveFormat) (archive : string)
    (members excludes : list string) : result unsafe_archive (list hostRestoreCommand) :=
  let base := (["tar"; "--no-same-owner"; "--keep-directory-symlink"] ++ tarFlags format)%list in
  let '(base, stdin) := match excludes with
                        | [] => (base, "")
                        | _ => ((base ++ ["--anchored"; "--no-wildcards"; "-X"; "-"])%list, join (byte_str lf) excludes +:+ byte_str lf)
                        end in
  let? (direct, cmds) := host_members link dir archive base stdin members in
  Ok (match direct with [] => cmds | _ => mkCommand (base ++ ["-xf"; archive; "-C"; dir; "--"] ++ direct)%list stdin :: cmds end).

(** The script itself is shell code, the parameter [script]. *)
Definition restoreCommand (script : string) (format : ArchiveFormat) (archive : string) (members : list string) : list string :=
  (["sh"; "-c"; script; "restore"; containerDataDir +:+ "/.lgsm-dashboard-restore"; archive; List.hd "" (tarFlags format)] ++ members)%list.

(** ** Cloud backups *)

Record CloudBackupSettings := mkCloud { cb_Enabled : bool; cb_Remote : string; cb_Path : string; cb_AutoSync : bool }.
Inductive cloud_error := BadRemote | BadRemotePath | RemoteRequired.
Definition word_char (c : ascii) : bool := is_alnum c || one_of "_" c.
Definition reRcloneRemote (s : string) : bool :=
  match to_bytes s with
  | c :: r => word_char c && forallb (fun c => word_char c || one_of ". -" c) r && (length r <=? 63)%nat
  | [] => false
  end.
Definition reRclonePath (s : string) : bool := sall (fun c => is_alnum c || one_of "_./@+-" c) s && (slen s <=? 255).
Definition ValidateCloudBackupSettings (s : CloudBackupSettings) : option cloud_error :=
  if negb (String.eqb (cb_Remote s) "") && (negb (reRcloneRemote (cb_Remote s)) || has_suffix (cb_Remote s) " ") then Some BadRemote
  else if negb (reRclonePath (cb_Path s)) || has_prefix (cb_Path s) "-" || contains (cb_Path s) ".." then Some BadRemotePath
  else if cb_Enabled s && String.eqb (cb_Remote s) "" then Some RemoteRequired else None.
Definition cloud_defaults : CloudBackupSettings := mkCloud false "" "backups" false.
(** [stored]: what the file of the server holds, if it can be read and decoded. *)
Definition GetCloudBackupSettings (stored : option CloudBackupSettings) : CloudBackupSettings :=
  match stored with
  | Some s => match ValidateCloudBackupSettings s with None => s | Some _ => cloud_defaults end
  | None => cloud_defaults
  end.
(** The command of [SyncCloudBackup]; [None] when it is refused. *)
Definition sync_command (s : CloudBackupSettings) (isDir : string -> bool) (dirs : list string) : option (list string) :=
  if negb (cb_Enabled s) || String.eqb (cb_Remote s) "" then None else
  match List.find isDir dirs with
  | None => None
  | Some backupDir => Some ["rclone"; "copy"; "-v"; "--"; backupDir; cb_Remote s +:+ ":" +:+ cb_Path s]
  end.

(** * Lemmas: relative paths *)

(** After one step above the start, every later result begins with "..". *)
Lemma unrooted_up parts k rn : Forall no_slash parts -> Forall name_ok rn ->
  exists k' rn', clean_loop false parts (rn ++ repeat ".." (S k)) = (repeat ".." (S k') ++ rn')%list.
Proof.
  intros Hp. revert k rn. induction Hp as [|p r Hp _ IH]; intros k rn Hrn; cbn [clean_loop].
  - exists k, (rev rn). rewrite rev_app_distr. f_equal. clear. induction k as [|k IH]; [done|].
    change (repeat ".." (S (S k))) with ([".."] ++ repeat ".." (S k))%list at 1. rewrite rev_app_distr, IH. cbn [rev app].
    change [".."] with (repeat ".." 1). rewrite <- repeat_app. f_equal. lia.
  - destruct (String.eqb_spec p ""); [by apply IH|]. destruct (String.eqb_spec p "."); [by apply IH|]. cbn [orb].
    destruct (String.eqb_spec p "..") as [->|].
    + destruct rn as [|top rest]; cbn [app repeat].
      * change (".." :: ".." :: repeat ".." k) with ([] ++ repeat ".." (S (S k)))%list. by apply IH.
      * inversion Hrn as [|? ? (_ & _ & Ht & _) Hr]; subst. apply String.eqb_neq in Ht. rewrite Ht. by apply IH.
    + change (p :: rn ++ repeat ".." (S k))%list with ((p :: rn) ++ repeat ".." (S k))%list. apply IH. constructor; [by split_and!|done].
Qed.

(** A relative path that does not lead up adds names to any directory it is joined to. *)
Lemma unrooted_names parts rn : Forall no_slash parts -> Forall name_ok rn ->
  (exists k rn', clean_loop false parts rn = (".." :: repeat ".." k ++ rn')%list) \/
  (exists rn', Forall name_ok rn' /\ clean_loop false parts rn = rn' /\ forall B, clean_loop true parts (rn ++ B) = (rev B ++ rn')%list).
Proof.
  intros Hp. revert rn. induction Hp as [|p r Hp Hr IH]; intros rn Hrn; cbn [clean_loop].
  - right. exists (rev rn). split_and!; [by apply Forall_rev|done|]. intros B. by rewrite rev_app_distr.
  - destruct (String.eqb_spec p ""); [by apply IH|]. destruct (String.eqb_spec p "."); [by apply IH|]. cbn [orb].
    destruct (String.eqb_spec p "..") as [->|].
    + destruct rn as [|top rest].
      * left. destruct (unrooted_up r 0 [] Hr (Forall_nil_2 _)) as (k & rn' & E). exists k, rn'. exact E.
      * inversion Hrn as [|? ? (_ & _ & Ht & _) Hrest]; subst. apply String.eqb_neq in Ht. cbn [app]. rewrite Ht. by apply IH.
    + apply IH. constructor; [by split_and!|done].
Qed.

(** A cleaned relative path that is not ".." and does not begin with "../". *)
Lemma clean_stays p : IsAbs p = false -> String.eqb (Clean p) ".." || has_prefix (Clean p) "../" = false ->
  exists names, Forall name_ok names /\ forall B, clean_loop true (split "/" p) B = (rev B ++ names)%list.
Proof.
  intros Ha Hc. destruct (unrooted_names (split "/" p) [] (split_no_slash p) (Forall_nil_2 _)) as [(k & rn & E)|(rn & Hn & _ & HB)].
  2:{ exists rn. split; [done|exact HB]. }
  exfalso. assert (He : elements p = (".." :: repeat ".." k ++ rn)%list) by (unfold elements; by rewrite Ha).
  assert (Hp : p <> "") by (intros ->; discriminate He). apply String.eqb_neq in Hp. unfold Clean in Hc. rewrite Hp, Ha, He in Hc.
  destruct (join_first ".." (repeat ".." k ++ rn)) as (t & Hj & Ht). rewrite Hj in Hc.
  destruct Ht as [->|[t' ->]].
  - by rewrite string_app_nil_r in Hc.
  - assert (Hpre : has_prefix (".." +:+ "/" +:+ t') "../" = true) by (apply has_prefix_spec; exists t'; done).
    change (String.eqb (".." +:+ "/" +:+ t') "") with false in Hc. cbv iota in Hc. rewrite Hpre, orb_true_r in Hc. done.
Qed.

Lemma no_dots_stays p : existsb (String.eqb "..") (split "/" p) = false ->
  exists names, Forall name_ok names /\ forall B, clean_loop true (split "/" p) B = (rev B ++ names)%list.
Proof.
  pose proof (split_no_slash p) as Hs. intros Hd.
  assert (H : forall parts, Forall no_slash parts -> existsb (String.eqb "..") parts = false ->
    exists names, Forall name_ok names /\ forall B, clean_loop true parts B = (rev B ++ names)%list); [|by apply H].
  induction 1 as [|q r Hq _ IH]; cbn [existsb]; intros He.
  - exists []. split; [done|]. intros B. by rewrite app_nil_r.
  - apply orb_false_iff in He as [He1 He2]. destruct (IH He2) as (names & Hn & HB). cbn [clean_loop].
    destruct (String.eqb_spec q ""); [by exists names|]. destruct (String.eqb_spec q "."); [by exists names|]. cbn [orb].
    rewrite String.eqb_sym in He1. rewrite He1. exists (q :: names). split.
    + constructor; [|done]. split_and!; [done..| |done]. by apply String.eqb_neq.
    + intros B. rewrite HB. cbn [rev]. by rewrite <- app_assoc.
Qed.

Lemma clean_loop_pieces rooted parts st : Forall no_slash parts -> Forall (fun s => s <> "" /\ no_slash s) st ->
  Forall (fun s => s <> "" /\ no_slash s) (clean_loop rooted parts st).
Proof.
  intros Hp. revert st. induction Hp as [|p r Hp _ IH]; intros st Hs; cbn [clean_loop]; [by apply Forall_rev|].
  destruct (String.eqb_spec p ""); [by apply IH|]. destruct (String.eqb p "."); [by apply IH|]. cbn [orb].
  destruct (String.eqb_spec p "..") as [->|]; [|by apply IH; constructor].
  destruct Hs as [|top rest Ht Hr]; [apply IH; destruct rooted; by repeat constructor|].
  destruct (String.eqb top ".."); apply IH; [|done].
  constructor; [done|]. by constructor.
Qed.

Lemma clean_rel p : IsAbs p = false -> IsAbs (Clean p) = false.
Proof.
  intros Ha. unfold Clean. destruct (String.eqb p ""); [done|]. rewrite Ha.
  pose proof (clean_loop_pieces (IsAbs p) (split "/" p) [] (split_no_slash p) (Forall_nil_2 _)) as H. fold (elements p) in H.
  destruct (elements p) as [|x l]; [done|]. destruct (join_first x l) as (r & Hj & _). rewrite Hj.
  destruct (String.eqb (x +:+ r) ""); [done|]. inversion H as [|? ? [Hx Hns] _]; subst. unfold IsAbs. destruct x as [|c x]; [done|].
  apply not_true_iff_false. intros Hpre. apply has_prefix_spec in Hpre as [k Hk]. cbn in Hk. injection Hk as -> _.
  unfold no_slash in Hns. apply contains_byte_false in Hns. apply Hns. by left.
Qed.

Lemma elements_join_rel dest p : IsAbs dest = true -> elements (Join [dest; p]) = clean_loop true (split "/" p) (rev (elements dest)).
Proof.
  intros Ha. cbn [Join]. destruct (String.eqb_spec dest "") as [->|_]; [done|].
  assert (Hab : IsAbs (join "/" [dest; p]) = true) by (rewrite join_cons; apply has_prefix_spec in Ha as [k ->]; reflexivity).
  rewrite elements_clean by done. unfold elements at 1. rewrite Hab, join_cons, join_one, split_app_slash, clean_loop_app.
  unfold elements. by rewrite Ha.
Qed.

Lemma stays_below dest p : IsAbs dest = true -> (exists names, Forall name_ok names /\ forall B, clean_loop true (split "/" p) B = (rev B ++ names)%list) ->
  elements dest `prefix_of` elements (Join [dest; p]).
Proof. intros Ha (names & _ & HB). rewrite elements_join_rel, HB, rev_involutive by done. by exists names. Qed.

(** A piece of a path stays one when other bytes become separators. *)
Lemma split_around c s w : In w (split c s) -> exists pre post, s = pre +:+ w +:+ post /\
  (pre = "" \/ exists a, pre = a +:+ byte_str c) /\ (post = "" \/ exists b, post = byte_str c +:+ b).
Proof.
  intros (l1 & l2 & E)%in_split. rewrite <- (join_split c s), E.
  exists (match l1 with [] => "" | _ => join (byte_str c) l1 +:+ byte_str c end), (match l2 with [] => "" | _ => byte_str c +:+ join (byte_str c) l2 end).
  split_and!; [|destruct l1; [by left|right; eauto]|destruct l2; [by left|right; eauto]].
  assert (Hw : join (byte_str c) (w :: l2) = w +:+ match l2 with [] => "" | _ => byte_str c +:+ join (byte_str c) l2 end).
  { destruct l2; [by rewrite join_one, string_app_nil_r|]. by rewrite join_cons. }
  rewrite <- Hw. destruct l1 as [|x l1]; [done|]. rewrite join_app by done. by rewrite !string_app_assoc.
Qed.
Lemma around_split c pre w post : contains_byte w c = false -> (pre = "" \/ exists a, pre = a +:+ byte_str c) ->
  (post = "" \/ exists b, post = byte_str c +:+ b) -> In w (split c (pre +:+ w +:+ post)).
Proof.
  intros Hw Hpre Hpost. assert (Hin : In w (split c (w +:+ post))).
  { assert (Hone : split c w = [w]).
    { unfold split. rewrite lsplit_no_sep; [cbn; by rewrite of_to_bytes|]. by apply contains_byte_false. }
    destruct Hpost as [->|[b ->]]; [rewrite string_app_nil_r|rewrite split_app, in_app_iff]; rewrite Hone; [by left|left; by left]. }
  destruct Hpre as [->|[a ->]]; [done|]. rewrite string_app_assoc, split_app, in_app_iff. by right.
Qed.
Lemma replace_byte_app a b c r : replace_byte (a +:+ b) c r = replace_byte a c r +:+ replace_byte b c r.
Proof. unfold replace_byte. by rewrite to_bytes_app, flat_map_app, of_bytes_app. Qed.

(** What a tar member may be called, and where a hard link may lead. *)
Lemma name_below dest name : IsAbs dest = true -> archivePathEscapes name = false -> elements dest `prefix_of` elements (Join [dest; name]).
Proof.
  intros Ha He. unfold archivePathEscapes in He. apply orb_false_iff in He as [_ He]. apply stays_below; [done|].
  apply no_dots_stays, not_true_iff_false. intros Hx. apply existsb_exists in Hx as (w & Hw & Hw'). apply String.eqb_eq in Hw' as <-.
  apply not_true_iff_false in He. apply He, existsb_exists. exists "..". split; [|done].
  destruct (split_around _ _ _ Hw) as (pre & post & -> & Hpre & Hpost). rewrite !replace_byte_app. apply around_split; [done|..].
  - destruct Hpre as [->|[a ->]]; [by left|right]. exists (replace_byte a "\" "/"). by rewrite replace_byte_app.
  - destruct Hpost as [->|[b ->]]; [by left|right]. exists (replace_byte b "\" "/"). by rewrite replace_byte_app.
Qed.

Lemma is_abs_app a b : a <> "" -> IsAbs (a +:+ b) = IsAbs a.
Proof. by destruct a. Qed.

Lemma slash_dir_rel n : IsAbs n = false -> IsAbs (slash_dir n) = false.
Proof.
  intros Hn. unfold slash_dir. apply clean_rel. destruct (contains_byte n "/") eqn:Eb.
  - destruct (exists_last (split_not_nil "/" n)) as (init & lst & E). rewrite E, removelast_last.
    pose proof (join_split "/" n) as Hj. rewrite E in Hj. destruct init as [|x init].
    + exfalso. cbn [app] in Hj. rewrite join_one in Hj. subst lst. pose proof (split_no_slash n) as Hs. rewrite E in Hs.
      inversion Hs as [|? ? Hs1 _]; subst. unfold no_slash in Hs1. congruence.
    + rewrite join_snoc in Hj by done. change (byte_str "/") with "/" in Hj.
      destruct (join "/" (x :: init)) as [|c j] eqn:Ej; [by rewrite <- Hj in Hn|].
      rewrite <- Hj in Hn. rewrite is_abs_app in Hn |- * by done. exact Hn.
  - rewrite string_app_nil_r. destruct (exists_last (split_not_nil "/" n)) as (init & lst & E). rewrite E, removelast_last.
    destruct init as [|x init]; [done|]. exfalso. pose proof (join_split "/" n) as Hj. rewrite E, join_snoc in Hj by done.
    apply contains_byte_false in Eb. apply Eb. rewrite <- Hj, !to_bytes_app, !in_app_iff. right. by left; left.
Qed.

(** Where a symbolic link leads, taken from the directory of its entry. *)
Lemma link_below dest dir target : IsAbs dest = true -> IsAbs dir = false -> dir <> "" ->
  String.eqb (Clean (Join [dir; target])) ".." || has_prefix (Clean (Join [dir; target])) "../" = false ->
  elements dest `prefix_of` elements (Join [dest; Join [dir; target]]).
Proof.
  intros Ha Hd Hne Hc. apply stays_below; [done|]. apply clean_stays; [|done]. cbn [Join].
  apply String.eqb_neq in Hne as Hne'. rewrite Hne'. apply clean_rel. rewrite join_cons. by rewrite is_abs_app.
Qed.
Lemma clean_not_empty p : Clean p <> "".
Proof.
  unfold Clean. destruct (String.eqb p ""); [done|]. destruct (IsAbs p); [done|].
  by destruct (String.eqb_spec (join "/" (elements p)) "").
Qed.

(** ** Properties *)

(** Where the content of an entry ends up, as far as the path says. *)
Definition entry_ok (dest : string) (h : header) : Prop :=
  elements dest `prefix_of` elements (Join [dest; h_Name h]) /\ IsAbs (h_Name h) = false /\ 0 <= h_Size h /\
  (h_Typeflag h = TypeLink -> elements dest `prefix_of` elements (Join [dest; h_Linkname h])) /\
  (h_Typeflag h = TypeSymlink -> IsAbs (trim_prefix (h_Name h) "./") = false ->
     if IsAbs (h_Linkname h) then elements dest `prefix_of` elements (h_Linkname h)
     else elements dest `prefix_of` elements (Join [dest; Join [slash_dir (trim_prefix (h_Name h) "./"); h_Linkname h]])) /\
  h_Typeflag h ∈ [TypeReg; 0; TypeDir; TypeXGlobalHeader; TypeXHeader; TypeGNUSparse; TypeLink; TypeSymlink].

Lemma check_link_ok dest h : IsAbs dest = true -> archivePathEscapes (h_Name h) = false -> check_link dest h = None -> 0 <= h_Size h -> entry_ok dest h.
Proof.
  intros Ha Hn Hc Hs. unfold entry_ok. split; [by apply name_below|].
  assert (Hrel : IsAbs (h_Name h) = false).
  { unfold archivePathEscapes in Hn. repeat (apply orb_false_iff in Hn as [Hn ?]). done. }
  split; [done|]. split; [done|]. unfold check_link in Hc. destruct (existsb _ _) eqn:Ee.
  { apply existsb_exists in Ee as (t & Hin & Ht). apply Z.eqb_eq in Ht. rewrite Ht in *.
    assert (Ht' : t <> TypeLink /\ t <> TypeSymlink) by (simpl in Hin; repeat destruct Hin as [<-|Hin]; by try split).
    split_and!; [tauto|tauto|]. apply list_elem_of_In. simpl in Hin |- *. tauto. }
  destruct (Z.eqb_spec (h_Typeflag h) TypeLink) as [Et|Et].
  { destruct (archivePathEscapes (h_Linkname h)) eqn:El; [done|]. split_and!; [by intros _; apply name_below|by rewrite Et|].
    rewrite Et. apply list_elem_of_In. simpl. tauto. }
  destruct (Z.eqb_spec (h_Typeflag h) TypeSymlink) as [Es|Es]; [|done]. split_and!; [done| |rewrite Es; apply list_elem_of_In; simpl; tauto].
  intros _ Hrel'. fold (IsAbs (h_Linkname h)) in Hc. destruct (IsAbs (h_Linkname h)) eqn:El.
  - destruct (IsWithin (Clean dest) (Clean (h_Linkname h))) eqn:Ew; [|done]. apply is_within_iff in Ew; [|by apply clean_is_abs..].
    by rewrite !elements_clean in Ew.
  - destruct (String.eqb (Clean (Join [_; _])) ".." || _) eqn:Eo; [done|].
    apply link_below; [done|by apply slash_dir_rel|apply clean_not_empty|done].
Qed.

Definition total_size (hs : list header) : Z := fold_right (fun h n => h_Size h + n) 0 hs.
Lemma total_nonneg dest hs : Forall (entry_ok dest) hs -> 0 <= total_size hs.
Proof. unfold total_size. induction 1 as [|h hs (_ & _ & Hs & _) _ IH]; cbn [fold_right]; lia. Qed.

Lemma validate_loop_ok dest limits items n total seen r hs : IsAbs dest = true ->
  validate_loop dest limits items n total seen = Ok (r, hs) ->
  exists l, items = map (fun h => Entry h true) l /\ hs = (rev seen ++ l)%list /\ Forall (entry_ok dest) l /\
    (0 <= n -> n + Z.of_nat (length l) <= int64_max -> l <> [] -> 0 < MaxEntries limits -> n + Z.of_nat (length l) <= MaxEntries limits) /\
    (0 <= total -> total + total_size l <= int64_max -> r = total + total_size l /\
       (l <> [] -> 0 < MaxTotalSize limits -> total + total_size l <= MaxTotalSize limits)).
Proof.
  intros Ha. revert n total seen. induction items as [|[h readable|] items IH]; intros n total seen; cbn [validate_loop]; [|..|done].
  { intros [= <- <-]. exists []. cbn. rewrite app_nil_r. split_and!; try done. intros. split; [lia|done]. }
  destruct (negb _) eqn:E1; [|done]. destruct (archivePathEscapes (h_Name h)) eqn:E2; [done|]. cbn [negb].
  destruct (check_link dest h) eqn:E3; [done|]. destruct (h_Size h <? 0) eqn:E4; [done|]. cbn [negb].
  destruct (negb ((MaxTotalSize limits >? 0) && _)) eqn:E5; [|done]. destruct readable; [|done]. intros Hr.
  apply IH in Hr as (l & -> & -> & Hl & Hcount & Hsum). exists (h :: l). apply Z.ltb_ge in E4.
  pose proof (check_link_ok dest h Ha E2 E3 E4) as Hok. pose proof (total_nonneg dest l Hl) as Hnn. split_and!; [done|by cbn [rev]; rewrite <- app_assoc|by constructor|..].
  - intros Hn Hmax _ Hlim. cbn [length] in *. rewrite wrap64_id in Hcount, E1 by (unfold int64_min; lia).
    destruct l as [|h2 l]; [cbn; lia|]. assert (Hne : h2 :: l <> []) by done. specialize (Hcount ltac:(lia) ltac:(cbn in *; lia) Hne Hlim). cbn in *. lia.
  - intros Ht Hmax. cbn [total_size fold_right] in *. fold (total_size l) in *.
    rewrite wrap64_id in Hsum, E5 by (unfold int64_min; lia). destruct Hsum as [-> Hsum]; [lia|lia|]. split; [lia|].
    intros _ Hlim. destruct l as [|h2 l]; [cbn; lia|]. specialize (Hsum ltac:(done) Hlim). lia.
Qed.

(** C13: an archive that is accepted (validateArchive).  Every entry was read completely, nothing
    but files, directories and links is in it, and, with the paths read as text, the name of
    every entry and the target of every hard link lead, element by element, into the
    destination; so does the target of a symbolic link, taken from the directory of its entry,
    unless the name is still absolute after its first "./" (names that begin with ".//").  The
    archive holds to the limit on entries; and as long as the declared sizes add up to less
    than 2^63 they hold to the limit on the size and fit on the disk.  The text of a path is
    not where it leads once other links of the archive are followed; that and the two
    exceptions are the Examples below. *)
Theorem archive_contained items dest limits free hs :
  IsAbs dest = true -> validateArchive items dest limits free = Ok hs ->
  items = Some (map (fun h => Entry h true) hs) /\ Forall (entry_ok dest) hs /\
  (Z.of_nat (length hs) <= int64_max -> 0 < MaxEntries limits -> Z.of_nat (length hs) <= MaxEntries limits) /\
  (total_size hs <= int64_max -> (0 < MaxTotalSize limits -> total_size hs <= MaxTotalSize limits) /\ (0 <= free -> total_size hs <= free)).
Proof.
  intros Ha. unfold validateArchive. destruct items as [items|]; [|done].
  destruct (validate_loop dest limits items 0 0 []) as [[total seen]|] eqn:E; [|done].
  destruct ((free >=? 0) && (total >? free)) eqn:Ef; [done|]. intros [= ->].
  apply validate_loop_ok in E as (l & -> & -> & Hl & Hc & Hs); [|done]. cbn [rev app].
  split_and!; [done|done|..].
  - intros Hm Hlim. destruct l as [|h l]; [cbn; lia|]. apply Hc; [lia|lia|done|done].
  - intros Hm. destruct Hs as [-> Hs]; [lia|lia|]. split; [|lia]. intros Hlim. destruct l as [|h l]; [cbn; lia|]. by apply Hs.
Qed.

Definition demo_archive : list header :=
  [mkHeader "./serverfiles/" "" TypeDir 0; mkHeader "./serverfiles/world/level.dat" "" TypeReg 1024;
   mkHeader "./log/server" "/srv/data/serverfiles/logs" TypeSymlink 0; mkHeader "./.ssh/authorized_keys" "" TypeReg 80;
   mkHeader "./lgsm/config-lgsm/vh/vh.cfg" "" TypeReg 12].
Lemma archive_contained_witness :
  Forall (entry_ok "/srv/data") demo_archive /\ total_size demo_archive <= 2 ^ 40.
Proof.
  destruct (archive_contained (Some (map (fun h => Entry h true) demo_archive)) "/srv/data" DefaultArchiveLimits (2 ^ 30) demo_archive
    ltac:(reflexivity) ltac:(vm_compute; reflexivity)) as (_ & H & _ & Hs).
  split; [exact H|]. apply (proj1 (Hs ltac:(vm_compute; discriminate))). reflexivity.
Defined.

(** Sizes that add up to more wrap around: after any file, a directory that claims the largest
    size makes the total negative, and what follows passes both checks on the size. *)
Example size_limit_wraps :
  let hs := [mkHeader "a" "" TypeReg 1; mkHeader "d" "" TypeDir int64_max; mkHeader "serverfiles/b" "" TypeReg (2 ^ 45)] in
  validateArchive (Some (map (fun h => Entry h true) hs)) "/srv/data" DefaultArchiveLimits (2 ^ 30) = Ok hs.
Proof. vm_compute. reflexivity. Qed.
(** A name that begins with ".//" is taken for an absolute one, and its link is not checked. *)
Example double_slash_link :
  let h := mkHeader ".//l" "../../etc" TypeSymlink 0 in
  validateArchive (Some [Entry h true]) "/srv/data" DefaultArchiveLimits (-1) = Ok [h] /\
  Join ["/srv/data"; Join [slash_dir "l"; h_Linkname h]] = "/etc".
Proof. vm_compute. split; reflexivity. Qed.
(** The check does not follow links of the same archive: with a -> ".", the entry a/a/l is
    created in the destination itself, and its link leads out of it. *)
Example chained_link_escapes :
  let hs := [mkHeader "a" "." TypeSymlink 0; mkHeader "a/a/l" "../../etc" TypeSymlink 0] in
  validateArchive (Some (map (fun h => Entry h true) hs)) "/srv/data" DefaultArchiveLimits (-1) = Ok hs /\
  Join ["/srv/data"; "../../etc"] = "/etc".
Proof. vm_compute. split; reflexivity. Qed.

(** *** What is restored *)

Lemma sdrop_two name : has_prefix name "./" = true -> name = "./" +:+ sdrop 2 name.
Proof. intros [r ->]%has_prefix_spec. by rewrite (sdrop_app "./"). Qed.

Lemma strip_dots_spec fuel name p rel q : strip_dots fuel name p = (rel, q) -> exists dots, q = p +:+ dots /\ name = dots +:+ rel /\
  ((String.length name <= fuel)%nat -> has_prefix rel "./" = false).
Proof.
  revert name p. induction fuel as [|fuel IH]; intros name p; cbn [strip_dots].
  - intros [= <- <-]. exists "". split_and!; [by rewrite string_app_nil_r|done|]. intros Hl. by destruct name; [|simpl in Hl; lia].
  - destruct (has_prefix name "./") eqn:E.
    + intros H. apply IH in H as (dots & -> & Hn & Hl). exists ("./" +:+ dots). apply sdrop_two in E. split_and!.
      * by rewrite string_app_assoc.
      * rewrite E, Hn. by rewrite string_app_assoc.
      * intros Hf. apply Hl. rewrite E in Hf. rewrite string_app_length in Hf. simpl in Hf. lia.
    + intros [= <- <-]. exists "". split_and!; [by rewrite string_app_nil_r|done|done].
Qed.

Lemma restore_root_spec rel root : restore_root rel = Some root -> root ∈ containerRestoreRoots /\ (rel = root \/ exists x, rel = root +:+ "/" +:+ x).
Proof.
  unfold restore_root. intros [Hin H]%find_some. split; [by apply list_elem_of_In|]. apply orb_true_iff in H as [H|H].
  - left. by apply String.eqb_eq.
  - right. apply has_prefix_spec in H as [x ->]. exists x. by rewrite string_app_assoc.
Qed.

Lemma root_plain root : root ∈ containerRestoreRoots -> has_prefix root "./" = false /\ has_suffix root "/" = false.
Proof.
  intros H. assert (Hall : Forall (fun r => has_prefix r "./" = false /\ has_suffix r "/" = false) containerRestoreRoots)
    by (repeat constructor).
  rewrite Forall_forall in Hall. by apply Hall.
Qed.

(** Stripping undoes the "./" prefixes of a member. *)
Lemma strip_dots_member fuel dots root p name q rel : strip_dots fuel name p = (rel, q) -> (String.length name <= fuel)%nat -> root ∈ containerRestoreRoots ->
  q = p +:+ dots -> name = dots +:+ rel ->
  forall fuel', (String.length (dots +:+ root) <= fuel')%nat -> (strip_dots fuel' (dots +:+ root) "").1 = root.
Proof.
  revert name p dots. induction fuel as [|fuel IH]; intros name p dots; cbn [strip_dots].
  - intros [= <- <-] Hl Hr Hq Hn fuel' _. destruct name; [|simpl in Hl; lia].
    assert (Hd : dots = "") by (destruct dots; [done|discriminate Hn]). rewrite Hd. change ("" +:+ root) with root.
    destruct fuel'; cbn [strip_dots]; [done|]. by rewrite (proj1 (root_plain _ Hr)).
  - destruct (has_prefix name "./") eqn:E.
    + intros Hs Hl Hr Hq Hn fuel' Hf. pose proof (sdrop_two _ E) as En. pose proof (strip_dots_spec _ _ _ _ _ Hs) as (d & Hq' & Hn' & _).
      rewrite string_app_assoc in Hq'. assert (Hd : dots = "./" +:+ d).
      { rewrite Hq in Hq'. apply (f_equal to_bytes) in Hq'. rewrite !to_bytes_app in Hq'. apply app_inv_head in Hq'.
        apply to_bytes_inj. by rewrite to_bytes_app. }
      subst dots. rewrite string_app_assoc in Hf |- *. destruct fuel' as [|fuel']; [rewrite string_app_length in Hf; simpl in Hf; lia|]. cbn [strip_dots].
      rewrite has_prefix_app, (sdrop_app "./").
      assert (Hfst : forall f n a b, (strip_dots f n a).1 = (strip_dots f n b).1).
      { clear. induction f as [|f IHf]; intros n a b; cbn [strip_dots]; [done|]. destruct (has_prefix n "./"); [apply IHf|done]. }
      rewrite (Hfst _ _ _ "").
      eapply (IH (sdrop 2 name) (p +:+ "./") d Hs); [rewrite En, string_app_length in Hl; simpl in Hl; lia|done| |done|rewrite string_app_length in Hf; simpl in Hf; lia].
      rewrite Hq. by rewrite string_app_assoc.
    + intros [= <- <-] _ Hr Hq Hn fuel' _. assert (Hd : dots = "").
      { apply (f_equal String.length) in Hq. rewrite string_app_length in Hq. destruct dots; [done|simpl in Hq; lia]. }
      rewrite Hd. change ("" +:+ root) with root. destruct fuel'; cbn [strip_dots]; [done|]. by rewrite (proj1 (root_plain _ Hr)).
Qed.

Lemma restore_member_spec name m : restore_member name = Some m ->
  archiveRel m ∈ containerRestoreRoots /\ (name = m \/ exists x, name = m +:+ "/" +:+ x) /\ exists dots, m = dots +:+ archiveRel m.
Proof.
  unfold restore_member. destruct (strip_dots (String.length name) name "") as [rel q] eqn:Es.
  destruct (restore_root rel) as [root|] eqn:Er; [|done]. intros [= <-].
  destruct (strip_dots_spec _ _ _ _ _ Es) as (dots & Hq & Hn & _). change ("" +:+ dots) with dots in Hq. subst q. apply restore_root_spec in Er as [Hin Hrel].
  assert (Ha : archiveRel (dots +:+ root) = root).
  { unfold archiveRel. erewrite strip_dots_member; [|exact Es|done|exact Hin|done|exact Hn|done].
    unfold trim_suffix. by rewrite (proj2 (root_plain _ Hin)). }
  rewrite Ha. split_and!; [done| |by exists dots]. rewrite Hn. destruct Hrel as [->|[x ->]]; [by left|right].
  exists x. by rewrite string_app_assoc.
Qed.

Lemma add_member_spec l name m : NoDup l -> NoDup (add_member l name) /\ (m ∈ add_member l name <-> m ∈ l \/ restore_member name = Some m).
Proof.
  intros Hn. unfold add_member. destruct (restore_member name) as [m'|]; [|split; [done|]; split; [by left|by intros [|]]].
  destruct (mem m' l) eqn:E.
  - apply mem_true, list_elem_of_In in E. split; [done|]. split; [by left|]. intros [|[= ->]]; done.
  - split.
    + apply NoDup_app. split; [done|]. split; [|by apply NoDup_singleton]. intros x Hx ->%list_elem_of_singleton.
      apply list_elem_of_In, mem_true in Hx. congruence.
    + rewrite elem_of_app, list_elem_of_singleton. split; intros [|Hx]; [by left|right; congruence|by left|right; congruence].
Qed.

Lemma restore_members_spec hs : NoDup (containerRestoreMembers hs) /\
  forall m, m ∈ containerRestoreMembers hs <-> exists h, h ∈ hs /\ restore_member (h_Name h) = Some m.
Proof.
  unfold containerRestoreMembers.
  assert (H : forall l, NoDup l -> NoDup (fold_left add_member (map h_Name hs) l) /\
    forall m, m ∈ fold_left add_member (map h_Name hs) l <-> m ∈ l \/ exists h, h ∈ hs /\ restore_member (h_Name h) = Some m).
  { induction hs as [|h r IH]; intros l Hl; cbn [map fold_left].
    - split; [done|]. intros m. split; [by left|]. intros [|(h & Hh%elem_of_nil & _)]; done.
    - destruct (IH (add_member l (h_Name h))) as [H1 H2]; [by apply (add_member_spec l (h_Name h) "")|]. split; [done|].
      intros m. rewrite H2. rewrite (proj2 (add_member_spec l (h_Name h) m Hl)). split.
      + intros [[|]|(k & Hk & Hm)]; [by left|right; exists h; split; [left|done]|right; exists k; split; [by right|done]].
      + intros [|(k & [->|Hk]%elem_of_cons & Hm)]; [by left; left|left; by right|right; eauto]. }
  destruct (H []) as [H1 H2]; [constructor|]. split; [done|]. intros m. rewrite H2. split; [intros [Hm%elem_of_nil|]; done|by right].
Qed.

(** One tar run of a restore: where it extracts, and what. *)
Record tar_job := mkJob { j_place : string; j_members : list string; j_prefix : option string }.
Definition job_args (base : list string) (archive : string) (j : tar_job) : list string :=
  (base ++ match j_prefix j with Some p => ["--transform"; "s,^" +:+ regexpQuoteSed p +:+ "/,,"] | None => [] end
        ++ ["-xf"; archive; "-C"; j_place j; "--"] ++ j_members j)%list.
Definition job_ok (link : string -> option (option string)) (dir : string) (j : tar_job) : Prop :=
  match j_prefix j with
  | None => j_place j = dir /\ Forall (fun m => link (Join [dir; archiveRel m]) = None) (j_members j)
  | Some p => j_members j = [p] /\ link (Join [dir; archiveRel p]) = Some (Some (j_place j))
  end.

Definition plain_member (m : string) : Prop := exists dots, m = dots +:+ archiveRel m.

Lemma host_members_spec link dir archive base stdin ms direct cs : Forall plain_member ms ->
  host_members link dir archive base stdin ms = Ok (direct, cs) ->
  exists jobs, cs = map (fun j => mkCommand (job_args base archive j) stdin) jobs /\ Forall (job_ok link dir) jobs /\
    Forall (fun m => link (Join [dir; archiveRel m]) = None) direct /\ (direct ++ concat (map j_members jobs))%list ≡ₚ ms.
Proof.
  revert direct cs. induction ms as [|m r IH]; intros direct cs Hf; cbn [host_members]; [intros [= <- <-]; by exists []|].
  inversion Hf as [|? ? [dots Hm] Hr]; subst.
  destruct (link (Join [dir; archiveRel m])) as [[target|]|] eqn:El; [|done|];
    (destruct (host_members link dir archive base stdin r) as [[d c]|] eqn:Eg; [|done]); intros [= <- <-];
    destruct (IH _ _ Hr eq_refl) as (jobs & -> & Hj & Hd & Hp).
  - exists (mkJob target [m] (Some m) :: jobs). split_and!; [|by constructor; [split|]|done|].
    + cbn [map]. f_equal. unfold job_args. cbn [j_prefix j_place j_members].
      assert (Hpre : trim_suffix m (archiveRel m) +:+ archiveRel m = m) 
        by (pose proof (trim_suffix_app (archiveRel m) dots) as Ht; rewrite <- Hm in Ht; rewrite Ht; by symmetry).
      rewrite Hpre. done.
    + cbn [map concat j_members app]. rewrite <- Hp. by rewrite <- Permutation_middle.
  - exists jobs. split_and!; [done|done|by constructor|]. cbn [app]. by constructor.
Qed.

Lemma host_commands_spec link dir format archive members excludes cmds : Forall plain_member members ->
  hostRestoreCommands link dir format archive members excludes = Ok cmds ->
  exists base stdin jobs,
    cmds = map (fun j => mkCommand (job_args base archive j) stdin) jobs /\ Forall (job_ok link dir) jobs /\
    concat (map j_members jobs) ≡ₚ members /\ exists options, base = ("tar" :: options)%list /\ ~ In "--" options.
Proof.
  intros Hmem. unfold hostRestoreCommands. set (base0 := (["tar"; "--no-same-owner"; "--keep-directory-symlink"] ++ tarFlags format)%list).
  set (bs := match excludes with [] => (base0, "") | _ => _ end). destruct bs as [base stdin] eqn:Ebs.
  assert (Hbase : exists options, base = ("tar" :: options)%list /\ ~ In "--" options).
  { subst bs base0. destruct excludes; injection Ebs as <- _; eexists; (split; [reflexivity|]); destruct format; cbn; intuition discriminate. }
  clearbody bs base0. clear Ebs.
  destruct (host_members link dir archive base stdin members) as [[direct cs]|] eqn:Eg; [|done]. intros [= <-].
  destruct (host_members_spec _ _ _ _ _ _ _ _ Hmem Eg) as (jobs & -> & Hj & Hd & Hp).
  exists base, stdin, (match direct with [] => jobs | _ => mkJob dir direct None :: jobs end).
  destruct direct as [|m r]; [done|]. split_and!; [done|by constructor|done|done].
Qed.

(** what a restore extracts on a host.  The tar runs name, together and each exactly once, the
    parts of the archive that hold server data (serverfiles, log, the LinuxGSM configs, data
    and mods) and nothing else: no dotfile, no script.  Every entry of these parts lies under
    a name given to tar, no name can be read as an option, and a run goes to the server
    directory, or, for a part that is a link there, to where the link leads. *)
Theorem restore_extracts_server_data link dir format archive hs excludes cmds :
  hostRestoreCommands link dir format archive (containerRestoreMembers hs) excludes = Ok cmds ->
  (exists base stdin jobs, cmds = map (fun j => mkCommand (job_args base archive j) stdin) jobs /\ Forall (job_ok link dir) jobs /\
     concat (map j_members jobs) ≡ₚ containerRestoreMembers hs /\ exists options, base = ("tar" :: options)%list /\ ~ In "--" options) /\
  NoDup (containerRestoreMembers hs) /\
  (forall m, m ∈ containerRestoreMembers hs -> archiveRel m ∈ containerRestoreRoots) /\
  (forall h rel q, h ∈ hs -> strip_dots (String.length (h_Name h)) (h_Name h) "" = (rel, q) ->
     (restore_root rel <> None <-> exists m, m ∈ containerRestoreMembers hs /\ restore_member (h_Name h) = Some m /\
                                    (h_Name h = m \/ exists x, h_Name h = m +:+ "/" +:+ x))).
Proof.
  intros E. destruct (restore_members_spec hs) as [Hn Hin].
  assert (Hm : forall m, m ∈ containerRestoreMembers hs -> exists h, h ∈ hs /\ restore_member (h_Name h) = Some m) by (intros m; apply Hin).
  apply host_commands_spec in E as (base & stdin & jobs & H1 & H2 & H3 & H5).
  2:{ apply Forall_forall. intros m Hmem. apply Hm in Hmem as (h & _ & Hr). by apply restore_member_spec in Hr as (_ & _ & ?). }
  split_and!; [by exists base, stdin, jobs|done| |].
  - intros m Hmem. apply Hm in Hmem as (h & _ & Hr). by apply restore_member_spec in Hr as (? & _).
  - intros h rel q Hh Hs. unfold restore_member. rewrite Hs. split.
    + destruct (restore_root rel) as [root|] eqn:Er; [|done]. intros _. exists (q +:+ root).
      assert (Hr : restore_member (h_Name h) = Some (q +:+ root)) by (unfold restore_member; by rewrite Hs, Er).
      split_and!; [apply Hin; eauto|done|]. by apply restore_member_spec in Hr as (_ & ? & _).
    + intros (m & _ & Hr & _). by destruct (restore_root rel).
Qed.

(** A server whose serverfiles are on another disk. *)
Definition demo_link (p : string) : option (option string) := if String.eqb p "/srv/data/serverfiles" then Some (Some "/mnt/big") else None.
Lemma restore_extracts_server_data_witness :
  containerRestoreMembers demo_archive = ["./serverfiles"; "./log"; "./lgsm/config-lgsm"] /\
  exists cmds, hostRestoreCommands demo_link "/srv/data" ArchiveTarGz "/b.tar.gz" (containerRestoreMembers demo_archive) ["./log/server"] = Ok cmds /\
    length cmds = 2%nat /\ NoDup (containerRestoreMembers demo_archive).
Proof.
  split; [vm_compute; reflexivity|]. eexists. split; [vm_compute; reflexivity|]. split; [reflexivity|].
  refine (proj1 (proj2 (restore_extracts_server_data demo_link "/srv/data" ArchiveTarGz "/b.tar.gz" demo_archive ["./log/server"] _ _))).
  vm_compute. reflexivity.
Defined.

(** The expression of a transform matches the member itself: reading the quoted text as a sed
    pattern gives the text back. *)
Fixpoint sed_literal (l : bytes) : option bytes :=
  match l with
  | [] => Some []
  | c :: r =>
      if Ascii.eqb c "\" then match r with d :: r => option_map (cons d) (sed_literal r) | [] => None end
      else if sed_special c then None else option_map (cons c) (sed_literal r)
  end.
Lemma sed_quote_literal s : sed_literal (to_bytes (regexpQuoteSed s)) = Some (to_bytes s).
Proof.
  unfold regexpQuoteSed. rewrite to_of_bytes. induction (to_bytes s) as [|c r IH]; [done|]. cbn [flat_map].
  destruct (sed_special c) eqn:E; cbn [app sed_literal].
  - by rewrite IH.
  - assert (Hb : Ascii.eqb c "\" = false) by (apply Ascii.eqb_neq; intros ->; done). by rewrite Hb, E, IH.
Qed.

(** ** The course of a restore *)

Inductive restore_event :=
| SetStatus (s : string) | StopServer (id : string) | StartServer (id : string) | RunTar (c : hostRestoreCommand) | CheckZstd
| ScanInstances | ExitCode (n : Z) | ReleaseLock.
Inductive restore_answer := Refused (status : Z) | Streamed.

(** What a restore meets: the archive as it is read, links on disk, the running instances of
    the directory, and whether each tar run succeeds. *)
Record restore_env := mkRestoreEnv {
  re_layout : string; re_dir : string; re_id : string; re_status : string;
  re_path : option string; re_locked : bool; re_stream : bool; re_opens : bool;
  re_items : option (list tar_item); re_free : Z; re_link : string -> option (option string); re_zstd : bool;
  re_others : list string; re_tar_ok : nat -> bool; re_script : string }.

Definition restore_plan (e : restore_env) (format : ArchiveFormat) (archive : string) : result unsafe_archive (list hostRestoreCommand) :=
  let? hs := validateArchive (re_items e) (re_dir e) DefaultArchiveLimits (re_free e) in
  let members := containerRestoreMembers hs in
  match members with
  | [] => Err NoServerData
  | _ =>
      if String.eqb (re_layout e) LayoutData then Ok [mkCommand (restoreCommand (re_script e) format archive members) ""]
      else
        let enabled := match re_link e (Join [re_dir e; "log"; "server"]) with Some _ => true | None => false end in
        hostRestoreCommands (re_link e) (re_dir e) format archive members (hostLogSkips enabled hs)
  end.

(** The tar runs up to the first that fails. *)
Fixpoint run_tars (ok : nat -> bool) (n : nat) (cmds : list hostRestoreCommand) : list restore_event * bool :=
  match cmds with
  | [] => ([], true)
  | c :: r => if ok n then let '(ev, b) := run_tars ok (S n) r in (RunTar c :: ev, b) else ([RunTar c], false)
  end.

Definition restore_events (e : restore_env) (format : ArchiveFormat) (archive : string) : list restore_event :=
  let was_running := String.eqb (re_status e) "running" in
  let finish := [ScanInstances; ReleaseLock] in
  (SetStatus "updating" ::
  (if negb (re_opens e) then [SetStatus (re_status e); ExitCode 1] ++ finish else
   match restore_plan e format archive with
   | Err _ => [SetStatus (re_status e); ExitCode 1] ++ finish
   | Ok cmds =>
       let zstd := match format with ArchiveTarZst => true | _ => false end in
       (if zstd then [CheckZstd] else []) ++
       (if zstd && negb (re_zstd e) then [SetStatus (re_status e); ExitCode 1] ++ finish else
        let '(tars, ok) := run_tars (re_tar_ok e) 0 cmds in
        (if was_running then [StopServer (re_id e)] else []) ++ map StopServer (re_others e) ++ tars ++
        (if ok then (if was_running then [StartServer (re_id e); SetStatus "running"] else [SetStatus "stopped"]) ++ [ExitCode 0]
         else [SetStatus "stopped"; ExitCode 1]) ++
        map StartServer (rev (re_others e)) ++ finish)
   end))%list.

Definition RestoreBackup (e : restore_env) (fileName : string) : restore_answer * list restore_event :=
  match BackupArchiveFormat fileName with
  | None => (Refused 400, [])
  | Some format =>
      match re_path e with
      | None => (Refused 404, [])
      | Some archive =>
          if re_locked e then (Refused 409, [])
          else if negb (re_stream e) then (Refused 500, [ReleaseLock])
          else (Streamed, restore_events e format archive)
      end
  end.

Definition is_tar (ev : restore_event) : bool := match ev with RunTar _ => true | _ => false end.




(** ** Backup files stay in the directories of the server *)

Lemma find_backup_spec lstat filename dirs p : find_backup lstat filename dirs = Ok p -> exists d, d ∈ dirs /\ p = Join [d; filename] /\ lstat p = Some true.
Proof.
  induction dirs as [|d r IH]; cbn [find_backup]; [done|]. destruct (lstat (Join [d; filename])) as [[]|] eqn:E; [|done|].
  - intros [= <-]. exists d. split; [left|done].
  - intros H. destruct (IH H) as (d' & Hd & Hp). exists d'. split; [by right|done].
Qed.

Lemma all_chars_name s (f : ascii -> bool) : f "/"%char = false -> forallb f (to_bytes s) = true -> s <> "" -> contains s ".." = false ->
  s <> "." -> name_ok s.
Proof.
  intros Hf Hs Hne Hd Hone. split_and!; [done|done|intros ->; done|]. apply contains_byte_false. intros Hin. rewrite forallb_forall in Hs.
  specialize (Hs _ Hin). congruence.
Qed.

Lemma valid_backup_name s : IsValidBackupFilename s = true -> name_ok s.
Proof.
  unfold IsValidBackupFilename. intros [Hr Hd]%andb_true_iff. apply negb_true_iff in Hd. unfold reBackupName in Hr.
  apply existsb_exists in Hr as (suf & Hsuf & [Hs Hst]%andb_true_iff). apply has_suffix_spec in Hs as [stem ->].
  rewrite trim_suffix_app in Hst. unfold backup_stem in Hst. destruct (to_bytes stem) as [|c r] eqn:Es; [done|].
  apply andb_true_iff in Hst as [[Hc Hr]%andb_true_iff _].
  apply (all_chars_name _ (fun c => is_alnum c || one_of "._+-" c)); [done| |intros H; apply (f_equal to_bytes) in H; rewrite to_bytes_app, Es in H; done|done|].
  - rewrite to_bytes_app, Es, forallb_app. cbn [forallb]. rewrite Hc, Hr. simpl in Hsuf. by destruct Hsuf as [<-|[<-|[<-|[]]]].
  - intros H. apply (f_equal to_bytes) in H. rewrite to_bytes_app, Es in H. simpl in Hsuf.
    destruct Hsuf as [<-|[<-|[<-|[]]]]; apply (f_equal (@length ascii)) in H; rewrite length_app in H; cbn in H; lia.
Qed.

Section Containment.
Context (adv : nat -> fs -> fs) (fault : nat -> bool) (P : gset positive) (s0 : fs).
Hypothesis adv_attack : forall n s, attack P s (adv n s).
Hypothesis P_exists : present P s0.

Lemma safe_delete lstat dirs filename : Forall (fun d => IsAbs d = true /\ leads P s0 (root_dir s0) (elements d)) dirs ->
  safe P s0 (DeleteBackup adv fault lstat dirs filename) (fun _ => True).
Proof.
  intros Hd. unfold DeleteBackup, getBackupFilePath. destruct (IsValidBackupFilename filename) eqn:Ev; cbn [negb]; [|by apply safe_ret].
  destruct (find_backup lstat filename dirs) as [p|] eqn:Ef; [|by apply safe_ret]. apply find_backup_spec in Ef as (d & Hin & -> & _).
  rewrite Forall_forall in Hd. destruct (Hd _ Hin) as [Ha Hl]. pose proof (valid_backup_name _ Ev) as Hn.
  destruct (elements_join d [filename] Ha) as [He Hj]; [constructor; [done|constructor]|done|].
  rewrite join_one in He, Hj.
  destruct (target_leads fault P s0 d (Join [d; filename]) Hl Hj) as (l & x & H1 & H2 & H3 & H4); [rewrite He; by eexists| |].
  { rewrite He. intros E%(f_equal length). rewrite length_app in E. cbn in E. lia. }
  assert (leads P s0 (root_dir s0) (l ++ [x])) by (destruct H4 as [H4|[H4 _]]; [by apply leads_app|done]).
  eapply safe_bind; [by eapply safe_remove|]. intros ? _. by apply safe_ret.
Qed.

Lemma safe_upload_backup (F1 F2 F3 : FileSystem) `{!FileSystemLaws F3} isDir srv root dirs filename body rnd d q :
  List.find isDir dirs = Some d -> @EvalSymlinks F2 d = Resolved q -> IsAbs q = true ->
  root_leads P s0 F3 q -> below_or_seen fault F3 q filename ->
  safe P s0 (UploadBackup adv fault F1 F2 F3 isDir srv root dirs filename body rnd) (fun _ => True).
Proof.
  intros Hf Hq Ha Hl Hs. unfold UploadBackup. destruct (BackupArchiveFormat filename); [|by apply safe_ret].
  destruct (IsValidBackupFilename filename); cbn [negb]; [|by apply safe_ret]. cbv zeta. rewrite Hf, Hq.
  destruct (@ResolveInRoot F3 q filename) as [t|] eqn:E; [|by apply safe_ret].
  eapply safe_bind; [exact (safe_write_resolved adv fault P s0 adv_attack P_exists F3 _ _ _ _ _ _ _ _ _ Ha Hl Hs E)|]. intros ? _. by apply safe_ret.
Qed.
End Containment.

(** An allowed directory lies in the server directory, or is an existing directory of the user
    of the server that is no system directory. *)
Lemma allowed_backup_dir F `{!FileSystemLaws F} isDir srv uid dir q : IsAbs (i_Dir srv) = true -> isAllowedBackupDir F isDir srv uid dir = Some q ->
  IsAbs q = true /\
  ((exists r, EvalSymlinks (i_Dir srv) = Resolved r /\ elements r `prefix_of` elements q) \/
   (fileOwnerUID q = Some uid /\ 0 < uid /\ IsForbiddenServerDir q = false /\ isDir q = true)).
Proof.
  intros Hs. unfold isAllowedBackupDir. destruct (IsAbs dir) eqn:Ha; [|done]. cbn [negb].
  destruct (resolveExisting (Clean dir)) as [p|] eqn:Er; [|done].
  assert (Hp : IsAbs p = true).
  { eapply resolve_existing_abs; [| |exact Er]; [by apply clean_is_abs|]. rewrite (clean_abs (Clean dir)) by (by apply clean_is_abs).
    by rewrite elements_clean, clean_abs. }
  destruct (EvalSymlinks (i_Dir srv)) as [r| |] eqn:Ee.
  1: destruct (IsWithin r p) eqn:Ew; [intros [= <-]; split; [done|left; exists r; split; [done|]]; destruct (eval_abs _ _ Hs Ee) as [Hr _]; by apply is_within_iff|].
  all: destruct (IsForbiddenServerDir p) eqn:Ef; [done|]; destruct (isDir p) eqn:Ed; [|done]; cbn [negb];
    (destruct (fileOwnerUID p) as [u|] eqn:Eu; [|done]); (destruct ((u >=? 0) && (u =? uid) && (uid >? 0)) eqn:Ec; [|done]);
    intros [= <-]; (split; [done|right]); to_prop; subst u; split_and!; try done; lia.
Qed.

(** deleting and uploading backups.  In directories that lead out of what the dashboard must not
    touch, neither changes anything there, whatever the users of the servers do meanwhile
    (with the conditions of [ServerFiles.server_files_contained] on the root of an upload). *)
Theorem backups_contained adv fault P s0 w :
  (forall n s, attack P s (adv n s)) -> present P s0 -> sealed P s0 -> fsys w = s0 ->
  (forall lstat dirs filename, Forall (fun d => IsAbs d = true /\ leads P s0 (root_dir s0) (elements d)) dirs ->
     intact P s0 (fsys (DeleteBackup adv fault lstat dirs filename w).2)) /\
  (forall F1 F2 F3 isDir srv root dirs filename body rnd d q, FileSystemLaws F3 ->
     List.find isDir dirs = Some d -> @EvalSymlinks F2 d = Resolved q -> IsAbs q = true ->
     root_leads P s0 F3 q -> below_or_seen fault F3 q filename ->
     intact P s0 (fsys (UploadBackup adv fault F1 F2 F3 isDir srv root dirs filename body rnd w).2)).
Proof.
  intros Hadv HP Hs Hw. assert (Hi : intact P s0 (fsys w)) by (rewrite Hw; by apply intact_refl). split.
  - intros lstat dirs filename Hd. exact (proj1 (safe_delete adv fault P s0 Hadv HP lstat dirs filename Hd w Hi)).
  - intros F1 F2 F3 isDir srv root dirs filename body rnd d q L Hf Hq Ha Hl Hb.
    exact (proj1 (safe_upload_backup adv fault P s0 Hadv HP F1 F2 F3 isDir srv root dirs filename body rnd d q Hf Hq Ha Hl Hb w Hi)).
Qed.

Lemma backups_contained_witness :
  let w := (DeleteBackup demo_adv (fun _ => false) (fun _ => Some true) ["/srv/data/lgsm/backup"] "b.tar.gz" (mkWorld 0 demo_fs)) in
  inodes (fsys w.2) !! 3%positive = Some (mkInode (KDir ∅) 0 0 0x1ed).
Proof.
  cbv zeta.
  destruct (backups_contained demo_adv (fun _ => false) demo_P demo_fs (mkWorld 0 demo_fs) demo_attack demo_present demo_sealed eq_refl) as [H _].
  assert (Hd : Forall (fun d => IsAbs d = true /\ leads demo_P demo_fs (root_dir demo_fs) (elements d)) ["/srv/data/lgsm/backup"]).
  { constructor; [|constructor]. split; [reflexivity|]. change (elements "/srv/data/lgsm/backup") with (elements "/srv/data" ++ ["lgsm"; "backup"])%list.
    apply leads_app, demo_leads. }
  rewrite (intact_same _ _ _ (H (fun _ => Some true) ["/srv/data/lgsm/backup"] "b.tar.gz" Hd) 3%positive); [reflexivity|by vm_compute].
Defined.

(** A restore that is asked for while its server updates reads that status, and does not stop
    the server, which runs again by the time the restore has the lock. *)
Example stale_status_not_stopped :
  let e := mkRestoreEnv "" "/srv/data" "vh" "updating" (Some "/srv/data/lgsm/backup/b.tar.gz") false true true
             (Some (map (fun h => Entry h true) demo_archive)) (2 ^ 40) demo_link true [] (fun _ => true) "" in
  let evs := (RestoreBackup e "b.tar.gz").2 in
  existsb is_tar evs = true /\ forallb (fun ev => match ev with StopServer _ => false | _ => true end) evs = true.
Proof. vm_compute. by split. Qed.
