(* ===== verification/Schedule.v ===== *)
(** * Schedules of a server (backend/schedule.go)

    The dashboard edits the crontab of a server line by line: it may change only
    the lines of the commands the user changed in the form.  This file models the
    parser of crontab lines, the rewriting of the crontab, and the operations of
    the scheduler and backup forms; it proves that saving and reading a schedule
    round trip and that lines of others are kept. *)

From Stdlib Require Import ZArith Lia Bool String Ascii List.
From stdpp Require Import base gmap strings list.
From S2P Require Import Prelude GoStrings Validate Paths Cron Cfg.

(** ** Crontab lines *)

(** [path.Join] is [filepath.Join] on Unix, where [ToSlash] changes nothing. *)
Definition scriptPathOf (srv : Instance) : string :=
  if String.eqb (i_Layout srv) LayoutData then dockerScriptDir +:+ "/" +:+ i_Script srv
  else Join [i_Dir srv; i_Script srv].

(** [path.Split]: what follows the last slash, and what comes before with it. *)
Definition path_split (p : string) : string * string :=
  let r := rev (to_bytes p) in
  let '(b, d) := span (fun c => negb (Ascii.eqb c "/")) r in
  (of_bytes (rev d), of_bytes (rev b)).

(** The loop over the fields after the schedule. *)
Fixpoint find_command (dir script scriptPath : string) (inDir : bool) (fs : list string) : option string :=
  match fs with
  | [] => None
  | f :: r =>
      let inDir := inDir || (String.eqb f "cd" &&
        match r with nx :: _ => String.eqb (trim_right nx ";") dir | [] => false end) in
      if String.eqb f scriptPath || (inDir && String.eqb f ("./" +:+ script))
      then match r with [] => None | c :: _ => Some c end
      else find_command dir script scriptPath inDir r
  end.

Definition cronLineCommand (line scriptPath : string) : option (string * string) :=
  let trimmed := trim_space line in
  if String.eqb trimmed "" || has_prefix trimmed "#" then None
  else match fields trimmed with
  | [] => None (* not reached: [trimmed] is not empty *)
  | (f0 :: _) as fs =>
      let n := if has_prefix f0 "@" then 1%nat else 5%nat in
      let '(dir, script) := path_split scriptPath in
      match find_command (trim_suffix dir "/") script scriptPath false (drop n fs) with
      | Some c => Some (join " " (take n fs), c)
      | None => None
      end
  end.

Definition scheduleCommands : list string := ["monitor"; "update"; "force-update"; "restart"; "update-lgsm"]%string.
Definition maintenanceCommands : list string := ["monitor"; "update"; "force-update"; "restart"; "update-lgsm"]%string.

(** [values] is the result of [lgsmCfgValues], [name] that of [gameServerNameOf]
    (which reads the script of the server). *)
Definition availableScheduleCommands (srv : Instance) (values : gmap string string) (name : string) : list string :=
  let short := trim_suffix (if String.eqb (i_Layout srv) LayoutData then gameServerName (i_Script srv) else name) "server" in
  let engine := default "" (values !! "engine"%string) in
  let hasUpdate :=
    (mem short ["jk2"; "jk3"; "etl"]%string || negb (String.eqb engine "idtech3"))
    && negb (mem short ["bf1942"; "bfv"]%string)
    && negb (mem engine ["idtech2"; "iw2.0"; "iw3.0"; "quake"]%string)
    && negb (mem short ["samp"; "ut2k4"]%string) in
  (["monitor"%string] ++
   (if hasUpdate then
      "update"%string ::
      (if negb (String.eqb (default "" (values !! "appid"%string)) "") || mem short ["mta"; "hyt"]%string
       then ["force-update"%string] else [])
    else []) ++ ["restart"; "update-lgsm"]%string)%list.

Definition maintenanceComment (srv : Instance) : string :=
  "# LinuxGSM " +:+ i_Script srv +:+ ": scheduled maintenance".

Definition isLegacyMaintenanceComment (line : string) : bool :=
  has_prefix line "# LinuxGSM " && has_suffix line " Geplante Wartungsaufgaben".

(** [drop]: the commands whose lines go, [None] for all. *)
Definition drops (drop : option (list string)) (cmd : string) : bool :=
  match drop with None => true | Some l => mem cmd l end.

Definition drop_line (drop : option (list string)) (scriptPath trimmed : string) : bool :=
  match cronLineCommand trimmed scriptPath with Some (_, cmd) => drops drop cmd | None => false end.

(** The loop of [rewriteCrontab]; [pending] is [pendingLegacy]. *)
Fixpoint rewrite_lines (drop : option (list string)) (scriptPath comment : string) (lines : list string)
    (pending : string) : list string :=
  let dropComments := drops drop "monitor" in
  let flush := if String.eqb pending "" then [] else [pending] in
  match lines with
  | [] => flush
  | line :: r =>
      let trimmed := trim_space line in
      if String.eqb trimmed "" then rewrite_lines drop scriptPath comment r pending
      else if dropComments && String.eqb trimmed comment then rewrite_lines drop scriptPath comment r pending
      else if dropComments && isLegacyMaintenanceComment trimmed
      then (flush ++ rewrite_lines drop scriptPath comment r line)%list
      else if drop_line drop scriptPath trimmed
      then rewrite_lines drop scriptPath comment r ""
      else (flush ++ line :: rewrite_lines drop scriptPath comment r "")%list
  end.

(** [rewriteCrontab]: what it gives to [WriteCrontab]; [crontab] is what
    [ReadCrontab] returned ([None]: an error, which is returned). *)
Definition rewriteCrontab (crontab : option string) (srv : Instance) (drop : option (list string))
    (extra : list string) : option string :=
  match crontab with
  | None => None
  | Some s =>
      Some (join (byte_str lf)
        (rewrite_lines drop (scriptPathOf srv) (maintenanceComment srv) (split lf s) "" ++ extra)%list)
  end.

Definition removeCronLinesForScript (crontab : option string) (srv : Instance) (drop : option (list string))
    : option string :=
  rewriteCrontab crontab srv drop [].

(** [WriteCrontab] of both runtimes: the text that is stored, "" for none. *)
Definition WriteCrontab (content : string) : string :=
  let trimmed := trim_space content in
  if String.eqb trimmed "" then "" else trimmed +:+ byte_str lf.

(** ** The scheduler form *)

Definition add_job_line (scriptPath : string) (out : gmap string (list string)) (line : string)
    : gmap string (list string) :=
  match cronLineCommand line scriptPath with
  | Some (_, cmd) =>
      if mem cmd maintenanceCommands
      then <[cmd := (default [] (out !! cmd) ++ [trim_space line])%list]> out else out
  | None => out
  end.
Definition cronJobLines (crontab scriptPath : string) : gmap string (list string) :=
  fold_left (add_job_line scriptPath) (split lf crontab) ∅.

(** The jobs of [GetCronSchedule]; an error of [ReadCrontab] reads as "". *)
Definition GetCronSchedule (srv : Instance) (crontab : option string) : gmap string string :=
  omap (fun lines => match lines with
    | l :: _ => option_map fst (cronLineCommand l (scriptPathOf srv))
    | [] => None
    end) (cronJobLines (default "" crontab) (scriptPathOf srv)).

Inductive schedule_error :=
| ServerNotFound | UnknownCommand (cmd : string) | BadExpr (e : cron_invalid)
| NotForGame (cmd : string) | CrontabUnreadable
| BadMaxBackups | BadMaxBackupDays | BadStopOnBackup | ConfigNotWritten.

Definition job_error (p : string * string) : option schedule_error :=
  let '(cmd, expr) := p in
  if negb (mem cmd maintenanceCommands) then Some (UnknownCommand cmd)
  else if String.eqb expr "" then None
  else option_map BadExpr (ValidateCronExpr expr).

(** The error of some bad job (Go ranges over a map in any order). *)
Definition ValidateCronSchedule (jobs : gmap string string) : option schedule_error :=
  head (omap job_error (map_to_list jobs)).

Definition job_line (expr scriptPath cmd : string) : string :=
  trim_space expr +:+ " " +:+ scriptPath +:+ " " +:+ cmd +:+ " > /dev/null 2>&1".

Fixpoint job_lines (cmds : list string) (jobs : gmap string string) (available : list string)
    (current : gmap string (list string)) (scriptPath : string) : result schedule_error (list string) :=
  match cmds with
  | [] => Ok []
  | cmd :: r =>
      match jobs !! cmd with
      | None =>
          let? rest := job_lines r jobs available current scriptPath in
          Ok (default [] (current !! cmd) ++ rest)%list
      | Some expr =>
          if String.eqb expr "" then job_lines r jobs available current scriptPath
          else if negb (mem cmd available) then Err (NotForGame cmd)
          else
            let? rest := job_lines r jobs available current scriptPath in
            Ok (job_line expr scriptPath cmd :: rest)
      end
  end.

(** [SaveCronSchedule]: the text given to [WriteCrontab].  The crontab is read
    twice, here ([read1]) and by [rewriteCrontab] ([read2]). *)
Definition SaveCronSchedule (srv : option Instance) (available : list string) (read1 read2 : option string)
    (jobs : gmap string string) : result schedule_error string :=
  match srv with
  | None => Err ServerNotFound
  | Some srv =>
      match ValidateCronSchedule jobs with
      | Some e => Err e
      | None =>
          match read1 with
          | None => Err CrontabUnreadable
          | Some crontab =>
              let scriptPath := scriptPathOf srv in
              let? lines := job_lines scheduleCommands jobs available (cronJobLines crontab scriptPath) scriptPath in
              let lines := match lines with [] => [] | _ => maintenanceComment srv :: lines end in
              match rewriteCrontab read2 srv (Some maintenanceCommands) lines with
              | Some content => Ok content
              | None => Err CrontabUnreadable
              end
          end
      end
  end.

Definition InstallCronjobs (srv : option Instance) (available : list string) (read1 read2 : option string)
    : result schedule_error string :=
  let jobs : gmap string string := <["monitor"%string := "*/5 * * * *"%string]> (<["update-lgsm"%string := "0 0 * * 0"%string]> ∅) in
  let jobs := if mem "update" available then <["update"%string := "*/30 * * * *"%string]> jobs else jobs in
  SaveCronSchedule srv available read1 read2 jobs.

(** ** The backup form *)

Record BackupSettings := mkBackupSettings {
  MaxBackups : string; MaxBackupDays : string; StopOnBackup : string;
  AutoBackupEnabled : bool; AutoBackupCron : string }.

Definition ValidateBackupSettings (s : BackupSettings) : option schedule_error :=
  if negb (String.eqb (MaxBackups s) "") && negb (isIntInRange (MaxBackups s) 1 999) then Some BadMaxBackups
  else if negb (String.eqb (MaxBackupDays s) "") && negb (isIntInRange (MaxBackupDays s) 0 999) then Some BadMaxBackupDays
  else if negb (mem (StopOnBackup s) [""; "on"; "off"]%string) then Some BadStopOnBackup
  else if AutoBackupEnabled s then option_map BadExpr (ValidateCronExpr (AutoBackupCron s))
  else None.

(** The schedule of the first line that runs a backup. *)
Definition backup_expr (scriptPath line : string) : option string :=
  match cronLineCommand line scriptPath with
  | Some (expr, cmd) => if String.eqb cmd "backup" then Some expr else None
  | None => None
  end.

(** [values] is the result of [lgsmCfgValues]. *)
Definition GetBackupSettings (srv : Instance) (values : gmap string string) (crontab : option string) : BackupSettings :=
  let cron := match crontab with
    | Some s => head (omap (backup_expr (scriptPathOf srv)) (split lf s))
    | None => None
    end in
  let value k := default "" (values !! k) in
  mkBackupSettings (value "maxbackups"%string) (value "maxbackupdays"%string) (value "stoponbackup"%string)
    (bool_decide (is_Some cron)) (default "" cron).

(** The new text of a config file ([saveInstanceCfgValues] gives it for the
    instance config; for the secrets file the last argument is [false]). *)
Definition backup_cfg (content : string) (s : BackupSettings) (appendMissing : bool) : string :=
  updateCfgLines content
    (<["maxbackups"%string := MaxBackups s]> (<["maxbackupdays"%string := MaxBackupDays s]>
      (<["stoponbackup"%string := StopOnBackup s]> ∅)))
    ["maxbackups"; "maxbackupdays"; "stoponbackup"]%string false appendMissing.

(** [SaveBackupSettings]: the new instance config, and the text given to
    [WriteCrontab] ([None]: the crontab is not touched).  [cfg] is the text of the
    instance config ([None]: it cannot be read or written). *)
Definition SaveBackupSettings (srv : option Instance) (s : BackupSettings) (allowSchedule : bool)
    (cfg crontab : option string) : result schedule_error (string * option string) :=
  match srv with
  | None => Err ServerNotFound
  | Some srv =>
      let s := if allowSchedule then s
               else mkBackupSettings (MaxBackups s) (MaxBackupDays s) (StopOnBackup s) false "" in
      match ValidateBackupSettings s with
      | Some e => Err e
      | None =>
          match cfg with
          | None => Err ConfigNotWritten
          | Some content =>
              let new := backup_cfg content s true in
              if negb allowSchedule then Ok (new, None)
              else
                let extra := if AutoBackupEnabled s && negb (String.eqb (AutoBackupCron s) "")
                  then [join " " (fields (AutoBackupCron s)) +:+ " " +:+ scriptPathOf srv +:+ " backup > /dev/null 2>&1"]
                  else [] in
                match rewriteCrontab crontab srv (Some ["backup"%string]) extra with
                | Some c => Ok (new, Some c)
                | None => Err CrontabUnreadable
                end
          end
      end
  end.

Definition demo_srv : Instance := mkInstance "vhserver" "" "vhserver" "/home/a" LayoutHost.
Definition demo_crontab : string :=
  join (byte_str lf) ["MAILTO=me"; "# LinuxGSM vhserver: scheduled maintenance";
    "*/5 * * * * /home/a/vhserver monitor > /dev/null 2>&1"; "@daily cd /home/a && ./vhserver update";
    "0 4 * * * /home/a/vhserver backup"; "0 5 * * * /home/b/rustserver monitor"]%string.

Example demo_get : map_to_list (GetCronSchedule demo_srv (Some demo_crontab)) =
  [("monitor", "*/5 * * * *"); ("update", "@daily")]%string.
Proof. vm_compute. reflexivity. Qed.
Example demo_save : SaveCronSchedule (Some demo_srv) scheduleCommands (Some demo_crontab) (Some demo_crontab)
    (<["monitor"%string := ""%string]> (<["restart"%string := " @hourly"%string]> ∅)) =
  Ok (join (byte_str lf) ["MAILTO=me"; "0 4 * * * /home/a/vhserver backup"; "0 5 * * * /home/b/rustserver monitor";
    "# LinuxGSM vhserver: scheduled maintenance"; "@daily cd /home/a && ./vhserver update";
    "@hourly /home/a/vhserver restart > /dev/null 2>&1"]%string).
Proof. vm_compute. reflexivity. Qed.

(** ** Lemmas: schedules in a crontab line *)

(** A script path as discovery finds it: an absolute path without white space. *)
Definition script_path_ok (p : string) : Prop := has_prefix p "/" = true /\ sall plain p = true.

Definition cron_macros : list string :=
  ["@hourly"; "@daily"; "@midnight"; "@weekly"; "@monthly"; "@yearly"; "@annually"]%string.

Definition cron_char : ascii -> bool := one_of "0123456789*/,-".

Lemma cron_char_plain c : cron_char c = true -> plain c = true /\ c <> "#"%char /\ c <> "@"%char.
Proof.
  unfold cron_char, one_of. intros (x & Hx & <-%Ascii.eqb_eq)%existsb_exists.
  repeat (destruct Hx as [<-|Hx]; [by vm_compute|]). destruct Hx.
Qed.

(** What the validator guarantees of the fields of a schedule. *)
Lemma valid_cron_fields e : IsValidCronExpr e = true ->
  exists f0 r, fields e = f0 :: r /\ length r = (if has_prefix f0 "@" then 0 else 4)%nat /\
    Forall (fun f => f <> "" /\ sall plain f = true /\ has_prefix f "/app/" = false) (f0 :: r) /\
    has_prefix f0 "#" = false.
Proof.
  unfold IsValidCronExpr. fold cron_macros. rewrite <- (fields_trim_space e).
  destruct (mem (trim_space e) cron_macros) eqn:Em.
  - intros _. apply mem_true in Em. unfold cron_macros in Em.
    repeat (destruct Em as [<-|Em]; [do 2 eexists; split_and!; [reflexivity|reflexivity| |reflexivity];
      repeat constructor; done|]). destruct Em.
  - destruct (contains_any _ _); [done|]. rewrite fields_trim_space.
    intros [Hl Hf]%andb_true_iff. apply Z.eqb_eq in Hl.
    destruct (fields e) as [|f0 r] eqn:E; [simpl in Hl; lia|]. exists f0, r.
    assert (Hall : Forall (fun f => f <> "" /\ sall cron_char f = true) (f0 :: r)).
    { apply Forall_forall. intros f Hin%list_elem_of_In. rewrite forallb_forall in Hf. specialize (Hf f Hin).
      unfold reCronField in Hf. to_prop. split; [|done]. intros ->. done. }
    assert (Hfirst : forall f c, f <> "" -> sall cron_char f = true -> cron_char c = false -> has_prefix f (byte_str c) = false).
    { intros f c Hne Hs Hc. destruct (has_prefix f (byte_str c)) eqn:Hp; [|done].
      apply has_prefix_spec in Hp as [t ->]. unfold sall in Hs. rewrite to_bytes_app in Hs. unfold byte_str in Hs.
      rewrite to_of_bytes in Hs. cbn [app forallb] in Hs. by rewrite Hc in Hs. }
    pose proof (Forall_inv Hall) as [Hne0 Hs0]. split_and!; [done| | |exact (Hfirst f0 "#"%char Hne0 Hs0 eq_refl)].
    + change "@" with (byte_str "@") in *. rewrite (Hfirst f0 "@"%char Hne0 Hs0 eq_refl).
      simpl in Hl. lia.
    + eapply Forall_impl; [exact Hall|]. intros f [Hne Hs]. split_and!; [done| |].
      * apply (sall_impl cron_char); [|done]. intros c Hc. by apply cron_char_plain.
      * destruct (has_prefix f "/app/") eqn:Hp; [|done]. apply has_prefix_spec in Hp as [t ->].
        unfold sall in Hs. rewrite to_bytes_app, forallb_app in Hs. by apply andb_true_iff in Hs as [Hs _].
Qed.

Lemma trim_fields_nonempty s : fields s <> [] -> trim_space s <> "".
Proof. intros H E. apply H. rewrite <- fields_trim_space, E. done. Qed.

Lemma trim_no_hash s f0 r : fields s = f0 :: r -> has_prefix f0 "#" = false -> has_prefix (trim_space s) "#" = false.
Proof.
  intros Hf Hn. destruct (has_prefix (trim_space s) "#") eqn:E; [|done].
  apply has_prefix_spec in E as [t E].
  destruct (fields_first "#" (trim_space s) t) as (w & r' & Hw); [done|exact E|].
  rewrite fields_trim_space, Hf in Hw. injection Hw as -> ->. by rewrite has_prefix_app in Hn.
Qed.

Lemma fields_word_app s t : s <> "" -> sall plain s = true -> fields (s +:+ " " +:+ t) = s :: fields t.
Proof. intros. by rewrite fields_space, fields_word. Qed.

Lemma script_path_not_empty p : script_path_ok p -> p <> "".
Proof. intros [H _] ->. done. Qed.

Definition job_text (schedule sp cmd : string) : string :=
  schedule +:+ " " +:+ sp +:+ " " +:+ cmd +:+ " > /dev/null 2>&1".

Lemma job_text_fields t sp cmd : script_path_ok sp -> cmd <> "" -> sall plain cmd = true ->
  fields (job_text t sp cmd) = (fields t ++ [sp; cmd; ">"; "/dev/null"; "2>&1"]%string)%list.
Proof.
  intros Hsp Hc1 Hc2. unfold job_text. rewrite fields_space.
  rewrite fields_word_app; [|by apply script_path_not_empty|by apply Hsp].
  change (" > /dev/null 2>&1")%string with (" " +:+ "> /dev/null 2>&1")%string.
  by rewrite fields_word_app.
Qed.

(** A written line is read as the schedule and the command it was written for. *)
Lemma job_text_parses t e sp cmd : IsValidCronExpr e = true -> fields t = fields e ->
  script_path_ok sp -> cmd <> "" -> sall plain cmd = true ->
  cronLineCommand (job_text t sp cmd) sp = Some (join " " (fields e), cmd).
Proof.
  intros He Ht Hsp Hc1 Hc2. destruct (valid_cron_fields e He) as (f0 & r & Hf & Hl & _ & Hh).
  pose proof (job_text_fields t sp cmd Hsp Hc1 Hc2) as Hfs. rewrite Ht, Hf in Hfs. cbn [app] in Hfs.
  unfold cronLineCommand.
  destruct (String.eqb_spec (trim_space (job_text t sp cmd)) "") as [E|_].
  { exfalso. apply (trim_fields_nonempty (job_text t sp cmd)); [rewrite Hfs; done|done]. }
  rewrite (trim_no_hash _ _ _ Hfs Hh). cbn [orb]. rewrite fields_trim_space, Hfs.
  destruct (path_split sp) as [dir script].
  assert (Hd : forall l : list string, drop (length (f0 :: r)) (f0 :: r ++ l)%list = l /\
               take (length (f0 :: r)) (f0 :: r ++ l)%list = f0 :: r).
  { intros l. change (f0 :: r ++ l)%list with ((f0 :: r) ++ l)%list. by rewrite drop_app_length, take_app_length. }
  replace (if has_prefix f0 "@" then 1%nat else 5%nat) with (length (f0 :: r))
    by (simpl; rewrite Hl; by destruct (has_prefix f0 "@")).
  rewrite (proj1 (Hd _)), (proj2 (Hd _)). cbn [find_command]. rewrite String.eqb_refl. by rewrite Hf.
Qed.

Lemma job_line_parses e sp cmd : IsValidCronExpr e = true -> script_path_ok sp -> cmd <> "" -> sall plain cmd = true ->
  cronLineCommand (job_line e sp cmd) sp = Some (join " " (fields e), cmd).
Proof. intros. apply (job_text_parses (trim_space e)); try done. apply fields_trim_space. Qed.

Lemma cronLineCommand_trim line sp : cronLineCommand (trim_space line) sp = cronLineCommand line sp.
Proof. unfold cronLineCommand. by rewrite trim_space_idem. Qed.

Lemma comment_no_command line sp : has_prefix (trim_space line) "#" = true -> cronLineCommand line sp = None.
Proof. intros H. unfold cronLineCommand. rewrite H. by rewrite orb_true_r. Qed.

Lemma blank_no_command line sp : trim_space line = "" -> cronLineCommand line sp = None.
Proof. intros H. unfold cronLineCommand. by rewrite H. Qed.

(** ** Lemmas: rewriting *)

(** The schedule of a line that runs [cmd]. *)
Definition job_expr (sp cmd line : string) : option string :=
  match cronLineCommand line sp with
  | Some (e, c) => if String.eqb c cmd then Some e else None
  | None => None
  end.
(** The schedules of all lines that run [cmd]. *)
Definition exprs (sp cmd : string) (lines : list string) : list string := omap (job_expr sp cmd) lines.

Lemma exprs_app sp cmd a b : exprs sp cmd (a ++ b) = (exprs sp cmd a ++ exprs sp cmd b)%list.
Proof. apply omap_app. Qed.

Lemma exprs_cons sp cmd x l : exprs sp cmd (x :: l) =
  (match job_expr sp cmd x with Some e => [e] | None => [] end ++ exprs sp cmd l)%list.
Proof. unfold exprs. simpl. by destruct (job_expr sp cmd x). Qed.

(** The lines a rewrite may not touch. *)
Definition keeps (drop : option (list string)) (sp comment line : string) : bool :=
  let trimmed := trim_space line in
  negb (String.eqb trimmed "")
  && negb (drops drop "monitor" && (String.eqb trimmed comment || isLegacyMaintenanceComment trimmed))
  && negb (drop_line drop sp trimmed).

Lemma filter_keeps_cons (P : string -> bool) x l :
  filter (fun y => P y = true) (x :: l) = ((if P x then [x] else []) ++ filter (fun y => P y = true) l)%list.
Proof. rewrite filter_cons. by destruct (P x), (decide _). Qed.

Lemma rewrite_keeps drop sp comment lines : forall pending,
  (pending = "" \/ keeps drop sp comment pending = false) ->
  filter (fun l => keeps drop sp comment l = true) (rewrite_lines drop sp comment lines pending) =
  filter (fun l => keeps drop sp comment l = true) lines.
Proof.
  set (k := keeps drop sp comment).
  assert (Hflush : forall p l, (p = "" \/ k p = false) ->
    filter (fun y => k y = true) ((if String.eqb p "" then [] else [p]) ++ l)%list = filter (fun y => k y = true) l).
  { intros p l Hp. destruct (String.eqb_spec p ""); [done|]. cbn [app]. rewrite filter_keeps_cons.
    destruct Hp as [|Hp]; [done|]. by rewrite Hp. }
  induction lines as [|x r IH]; intros p Hp; cbn [rewrite_lines].
  - rewrite <- (app_nil_r (if String.eqb p "" then [] else [p])). by apply Hflush.
  - assert (Hk : k x = negb (String.eqb (trim_space x) "")
      && negb (drops drop "monitor" && (String.eqb (trim_space x) comment || isLegacyMaintenanceComment (trim_space x)))
      && negb (drop_line drop sp (trim_space x))) by done.
    rewrite (filter_keeps_cons k x r). destruct (String.eqb (trim_space x) ""); [cbn in Hk; rewrite Hk; by apply IH|].
    destruct (drops drop "monitor" && String.eqb (trim_space x) comment) eqn:E1.
    { apply andb_true_iff in E1 as [E1 E2]. rewrite E1, E2 in Hk. cbn in Hk. rewrite Hk. by apply IH. }
    destruct (drops drop "monitor" && isLegacyMaintenanceComment (trim_space x)) eqn:E2.
    { apply andb_true_iff in E2 as [E2 E3]. rewrite E2, E3, orb_true_r in Hk. cbn in Hk. rewrite Hk, Hflush by done.
      apply IH. by right. }
    rewrite andb_orb_distrib_r, E1, E2 in Hk.
    destruct (drop_line drop sp (trim_space x)); cbn in Hk; rewrite Hk.
    { apply IH. by left. }
    rewrite Hflush by done. rewrite (filter_keeps_cons k), Hk, IH by (by left). done.
Qed.

(** Every line of the result is an old line that is not dropped. *)
Lemma rewrite_old drop sp comment lines : forall pending,
  drop_line drop sp (trim_space pending) = false ->
  Forall (fun l => ((l = pending /\ pending <> "") \/ In l lines) /\ drop_line drop sp (trim_space l) = false)
    (rewrite_lines drop sp comment lines pending).
Proof.
  induction lines as [|x r IH]; intros p Hp; cbn [rewrite_lines].
  - destruct (String.eqb_spec p ""); constructor; auto.
  - set (Q := fun l => ((l = p /\ p <> "") \/ In l (x :: r)) /\ drop_line drop sp (trim_space l) = false).
    assert (Hf : Forall Q (if String.eqb p "" then [] else [p]))
      by (unfold Q; destruct (String.eqb_spec p ""); repeat constructor; auto).
    assert (Hr : forall p', (p' = p \/ p' = x \/ p' = "") -> drop_line drop sp (trim_space p') = false ->
      Forall Q (rewrite_lines drop sp comment r p')).
    { intros p' Hpp Hd. eapply Forall_impl; [exact (IH p' Hd)|]. intros l [Hl Hdl]. split; [|done].
      destruct Hl as [[-> Hne]|Hl]; [|right; by right].
      destruct Hpp as [->|[->| ->]]; [by left|right; by left|done]. }
    destruct (String.eqb (trim_space x) ""); [by apply Hr; [left|]|].
    destruct (drops drop "monitor" && String.eqb (trim_space x) comment); [by apply Hr; [left|]|].
    destruct (drops drop "monitor" && isLegacyMaintenanceComment (trim_space x)) eqn:E.
    { apply Forall_app. split; [done|]. apply Hr; [auto|]. unfold drop_line. rewrite cronLineCommand_trim.
      rewrite comment_no_command; [done|]. apply andb_true_iff in E as [_ E]. unfold isLegacyMaintenanceComment in E.
      apply andb_true_iff in E as [E _]. apply has_prefix_spec in E as [t ->].
      change ("# LinuxGSM " +:+ t) with ("#" +:+ (" LinuxGSM " +:+ t)). by apply has_prefix_app. }
    destruct (drop_line drop sp (trim_space x)) eqn:Ed; [apply Hr; auto|].
    apply Forall_app. split; [done|]. constructor; [split; [right; by left|done]|]. apply Hr; auto.
Qed.

(** The schedules of commands that are not dropped stay as they are. *)
Lemma rewrite_exprs drop sp comment lines cmd :
  has_prefix comment "#" = true ->
  exprs sp cmd (rewrite_lines drop sp comment lines "") =
  if drops drop cmd then [] else exprs sp cmd lines.
Proof.
  intros Hc. destruct (drops drop cmd) eqn:Ed.
  - assert (H : forall l, Forall (fun x => drop_line drop sp (trim_space x) = false) l -> exprs sp cmd l = []).
    { induction 1 as [|x l Hx _ IH]; [done|]. rewrite exprs_cons, IH, app_nil_r. unfold job_expr.
      unfold drop_line in Hx. rewrite cronLineCommand_trim in Hx.
      destruct (cronLineCommand x sp) as [[e c]|]; [|done]. destruct (String.eqb_spec c cmd); [congruence|done]. }
    apply H. eapply Forall_impl; [apply rewrite_old; done|]. by intros l [_ Hl].
  - assert (H : forall l, exprs sp cmd (filter (fun y => keeps drop sp comment y = true) l) = exprs sp cmd l).
    { induction l as [|x l IH]; [done|]. rewrite filter_keeps_cons, exprs_app, exprs_cons, IH. f_equal.
      destruct (keeps drop sp comment x) eqn:Ek; [by rewrite exprs_cons, app_nil_r|].
      unfold job_expr, keeps in *. destruct (String.eqb_spec (trim_space x) "") as [Hb|_]; [by rewrite blank_no_command|].
      cbn [negb andb] in Ek. apply andb_false_iff in Ek as [Ek|Ek]; apply negb_false_iff in Ek.
      - rewrite comment_no_command; [done|]. apply andb_true_iff in Ek as [_ Ek].
        apply orb_true_iff in Ek as [->%String.eqb_eq|Ek]; [done|]. unfold isLegacyMaintenanceComment in Ek.
        apply andb_true_iff in Ek as [Ek _]. apply has_prefix_spec in Ek as [t ->].
        change ("# LinuxGSM " +:+ t) with ("#" +:+ (" LinuxGSM " +:+ t)). by apply has_prefix_app.
      - unfold drop_line in Ek. rewrite cronLineCommand_trim in Ek.
        destruct (cronLineCommand x sp) as [[e c]|]; [|done]. destruct (String.eqb_spec c cmd); [congruence|done]. }
    rewrite <- (H lines), <- (rewrite_keeps drop sp comment lines ""), H by (by left). done.
Qed.

(** ** Lemmas: the forms read what is written *)

Lemma job_lines_of_exprs sp lines m cmd : mem cmd maintenanceCommands = true ->
  exprs sp cmd (default [] (fold_left (add_job_line sp) lines m !! cmd)) =
  (exprs sp cmd (default [] (m !! cmd)) ++ exprs sp cmd lines)%list.
Proof.
  intros Hc. revert m. induction lines as [|x l IH]; intros m; cbn [fold_left]; [by rewrite app_nil_r|].
  rewrite IH, exprs_cons, app_assoc. f_equal. unfold add_job_line, job_expr.
  destruct (cronLineCommand x sp) as [[e c]|] eqn:E; [|by rewrite app_nil_r].
  destruct (String.eqb_spec c cmd) as [->|Hne].
  - rewrite Hc, lookup_insert_eq. cbn [default from_option id]. rewrite exprs_app, exprs_cons.
    unfold job_expr. rewrite cronLineCommand_trim, E, String.eqb_refl. done.
  - rewrite app_nil_r. destruct (mem c maintenanceCommands); [|done]. by rewrite lookup_insert_ne.
Qed.

Lemma job_lines_ok sp lines m :
  (forall cmd ls, m !! cmd = Some ls -> ls <> [] /\ Forall (fun l => is_Some (job_expr sp cmd l) /\ trim_space l = l) ls) ->
  forall cmd ls, fold_left (add_job_line sp) lines m !! cmd = Some ls ->
    ls <> [] /\ Forall (fun l => is_Some (job_expr sp cmd l) /\ trim_space l = l) ls.
Proof.
  revert m. induction lines as [|x l IH]; intros m Hm; cbn [fold_left]; [done|]. apply IH.
  intros cmd ls. unfold add_job_line. destruct (cronLineCommand x sp) as [[e c]|] eqn:E; [|apply Hm].
  destruct (mem c maintenanceCommands); [|apply Hm]. destruct (decide (c = cmd)) as [->|Hne];
    [|rewrite lookup_insert_ne by done; apply Hm].
  rewrite lookup_insert_eq. intros H. assert (ls = (default [] (m !! cmd) ++ [trim_space x])%list) as -> by congruence.
  split; [by destruct (default [] _)|]. apply Forall_app. split.
  - destruct (m !! cmd) as [y|] eqn:Ey; [|constructor]. by apply (Hm cmd y).
  - repeat constructor; [|by rewrite trim_space_idem]. unfold job_expr.
    rewrite cronLineCommand_trim, E, String.eqb_refl. done.
Qed.

Lemma head_of_jobs (o : option (list string)) sp cmd :
  (forall ls, o = Some ls -> ls <> [] /\ Forall (fun l => is_Some (job_expr sp cmd l) /\ trim_space l = l) ls) ->
  (o ≫= fun lines => match lines with l :: _ => option_map fst (cronLineCommand l sp) | [] => None end) =
  head (exprs sp cmd (default [] o)).
Proof.
  intros H. destruct o as [[|x l]|]; [|destruct (H _ eq_refl) as [_ Hf]|done].
  - by destruct (H [] eq_refl).
  - apply Forall_inv in Hf as [[e He] _]. cbn [default from_option id]. rewrite exprs_cons, He.
    cbn [mbind option_bind app head]. unfold job_expr in He. destruct (cronLineCommand x sp) as [[e' c]|]; [|done].
    destruct (String.eqb c cmd); [|done]. cbn. congruence.
Qed.

(** The form shows the schedule of the first line of each command. *)
Lemma GetCronSchedule_lookup srv crontab cmd : mem cmd maintenanceCommands = true ->
  GetCronSchedule srv (Some crontab) !! cmd = head (exprs (scriptPathOf srv) cmd (split lf crontab)).
Proof.
  intros Hc. unfold GetCronSchedule. rewrite lookup_omap. cbn [default from_option id].
  rewrite (head_of_jobs _ (scriptPathOf srv) cmd).
  - unfold cronJobLines. by rewrite job_lines_of_exprs.
  - unfold cronJobLines. intros ls Hls. revert Hls. apply job_lines_ok. intros c' l'. by rewrite lookup_empty.
Qed.

Lemma no_lf_plain s : sall plain s = true -> no_lf s.
Proof.
  intros H. apply contains_byte_false. intros Hin. rewrite sall_forall in H.
  specialize (H lf Hin). done.
Qed.

Lemma no_lf_trim s : no_lf s -> no_lf (trim_space s).
Proof. unfold no_lf. rewrite !contains_byte_false. intros H Hin. by apply H, trim_space_In. Qed.

Lemma valid_expr_no_lf e : IsValidCronExpr e = true -> no_lf (trim_space e).
Proof.
  unfold IsValidCronExpr. fold cron_macros. destruct (mem (trim_space e) cron_macros) eqn:Em.
  - intros _. apply mem_true in Em. unfold cron_macros in Em. repeat (destruct Em as [<-|Em]; [done|]). destruct Em.
  - destruct (contains_any _ _) eqn:E; [done|]. intros _. unfold contains_any in E.
    apply contains_byte_false. intros Hin. apply sany_false_sall in E. rewrite sall_forall in E.
    specialize (E lf Hin). by vm_compute in E.
Qed.

Lemma job_line_no_lf e sp cmd : IsValidCronExpr e = true -> script_path_ok sp -> sall plain cmd = true ->
  no_lf (job_line e sp cmd).
Proof.
  intros He [_ Hsp] Hc. unfold job_line. repeat apply no_lf_app; try done.
  - by apply valid_expr_no_lf.
  - by apply no_lf_plain.
  - by apply no_lf_plain.
Qed.

Lemma maintenance_plain cmd : In cmd maintenanceCommands -> cmd <> "" /\ sall plain cmd = true.
Proof. intros H. repeat (destruct H as [<-|H]; [done|]). destruct H. Qed.

Lemma current_no_lf sp lines m :
  Forall no_lf lines -> (forall cmd ls, m !! cmd = Some ls -> Forall no_lf ls) ->
  forall cmd, Forall no_lf (default [] (fold_left (add_job_line sp) lines m !! cmd)).
Proof.
  intros Hl. revert m. induction Hl as [|x l Hx _ IH]; intros m Hm cmd; cbn [fold_left].
  - destruct (m !! cmd) as [ls|] eqn:E; [by apply (Hm cmd)|constructor].
  - apply IH. intros c ls. unfold add_job_line. destruct (cronLineCommand x sp) as [[e c']|]; [|apply Hm].
    destruct (mem c' maintenanceCommands); [|apply Hm]. destruct (decide (c' = c)) as [->|Hne];
      [|rewrite lookup_insert_ne by done; apply Hm].
    rewrite lookup_insert_eq. intros [= <-]. apply Forall_app. split; [|by repeat constructor; apply no_lf_trim].
    destruct (m !! c) as [y|] eqn:Ey; [by apply (Hm c)|constructor].
Qed.

Lemma exprs_content sp cmd lines : Forall no_lf lines ->
  exprs sp cmd (split lf (join (byte_str lf) lines)) = exprs sp cmd lines.
Proof.
  intros H. destruct lines as [|x l]; [done|]. rewrite split_join; [done|done|exact H].
Qed.

(** What a save makes of a command's schedules. *)
Definition saved_exprs (jobs : gmap string string) (old : list string) (cmd : string) : list string :=
  match jobs !! cmd with
  | None => old
  | Some e => if String.eqb e "" then [] else [join " " (fields e)]
  end.

Definition jobs_valid (jobs : gmap string string) : Prop :=
  forall cmd e, jobs !! cmd = Some e ->
    mem cmd maintenanceCommands = true /\ (e <> "" -> ValidateCronExpr e = None /\ IsValidCronExpr e = true).

Lemma validated_jobs jobs : ValidateCronSchedule jobs = None <-> jobs_valid jobs.
Proof.
  unfold ValidateCronSchedule. assert (Hp : forall p, job_error p = None <->
    mem p.1 maintenanceCommands = true /\ (p.2 <> "" -> ValidateCronExpr p.2 = None /\ IsValidCronExpr p.2 = true)).
  { intros [cmd e]. unfold job_error. cbn [fst snd]. destruct (mem cmd maintenanceCommands); [|by split; [|intros [? _]]].
    cbn [negb]. destruct (String.eqb_spec e "") as [->|Hne]; [done|]. unfold ValidateCronExpr.
    destruct (IsValidCronExpr e); [|split; [done|intros [_ H]; by destruct (H Hne)]]. cbn [negb].
    destruct (ParseCron e); cbn; [|split; [done|intros [_ H]; by destruct (H Hne)]]. done. }
  assert (Hl : forall l, head (omap job_error l) = None <-> Forall (fun p => job_error p = None) l).
  { induction l as [|p l IH]; simpl; [done|]. rewrite Forall_cons. destruct (job_error p); simpl; [split; [done|by intros [? _]]|].
    rewrite IH. intuition. }
  rewrite Hl, Forall_forall. unfold jobs_valid. split.
  - intros H cmd e Hj. apply (Hp (cmd, e)), H, elem_of_map_to_list, Hj.
  - intros H [cmd e] Hj%elem_of_map_to_list. apply (Hp (cmd, e)). by apply H.
Qed.

Lemma other_exprs sp c cmd ls : c <> cmd ->
  Forall (fun l => is_Some (job_expr sp c l) /\ trim_space l = l) ls -> exprs sp cmd ls = [].
Proof.
  intros Hne. induction 1 as [|x l [[e Hx] _] _ IH]; [done|]. rewrite exprs_cons, IH, app_nil_r.
  unfold job_expr in *. destruct (cronLineCommand x sp) as [[e' c']|]; [|done].
  destruct (String.eqb_spec c' c) as [Hc|]; [|done]. destruct (String.eqb_spec c' cmd); [congruence|done].
Qed.

Section Saving.
Context (sp : string) (jobs : gmap string string) (available : list string) (current : gmap string (list string)).
Context (Hsp : script_path_ok sp) (Hjobs : jobs_valid jobs).
Context (Hcur : forall cmd ls, current !! cmd = Some ls ->
  ls <> [] /\ Forall (fun l => is_Some (job_expr sp cmd l) /\ trim_space l = l) ls).
Context (Hlf : forall cmd, Forall no_lf (default [] (current !! cmd))).

Lemma job_expr_line e c cmd : IsValidCronExpr e = true -> In c maintenanceCommands ->
  job_expr sp cmd (job_line e sp c) = if String.eqb c cmd then Some (join " " (fields e)) else None.
Proof.
  intros He Hc. destruct (maintenance_plain c Hc). unfold job_expr. by rewrite job_line_parses.
Qed.

Lemma job_lines_exprs cmd cmds lines : NoDup cmds -> incl cmds maintenanceCommands ->
  job_lines cmds jobs available current sp = Ok lines ->
  exprs sp cmd lines =
    (if mem cmd cmds then saved_exprs jobs (exprs sp cmd (default [] (current !! cmd))) cmd else []) /\
  Forall no_lf lines.
Proof.
  intros Hnd. revert lines. induction Hnd as [|c r Hni _ IH]; intros lines Hi H; cbn [job_lines] in H.
  - assert (lines = []) as -> by congruence. done.
  - apply incl_cons_inv in Hi as [Hc Hi]. cbn [mem existsb]. fold (mem cmd r).
    assert (Hm : c = cmd -> mem cmd r = false).
    { intros ->. apply mem_false. by rewrite <- list_elem_of_In. }
    unfold saved_exprs. destruct (jobs !! c) as [e|] eqn:Ej.
    + destruct (String.eqb_spec e "") as [He|He].
      * destruct (IH lines Hi H) as [IH1 IH2]. split; [|done]. rewrite IH1. rewrite (String.eqb_sym cmd c).
        destruct (String.eqb_spec c cmd) as [->|Hne]; [|done]. by rewrite Hm, Ej, He.
      * destruct (negb (mem c available)); [done|].
        destruct (job_lines r jobs available current sp) as [rest|]; [|done].
        assert (lines = job_line e sp c :: rest) as -> by congruence.
        destruct (IH rest Hi eq_refl) as [IH1 IH2]. destruct (Hjobs c e Ej) as [_ Hv].
        destruct (Hv He) as [_ Hv']. split.
        -- rewrite exprs_cons, job_expr_line, IH1 by done. rewrite (String.eqb_sym cmd c).
           destruct (String.eqb_spec c cmd) as [->|Hne]; [|done].
           rewrite Hm, Ej by done. by destruct (String.eqb_spec e "").
        -- constructor; [|done]. apply job_line_no_lf; try done. by apply maintenance_plain.
    + destruct (job_lines r jobs available current sp) as [rest|]; [|done].
      assert (lines = default [] (current !! c) ++ rest)%list as -> by congruence.
      destruct (IH rest Hi eq_refl) as [IH1 IH2]. split; [|apply Forall_app; split; [apply Hlf|done]].
      rewrite exprs_app, IH1. rewrite (String.eqb_sym cmd c). destruct (String.eqb_spec c cmd) as [->|Hne].
      * by rewrite Hm, Ej, app_nil_r.
      * destruct (current !! c) as [ls|] eqn:El; [|done]. cbn [default from_option id].
        by rewrite (other_exprs sp c cmd ls Hne (proj2 (Hcur _ _ El))).
Qed.
End Saving.

Lemma maintenance_comment_ok srv : has_prefix (maintenanceComment srv) "#" = true /\
  (IsValidScriptName (i_Script srv) = true -> no_lf (maintenanceComment srv)).
Proof.
  split; [done|]. intros H. unfold maintenanceComment. repeat apply no_lf_app; try done.
  apply no_lf_plain. unfold IsValidScriptName, reScriptName, re_word in H. apply andb_true_iff in H as [H _].
  unfold sall. destruct (to_bytes (i_Script srv)) as [|c l]; [done|]. apply andb_true_iff in H as [[Hc Hl]%andb_true_iff _].
  assert (Hall : forall x, is_alnum x || one_of "._-" x = true -> plain x = true).
  { intros x. unfold is_alnum, is_lower, is_upper, is_digit, one_of, plain, ascii_space, between. simpl.
    destruct (Ascii.eqb_spec x "."), (Ascii.eqb_spec x "_"), (Ascii.eqb_spec x "-"); subst; try done. lia. }
  cbn [forallb]. apply andb_true_iff. split; [apply Hall; by rewrite Hc|].
  rewrite forallb_forall in *. auto.
Qed.

Lemma maintenance_comment_trim srv : trim_space (maintenanceComment srv) = maintenanceComment srv.
Proof.
  unfold maintenanceComment. set (s := i_Script srv).
  replace ("# LinuxGSM " +:+ s +:+ ": scheduled maintenance")
    with (of_bytes ("#"%char :: (to_bytes (" LinuxGSM " +:+ s +:+ ": scheduled maintenanc")) ++ ["e"%char])%list).
  - unfold trim_space. rewrite to_of_bytes. by rewrite trim_space_plain.
  - apply to_bytes_inj. rewrite to_of_bytes, !to_bytes_app.
    change (to_bytes ": scheduled maintenance") with (to_bytes ": scheduled maintenanc" ++ ["e"%char])%list.
    change (to_bytes "# LinuxGSM ") with ("#"%char :: to_bytes " LinuxGSM ")%list.
    by rewrite <- !app_assoc.
Qed.

Lemma script_word_lines srv s drop : Forall no_lf (rewrite_lines drop (scriptPathOf srv) (maintenanceComment srv) (split lf s) "").
Proof.
  eapply Forall_impl; [apply rewrite_old; done|]. intros l [[[_ ?]|Hl] _]; [done|].
  pose proof (split_no_lf s) as Hn. rewrite Forall_forall in Hn. by apply Hn, list_elem_of_In.
Qed.

(** The lines of a saved crontab. *)
Lemma saved_lines srv available crontab jobs content :
  script_path_ok (scriptPathOf srv) -> IsValidScriptName (i_Script srv) = true ->
  SaveCronSchedule (Some srv) available (Some crontab) (Some crontab) jobs = Ok content ->
  exists lines, jobs_valid jobs /\
    job_lines scheduleCommands jobs available (cronJobLines crontab (scriptPathOf srv)) (scriptPathOf srv) = Ok lines /\
    let extra := match lines with [] => [] | _ => maintenanceComment srv :: lines end in
    let all := (rewrite_lines (Some maintenanceCommands) (scriptPathOf srv) (maintenanceComment srv) (split lf crontab) "" ++ extra)%list in
    content = join (byte_str lf) all /\ Forall no_lf all /\
    (forall cmd, exprs (scriptPathOf srv) cmd extra =
      if mem cmd scheduleCommands
      then saved_exprs jobs (exprs (scriptPathOf srv) cmd (default [] (cronJobLines crontab (scriptPathOf srv) !! cmd))) cmd
      else []).
Proof.
  intros Hsp Hn. unfold SaveCronSchedule. destruct (ValidateCronSchedule jobs) eqn:Ev; [done|].
  apply validated_jobs in Ev. destruct (maintenance_comment_ok srv) as [Hc1 Hc2]. set (sp := scriptPathOf srv) in *.
  destruct (job_lines _ _ _ _ _) as [lines|] eqn:El; [|done]. cbn [rewriteCrontab]. intros [= <-].
  assert (Hcur := job_lines_ok sp (split lf crontab) ∅
    (fun c ls H => ltac:(by rewrite lookup_empty in H))).
  assert (Hlf := current_no_lf sp (split lf crontab) ∅ (split_no_lf crontab)
    (fun c ls H => ltac:(by rewrite lookup_empty in H))).
  assert (He : forall cmd, exprs sp cmd lines = (if mem cmd scheduleCommands
      then saved_exprs jobs (exprs sp cmd (default [] (cronJobLines crontab sp !! cmd))) cmd else []) /\ Forall no_lf lines).
  { intros cmd. apply (job_lines_exprs sp jobs available (cronJobLines crontab sp)); try done.
    - apply (bool_decide_unpack _); vm_compute; exact I.
    - apply incl_refl. }
  exists lines. split_and!; [done|done|done| |].
  - apply Forall_app. split; [apply script_word_lines|]. destruct (He "") as [_ Hl].
    destruct lines; [done|]. constructor; auto.
  - intros cmd. rewrite <- (proj1 (He cmd)). destruct lines as [|x l]; [done|]. rewrite exprs_cons. unfold job_expr at 1.
    by rewrite comment_no_command by (by rewrite maintenance_comment_trim).
Qed.

(** The schedules after a save, of the maintenance commands and the others. *)
Lemma saved_schedule srv available crontab jobs content cmd :
  script_path_ok (scriptPathOf srv) -> IsValidScriptName (i_Script srv) = true ->
  SaveCronSchedule (Some srv) available (Some crontab) (Some crontab) jobs = Ok content ->
  exprs (scriptPathOf srv) cmd (split lf content) =
    saved_exprs jobs (exprs (scriptPathOf srv) cmd (split lf crontab)) cmd.
Proof.
  intros Hsp Hn Hs. destruct (saved_lines _ _ _ _ _ Hsp Hn Hs) as (lines & Ev & _ & -> & Hall & He).
  rewrite exprs_content, exprs_app, rewrite_exprs, He by done.
  unfold drops. change scheduleCommands with maintenanceCommands.
  destruct (mem cmd maintenanceCommands) eqn:Em.
  - unfold cronJobLines. by rewrite job_lines_of_exprs.
  - rewrite app_nil_r. unfold saved_exprs. destruct (jobs !! cmd) as [e|] eqn:Ej; [|done].
    destruct (Ev cmd e Ej). congruence.
Qed.

Lemma job_lines_In cmds jobs available current sp lines cmd e :
  job_lines cmds jobs available current sp = Ok lines -> In cmd cmds ->
  jobs !! cmd = Some e -> e <> "" -> In (job_line e sp cmd) lines.
Proof.
  intros H Hc Hj He. revert lines H. induction cmds as [|c r IH]; intros lines H; [destruct Hc|].
  cbn [job_lines] in H. destruct Hc as [->|Hc].
  - rewrite Hj in H. destruct (String.eqb_spec e ""); [done|]. destruct (negb _); [done|].
    destruct (job_lines r jobs available current sp); [|done]. injection H as <-. by left.
  - destruct (jobs !! c) as [e'|].
    + destruct (String.eqb e' ""); [by apply IH|]. destruct (negb _); [done|].
      destruct (job_lines r jobs available current sp) as [rest|]; [|done]. injection H as <-. right. by apply IH.
    + destruct (job_lines r jobs available current sp) as [rest|]; [|done]. injection H as <-.
      apply in_app_iff. right. by apply IH.
Qed.

(** The line of a job that is set is in the saved crontab. *)
Lemma saved_line_In srv available crontab jobs content cmd e :
  script_path_ok (scriptPathOf srv) -> IsValidScriptName (i_Script srv) = true ->
  SaveCronSchedule (Some srv) available (Some crontab) (Some crontab) jobs = Ok content ->
  jobs !! cmd = Some e -> e <> "" ->
  In (job_line e (scriptPathOf srv) cmd) (split lf content) /\ IsValidCronExpr e = true /\ In cmd maintenanceCommands.
Proof.
  intros Hsp Hn Hs Hj He. destruct (saved_lines _ _ _ _ _ Hsp Hn Hs) as (lines & Ev & Hl & -> & Hall & _).
  destruct (Ev cmd e Hj) as [Hc Hv]. apply mem_true in Hc.
  pose proof (job_lines_In _ _ _ _ _ _ _ _ Hl Hc Hj He) as Hin. split_and!; [|by apply Hv|done].
  rewrite split_join; [|by destruct lines, (rewrite_lines _ _ _ _ _)|done]. apply in_app_iff. right.
  destruct lines; [done|by right].
Qed.

Lemma validated_backup s : AutoBackupEnabled s = true -> ValidateBackupSettings s = None ->
  IsValidCronExpr (AutoBackupCron s) = true.
Proof.
  intros He. unfold ValidateBackupSettings. rewrite He. repeat (destruct (_ && _); [done|]).
  destruct (negb _); [done|]. unfold ValidateCronExpr. by destruct (IsValidCronExpr (AutoBackupCron s)).
Qed.

Lemma join_fields e : IsValidCronExpr e = true ->
  fields (join " " (fields e)) = fields e /\ no_lf (join " " (fields e)) /\ e <> "".
Proof.
  intros He. destruct (valid_cron_fields e He) as (f0 & r & Hf & _ & Hall & _). split_and!.
  - apply fields_join. rewrite Hf. eapply Forall_impl; [exact Hall|]. by intros f (? & ? & _).
  - rewrite Hf. clear Hf. induction Hall as [|x l (_ & Hx & _) _ IH]; [done|].
    destruct l as [|y l]; [rewrite join_one; by apply no_lf_plain|]. rewrite join_cons.
    apply no_lf_app; [by apply no_lf_plain|]. by apply no_lf_app.
  - intros ->. done.
Qed.

(** ** Lemmas: what is stored reads the same *)

Lemma trim_first_field s : fields s <> [] ->
  has_prefix (trim_space s) "#" = match fields s with f :: _ => has_prefix f "#" | [] => false end.
Proof.
  intros Hne. destruct (fields s) as [|f0 r] eqn:Ef; [done|].
  destruct (has_prefix (trim_space s) "#") eqn:E.
  - apply has_prefix_spec in E as [t E].
    destruct (fields_first "#" (trim_space s) t) as (w & r' & Hw); [done|exact E|].
    rewrite fields_trim_space, Ef in Hw. injection Hw as -> ->. symmetry. apply has_prefix_app.
  - symmetry. destruct (has_prefix f0 "#") eqn:E0; [|done]. exfalso.
    assert (Hw : space_width (to_bytes (trim_space s)) = 0%nat).
    { rewrite <- (trim_space_idem s). unfold trim_space at 1, ltrim_space. rewrite to_of_bytes.
      set (m := ltrim space_width 0 (to_bytes (trim_space s))).
      destruct (ltrim_suffix space_width_rev (rev m) 0) as [p Hp].
      apply (f_equal (@rev ascii)) in Hp. rewrite rev_involutive, rev_app_distr in Hp.
      apply (space_width_prefix _ (rev p)). rewrite <- Hp. apply ltrim_stop; [apply space_width_le|lia]. }
    rewrite <- fields_trim_space in Ef. unfold fields in Ef. unfold has_prefix in E, E0.
    destruct (to_bytes (trim_space s)) as [|c l]; [done|]. cbn [lfields] in Ef. rewrite Hw in Ef.
    destruct (lfields_cur l [c]) as (w & r' & Hl); [done|]. rewrite Hl in Ef. cbn [map rev app] in Ef.
    assert (f0 = of_bytes (c :: w)) as -> by congruence. rewrite to_of_bytes in E0.
    cbn in E, E0. destruct c as [[] [] [] [] [] [] [] []]; done.
Qed.

(** A line is read by its words alone. *)
Lemma cronLineCommand_fields a b sp : fields a = fields b -> cronLineCommand a sp = cronLineCommand b sp.
Proof.
  intros H. assert (He : forall s, cronLineCommand s sp = match fields s with
    | [] => None
    | (f0 :: _) as fs => if has_prefix f0 "#" then None else
        let n := if has_prefix f0 "@" then 1%nat else 5%nat in
        let '(dir, script) := path_split sp in
        match find_command (trim_suffix dir "/") script sp false (drop n fs) with
        | Some c => Some (join " " (take n fs), c)
        | None => None
        end
    end).
  { intros s. unfold cronLineCommand. rewrite fields_trim_space. destruct (fields s) as [|f0 r] eqn:Ef; [by destruct (_ || _)|].
    pose proof (trim_first_field s) as Hp. rewrite Ef in Hp. rewrite Hp by done.
    destruct (String.eqb_spec (trim_space s) "") as [E|_]; [|done].
    rewrite <- fields_trim_space, E in Ef. done. }
  by rewrite !He, H.
Qed.

Definition words_expr (sp cmd : string) (ws : list string) : option string :=
  job_expr sp cmd (join " " ws).

Lemma job_expr_words sp cmd a b : fields a = fields b -> job_expr sp cmd a = job_expr sp cmd b.
Proof. intros H. unfold job_expr. by rewrite (cronLineCommand_fields a b). Qed.

Lemma exprs_words sp cmd : forall a b,
  filter (fun ws => ws <> []) (map fields a) = filter (fun ws => ws <> []) (map fields b) ->
  exprs sp cmd a = exprs sp cmd b.
Proof.
  assert (Hb : forall x, fields x = [] -> job_expr sp cmd x = None).
  { intros x Hx. by rewrite (job_expr_words sp cmd x "") by (by rewrite Hx). }
  assert (Hskip : forall b y r, filter (fun ws => ws <> []) (map fields b) = y :: r ->
    exists b1 x b2, b = (b1 ++ x :: b2)%list /\ exprs sp cmd b1 = [] /\ fields x = y /\
      filter (fun ws => ws <> []) (map fields b2) = r).
  { induction b as [|x b IH]; intros y r; [done|]. cbn [map]. rewrite filter_cons. case_decide as Hx.
    - intros [= <- <-]. by exists [], x, b.
    - intros H. destruct (IH y r H) as (b1 & z & b2 & -> & H1 & H2 & H3). exists (x :: b1), z, b2.
      split_and!; try done. rewrite exprs_cons, H1, Hb; [done|]. exact Hx. }
  assert (Hnil : forall b, filter (fun ws => ws <> []) (map fields b) = [] -> exprs sp cmd b = []).
  { induction b as [|x b IH]; [done|]. cbn [map]. rewrite filter_cons. case_decide as Hx; [done|].
    intros H. rewrite exprs_cons, IH, Hb; [done| |done]. exact Hx. }
  induction a as [|x a IH]; intros b; cbn [map].
  - intros H. symmetry. by apply Hnil.
  - rewrite filter_cons. case_decide as Hx.
    + intros H. symmetry in H. apply Hskip in H as (b1 & y & b2 & -> & H1 & H2 & H3).
      rewrite exprs_app, H1, !exprs_cons, (IH b2) by done. by rewrite (job_expr_words sp cmd x y).
    + intros H. rewrite exprs_cons, Hb; [by apply IH|]. exact Hx.
Qed.

Lemma exprs_write sp cmd content : exprs sp cmd (split lf (WriteCrontab content)) = exprs sp cmd (split lf content).
Proof.
  apply exprs_words. change lf with newline. rewrite <- (fields_lines_trim content). unfold WriteCrontab.
  destruct (String.eqb_spec (trim_space content) "") as [->|_]; [done|].
  rewrite !fields_lines, to_bytes_app. unfold byte_str. rewrite to_of_bytes, line_words_right; done.
Qed.

(** * Properties *)

(** C17: what the scheduler form saves is what it reads back: a changed command
    has exactly the new schedule (none for ""), and the schedules of the commands
    the user did not touch, and the automatic backup, are what they were. *)
Theorem save_get_schedule srv available crontab jobs content cmd values
    (Hsp : script_path_ok (scriptPathOf srv)) (Hn : IsValidScriptName (i_Script srv) = true)
    (Hs : SaveCronSchedule (Some srv) available (Some crontab) (Some crontab) jobs = Ok content)
    (Hc : mem cmd maintenanceCommands = true) :
  GetCronSchedule srv (Some (WriteCrontab content)) !! cmd =
    match jobs !! cmd with
    | Some e => if String.eqb e "" then None else Some (join " " (fields e))
    | None => GetCronSchedule srv (Some crontab) !! cmd
    end /\
  GetBackupSettings srv values (Some (WriteCrontab content)) = GetBackupSettings srv values (Some crontab).
Proof.
  pose proof Hs as Hv. unfold SaveCronSchedule in Hv. destruct (ValidateCronSchedule jobs) eqn:Ev; [done|]. clear Hv.
  apply validated_jobs in Ev. split.
  - rewrite !GetCronSchedule_lookup, exprs_write, (saved_schedule _ _ _ _ _ _ Hsp Hn Hs) by done. unfold saved_exprs.
    destruct (jobs !! cmd) as [e|]; [|done]. by destruct (String.eqb e "").
  - pose proof (saved_schedule _ _ _ _ _ "backup" Hsp Hn Hs) as H. unfold saved_exprs in H.
    destruct (jobs !! "backup"%string) as [e|] eqn:Ej; [by destruct (Ev _ _ Ej)|].
    rewrite <- exprs_write in H. unfold exprs in H. change (job_expr (scriptPathOf srv) "backup") with (backup_expr (scriptPathOf srv)) in H.
    unfold GetBackupSettings. by rewrite H.
Qed.

(** Saving a schedule keeps every line that is not blank, not the
    dashboard's comment and not a maintenance command of this server: exactly,
    in order, before the lines it adds.  The lines it adds are its comment and
    maintenance commands of this server. *)
Theorem save_schedule_keeps_lines srv available crontab jobs content
    (Hs : SaveCronSchedule (Some srv) available (Some crontab) (Some crontab) jobs = Ok content) :
  exists kept added,
    content = join (byte_str lf) (kept ++ added) /\
    filter (fun l => keeps (Some maintenanceCommands) (scriptPathOf srv) (maintenanceComment srv) l = true) kept =
    filter (fun l => keeps (Some maintenanceCommands) (scriptPathOf srv) (maintenanceComment srv) l = true) (split lf crontab) /\
    Forall (fun l => In l (split lf crontab) /\
      drop_line (Some maintenanceCommands) (scriptPathOf srv) (trim_space l) = false) kept /\
    (added = [] \/ exists lines, added = maintenanceComment srv :: lines /\
      job_lines scheduleCommands jobs available (cronJobLines crontab (scriptPathOf srv)) (scriptPathOf srv) = Ok lines).
Proof.
  unfold SaveCronSchedule in Hs. destruct (ValidateCronSchedule jobs); [done|].
  destruct (job_lines _ _ _ _ _) as [lines|] eqn:El; [|done]. cbn [rewriteCrontab] in Hs.
  eexists _, _. split; [symmetry; injection Hs as Hs; exact Hs|]. split_and!.
  - apply rewrite_keeps. by left.
  - eapply Forall_impl; [apply rewrite_old; done|]. intros l [[[_ ?]|Hl] Hd]; done.
  - destruct lines; [by left|right]. by eexists.
Qed.

(** Saving the backup form with the schedule permission sets exactly the
    automatic backup: it reads back as saved, and no scheduler job changes. *)
Theorem save_backup_schedule srv s cfg crontab new content cmd values
    (Hsp : script_path_ok (scriptPathOf srv))
    (Hs : SaveBackupSettings (Some srv) s true (Some cfg) (Some crontab) = Ok (new, Some content)) :
  AutoBackupEnabled (GetBackupSettings srv values (Some (WriteCrontab content))) = AutoBackupEnabled s /\
  AutoBackupCron (GetBackupSettings srv values (Some (WriteCrontab content))) =
    (if AutoBackupEnabled s then join " " (fields (AutoBackupCron s)) else "") /\
  (mem cmd maintenanceCommands = true ->
   GetCronSchedule srv (Some (WriteCrontab content)) !! cmd = GetCronSchedule srv (Some crontab) !! cmd).
Proof.
  unfold SaveBackupSettings in Hs. destruct (ValidateBackupSettings s) eqn:Ev; [done|]. cbn [negb rewriteCrontab] in Hs.
  set (sp := scriptPathOf srv) in *. set (extra := if _ && _ then _ else _) in Hs.
  assert (Hc : content = join (byte_str lf) (rewrite_lines (Some ["backup"%string]) sp (maintenanceComment srv) (split lf crontab) "" ++ extra))
    by congruence.
  assert (He : Forall no_lf extra /\ forall c, exprs sp c extra =
    if AutoBackupEnabled s && String.eqb "backup" c then [join " " (fields (AutoBackupCron s))] else []).
  { unfold extra. destruct (AutoBackupEnabled s) eqn:Een; [|done].
    pose proof (validated_backup s Een Ev) as Hv. destruct (join_fields _ Hv) as (H1 & H2 & H3).
    destruct (String.eqb_spec (AutoBackupCron s) ""); [done|]. cbn [negb andb].
    change (" " +:+ sp +:+ " backup > /dev/null 2>&1") with (" " +:+ sp +:+ " " +:+ "backup" +:+ " > /dev/null 2>&1").
    fold (job_text (join " " (fields (AutoBackupCron s))) sp "backup"). split.
    - repeat constructor. unfold job_text. repeat apply no_lf_app; try done. by apply no_lf_plain, Hsp.
    - intros c. rewrite exprs_cons. unfold job_expr. rewrite (job_text_parses _ (AutoBackupCron s)) by done.
      by destruct (String.eqb "backup" c). }
  assert (Hx : forall c, exprs sp c (split lf content) =
    ((if mem c ["backup"]%string then [] else exprs sp c (split lf crontab)) ++ exprs sp c extra)%list).
  { intros c. rewrite Hc, exprs_content by (apply Forall_app; split; [apply script_word_lines|apply He]).
    by rewrite exprs_app, rewrite_exprs. }
  pose proof (Hx "backup") as Hb. rewrite <- exprs_write in Hb. rewrite (proj2 He) in Hb.
  change (mem "backup" ["backup"%string]) with true in Hb. change (String.eqb "backup" "backup") with true in Hb.
  cbn [app] in Hb. rewrite andb_true_r in Hb. unfold exprs in Hb.
  change (job_expr sp "backup") with (backup_expr sp) in Hb. unfold GetBackupSettings. fold sp. rewrite Hb.
  split_and!; [by destruct (AutoBackupEnabled s)|by destruct (AutoBackupEnabled s)|]. intros Hm.
  rewrite !GetCronSchedule_lookup by done. fold sp. rewrite exprs_write, Hx, (proj2 He).
  assert (Hne : String.eqb "backup" cmd = false) by (apply String.eqb_neq; intros <-; done).
  cbn [mem existsb]. rewrite (String.eqb_sym cmd), Hne, andb_false_r. cbn [orb]. by rewrite app_nil_r.
Qed.

(** ** Witnesses *)

Lemma demo_srv_ok : script_path_ok (scriptPathOf demo_srv).
Proof. split; vm_compute; reflexivity. Qed.

Definition demo_jobs : gmap string string := <["monitor"%string := ""%string]> (<["restart"%string := " @hourly"%string]> ∅).
Definition demo_saved : string :=
  join (byte_str lf) ["MAILTO=me"; "0 4 * * * /home/a/vhserver backup"; "0 5 * * * /home/b/rustserver monitor";
    "# LinuxGSM vhserver: scheduled maintenance"; "@daily cd /home/a && ./vhserver update";
    "@hourly /home/a/vhserver restart > /dev/null 2>&1"]%string.

Lemma save_get_schedule_witness :
  GetCronSchedule demo_srv (Some (WriteCrontab demo_saved)) !! "restart"%string = Some "@hourly"%string /\
  AutoBackupCron (GetBackupSettings demo_srv ∅ (Some (WriteCrontab demo_saved))) = "0 4 * * *".
Proof.
  assert (Hs : SaveCronSchedule (Some demo_srv) scheduleCommands (Some demo_crontab) (Some demo_crontab) demo_jobs =
    Ok demo_saved) by (vm_compute; reflexivity).
  destruct (save_get_schedule demo_srv scheduleCommands demo_crontab demo_jobs demo_saved "restart" ∅
    demo_srv_ok eq_refl Hs eq_refl) as [H1 H2].
  split; [rewrite H1; vm_compute; reflexivity|rewrite H2; vm_compute; reflexivity].
Defined.

Lemma save_schedule_keeps_lines_witness : exists kept added, demo_saved = join (byte_str lf) (kept ++ added).
Proof.
  destruct (save_schedule_keeps_lines demo_srv scheduleCommands demo_crontab demo_jobs demo_saved) as (k & a & H & _).
  - vm_compute. reflexivity.
  - exists k, a. exact H.
Defined.

Definition demo_backup : BackupSettings := mkBackupSettings "4" "30" "on" true "0  3 * * 1 ".

Lemma save_backup_schedule_witness : exists content,
  AutoBackupCron (GetBackupSettings demo_srv ∅ (Some (WriteCrontab content))) = "0 3 * * 1".
Proof.
  eexists. refine (eq_trans (proj1 (proj2 (save_backup_schedule demo_srv demo_backup "" demo_crontab
    _ _ "monitor" ∅ demo_srv_ok _))) _); vm_compute; reflexivity.
Defined.
