(* ===== verification/Scheduler.v ===== *)
(** * The scheduler of Docker mode (backend/docker_scheduler.go)

    In Docker mode the dashboard itself runs the schedules.  This file models
    which commands are due in a minute, how they are grouped by server, and the
    queue that runs the commands of a server one after another; it proves that a
    job saved in the form is due in its minutes, and that the queue runs at most one
    command at a time and every command that became due.  (The comment of [runDue]
    says that commands are skipped while earlier ones run; the comment of
    [scheduleQueue] and the code say that they wait.) *)

From Stdlib Require Import ZArith Lia Bool String Ascii List.
From stdpp Require Import base gmap strings list.
From S2P Require Import Prelude GoStrings Validate Paths Cron Cfg Schedule.

(** ** Due commands *)

Definition scheduledCommands : list string :=
  ["monitor"; "update"; "force-update"; "restart"; "update-lgsm"; "backup"]%string.

(** The name of the schedule file; [None]: an invalid server ID or no directory. *)
Definition scheduleFile (scheduleDir : string) (srv : Instance) : option string :=
  if String.eqb scheduleDir "" then None
  else if negb (IsValidLocalServerID (i_ID srv)) then None
  else Some (Join [scheduleDir; i_ID srv +:+ ".cron"]).

(** The index of the first field that starts with [dockerScriptDir/]. *)
Fixpoint script_index (fs : list string) : option nat :=
  match fs with
  | [] => None
  | f :: r => if has_prefix f (dockerScriptDir +:+ "/") then Some 0%nat else option_map S (script_index r)
  end.

(** The schedule and command of a line, before the command is looked at again. *)
Definition due_line (line : string) : option (string * string) :=
  match fields line with
  | [] => None
  | (f0 :: _) as fs =>
      if has_prefix f0 "#" then None
      else match script_index fs with
      | Some idx =>
          let expr := join " " (take idx fs) in
          match fs !! S idx with
          | Some command =>
              if (0 <? Z.of_nat idx) && IsValidCronExpr expr && mem command scheduledCommands
              then Some (expr, command) else None
          | None => None
          end
      | None => None
      end
  end.

Fixpoint due_commands (lines : list string) (t : civil) (seen : list string) : list string :=
  match lines with
  | [] => []
  | line :: r =>
      match due_line line with
      | None => due_commands r t seen
      | Some (expr, command) =>
          if mem command seen then due_commands r t seen
          else match ParseCron expr with
          | Ok spec => if Matches spec t then command :: due_commands r t (command :: seen)
                       else due_commands r t seen
          | Err _ => due_commands r t seen
          end
      end
  end.

(** [dueJobs]: [files] are the names the glob finds and their text ([None]: not readable). *)
Definition dueJobs (files : list (string * option string)) (t : civil) : list (string * string) :=
  flat_map (fun f =>
    let id := trim_suffix (Base f.1) ".cron" in
    if IsValidLocalServerID id then
      match f.2 with
      | Some data => map (pair id) (due_commands (split lf data) t [])
      | None => []
      end
    else []) files.

(** The grouping of [runDue]: the commands of each server with a container, in
    the order the servers appear first. *)
Definition add_job (servers : list string) (acc : list (string * list string)) (job : string * string)
    : list (string * list string) :=
  if negb (mem job.1 servers) then acc
  else if mem job.1 (map fst acc)
  then map (fun p => if String.eqb p.1 job.1 then (p.1, p.2 ++ [job.2])%list else p) acc
  else (acc ++ [(job.1, [job.2])])%list.
Definition runDue (servers : list string) (jobs : list (string * string)) : list (string * list string) :=
  fold_left (add_job servers) jobs [].

(** ** The queue of a server *)

(** [scheduleQueue] with the goroutines that run [runJobs]: how many are before
    taking a command, what the others are running, and what was started so far. *)
Record queue := mkQueue {
  q_running : bool; q_pending : list string;
  q_looping : nat; q_executing : list string; q_started : list string }.

Definition enqueue (pending commands : list string) : list string :=
  fold_left (fun p c => if mem c p then p else (p ++ [c])%list) commands pending.

(** The first critical section of [runJobs]. *)
Definition arrive (commands : list string) (q : queue) : queue :=
  let pending := enqueue (q_pending q) commands in
  if q_running q then mkQueue true pending (q_looping q) (q_executing q) (q_started q)
  else mkQueue true pending (S (q_looping q)) (q_executing q) (q_started q).

(** The critical section of the loop: ends or takes the next command and runs it. *)
Definition take_next (q : queue) : option queue :=
  match q_looping q with
  | O => None
  | S n =>
      match q_pending q with
      | [] => Some (mkQueue false [] n (q_executing q) (q_started q))
      | c :: r => Some (mkQueue (q_running q) r n (c :: q_executing q) (q_started q ++ [c])%list)
      end
  end.

Inductive event := Arrive (commands : list string) | Take | Finish (command : string).

Inductive qstep : queue -> event -> queue -> Prop :=
| step_arrive q cs : incl cs scheduledCommands -> qstep q (Arrive cs) (arrive cs q)
| step_take q q' : take_next q = Some q' -> qstep q Take q'
| step_finish q c pre post : q_executing q = (pre ++ c :: post)%list ->
    qstep q (Finish c) (mkQueue (q_running q) (q_pending q) (S (q_looping q)) (pre ++ post) (q_started q)).

Inductive qrun : queue -> list event -> queue -> Prop :=
| run_nil q : qrun q [] q
| run_cons q e q1 es q2 : qstep q e q1 -> qrun q1 es q2 -> qrun q (e :: es) q2.

Definition empty_queue : queue := mkQueue false [] 0 [] [].

(** ** Lemmas: due lines *)

Lemma due_line_fields a b : fields a = fields b -> due_line a = due_line b.
Proof. unfold due_line. by intros ->. Qed.

Lemma script_index_app fs f r :
  Forall (fun x => has_prefix x "/app/" = false) fs -> has_prefix f "/app/" = true ->
  script_index (fs ++ f :: r)%list = Some (length fs).
Proof.
  intros Hf Hp. induction Hf as [|x l Hx _ IH]; cbn [app script_index length].
  - change (dockerScriptDir +:+ "/") with "/app/". by rewrite Hp.
  - change (dockerScriptDir +:+ "/") with "/app/" in *. rewrite Hx, IH. done.
Qed.

Lemma trim_plain_chars s (f : ascii -> bool) : sall f s = true -> sall f (trim_space s) = true.
Proof. rewrite !sall_forall. intros H c Hc. by apply H, trim_space_In. Qed.

Lemma macro_one_field s : (In s cron_macros \/ is_Some (cronMacros s)) -> length (fields s) = 1%nat.
Proof.
  intros [H|H].
  - unfold cron_macros in H. repeat (destruct H as [<-|H]; [done|]). destruct H.
  - unfold cronMacros in H. repeat case_match; to_prop; subst; try done; try (destruct H; done);
      repeat match goal with H : (_ || _)%bool = true |- _ => apply orb_true_iff in H as [H|H] end; to_prop; by subst.
Qed.

(** The words of a schedule, joined by single spaces, are the same schedule. *)
Lemma join_schedule e : IsValidCronExpr e = true ->
  IsValidCronExpr (join " " (fields e)) = true /\ ParseCron (join " " (fields e)) = ParseCron e.
Proof.
  intros He. destruct (join_fields e He) as (Hf & Hlf & _). set (j := join " " (fields e)) in *.
  unfold IsValidCronExpr in *. fold cron_macros in *. destruct (mem (trim_space e) cron_macros) eqn:Em.
  - assert (Hj : j = trim_space e).
    { unfold j. rewrite <- (fields_trim_space e). apply mem_true in Em. unfold cron_macros in Em.
      repeat (destruct Em as [<-|Em]; [done|]). destruct Em. }
    rewrite Hj, trim_space_idem, Em. split; [done|]. unfold ParseCron. by rewrite trim_space_idem.
  - destruct (contains_any _ _) eqn:Ec; [done|]. rewrite !fields_trim_space in *.
    assert (Hlen : length (fields e) = 5%nat) by (apply andb_true_iff in He as [He _]; apply Z.eqb_eq in He; lia).
    assert (Hn : forall x, fields x = fields e -> mem (trim_space x) cron_macros = false /\ cronMacros (trim_space x) = None).
    { intros x Hx. split.
      - apply mem_false. intros Hin. pose proof (macro_one_field _ (or_introl Hin)). rewrite fields_trim_space, Hx in *. lia.
      - destruct (cronMacros (trim_space x)) eqn:E; [|done].
        pose proof (macro_one_field (trim_space x) (or_intror (mk_is_Some _ _ E))). rewrite fields_trim_space, Hx in *. lia. }
    destruct (Hn j Hf) as [H1 H2]. destruct (Hn e eq_refl) as [_ H3]. rewrite H1, Hf. split.
    + destruct (contains_any (trim_space j) _) eqn:Ej; [exfalso|done].
      assert (Hp : sall (fun c => negb (one_of (byte_str (chr 10) +:+ byte_str (chr 13)) c)) (trim_space j) = true).
      { apply trim_plain_chars. unfold j. destruct (valid_cron_fields e) as (f0 & r & E & _ & Hall & _).
        - unfold IsValidCronExpr. fold cron_macros. by rewrite Em, Ec, fields_trim_space.
        - rewrite E. clear -Hall. induction Hall as [|x l (_ & Hx & _) _ IH]; [done|].
          assert (Hx' : sall (fun c => negb (one_of (byte_str (chr 10) +:+ byte_str (chr 13)) c)) x = true).
          { apply (sall_impl plain); [|done]. intros c Hc. apply negb_true_iff. unfold one_of. simpl.
            destruct (Ascii.eqb_spec c (chr 10)), (Ascii.eqb_spec c (chr 13)); subst; try done; by vm_compute in Hc. }
          destruct l as [|y l]; [by rewrite join_one|]. rewrite join_cons, !sall_app, Hx', IH. done. }
      apply sany_false_sall in Hp. unfold contains_any in Ej. congruence.
    + unfold ParseCron. rewrite H2, H3, !fields_trim_space, Hf. done.
Qed.

Lemma app_path srv : i_Layout srv = LayoutData -> has_prefix (scriptPathOf srv) "/app/" = true.
Proof.
  intros H. unfold scriptPathOf. rewrite H, String.eqb_refl. rewrite <- string_app_assoc.
  apply (has_prefix_app "/app/").
Qed.

Lemma due_job_line e sp cmd : IsValidCronExpr e = true -> script_path_ok sp -> has_prefix sp "/app/" = true ->
  In cmd maintenanceCommands -> due_line (job_line e sp cmd) = Some (join " " (fields e), cmd).
Proof.
  intros He Hsp Happ Hc. destruct (maintenance_plain cmd Hc) as [Hc1 Hc2].
  pose proof (job_text_fields (trim_space e) sp cmd Hsp Hc1 Hc2) as Hfs.
  change (job_text (trim_space e) sp cmd) with (job_line e sp cmd) in Hfs. rewrite fields_trim_space in Hfs.
  destruct (valid_cron_fields e He) as (f0 & r & Hf & _ & Hall & Hh). unfold due_line. rewrite Hfs.
  destruct (fields e) as [|f r'] eqn:E; [done|]. injection Hf as -> ->. cbn [app]. rewrite Hh.
  change (f0 :: r ++ [sp; cmd; ">"; "/dev/null"; "2>&1"]%string)%list
    with ((f0 :: r) ++ sp :: [cmd; ">"; "/dev/null"; "2>&1"]%string)%list.
  rewrite script_index_app; [|eapply Forall_impl; [exact Hall|]; by intros ? (_ & _ & ?)|done].
  rewrite take_app_length, (lookup_app_r (f0 :: r)) by lia.
  rewrite Nat.sub_succ_l, Nat.sub_diag by done. cbn [lookup list_lookup].
  pose proof (proj1 (join_schedule e He)) as Hj. rewrite E in Hj. rewrite Hj.
  replace (0 <? Z.of_nat (length (f0 :: r))) with true by done.
  replace (mem cmd scheduledCommands) with true; [done|]. symmetry. apply mem_true.
  repeat (destruct Hc as [<-|Hc]; [vm_compute; tauto|]). destruct Hc.
Qed.

Lemma due_commands_In lines t : forall seen line expr cmd spec,
  In line lines -> due_line line = Some (expr, cmd) -> ParseCron expr = Ok spec -> Matches spec t = true ->
  In cmd seen \/ In cmd (due_commands lines t seen).
Proof.
  induction lines as [|x r IH]; intros seen line expr cmd spec Hin Hd Hp Hm; [destruct Hin|]. cbn [due_commands].
  destruct Hin as [->|Hin].
  - rewrite Hd. destruct (mem cmd seen) eqn:E; [left; by apply mem_true|]. rewrite Hp, Hm. right. by left.
  - destruct (due_line x) as [[e c]|]; [|by eapply IH].
    destruct (mem c seen); [by eapply IH|]. destruct (ParseCron e) as [sp|]; [|by eapply IH].
    destruct (Matches sp t); [|by eapply IH].
    destruct (IH (c :: seen) line expr cmd spec Hin Hd Hp Hm) as [[->|Hs]|Hs]; [right; by left|by left|right; by right].
Qed.

Lemma due_commands_sound lines t : forall seen cmd, In cmd (due_commands lines t seen) ->
  exists line expr spec, In line lines /\ due_line line = Some (expr, cmd) /\ ParseCron expr = Ok spec /\ Matches spec t = true.
Proof.
  induction lines as [|x r IH]; intros seen cmd; cbn [due_commands]; [intros []|].
  assert (Hr : forall s, In cmd (due_commands r t s) -> exists line expr spec, In line (x :: r) /\
    due_line line = Some (expr, cmd) /\ ParseCron expr = Ok spec /\ Matches spec t = true).
  { intros s H. destruct (IH s cmd H) as (l & e & sp & Hl & H'). exists l, e, sp. split; [by right|done]. }
  destruct (due_line x) as [[e c]|] eqn:Ed; [|apply Hr]. destruct (mem c seen); [apply Hr|].
  destruct (ParseCron e) as [sp|] eqn:Ep; [|apply Hr]. destruct (Matches sp t) eqn:Em; [|apply Hr].
  intros [->|H]; [|by eapply Hr]. exists x, e, sp. split; [by left|done].
Qed.

(** The words of a line that holds some are those of a line of the stored text. *)
Lemma stored_line content line : In line (split lf content) -> fields line <> [] ->
  exists line', In line' (split lf (WriteCrontab content)) /\ fields line' = fields line.
Proof.
  intros Hin Hne.
  assert (H : In (fields line) (filter (fun ws => ws <> []) (map fields (split lf (WriteCrontab content))))).
  { replace (filter (fun ws => ws <> []) (map fields (split lf (WriteCrontab content))))
      with (filter (fun ws => ws <> []) (map fields (split lf content))).
    - apply list_elem_of_In, list_elem_of_filter. split; [done|]. by apply list_elem_of_In, in_map.
    - change lf with newline. rewrite <- (fields_lines_trim content). unfold WriteCrontab.
      destruct (String.eqb_spec (trim_space content) "") as [->|_]; [done|].
      rewrite !fields_lines, to_bytes_app. unfold byte_str. rewrite to_of_bytes, line_words_right; done. }
  apply list_elem_of_In, list_elem_of_filter in H as [_ H]. apply list_elem_of_In, in_map_iff in H as (l & H1 & H2).
  by exists l.
Qed.

(** ** Lemmas: the queue *)

Lemma enqueue_spec cs : forall pending, NoDup pending ->
  NoDup (enqueue pending cs) /\ (exists more, enqueue pending cs = (pending ++ more)%list) /\
  (forall c, In c (enqueue pending cs) <-> In c pending \/ In c cs).
Proof.
  induction cs as [|x cs IH]; intros p Hp; cbn [enqueue fold_left].
  - split_and!; [done|exists []; by rewrite app_nil_r|simpl; tauto].
  - fold (enqueue (if mem x p then p else p ++ [x])%list cs). destruct (mem x p) eqn:Ex.
    + destruct (IH p Hp) as (H1 & H2 & H3). split_and!; [done|done|]. intros c. rewrite H3. apply mem_true in Ex.
      simpl. intuition (subst; auto).
    + apply mem_false in Ex. rewrite <- list_elem_of_In in Ex.
      destruct (IH (p ++ [x])%list) as (H1 & [m Hm] & H3).
      { apply NoDup_app. split_and!; [done| |by apply NoDup_singleton]. intros y Hy ->%list_elem_of_singleton. done. }
      split_and!; [done|exists (x :: m); by rewrite Hm, <- app_assoc|]. intros c. rewrite H3, in_app_iff. simpl. intuition.
Qed.

Definition queue_ok (q : queue) : Prop :=
  (q_looping q + length (q_executing q) = if q_running q then 1 else 0)%nat /\
  (q_running q = false -> q_pending q = []) /\
  NoDup (q_pending q) /\ incl (q_pending q) scheduledCommands.

Lemma qstep_ok q e q' : qstep q e q' -> queue_ok q -> queue_ok q'.
Proof.
  intros Hs (H1 & H2 & H3 & H4). destruct Hs as [q cs Hcs|q q' Ht|q c pre post He].
  - destruct (enqueue_spec cs (q_pending q) H3) as (Hn & _ & Hi). unfold arrive, queue_ok.
    assert (Hinc : incl (enqueue (q_pending q) cs) scheduledCommands) by (intros c [Hc|Hc]%Hi; auto).
    destruct (q_running q); cbn [q_looping q_executing q_running q_pending]; split_and!; try done; lia.
  - unfold take_next in Ht. destruct (q_looping q) as [|n] eqn:En; [done|]. unfold queue_ok.
    destruct (q_running q) eqn:Er; [|lia].
    destruct (q_pending q) as [|c r] eqn:Ep; injection Ht as <-;
      cbn [q_looping q_executing q_running q_pending length]; split_and!; try done; try lia.
    + apply NoDup_cons in H3. apply H3.
    + intros x Hx. apply H4. by right.
  - unfold queue_ok in *. cbn [q_looping q_executing q_running q_pending]. rewrite He, length_app in H1. cbn [length] in H1.
    rewrite length_app. split_and!; try done. lia.
Qed.

Lemma qrun_ok q es q' : qrun q es q' -> queue_ok q -> queue_ok q'.
Proof. induction 1; eauto using qstep_ok. Qed.

(** What became due so far. *)
Fixpoint arrived (es : list event) : list string :=
  match es with [] => [] | Arrive cs :: r => (cs ++ arrived r)%list | _ :: r => arrived r end.

Lemma enqueue_incl cs : forall pending, incl (enqueue pending cs) (pending ++ cs).
Proof.
  induction cs as [|x cs IH]; intros p y Hy; cbn [enqueue fold_left] in Hy; apply in_app_iff; [by left|].
  fold (enqueue (if mem x p then p else p ++ [x])%list cs) in Hy. apply IH in Hy.
  destruct (mem x p); rewrite ?in_app_iff in Hy; simpl in *; tauto.
Qed.

Lemma qrun_arrived q es q' : qrun q es q' -> forall before,
  incl (q_pending q) before -> incl (q_started q) before ->
  incl (q_pending q') (before ++ arrived es) /\ incl (q_started q') (before ++ arrived es).
Proof.
  induction 1 as [q|q e q1 es q2 Hs _ IH]; intros before Hp Hst; [cbn [arrived]; by rewrite app_nil_r|].
  destruct Hs as [q cs _|q q' Ht|q c pre post _]; cbn [arrived]; [|apply IH|by apply IH].
  - rewrite app_assoc. apply IH; unfold arrive; destruct (q_running q); cbn [q_pending q_started];
      try (by apply incl_appl); (eapply incl_tran; [apply enqueue_incl|]; apply incl_app; [by apply incl_appl|apply incl_appr, incl_refl]).
  - unfold take_next in Ht. destruct (q_looping q); [done|]. destruct (q_pending q); injection Ht as <-; [done|].
    intros x Hx. apply Hp. by right.
  - unfold take_next in Ht. destruct (q_looping q); [done|]. destruct (q_pending q); injection Ht as <-; [done|].
    apply incl_app; [done|]. intros x [<-|[]]. apply Hp. by left.
Qed.

Lemma empty_queue_ok : queue_ok empty_queue.
Proof. split_and!; [done|done|by apply NoDup_nil|intros ? []]. Qed.

(** How often a command is taken. *)
Fixpoint takes (es : list event) : nat :=
  match es with [] => 0%nat | Take :: r => S (takes r) | _ :: r => takes r end.

Lemma pending_starts q es q' : qrun q es q' -> NoDup (q_pending q) -> forall i c,
  q_pending q !! i = Some c -> (i < takes es)%nat ->
  exists new, q_started q' = (q_started q ++ new)%list /\ In c new.
Proof.
  assert (Hgrow : forall q es q', qrun q es q' -> exists new, q_started q' = (q_started q ++ new)%list).
  { clear. induction 1 as [q|q e q1 es q2 Hs _ [new IH]]; [exists []; by rewrite app_nil_r|].
    assert (exists n, q_started q1 = (q_started q ++ n)%list) as [n Hn].
    { destruct Hs as [q cs _|q q' Ht|q c pre post He].
      - exists []. rewrite app_nil_r. unfold arrive. by destruct (q_running q).
      - unfold take_next in Ht. destruct (q_looping q); [done|]. destruct (q_pending q); injection Ht as <-;
          [exists []; by rewrite app_nil_r|by eexists].
      - exists []. by rewrite app_nil_r. }
    exists (n ++ new)%list. by rewrite IH, Hn, app_assoc. }
  induction 1 as [q|q e q1 es q2 Hs Hr IH]; intros Hnd i c Hi Ht; [by apply Nat.nlt_0_r in Ht|].
  destruct Hs as [q cs Hcs|q q' Htk|q x pre post He]; cbn [takes] in Ht.
  - destruct (enqueue_spec cs (q_pending q) Hnd) as (Hn & [more Hm] & _).
    apply (IH ltac:(unfold arrive; by destruct (q_running q)) i c) in Ht.
    + unfold arrive in Ht. by destruct (q_running q).
    + unfold arrive. destruct (q_running q); cbn [q_pending]; rewrite Hm; by apply lookup_app_l_Some.
  - unfold take_next in Htk. destruct (q_looping q); [done|]. destruct (q_pending q) as [|y r] eqn:Ep; [done|].
    injection Htk as <-. destruct i as [|i].
    + cbn in Hi. injection Hi as <-. destruct (Hgrow _ _ _ Hr) as [new ->]. cbn [q_started].
      exists (y :: new). split; [by rewrite <- app_assoc|by left].
    + apply NoDup_cons in Hnd as [_ Hnd]. destruct (IH Hnd i c Hi) as (new & -> & Hin); [lia|].
      cbn [q_started]. exists (y :: new). split; [by rewrite <- app_assoc|by right].
  - by apply (IH Hnd i c).
Qed.

(** * Properties *)

(** a job saved in the scheduler form of a Docker server runs in exactly the
    minutes its schedule matches: from the stored file the command is due whenever
    the saved schedule matches, and a due command always comes from a stored line
    with a schedule that matches and an allowed command. *)
Theorem saved_job_is_due srv available crontab jobs content cmd e spec t
    (Hsp : script_path_ok (scriptPathOf srv)) (Hn : IsValidScriptName (i_Script srv) = true)
    (Hl : i_Layout srv = LayoutData)
    (Hs : SaveCronSchedule (Some srv) available (Some crontab) (Some crontab) jobs = Ok content)
    (Hj : jobs !! cmd = Some e) (He : e <> "") (Hp : ParseCron e = Ok spec) :
  (Matches spec t = true -> In cmd (due_commands (split lf (WriteCrontab content)) t [])) /\
  (forall c, In c (due_commands (split lf (WriteCrontab content)) t []) ->
    exists line expr s, In line (split lf (WriteCrontab content)) /\ due_line line = Some (expr, c) /\
      ParseCron expr = Ok s /\ Matches s t = true).
Proof.
  split; [|intros c; apply due_commands_sound]. intros Hm.
  destruct (saved_line_In _ _ _ _ _ _ _ Hsp Hn Hs Hj He) as (Hin & Hv & Hc).
  destruct (maintenance_plain cmd Hc) as [Hc1 Hc2].
  destruct (stored_line _ _ Hin) as (line & Hl1 & Hl2).
  { pose proof (job_text_fields (trim_space e) (scriptPathOf srv) cmd Hsp Hc1 Hc2) as Hf.
    change (job_text (trim_space e) (scriptPathOf srv) cmd) with (job_line e (scriptPathOf srv) cmd) in Hf.
    rewrite Hf. by destruct (fields (trim_space e)). }
  destruct (due_commands_In (split lf (WriteCrontab content)) t [] line (join " " (fields e)) cmd spec) as [[]|H];
    [done| | |done|done].
  - rewrite (due_line_fields _ _ Hl2). apply due_job_line; try done. by apply app_path.
  - by rewrite (proj2 (join_schedule e Hv)).
Qed.

(** C31: the scheduled commands of one server run one after the other: in every state
    that requests, goroutines and finishing commands can reach in any order, at most one
    command runs, only commands that became due were started, no command waits twice
    (so at most six wait), and what waits is taken as soon as the running one ends. *)
Theorem queue_one_at_a_time es q (Hr : qrun empty_queue es q) :
  (length (q_executing q) <= 1)%nat /\ incl (q_started q) (arrived es) /\
  NoDup (q_pending q) /\ (length (q_pending q) <= 6)%nat /\
  (forall c r, q_pending q = c :: r ->
    (exists q', take_next q = Some q' /\ q_executing q' = [c]) \/
    (exists x q', q_executing q = [x] /\
       take_next (mkQueue (q_running q) (q_pending q) (S (q_looping q)) [] (q_started q)) = Some q' /\
       q_executing q' = [c])).
Proof.
  destruct (qrun_ok _ _ _ Hr empty_queue_ok) as (H1 & H2 & H3 & H4).
  destruct (qrun_arrived _ _ _ Hr [] ltac:(intros ? []) ltac:(intros ? [])) as [_ Ha].
  split_and!.
  - destruct (q_running q); lia.
  - exact Ha.
  - done.
  - change 6%nat with (length scheduledCommands). apply List.NoDup_incl_length; [by apply NoDup_ListNoDup|done].
  - intros c r Hp. unfold take_next. cbn [q_looping q_pending q_running q_executing]. rewrite Hp.
    destruct (q_running q); [|by rewrite H2 in Hp].
    destruct (q_looping q) as [|n].
    + right. destruct (q_executing q) as [|x [|y l]]; try done. exists x. by eexists.
    + left. destruct (q_executing q) as [|x l]; [by eexists|]. simpl in H1. lia.
Qed.

(** No command that became due is lost: it is started within the next six
    times a command is taken, whatever becomes due or finishes in between. *)
Theorem queue_runs_every_command es q cs q1 es' q2 c (Hr : qrun empty_queue es q)
    (Ha : qstep q (Arrive cs) q1) (Hc : In c cs) (Hr' : qrun q1 es' q2) (Ht : (6 <= takes es')%nat) :
  exists new, q_started q2 = (q_started q1 ++ new)%list /\ In c new.
Proof.
  pose proof (qrun_ok _ _ _ Hr empty_queue_ok) as Hq. pose proof (qstep_ok _ _ _ Ha Hq) as (_ & _ & H3 & H4).
  assert (Hin : In c (q_pending q1)).
  { inversion Ha as [? ? _| |]; subst. destruct Hq as (_ & _ & Hn & _).
    destruct (enqueue_spec cs (q_pending q) Hn) as (_ & _ & Hi). unfold arrive.
    destruct (q_running q); apply Hi; by right. }
  apply list_elem_of_In, list_elem_of_lookup in Hin as [i Hi]. apply (pending_starts _ _ _ Hr' H3 i c Hi).
  pose proof (lookup_lt_Some _ _ _ Hi).
  pose proof (List.NoDup_incl_length (proj1 (NoDup_ListNoDup _) H3) H4) as Hlen. simpl in Hlen. lia.
Qed.

(** ** Witnesses *)

Definition docker_srv : Instance := mkInstance "vh" "" "vhserver" "/data/vh" LayoutData.

Lemma saved_job_is_due_witness :
  In "restart"%string (due_commands (split lf (WriteCrontab
    (join (byte_str lf) ["# LinuxGSM vhserver: scheduled maintenance"; "30 4 * *  1 /app/vhserver restart > /dev/null 2>&1"]%string)))
    (mkCivil 30 4 6 7 1) []).
Proof.
  refine (proj1 (saved_job_is_due docker_srv scheduleCommands "" (<["restart"%string := " 30 4 * *  1"%string]> ∅) _
    "restart" " 30 4 * *  1" (mkCronSpec (2^30) (2^4) (2^32 - 2) (2^13 - 2) 2 true false) _ _ _ eq_refl _ _ _ _) _);
    try (vm_compute; reflexivity); [split; vm_compute; reflexivity|done].
Defined.

Definition demo_events : list event :=
  [Arrive ["monitor"; "backup"]%string; Take; Arrive ["monitor"; "update"; "monitor"]%string].

Lemma demo_run : qrun empty_queue demo_events
  (mkQueue true ["backup"; "monitor"; "update"]%string 0 ["monitor"%string] ["monitor"%string]).
Proof.
  eapply run_cons; [apply step_arrive; intros x [<-|[<-|[]]]; vm_compute; tauto|].
  eapply run_cons; [apply step_take; vm_compute; reflexivity|].
  eapply run_cons; [apply step_arrive; intros x [<-|[<-|[<-|[]]]]; vm_compute; tauto|]. apply run_nil.
Qed.

Lemma queue_one_at_a_time_witness : (length ["monitor"%string] <= 1)%nat.
Proof. exact (proj1 (queue_one_at_a_time _ _ demo_run)). Defined.

Definition round (c : string) : list event := [Take; Finish c].

Lemma queue_runs_every_command_witness : exists new,
  ["monitor"; "backup"; "monitor"; "backup"; "monitor"; "backup"; "monitor"]%string = ([] ++ new)%list /\ In "backup"%string new.
Proof.
  refine (queue_runs_every_command [] empty_queue ["monitor"; "backup"]%string
    (mkQueue true ["monitor"; "backup"]%string 1 [] [])
    (concat (repeat (Take :: Finish "monitor" :: Take :: Finish "backup" :: [Arrive ["monitor"; "backup"]%string]) 3) ++ [Take])%list
    (mkQueue true ["backup"]%string 0 ["monitor"%string] _) "backup" _ _ _ _ _).
  - apply run_nil.
  - apply (step_arrive empty_queue). intros x [<-|[<-|[]]]; vm_compute; tauto.
  - right; by left.
  - assert (Hi : incl ["monitor"; "backup"]%string scheduledCommands) by (intros x [<-|[<-|[]]]; vm_compute; tauto).
    repeat (first [apply run_nil | eapply run_cons;
      [first [apply step_take; vm_compute; reflexivity | eapply (step_finish _ _ [] []); reflexivity
             | apply step_arrive, Hi]|]]).
  - vm_compute. lia.
Defined.
