(* ===== verification/GoNet.v ===== *)
(** * Addresses of the Go standard library (package net)

    [net.ParseIP] (IPv4 and IPv6, no zone), [To4], [net.SplitHostPort] and
    [net.JoinHostPort], as the proxy and the query code use them. *)

From Stdlib Require Import ZArith Lia Bool String Ascii List.
From stdpp Require Import base strings list.
From S2P Require Import Prelude GoStrings.

(** ** IP addresses *)

(** [parseIPv4Fields]: [pos] fields are done, [val] and [digits] are the value and
    length of the current one; [prev_dot] says whether a dot came just before. *)
Fixpoint ipv4_fields (l : bytes) (done : list Z) (val : Z) (digits : nat) (prev_dot : bool) : option (list Z) :=
  match l with
  | [] => if (length done <? 3)%nat then None else Some (done ++ [val])%list
  | c :: r =>
      if is_digit c then
        if (digits =? 1)%nat && (val =? 0) then None
        else let val := val * 10 + digit c in
             if val >? 255 then None else ipv4_fields r done val (S digits) false
      else if Ascii.eqb c "." then
        if prev_dot || match r with [] => true | _ => false end then None
        else if (length done =? 3)%nat then None
        else ipv4_fields r (done ++ [val])%list 0 0 true
      else None
  end.
(** A leading dot is refused like a double one. *)
Definition parse_ipv4 (l : bytes) : option (list Z) := ipv4_fields l [] 0 0 true.

Definition hex_digit (c : ascii) : option Z :=
  if is_digit c then Some (code c - 48)
  else if between 97 102 c then Some (code c - 87)
  else if between 65 70 c then Some (code c - 55)
  else None.

(** The digits of a group: its value, how many there are and the rest; more than
    four fail. *)
Fixpoint hex_group (l : bytes) (acc : Z) (off : nat) : option (Z * nat * bytes) :=
  match l with
  | [] => Some (acc, off, [])
  | c :: r =>
      match hex_digit c with
      | None => Some (acc, off, l)
      | Some d => if (3 <? off)%nat then None else hex_group r (acc * 16 + d) (S off)
      end
  end.

(** The loop of [parseIPv6]; [ip] holds the bytes so far, [ellipsis] where "::" was. *)
Fixpoint ipv6_loop (fuel : nat) (s : bytes) (ip : list Z) (ellipsis : option nat) : option (list Z * option nat) :=
  match fuel with
  | O => if match s with [] => true | _ => false end then Some (ip, ellipsis) else None
  | S fuel =>
      match hex_group s 0 0 with
      | None => None
      | Some (_, O, _) => None
      | Some (acc, _, rest) =>
          match rest with
          | "."%char :: _ =>
              if match ellipsis with None => negb (length ip =? 12)%nat | Some _ => false end then None
              else if (16 <? length ip + 4)%nat then None
              else match parse_ipv4 s with
                   | Some v4 => Some (ip ++ v4, ellipsis)%list
                   | None => None
                   end
          | [] => Some (ip ++ [acc / 256; acc mod 256], ellipsis)%list
          | ":"%char :: [] => None
          | ":"%char :: (":"%char :: rest2) =>
              let ip := (ip ++ [acc / 256; acc mod 256])%list in
              match ellipsis with
              | Some _ => None
              | None => match rest2 with
                        | [] => Some (ip, Some (length ip))
                        | _ => ipv6_loop fuel rest2 ip (Some (length ip))
                        end
              end
          | ":"%char :: rest2 => ipv6_loop fuel rest2 (ip ++ [acc / 256; acc mod 256])%list ellipsis
          | _ => None
          end
      end
  end.

(** The end of [parseIPv6]: an ellipsis stands for the missing bytes. *)
Definition ipv6_expand (r : option (list Z * option nat)) : option (list Z) :=
  match r with
  | None => None
  | Some (ip, None) => if (length ip <? 16)%nat then None else Some ip
  | Some (ip, Some e) =>
      if (length ip <? 16)%nat
      then Some (take e ip ++ repeat 0 (16 - length ip) ++ drop e ip)%list else None
  end.
Definition parse_ipv6 (s : bytes) : option (list Z) :=
  match s with
  | ":"%char :: (":"%char :: rest) =>
      match rest with [] => Some (repeat 0 16) | _ => ipv6_expand (ipv6_loop 8 rest [] (Some 0%nat)) end
  | _ => ipv6_expand (ipv6_loop 8 s [] None)
  end.

(** [net.ParseIP]: the 16 bytes; the first of '.', ':' and '%' decides the family,
    and an address with a zone is refused. *)
Definition v4_prefix : list Z := (repeat 0 10 ++ [255; 255])%list.
Fixpoint ip_family (l : bytes) : option ascii :=
  match l with
  | [] => None
  | c :: r => if one_of ".:%" c then Some c else ip_family r
  end.
Definition ParseIP (s : string) : option (list Z) :=
  match ip_family (to_bytes s) with
  | Some "."%char => option_map (app v4_prefix) (parse_ipv4 (to_bytes s))
  | Some ":"%char => if contains_byte s "%" then None else parse_ipv6 (to_bytes s)
  | _ => None
  end.

Definition list_eqb (a b : list Z) : bool := bool_decide (a = b).
Definition To4 (ip : list Z) : option (list Z) :=
  if list_eqb (take 12 ip) v4_prefix then Some (drop 12 ip) else None.

Example parse_ip_v4 : ParseIP "10.77.0.2" = Some (v4_prefix ++ [10; 77; 0; 2])%list /\
  ParseIP "10.77.0.02" = None /\ ParseIP "1.2.3" = None /\ ParseIP ".1.2.3" = None /\ ParseIP "1.2.3.4." = None.
Proof. vm_compute. tauto. Qed.
Example parse_ip_v6 : ParseIP "2001:db8::1" = Some [32; 1; 13; 184; 0; 0; 0; 0; 0; 0; 0; 0; 0; 0; 0; 1] /\
  ParseIP "::ffff:10.77.0.2" = Some (v4_prefix ++ [10; 77; 0; 2])%list /\ ParseIP "::" = Some (repeat 0 16) /\
  ParseIP "1::2::3" = None /\ ParseIP "fe80::1%eth0" = None /\ ParseIP "1:2:3:4:5:6:7:8" =
    Some [0; 1; 0; 2; 0; 3; 0; 4; 0; 5; 0; 6; 0; 7; 0; 8] /\ ParseIP "1:2:3:4:5:6:7:8:9" = None /\ ParseIP "12345::" = None.
Proof. vm_compute. tauto. Qed.

(** ** Host and port *)

Definition JoinHostPort (host port : string) : string :=
  if contains_byte host ":" then "[" +:+ host +:+ "]:" +:+ port else host +:+ ":" +:+ port.

(** Before and after the last colon. *)
Definition last_colon (l : bytes) : option (bytes * bytes) :=
  match lcut ":" (rev l) with
  | Some (after, before) => Some (rev before, rev after)
  | None => None
  end.
Definition lacks (c : ascii) (l : bytes) : bool := negb (existsb (Ascii.eqb c) l).

Definition SplitHostPort (hostport : string) : option (string * string) :=
  match last_colon (to_bytes hostport) with
  | None => None
  | Some (h, p) =>
      match h ++ ":"%char :: p with
      | "["%char :: r =>
          match lcut "]" r with
          | None => None
          | Some (host, rest) =>
              (* the first ']' is just before the last ':' *)
              if bool_decide (rest = ":"%char :: p)
                 && lacks "[" (host ++ "]"%char :: rest) && lacks "]" rest
              then Some (of_bytes host, of_bytes p) else None
          end
      | l =>
          if lacks ":" h && lacks "[" l && lacks "]" l
          then Some (of_bytes h, of_bytes p) else None
      end
  end.

Example split_host_port : SplitHostPort "example.org:51820" = Some ("example.org", "51820")%string /\
  SplitHostPort "[2001:db8::1]:80" = Some ("2001:db8::1", "80")%string /\ SplitHostPort "::1:80" = None /\
  SplitHostPort "host" = None /\ SplitHostPort "[::1]80" = None /\ SplitHostPort "[::1]:80]" = None.
Proof. vm_compute. tauto. Qed.

(** ** Lemmas *)

Lemma lacks_In c l : lacks c l = true <-> ~ In c l.
Proof.
  unfold lacks. rewrite negb_true_iff. split.
  - intros H Hin. apply not_true_iff_false in H. apply H. apply existsb_exists. exists c.
    by rewrite Ascii.eqb_refl.
  - intros H. apply not_true_iff_false. intros (x & Hx & ->%Ascii.eqb_eq)%existsb_exists. done.
Qed.

Lemma last_colon_app h p : ~ In ":"%char p -> last_colon (h ++ ":"%char :: p) = Some (h, p).
Proof.
  intros Hp. unfold last_colon. rewrite rev_app_distr. cbn [rev]. rewrite <- app_assoc. cbn [app].
  rewrite lcut_app; [by rewrite !rev_involutive|]. by rewrite <- in_rev.
Qed.

Lemma contains_byte_In s c : contains_byte s c = true <-> In c (to_bytes s).
Proof.
  unfold contains_byte, sany. rewrite existsb_exists. split.
  - by intros (x & Hx & ->%Ascii.eqb_eq).
  - intros H. exists c. by rewrite Ascii.eqb_refl.
Qed.

(** A joined host and port are split again. *)
Lemma split_join_host_port host port :
  contains_byte host "[" = false -> contains_byte host "]" = false ->
  contains_byte port ":" = false -> contains_byte port "[" = false -> contains_byte port "]" = false ->
  SplitHostPort (JoinHostPort host port) = Some (host, port).
Proof.
  rewrite !contains_byte_false. intros H1 H2 H3 H4 H5. unfold JoinHostPort, SplitHostPort.
  destruct (contains_byte host ":") eqn:Ec.
  - rewrite !to_bytes_app. change (to_bytes "]:") with ["]"%char; ":"%char]. change (to_bytes "[") with ["["%char].
    replace (["["%char] ++ to_bytes host ++ ["]"%char; ":"%char] ++ to_bytes port)%list
      with ((("["%char :: to_bytes host) ++ ["]"%char]) ++ ":"%char :: to_bytes port)%list
      by (cbn [app]; by rewrite <- !app_assoc).
    rewrite last_colon_app by done. rewrite <- app_assoc. cbn [app].
    rewrite lcut_app by done. rewrite bool_decide_true by done.
    replace (lacks "[" _) with true.
    2:{ symmetry. apply lacks_In. rewrite in_app_iff. intros [?|[?|[?|?]]]; done. }
    replace (lacks "]" _) with true by (symmetry; apply lacks_In; by intros [?|?]).
    cbn [andb]. by rewrite !of_to_bytes.
  - rewrite contains_byte_false in Ec. rewrite !to_bytes_app. change (to_bytes ":") with [":"%char].
    change ([":"%char] ++ to_bytes port)%list with (":"%char :: to_bytes port).
    rewrite last_colon_app by done.
    assert (Hl : lacks "[" (to_bytes host ++ ":"%char :: to_bytes port) = true /\
                 lacks "]" (to_bytes host ++ ":"%char :: to_bytes port) = true).
    { rewrite !lacks_In, !in_app_iff. split; intros [?|[?|?]]; done. }
    destruct Hl as [Hl1 Hl2].
    assert (Hh : lacks ":" (to_bytes host) = true) by (by apply lacks_In).
    destruct (to_bytes host ++ ":"%char :: to_bytes port)%list as [|c r] eqn:E; [by destruct (to_bytes host)|].
    assert (c <> "["%char) as Hc by (intros ->; apply lacks_In in Hl1; apply Hl1; by left).
    rewrite <- (of_to_bytes host), <- (of_to_bytes port), !to_of_bytes.
    destruct c as [[] [] [] [] [] [] [] []]; try (by rewrite Hh, Hl1, Hl2). done.
Qed.

(** ** The characters of addresses *)

Definition ip_char (c : ascii) : bool := match hex_digit c with Some _ => true | None => one_of ".:" c end.

Lemma ip_char_plain c : ip_char c = true -> plain c = true /\ code c < 128.
Proof.
  unfold ip_char, hex_digit, one_of, is_digit, between, plain, ascii_space, between.
  destruct c as [[] [] [] [] [] [] [] []]; vm_compute; by intros.
Qed.

Lemma ipv4_fields_chars l : forall done_ val n pd r, ipv4_fields l done_ val n pd = Some r -> forallb ip_char l = true.
Proof.
  induction l as [|c l IH]; intros d v n pd r H; [done|]. cbn [ipv4_fields] in H. cbn [forallb].
  unfold ip_char at 1, hex_digit. destruct (is_digit c).
  - destruct (_ && _); [done|]. destruct (_ >? 255); [done|]. by eapply IH.
  - destruct (Ascii.eqb_spec c ".") as [->|]; [|done]. destruct (_ || _); [done|]. destruct (_ =? _)%nat; [done|].
    cbn. by eapply IH.
Qed.

Lemma hex_group_chars l : forall acc off a n rest, hex_group l acc off = Some (a, n, rest) ->
  exists d, l = (d ++ rest)%list /\ forallb ip_char d = true.
Proof.
  induction l as [|c l IH]; intros acc off a n rest H; cbn [hex_group] in H.
  - exists []. split; [simpl; congruence|done].
  - destruct (hex_digit c) as [v|] eqn:E; [|exists []; split; [simpl; congruence|done]].
    destruct (3 <? off)%nat; [done|]. apply IH in H as (d & -> & Hd). exists (c :: d). split; [done|].
    cbn [forallb]. unfold ip_char at 1. by rewrite E.
Qed.

Lemma ipv6_loop_chars fuel : forall s ip e r, ipv6_loop fuel s ip e = Some r -> forallb ip_char s = true.
Proof.
  induction fuel as [|fuel IH]; intros s ip e r H; cbn [ipv6_loop] in H; [by destruct s|].
  destruct (hex_group s 0 0) as [[[acc off] rest]|] eqn:E; [|done].
  pose proof (hex_group_chars _ _ _ _ _ _ E) as (d & Hs & Hd). destruct off as [|off]; [done|].
  assert (Hr : forallb ip_char rest = true -> forallb ip_char s = true).
  { intros Hr. by rewrite Hs, forallb_app, Hd, Hr. }
  destruct rest as [|c rest]; [by apply Hr|].
  destruct (Ascii.eqb_spec c ".") as [->|Hdot].
  - destruct (match e with None => _ | Some _ => _ end); [done|]. destruct (16 <? _)%nat; [done|].
    destruct (parse_ipv4 s) eqn:E4; [|done]. by eapply ipv4_fields_chars.
  - destruct (Ascii.eqb_spec c ":") as [->|Hcol].
    + apply Hr. cbn [forallb]. change (ip_char ":") with true. cbn [andb].
      destruct rest as [|c2 rest2]; [done|]. destruct (Ascii.eqb_spec c2 ":") as [->|Hc2].
      * cbn [forallb]. change (ip_char ":") with true. cbn [andb]. destruct e; [done|].
        destruct rest2 as [|c3 r3]; [done|]. by eapply IH.
      * apply (IH _ (ip ++ [acc / 256; acc mod 256])%list e r).
        destruct c2 as [[] [] [] [] [] [] [] []]; try exact H. by destruct Hc2.
    + exfalso. destruct c as [[] [] [] [] [] [] [] []]; try discriminate H; by (destruct Hdot || destruct Hcol).
Qed.

Lemma parse_ipv6_chars s r : parse_ipv6 s = Some r -> forallb ip_char s = true.
Proof.
  unfold parse_ipv6.
  assert (Hfin : forall x, ipv6_expand x = Some r -> is_Some x) by (intros [[ip e]|]; [done|discriminate]).
  assert (Hloop : forall t e, ipv6_expand (ipv6_loop 8 t [] e) = Some r -> forallb ip_char t = true).
  { intros t e H. apply Hfin in H as [x Hx]. by eapply ipv6_loop_chars. }
  destruct s as [|c s]; [intros H; by apply Hloop in H|].
  destruct (Ascii.eqb_spec c ":") as [->|Hc].
  - destruct s as [|c2 s]; [intros H; by apply Hloop in H|].
    destruct (Ascii.eqb_spec c2 ":") as [->|Hc2].
    + cbn [forallb]. change (ip_char ":") with true. cbn [andb]. destruct s; [done|apply Hloop].
    + intros H. apply (Hloop _ None). destruct c2 as [[] [] [] [] [] [] [] []]; try exact H. by destruct Hc2.
  - intros H. apply (Hloop _ None). destruct c as [[] [] [] [] [] [] [] []]; try exact H. by destruct Hc.
Qed.

Lemma parse_ip_chars s r : ParseIP s = Some r -> sall ip_char s = true.
Proof.
  unfold ParseIP, sall. destruct (ip_family (to_bytes s)) as [c|]; [|done].
  destruct (Ascii.eqb_spec c ".") as [->|H1].
  - intros H. destruct (parse_ipv4 (to_bytes s)) eqn:E; [|done]. by eapply ipv4_fields_chars.
  - destruct (Ascii.eqb_spec c ":") as [->|H2].
    + destruct (contains_byte s "%"); [done|]. apply parse_ipv6_chars.
    + intros H. exfalso. destruct c as [[] [] [] [] [] [] [] []]; try discriminate H; by (destruct H1 || destruct H2).
Qed.

Lemma ip_plain s r : ParseIP s = Some r -> sall plain s = true.
Proof. intros H%parse_ip_chars. apply (sall_impl ip_char); [|done]. intros c Hc. by apply ip_char_plain. Qed.

(** A host and port that split again are the text they were split from. *)
Lemma split_host_port_chars hp host port (f : ascii -> bool) :
  SplitHostPort hp = Some (host, port) -> f ":"%char = true -> f "["%char = true -> f "]"%char = true ->
  sall f host = true -> sall f port = true -> sall f hp = true.
Proof.
  unfold SplitHostPort. destruct (last_colon (to_bytes hp)) as [[h p]|] eqn:E; [|done].
  assert (Hhp : to_bytes hp = (h ++ ":"%char :: p)%list).
  { unfold last_colon in E. destruct (lcut ":" (rev (to_bytes hp))) as [[a b]|] eqn:Ec; [|done].
    apply lcut_some in Ec as [Ec _]. apply (f_equal (@rev ascii)) in Ec. rewrite rev_involutive, rev_app_distr in Ec.
    cbn [rev] in Ec. rewrite <- app_assoc in Ec. cbn [app] in Ec.
    assert (h = rev b /\ p = rev a) as [-> ->] by (split; congruence). done. }
  intros H Hc Ho Hcl Hh Hp. unfold sall. rewrite Hhp.
  assert (Hplain : forall b : bool, (if b
    then Some (of_bytes h, of_bytes p) else None) = Some (host, port) -> forallb f (h ++ ":"%char :: p) = true).
  { intros []; [|discriminate]. intros Heq.
    assert (of_bytes h = host /\ of_bytes p = port) as [<- <-] by (split; congruence).
    rewrite sall_of_bytes in Hh, Hp. rewrite forallb_app. cbn [forallb].
    by rewrite Hh, Hc, Hp. }
  destruct (h ++ ":"%char :: p)%list as [|c r] eqn:El; [by destruct h|].
  destruct (Ascii.eqb_spec c "[") as [->|Hne].
  - destruct (lcut "]" r) as [[a b]|] eqn:Ec; [|discriminate H]. apply lcut_some in Ec as [-> _].
    destruct (bool_decide (b = ":"%char :: p)) eqn:Eb; [|discriminate H]. apply bool_decide_eq_true in Eb as ->.
    destruct (_ && _); [|discriminate H]. assert (of_bytes a = host /\ of_bytes p = port) as [<- <-] by (split; congruence).
    rewrite sall_of_bytes in Hh, Hp. cbn [forallb]. rewrite Ho, forallb_app, Hh. cbn [forallb]. by rewrite Hcl, Hc, Hp.
  - eapply Hplain. destruct c as [[] [] [] [] [] [] [] []]; try exact H. by destruct Hne.
Qed.
