(* ===== verification/ProxyRules.v ===== *)
(** * Plans of the game traffic proxy (backend/proxy_rules.go)

    A plan says which game ports a proxy machine forwards to which node, or how a
    node connects to its proxy.  It ends up in firewall rules and a WireGuard
    configuration run as root, so machines validate it.  This file models the
    plan, its validation, the port sets of the rules and the rendered WireGuard
    configuration; it proves what a valid plan guarantees and that the rendered
    configuration is read back as exactly the plan. *)

From Stdlib Require Import ZArith Lia Bool String Ascii List Sorting.
From stdpp Require Import base strings list gmap.
From S2P Require Import Prelude GoStrings Crypto Validate GoNet Cfg.

Definition proxyDefaultPort : Z := 51820.
Definition proxyNodePort : Z := 51821.
Definition proxyProxyIP : string := "10.77.0.1".
Definition proxyTunnelMark : string := "0x78".

Record ProxyForward := mkForward { Port : Z; Protocol : string }.
Record ProxyPeer := mkPeer {
  p_PublicKey : string; p_TunnelIP : string; p_Forwards : list ProxyForward;
  p_PresharedKey : string; p_Egress : bool }.
Record ProxySide := mkProxySide { ListenPort : Z; Peers : list ProxyPeer }.
Record NodeSide := mkNodeSide {
  n_TunnelIP : string; n_ProxyPublicKey : string; n_Endpoint : string; n_Forwards : list ProxyForward;
  n_TargetIP : string; n_PresharedKey : string; n_EgressUsers : list string }.
Record ProxyPlan := mkPlan { Proxy : option ProxySide; Node : option NodeSide }.

#[global] Instance forward_eq_dec : EqDecision ProxyForward.
Proof. solve_decision. Defined.

Definition Empty (p : ProxyPlan) : bool :=
  match Proxy p, Node p with None, None => true | _, _ => false end.

Definition proxyReservedPorts : list Z := [22; 53; 80; 443; 8080; proxyDefaultPort; proxyNodePort].

(** [`^[A-Za-z0-9]([A-Za-z0-9.-]{0,251}[A-Za-z0-9])?$`] *)
Definition reProxyHost (s : string) : bool :=
  match to_bytes s with
  | [] => false
  | [c] => is_alnum c
  | c :: r =>
      is_alnum c && forallb (fun x => is_alnum x || one_of ".-" x) r && is_alnum (List.last r " "%char)
      && (length r <=? 252)%nat
  end.

Definition validProxyKey (key : string) : bool :=
  match base64_std_decode key with Some raw => (length raw =? 32)%nat | None => false end.

Definition validTunnelIP (ip : string) : bool :=
  match ParseIP ip with
  | None => false
  | Some parsed =>
      match To4 parsed with
      | None => false
      | Some b =>
          negb (String.eqb ip proxyProxyIP) &&
          match b with
          | [a; b; c; d] => (a =? 10) && (b =? 77) && (c =? 0) && (2 <=? d) && (d <=? 254)
          | _ => false
          end
      end
  end.

Inductive proxy_error :=
| NoPorts | TooManyPorts | BadProtocol (p : string) | BadPort (p : Z) | ReservedPort (p : Z) | PortTwice (key : string)
| BadEndpoint | BadEndpointPort | BadEndpointHost
| TwoSides | BadListenPort | NoPeers | BadPeerKey | BadPeerIP | BadPeerPSK
| BadTunnelIP | BadProxyKey | BadTargetIP | BadPSK | BadEgressUser (name : string).

Definition forward_key (f : ProxyForward) : string := Protocol f +:+ "/" +:+ itoa (Port f).

Fixpoint check_forwards (forwards : list ProxyForward) (listenPort : Z) (seen : list string) : option proxy_error :=
  match forwards with
  | [] => None
  | f :: r =>
      if negb (mem (Protocol f) ["udp"; "tcp"]%string) then Some (BadProtocol (Protocol f))
      else if (Port f <? 1024) || (Port f >? 65535) then Some (BadPort (Port f))
      else if existsb (Z.eqb (Port f)) proxyReservedPorts || (Port f =? listenPort) then Some (ReservedPort (Port f))
      else if mem (forward_key f) seen then Some (PortTwice (forward_key f))
      else check_forwards r listenPort (forward_key f :: seen)
  end.
Definition ValidateProxyForwards (forwards : list ProxyForward) (listenPort : Z) : option proxy_error :=
  if (length forwards =? 0)%nat then Some NoPorts
  else if (64 <? length forwards)%nat then Some TooManyPorts
  else check_forwards forwards listenPort [].

Definition ValidateProxyEndpoint (endpoint : string) : option proxy_error :=
  match SplitHostPort endpoint with
  | None => Some BadEndpoint
  | Some (host, port) =>
      match atoi port with
      | Some p =>
          if (p <? 1) || (p >? 65535) then Some BadEndpointPort
          else if match ParseIP host with Some _ => false | None => negb (reProxyHost host) end
          then Some BadEndpointHost else None
      | None => Some BadEndpointPort
      end
  end.

Fixpoint validateEgressUsers (users : list string) : option proxy_error :=
  match users with
  | [] => None
  | name :: r =>
      if negb (IsValidLinuxUsername name) || String.eqb name "root" then Some (BadEgressUser name)
      else validateEgressUsers r
  end.

(** The loop over the peers: the error, or all forwards. *)
Fixpoint check_peers (peers : list ProxyPeer) (seen : list string) : result proxy_error (list ProxyForward) :=
  match peers with
  | [] => Ok []
  | peer :: r =>
      if negb (validProxyKey (p_PublicKey peer)) then Err BadPeerKey
      else if negb (validTunnelIP (p_TunnelIP peer)) || mem (p_TunnelIP peer) seen then Err BadPeerIP
      else if negb (String.eqb (p_PresharedKey peer) "") && negb (validProxyKey (p_PresharedKey peer)) then Err BadPeerPSK
      else
        let? all := check_peers r (p_TunnelIP peer :: seen) in
        Ok (p_Forwards peer ++ all)%list
  end.

Definition validate_proxy_side (s : ProxySide) : option proxy_error :=
  if (ListenPort s <? 1024) || (ListenPort s >? 65535) then Some BadListenPort
  else if (length (Peers s) =? 0)%nat then Some NoPeers
  else match check_peers (Peers s) [] with
  | Err e => Some e
  | Ok all => ValidateProxyForwards all (ListenPort s)
  end.

Definition or_else (a b : option proxy_error) : option proxy_error :=
  match a with Some e => Some e | None => b end.

Definition validate_node_side (s : NodeSide) : option proxy_error :=
  if negb (validTunnelIP (n_TunnelIP s)) then Some BadTunnelIP
  else if negb (validProxyKey (n_ProxyPublicKey s)) then Some BadProxyKey
  else or_else (ValidateProxyEndpoint (n_Endpoint s))
    (or_else (ValidateProxyForwards (n_Forwards s) 0)
      (if negb (String.eqb (n_TargetIP s) "") && match ParseIP (n_TargetIP s) with None => true | _ => false end
       then Some BadTargetIP
       else if negb (String.eqb (n_PresharedKey s) "") && negb (validProxyKey (n_PresharedKey s)) then Some BadPSK
       else validateEgressUsers (n_EgressUsers s))).

Definition Validate (p : ProxyPlan) : option proxy_error :=
  if match Proxy p, Node p with Some _, Some _ => true | _, _ => false end then Some TwoSides
  else or_else (match Proxy p with Some s => validate_proxy_side s | None => None end)
               (match Node p with Some s => validate_node_side s | None => None end).

(** ** Rendering *)

(** [sort.Ints] *)
Fixpoint insert_int (x : Z) (l : list Z) : list Z :=
  match l with [] => [x] | y :: r => if x <=? y then x :: l else y :: insert_int x r end.
Definition sort_ints (l : list Z) : list Z := fold_right insert_int [] l.

Definition ports_of (forwards : list ProxyForward) (protocol : string) : list Z :=
  map Port (filter (fun f => Protocol f = protocol) forwards).

Definition portSet (forwards : list ProxyForward) (protocol : string) : string :=
  match ports_of forwards protocol with
  | [] => ""
  | ports => "{ " +:+ join ", " (map itoa (sort_ints ports)) +:+ " }"
  end.

Definition peer_lines (peer : ProxyPeer) : list string :=
  ([""; "[Peer]"; "PublicKey = " +:+ p_PublicKey peer; "AllowedIPs = " +:+ p_TunnelIP peer +:+ "/32"]%string ++
   (if String.eqb (p_PresharedKey peer) "" then [] else ["PresharedKey = " +:+ p_PresharedKey peer]))%list.

(** The lines of [renderWGConfig], each written with a line feed. *)
Definition wg_lines (plan : ProxyPlan) (privateKey : string) : list string :=
  (["[Interface]"; "PrivateKey = " +:+ privateKey]%string ++
   match Proxy plan with
   | Some s => ("ListenPort = " +:+ itoa (ListenPort s)) :: flat_map peer_lines (Peers s)
   | None => []
   end ++
   match Node plan with
   | Some s =>
       (["ListenPort = " +:+ itoa proxyNodePort; "FwMark = " +:+ proxyTunnelMark;
         ""; "[Peer]"; "PublicKey = " +:+ n_ProxyPublicKey s; "Endpoint = " +:+ n_Endpoint s;
         "AllowedIPs = 0.0.0.0/0"; "PersistentKeepalive = 25"]%string ++
        (if String.eqb (n_PresharedKey s) "" then [] else ["PresharedKey = " +:+ n_PresharedKey s]))%list
   | None => []
   end)%list.
Definition renderWGConfig (plan : ProxyPlan) (privateKey : string) : string :=
  fold_right (fun l acc => l +:+ byte_str newline +:+ acc) "" (wg_lines plan privateKey).

(** ** The configuration as wg(8) documents it: sections of "Key = Value" lines *)

Definition section : Type := string * list (string * string).
Definition add_line (acc : list section) (line : string) : option (list section) :=
  let t := trim_space line in
  if String.eqb t "" then Some acc
  else if has_prefix t "[" then Some ((t, []) :: acc)
  else match cut "=" t, acc with
  | Some (k, v), (name, kvs) :: r => Some ((name, kvs ++ [(trim_space k, trim_space v)])%list :: r)
  | _, _ => None
  end.
Fixpoint parse_wg_lines (lines : list string) (acc : list section) : option (list section) :=
  match lines with
  | [] => Some (rev acc)
  | l :: r => match add_line acc l with Some acc => parse_wg_lines r acc | None => None end
  end.
Definition parse_wg (text : string) : option (list section) := parse_wg_lines (split newline text) [].

(** What a plan asks of WireGuard. *)
Definition optional_psk (psk : string) : list (string * string) :=
  if String.eqb psk "" then [] else [("PresharedKey", psk)]%string.
Definition wg_sections (plan : ProxyPlan) (privateKey : string) : list section :=
  match Proxy plan, Node plan with
  | Some s, None =>
      ("[Interface]", [("PrivateKey", privateKey); ("ListenPort", itoa (ListenPort s))])%string ::
      map (fun p => ("[Peer]"%string, [("PublicKey", p_PublicKey p); ("AllowedIPs", p_TunnelIP p +:+ "/32")]%string
        ++ optional_psk (p_PresharedKey p))%list) (Peers s)
  | None, Some s =>
      [("[Interface]"%string, [("PrivateKey", privateKey); ("ListenPort", itoa proxyNodePort); ("FwMark", proxyTunnelMark)]%string);
       ("[Peer]"%string, [("PublicKey", n_ProxyPublicKey s); ("Endpoint", n_Endpoint s); ("AllowedIPs", "0.0.0.0/0");
         ("PersistentKeepalive", "25")]%string ++ optional_psk (n_PresharedKey s))%list]
  | _, _ => [("[Interface]", [("PrivateKey", privateKey)])]%string
  end.

Definition demo_key : string := "AAAAAAAAAAAAAAAAAAAAAAAAAAAAAAAAAAAAAAAAAAA=".
Definition demo_plan : ProxyPlan := mkPlan (Some (mkProxySide 51820
  [mkPeer demo_key "10.77.0.2" [mkForward 27015 "udp"; mkForward 2456 "udp"] demo_key false;
   mkPeer demo_key "10.77.0.3" [mkForward 27016 "udp"; mkForward 27015 "tcp"] "" true])) None.

Example demo_plan_valid : Validate demo_plan = None. Proof. vm_compute. reflexivity. Qed.
Example demo_port_set : portSet [mkForward 27015 "udp"; mkForward 2456 "udp"; mkForward 80 "tcp"] "udp" = "{ 2456, 27015 }".
Proof. vm_compute. reflexivity. Qed.
Example demo_wg : parse_wg (renderWGConfig demo_plan demo_key) = Some (wg_sections demo_plan demo_key).
Proof. vm_compute. reflexivity. Qed.

(** ** Lemmas: validation *)

Definition forward_ok (listenPort : Z) (f : ProxyForward) : Prop :=
  (Protocol f = "udp" \/ Protocol f = "tcp") /\ 1024 <= Port f <= 65535 /\
  ~ In (Port f) proxyReservedPorts /\ Port f <> listenPort.

(** What a list of forwards has to be: at most 64 different, unreserved game ports. *)
Definition forwards_ok (forwards : list ProxyForward) (listenPort : Z) : Prop :=
  (1 <= length forwards <= 64)%nat /\ Forall (forward_ok listenPort) forwards /\ NoDup forwards.

Lemma forward_key_inj lp lp' f g :
  forward_ok lp f -> forward_ok lp' g -> forward_key f = forward_key g -> f = g.
Proof.
  intros (Hf & Hp & _) (Hg & Hq & _) H. destruct f as [p a], g as [q b]. cbn in *. unfold forward_key in H. cbn in H.
  apply (f_equal to_bytes) in H. rewrite !to_bytes_app in H.
  assert (Hab : a = b /\ itoa p = itoa q).
  { destruct Hf as [-> | ->], Hg as [-> | ->]; cbn in H; try discriminate; split; try done;
      apply to_bytes_inj; congruence. }
  destruct Hab as [-> Hi]. f_equal. apply itoa_inj in Hi; [done|unfold int64_max; lia..].
Qed.

Lemma check_forwards_iff lp fs : forall seen (done_ : list ProxyForward),
  Forall (forward_ok lp) done_ -> seen = map forward_key done_ -> NoDup done_ ->
  check_forwards fs lp seen = None <-> Forall (forward_ok lp) fs /\ NoDup fs /\ (forall f, In f fs -> ~ In f done_).
Proof.
  induction fs as [|f r IH]; intros seen d Hd -> Hnd; cbn [check_forwards].
  - split; [intros _; split_and!; [done|by apply NoDup_nil|intros ? []]|done].
  - assert (Hok : forward_ok lp f <-> negb (mem (Protocol f) ["udp"; "tcp"]%string) = false /\
      (Port f <? 1024) || (Port f >? 65535) = false /\
      existsb (Z.eqb (Port f)) proxyReservedPorts || (Port f =? lp) = false).
    { unfold forward_ok. rewrite negb_false_iff, mem_true, !orb_false_iff, Z.eqb_neq.
      assert (He : existsb (Z.eqb (Port f)) proxyReservedPorts = false <-> ~ In (Port f) proxyReservedPorts).
      { rewrite <- not_true_iff_false, existsb_exists. split; intros H Hx; apply H.
        - exists (Port f). by rewrite Z.eqb_refl.
        - destruct Hx as (x & Hx & ->%Z.eqb_eq). done. }
      rewrite He. simpl (In (Protocol f) _). intuition (try lia; auto). }
    split.
    + intros H. destruct (negb _) eqn:E1; [done|]. destruct (_ || _) eqn:E2 in H; [done|].
      destruct (_ || (Port f =? lp)) eqn:E3 in H; [done|]. destruct (mem _ _) eqn:E4 in H; [done|].
      assert (Hf : forward_ok lp f) by (by apply Hok). apply mem_false in E4.
      assert (Hni : ~ In f d) by (intros Hi; by apply E4, in_map).
      apply (IH _ (f :: d)) in H as (H1 & H2 & H3); [|by constructor|done|].
      * split_and!; [by constructor| |].
        -- apply NoDup_cons. split; [|done]. intros Hi%list_elem_of_In. apply (H3 f Hi). by left.
        -- intros g [<-|Hg]; [done|]. intros Hgd. apply (H3 g Hg). by right.
      * apply NoDup_cons. split; [|done]. by rewrite list_elem_of_In.
    + intros (H1 & H2 & H3). inversion_clear H1 as [|? ? Hf Hr]. apply Hok in Hf as Hf'.
      destruct Hf' as (-> & -> & ->). apply NoDup_cons in H2 as [Hni H2].
      destruct (mem (forward_key f) (map forward_key d)) eqn:E4.
      * exfalso. apply mem_true, in_map_iff in E4 as (g & Hg & Hgd). rewrite Forall_forall in Hd.
        apply (forward_key_inj lp lp) in Hg; [|by apply Hd, list_elem_of_In|done]. subst g.
        apply (H3 f); [by left|done].
      * apply mem_false in E4. assert (Hnd' : ~ In f d) by (intros Hi; by apply E4, in_map).
        apply (IH _ (f :: d)); [by constructor|done| |].
        -- apply NoDup_cons. split; [|done]. by rewrite list_elem_of_In.
        -- split_and!; [done|done|]. intros g Hg [->|Hgd]; [by apply Hni, list_elem_of_In|].
           apply (H3 g); [by right|done].
Qed.

Lemma validate_forwards_iff fs lp : ValidateProxyForwards fs lp = None <-> forwards_ok fs lp.
Proof.
  unfold ValidateProxyForwards, forwards_ok.
  pose proof (check_forwards_iff lp fs [] [] ltac:(constructor) eq_refl ltac:(by apply NoDup_nil)) as H.
  destruct (length fs =? 0)%nat eqn:E0; [apply Nat.eqb_eq in E0; split; [done|lia]|].
  apply Nat.eqb_neq in E0. destruct (64 <? length fs)%nat eqn:E1.
  - apply Nat.ltb_lt in E1. split; [done|lia].
  - apply Nat.ltb_ge in E1. rewrite H. split; [intros (? & ? & _); split_and!; try done; lia|].
    intros (_ & ? & ?). split_and!; try done. by intros ? ? [].
Qed.

Definition peer_ok (p : ProxyPeer) : Prop :=
  validProxyKey (p_PublicKey p) = true /\ validTunnelIP (p_TunnelIP p) = true /\
  (p_PresharedKey p = "" \/ validProxyKey (p_PresharedKey p) = true).

Lemma check_peers_iff peers : forall seen all,
  check_peers peers seen = Ok all <->
  Forall peer_ok peers /\ NoDup (map p_TunnelIP peers) /\
  (forall ip, In ip (map p_TunnelIP peers) -> ~ In ip seen) /\ all = flat_map p_Forwards peers.
Proof.
  induction peers as [|p r IH]; intros seen all; cbn [check_peers map flat_map].
  - split; [intros H; split_and!; [done|by apply NoDup_nil|intros ? []|congruence]|by intros (_ & _ & _ & ->)].
  - assert (Hok : peer_ok p <-> negb (validProxyKey (p_PublicKey p)) = false /\ negb (validTunnelIP (p_TunnelIP p)) = false /\
      negb (String.eqb (p_PresharedKey p) "") && negb (validProxyKey (p_PresharedKey p)) = false).
    { unfold peer_ok. rewrite andb_false_iff, !negb_false_iff, String.eqb_eq. done. }
    split.
    + intros H. destruct (negb (validProxyKey (p_PublicKey p))) eqn:E1; [done|].
      destruct (negb (validTunnelIP (p_TunnelIP p)) || mem (p_TunnelIP p) seen) eqn:E2; [done|].
      apply orb_false_iff in E2 as [E2 E3]. destruct (_ && _) eqn:E4; [done|].
      destruct (check_peers r (p_TunnelIP p :: seen)) as [rest|] eqn:Er; [|done].
      apply IH in Er as (H1 & H2 & H3 & ->). apply mem_false in E3. split_and!.
      * constructor; [by apply Hok|done].
      * apply NoDup_cons. split; [|done]. intros Hi%list_elem_of_In. apply (H3 _ Hi). by left.
      * intros ip [<-|Hi]; [done|]. intros Hs. apply (H3 _ Hi). by right.
      * congruence.
    + intros (H1 & H2 & H3 & ->). inversion_clear H1 as [|? ? Hp Hr]. apply Hok in Hp as (-> & -> & ->).
      apply NoDup_cons in H2 as [Hni H2].
      assert (E3 : mem (p_TunnelIP p) seen = false) by (apply mem_false, H3; by left). rewrite E3. cbn [orb].
      assert (Er : check_peers r (p_TunnelIP p :: seen) = Ok (flat_map p_Forwards r)).
      { apply IH. split_and!; try done. intros ip Hi [<-|Hs]; [by apply Hni, list_elem_of_In|]. apply (H3 ip); [by right|done]. }
      by rewrite Er.
Qed.

(** What a machine may be asked to do. *)
Definition proxy_side_ok (s : ProxySide) : Prop :=
  1024 <= ListenPort s <= 65535 /\ Peers s <> [] /\ Forall peer_ok (Peers s) /\
  NoDup (map p_TunnelIP (Peers s)) /\ forwards_ok (flat_map p_Forwards (Peers s)) (ListenPort s).
Definition egress_ok (users : list string) : Prop :=
  Forall (fun u => IsValidLinuxUsername u = true /\ u <> "root"%string) users.
Definition node_side_ok (s : NodeSide) : Prop :=
  validTunnelIP (n_TunnelIP s) = true /\ validProxyKey (n_ProxyPublicKey s) = true /\
  ValidateProxyEndpoint (n_Endpoint s) = None /\ forwards_ok (n_Forwards s) 0 /\
  (n_TargetIP s = "" \/ is_Some (ParseIP (n_TargetIP s))) /\
  (n_PresharedKey s = "" \/ validProxyKey (n_PresharedKey s) = true) /\ egress_ok (n_EgressUsers s).
Definition plan_ok (p : ProxyPlan) : Prop :=
  match Proxy p, Node p with
  | Some s, None => proxy_side_ok s
  | None, Some s => node_side_ok s
  | None, None => True
  | Some _, Some _ => False
  end.

Lemma validate_proxy_side_iff s : validate_proxy_side s = None <-> proxy_side_ok s.
Proof.
  unfold validate_proxy_side, proxy_side_ok.
  destruct ((ListenPort s <? 1024) || (ListenPort s >? 65535)) eqn:E1; [split; [done|lia]|].
  destruct (length (Peers s) =? 0)%nat eqn:E2.
  { apply Nat.eqb_eq in E2. split; [done|]. intros (_ & H & _). destruct H. by apply length_zero_iff_nil. }
  apply Nat.eqb_neq in E2. pose proof (check_peers_iff (Peers s) []) as H.
  destruct (check_peers (Peers s) []) as [all|e].
  - destruct (proj1 (H all) eq_refl) as (H1 & H2 & _ & ->). rewrite validate_forwards_iff.
    split; [intros Hf; split_and!; try done; try lia; intros E; by rewrite E in E2|tauto].
  - split; [done|]. intros (_ & _ & H1 & H2 & _). exfalso.
    assert (Hd : Err e = Ok (flat_map p_Forwards (Peers s))); [|discriminate Hd].
    apply H. split_and!; try done. by intros ? ? [].
Qed.

Lemma validate_egress_iff users : validateEgressUsers users = None <-> egress_ok users.
Proof.
  induction users as [|u r IH]; cbn [validateEgressUsers]; [by split; [constructor|]|].
  unfold egress_ok in *. rewrite Forall_cons, <- IH. destruct (IsValidLinuxUsername u), (String.eqb_spec u "root"); cbn; intuition congruence.
Qed.

Lemma or_else_none a b : or_else a b = None <-> a = None /\ b = None.
Proof. destruct a; cbn; [split; [done|by intros [? _]]|tauto]. Qed.

Lemma validate_node_side_iff s : validate_node_side s = None <-> node_side_ok s.
Proof.
  unfold validate_node_side, node_side_ok.
  destruct (validTunnelIP (n_TunnelIP s)); cbn [negb]; [|split; [done|by intros [? _]]].
  destruct (validProxyKey (n_ProxyPublicKey s)); cbn [negb]; [|split; [done|by intros (_ & ? & _)]].
  rewrite !or_else_none, validate_forwards_iff, <- validate_egress_iff.
  destruct (String.eqb_spec (n_TargetIP s) "") as [Ht|Ht]; cbn [negb andb].
  - destruct (String.eqb_spec (n_PresharedKey s) "") as [Hk|Hk]; cbn [negb andb]; [tauto|].
    destruct (validProxyKey (n_PresharedKey s)); cbn [negb]; [tauto|]. split; [by intros (_ & _ & ?)|].
    by intros (_ & _ & _ & _ & _ & [?|?] & _).
  - destruct (ParseIP (n_TargetIP s)).
    + assert (is_Some (Some l)) by done. destruct (String.eqb_spec (n_PresharedKey s) "") as [Hk|Hk]; cbn [negb andb]; [tauto|].
      destruct (validProxyKey (n_PresharedKey s)); cbn [negb]; [tauto|]. split; [by intros (_ & _ & ?)|].
      by intros (_ & _ & _ & _ & _ & [?|?] & _).
    + split; [by intros (_ & _ & ?)|]. by intros (_ & _ & _ & _ & [?|[? ?]] & _).
Qed.

Lemma validate_iff p : Validate p = None <-> plan_ok p.
Proof.
  unfold Validate, plan_ok. destruct (Proxy p) as [s|], (Node p) as [n|]; cbn [or_else].
  - done.
  - rewrite or_else_none, validate_proxy_side_iff. tauto.
  - apply validate_node_side_iff.
  - done.
Qed.

(** ** Lemmas: reading the rendered configuration *)

Lemma plain_ends s : s <> "" -> sall plain s = true -> exists c l, to_bytes s = (l ++ [c])%list /\ plain c = true /\ forallb plain l = true.
Proof.
  intros Hne Hs. destruct (List.rev (to_bytes s)) as [|c r] eqn:E.
  - exfalso. apply Hne, to_bytes_nil. by rewrite <- (rev_involutive (to_bytes s)), E.
  - assert (Hb : to_bytes s = (rev r ++ [c])%list) by (by rewrite <- (rev_involutive (to_bytes s)), E).
    exists c, (rev r). split; [done|]. unfold sall in Hs. rewrite Hb, forallb_app in Hs. cbn in Hs.
    rewrite andb_true_r in Hs. by apply andb_true_iff in Hs as [? ?].
Qed.

(** A text that starts and ends with plain characters is already trimmed. *)
Lemma trim_text p s : s <> "" -> sall plain s = true -> plain p = true ->
  forall mid, trim_space (of_bytes (p :: mid ++ to_bytes s)) = of_bytes (p :: mid ++ to_bytes s).
Proof.
  intros Hne Hs Hp mid. destruct (plain_ends s Hne Hs) as (c & l & -> & Hc & _).
  unfold trim_space. rewrite to_of_bytes, app_assoc, trim_space_plain by done. done.
Qed.

Lemma trim_after_space s : s <> "" -> sall plain s = true -> trim_space (" " +:+ s) = s.
Proof.
  intros Hne Hs. unfold trim_space. rewrite to_bytes_app. change (to_bytes " ") with [" "%char].
  unfold ltrim_space. cbn [app ltrim]. change (space_width (" "%char :: to_bytes s)) with 1%nat. cbn [ltrim].
  destruct (to_bytes s) as [|x r] eqn:E; [by apply to_bytes_nil in E|].
  assert (Hx : plain x = true).
  { unfold sall in Hs. rewrite E in Hs. cbn in Hs. by apply andb_true_iff in Hs as [? _]. }
  destruct (plain_ends s Hne Hs) as (c & l & Hcl & Hc & Hl).
  assert (Hid : ltrim_space (to_bytes s) = to_bytes s).
  { rewrite Hcl. destruct l as [|y l].
    - cbn [app]. unfold ltrim_space. rewrite ltrim_no_space by (by apply space_width_plain).
      cbn [rev app]. rewrite ltrim_done; [done|]. unfold space_width_rev. cbn [take rev app].
      by rewrite !(space_width_plain c) by done.
    - cbn [app]. rewrite trim_space_plain; [done| |done]. cbn in Hl. by apply andb_true_iff in Hl as [? _]. }
  rewrite E in Hid. unfold ltrim_space in Hid. rewrite (ltrim_no_space (x :: r)) in Hid by (by apply space_width_plain).
  rewrite (ltrim_done _ (x :: r)) by (by apply space_width_plain). rewrite Hid, <- E. apply of_to_bytes.
Qed.

(** A key of the configuration. *)
Definition wg_key (k : string) : bool :=
  match to_bytes k with c :: r => plain c && negb (Ascii.eqb c "[") && forallb (fun x => negb (Ascii.eqb x "=")) (c :: r) | [] => false end
  && String.eqb (trim_space (k +:+ " ")) k.

Lemma add_key_value k v name kvs r : wg_key k = true -> v <> "" -> sall plain v = true ->
  add_line ((name, kvs) :: r) (k +:+ " = " +:+ v) = Some ((name, kvs ++ [(k, v)])%list :: r).
Proof.
  intros Hk Hne Hv. unfold wg_key in Hk. apply andb_true_iff in Hk as [Hk Htr%String.eqb_eq].
  destruct (to_bytes k) as [|c l] eqn:Ek; [done|].
  apply andb_true_iff in Hk as [[Hc Hb]%andb_true_iff Heq]. apply negb_true_iff in Hb.
  assert (Ht : trim_space (k +:+ " = " +:+ v) = k +:+ " = " +:+ v).
  { replace (k +:+ " = " +:+ v) with (of_bytes (c :: (l ++ to_bytes " = ") ++ to_bytes v)%list).
    - by apply trim_text.
    - apply to_bytes_inj. rewrite to_of_bytes, !to_bytes_app, Ek. cbn [app]. by rewrite <- app_assoc. }
  unfold add_line. rewrite Ht.
  assert (Hbytes : to_bytes (k +:+ " = " +:+ v) = (c :: l ++ to_bytes " = " ++ to_bytes v)%list)
    by (rewrite !to_bytes_app, Ek; done).
  destruct (String.eqb_spec (k +:+ " = " +:+ v) "") as [E|_]; [apply (f_equal to_bytes) in E; by rewrite Hbytes in E|].
  replace (has_prefix (k +:+ " = " +:+ v) "[") with false.
  2:{ unfold has_prefix. rewrite Hbytes. change (to_bytes "[") with ["["%char]. cbn [lprefix].
      rewrite Ascii.eqb_sym, Hb. done. }
  replace (k +:+ " = " +:+ v) with ((k +:+ " ") +:+ byte_str "=" +:+ (" " +:+ v)).
  2:{ apply to_bytes_inj. rewrite !to_bytes_app. unfold byte_str. rewrite to_of_bytes. by rewrite <- app_assoc. }
  rewrite cut_app.
  - by rewrite Htr, trim_after_space.
  - apply contains_byte_false. rewrite to_bytes_app, Ek. intros Hin%in_app_iff.
    rewrite forallb_forall in Heq. destruct Hin as [Hin|[H|[]]]; [|discriminate H].
    specialize (Heq _ Hin). by rewrite Ascii.eqb_refl in Heq.
Qed.

Lemma parse_app a b acc : parse_wg_lines (a ++ b) acc =
  match foldl (fun o l => match o with Some s => add_line s l | None => None end) (Some acc) a with
  | Some acc' => parse_wg_lines b acc' | None => None end.
Proof.
  revert acc. induction a as [|l a IH]; intros acc; [done|]. cbn [app parse_wg_lines foldl].
  destruct (add_line acc l) as [acc'|]; [apply IH|]. clear. by induction a.
Qed.

Definition feed (o : option (list section)) (l : list string) : option (list section) :=
  foldl (fun o l => match o with Some s => add_line s l | None => None end) o l.

Lemma feed_app o a b : feed o (a ++ b) = feed (feed o a) b.
Proof. unfold feed. by rewrite foldl_app. Qed.

Lemma feed_cons s x l : feed (Some s) (x :: l) = feed (add_line s x) l.
Proof. done. Qed.

Lemma feed_nil o : feed o [] = o.
Proof. done. Qed.

Definition text_ok (s : string) : Prop := s <> "" /\ sall plain s = true.

Lemma feed_psk name kvs r psk : (psk = "" \/ text_ok psk) ->
  feed (Some ((name, kvs) :: r)) (if String.eqb psk "" then [] else ["PresharedKey = " +:+ psk]) =
  Some ((name, kvs ++ optional_psk psk)%list :: r).
Proof.
  intros H. unfold optional_psk. destruct (String.eqb_spec psk "") as [|Hne]; [by rewrite app_nil_r|].
  destruct H as [|[_ H]]; [done|]. rewrite feed_cons. change ("PresharedKey = " +:+ psk) with ("PresharedKey" +:+ " = " +:+ psk).
  by rewrite add_key_value.
Qed.

Lemma add_blank s : add_line s "" = Some s.
Proof. done. Qed.
Lemma add_header s h : In h ["[Interface]"; "[Peer]"]%string -> add_line s h = Some ((h, []) :: s).
Proof. by intros [<-|[<-|[]]]. Qed.

Definition peer_text (p : ProxyPeer) : Prop :=
  text_ok (p_PublicKey p) /\ text_ok (p_TunnelIP p) /\ (p_PresharedKey p = "" \/ text_ok (p_PresharedKey p)).

Definition peer_section (p : ProxyPeer) : section :=
  ("[Peer]"%string, [("PublicKey", p_PublicKey p); ("AllowedIPs", p_TunnelIP p +:+ "/32")]%string
        ++ optional_psk (p_PresharedKey p))%list.

Lemma feed_peer s p : peer_text p -> feed (Some s) (peer_lines p) = Some (peer_section p :: s).
Proof.
  intros ([H1 H2] & [H3 H4] & H5). unfold peer_lines. cbn [app].
  rewrite !feed_cons, add_blank, feed_cons, add_header by (right; by left).
  rewrite feed_cons. change ("PublicKey = " +:+ p_PublicKey p) with ("PublicKey" +:+ " = " +:+ p_PublicKey p).
  rewrite add_key_value by done.
  rewrite feed_cons. change ("AllowedIPs = " +:+ p_TunnelIP p +:+ "/32") with ("AllowedIPs" +:+ " = " +:+ (p_TunnelIP p +:+ "/32")).
  rewrite add_key_value; [|done| |by rewrite sall_app, H4].
  - rewrite feed_psk by done. done.
  - intros E. apply (f_equal String.length) in E. rewrite string_app_length in E. simpl in E. lia.
Qed.

Lemma feed_peers ps : forall s, Forall peer_text ps -> feed (Some s) (flat_map peer_lines ps) = Some (rev (map peer_section ps) ++ s)%list.
Proof.
  induction ps as [|p ps IH]; intros s Hp; [done|]. inversion_clear Hp as [|? ? Hp1 Hps]. cbn [flat_map map rev].
  by rewrite feed_app, feed_peer, IH, <- app_assoc.
Qed.

Lemma itoa_text z : 0 <= z <= int64_max -> text_ok (itoa z).
Proof.
  intros Hz. split; [by apply itoa_not_empty|]. apply (itoa_sall plain z); [done|]. intros c Hc. by apply digit_plain.
Qed.

Lemma key_text k : validProxyKey k = true -> sall plain k = true -> text_ok k.
Proof. intros H Hp. split; [|done]. intros ->. by vm_compute in H. Qed.

Lemma tunnel_ip_text ip : validTunnelIP ip = true -> text_ok ip.
Proof.
  unfold validTunnelIP. destruct (ParseIP ip) as [p|] eqn:E; [|done]. intros _.
  split; [intros ->; by vm_compute in E|]. by eapply ip_plain.
Qed.

Lemma atoi_plain s n : atoi s = Some n -> sall plain s = true.
Proof.
  assert (Hd : forall l, forallb is_digit l = true -> forallb plain l = true).
  { intros l Hl. rewrite forallb_forall in *. intros x Hx. apply digit_plain, Hl, Hx. }
  unfold atoi, sall. destruct (to_bytes s) as [|c r]; [done|]. cbn [forallb].
  destruct (Ascii.eqb_spec c "-") as [->|_]; [|destruct (Ascii.eqb_spec c "+") as [->|_]].
  - destruct r as [|d r]; [done|]. destruct (forallb is_digit (d :: r)) eqn:E; [|done]. intros _. by rewrite Hd.
  - destruct r as [|d r]; [done|]. destruct (forallb is_digit (d :: r)) eqn:E; [|done]. intros _. by rewrite Hd.
  - destruct (forallb is_digit (c :: r)) eqn:E; [|done]. intros _. by apply Hd in E.
Qed.

Lemma host_plain h : reProxyHost h = true -> sall plain h = true.
Proof.
  assert (Hall : forall x, is_alnum x || one_of ".-" x = true -> plain x = true).
  { intros x. unfold is_alnum, is_lower, is_upper, is_digit, one_of, plain, ascii_space, between. simpl.
    destruct (Ascii.eqb_spec x "."), (Ascii.eqb_spec x "-"); subst; try done; lia. }
  unfold reProxyHost, sall. destruct (to_bytes h) as [|c [|d r]]; [done| |].
  - intros Hc. cbn [forallb]. rewrite Hall; [done|]. by rewrite Hc.
  - intros [[[Hc Hr]%andb_true_iff _]%andb_true_iff _]%andb_true_iff.
    change (forallb plain (c :: d :: r)) with (plain c && forallb plain (d :: r)).
    rewrite (Hall c) by (by rewrite Hc). cbn [andb]. apply forallb_forall. rewrite forallb_forall in Hr. auto.
Qed.

Lemma endpoint_text e : ValidateProxyEndpoint e = None -> text_ok e.
Proof.
  unfold ValidateProxyEndpoint. destruct (SplitHostPort e) as [[h p]|] eqn:Es; [|done].
  destruct (atoi p) as [n|] eqn:Ea; [|done]. destruct (_ || _); [done|].
  destruct (match ParseIP h with Some _ => _ | None => _ end) eqn:Eh; [done|]. intros _.
  split; [intros ->; by vm_compute in Es|]. eapply split_host_port_chars; [exact Es|done|done|done| |by eapply atoi_plain].
  destruct (ParseIP h) eqn:Ep; [by eapply ip_plain|]. apply host_plain. by apply negb_false_iff in Eh.
Qed.

Definition line_char (c : ascii) : bool := plain c || (code c =? 32).

Lemma split_rendered lines : Forall (fun l => sall line_char l = true) lines ->
  split newline (fold_right (fun l acc => l +:+ byte_str newline +:+ acc) "" lines) = (lines ++ [""])%list.
Proof.
  assert (Hsep : forall r, lsplit newline (newline :: r) = [] :: lsplit newline r)
    by (intros r; cbn [lsplit]; by rewrite Ascii.eqb_refl).
  induction 1 as [|l ls Hl _ IH]; [done|]. cbn [fold_right app]. unfold split in *. rewrite !to_bytes_app.
  rewrite lsplit_app.
  - unfold byte_str at 1. rewrite to_of_bytes. cbn [app]. rewrite Hsep. cbn [map].
    by rewrite IH, app_nil_r, of_to_bytes.
  - intros Hin. rewrite sall_forall in Hl. specialize (Hl _ Hin). by vm_compute in Hl.
Qed.

Lemma plain_line_char s : sall plain s = true -> sall line_char s = true.
Proof. apply sall_impl. intros c Hc. unfold line_char. by rewrite Hc. Qed.

(** Proves that lines of literals and plain fields hold no line break. *)
Ltac line_chars :=
  repeat (apply List.Forall_cons); try apply List.Forall_nil; rewrite ?sall_app;
  repeat match goal with H : sall plain ?s = true |- context [sall line_char ?s] => rewrite (plain_line_char s H) end;
  reflexivity.

Lemma psk_lines psk : (psk = "" \/ text_ok psk) ->
  Forall (fun l => sall line_char l = true) (if String.eqb psk "" then [] else ["PresharedKey = " +:+ psk]).
Proof.
  intros H. destruct (String.eqb_spec psk ""); [done|]. destruct H as [|[_ H]]; [done|].
  line_chars.
Qed.

Lemma peer_lines_chars ps : Forall peer_text ps -> Forall (fun l => sall line_char l = true) (flat_map peer_lines ps).
Proof.
  induction 1 as [|p ps ([_ H1] & [_ H2] & H3) _ IH]; [done|]. cbn [flat_map]. apply Forall_app. split; [|done].
  unfold peer_lines. apply Forall_app. split; [|by apply psk_lines].
  line_chars.
Qed.

(** The keys of a plan hold no white space (a key made by WireGuard never does). *)
Definition keys_plain (p : ProxyPlan) : Prop :=
  match Proxy p with
  | Some s => Forall (fun q => sall plain (p_PublicKey q) = true /\ sall plain (p_PresharedKey q) = true) (Peers s)
  | None => True
  end /\
  match Node p with
  | Some s => sall plain (n_ProxyPublicKey s) = true /\ sall plain (n_PresharedKey s) = true
  | None => True
  end.

Lemma peers_text s : proxy_side_ok s ->
  Forall (fun q => sall plain (p_PublicKey q) = true /\ sall plain (p_PresharedKey q) = true) (Peers s) ->
  Forall peer_text (Peers s).
Proof.
  intros (_ & _ & Hp & _) Hk. rewrite !Forall_forall in *. intros q Hq. destruct (Hp q Hq) as (H1 & H2 & H3).
  destruct (Hk q Hq) as [H4 H5]. split_and!; [by apply key_text|by apply tunnel_ip_text|].
  destruct H3 as [|H3]; [by left|right; by apply key_text].
Qed.

Lemma parse_feed lines : parse_wg_lines lines [] = option_map (@rev section) (feed (Some []) lines).
Proof.
  pose proof (parse_app lines [] []) as H. rewrite app_nil_r in H. rewrite H. unfold feed.
  by destruct (foldl _ _ _).
Qed.

(** * Properties *)

(** [Validate] accepts exactly the plans that are safe to load: one side only;
    at most 64 different game ports from 1024 up, none of them reserved or the
    tunnel's own, over all nodes of a proxy together; distinct tunnel addresses of
    the subnet; keys of 32 bytes; a valid endpoint; and egress users that are Linux
    users other than root. *)
Theorem validate_plan_iff p : Validate p = None <-> plan_ok p.
Proof. apply validate_iff. Qed.

(** C33: the configuration rendered for WireGuard from a valid plan whose keys hold no
    line break is read back, line by line, as exactly the sections of the plan: no
    other setting is added or changed.  The validation lets keys with line breaks
    pass, and those do break the rendered text ([key_with_line_break]). *)
Theorem wg_config_roundtrip plan privateKey (Hv : Validate plan = None) (Hk : keys_plain plan)
    (Hp : text_ok privateKey) : parse_wg (renderWGConfig plan privateKey) = Some (wg_sections plan privateKey).
Proof.
  apply validate_iff in Hv. unfold parse_wg, renderWGConfig. destruct Hk as [Hk1 Hk2]. destruct Hp as [Hp1 Hp2].
  assert (Hpk : sall line_char ("PrivateKey = " +:+ privateKey) = true) by (by rewrite sall_app, (plain_line_char privateKey)).
  unfold plan_ok, wg_sections, wg_lines in *.
  destruct (Proxy plan) as [s|], (Node plan) as [n|]; try done.
  - pose proof (peers_text s Hv Hk1) as Hps. destruct Hv as (Hlp & _).
    destruct (itoa_text (ListenPort s)) as [Hl1 Hl2]; [unfold int64_max; lia|].
    rewrite split_rendered.
    2:{ apply Forall_app. split; [line_chars|]. rewrite app_nil_r. apply Forall_cons. split; [|by apply peer_lines_chars].
        by rewrite sall_app, (plain_line_char (itoa _)). }
    rewrite parse_feed, !feed_app, !feed_cons, add_header by (by left).
    change ("PrivateKey = " +:+ privateKey) with ("PrivateKey" +:+ " = " +:+ privateKey).
    rewrite feed_cons, add_key_value by done. rewrite ?feed_nil.
    rewrite feed_cons. change ("ListenPort = " +:+ itoa (ListenPort s)) with ("ListenPort" +:+ " = " +:+ itoa (ListenPort s)).
    rewrite add_key_value by done. rewrite feed_peers, feed_cons, add_blank, feed_nil by done. cbn [option_map].
    by rewrite rev_app_distr, rev_involutive.
  - destruct Hv as (H1 & H2 & H3 & _ & _ & H4 & _). destruct Hk2 as [Hk2 Hk3].
    pose proof (key_text _ H2 Hk2) as [Ht1 Ht2]. pose proof (endpoint_text _ H3) as [He1 He2].
    assert (Hpsk : n_PresharedKey n = "" \/ text_ok (n_PresharedKey n))
      by (destruct H4; [by left|right; by apply key_text]).
    rewrite split_rendered.
    2:{ apply Forall_app. split; [line_chars|]. apply Forall_app. split; [done|].
        apply Forall_app. split; [line_chars|by apply psk_lines]. }
    rewrite parse_feed, !feed_app, !feed_cons, add_header by (by left).
    change ("PrivateKey = " +:+ privateKey) with ("PrivateKey" +:+ " = " +:+ privateKey).
    rewrite !feed_cons, add_key_value by done. rewrite ?feed_nil. rewrite !feed_cons.
    change ("ListenPort = " +:+ itoa proxyNodePort) with ("ListenPort" +:+ " = " +:+ itoa proxyNodePort).
    rewrite add_key_value by done. rewrite !feed_cons.
    change ("FwMark = " +:+ proxyTunnelMark) with ("FwMark" +:+ " = " +:+ proxyTunnelMark).
    rewrite add_key_value by done. rewrite !feed_cons, add_blank, feed_cons, add_header by (right; by left).
    rewrite feed_cons. change ("PublicKey = " +:+ n_ProxyPublicKey n) with ("PublicKey" +:+ " = " +:+ n_ProxyPublicKey n).
    rewrite add_key_value, feed_cons by done. change ("Endpoint = " +:+ n_Endpoint n) with ("Endpoint" +:+ " = " +:+ n_Endpoint n).
    rewrite add_key_value, feed_cons by done. change "AllowedIPs = 0.0.0.0/0"%string with ("AllowedIPs" +:+ " = " +:+ "0.0.0.0/0")%string.
    rewrite add_key_value, feed_cons by done. change "PersistentKeepalive = 25"%string with ("PersistentKeepalive" +:+ " = " +:+ "25")%string.
    rewrite add_key_value by done. rewrite ?feed_nil. rewrite feed_psk, feed_cons, add_blank, feed_nil by done. done.
  - rewrite split_rendered by (apply Forall_app; split; [line_chars|done]).
    rewrite parse_feed, !feed_app, !feed_cons, add_header by (by left).
    change ("PrivateKey = " +:+ privateKey) with ("PrivateKey" +:+ " = " +:+ privateKey).
    rewrite feed_cons, add_key_value, ?feed_nil by done. done.
Qed.

Lemma wg_config_roundtrip_witness :
  parse_wg (renderWGConfig demo_plan demo_key) = Some (wg_sections demo_plan demo_key).
Proof.
  apply (wg_config_roundtrip demo_plan demo_key).
  - exact demo_plan_valid.
  - split; [repeat constructor|exact I].
  - split; [discriminate|vm_compute; reflexivity].
Defined.

(** Go's base64 decoder skips line breaks, so [validProxyKey] accepts a key that
    holds one, and the rendered configuration then has a line that is no setting. *)
Definition broken_key : string := of_bytes (newline :: to_bytes demo_key).
Definition broken_plan : ProxyPlan :=
  mkPlan (Some (mkProxySide 51820 [mkPeer broken_key "10.77.0.2" [mkForward 27015 "udp"] "" false])) None.
Example key_with_line_break : Validate broken_plan = None /\
  parse_wg (renderWGConfig broken_plan demo_key) <> Some (wg_sections broken_plan demo_key).
Proof. split; [vm_compute; reflexivity|vm_compute; discriminate]. Qed.
