(* ===== verification/ProxyController.v ===== *)
(** * Proxy links of the dashboard (backend/proxy_controller.go)

    The controller stores which node goes through which proxy and sends every
    machine its plan.  This file models all its operations: the calls to the
    machines are answered by functions of the environment, so every failure at
    every point is covered (a call may be refused, get lost, or fail after it changed
    something), and each call is recorded.  It proves that the links
    stay consistent, that the plans of both ends of a link agree and are valid,
    and which plan each machine is left with when calls fail. *)

From Stdlib Require Import ZArith Lia Bool String Ascii List.
From stdpp Require Import base strings list gmap.
From S2P Require Import Prelude GoStrings Validate GoNet ProxyRules.

Record ProxyLink := mkLink {
  l_Proxy : string; l_Node : string; l_PublicHost : string; l_ListenPort : Z;
  l_ProxyPublicKey : string; l_NodePublicKey : string; l_TunnelIP : string;
  l_Forwards : list ProxyForward; l_TargetIP : string; l_PresharedKey : string; l_EgressUsers : list string }.

Record proxyConfig := mkConfig { Links : list ProxyLink; Cleanup : list string }.

(** ** Plans *)

Definition endpoint_of (l : ProxyLink) : string := JoinHostPort (l_PublicHost l) (itoa (l_ListenPort l)).

Definition peer_of (l : ProxyLink) : ProxyPeer :=
  mkPeer (l_NodePublicKey l) (l_TunnelIP l) (l_Forwards l) (l_PresharedKey l)
    (negb (length (l_EgressUsers l) =? 0)%nat).

Definition node_side_of (l : ProxyLink) : NodeSide :=
  mkNodeSide (l_TunnelIP l) (l_ProxyPublicKey l) (endpoint_of l) (l_Forwards l) (l_TargetIP l)
    (l_PresharedKey l) (l_EgressUsers l).

Definition add_to_plan (id : string) (plan : ProxyPlan) (l : ProxyLink) : ProxyPlan :=
  let plan := if String.eqb (l_Node l) id then mkPlan (Proxy plan) (Some (node_side_of l)) else plan in
  if String.eqb (l_Proxy l) id then
    let side := match Proxy plan with Some s => s | None => mkProxySide (l_ListenPort l) [] end in
    mkPlan (Some (mkProxySide (ListenPort side) (Peers side ++ [peer_of l])%list)) (Node plan)
  else plan.
Definition planFor (links : list ProxyLink) (id : string) : ProxyPlan :=
  fold_left (add_to_plan id) links (mkPlan None None).

Fixpoint free_ip (ns : list nat) (used : list string) : option string :=
  match ns with
  | [] => None
  | i :: r => let ip := "10.77.0." +:+ itoa (Z.of_nat i) in if mem ip used then free_ip r used else Some ip
  end.
Definition nextTunnelIP (links : list ProxyLink) (proxy : string) : option string :=
  free_ip (seq 2 253) (map l_TunnelIP (filter (fun l => l_Proxy l = proxy) links)).

(** The link as it is returned: the preshared key is only for the two machines. *)
Definition without_key (l : ProxyLink) : ProxyLink :=
  mkLink (l_Proxy l) (l_Node l) (l_PublicHost l) (l_ListenPort l) (l_ProxyPublicKey l) (l_NodePublicKey l)
    (l_TunnelIP l) (l_Forwards l) (l_TargetIP l) "" (l_EgressUsers l).

(** ** Requests *)

Record ProxySetup := mkSetup {
  s_Proxy : string; s_Node : string; s_PublicHost : string; s_ListenPort : Z;
  s_Forwards : list ProxyForward; s_TargetIP : string; s_EgressUsers : list string }.

Inductive controller_error :=
| ChooseMachines | NodeHasProxy | ProxyIsNode | NodeIsProxy | OtherAddress
| Invalid (e : proxy_error) | PortTaken (f : ProxyForward)
| ProxyUnreachable | NodeUnreachable | ProxyFailed | NodeFailed | ProxyChecks | NodeChecks
| NoRandom | NoTunnelIP | UsesNoProxy | NotSaved.

Fixpoint port_taken (links : list ProxyLink) (proxy node : string) (forwards : list ProxyForward) : option controller_error :=
  match links with
  | [] => None
  | l :: r =>
      if negb (String.eqb (l_Proxy l) proxy) || String.eqb (l_Node l) node then port_taken r proxy node forwards
      else match List.find (fun have => bool_decide (have ∈ forwards)) (l_Forwards l) with
      | Some f => Some (PortTaken f)
      | None => port_taken r proxy node forwards
      end
  end.
Definition checkProxyPorts (links : list ProxyLink) (proxy node : string) (forwards : list ProxyForward) (listenPort : Z)
    : option controller_error :=
  match ValidateProxyForwards forwards listenPort with
  | Some e => Some (Invalid e)
  | None => port_taken links proxy node forwards
  end.

(** The loop of [Setup] over the links: the listen port, or the error. *)
Fixpoint check_links (links : list ProxyLink) (req : ProxySetup) (listenPort : Z) : result controller_error Z :=
  match links with
  | [] => Ok listenPort
  | l :: r =>
      if String.eqb (l_Node l) (s_Node req) then Err NodeHasProxy
      else if String.eqb (l_Node l) (s_Proxy req) then Err ProxyIsNode
      else if String.eqb (l_Proxy l) (s_Node req) then Err NodeIsProxy
      else if String.eqb (l_Proxy l) (s_Proxy req) && negb (String.eqb (l_PublicHost l) (s_PublicHost req))
      then Err OtherAddress
      else check_links r req (if String.eqb (l_Proxy l) (s_Proxy req) then l_ListenPort l else listenPort)
  end.

(** Everything [Setup] checks before it contacts a machine: the listen port. *)
Definition check_setup (links : list ProxyLink) (req : ProxySetup) : result controller_error Z :=
  let port := if s_ListenPort req =? 0 then proxyDefaultPort else s_ListenPort req in
  if String.eqb (s_Proxy req) (s_Node req) || String.eqb (s_Proxy req) "" || String.eqb (s_Node req) ""
  then Err ChooseMachines
  else
    let? port := check_links links req port in
    match ValidateProxyEndpoint (JoinHostPort (s_PublicHost req) (itoa port)) with
    | Some e => Err (Invalid e)
    | None =>
        match checkProxyPorts links (s_Proxy req) (s_Node req) (s_Forwards req) port with
        | Some e => Err e
        | None =>
            if negb (String.eqb (s_TargetIP req) "") && match ParseIP (s_TargetIP req) with None => true | _ => false end
            then Err (Invalid BadTargetIP)
            else match validateEgressUsers (s_EgressUsers req) with
            | Some e => Err (Invalid e)
            | None => Ok port
            end
        end
    end.

(** ** The controller and the machines *)

(** What [Prepare] answers: the public key and whether a check is fatal. *)
Record ProxyPrepared := mkPrepared { PublicKey : string; FatalCheck : bool }.

(** Why a plan was sent. *)
Inductive purpose := Push | Rollback | Syncing.
(** What became of a plan that was sent ([ProxyHost.Apply]): it was loaded and
    stored; it was refused, or did not arrive, and nothing changed; or the call
    failed after it changed something, so what the machine runs is not known. *)
Inductive applied := Loaded | Refused | Failed.
Definition loaded (r : applied) : bool := match r with Loaded => true | _ => false end.
Record call := mkCall { c_purpose : purpose; c_machine : string; c_plan : ProxyPlan; c_result : applied }.

(** [file] is the content of proxy.json, [published] what readers see; [clock]
    counts the calls made so far, [calls] records the plans sent. *)
Record controller := mkController {
  cfg : proxyConfig; published : list ProxyLink; file : proxyConfig; clock : nat; calls : list call }.

(** The environment: whether a machine can be reached, what it answers, whether
    the file can be written, the order of [range] over a map, random keys. *)
Record env := mkEnv {
  endpoint : nat -> string -> bool;
  prepare : nat -> string -> bool -> option ProxyPrepared;
  apply_result : nat -> string -> ProxyPlan -> applied;
  write_ok : nat -> bool;
  shuffle : nat -> list string -> list string;
  random_key : nat -> option string }.

Section Controller.
Context (e : env).

Definition tick (c : controller) : controller :=
  mkController (cfg c) (published c) (file c) (S (clock c)) (calls c).

Definition apply (why : purpose) (id : string) (plan : ProxyPlan) (c : controller) : bool * controller :=
  let r := apply_result e (clock c) id plan in
  (loaded r, mkController (cfg c) (published c) (file c) (S (clock c)) (calls c ++ [mkCall why id plan r])).

Definition set_cfg (k : proxyConfig) (c : controller) : controller :=
  mkController k (published c) (file c) (clock c) (calls c).

Definition saveLocked (c : controller) : bool * controller :=
  let ok := write_ok e (clock c) in
  (ok, mkController (cfg c) (Links (cfg c)) (if ok then cfg c else file c) (S (clock c)) (calls c)).

Definition pushLocked (links : list ProxyLink) (proxy node : string) (c : controller) : option controller_error * controller :=
  let '(ok, c) := apply Push proxy (planFor links proxy) c in
  if negb ok then (Some ProxyFailed, c)
  else
    let '(ok, c) := apply Push node (planFor links node) c in
    if negb ok then (Some NodeFailed, snd (apply Rollback proxy (planFor (Links (cfg c)) proxy) c))
    else (None, c).

(** The deferred function of [Setup]. *)
Definition roll_back (proxy node : string) (c : controller) : controller :=
  let c := snd (apply Rollback proxy (planFor (Links (cfg c)) proxy) c) in
  snd (apply Rollback node (planFor (Links (cfg c)) node) c).

Definition removeString (l : list string) (s : string) : list string := filter (fun v => v <> s) l.
Definition appendUniqueString (items : list string) (value : string) : list string :=
  if mem value items then items else (items ++ [value])%list.

Definition Setup (req : ProxySetup) (c : controller) : result controller_error ProxyLink * controller :=
  let proxy := s_Proxy req in
  let node := s_Node req in
  match check_setup (Links (cfg c)) req with
  | Err err => (Err err, c)
  | Ok port =>
      match random_key e (clock c) with
      | None => (Err NoRandom, c)
      | Some psk =>
          if negb (endpoint e (clock c) proxy) then (Err ProxyUnreachable, tick c)
          else if negb (endpoint e (S (clock c)) node) then (Err NodeUnreachable, tick (tick c))
          else
            let c := tick (tick c) in
            let proxyInfo := prepare e (clock c) proxy true in
            let c := tick c in
            match proxyInfo with
            | None => (Err ProxyFailed, roll_back proxy node c)
            | Some proxyInfo =>
                let nodeInfo := prepare e (clock c) node false in
                let c := tick c in
                match nodeInfo with
                | None => (Err NodeFailed, roll_back proxy node c)
                | Some nodeInfo =>
                    if FatalCheck proxyInfo then (Err ProxyChecks, roll_back proxy node c)
                    else if FatalCheck nodeInfo then (Err NodeChecks, roll_back proxy node c)
                    else match nextTunnelIP (Links (cfg c)) proxy with
                    | None => (Err NoTunnelIP, roll_back proxy node c)
                    | Some ip =>
                        let link := mkLink proxy node (s_PublicHost req) port (PublicKey proxyInfo) (PublicKey nodeInfo)
                                      ip (s_Forwards req) (s_TargetIP req) psk (s_EgressUsers req) in
                        let links := (Links (cfg c) ++ [link])%list in
                        match pushLocked links proxy node c with
                        | (Some err, c) => (Err err, roll_back proxy node c)
                        | (None, c) =>
                            let c := set_cfg (mkConfig links (removeString (removeString (Cleanup (cfg c)) proxy) node)) c in
                            let '(ok, c) := saveLocked c in
                            if negb ok then (Err NotSaved, c) else (Ok (without_key link), c)
                        end
                    end
                end
            end
      end
  end.

(** The last link of a node, changed by [f]. *)
Fixpoint link_of (links : list ProxyLink) (node : string) : option ProxyLink :=
  match links with
  | [] => None
  | l :: r => match link_of r node with
              | Some x => Some x
              | None => if String.eqb (l_Node l) node then Some l else None
              end
  end.
Fixpoint change_link (links : list ProxyLink) (node : string) (f : ProxyLink -> ProxyLink) : list ProxyLink :=
  match links with
  | [] => []
  | l :: r => if String.eqb (l_Node l) node && match link_of r node with None => true | _ => false end
              then f l :: r else l :: change_link r node f
  end.

Definition with_forwards (fs : list ProxyForward) (l : ProxyLink) : ProxyLink :=
  mkLink (l_Proxy l) (l_Node l) (l_PublicHost l) (l_ListenPort l) (l_ProxyPublicKey l) (l_NodePublicKey l)
    (l_TunnelIP l) fs (l_TargetIP l) (l_PresharedKey l) (l_EgressUsers l).
Definition with_egress (us : list string) (l : ProxyLink) : ProxyLink :=
  mkLink (l_Proxy l) (l_Node l) (l_PublicHost l) (l_ListenPort l) (l_ProxyPublicKey l) (l_NodePublicKey l)
    (l_TunnelIP l) (l_Forwards l) (l_TargetIP l) (l_PresharedKey l) us.

(** The end of [SetForwards] and [SetEgress]. *)
Definition push_change (proxy node : string) (links : list ProxyLink) (c : controller) : option controller_error * controller :=
  if negb (endpoint e (clock c) proxy) then (Some ProxyUnreachable, tick c)
  else if negb (endpoint e (S (clock c)) node) then (Some NodeUnreachable, tick (tick c))
  else match pushLocked links proxy node (tick (tick c)) with
  | (Some err, c) => (Some err, c)
  | (None, c) =>
      let '(ok, c) := saveLocked (set_cfg (mkConfig links (Cleanup (cfg c))) c) in
      (if ok then None else Some NotSaved, c)
  end.

Definition SetForwards (node : string) (forwards : list ProxyForward) (c : controller) : option controller_error * controller :=
  match link_of (Links (cfg c)) node with
  | None => (Some UsesNoProxy, c)
  | Some l =>
      match checkProxyPorts (Links (cfg c)) (l_Proxy l) node forwards (l_ListenPort l) with
      | Some err => (Some err, c)
      | None => push_change (l_Proxy l) node (change_link (Links (cfg c)) node (with_forwards forwards)) c
      end
  end.

Definition SetEgress (node : string) (users : list string) (c : controller) : option controller_error * controller :=
  match validateEgressUsers users with
  | Some err => (Some (Invalid err), c)
  | None =>
      match link_of (Links (cfg c)) node with
      | None => (Some UsesNoProxy, c)
      | Some l => push_change (l_Proxy l) node (change_link (Links (cfg c)) node (with_egress users)) c
      end
  end.

(** The machines [syncLocked] contacts. *)
Definition machines (k : proxyConfig) : list string :=
  remove_dups (flat_map (fun l => [l_Proxy l; l_Node l]) (Links k) ++ Cleanup k).

Fixpoint remove_one (l : list string) (s : string) : list string :=
  match l with [] => [] | x :: r => if String.eqb x s then r else x :: remove_one r s end.

(** The loop of [syncLocked] over the machines; [open] starts as the cleanup list. *)
Fixpoint sync_loop (ids : list string) (open : list string) (changed : bool) (c : controller)
    : list string * bool * controller :=
  match ids with
  | [] => (open, changed, c)
  | id :: r =>
      if negb (endpoint e (clock c) id) then sync_loop r open changed (tick c)
      else
        let '(ok, c) := apply Syncing id (planFor (Links (cfg c)) id) (tick c) in
        if negb ok then sync_loop r open changed c
        else sync_loop r (remove_one open id) (changed || mem id open) c
  end.

Definition syncLocked (c : controller) : controller :=
  if (length (Links (cfg c)) =? 0)%nat && (length (Cleanup (cfg c)) =? 0)%nat then c
  else
    let '(open, changed, c) := sync_loop (shuffle e (clock c) (machines (cfg c))) (Cleanup (cfg c)) false c in
    if changed then snd (saveLocked (set_cfg (mkConfig (Links (cfg c)) open) c)) else c.

Definition Remove (node : string) (c : controller) : option controller_error * controller :=
  match link_of (Links (cfg c)) node with
  | None => (Some UsesNoProxy, c)
  | Some removed =>
      let links := filter (fun l => l_Node l <> node) (Links (cfg c)) in
      let cleanup := appendUniqueString (appendUniqueString (Cleanup (cfg c)) (l_Proxy removed)) node in
      let '(ok, c) := saveLocked (set_cfg (mkConfig links cleanup) c) in
      if negb ok then (Some NotSaved, c) else (None, syncLocked c)
  end.

(** The last critical section of [ForgetNode]. *)
Definition ForgetDone (id : string) (c : controller) : controller :=
  snd (saveLocked (set_cfg (mkConfig (Links (cfg c)) (removeString (Cleanup (cfg c)) id)) c)).
End Controller.

(** [ServerAddress] *)
Fixpoint ServerAddress (links : list ProxyLink) (machine : string) (port : Z) : string * bool :=
  match links with
  | [] => ("", false)
  | l :: r =>
      if negb (String.eqb (l_Node l) machine) then ServerAddress r machine port
      else if existsb (fun f => Port f =? port) (l_Forwards l) then (JoinHostPort (l_PublicHost l) (itoa port), true)
      else ("", true)
  end.

(** [proxyLinkHealth]; a status that could not be read is [None]. *)
Record ProxyHostStatus := mkHostStatus {
  InterfaceUp : bool; RulesLoaded : bool; LastHandshake : Z; HandshakeAge : Z }.
Inductive health := HealthUnknown | HealthBroken | HealthConnected | HealthWaiting.
Definition fresh (st : ProxyHostStatus) : bool := (LastHandshake st >? 0) && (HandshakeAge st <=? 200).
Definition proxyLinkHealth (proxy node : option ProxyHostStatus) : health :=
  match proxy, node with
  | Some p, Some n =>
      if negb (InterfaceUp p) || negb (RulesLoaded p) || negb (InterfaceUp n) || negb (RulesLoaded n) then HealthBroken
      else if fresh p && fresh n then HealthConnected else HealthWaiting
  | _, _ => HealthUnknown
  end.

(** ** Operations as events *)

Inductive op :=
| OSetup (req : ProxySetup) | OForwards (node : string) (fs : list ProxyForward) | OEgress (node : string) (us : list string)
| ORemove (node : string) | OSync | OForgetDone (id : string).

Definition run_op (e : env) (o : op) (c : controller) : controller :=
  match o with
  | OSetup req => snd (Setup e req c)
  | OForwards node fs => snd (SetForwards e node fs c)
  | OEgress node us => snd (SetEgress e node us c)
  | ORemove node => snd (Remove e node c)
  | OSync => syncLocked e c
  | OForgetDone id => ForgetDone e id c
  end.
Definition run_ops (e : env) (os : list op) (c : controller) : controller := fold_left (fun c o => run_op e o c) os c.

(** [ForgetNode] reads the published links once, without the mutex, and takes the
    mutex for each [Remove] and for its last section: in a list of operations others
    come in between.  [ForgetNode] here is the course without others. *)
Definition forget_ops (id : string) (links : list ProxyLink) : list op :=
  (map (fun l => ORemove (l_Node l)) (List.filter (fun l => String.eqb (l_Node l) id || String.eqb (l_Proxy l) id) links)
   ++ [OForgetDone id])%list.
Definition ForgetNode (e : env) (id : string) (c : controller) : controller :=
  run_ops e (forget_ops id (published c)) c.

(** No proxy.json yet. *)
Definition new_controller : controller := mkController (mkConfig [] []) [] (mkConfig [] []) 0 [].

(** The plan a machine runs after the calls, if that is known: the one it loaded
    last, nothing before the first, not known after a call that failed midway. *)
Definition after_call (id : string) (p : option ProxyPlan) (k : call) : option ProxyPlan :=
  if String.eqb (c_machine k) id then
    match c_result k with Loaded => Some (c_plan k) | Refused => p | Failed => None end
  else p.
Definition current (cs : list call) (id : string) : option ProxyPlan :=
  fold_left (after_call id) cs (Some (mkPlan None None)).

(** If it is known what a machine runs, it is this plan. *)
Definition runs_plan (cs : list call) (id : string) (plan : ProxyPlan) : Prop :=
  forall p, current cs id = Some p -> p = plan.

(** ** Lemmas: plans *)

Definition of_proxy (id : string) (links : list ProxyLink) : list ProxyLink := filter (fun l => l_Proxy l = id) links.
Definition of_node (id : string) (links : list ProxyLink) : list ProxyLink := filter (fun l => l_Node l = id) links.

Lemma filter_proxy_cons id x l : of_proxy id (x :: l) = if String.eqb (l_Proxy x) id then x :: of_proxy id l else of_proxy id l.
Proof. unfold of_proxy. rewrite filter_cons. destruct (String.eqb_spec (l_Proxy x) id); by destruct (decide _). Qed.
Lemma filter_node_cons id x l : of_node id (x :: l) = if String.eqb (l_Node x) id then x :: of_node id l else of_node id l.
Proof. unfold of_node. rewrite filter_cons. destruct (String.eqb_spec (l_Node x) id); by destruct (decide _). Qed.

Definition side_after (side : option ProxySide) (ls : list ProxyLink) : option ProxySide :=
  match ls, side with
  | [], _ => side
  | _, Some s => Some (mkProxySide (ListenPort s) (Peers s ++ map peer_of ls)%list)
  | l :: _, None => Some (mkProxySide (l_ListenPort l) (map peer_of ls))
  end.

Lemma fold_plan id links : forall plan,
  fold_left (add_to_plan id) links plan =
  mkPlan (side_after (Proxy plan) (of_proxy id links))
         (match List.rev (of_node id links) with l :: _ => Some (node_side_of l) | [] => Node plan end).
Proof.
  induction links as [|x r IH]; intros [p n]; [by destruct p|]. cbn [fold_left]. rewrite IH, filter_proxy_cons, filter_node_cons.
  unfold add_to_plan. destruct (String.eqb (l_Node x) id); cbn [Proxy Node List.rev];
    (destruct (String.eqb (l_Proxy x) id); cbn [Proxy Node]).
  - f_equal.
    + destruct p as [s|]; cbn; destruct (of_proxy id r); cbn; rewrite <- ?app_assoc; done.
    + by destruct (List.rev (of_node id r)).
  - f_equal. by destruct (List.rev (of_node id r)).
  - f_equal. destruct p as [s|]; cbn; destruct (of_proxy id r); cbn; rewrite <- ?app_assoc; done.
  - done.
Qed.

(** The plan of a machine: its link as a node, and a peer for each of its nodes. *)
Lemma planFor_spec links id : planFor links id =
  mkPlan (side_after None (of_proxy id links))
         (match List.rev (of_node id links) with l :: _ => Some (node_side_of l) | [] => None end).
Proof. apply fold_plan. Qed.

Lemma planFor_app links l id : l_Proxy l <> id -> l_Node l <> id -> planFor (links ++ [l]) id = planFor links id.
Proof.
  intros H1 H2. unfold planFor. rewrite fold_left_app. cbn. unfold add_to_plan.
  destruct (String.eqb_spec (l_Node l) id); [done|]. by destruct (String.eqb_spec (l_Proxy l) id).
Qed.

(** ** Lemmas: consistent links *)

Definition link_valid (l : ProxyLink) : Prop :=
  ValidateProxyForwards (l_Forwards l) (l_ListenPort l) = None /\ ValidateProxyEndpoint (endpoint_of l) = None /\
  validTunnelIP (l_TunnelIP l) = true /\ (l_TargetIP l = "" \/ is_Some (ParseIP (l_TargetIP l))) /\
  validateEgressUsers (l_EgressUsers l) = None.

(** A machine uses at most one proxy and is not a proxy itself; the nodes of a
    proxy share its address and port and have different tunnel addresses and ports. *)
Definition links_ok (links : list ProxyLink) : Prop :=
  NoDup (map l_Node links) /\
  (forall a b, In a links -> In b links -> l_Proxy a <> l_Node b) /\
  (forall a b, In a links -> In b links -> l_Proxy a = l_Proxy b ->
     l_PublicHost a = l_PublicHost b /\ l_ListenPort a = l_ListenPort b /\
     (l_TunnelIP a = l_TunnelIP b -> l_Node a = l_Node b) /\
     (forall f, In f (l_Forwards a) -> In f (l_Forwards b) -> l_Node a = l_Node b)) /\
  Forall link_valid links.

Lemma same_node links a b : NoDup (map l_Node links) -> In a links -> In b links -> l_Node a = l_Node b -> a = b.
Proof.
  intros Hnd. induction links as [|x r IH]; [done|]. cbn [map] in Hnd. apply NoDup_cons in Hnd as [Hni Hnd].
  assert (Hx : forall y, In y r -> l_Node y = l_Node x -> False).
  { intros y Hy E. apply Hni. rewrite <- E. by apply list_elem_of_In, in_map. }
  intros [<-|Ha] [<-|Hb] E; [done|exfalso; eauto|exfalso; eauto|auto].
Qed.

Lemma links_ok_filter (P : ProxyLink -> Prop) `{forall l, Decision (P l)} links : links_ok links -> links_ok (filter P links).
Proof.
  intros (H1 & H2 & H3 & H4). assert (Hin : forall l, In l (filter P links) -> In l links).
  { intros l Hl%list_elem_of_In. apply list_elem_of_filter in Hl as [_ Hl]. by apply list_elem_of_In. }
  split_and!; [|auto|auto|].
  - clear -H1. induction links as [|x r IH]; [done|]. cbn [map] in H1. apply NoDup_cons in H1 as [Hni H1].
    rewrite filter_cons. case_decide; [|auto]. cbn [map]. apply NoDup_cons. split; [|auto].
    intros Hx%list_elem_of_In%in_map_iff. destruct Hx as (y & E & Hy). apply Hni. rewrite <- E.
    apply list_elem_of_In, in_map. apply list_elem_of_In, list_elem_of_filter in Hy as [_ Hy]. by apply list_elem_of_In.
  - rewrite Forall_forall in *. intros l Hl. apply H4, list_elem_of_In, Hin. by apply list_elem_of_In.
Qed.

Lemma link_of_spec links node : match link_of links node with
  | Some l => In l links /\ l_Node l = node
  | None => forall l, In l links -> l_Node l <> node
  end.
Proof.
  induction links as [|x r IH]; cbn [link_of]; [done|]. destruct (link_of r node) as [l|].
  - destruct IH as [H1 H2]. split; [by right|done].
  - destruct (String.eqb_spec (l_Node x) node); [split; [by left|done]|]. intros l [<-|Hl]; auto.
Qed.

(** With unique nodes a change is a map. *)
Lemma change_link_map f links node : NoDup (map l_Node links) ->
  change_link links node f = map (fun l => if String.eqb (l_Node l) node then f l else l) links.
Proof.
  induction links as [|x r IH]; intros Hnd; [done|]. cbn [change_link map] in *. apply NoDup_cons in Hnd as [Hni Hnd].
  destruct (String.eqb_spec (l_Node x) node) as [E|E]; cbn [andb]; [|by rewrite IH].
  pose proof (link_of_spec r node) as Hs. destruct (link_of r node) as [l|].
  - exfalso. destruct Hs as [Hl1 Hl2]. apply Hni. rewrite E, <- Hl2. by apply list_elem_of_In, in_map.
  - f_equal. clear -Hs. induction r as [|y r IH]; [done|]. cbn [map].
    destruct (String.eqb_spec (l_Node y) node) as [E|E]; [by destruct (Hs y (or_introl eq_refl))|].
    f_equal. apply IH. intros l Hl. apply Hs. by right.
Qed.

(** The ends, address and tunnel of a link stay. *)
Definition same_ends (f : ProxyLink -> ProxyLink) : Prop := forall l,
  l_Proxy (f l) = l_Proxy l /\ l_Node (f l) = l_Node l /\ l_PublicHost (f l) = l_PublicHost l /\
  l_ListenPort (f l) = l_ListenPort l /\ l_TunnelIP (f l) = l_TunnelIP l.

Lemma links_ok_change links node f : links_ok links -> same_ends f ->
  (forall l, In l links -> l_Node l = node -> link_valid (f l) /\
     forall b p, In b links -> l_Proxy b = l_Proxy l -> l_Node b <> node -> In p (l_Forwards (f l)) -> ~ In p (l_Forwards b)) ->
  links_ok (change_link links node f).
Proof.
  intros (H1 & H2 & H3 & H4) Hf Hv. rewrite change_link_map by done.
  set (g := fun l => if String.eqb (l_Node l) node then f l else l).
  assert (Hg : same_ends g) by (intros l; unfold g; destruct (String.eqb _ _); [apply Hf|done]).
  assert (Hin : forall l, In l (map g links) -> exists x, In x links /\ l = g x).
  { intros l (x & <- & Hx)%in_map_iff. by exists x. }
  assert (Hnode : map l_Node (map g links) = map l_Node links).
  { rewrite map_map. apply map_ext. intros l. apply Hg. }
  split_and!.
  - by rewrite Hnode.
  - intros a b (x & Hx & ->)%Hin (y & Hy & ->)%Hin. destruct (Hg x) as (-> & _), (Hg y) as (_ & -> & _). auto.
  - intros a b (x & Hx & ->)%Hin (y & Hy & ->)%Hin.
    destruct (Hg x) as (-> & -> & -> & -> & ->), (Hg y) as (-> & -> & -> & -> & ->). intros E.
    destruct (H3 x y Hx Hy E) as (E1 & E2 & E3 & E4). split_and!; try done. unfold g. intros p.
    destruct (String.eqb_spec (l_Node x) node) as [Ex|Ex], (String.eqb_spec (l_Node y) node) as [Ey|Ey];
      intros Hpx Hpy; [congruence| | |by eapply E4].
    + exfalso. destruct (Hv x Hx Ex) as [_ Hd]. eapply (Hd y p Hy); [by symmetry|done|exact Hpx|exact Hpy].
    + exfalso. destruct (Hv y Hy Ey) as [_ Hd]. eapply (Hd x p Hx); [done|done|exact Hpy|exact Hpx].
  - rewrite Forall_forall in *. intros l Hl%list_elem_of_In. apply Hin in Hl as (x & Hx & ->). unfold g.
    destruct (String.eqb_spec (l_Node x) node); [by apply Hv|]. by apply H4, list_elem_of_In.
Qed.

(** *** New links *)

Lemma check_links_ok links req port p : check_links links req port = Ok p -> forall l, In l links ->
  l_Node l <> s_Node req /\ l_Node l <> s_Proxy req /\ l_Proxy l <> s_Node req /\
  (l_Proxy l = s_Proxy req -> l_PublicHost l = s_PublicHost req).
Proof.
  revert port. induction links as [|x r IH]; intros port H l Hl; [destruct Hl|]. cbn [check_links] in H.
  destruct (String.eqb_spec (l_Node x) (s_Node req)); [done|]. destruct (String.eqb_spec (l_Node x) (s_Proxy req)); [done|].
  destruct (String.eqb_spec (l_Proxy x) (s_Node req)); [done|].
  destruct (String.eqb_spec (l_Proxy x) (s_Proxy req)) as [Ep|Ep], (String.eqb_spec (l_PublicHost x) (s_PublicHost req)) as [Eh|Eh];
    cbn [negb andb] in H; try done; (destruct Hl as [<-|Hl]; [by split_and!|by eapply IH]).
Qed.

(** The port is that of the proxy's other links. *)
Lemma check_links_port links req port p : check_links links req port = Ok p ->
  (forall a b, In a links -> In b links -> l_Proxy a = l_Proxy b -> l_ListenPort a = l_ListenPort b) ->
  forall l, In l links -> l_Proxy l = s_Proxy req -> l_ListenPort l = p.
Proof.
  revert port. induction links as [|x r IH]; intros port H Hs l Hl Ep; [destruct Hl|]. cbn [check_links] in H.
  repeat (destruct (String.eqb (l_Node x) _); [done|]). destruct (String.eqb (l_Proxy x) (s_Node req)); [done|].
  destruct (_ && _); [done|].
  assert (Hr : forall y, In y r -> l_Proxy y = s_Proxy req -> l_ListenPort y = p).
  { intros y Hy. eapply (IH _ H); [|done]. intros a b Ha Hb. apply Hs; by right. }
  destruct Hl as [<-|Hl]; [|by apply Hr].
  destruct (List.find (fun y => String.eqb (l_Proxy y) (s_Proxy req)) r) as [y|] eqn:Ef.
  - apply find_some in Ef as [Hy Ey%String.eqb_eq]. rewrite <- (Hr y Hy Ey). apply Hs; [by left|by right|congruence].
  - rewrite Ep, String.eqb_refl in H.
    assert (Hn : forall q, check_links r req q = Ok p -> q = p).
    { clear -Ef. induction r as [|z r IH]; intros q Hq; [cbn in Hq; congruence|]. cbn [check_links List.find] in *.
      destruct (String.eqb (l_Proxy z) (s_Proxy req)); [done|]. cbn [andb] in Hq.
      repeat (destruct (String.eqb (l_Node z) _); [done|]). destruct (String.eqb (l_Proxy z) (s_Node req)); [done|]. by apply IH. }
    by apply Hn.
Qed.

Lemma port_taken_none links proxy node fs : port_taken links proxy node fs = None ->
  forall l p, In l links -> l_Proxy l = proxy -> l_Node l <> node -> In p fs -> ~ In p (l_Forwards l).
Proof.
  induction links as [|x r IH]; intros H l p Hl; [destruct Hl|]. cbn [port_taken] in H.
  destruct (String.eqb_spec (l_Proxy x) proxy) as [Ep|Ep], (String.eqb_spec (l_Node x) node) as [En|En]; cbn [negb orb] in H;
    try (destruct Hl as [<-|Hl]; [done|by apply IH]).
  destruct (List.find _ (l_Forwards x)) eqn:Ef; [done|]. destruct Hl as [<-|Hl]; [|by apply IH].
  intros _ _ Hp Hpx. apply (find_none _ _ Ef) in Hpx. apply bool_decide_eq_false in Hpx. by apply Hpx, list_elem_of_In.
Qed.

Lemma free_ip_spec ns used ip : free_ip ns used = Some ip ->
  mem ip used = false /\ exists n, In n ns /\ ip = "10.77.0." +:+ itoa (Z.of_nat n).
Proof.
  induction ns as [|n r IH]; cbn [free_ip]; [done|]. destruct (mem ("10.77.0." +:+ itoa (Z.of_nat n)) used) eqn:E.
  - intros H. apply IH in H as (H & m & Hm & ->). split; [done|]. exists m. split; [by right|done].
  - intros H. assert (ip = "10.77.0." +:+ itoa (Z.of_nat n)) as -> by congruence. split; [done|]. exists n. split; [by left|done].
Qed.

Lemma tunnel_ips_valid n : In n (seq 2 253) -> validTunnelIP ("10.77.0." +:+ itoa (Z.of_nat n)) = true.
Proof.
  assert (H : forallb (fun n => validTunnelIP ("10.77.0." +:+ itoa (Z.of_nat n))) (seq 2 253) = true) by (vm_compute; reflexivity).
  rewrite forallb_forall in H. auto.
Qed.

Lemma next_ip_spec links proxy ip : nextTunnelIP links proxy = Some ip ->
  validTunnelIP ip = true /\ forall l, In l links -> l_Proxy l = proxy -> l_TunnelIP l <> ip.
Proof.
  unfold nextTunnelIP. intros H%free_ip_spec. destruct H as (Hu & n & Hn & ->). split; [by apply tunnel_ips_valid|].
  intros l Hl Ep E. apply mem_false in Hu. apply Hu. rewrite <- E. apply in_map, list_elem_of_In, list_elem_of_filter.
  split; [done|]. by apply list_elem_of_In.
Qed.

Lemma check_setup_ok links req port : check_setup links req = Ok port ->
  s_Proxy req <> s_Node req /\
  check_links links req (if s_ListenPort req =? 0 then proxyDefaultPort else s_ListenPort req) = Ok port /\
  ValidateProxyEndpoint (JoinHostPort (s_PublicHost req) (itoa port)) = None /\
  checkProxyPorts links (s_Proxy req) (s_Node req) (s_Forwards req) port = None /\
  (s_TargetIP req = "" \/ is_Some (ParseIP (s_TargetIP req))) /\ validateEgressUsers (s_EgressUsers req) = None.
Proof.
  unfold check_setup. destruct (String.eqb_spec (s_Proxy req) (s_Node req)); [done|]. destruct (_ || _); [done|].
  destruct (check_links _ _ _) as [p|]; [|done]. destruct (ValidateProxyEndpoint _) eqn:E1; [done|].
  destruct (checkProxyPorts _ _ _ _ _) eqn:E2; [done|].
  destruct (String.eqb_spec (s_TargetIP req) "") as [Et|Et]; cbn [negb andb].
  - destruct (validateEgressUsers _) eqn:E3; [done|]. intros H. assert (p = port) as -> by congruence. by split_and!; auto.
  - destruct (ParseIP (s_TargetIP req)) eqn:Ep; [|done]. destruct (validateEgressUsers _) eqn:E3; [done|].
    intros H. assert (p = port) as -> by congruence. split_and!; auto; by right.
Qed.

Lemma check_setup_error links req err : check_setup links req = Err err -> err <> NotSaved.
Proof.
  assert (Hl : forall ls port, check_links ls req port = Err err -> err <> NotSaved).
  { induction ls as [|x r IH]; intros port; cbn [check_links]; [done|].
    repeat (match goal with |- context [if ?b then _ else _] => destruct b end; try (intros; congruence)); apply IH. }
  assert (Hp : forall ls p n fs, port_taken ls p n fs <> Some NotSaved).
  { induction ls as [|x r IH]; intros p n fs; cbn [port_taken]; [done|]. destruct (_ || _); [apply IH|].
    destruct (List.find _ _); [done|apply IH]. }
  unfold check_setup. destruct (_ || _); [intros; congruence|].
  destruct (check_links _ _ _) as [p|x] eqn:E; [|intros [= <-]; by eapply Hl].
  destruct (ValidateProxyEndpoint _); [intros; congruence|]. unfold checkProxyPorts.
  destruct (ValidateProxyForwards _ _); [intros; congruence|].
  destruct (port_taken _ _ _ _) as [x|] eqn:Ep; [intros [= <-] ->; by eapply Hp|].
  destruct (_ && _); [intros; congruence|]. destruct (validateEgressUsers _); intros; congruence.
Qed.

Lemma links_ok_add links req port pk nk ip psk : links_ok links -> check_setup links req = Ok port ->
  nextTunnelIP links (s_Proxy req) = Some ip ->
  links_ok (links ++ [mkLink (s_Proxy req) (s_Node req) (s_PublicHost req) port pk nk ip (s_Forwards req) (s_TargetIP req) psk (s_EgressUsers req)]).
Proof.
  intros (H1 & H2 & H3 & H4) (Hne & Hcl & Hep & Hports & Ht & Hu)%check_setup_ok (Hip & Hipu)%next_ip_spec.
  pose proof (check_links_ok _ _ _ _ Hcl) as Hl. set (new := mkLink _ _ _ _ _ _ _ _ _ _ _).
  assert (Hport : forall l, In l links -> l_Proxy l = s_Proxy req -> l_ListenPort l = port).
  { apply (check_links_port _ _ _ _ Hcl). intros a b Ha Hb E. by destruct (H3 a b Ha Hb E) as (_ & ? & _). }
  unfold checkProxyPorts in Hports. destruct (ValidateProxyForwards (s_Forwards req) port) eqn:Evf; [done|].
  pose proof (port_taken_none _ _ _ _ Hports) as Hpt.
  split_and!.
  - rewrite map_app. apply NoDup_app. split_and!; [done| |apply NoDup_singleton].
    intros x Hx%list_elem_of_In%in_map_iff ->%list_elem_of_singleton. destruct Hx as (l & E & Hin). by destruct (Hl l Hin).
  - intros a b [Ha|[<-|[]]]%in_app_iff [Hb|[<-|[]]]%in_app_iff; [auto| | |done].
    + by destruct (Hl a Ha) as (_ & _ & ? & _).
    + cbn [l_Proxy l_Node new]. intros E. by destruct (Hl b Hb) as (_ & ? & _).
  - intros a b [Ha|[<-|[]]]%in_app_iff [Hb|[<-|[]]]%in_app_iff E; [by apply H3| | |done]; cbn in *.
    + split_and!; [by apply Hl|by apply Hport|intros Ei; by destruct (Hipu a Ha E)|].
      intros f Hfa Hfb. exfalso. eapply (Hpt a f Ha E); [by apply Hl|exact Hfb|exact Hfa].
    + split_and!; [symmetry; by apply Hl|symmetry; by apply Hport|intros Ei; by destruct (Hipu b Hb (eq_sym E))|].
      intros f Hfa Hfb. exfalso. eapply (Hpt b f Hb (eq_sym E)); [by apply Hl|exact Hfa|exact Hfb].
  - apply Forall_app. split; [done|]. apply Forall_cons. split; [by split_and!|by apply Forall_nil].
Qed.

(** ** Lemmas: the operations *)

Lemma current_snoc cs k id : current (cs ++ [k]) id = after_call id (current cs id) k.
Proof. unfold current. by rewrite fold_left_app. Qed.

(** A call leaves the plan when it sends that plan or was refused. *)
Lemma runs_plan_snoc cs why m sent r id plan : (r <> Loaded \/ m <> id \/ sent = plan) ->
  runs_plan cs id plan -> runs_plan (cs ++ [mkCall why m sent r]) id plan.
Proof.
  intros Hr H p. rewrite current_snoc. unfold after_call. cbn [c_machine c_result c_plan].
  destruct (String.eqb_spec m id) as [->|]; [|apply H]. destruct r; [|apply H|done].
  intros [= <-]. by destruct Hr as [?|[?|?]].
Qed.
Lemma runs_plan_sent cs why id plan r : r <> Refused -> runs_plan (cs ++ [mkCall why id plan r]) id plan.
Proof.
  intros Hr p. rewrite current_snoc. unfold after_call. cbn [c_machine c_result c_plan]. rewrite String.eqb_refl.
  destruct r; [by intros [= <-]|done|done].
Qed.

Section Operations.
Context (e : env).

(** What [pushLocked] did: the configuration is the same, and it sent the new
    plans, or the old one back. *)
Definition pushed (links : list ProxyLink) (p n : string) (old : list ProxyLink) (cs cs' : list call) (failed : bool) : Prop :=
  if failed then
    exists r, r <> Loaded /\
      (cs' = cs ++ [mkCall Push p (planFor links p) r] \/
       exists r', cs' = cs ++ [mkCall Push p (planFor links p) Loaded; mkCall Push n (planFor links n) r;
                               mkCall Rollback p (planFor old p) r'])
  else cs' = cs ++ [mkCall Push p (planFor links p) Loaded; mkCall Push n (planFor links n) Loaded].

Lemma push_spec links p n c : let '(r, c') := pushLocked e links p n c in
  cfg c' = cfg c /\ published c' = published c /\ file c' = file c /\ r <> Some NotSaved /\
  pushed links p n (Links (cfg c)) (calls c) (calls c') (match r with Some _ => true | None => false end).
Proof.
  unfold pushLocked, apply, pushed. cbn.
  destruct (apply_result e (clock c) p (planFor links p)) eqn:E1; cbn;
    [|split_and!; try done; eexists; (split; [|by left]); done..].
  destruct (apply_result e (S (clock c)) n (planFor links n)) eqn:E2; cbn; split_and!; try done;
    [by rewrite <- app_assoc|eexists; (split; [|right; eexists; by rewrite <- !app_assoc]); done..].
Qed.

Definition rolled_back (p n : string) (old : list ProxyLink) (cs cs' : list call) : Prop :=
  exists r1 r2, cs' = cs ++ [mkCall Rollback p (planFor old p) r1; mkCall Rollback n (planFor old n) r2].

Lemma roll_back_spec p n c : cfg (roll_back e p n c) = cfg c /\ published (roll_back e p n c) = published c /\
  file (roll_back e p n c) = file c /\ rolled_back p n (Links (cfg c)) (calls c) (calls (roll_back e p n c)).
Proof. unfold roll_back, apply. cbn. split_and!; try done. do 2 eexists. by rewrite <- app_assoc. Qed.

(** A setup either leaves the configuration as it is and returns an error, after
    sending the old plans back when it got that far, or it adds the link and
    returns it (or the error that it could not be stored). *)
Definition setup_failed (req : ProxySetup) (c : controller) (r : result controller_error ProxyLink) (c' : controller) : Prop :=
  cfg c' = cfg c /\ published c' = published c /\ file c' = file c /\ (exists err, r = Err err /\ err <> NotSaved) /\
  (calls c' = calls c \/
   exists mid links, (mid = calls c \/ pushed links (s_Proxy req) (s_Node req) (Links (cfg c)) (calls c) mid true) /\
     rolled_back (s_Proxy req) (s_Node req) (Links (cfg c)) mid (calls c')).

Definition setup_done (req : ProxySetup) (c : controller) (r : result controller_error ProxyLink) (c' : controller) : Prop :=
  exists port pk nk ip psk, 
    let new := mkLink (s_Proxy req) (s_Node req) (s_PublicHost req) port pk nk ip (s_Forwards req) (s_TargetIP req) psk (s_EgressUsers req) in
    check_setup (Links (cfg c)) req = Ok port /\ nextTunnelIP (Links (cfg c)) (s_Proxy req) = Some ip /\
    cfg c' = mkConfig (Links (cfg c) ++ [new]) (removeString (removeString (Cleanup (cfg c)) (s_Proxy req)) (s_Node req)) /\
    published c' = Links (cfg c') /\
    pushed (Links (cfg c) ++ [new]) (s_Proxy req) (s_Node req) (Links (cfg c)) (calls c) (calls c') false /\
    (r = Err NotSaved \/ (r = Ok (without_key new) /\ file c' = cfg c')).

Lemma setup_spec req c : let '(r, c') := Setup e req c in setup_failed req c r c' \/ setup_done req c r c'.
Proof.
  unfold Setup. destruct (check_setup (Links (cfg c)) req) as [port|err] eqn:Ec.
  2:{ left. split_and!; [done|done|done|exists err; split; [done|by eapply check_setup_error]|by left]. }
  destruct (random_key e (clock c)) as [psk|]; [|left; split_and!; [done|done|done|eexists; by split|by left]].
  destruct (endpoint e (clock c) (s_Proxy req)); cbn [negb]; [|left; split_and!; [done|done|done|eexists; by split|by left]].
  destruct (endpoint e (S (clock c)) (s_Node req)); cbn [negb]; [|left; split_and!; [done|done|done|eexists; by split|by left]].
  cbn [tick clock cfg published file calls].
  assert (Hrb : forall d err, err <> NotSaved -> cfg d = cfg c -> published d = published c -> file d = file c ->
    (calls d = calls c \/ exists links, pushed links (s_Proxy req) (s_Node req) (Links (cfg c)) (calls c) (calls d) true) ->
    setup_failed req c (Err err) (roll_back e (s_Proxy req) (s_Node req) d)).
  { intros d err H0 H1 H2 H3 H4. destruct (roll_back_spec (s_Proxy req) (s_Node req) d) as (R1 & R2 & R3 & R4).
    rewrite H1 in *. rewrite H2 in *. rewrite H3 in *. split_and!; [done|done|done|by exists err|]. right.
    exists (calls d). destruct H4 as [H4|[links H4]]; [exists [] |exists links]; (split; [auto|done]). }
  destruct (prepare e _ (s_Proxy req) true) as [proxyInfo|]; [|left; by apply Hrb; auto].
  destruct (prepare e _ (s_Node req) false) as [nodeInfo|]; [|left; by apply Hrb; auto].
  destruct (FatalCheck proxyInfo); [left; by apply Hrb; auto|]. destruct (FatalCheck nodeInfo); [left; by apply Hrb; auto|].
  destruct (nextTunnelIP (Links (cfg c)) (s_Proxy req)) as [ip|] eqn:Eip; [|left; by apply Hrb; auto].
  set (new := mkLink _ _ _ _ _ _ _ _ _ _ _). match goal with |- context [pushLocked e _ _ _ ?x] => set (d := x) end.
  pose proof (push_spec (Links (cfg c) ++ [new]) (s_Proxy req) (s_Node req) d) as Hp.
  destruct (pushLocked e _ _ _ d) as [[err|] c1]; destruct Hp as (P1 & P2 & P3 & P5 & P4).
  - left. apply Hrb; try done; [congruence|]. right. eexists. exact P4.
  - unfold saveLocked, set_cfg. cbn [cfg clock published file calls].
    destruct (write_ok e (clock c1)) eqn:Ew; cbn [negb];
      (right; exists port, (PublicKey proxyInfo), (PublicKey nodeInfo), ip, psk; split_and!; cbn [cfg published file calls Links]; try done);
      [by rewrite P1|by right|by rewrite P1|by left].
Qed.

Lemma push_change_spec p n links c : let '(r, c') := push_change e p n links c in
  (cfg c' = cfg c /\ published c' = published c /\ is_Some r /\
   (calls c' = calls c \/ pushed links p n (Links (cfg c)) (calls c) (calls c') true)) \/
  (cfg c' = mkConfig links (Cleanup (cfg c)) /\ published c' = links /\
   pushed links p n (Links (cfg c)) (calls c) (calls c') false).
Proof.
  unfold push_change. destruct (endpoint e (clock c) p); cbn [negb]; [|left; split_and!; auto].
  destruct (endpoint e (S (clock c)) n); cbn [negb]; [|left; split_and!; auto].
  pose proof (push_spec links p n (tick (tick c))) as Hp.
  destruct (pushLocked e links p n (tick (tick c))) as [[err|] c1]; destruct Hp as (P1 & P2 & P3 & P5 & P4).
  - left. split_and!; auto.
  - right. unfold saveLocked, set_cfg. cbn. by rewrite P1.
Qed.

Lemma remove_one_In l s x : In x (remove_one l s) -> In x l.
Proof. induction l as [|y l IH]; cbn [remove_one]; [done|]. destruct (String.eqb y s); [by right|]. intros [<-|H]; [by left|right; auto]. Qed.

Lemma remove_one_other l s x : x <> s -> In x l -> In x (remove_one l s).
Proof.
  intros Hx. induction l as [|y l IH]; cbn [remove_one]; [done|]. destruct (String.eqb_spec y s) as [->|].
  - intros [E|H]; [congruence|done].
  - intros [<-|H]; [by left|right; auto].
Qed.

Lemma remove_one_NoDup l s : NoDup l -> NoDup (remove_one l s) /\ ~ In s (remove_one l s).
Proof.
  induction l as [|y l IH]; intros Hl; cbn [remove_one]; [split; [by apply NoDup_nil|intros []]|].
  apply NoDup_cons in Hl as [Hy Hl]. rewrite list_elem_of_In in Hy. destruct (String.eqb_spec y s) as [->|Hn]; [by split|].
  destruct (IH Hl) as [H1 H2]. split; [|by intros [?|?]]. apply NoDup_cons. split; [|done].
  rewrite list_elem_of_In. by intros ?%remove_one_In.
Qed.

Lemma remove_one_none l s : mem s l = false -> remove_one l s = l.
Proof.
  intros H%mem_false. induction l as [|y l IH]; [done|]. cbn [remove_one].
  destruct (String.eqb_spec y s) as [->|]; [destruct H; by left|]. f_equal. apply IH. intros ?. apply H. by right.
Qed.

Definition synced_or_open (links : list ProxyLink) (open : list string) (cs : list call) (id : string) : Prop :=
  In id open \/ runs_plan cs id (planFor links id).

Lemma sync_loop_spec ids : forall open changed c, let '(open', changed', c') := sync_loop e ids open changed c in
  cfg c' = cfg c /\ published c' = published c /\ file c' = file c /\
  (changed' = false -> open' = open /\ changed = false) /\ (forall x, In x open' -> In x open) /\
  (NoDup open -> NoDup open') /\
  (exists ks, calls c' = calls c ++ ks /\ Forall (fun k => c_purpose k = Syncing) ks) /\
  (forall id, synced_or_open (Links (cfg c)) open (calls c) id -> synced_or_open (Links (cfg c)) open' (calls c') id).
Proof.
  induction ids as [|id r IH]; intros open changed c; cbn [sync_loop].
  - split_and!; try done. exists []. by rewrite app_nil_r.
  - destruct (endpoint e (clock c) id); cbn [negb]; [|exact (IH open changed (tick c))].
    unfold apply. cbn [tick cfg clock published file calls]. set (res := apply_result _ _ _ _).
    set (k := mkCall Syncing id (planFor (Links (cfg c)) id) res). set (d := mkController _ _ _ _ _).
    destruct (loaded res) eqn:Eok; cbn [negb].
    + specialize (IH (remove_one open id) (changed || mem id open) d).
      destruct (sync_loop e r _ _ d) as [[open' changed'] c']. destruct IH as (I1 & I2 & I3 & I4 & I5 & I6 & (ks & I7 & I8) & I9).
      split_and!; [done|done|done| | | | |].
      * intros H. destruct (I4 H) as [-> H2%orb_false_iff]. destruct H2 as [-> H2]. by rewrite remove_one_none.
      * intros x Hx. by eapply remove_one_In, I5.
      * intros Hn. apply I6. by apply remove_one_NoDup.
      * exists (k :: ks). split; [|by constructor]. rewrite I7. unfold d. cbn [calls]. by rewrite <- app_assoc.
      * intros x Hx. apply (I9 x). unfold synced_or_open, d in *. cbn [calls cfg]. unfold k.
        destruct (decide (x = id)) as [->|Hne]; [right; apply runs_plan_sent; by destruct res|].
        destruct Hx as [Hx|Hx]; [left; by apply remove_one_other|right; apply runs_plan_snoc; auto].
    + specialize (IH open changed d).
      destruct (sync_loop e r _ _ d) as [[open' changed'] c']. destruct IH as (I1 & I2 & I3 & I4 & I5 & I6 & (ks & I7 & I8) & I9).
      split_and!; [done|done|done|done|done|done| |].
      * exists (k :: ks). split; [|by constructor]. rewrite I7. unfold d. cbn [calls]. by rewrite <- app_assoc.
      * intros x Hx. apply (I9 x). unfold synced_or_open, d in *. cbn [calls cfg]. unfold k.
        destruct Hx as [Hx|Hx]; [by left|right; apply runs_plan_snoc; [left; by destruct res|done]].
Qed.

Definition coherent (c : controller) : Prop :=
  links_ok (Links (cfg c)) /\ published c = Links (cfg c) /\ NoDup (Cleanup (cfg c)).

Definition rollbacks_ok (cs : list call) (id : string) : Prop :=
  Forall (fun k => c_purpose k = Rollback -> c_machine k = id -> c_result k <> Refused) cs.

(** The machine has its plan, or is still listed to get it. *)
Definition follows (c : controller) (id : string) : Prop :=
  rollbacks_ok (calls c) id -> synced_or_open (Links (cfg c)) (Cleanup (cfg c)) (calls c) id.

Lemma sync_spec c : coherent c -> coherent (syncLocked e c) /\ Links (cfg (syncLocked e c)) = Links (cfg c) /\
  forall id, follows c id -> follows (syncLocked e c) id.
Proof.
  intros (H1 & H2 & H3). unfold syncLocked. destruct (_ && _); [done|].
  pose proof (sync_loop_spec (shuffle e (clock c) (machines (cfg c))) (Cleanup (cfg c)) false c) as Hs.
  destruct (sync_loop e _ _ _ c) as [[open' changed'] c']. destruct Hs as (I1 & I2 & I3 & I4 & I5 & I6 & (ks & I7 & _) & I9).
  assert (Hf : forall c2, Links (cfg c2) = Links (cfg c) -> Cleanup (cfg c2) = open' -> calls c2 = calls c' ->
    forall id, follows c id -> follows c2 id).
  { intros c2 E1 E2 E3 id Hid. unfold follows. rewrite E1, E2, E3. intros Hr. apply I9, Hid. rewrite I7 in Hr.
    by apply Forall_app in Hr as [Hr _]. }
  destruct changed'; cbn.
  - rewrite I1. split_and!; [split_and!; cbn; [done|done|auto]|done|]. apply Hf; cbn; by rewrite ?I1.
  - destruct (I4 eq_refl) as [-> _]. split_and!; [split_and!; rewrite ?I1, ?I2; done|by rewrite I1|]. apply Hf; by rewrite ?I1.
Qed.
End Operations.

(** ** Lemmas: which plan a machine is left with *)

Lemma of_proxy_filter links node l id : NoDup (map l_Node links) -> In l links -> l_Node l = node -> id <> l_Proxy l ->
  of_proxy id (filter (fun x => l_Node x <> node) links) = of_proxy id links.
Proof.
  intros Hnd Hl En Hid.
  assert (H : forall x, In x links -> l_Proxy x = id -> l_Node x <> node).
  { intros x Hx Ep E. apply Hid. rewrite <- Ep. f_equal. apply (same_node links); [done|done|done|congruence]. }
  clear -H. induction links as [|x r IH]; [done|]. rewrite filter_cons. case_decide as Hd.
  - rewrite !filter_proxy_cons, IH; [done|]. intros y Hy. apply H. by right.
  - rewrite filter_proxy_cons, IH by (intros y Hy; apply H; by right).
    destruct (String.eqb_spec (l_Proxy x) id) as [E|]; [|done]. exfalso. exact (H x (or_introl eq_refl) E Hd).
Qed.

Lemma of_node_filter links node id : id <> node ->
  of_node id (filter (fun x => l_Node x <> node) links) = of_node id links.
Proof.
  intros Hid. induction links as [|x r IH]; [done|]. rewrite filter_cons. case_decide as Hd; rewrite !filter_node_cons, ?IH; [done|].
  destruct (String.eqb_spec (l_Node x) id) as [E|]; [congruence|done].
Qed.

Lemma planFor_change links node f l id : NoDup (map l_Node links) -> same_ends f -> In l links -> l_Node l = node ->
  id <> node -> id <> l_Proxy l -> planFor (change_link links node f) id = planFor links id.
Proof.
  intros Hnd Hf Hl En H1 H2. rewrite change_link_map by done. rewrite !planFor_spec.
  assert (H : forall x, In x links -> l_Node x = node -> l_Proxy x <> id).
  { intros x Hx E Ep. apply H2. rewrite <- Ep. f_equal. symmetry. apply (same_node links); [done|done|done|congruence]. }
  assert (Hp : of_proxy id (map (fun x => if String.eqb (l_Node x) node then f x else x) links) = of_proxy id links /\
               of_node id (map (fun x => if String.eqb (l_Node x) node then f x else x) links) = of_node id links).
  { clear -H H1 Hf. induction links as [|x r IH]; [done|]. cbn [map]. rewrite !filter_proxy_cons, !filter_node_cons.
    destruct IH as [-> ->]; [intros y Hy; apply H; by right|].
    destruct (String.eqb_spec (l_Node x) node) as [E|]; [|done].
    destruct (Hf x) as (-> & -> & _). pose proof (H x (or_introl eq_refl) E).
    destruct (String.eqb_spec (l_Proxy x) id); [done|]. destruct (String.eqb_spec (l_Node x) id); [congruence|done]. }
  by destruct Hp as [-> ->].
Qed.

Lemma pushed_ok_current links p n old cs cs' id : pushed links p n old cs cs' false -> p <> n ->
  current cs' id = if String.eqb n id then Some (planFor links n) else if String.eqb p id then Some (planFor links p) else current cs id.
Proof.
  intros -> Hne. change (cs ++ [?a; ?b]) with (cs ++ [a] ++ [b]). by rewrite app_assoc, !current_snoc.
Qed.

Lemma rollbacks_app cs ks id : rollbacks_ok (cs ++ ks) id <-> rollbacks_ok cs id /\ rollbacks_ok ks id.
Proof. apply Forall_app. Qed.

Lemma rollback_sent cs p plan r id : rollbacks_ok [mkCall Rollback p plan r] id ->
  forall q, (p = id -> plan = q) -> (p <> id -> runs_plan cs id q) -> runs_plan (cs ++ [mkCall Rollback p plan r]) id q.
Proof.
  intros Hk q Hp Hn. destruct (decide (p = id)) as [->|Hne].
  - rewrite <- Hp by done. apply runs_plan_sent. apply Forall_inv in Hk. by apply Hk.
  - apply runs_plan_snoc; auto.
Qed.

(** A push that failed leaves a machine with its old plan, when the rollback worked. *)
Lemma pushed_failed_current links p n old cs cs' id : pushed links p n old cs cs' true -> rollbacks_ok cs' id ->
  rollbacks_ok cs id /\ (runs_plan cs id (planFor old id) -> runs_plan cs' id (planFor old id)).
Proof.
  intros (r & Hr & [->|[r' ->]]) [H Hk]%rollbacks_app; (split; [done|]); intros Hc.
  - apply runs_plan_snoc; auto.
  - change (cs ++ [?a; ?b; ?c]) with (cs ++ [a] ++ [b] ++ [c]). rewrite !app_assoc.
    apply rollback_sent; [by do 2 apply Forall_inv_tail in Hk|by intros ->|].
    intros Hne. apply runs_plan_snoc; [by left|]. apply runs_plan_snoc; auto.
Qed.

Lemma rolled_back_current p n old cs cs' id : rolled_back p n old cs cs' -> rollbacks_ok cs' id ->
  rollbacks_ok cs id /\ (runs_plan cs id (planFor old id) -> runs_plan cs' id (planFor old id)).
Proof.
  intros (r1 & r2 & ->) [Hr Hk]%rollbacks_app. split; [done|]. intros Hc.
  change (cs ++ [?a; ?b]) with (cs ++ [a] ++ [b]). rewrite app_assoc.
  apply rollback_sent; [by apply Forall_inv_tail in Hk|by intros ->|]. intros _.
  apply rollback_sent; [|by intros ->|done]. apply Forall_inv in Hk. by constructor.
Qed.

Lemma with_forwards_ends fs : same_ends (with_forwards fs).
Proof. by intros l. Qed.
Lemma with_egress_ends us : same_ends (with_egress us).
Proof. by intros l. Qed.

Lemma removeString_In l s x : In x (removeString l s) <-> In x l /\ x <> s.
Proof. unfold removeString. rewrite <- !list_elem_of_In, list_elem_of_filter. tauto. Qed.

Lemma append_unique_In l s x : In x (appendUniqueString l s) <-> In x l \/ x = s.
Proof.
  unfold appendUniqueString. destruct (mem s l) eqn:E.
  - apply mem_true in E. split; [auto|intros [?| ->]; done].
  - rewrite in_app_iff. simpl. intuition congruence.
Qed.

Lemma append_unique_NoDup l s : NoDup l -> NoDup (appendUniqueString l s).
Proof.
  intros H. unfold appendUniqueString. destruct (mem s l) eqn:E; [done|]. apply mem_false in E.
  apply NoDup_app. split_and!; [done| |apply NoDup_singleton]. intros x Hx ->%list_elem_of_singleton. by apply E, list_elem_of_In.
Qed.

Section Steps.
Context (e : env).

Lemma setup_step req c : coherent c -> coherent (snd (Setup e req c)) /\
  forall id, follows c id -> follows (snd (Setup e req c)) id.
Proof.
  intros (H1 & H2 & H3). pose proof (setup_spec e req c) as Hs. destruct (Setup e req c) as [r c']. cbn [snd].
  destruct Hs as [(S1 & S2 & _ & _ & S4)|(port & pk & nk & ip & psk & Hs)].
  - split; [split_and!; rewrite ?S1, ?S2; done|]. intros id Hid. unfold follows, synced_or_open in *. rewrite S1.
    destruct S4 as [->|(mid & links & Hm & Hrb)]; [done|]. intros Hr.
    destruct (rolled_back_current _ _ _ _ _ _ Hrb Hr) as [Hr' Hc]. destruct Hm as [->|Hm].
    + destruct (Hid Hr') as [|Hcur]; [by left|right; auto].
    + destruct (pushed_failed_current _ _ _ _ _ _ _ Hm Hr') as (Hr2 & Hc2).
      destruct (Hid Hr2) as [|Hcur]; [by left|right; auto].
  - cbn zeta in Hs. destruct Hs as (Hck & Hip & Hcfg & Hpub & Hpush & _).
    pose proof (links_ok_add _ _ _ pk nk _ psk H1 Hck Hip) as Hok. destruct (check_setup_ok _ _ _ Hck) as (Hne & _).
    split.
    + split_and!; [by rewrite Hcfg|by rewrite Hpub, Hcfg|]. rewrite Hcfg. cbn [Cleanup]. unfold removeString. by do 2 apply NoDup_filter.
    + intros id Hid Hr. unfold synced_or_open. rewrite Hcfg. cbn [Links Cleanup].
      unfold runs_plan. rewrite (pushed_ok_current _ _ _ _ _ _ _ Hpush Hne). rewrite !removeString_In.
      destruct (String.eqb_spec (s_Node req) id) as [->|Hn]; [right; by intros p [= <-]|].
      destruct (String.eqb_spec (s_Proxy req) id) as [->|Hp]; [right; by intros p [= <-]|].
      rewrite planFor_app by done. red in Hpush. rewrite Hpush in Hr. apply rollbacks_app in Hr as [Hr _].
      destruct (Hid Hr) as [|]; [left; by split_and!|by right].
Qed.

Lemma change_step p node f l c : coherent c -> same_ends f -> In l (Links (cfg c)) -> l_Node l = node -> p = l_Proxy l ->
  links_ok (change_link (Links (cfg c)) node f) ->
  let c' := snd (push_change e p node (change_link (Links (cfg c)) node f) c) in
  coherent c' /\ forall id, follows c id -> follows c' id.
Proof.
  intros (H1 & H2 & H3) Hf Hl En Ep Hok. cbn zeta.
  assert (Hne : p <> node) by (rewrite Ep, <- En; by apply H1).
  pose proof (push_change_spec e p node (change_link (Links (cfg c)) node f) c) as Hs.
  destruct (push_change e p node _ c) as [r c']. cbn [snd]. destruct Hs as [(S1 & S2 & _ & S4)|(S1 & S2 & S4)].
  - split; [split_and!; rewrite ?S1, ?S2; done|]. intros id Hid. unfold follows, synced_or_open in *. rewrite S1.
    destruct S4 as [->|Hp]; [done|]. intros Hr. destruct (pushed_failed_current _ _ _ _ _ _ _ Hp Hr) as (Hr' & Hc).
    destruct (Hid Hr') as [|Hcur]; [by left|right; auto].
  - split; [split_and!; rewrite ?S1, ?S2; done|]. intros id Hid Hr. unfold synced_or_open. rewrite S1. cbn [Links Cleanup].
    unfold runs_plan. rewrite (pushed_ok_current _ _ _ _ _ _ _ S4 Hne).
    destruct (String.eqb_spec node id) as [->|Hn]; [right; by intros q [= <-]|].
    destruct (String.eqb_spec p id) as [->|Hp]; [right; by intros q [= <-]|].
    rewrite (planFor_change _ _ f l); [|by apply H1|done|done|done|congruence|congruence].
    red in S4. rewrite S4 in Hr. apply rollbacks_app in Hr as [Hr _]. by apply Hid.
Qed.

Lemma forwards_step node fs c : coherent c -> coherent (snd (SetForwards e node fs c)) /\
  forall id, follows c id -> follows (snd (SetForwards e node fs c)) id.
Proof.
  intros Hc. unfold SetForwards. pose proof (link_of_spec (Links (cfg c)) node) as Hl.
  destruct (link_of _ node) as [l|]; [|done]. destruct Hl as [Hl En].
  destruct (checkProxyPorts _ _ _ _ _) eqn:Ep; [done|].
  apply (change_step (l_Proxy l) node (with_forwards fs) l); try done.
  apply links_ok_change; [apply Hc|apply with_forwards_ends|]. intros x Hx Ex.
  assert (x = l) as -> by (apply (same_node (Links (cfg c))); [apply Hc|done|done|congruence]).
  unfold checkProxyPorts in Ep. destruct (ValidateProxyForwards fs (l_ListenPort l)) eqn:Ev; [done|].
  destruct Hc as ((_ & _ & _ & Hv) & _). rewrite Forall_forall in Hv.
  destruct (Hv l) as (_ & V2 & V3 & V4 & V5); [by apply list_elem_of_In|]. split; [by split_and!|].
  intros b p Hb Eb Enb Hp. by eapply (port_taken_none _ _ _ _ Ep b p).
Qed.

Lemma egress_step node us c : coherent c -> coherent (snd (SetEgress e node us c)) /\
  forall id, follows c id -> follows (snd (SetEgress e node us c)) id.
Proof.
  intros Hc. unfold SetEgress. destruct (validateEgressUsers us) eqn:Ev; [done|].
  pose proof (link_of_spec (Links (cfg c)) node) as Hl. destruct (link_of _ node) as [l|]; [|done]. destruct Hl as [Hl En].
  apply (change_step (l_Proxy l) node (with_egress us) l); try done.
  destruct Hc as (Hok & _ & _). apply links_ok_change; [done|apply with_egress_ends|]. intros x Hx Ex.
  pose proof Hok as (H1 & _ & H3 & Hv). rewrite Forall_forall in Hv.
  destruct (Hv x) as (V1 & V2 & V3 & V4 & V5); [by apply list_elem_of_In|]. split; [by split_and!|].
  intros b p Hb Eb Enb Hp Hpb. destruct (H3 x b Hx Hb (eq_sym Eb)) as (_ & _ & _ & Hd). apply Enb. rewrite <- Ex. symmetry. by eapply Hd.
Qed.

Lemma remove_step node c : coherent c -> coherent (snd (Remove e node c)) /\
  forall id, follows c id -> follows (snd (Remove e node c)) id.
Proof.
  intros (H1 & H2 & H3). unfold Remove. pose proof (link_of_spec (Links (cfg c)) node) as Hl.
  destruct (link_of _ node) as [l|]; [|done]. destruct Hl as [Hl En].
  unfold saveLocked, set_cfg. cbn [cfg clock published file calls].
  set (d := mkController _ _ _ _ _).
  assert (Hd : coherent d /\ forall id, follows c id -> follows d id).
  { split.
    - split_and!; cbn; [by apply links_ok_filter|done|by do 2 apply append_unique_NoDup].
    - intros id Hid Hr. unfold synced_or_open. cbn. rewrite !append_unique_In.
      destruct (decide (id = node)) as [->|Hn]; [left; by right|].
      destruct (decide (id = l_Proxy l)) as [->|Hp]; [left; left; by right|].
      destruct (Hid Hr) as [|Hcur]; [left; by left; left|right]. intros q Hq. refine (eq_trans (Hcur q Hq) _).
      change (planFor (Links (cfg c)) id = planFor (filter (fun x => l_Node x <> node) (Links (cfg c))) id). rewrite !planFor_spec.
      by rewrite (of_proxy_filter _ _ l), of_node_filter by (done || apply H1). }
  destruct (write_ok e (clock c)); cbn [negb snd]; [|done].
  destruct Hd as [Hd1 Hd2]. destruct (sync_spec e d Hd1) as (S1 & _ & S2). split; [done|]. intros id Hid. apply S2, Hd2, Hid.
Qed.

Lemma forget_step id c : coherent c -> coherent (ForgetDone e id c) /\
  forall x, x <> id -> follows c x -> follows (ForgetDone e id c) x.
Proof.
  intros (H1 & H2 & H3). split.
  - split_and!; cbn; [done|done|]. unfold removeString. by apply NoDup_filter.
  - intros x Hx Hfx. unfold follows, synced_or_open in *. cbn. rewrite removeString_In.
    intros Hr. destruct (Hfx Hr) as [|]; [left; by split|by right].
Qed.

Lemma op_step o c : coherent c -> coherent (run_op e o c) /\
  forall id, o <> OForgetDone id -> follows c id -> follows (run_op e o c) id.
Proof.
  intros Hc. destruct o as [req|node fs|node us|node| |x]; cbn [run_op].
  - destruct (setup_step req c Hc). auto.
  - destruct (forwards_step node fs c Hc). auto.
  - destruct (egress_step node us c Hc). auto.
  - destruct (remove_step node c Hc). auto.
  - destruct (sync_spec e c Hc) as (? & _ & ?). auto.
  - destruct (forget_step x c Hc) as [? H]. split; [done|]. intros id Hne. apply H. congruence.
Qed.

Lemma ops_step os : forall c, coherent c -> coherent (run_ops e os c) /\
  forall id, ~ In (OForgetDone id) os -> follows c id -> follows (run_ops e os c) id.
Proof.
  induction os as [|o os IH]; intros c Hc; [done|]. cbn [run_ops fold_left].
  destruct (op_step o c Hc) as [H1 H2]. destruct (IH _ H1) as [I1 I2]. split; [done|].
  intros id Hn Hf. apply I2; [intros ?; apply Hn; by right|]. apply H2; [|done]. intros ->. apply Hn. by left.
Qed.
End Steps.

Lemma new_coherent : coherent new_controller.
Proof. split_and!; [split_and!; [apply NoDup_nil_2|by intros ? ? []|by intros ? ? []|by apply Forall_nil]|done|apply NoDup_nil_2]. Qed.

(** ** Lemmas: valid plans *)

Lemma of_proxy_In id links l : In l (of_proxy id links) <-> In l links /\ l_Proxy l = id.
Proof. unfold of_proxy. rewrite <- !list_elem_of_In, list_elem_of_filter. tauto. Qed.

(** Lists without duplicates, no element in two of them. *)
Lemma NoDup_flat {A B} (g : A -> list B) (key : A -> string) ls :
  NoDup (map key ls) -> (forall a, In a ls -> NoDup (g a)) ->
  (forall a b x, In a ls -> In b ls -> In x (g a) -> In x (g b) -> key a = key b) -> NoDup (flat_map g ls).
Proof.
  induction ls as [|a ls IH]; intros Hk Hn Hd; [apply NoDup_nil_2|]. cbn [map flat_map] in *.
  apply NoDup_cons in Hk as [Hni Hk]. apply NoDup_app. split_and!.
  - apply Hn. by left.
  - intros x Hx Hf. apply list_elem_of_In in Hx, Hf. apply in_flat_map in Hf as (b & Hb & Hxb). apply Hni.
    rewrite (Hd a b x); [by apply list_elem_of_In, in_map|by left|by right|done|done].
  - apply IH; [done|intros b Hb; apply Hn; by right|]. intros b c x Hb Hc. apply Hd; by right.
Qed.

Definition keys_ok (l : ProxyLink) : Prop :=
  validProxyKey (l_ProxyPublicKey l) = true /\ validProxyKey (l_NodePublicKey l) = true /\
  (l_PresharedKey l = "" \/ validProxyKey (l_PresharedKey l) = true).

Lemma NoDup_map_filter {A B} (f : A -> B) (P : A -> Prop) `{forall x, Decision (P x)} (l : list A) :
  NoDup (map f l) -> NoDup (map f (filter P l)).
Proof.
  induction l as [|x l IH]; intros Hn; [done|]. cbn [map] in Hn. apply NoDup_cons in Hn as [Hx Hn].
  rewrite filter_cons. case_decide; [|auto]. cbn [map]. apply NoDup_cons. split; [|auto].
  intros (y & E & Hy)%list_elem_of_In%in_map_iff. apply Hx. rewrite <- E. apply list_elem_of_In, in_map.
  apply list_elem_of_In, list_elem_of_filter in Hy as [_ Hy]. by apply list_elem_of_In.
Qed.

Lemma proxy_plan_shape links l : links_ok links -> In l links ->
  planFor links (l_Proxy l) =
    mkPlan (Some (mkProxySide (l_ListenPort l) (map peer_of (of_proxy (l_Proxy l) links)))) None.
Proof.
  intros (H1 & H2 & H3 & H4) Hl. rewrite planFor_spec.
  assert (En : of_node (l_Proxy l) links = []).
  { destruct (of_node (l_Proxy l) links) as [|x r] eqn:E; [done|]. exfalso.
    assert (Hx : x ∈ of_node (l_Proxy l) links) by (rewrite E; by left).
    apply list_elem_of_filter in Hx as [Hx1 Hx2]. apply (H2 l x Hl); [by apply list_elem_of_In|done]. }
  rewrite En. cbn [List.rev]. f_equal.
  assert (Hin : In l (of_proxy (l_Proxy l) links)) by (by apply of_proxy_In).
  destruct (of_proxy (l_Proxy l) links) as [|x r] eqn:E; [done|]. cbn [side_after]. do 2 f_equal.
  assert (Hx : In x (of_proxy (l_Proxy l) links)) by (rewrite E; by left). apply of_proxy_In in Hx as [Hx Ex].
  by destruct (H3 x l Hx Hl Ex) as (_ & ? & _).
Qed.

Lemma node_plan_shape links l : links_ok links -> In l links ->
  planFor links (l_Node l) = mkPlan None (Some (node_side_of l)).
Proof.
  intros (H1 & H2 & H3 & H4) Hl. rewrite planFor_spec.
  assert (Ep : of_proxy (l_Node l) links = []).
  { destruct (of_proxy (l_Node l) links) as [|x r] eqn:E; [done|]. exfalso.
    assert (Hx : In x (of_proxy (l_Node l) links)) by (rewrite E; by left). apply of_proxy_In in Hx as [Hx Ex].
    by apply (H2 x l Hx Hl). }
  rewrite Ep. cbn [side_after]. f_equal.
  destruct (List.rev (of_node (l_Node l) links)) as [|x r] eqn:E.
  - exfalso. assert (Hx : In l (List.rev (of_node (l_Node l) links))); [|by rewrite E in Hx].
    rewrite <- in_rev, <- list_elem_of_In. apply list_elem_of_filter. split; [done|by apply list_elem_of_In].
  - assert (Hx : In x (List.rev (of_node (l_Node l) links))) by (rewrite E; by left).
    rewrite <- in_rev, <- list_elem_of_In in Hx. apply list_elem_of_filter in Hx as [Ex Hx].
    f_equal. f_equal. apply (same_node links); [done|by apply list_elem_of_In|done|done].
Qed.

Lemma proxy_side_valid links l : links_ok links -> In l links -> Forall keys_ok links ->
  1024 <= l_ListenPort l <= 65535 -> (length (flat_map l_Forwards (of_proxy (l_Proxy l) links)) <= 64)%nat ->
  proxy_side_ok (mkProxySide (l_ListenPort l) (map peer_of (of_proxy (l_Proxy l) links))).
Proof.
  intros Hok Hl Hk Hp Hlen. pose proof Hok as (H1 & H2 & H3 & H4). rewrite Forall_forall in H4, Hk.
  assert (Hin : In l (of_proxy (l_Proxy l) links)) by (by apply of_proxy_In).
  assert (Hfl : flat_map p_Forwards (map peer_of (of_proxy (l_Proxy l) links)) = flat_map l_Forwards (of_proxy (l_Proxy l) links)).
  { generalize (of_proxy (l_Proxy l) links). induction l0 as [|x r IH]; [done|]. cbn. by rewrite IH. }
  unfold proxy_side_ok. cbn [ListenPort Peers]. split_and!.
  - lia.
  - lia.
  - intros E. by destruct (of_proxy (l_Proxy l) links).
  - apply Forall_forall. intros p (x & <- & Hx)%list_elem_of_In%in_map_iff. apply of_proxy_In in Hx as [Hx _].
    destruct (H4 x) as (_ & _ & V3 & _); [by apply list_elem_of_In|]. destruct (Hk x) as (_ & K2 & K3); [by apply list_elem_of_In|].
    by split_and!.
  - rewrite map_map. cbn [peer_of p_TunnelIP].
    assert (Hn : NoDup (map l_Node (of_proxy (l_Proxy l) links))) by (by apply NoDup_map_filter).
    assert (Hd : forall a b, In a (of_proxy (l_Proxy l) links) -> In b (of_proxy (l_Proxy l) links) ->
      l_TunnelIP a = l_TunnelIP b -> l_Node a = l_Node b).
    { intros a b [Ha Ea]%of_proxy_In [Hb Eb]%of_proxy_In. apply (H3 a b Ha Hb). congruence. }
    revert Hn Hd. generalize (of_proxy (l_Proxy l) links). induction l0 as [|x r IH]; intros Hn Hd; [apply NoDup_nil_2|].
    cbn [map] in *. apply NoDup_cons in Hn as [Hni Hn]. apply NoDup_cons. split.
    + intros (y & E & Hy)%list_elem_of_In%in_map_iff. apply Hni. rewrite (Hd x y); [by apply list_elem_of_In, in_map|by left|by right|by symmetry].
    + apply IH; [done|]. intros a b Ha Hb. apply Hd; by right.
  - rewrite Hfl. split_and!.
    + assert (Hf : forwards_ok (l_Forwards l) (l_ListenPort l)) by (apply validate_forwards_iff, H4, list_elem_of_In, Hl).
      destruct Hf as [[Hf _] _]. apply (in_split _ _) in Hin as (a & b & E). rewrite E, flat_map_app. cbn [flat_map].
      rewrite !length_app. lia.
    + done.
    + apply Forall_forall. intros f (x & Hx & Hf)%list_elem_of_In%in_flat_map. apply of_proxy_In in Hx as [Hx Ex].
      assert (Hv : forwards_ok (l_Forwards x) (l_ListenPort x)) by (apply validate_forwards_iff, H4, list_elem_of_In, Hx).
      destruct Hv as (_ & Hv & _). destruct (H3 x l Hx Hl Ex) as (_ & <- & _). rewrite Forall_forall in Hv. by apply Hv, list_elem_of_In.
    + apply (NoDup_flat _ l_Node); [by apply NoDup_map_filter| |].
      * intros x [Hx _]%of_proxy_In.
        assert (Hv : forwards_ok (l_Forwards x) (l_ListenPort x)) by (apply validate_forwards_iff, H4, list_elem_of_In, Hx). apply Hv.
      * intros a b f [Ha Ea]%of_proxy_In [Hb Eb]%of_proxy_In. apply (H3 a b Ha Hb). congruence.
Qed.

Lemma node_side_valid l : link_valid l -> keys_ok l -> l_ListenPort l <> 0 -> node_side_ok (node_side_of l).
Proof.
  intros (V1 & V2 & V3 & V4 & V5) (K1 & K2 & K3) Hp. unfold node_side_ok, node_side_of. cbn.
  split_and!; try done; [|by apply validate_egress_iff].
  apply validate_forwards_iff in V1 as (F1 & F2 & F3). split_and!; try (apply F1 || done).
  eapply Forall_impl; [exact F2|]. intros f (G1 & G2 & G3 & _). split_and!; try done; lia.
Qed.

(** ** Lemmas: a sync that reaches everything *)

Lemma sync_all e ids : (forall n id, endpoint e n id = true) -> (forall n id p, apply_result e n id p = Loaded) ->
  forall open changed c, NoDup open -> let '(open', changed', c') := sync_loop e ids open changed c in
  (forall id, In id ids -> ~ In id open' /\ current (calls c') id = Some (planFor (Links (cfg c)) id)) /\
  (forall id, is_Some (current (calls c) id) -> is_Some (current (calls c') id)).
Proof.
  intros He Ha. induction ids as [|x r IH]; intros open changed c Hn; [by split|]. cbn [sync_loop]. rewrite He. cbn [negb].
  unfold apply. cbn [tick cfg clock published file calls]. rewrite Ha. cbn [loaded negb]. set (d := mkController _ _ _ _ _).
  destruct (remove_one_NoDup open x Hn) as [Hn' Hx]. specialize (IH (remove_one open x) (changed || mem x open) d Hn').
  pose proof (sync_loop_spec e r (remove_one open x) (changed || mem x open) d) as Hs.
  destruct (sync_loop e r _ _ d) as [[open' changed'] c']. destruct Hs as (_ & _ & _ & _ & I5 & _ & _ & I9).
  destruct IH as [IH1 IH2].
  assert (Hd : forall id, current (calls d) id = after_call id (current (calls c) id) (mkCall Syncing x (planFor (Links (cfg c)) x) Loaded))
    by (intros; unfold d; cbn [calls]; apply current_snoc).
  assert (Hdx : current (calls d) x = Some (planFor (Links (cfg c)) x))
    by (rewrite Hd; unfold after_call; cbn; by rewrite String.eqb_refl).
  split.
  - intros id [<-|Hid]; [|by apply IH1]. assert (Ho : ~ In x open') by (intros ?; by apply Hx, I5). split; [done|].
    destruct (I9 x) as [|Hc]; [right; by intros p; rewrite Hdx; intros [= <-]|done|].
    destruct (IH2 x) as [p Hp]; [by rewrite Hdx|]. rewrite Hp. f_equal. by apply Hc.
  - intros id Hid. apply IH2. rewrite Hd. unfold after_call. cbn. by destruct (String.eqb x id).
Qed.

(** * Properties *)

(** C5: whatever is asked for, and whatever fails in between, the stored links stay
    consistent: a machine is the node of at most one proxy and is never both, and
    the nodes of a proxy share its address and port and never a tunnel address or a
    port; readers see exactly these links. *)
Theorem proxy_links_consistent e os :
  links_ok (Links (cfg (run_ops e os new_controller))) /\
  published (run_ops e os new_controller) = Links (cfg (run_ops e os new_controller)).
Proof. destruct (ops_step e os new_controller new_coherent) as [(H1 & H2 & _) _]. done. Qed.

(** The plans of the two ends of a link agree, and both are accepted by the
    machines that validate them (as long as a proxy forwards at most 64 ports in
    all): the node gets exactly its side, the proxy exactly one peer per node. *)
Theorem proxy_plans_agree links l (Hok : links_ok links) (Hl : In l links) (Hk : Forall keys_ok links)
    (Hp : 1024 <= l_ListenPort l <= 65535)
    (Hn : (length (flat_map l_Forwards (filter (fun x => l_Proxy x = l_Proxy l) links)) <= 64)%nat) :
  planFor links (l_Node l) = mkPlan None (Some (node_side_of l)) /\
  planFor links (l_Proxy l) = mkPlan (Some (mkProxySide (l_ListenPort l)
    (map peer_of (filter (fun x => l_Proxy x = l_Proxy l) links)))) None /\
  Validate (planFor links (l_Node l)) = None /\ Validate (planFor links (l_Proxy l)) = None.
Proof.
  pose proof (node_plan_shape links l Hok Hl) as E1. pose proof (proxy_plan_shape links l Hok Hl) as E2.
  split_and!; [done|exact E2| |].
  - rewrite E1. apply validate_iff. cbn. destruct Hok as (_ & _ & _ & Hv). rewrite Forall_forall in *.
    apply node_side_valid; [apply Hv|apply Hk|lia]; by apply list_elem_of_In.
  - rewrite E2. apply validate_iff. cbn. by apply proxy_side_valid.
Qed.

(** what [Setup] leaves behind.  On success the link is stored and both
    machines loaded their plans.  After any error but a failed write of the file
    the links are as before, and if a machine was contacted at all the last plan it
    was sent is the one it had.  When only the file cannot be written the link
    stays in force on both machines and in memory, although an error is returned. *)
Theorem setup_result e req c (Hc : coherent c) :
  let '(r, c') := Setup e req c in
  match r with
  | Ok _ | Err NotSaved =>
      (exists new, Links (cfg c') = Links (cfg c) ++ [new] /\ l_Proxy new = s_Proxy req /\ l_Node new = s_Node req) /\
      current (calls c') (s_Proxy req) = Some (planFor (Links (cfg c')) (s_Proxy req)) /\
      current (calls c') (s_Node req) = Some (planFor (Links (cfg c')) (s_Node req))
  | Err _ =>
      cfg c' = cfg c /\ file c' = file c /\
      (calls c' = calls c \/ exists sent ok1 ok2, calls c' = calls c ++ sent ++
         [mkCall Rollback (s_Proxy req) (planFor (Links (cfg c)) (s_Proxy req)) ok1;
          mkCall Rollback (s_Node req) (planFor (Links (cfg c)) (s_Node req)) ok2])
  end.
Proof.
  pose proof (setup_spec e req c) as Hs. destruct (Setup e req c) as [r c'].
  destruct Hs as [(S1 & S2 & S3 & (err & -> & Hne) & S4)|(port & pk & nk & ip & psk & Hs)].
  - assert (Hc4 : calls c' = calls c \/ exists sent ok1 ok2, calls c' = calls c ++ sent ++
         [mkCall Rollback (s_Proxy req) (planFor (Links (cfg c)) (s_Proxy req)) ok1;
          mkCall Rollback (s_Node req) (planFor (Links (cfg c)) (s_Node req)) ok2]).
    { destruct S4 as [|(mid & links & Hm & ok1 & ok2 & ->)]; [by left|right].
      destruct Hm as [->|(r & _ & [->|[ok ->]])]; [exists []|eexists [_]|eexists [_; _; _]]; exists ok1, ok2; by rewrite <- ?app_assoc. }
    destruct err; done.
  - cbn zeta in Hs. destruct Hs as (Hck & Hip & Hcfg & Hpub & Hpush & Hr). destruct (check_setup_ok _ _ _ Hck) as (Hne & _).
    rewrite !(pushed_ok_current _ _ _ _ _ _ _ Hpush Hne), !Hcfg. cbn [Links]. rewrite !String.eqb_refl.
    destruct (String.eqb_spec (s_Node req) (s_Proxy req)); [congruence|].
    destruct Hr as [->|[-> _]]; split_and!; try done; by eexists.
Qed.

(** C4: every machine ends up with its plan.  In every state that requests can reach
    in any order, with any call failing, a machine that is not listed for cleanup and
    was not removed from the dashboard runs exactly the plan its links ask for, as
    long as no rollback to it was refused or did not arrive and its last call that
    changed something did not fail midway. *)
Theorem machine_follows_plan e os id plan
    (Hn : ~ In (OForgetDone id) os) (Hr : rollbacks_ok (calls (run_ops e os new_controller)) id)
    (Hc : ~ In id (Cleanup (cfg (run_ops e os new_controller))))
    (Hk : current (calls (run_ops e os new_controller)) id = Some plan) :
  plan = planFor (Links (cfg (run_ops e os new_controller))) id.
Proof.
  destruct (ops_step e os new_controller new_coherent) as [_ H].
  destruct (H id Hn) as [Hi|Hcur]; [|done|done|by apply Hcur]. intros _. right. by intros p [= <-].
Qed.

(** a sync that reaches every machine finishes the cleanup: nothing stays
    listed, and every machine of a link or of the list has its plan, in whatever
    order the map is ranged over. *)
Theorem sync_converges e c (Hc : coherent c) (He : forall n id, endpoint e n id = true)
    (Ha : forall n id p, apply_result e n id p = Loaded) (Hs : forall n l, shuffle e n l ≡ₚ l) :
  Cleanup (cfg (syncLocked e c)) = [] /\
  forall id, In id (machines (cfg c)) -> current (calls (syncLocked e c)) id = Some (planFor (Links (cfg c)) id).
Proof.
  destruct Hc as (_ & _ & Hn). unfold syncLocked. destruct (_ && _) eqn:Eb.
  - apply andb_true_iff in Eb as [E1%Nat.eqb_eq E2%Nat.eqb_eq]. apply length_zero_iff_nil in E1, E2. split; [done|].
    intros id. unfold machines. rewrite E1, E2. intros [].
  - set (ids := shuffle e (clock c) (machines (cfg c))).
    pose proof (sync_all e ids He Ha (Cleanup (cfg c)) false c Hn) as H0.
    pose proof (sync_loop_spec e ids (Cleanup (cfg c)) false c) as Hl.
    destruct (sync_loop e ids _ _ c) as [[open' changed'] c']. destruct H0 as [H _]. destruct Hl as (I1 & _ & _ & I4 & I5 & _).
    assert (Hids : forall id, In id (machines (cfg c)) -> In id ids).
    { intros id Hi. apply list_elem_of_In. unfold ids. rewrite (Hs _ _). by apply list_elem_of_In. }
    assert (Hopen : open' = []).
    { destruct open' as [|x l]; [done|]. exfalso. apply (proj1 (H x (Hids x ltac:(idtac; unfold machines; apply list_elem_of_In, elem_of_remove_dups, list_elem_of_In, in_app_iff; right; apply I5; by left)))). by left. }
    destruct changed'; cbn; (split; [|intros id Hi; by apply H, Hids]); [done|].
    destruct (I4 eq_refl) as [E _]. by rewrite I1, <- E.
Qed.

(** ** Witnesses and examples *)

Definition all_fine : env := mkEnv (fun _ _ => true) (fun _ _ _ => Some (mkPrepared demo_key false)) (fun _ _ _ => Loaded)
  (fun _ => true) (fun _ l => l) (fun _ => Some demo_key).
Definition demo_req : ProxySetup := mkSetup "vps" "home" "proxy.example.org" 0 [mkForward 27015 "udp"] "" [].
Definition demo_req2 : ProxySetup := mkSetup "vps" "attic" "proxy.example.org" 0 [mkForward 27016 "udp"] "" ["vhserver"%string].
Definition demo_links : list ProxyLink := Links (cfg (run_ops all_fine [OSetup demo_req; OSetup demo_req2] new_controller)).

Lemma demo_links_ok : links_ok demo_links.
Proof. apply (ops_step all_fine [OSetup demo_req; OSetup demo_req2] new_controller new_coherent). Qed.

Example demo_tunnel_ips : map l_TunnelIP demo_links = ["10.77.0.2"; "10.77.0.3"]%string.
Proof. vm_compute. reflexivity. Qed.

Lemma proxy_plans_agree_witness : exists l, In l demo_links /\ Validate (planFor demo_links (l_Proxy l)) = None.
Proof.
  destruct demo_links as [|l r] eqn:E; [exfalso; by vm_compute in E|]. exists l. split; [by left|].
  refine (proj2 (proj2 (proj2 (proxy_plans_agree (l :: r) l _ (or_introl eq_refl) _ _ _)))).
  - rewrite <- E. exact demo_links_ok.
  - rewrite <- E. apply (Forall_forall keys_ok). intros x Hx. unfold demo_links in Hx. vm_compute in Hx.
    apply list_elem_of_In in Hx. repeat (destruct Hx as [<-|Hx]; [split_and!; [vm_compute; reflexivity..|right; vm_compute; reflexivity]|]). destruct Hx.
  - assert (Hl : l = List.hd l demo_links) by (by rewrite E). rewrite Hl. vm_compute. split; intros; discriminate.
  - rewrite <- E. assert (Hl : l = List.hd l demo_links) by (by rewrite E). rewrite Hl. vm_compute. lia.
Defined.

Lemma setup_result_witness : current (calls (snd (Setup all_fine demo_req new_controller))) "home" =
  Some (planFor (Links (cfg (snd (Setup all_fine demo_req new_controller)))) "home").
Proof.
  pose proof (setup_result all_fine demo_req new_controller new_coherent) as H.
  destruct (Setup all_fine demo_req new_controller) as [r c'] eqn:E.
  assert (Hr : exists l, r = Ok l) by (vm_compute in E; injection E as <- _; by eexists).
  destruct Hr as [l ->]. exact (proj2 (proj2 H)).
Defined.

(** The proxy fails midway while a port is changed, and later runs its plan again. *)
Definition shaky : env := mkEnv (fun _ _ => true) (fun _ _ _ => Some (mkPrepared demo_key false))
  (fun n _ _ => if (n =? 9)%nat then Failed else Loaded) (fun _ => true) (fun _ l => l) (fun _ => Some demo_key).
Definition shaky_ops : list op := [OSetup demo_req; OForwards "home" [mkForward 27020 "udp"]; OSync].
Lemma machine_follows_plan_witness :
  let c := run_ops shaky shaky_ops new_controller in
  planFor (Links (cfg c)) "vps" = planFor (Links (cfg (run_ops all_fine [OSetup demo_req] new_controller))) "vps" /\
  current (calls c) "vps" = Some (planFor (Links (cfg c)) "vps").
Proof.
  cbn zeta. split; [vm_compute; reflexivity|].
  destruct (current (calls (run_ops shaky shaky_ops new_controller)) "vps") as [plan|] eqn:E.
  - f_equal. apply (machine_follows_plan shaky shaky_ops "vps" plan).
    + intros [H|[H|[H|[]]]]; discriminate H.
    + vm_compute. repeat constructor; discriminate.
    + vm_compute. intros [].
    + exact E.
  - exfalso. vm_compute in E. discriminate E.
Defined.

Definition two_listed : controller := mkController (mkConfig [] ["home"; "vps"]%string) [] (mkConfig [] []) 0 [].
Lemma two_listed_coherent : coherent two_listed.
Proof.
  split_and!; [apply new_coherent|done|]. apply (bool_decide_unpack _). vm_compute. exact I.
Qed.
Lemma sync_converges_witness : Cleanup (cfg (syncLocked all_fine two_listed)) = [].
Proof.
  exact (proj1 (sync_converges all_fine two_listed two_listed_coherent (fun _ _ => eq_refl) (fun _ _ _ => eq_refl)
    (fun _ l => Permutation_refl l))).
Defined.

(** The node refuses, and the rollback to the proxy does not arrive: the proxy keeps
    the plan of the refused link, but no link and no cleanup entry remembers it, so
    no later sync contacts it. *)
Definition lost_rollback : env := mkEnv (fun _ _ => true) (fun _ _ _ => Some (mkPrepared demo_key false))
  (fun n _ _ => if (n =? 4)%nat then Loaded else Refused) (fun _ => true) (fun _ l => l) (fun _ => Some demo_key).
Example failed_rollback_forgotten :
  let c := run_ops lost_rollback [OSetup demo_req; OSync] new_controller in
  cfg c = mkConfig [] [] /\
  match current (calls c) "vps" with Some plan => Empty plan = false | None => False end.
Proof. vm_compute. done. Qed.

(** A push that fails midway is not taken back when ports are changed: until the next
    sync nobody knows what the proxy runs. *)
Example push_fails_midway :
  let c := run_ops shaky [OSetup demo_req; OForwards "home" [mkForward 27020 "udp"]] new_controller in
  current (calls c) "vps" = None /\
  is_Some (current (calls (run_ops shaky [OSync] c)) "vps").
Proof. vm_compute. split; [done|by eexists]. Qed.
