(* ===== verification/Passwords.v ===== *)
(** * Password hashes (backend/security.go) and generated passwords (backend/auth.go)

    Argon2id comes from golang.org/x/crypto: [argon2.IDKey] and [argon2.Version]
    are operations of the class [Argon2], and what the code relies on is the
    class [Argon2Laws].  Everything around it (the PHC string, its parser with
    [fmt.Sscanf], the limits, the legacy SHA-256 format) is modelled. *)

From Stdlib Require Import ZArith Lia Bool String Ascii List.
From stdpp Require Import base gmap strings list.
From S2P Require Import Prelude GoStrings Text Crypto.

Class Argon2 := {
  argon2_Version : Z;
  (* password, salt, time, memory, threads, keyLen *)
  argon2_IDKey : list Z -> list Z -> Z -> Z -> Z -> Z -> list Z
}.

(** The documented behaviour: the version is a small constant, and the key has
    the requested length. *)
Class Argon2Laws (A : Argon2) := {
  version_range : 0 <= argon2_Version <= int64_max;
  key_octets p s t m th n : octet_list (argon2_IDKey p s t m th n);
  key_length p s t m th n : 0 <= n < 2 ^ 32 -> Z.of_nat (length (argon2_IDKey p s t m th n)) = n
}.

Definition argonMemory : Z := 46 * 1024.
Definition argonTime : Z := 1.
Definition argonThreads : Z := 1.
Definition argonKeyLen : Z := 32.
Definition argonSaltLen : Z := 16.
Definition MinPasswordLength : Z := 8.

(** ** fmt.Sscanf *)

(** [SkipSpace] of a scanner that does not take a line break for a blank. *)
Fixpoint skip_blanks (fuel : nat) (l : bytes) : option bytes :=
  match fuel with
  | O => Some l
  | S f =>
      match l with
      | c :: _ => if code c =? 10 then None
                  else match space_width l with O => Some l | S w => skip_blanks f (drop (S w) l) end
      | [] => Some []
      end
  end.

(** The longest prefix of digits and the rest. *)
Fixpoint span_digits (l : bytes) : bytes * bytes :=
  match l with
  | c :: r => if is_digit c then let '(d, t) := span_digits r in (c :: d, t) else ([], l)
  | [] => ([], [])
  end.

(** [%d] into an [int]. *)
Definition scan_int (l : bytes) : option (Z * bytes) :=
  match skip_blanks (length l) l with
  | None => None
  | Some l =>
      let '(sign, l) := match l with
        | c :: r => if one_of "+-" c then ([c], r) else ([], l)
        | [] => ([], [])
        end in
      let '(d, rest) := span_digits l in
      match d with
      | [] => None
      | _ => match atoi (of_bytes (sign ++ d)) with Some v => Some (v, rest) | None => None end
      end
  end.

(** [%d] into an unsigned integer of [w] bits. *)
Definition scan_uint (w : Z) (l : bytes) : option (Z * bytes) :=
  match skip_blanks (length l) l with
  | None => None
  | Some l =>
      let '(d, rest) := span_digits l in
      match d with
      | [] => None
      | _ => if digits_value d <? 2 ^ w then Some (digits_value d, rest) else None
      end
  end.

(** A literal part of the format. *)
Definition scan_lit (p : string) (l : bytes) : option bytes :=
  if lprefix (to_bytes p) l then Some (drop (String.length p) l) else None.

(** [Sscanf(s, "v=%d", &version)] *)
Definition scan_version (s : string) : option Z :=
  match scan_lit "v=" (to_bytes s) with
  | Some l => match scan_int l with Some (v, _) => Some v | None => None end
  | None => None
  end.

(** [Sscanf(s, "m=%d,t=%d,p=%d", &memory, &timeCost, &threads)] *)
Definition scan_params (s : string) : option (Z * Z * Z) :=
  match scan_lit "m=" (to_bytes s) with None => None | Some l =>
  match scan_uint 32 l with None => None | Some (m, l) =>
  match scan_lit ",t=" l with None => None | Some l =>
  match scan_uint 32 l with None => None | Some (t, l) =>
  match scan_lit ",p=" l with None => None | Some l =>
  match scan_uint 8 l with None => None | Some (p, _) => Some (m, t, p)
  end end end end end end.

(** ** Hashing and verifying *)


Definition IsLegacyPasswordHash (hash : string) : bool :=
  if negb (slen hash =? 64) then false else hex_decodes hash.

Definition octets_eqb (a b : list Z) : bool := bool_decide (a = b).

Section Argon2.
Context `{Argon2}.

(** The salt is what [rand.Read] returned, [None] when it failed. *)
Definition HashPassword (password : string) (salt : option (list Z)) : option string :=
  match salt with
  | None => None
  | Some salt =>
      let key := argon2_IDKey (octets password) salt argonTime argonMemory argonThreads argonKeyLen in
      Some (join "$" [""; "argon2id"; "v=" +:+ itoa argon2_Version;
                      "m=" +:+ itoa argonMemory +:+ ",t=" +:+ itoa argonTime +:+ ",p=" +:+ itoa argonThreads;
                      base64_encode salt; base64_encode key])
  end.

Definition VerifyPassword (password stored : string) : bool :=
  if IsLegacyPasswordHash stored then
    String.eqb (hex_encode (sha256 (octets password))) (of_bytes (map lower_ascii (to_bytes stored)))
  else
    match split "$" stored with
    | [_; p1; p2; p3; p4; p5] =>
        if negb (String.eqb p1 "argon2id") then false else
        match scan_version p2 with
        | None => false
        | Some version =>
            if negb (version =? argon2_Version) then false else
            match scan_params p3 with
            | None => false
            | Some (memory, timeCost, threads) =>
                if (memory =? 0) || (1024 * 1024 <? memory) || (timeCost =? 0) || (16 <? timeCost)
                   || (threads =? 0) then false else
                match base64_decode p4, base64_decode p5 with
                | Some salt, Some expected =>
                    if (length expected =? 0)%nat || (128 <? length expected)%nat then false else
                    octets_eqb (argon2_IDKey (octets password) salt timeCost memory threads
                                  (Z.of_nat (length expected))) expected
                | _, _ => false
                end
            end
        end
    | _ => false
    end.
End Argon2.

(** ** Generated passwords *)

Definition charset : string := "abcdefghijklmnopqrstuvwxyzABCDEFGHIJKLMNOPQRSTUVWXYZ0123456789".
Definition pw_limit : Z := 256 - 256 mod slen charset.
(** What one random byte adds to the password, [None] when it is drawn again. *)
Definition pw_char (b : Z) : option ascii :=
  if pw_limit <=? b then None else nth_error (to_bytes charset) (Z.to_nat (b mod slen charset)).

(** [stream] is what [rand.Reader] delivers; reading past its end is an error. *)
Fixpoint pw_loop (stream : list Z) (length : nat) (acc : bytes) : option string :=
  if (length <=? List.length acc)%nat then Some (of_bytes acc) else
  match stream with
  | [] => None
  | b :: r => match pw_char b with
              | Some c => pw_loop r length (acc ++ [c])%list
              | None => pw_loop r length acc
              end
  end.
Definition generateRandomPassword (stream : list Z) (length : nat) : option string :=
  pw_loop stream length [].

(** [generateRandomHex(n)]: the hex of [n] random bytes. *)
Definition generateRandomHex (random : option (list Z)) : option string :=
  match random with Some b => Some (hex_encode b) | None => None end.

(** ** Lemmas *)

Lemma split_six (a b c d e f : string) :
  Forall (fun w => contains_byte w "$" = false) [a; b; c; d; e; f] ->
  split "$" (join "$" [a; b; c; d; e; f]) = [a; b; c; d; e; f].
Proof. intros Hf. change "$"%string with (byte_str "$"). by apply split_join. Qed.

Lemma letters_no_dollar s : sall b64_letter s = true -> contains_byte s "$" = false.
Proof.
  intros Hs. apply contains_byte_false. intros Hin. rewrite sall_forall in Hs.
  by specialize (Hs _ Hin).
Qed.

Lemma scan_lit_app p s : scan_lit p (to_bytes (p +:+ s)) = Some (to_bytes s).
Proof.
  unfold scan_lit. rewrite to_bytes_app.
  assert (lprefix (to_bytes p) (to_bytes p ++ to_bytes s) = true) as -> by (apply lprefix_spec; eauto).
  by rewrite <- length_to_bytes, drop_app_length.
Qed.

Lemma span_digits_all d : forallb is_digit d = true -> span_digits d = (d, []).
Proof. induction d as [|c d IH]; simpl; [done|]. intros H. to_prop. by rewrite H, IH. Qed.

Lemma scan_int_itoa z : 0 <= z <= int64_max -> scan_int (to_bytes (itoa z)) = Some (z, []).
Proof.
  intros Hz. destruct (itoa_digits z Hz) as (d & Hd & Hf & Hv & Hne).
  pose proof (atoi_itoa z Hz) as Ha. rewrite <- (of_to_bytes (itoa z)), Hd in Ha.
  rewrite Hd. unfold scan_int. destruct d as [|c d]; [done|].
  pose proof Hf as Hf'. simpl in Hf'. apply andb_true_iff in Hf' as [Hc Hd'].
  assert (Hs : skip_blanks (length (c :: d)) (c :: d) = Some (c :: d)).
  { cbn [skip_blanks length]. rewrite space_width_plain by auto with gostr.
    unfold is_digit, between in Hc. by replace (code c =? 10) with false by lia. }
  rewrite Hs. assert (one_of "+-" c = false) as ->.
  { apply not_true_iff_false. intros Hin. unfold one_of in Hin. simpl in Hin. rewrite orb_false_r in Hin.
    apply orb_true_iff in Hin as [E|E]; apply Ascii.eqb_eq in E; by subst. }
  rewrite span_digits_all by done. simpl app. by rewrite Ha.
Qed.

Lemma scan_default_params :
  scan_params ("m=" +:+ itoa argonMemory +:+ ",t=" +:+ itoa argonTime +:+ ",p=" +:+ itoa argonThreads)
  = Some (argonMemory, argonTime, argonThreads).
Proof. by vm_compute. Qed.

Lemma hash_not_legacy s : has_prefix s "$" = true -> IsLegacyPasswordHash s = false.
Proof.
  intros (r & ->)%has_prefix_spec. unfold IsLegacyPasswordHash. destruct (negb _); [done|].
  unfold hex_decodes. rewrite sall_app. simpl. by rewrite andb_false_r.
Qed.

(** * Properties *)

(** The hash of a password verifies the password, and any other password
    exactly when Argon2id gives both the same key: nothing of the stored string
    is lost or confused by printing and parsing it. *)
Theorem verify_hash_roundtrip `{Argon2Laws} p q salt h :
  octet_list salt -> HashPassword p (Some salt) = Some h ->
  VerifyPassword p h = true /\
  (VerifyPassword q h = true <->
   argon2_IDKey (octets q) salt argonTime argonMemory argonThreads argonKeyLen
   = argon2_IDKey (octets p) salt argonTime argonMemory argonThreads argonKeyLen).
Proof.
  intros Hs [= <-]. pose proof version_range as Hver.
  set (key := argon2_IDKey (octets p) salt argonTime argonMemory argonThreads argonKeyLen).
  assert (Hk : octet_list key) by apply key_octets.
  assert (Hl : Z.of_nat (length key) = argonKeyLen) by (apply key_length; unfold argonKeyLen; lia).
  assert (HV : forall x, VerifyPassword x
     (join "$" [""; "argon2id"; "v=" +:+ itoa argon2_Version;
        "m=" +:+ itoa argonMemory +:+ ",t=" +:+ itoa argonTime +:+ ",p=" +:+ itoa argonThreads;
        base64_encode salt; base64_encode key])
     = octets_eqb (argon2_IDKey (octets x) salt argonTime argonMemory argonThreads argonKeyLen) key).
  { intros x. unfold VerifyPassword. rewrite hash_not_legacy, split_six.
    - cbv beta iota. unfold scan_version.
      rewrite scan_lit_app, scan_int_itoa by done. rewrite Z.eqb_refl, scan_default_params.
      rewrite !base64_roundtrip by done.
      replace ((length key =? 0)%nat || (128 <? length key)%nat) with false
        by (symmetry; apply orb_false_iff; rewrite Nat.eqb_neq, Nat.ltb_ge; unfold argonKeyLen in Hl; lia).
      by rewrite Hl.
    - repeat constructor; try (apply letters_no_dollar, base64_letters; done).
      apply contains_byte_false. rewrite to_bytes_app. intros [Hin|Hin]%in_app_iff; [by vm_compute in Hin; intuition|].
      pose proof (itoa_sall is_digit argon2_Version Hver (fun c Hc => Hc)) as Hd.
      rewrite sall_forall in Hd. by specialize (Hd _ Hin).
    - rewrite join_cons. apply (has_prefix_app "$"). }
  unfold octets_eqb in HV. rewrite !HV. split; [by apply bool_decide_eq_true|apply bool_decide_eq_true].
Qed.

(** A stand-in for Argon2id with the documented shape, for concrete runs. *)
Definition toy_argon2 : Argon2 := {|
  argon2_Version := 19;
  argon2_IDKey p s t m th n := map (fun i => (nth i p 7 + Z.of_nat i) mod 256)
                                 (seq 0 (Z.to_nat (Z.max 0 n)))
|}.
Lemma toy_argon2_laws : Argon2Laws toy_argon2.
Proof.
  split; simpl.
  - unfold int64_max. lia.
  - intros. apply Forall_forall. intros x (i & <- & _)%list_elem_of_In%in_map_iff. apply Z.mod_pos_bound. lia.
  - intros. rewrite length_map, length_seq. lia.
Qed.

Lemma verify_hash_roundtrip_witness :
  @VerifyPassword toy_argon2 "secret12"
    match @HashPassword toy_argon2 "secret12" (Some [1; 2; 3]) with Some h => h | None => "" end = true.
Proof.
  refine (proj1 (@verify_hash_roundtrip toy_argon2 toy_argon2_laws "secret12" "x" [1; 2; 3] _ _ eq_refl)).
  repeat constructor; lia.
Defined.

(** a generated password has no modulo bias: of the 256 values of a random
    byte every character of the alphabet is chosen by exactly four, and the
    others are drawn again. *)
Theorem random_password_uniform :
  (forall c, In c (to_bytes charset) ->
     length (List.filter (fun b => bool_decide (pw_char b = Some c)) (map Z.of_nat (seq 0 256))) = 4%nat) /\
  length (List.filter (fun b => bool_decide (pw_char b = None)) (map Z.of_nat (seq 0 256))) = 8%nat.
Proof.
  split; [|by vm_compute].
  assert (Hall : forallb (fun c => (length (List.filter (fun b => bool_decide (pw_char b = Some c))
                   (map Z.of_nat (seq 0 256))) =? 4)%nat) (to_bytes charset) = true) by (vm_compute; done).
  intros c Hc. rewrite forallb_forall in Hall. specialize (Hall c Hc). by apply Nat.eqb_eq in Hall.
Qed.
