(* ===== verification/Auth.v ===== *)
(** * Users and sessions (backend/auth.go)

    The state of [AuthManager] and its operations on users and sessions.  An
    operation takes what it reads from outside (the clock [now] in nanoseconds,
    the random draws, and whether writing [config.json] succeeds) and returns its
    result with the state it leaves; [disk] is the configuration last written.
    What runs under [am.mu] in one piece is one [_locked] definition; the
    operations of [backend/twofactor.go] follow in TwoFactor.v. *)

From Stdlib Require Import ZArith Lia Bool String Ascii List.
From stdpp Require Import base gmap strings list.
From S2P Require Import Prelude GoStrings Validate Authz Crypto Passwords.

Record Config := mkConfig { Users : list User; Port : Z }.

Record Session := mkSession {
  s_Username : string; s_Expiry : Z; s_Created : Z; s_CSRFToken : string
}.

Record loginChallenge := mkChallenge { c_username : string; c_expiry : Z; c_attempts : Z }.
Record pendingSetup := mkSetup { p_secret : string; p_expiry : Z }.

Definition SessionIdleTimeout : Z := 24 * ns_hour.
Definition SessionMaxLifetime : Z := 7 * 24 * ns_hour.

Record AuthManager := mkAM {
  freshInstall : bool;
  config : Config;
  sessions : gmap string Session;
  challenges : gmap string loginChallenge;
  setups : gmap string pendingSetup;
  disk : option Config
}.

Inductive auth_error :=
| EInvalidCredentials | EPasswordTooShort | EInvalidRole | EInvalidPermission (p : string)
| ERandom | EUserExists | EUserNotFound | ELastAdmin | ESave | EInvalidNode
| EPasswordIncorrect | EChangedConcurrently | EReadConfig | EParseConfig
| ErrTwoFactorRequired | ErrInvalidCode | ErrChallengeExpired | ErrTwoFactorEnabled
| ErrTwoFactorDisabled | ESetupExpired.

Definition ret (A : Type) : Type := result auth_error A * AuthManager.

(** ** Field updates *)

Definition set_users (us : list User) (am : AuthManager) : AuthManager :=
  mkAM (freshInstall am) (mkConfig us (Port (config am))) (sessions am) (challenges am) (setups am) (disk am).
Definition set_sessions (m : gmap string Session) (am : AuthManager) : AuthManager :=
  mkAM (freshInstall am) (config am) m (challenges am) (setups am) (disk am).
Definition set_challenges (m : gmap string loginChallenge) (am : AuthManager) : AuthManager :=
  mkAM (freshInstall am) (config am) (sessions am) m (setups am) (disk am).
Definition set_setups (m : gmap string pendingSetup) (am : AuthManager) : AuthManager :=
  mkAM (freshInstall am) (config am) (sessions am) (challenges am) m (disk am).
Definition users (am : AuthManager) : list User := Users (config am).

Definition with_hash (h : string) (u : User) : User :=
  mkUser (u_Username u) h (u_Role u) (u_Servers u) (u_Nodes u) (u_Permissions u) (u_TOTPEnabled u)
    (u_TOTPSecret u) (u_TOTPLastStep u) (u_RecoveryCodes u) (u_NotesSeen u).
Definition with_access (role : string) (servers permissions : list string) (u : User) : User :=
  mkUser (u_Username u) (u_PasswordHash u) role servers (u_Nodes u) permissions (u_TOTPEnabled u)
    (u_TOTPSecret u) (u_TOTPLastStep u) (u_RecoveryCodes u) (u_NotesSeen u).
Definition with_servers (servers nodes : list string) (u : User) : User :=
  mkUser (u_Username u) (u_PasswordHash u) (u_Role u) servers nodes (u_Permissions u) (u_TOTPEnabled u)
    (u_TOTPSecret u) (u_TOTPLastStep u) (u_RecoveryCodes u) (u_NotesSeen u).
Definition with_totp (enabled : bool) (secret : string) (step : Z) (codes : list string) (u : User) : User :=
  mkUser (u_Username u) (u_PasswordHash u) (u_Role u) (u_Servers u) (u_Nodes u) (u_Permissions u) enabled
    secret step codes (u_NotesSeen u).
Definition with_notes (v : string) (u : User) : User :=
  mkUser (u_Username u) (u_PasswordHash u) (u_Role u) (u_Servers u) (u_Nodes u) (u_Permissions u)
    (u_TOTPEnabled u) (u_TOTPSecret u) (u_TOTPLastStep u) (u_RecoveryCodes u) v.

(** User.Sanitized *)
Definition Sanitized (u : User) : User :=
  with_totp (u_TOTPEnabled u) "" 0 [] (with_hash "" u).

Definition named (name : string) (u : User) : bool := String.eqb (u_Username u) name.

(** The loops over [am.config.Users] stop at the first user they are for. *)
Fixpoint update_first (p : User -> bool) (f : User -> User) (us : list User) : list User :=
  match us with
  | [] => []
  | u :: r => if p u then f u :: r else u :: update_first p f r
  end.
Fixpoint remove_first (p : User -> bool) (us : list User) : list User :=
  match us with
  | [] => []
  | u :: r => if p u then r else u :: remove_first p r
  end.

(** GetUser *)
Definition GetUser (am : AuthManager) (username : string) : option User :=
  List.find (named username) (users am).

Definition admin_count (us : list User) : nat := length (List.filter IsAdmin us).

(** ** Saving *)

(** [saveConfigLocked]: [ok] says whether the file was written. *)
Definition saveConfigLocked (ok : bool) (am : AuthManager) : AuthManager :=
  if ok then mkAM (freshInstall am) (config am) (sessions am) (challenges am) (setups am) (Some (config am))
  else am.

(** Saves [us]; a failed write restores the users the state had before. *)
Definition save_or_restore {A} (ok : bool) (us : list User) (am : AuthManager)
    (k : AuthManager -> ret A) : ret A :=
  let am' := saveConfigLocked ok (set_users us am) in
  if ok then k am' else (Err ESave, set_users (users am) am').

(** ** Loading *)

Record legacyConfig := mkLegacy {
  l_Username : string; l_PasswordHash : string; l_Port : Z; l_Users : list User
}.
(** What [config.json] holds: missing, not readable, not JSON, or decoded. *)
Inductive config_file := Missing | Unreadable | Malformed | Decoded (raw : legacyConfig).

Definition first_admin (name hash : string) : User :=
  mkUser name hash RoleAdmin [] [] AssignablePermissions false "" 0 [] "".

(** [drawn] is the hash of a generated password, [None] when drawing failed. *)
Definition loadOrCreateConfig (am : AuthManager) (file : config_file) (drawn : option string)
    (ok : bool) : ret unit :=
  match file with
  | Missing =>
      match drawn with
      | None => (Err ERandom, am)
      | Some hash =>
          let am1 := mkAM (freshInstall am) (mkConfig [first_admin "admin" hash] 8080)
                       (sessions am) (challenges am) (setups am) (disk am) in
          let am2 := saveConfigLocked ok am1 in
          if ok then (Ok tt, mkAM true (config am2) (sessions am2) (challenges am2) (setups am2) (disk am2))
          else (Err ESave, am2)
      end
  | Unreadable => (Err EReadConfig, am)
  | Malformed => (Err EParseConfig, am)
  | Decoded raw =>
      match l_Users raw with
      | [] =>
          let name := if String.eqb (l_Username raw) "" then "admin" else l_Username raw in
          let hash := if String.eqb (l_PasswordHash raw) "" then drawn else Some (l_PasswordHash raw) in
          match hash with
          | None => (Err ERandom, am)
          | Some hash =>
              let am1 := mkAM (freshInstall am) (mkConfig [first_admin name hash] (l_Port raw))
                           (sessions am) (challenges am) (setups am) (disk am) in
              let am2 := saveConfigLocked ok am1 in
              (if ok then Ok tt else Err ESave, am2)
          end
      | us => (Ok tt, mkAM (freshInstall am) (mkConfig us (l_Port raw)) (sessions am) (challenges am)
                        (setups am) (disk am))
      end
  end.

Definition empty_manager : AuthManager := mkAM false (mkConfig [] 0) ∅ ∅ ∅ None.

Definition GetPort (am : AuthManager) : Z :=
  if Port (config am) =? 0 then 8080 else Port (config am).

(** ** Small operations *)

Definition SetNotesSeen (ok : bool) (username version : string) (am : AuthManager) : ret unit :=
  match GetUser am username with
  | None => (Err EUserNotFound, am)
  | Some _ =>
      let am' := set_users (update_first (named username) (with_notes version) (users am)) am in
      (if ok then Ok tt else Err ESave, saveConfigLocked ok am')
  end.

(** ** Sessions *)

(** [createSession] with the two random draws. *)
Definition createSession (now : Z) (sid csrf : option string) (username : string)
    (am : AuthManager) : ret string :=
  match sid, csrf with
  | Some sid, Some csrf =>
      (Ok sid, set_sessions (<[sid := mkSession username (now + SessionIdleTimeout) now csrf]> (sessions am)) am)
  | _, _ => (Err ERandom, am)
  end.

Definition Logout (sid : string) (am : AuthManager) : AuthManager :=
  set_sessions (delete sid (sessions am)) am.

Definition keeps_session (username except : string) (p : string * Session) : bool :=
  negb (String.eqb (s_Username p.2) username && negb (String.eqb p.1 except)).
Definition invalidateUserSessionsLocked (username except : string) (am : AuthManager) : AuthManager :=
  set_sessions (filter (fun p => keeps_session username except p = true) (sessions am)) am.

Definition session_over (now : Z) (s : Session) : bool :=
  (s_Expiry s <? now) || (SessionMaxLifetime <? now - s_Created s).

Definition GetSession (now : Z) (sid : string) (am : AuthManager) : option Session * AuthManager :=
  if String.eqb sid "" then (None, am) else
  match sessions am !! sid with
  | None => (None, am)
  | Some s =>
      if session_over now s then (None, Logout sid am)
      else
        let s' := mkSession (s_Username s) (now + SessionIdleTimeout) (s_Created s) (s_CSRFToken s) in
        (Some s', set_sessions (<[sid := s']> (sessions am)) am)
  end.

Definition IsValidSession (now : Z) (sid : string) (am : AuthManager) : bool * AuthManager :=
  let '(s, am') := GetSession now sid am in (bool_decide (is_Some s), am').

Definition ValidateCSRF (sid token : string) (am : AuthManager) : bool :=
  if String.eqb token "" then false else
  match sessions am !! sid with
  | None => false
  | Some s => if String.eqb (s_CSRFToken s) "" then false else String.eqb (s_CSRFToken s) token
  end.

(** [AuthMiddleware]: whether the wrapped handler runs, for the session cookie. *)
Definition AuthMiddleware (now : Z) (cookie : option string) (am : AuthManager) : bool * AuthManager :=
  match cookie with
  | None => (false, am)
  | Some sid => IsValidSession now sid am
  end.

(** One tick of [cleanupSessionsLoop]. *)
Definition cleanup_tick (now : Z) (am : AuthManager) : AuthManager :=
  set_setups (filter (fun p => negb (p_expiry p.2 <? now) = true) (setups am))
    (set_challenges (filter (fun p => negb (c_expiry p.2 <? now) = true) (challenges am))
       (set_sessions (filter (fun p => negb (session_over now p.2) = true) (sessions am)) am)).

(** ** Users *)

Definition validateRoleAndPermissions (role : string) (permissions : list string) : option auth_error :=
  if negb (String.eqb role RoleAdmin) && negb (String.eqb role RoleUser) then Some EInvalidRole
  else match List.find (fun p => negb (IsAssignablePermission p)) permissions with
  | Some p => Some (EInvalidPermission p)
  | None => None
  end.

Definition create_user_locked (ok : bool) (username hash role : string) (servers permissions : list string)
    (am : AuthManager) : ret unit :=
  if existsb (named username) (users am) then (Err EUserExists, am) else
  let u := mkUser username hash role servers [] permissions false "" 0 [] "" in
  save_or_restore ok (users am ++ [u])%list am (fun am' => (Ok tt, am')).

Definition update_user_locked (ok : bool) (username newHash role : string) (servers permissions : list string)
    (am : AuthManager) : ret unit :=
  match GetUser am username with
  | None => (Err EUserNotFound, am)
  | Some u =>
      if IsAdmin u && negb (String.eqb role RoleAdmin) && (admin_count (users am) <=? 1)%nat
      then (Err ELastAdmin, am) else
      let change u := with_access role servers permissions
                        (if String.eqb newHash "" then u else with_hash newHash u) in
      save_or_restore ok (update_first (named username) change (users am)) am (fun am' =>
        (Ok tt, if String.eqb newHash "" then am' else invalidateUserSessionsLocked username "" am'))
  end.

Definition DeleteUser (ok : bool) (username : string) (am : AuthManager) : ret unit :=
  match GetUser am username with
  | None => (Err EUserNotFound, am)
  | Some u =>
      if IsAdmin u && (admin_count (users am) <=? 1)%nat then (Err ELastAdmin, am) else
      save_or_restore ok (remove_first (named username) (users am)) am (fun am' =>
        let am1 := invalidateUserSessionsLocked username "" am' in
        let am2 := set_setups (delete username (setups am1)) am1 in
        (Ok tt, set_challenges
           (filter (fun p => negb (String.eqb (c_username p.2) username) = true) (challenges am2)) am2))
  end.

Definition SetUserNodes (ok : bool) (username : string) (nodes : list string) (am : AuthManager) : ret unit :=
  if negb (forallb IsValidNodeID nodes) then (Err EInvalidNode, am) else
  match GetUser am username with
  | None => (Err EUserNotFound, am)
  | Some _ =>
      let set u := with_servers (u_Servers u) nodes u in
      let am' := set_users (update_first (named username) set (users am)) am in
      (if ok then Ok tt else Err ESave, saveConfigLocked ok am')
  end.

Definition without (s : string) (l : list string) : list string :=
  List.filter (fun x => negb (String.eqb x s)) l.

(** Saves when something was removed. *)
Definition save_if_changed (ok : bool) (changed : User -> bool) (f : User -> User) (am : AuthManager) : ret unit :=
  if existsb changed (users am) then
    let am' := set_users (map (fun u => if changed u then f u else u) (users am)) am in
    (if ok then Ok tt else Err ESave, saveConfigLocked ok am')
  else (Ok tt, am).

Definition RemoveServerFromUsers (ok : bool) (serverID : string) (am : AuthManager) : ret unit :=
  save_if_changed ok
    (fun u => negb (length (without serverID (u_Servers u)) =? length (u_Servers u))%nat)
    (fun u => with_servers (without serverID (u_Servers u)) (u_Nodes u) u) am.

Definition not_on_node (nodeID s : string) : bool := negb (String.eqb (fst (SplitServerID s)) nodeID).
Definition RemoveNodeFromUsers (ok : bool) (nodeID : string) (am : AuthManager) : ret unit :=
  save_if_changed ok
    (fun u => negb (length (List.filter (not_on_node nodeID) (u_Servers u)) =? length (u_Servers u))%nat
              || negb (length (without nodeID (u_Nodes u)) =? length (u_Nodes u))%nat)
    (fun u => with_servers (List.filter (not_on_node nodeID) (u_Servers u)) (without nodeID (u_Nodes u)) u) am.

Definition change_password_locked (ok : bool) (username stored newHash keep : string)
    (am : AuthManager) : ret unit :=
  match GetUser am username with
  | None => (Err EUserNotFound, am)
  | Some u =>
      if negb (String.eqb (u_PasswordHash u) stored) then (Err EChangedConcurrently, am) else
      save_or_restore ok (update_first (named username) (with_hash newHash) (users am)) am (fun am' =>
        (Ok tt, invalidateUserSessionsLocked username keep am'))
  end.

(** The upgrade of a legacy hash at the end of [verifyCredentials]. *)
Definition upgrade_hash_locked (ok : bool) (username storedHash newHash : string) (am : AuthManager) : AuthManager :=
  let mine u := named username u && String.eqb (u_PasswordHash u) storedHash in
  if existsb mine (users am) then
    snd (save_or_restore ok (update_first mine (with_hash newHash) (users am)) am (fun am' => (Ok tt, am')))
  else am.

Section Passwords.
Context `{Argon2}.

Definition CreateUser (ok : bool) (salt : option (list Z)) (username password role : string)
    (servers permissions : list string) (am : AuthManager) : ret unit :=
  if slen password <? MinPasswordLength then (Err EPasswordTooShort, am) else
  match validateRoleAndPermissions role permissions with
  | Some e => (Err e, am)
  | None =>
      match HashPassword password salt with
      | None => (Err ERandom, am)
      | Some hash => create_user_locked ok username hash role servers permissions am
      end
  end.

Definition UpdateUser (ok : bool) (salt : option (list Z)) (username password role : string)
    (servers permissions : list string) (am : AuthManager) : ret unit :=
  if negb (String.eqb password "") && (slen password <? MinPasswordLength) then (Err EPasswordTooShort, am) else
  match validateRoleAndPermissions role permissions with
  | Some e => (Err e, am)
  | None =>
      match (if String.eqb password "" then Some "" else HashPassword password salt) with
      | None => (Err ERandom, am)
      | Some newHash => update_user_locked ok username newHash role servers permissions am
      end
  end.

Definition ChangeUserPassword (ok : bool) (salt : option (list Z))
    (username oldPassword newPassword keep : string) (am : AuthManager) : ret unit :=
  if slen newPassword <? MinPasswordLength then (Err EPasswordTooShort, am) else
  match GetUser am username with
  | None => (Err EUserNotFound, am)
  | Some u =>
      if negb (VerifyPassword oldPassword (u_PasswordHash u)) then (Err EPasswordIncorrect, am) else
      match HashPassword newPassword salt with
      | None => (Err ERandom, am)
      | Some newHash => change_password_locked ok username (u_PasswordHash u) newHash keep am
      end
  end.

(** [verifyCredentials]: [None] accepts. *)
Definition verifyCredentials (ok : bool) (salt : option (list Z)) (username password : string)
    (am : AuthManager) : option auth_error * AuthManager :=
  match GetUser am username with
  | None => (Some EInvalidCredentials, am)
  | Some u =>
      let storedHash := u_PasswordHash u in
      if negb (VerifyPassword password storedHash) then (Some EInvalidCredentials, am)
      else if IsLegacyPasswordHash storedHash then
        match HashPassword password salt with
        | Some newHash => (None, upgrade_hash_locked ok username storedHash newHash am)
        | None => (None, am)
        end
      else (None, am)
  end.
End Passwords.

(** ** Audit log *)

Record AuditEntry := mkAudit {
  a_Timestamp : string; a_Username : string; a_IP : string; a_Action : string;
  a_Details : string; a_ServerID : string
}.
Definition maxAuditEntries : Z := 1000.
Definition maxAuditFailedLogins : Z := 200.
Definition isFailedLoginAudit (action : string) : bool :=
  String.eqb action "LOGIN_FAILED" || String.eqb action "LOGIN_2FA_FAILED".

(** The loop of [trimAuditLog]; [n] entries are kept so far, [failed] of them failed logins. *)
Fixpoint trim_loop (entries : list AuditEntry) (n failed : Z) : list AuditEntry :=
  match entries with
  | [] => []
  | e :: r =>
      if isFailedLoginAudit (a_Action e) then
        if failed >=? maxAuditFailedLogins then trim_loop r n failed
        else e :: if n + 1 >=? maxAuditEntries then [] else trim_loop r (n + 1) (failed + 1)
      else e :: if n + 1 >=? maxAuditEntries then [] else trim_loop r (n + 1) failed
  end.
Definition trimAuditLog (entries : list AuditEntry) : list AuditEntry := trim_loop entries 0 0.

(** [LogAudit] on the entries of the file; [readable] holds what was decoded. *)
Definition LogAudit (ok : bool) (e : AuditEntry) (readable : list AuditEntry) : list AuditEntry :=
  if ok then trimAuditLog (e :: readable) else readable.
