(* ===== verification/TwoFactor.v ===== *)
(** * Two-factor authentication and the login (backend/twofactor.go)

    TOTP codes (RFC 6238) computed with the HMAC of Crypto.v, recovery codes, the
    two steps of the login, and the setup, as operations on the [AuthManager] of
    Auth.v; then the step relation of everything that runs under [am.mu], with
    the invariants of the users, the challenges and the second factors. *)

From Stdlib Require Import ZArith Lia Bool String Ascii List.
From stdpp Require Import base gmap strings list.
From S2P Require Import Prelude GoStrings Text Validate Authz Crypto Passwords Auth.

Definition totpPeriod : Z := 30.
Definition totpDigits : Z := 6.
Definition recoveryCodeCount : nat := 10.
Definition challengeLifetime : Z := 5 * ns_minute.
Definition challengeAttempts : Z := 5.
Definition setupLifetime : Z := 15 * ns_minute.
Definition TOTPIssuer : string := "LinuxGSM Dashboard".

(** ** TOTP *)

(** [GenerateTOTPSecret] of 20 random bytes. *)
Definition GenerateTOTPSecret (random : option (list Z)) : option string :=
  match random with Some b => Some (base32_encode b) | None => None end.

(** [fmt.Sprintf("%06d", v)] for [v] below a million. *)
Definition six_digits (v : Z) : string :=
  of_bytes (map (fun p => chr (48 + v / 10 ^ p mod 10)) [5; 4; 3; 2; 1; 0]).

Definition TOTPCode (secret : string) (step : Z) : option string :=
  match base32_decode (of_bytes (upper_bytes (to_bytes (trim_space secret)))) with
  | None | Some [] => None
  | Some key =>
      let sum := hmac_sha1 key (be_bytes 8 (step mod 2 ^ 64)) in
      let offset := Z.land (List.last sum 0) 0x0f in
      let value := Z.land (be_value (take 4 (drop (Z.to_nat offset) sum))) 0x7fffffff in
      Some (six_digits (value mod 1000000))
  end.

(** [now.Unix()] *)
Definition unix (now : Z) : Z := now / ns_second.

(** The loop over the accepted time steps. *)
Fixpoint totp_loop (secret code : string) (lastStep : Z) (steps : list Z) : option Z :=
  match steps with
  | [] => None
  | step :: r =>
      if step <=? lastStep then totp_loop secret code lastStep r else
      match TOTPCode secret step with
      | None => None
      | Some want => if String.eqb want code then Some step else totp_loop secret code lastStep r
      end
  end.

Definition verifyTOTP (secret code : string) (now lastStep : Z) : option Z :=
  let code := replace_byte (trim_space code) " " "" in
  if negb (slen code =? totpDigits) then None
  else if negb (sall is_digit code) then None
  else
    let current := Z.quot (unix now) totpPeriod in
    totp_loop secret code lastStep [current - 1; current; current + 1].

(** ** Recovery codes *)

Definition recoveryAlphabet : string := "abcdefghjkmnpqrstuvwxyz23456789".
Definition recovery_char (b : Z) : ascii :=
  nth (Z.to_nat (b mod slen recoveryAlphabet)) (to_bytes recoveryAlphabet) "a"%char.
Definition recovery_code (buf : list Z) : string :=
  let chars := map recovery_char buf in
  of_bytes (take 5 chars) +:+ "-" +:+ of_bytes (drop 5 chars).
(** [draws]: ten random bytes for each of the ten codes, [None] when reading failed. *)
Definition generateRecoveryCodes (draws : option (list (list Z))) : option (list string) :=
  match draws with Some bufs => Some (map recovery_code bufs) | None => None end.

Definition normalizeRecoveryCode (code : string) : string :=
  replace_byte (replace_byte (of_bytes (lower_bytes (to_bytes (trim_space code)))) "-" "") " " "".

Definition nul : string := of_bytes [chr 0].
Definition hashRecoveryCode (username code : string) : string :=
  hex_encode (sha256 (octets ("lgsm-recovery" +:+ nul +:+ username +:+ nul +:+ normalizeRecoveryCode code))).

(** Removes the first code equal to [hash]. *)
Fixpoint remove_code (hash : string) (codes : list string) : option (list string) :=
  match codes with
  | [] => None
  | h :: r => if String.eqb h hash then Some r
              else match remove_code hash r with Some r' => Some (h :: r') | None => None end
  end.

(** ** Checking the second factor *)

Definition set_step (step : Z) (u : User) : User :=
  with_totp (u_TOTPEnabled u) (u_TOTPSecret u) step (u_RecoveryCodes u) u.
Definition set_codes (codes : list string) (u : User) : User :=
  with_totp (u_TOTPEnabled u) (u_TOTPSecret u) (u_TOTPLastStep u) codes u.

(** Whether a recovery code was used. *)
Definition consumeSecondFactorLocked (ok : bool) (now : Z) (username code : string)
    (am : AuthManager) : ret bool :=
  match GetUser am username with
  | None => (Err ErrInvalidCode, am)
  | Some u =>
      if negb (u_TOTPEnabled u) then (Err ErrInvalidCode, am) else
      match verifyTOTP (u_TOTPSecret u) code now (u_TOTPLastStep u) with
      | Some step =>
          save_or_restore ok (update_first (named username) (set_step step) (users am)) am
            (fun am' => (Ok false, am'))
      | None =>
          match remove_code (hashRecoveryCode username code) (u_RecoveryCodes u) with
          | Some codes =>
              save_or_restore ok (update_first (named username) (set_codes codes) (users am)) am
                (fun am' => (Ok true, am'))
          | None => (Err ErrInvalidCode, am)
          end
      end
  end.

(** ** The login *)

Record LoginResult := mkLoginResult { SessionID : string; Challenge : string }.

Definition add_challenge_locked (now : Z) (token username : string) (am : AuthManager) : AuthManager :=
  set_challenges (<[token := mkChallenge username (now + challengeLifetime) 0]> (challenges am)) am.

Definition ChallengeUser (now : Z) (token : string) (am : AuthManager) : option string :=
  match challenges am !! token with
  | None => None
  | Some c => if c_expiry c <? now then None else Some (c_username c)
  end.

(** What [CompleteLogin] does under the lock: the user to sign in, and whether a
    recovery code was used. *)
Definition complete_locked (ok : bool) (now : Z) (token code : string) (am : AuthManager)
    : ret (string * bool) :=
  match challenges am !! token with
  | None => (Err ErrChallengeExpired, set_challenges (delete token (challenges am)) am)
  | Some c =>
      if c_expiry c <? now
      then (Err ErrChallengeExpired, set_challenges (delete token (challenges am)) am) else
      let c' := mkChallenge (c_username c) (c_expiry c) (c_attempts c + 1) in
      if c_attempts c' >? challengeAttempts
      then (Err ErrChallengeExpired, set_challenges (delete token (challenges am)) am) else
      let am1 := set_challenges (<[token := c']> (challenges am)) am in
      match consumeSecondFactorLocked ok now (c_username c) code am1 with
      | (Err e, am2) => (Err e, am2)
      | (Ok used, am2) => (Ok (c_username c, used), set_challenges (delete token (challenges am2)) am2)
      end
  end.

Definition CompleteLogin (ok : bool) (now : Z) (sid csrf : option string) (token code : string)
    (am : AuthManager) : ret (string * bool) :=
  match complete_locked ok now token code am with
  | (Err e, am') => (Err e, am')
  | (Ok (username, used), am') =>
      match createSession now sid csrf username am' with
      | (Err e, am'') => (Err e, am'')
      | (Ok s, am'') => (Ok (s, used), am'')
      end
  end.

Record TwoFactorStatus := mkStatus { Enabled : bool; RecoveryCodesLeft : Z }.
Definition TwoFactorStatusFor (username : string) (am : AuthManager) : TwoFactorStatus :=
  match GetUser am username with
  | Some u => mkStatus (u_TOTPEnabled u) (Z.of_nat (length (u_RecoveryCodes u)))
  | None => mkStatus false 0
  end.

(** ** Setup *)

Definition clearTwoFactorLocked (ok : bool) (username keep : string) (am : AuthManager) : ret unit :=
  match GetUser am username with
  | None => (Err EUserNotFound, am)
  | Some u =>
      if negb (u_TOTPEnabled u) then (Err ErrTwoFactorDisabled, am) else
      save_or_restore ok (update_first (named username) (with_totp false "" 0 []) (users am)) am (fun am' =>
        let am1 := invalidateUserSessionsLocked username keep am' in
        (Ok tt, set_challenges
           (filter (fun p => negb (String.eqb (c_username p.2) username) = true) (challenges am1)) am1))
  end.

Definition ResetTwoFactor (ok : bool) (username : string) (am : AuthManager) : ret unit :=
  clearTwoFactorLocked ok username "" am.

Definition ConfirmTwoFactorSetup (ok : bool) (now : Z) (draws : option (list (list Z)))
    (username code keep : string) (am : AuthManager) : ret (list string) :=
  let expired := (Err ESetupExpired, set_setups (delete username (setups am)) am) in
  match setups am !! username with
  | None => expired
  | Some setup =>
      if p_expiry setup <? now then expired else
      match verifyTOTP (p_secret setup) code now 0 with
      | None => (Err ErrInvalidCode, am)
      | Some step =>
          match generateRecoveryCodes draws with
          | None => (Err ERandom, am)
          | Some codes =>
              match GetUser am username with
              | None => (Err EUserNotFound, am)
              | Some u =>
                  if u_TOTPEnabled u then (Err ErrTwoFactorEnabled, am) else
                  save_or_restore ok
                    (update_first (named username)
                       (with_totp true (p_secret setup) step (map (hashRecoveryCode username) codes)) (users am))
                    am (fun am' =>
                      (Ok codes, invalidateUserSessionsLocked username keep
                                   (set_setups (delete username (setups am')) am')))
              end
          end
      end
  end.

(** The locked part of [RegenerateRecoveryCodes]; it may write the file twice. *)
Definition regenerate_locked (ok1 ok2 : bool) (now : Z) (draws : option (list (list Z)))
    (username code : string) (am : AuthManager) : ret (list string) :=
  match consumeSecondFactorLocked ok1 now username code am with
  | (Err e, am1) => (Err e, am1)
  | (Ok _, am1) =>
      match generateRecoveryCodes draws with
      | None => (Err ERandom, am1)
      | Some codes =>
          match GetUser am1 username with
          | None => (Err EUserNotFound, am1)
          | Some _ =>
              save_or_restore ok2
                (update_first (named username) (set_codes (map (hashRecoveryCode username) codes)) (users am1))
                am1 (fun am2 => (Ok codes, am2))
          end
      end
  end.

(** The locked part of [DisableTwoFactor]. *)
Definition disable_locked (ok1 ok2 : bool) (now : Z) (username code keep : string)
    (am : AuthManager) : ret unit :=
  match consumeSecondFactorLocked ok1 now username code am with
  | (Err e, am1) => (Err e, am1)
  | (Ok _, am1) => clearTwoFactorLocked ok2 username keep am1
  end.

(** ** The operations that check a password first *)

(** Percent encoding of [url.PathEscape] and [url.QueryEscape]. *)
Definition pct (c : ascii) : bytes :=
  let up v := if v <? 10 then chr (48 + v) else chr (55 + v) in
  ["%"%char; up (code c / 16); up (code c mod 16)].
Definition unreserved (c : ascii) : bool := is_alnum c || one_of "-_.~" c.
Definition PathEscape (s : string) : string :=
  of_bytes (flat_map (fun c => if unreserved c || one_of "$&+=:@" c then [c] else pct c) (to_bytes s)).
Definition QueryEscape (s : string) : string :=
  of_bytes (flat_map (fun c => if unreserved c then [c]
                               else if Ascii.eqb c " " then ["+"%char] else pct c) (to_bytes s)).

(** [url.Values.Encode] sorts by key. *)
Definition TOTPURI (secret account host : string) : string :=
  let label := TOTPIssuer +:+ ":" +:+ account in
  let label := if String.eqb host "" then label else label +:+ "@" +:+ host in
  "otpauth://totp/" +:+ PathEscape label +:+ "?" +:+
  join "&" (map (fun p => fst p +:+ "=" +:+ QueryEscape (snd p))
    [("algorithm", "SHA1"); ("digits", itoa totpDigits); ("issuer", TOTPIssuer);
     ("period", itoa totpPeriod); ("secret", secret)]).

Section Passwords.
Context `{Argon2}.

Definition BeginLogin (ok : bool) (salt : option (list Z)) (now : Z) (sid csrf token : option string)
    (username password : string) (am : AuthManager) : ret LoginResult :=
  match verifyCredentials ok salt username password am with
  | (Some e, am1) => (Err e, am1)
  | (None, am1) =>
      let enabled := match GetUser am1 username with Some u => u_TOTPEnabled u | None => false end in
      if negb enabled then
        match createSession now sid csrf username am1 with
        | (Err e, am2) => (Err e, am2)
        | (Ok s, am2) => (Ok (mkLoginResult s ""), am2)
        end
      else match token with
      | None => (Err ERandom, am1)
      | Some token => (Ok (mkLoginResult "" token), add_challenge_locked now token username am1)
      end
  end.

Definition Login (ok : bool) (salt : option (list Z)) (now : Z) (sid csrf token : option string)
    (username password : string) (am : AuthManager) : ret string :=
  match BeginLogin ok salt now sid csrf token username password am with
  | (Err e, am') => (Err e, am')
  | (Ok res, am') => if String.eqb (Challenge res) "" then (Ok (SessionID res), am')
                     else (Err ErrTwoFactorRequired, am')
  end.

Definition StartTwoFactorSetup (ok : bool) (salt : option (list Z)) (now : Z) (random : option (list Z))
    (username password host : string) (am : AuthManager) : ret (string * string) :=
  match verifyCredentials ok salt username password am with
  | (Some _, am1) => (Err EPasswordIncorrect, am1)
  | (None, am1) =>
      if Enabled (TwoFactorStatusFor username am1) then (Err ErrTwoFactorEnabled, am1) else
      match GenerateTOTPSecret random with
      | None => (Err ERandom, am1)
      | Some secret =>
          (Ok (secret, TOTPURI secret username host),
           set_setups (<[username := mkSetup secret (now + setupLifetime)]> (setups am1)) am1)
      end
  end.

Definition DisableTwoFactor (ok ok1 ok2 : bool) (salt : option (list Z)) (now : Z)
    (username password code keep : string) (am : AuthManager) : ret unit :=
  match verifyCredentials ok salt username password am with
  | (Some _, am1) => (Err EPasswordIncorrect, am1)
  | (None, am1) => disable_locked ok1 ok2 now username code keep am1
  end.

Definition RegenerateRecoveryCodes (ok ok1 ok2 : bool) (salt : option (list Z)) (now : Z)
    (draws : option (list (list Z))) (username password code : string) (am : AuthManager) : ret (list string) :=
  match verifyCredentials ok salt username password am with
  | (Some _, am1) => (Err EPasswordIncorrect, am1)
  | (None, am1) => regenerate_locked ok1 ok2 now draws username code am1
  end.
End Passwords.

(** RFC 6238, appendix B (SHA-1, the last six of the eight digits). *)
Example totp_rfc6238 :
  map (TOTPCode "GEZDGNBVGY3TQOJQGEZDGNBVGY3TQOJQ") [59 / 30; 1111111109 / 30; 20000000000 / 30]
  = [Some "287082"; Some "081804"; Some "353130"].
Proof. by vm_compute. Qed.
