(* ===== verification/AuthInv.v ===== *)
(** * Properties of users, sessions and second factors

    The step relation of everything that runs under [am.mu] (backend/auth.go,
    backend/twofactor.go): requests run concurrently, so what a step reads before
    it takes the lock is arbitrary.  The invariants are over every interleaving
    of such steps, with every write of the configuration allowed to fail. *)

From Stdlib Require Import ZArith Lia Bool String Ascii List.
From stdpp Require Import base gmap strings list relations.
From S2P Require Import Prelude GoStrings Validate Authz Crypto Passwords Auth TwoFactor.

(** ** Steps *)

(** [sid_ok] and [tok_ok] limit the session IDs and challenge tokens that steps
    create or complete: [fun _ => True] for every step, or everything but one. *)
Section Steps.
Variables sid_ok tok_ok : string -> Prop.

Inductive auth_step (am : AuthManager) : AuthManager -> Prop :=
| st_notes ok name v : auth_step am (snd (SetNotesSeen ok name v am))
| st_session now sid csrf name :
    sid_ok sid -> auth_step am (snd (createSession now (Some sid) csrf name am))
| st_logout sid : auth_step am (Logout sid am)
| st_invalidate name keep : auth_step am (invalidateUserSessionsLocked name keep am)
| st_get_session now sid : auth_step am (snd (GetSession now sid am))
| st_cleanup now : auth_step am (cleanup_tick now am)
| st_create ok name hash role servers perms :
    auth_step am (snd (create_user_locked ok name hash role servers perms am))
| st_update ok name hash role servers perms :
    auth_step am (snd (update_user_locked ok name hash role servers perms am))
| st_delete ok name : auth_step am (snd (DeleteUser ok name am))
| st_nodes ok name nodes : auth_step am (snd (SetUserNodes ok name nodes am))
| st_remove_server ok id : auth_step am (snd (RemoveServerFromUsers ok id am))
| st_remove_node ok id : auth_step am (snd (RemoveNodeFromUsers ok id am))
| st_password ok name stored hash keep :
    auth_step am (snd (change_password_locked ok name stored hash keep am))
| st_upgrade ok name stored hash : auth_step am (upgrade_hash_locked ok name stored hash am)
| st_challenge now token name : tok_ok token -> auth_step am (add_challenge_locked now token name am)
| st_complete ok now token code :
    tok_ok token -> auth_step am (snd (complete_locked ok now token code am))
| st_setup name secret expiry :
    auth_step am (set_setups (<[name := mkSetup secret expiry]> (setups am)) am)
| st_confirm ok now draws name code keep :
    auth_step am (snd (ConfirmTwoFactorSetup ok now draws name code keep am))
| st_regenerate ok1 ok2 now draws name code :
    auth_step am (snd (regenerate_locked ok1 ok2 now draws name code am))
| st_disable ok1 ok2 now name code keep :
    auth_step am (snd (disable_locked ok1 ok2 now name code keep am))
| st_reset ok name : auth_step am (snd (ResetTwoFactor ok name am)).
End Steps.

Definition any (_ : string) : Prop := True.
Definition not_this (s x : string) : Prop := x <> s.

(** ** Users *)

Definition ident (u : User) : string * string := (u_Username u, u_Role u).
Definition users_ok (us : list User) : Prop :=
  NoDup (map u_Username us) /\ (1 <= admin_count us)%nat.

Lemma admin_count_ident us :
  admin_count us = length (List.filter (fun p => String.eqb (snd p) RoleAdmin) (map ident us)).
Proof.
  unfold admin_count. induction us as [|u us IH]; simpl; [done|].
  unfold IsAdmin at 1. simpl. destruct (String.eqb (u_Role u) RoleAdmin); simpl; by rewrite IH.
Qed.

Lemma users_ok_ident us us' : map ident us' = map ident us -> users_ok us -> users_ok us'.
Proof.
  intros He [Hn Ha]. unfold users_ok. rewrite admin_count_ident, He, <- admin_count_ident.
  split; [|done]. replace (map u_Username us') with (map fst (map ident us')) by (by rewrite map_map).
  rewrite He, map_map. done.
Qed.

Lemma ident_update_first p f us :
  (forall u, ident (f u) = ident u) -> map ident (update_first p f us) = map ident us.
Proof.
  intros Hf. induction us as [|u us IH]; simpl; [done|]. destruct (p u); simpl; by rewrite ?Hf, ?IH.
Qed.

Lemma names_update_first p f us :
  (forall u, u_Username (f u) = u_Username u) -> map u_Username (update_first p f us) = map u_Username us.
Proof.
  intros Hf. induction us as [|u us IH]; simpl; [done|]. destruct (p u); simpl; by rewrite ?Hf, ?IH.
Qed.

Definition b2n (b : bool) : nat := if b then 1 else 0.

Lemma admin_count_cons u us : admin_count (u :: us) = (b2n (IsAdmin u) + admin_count us)%nat.
Proof. unfold admin_count. simpl. by destruct (IsAdmin u). Qed.

Lemma admin_count_update p f us u :
  List.find p us = Some u ->
  (admin_count (update_first p f us) + b2n (IsAdmin u) = admin_count us + b2n (IsAdmin (f u)))%nat.
Proof.
  induction us as [|v us IH]; simpl; [done|]. destruct (p v).
  - intros [= ->]. rewrite !admin_count_cons. lia.
  - intros H. rewrite !admin_count_cons. specialize (IH H). lia.
Qed.

Lemma admin_count_remove p us u :
  List.find p us = Some u ->
  (admin_count (remove_first p us) + b2n (IsAdmin u) = admin_count us)%nat.
Proof.
  induction us as [|v us IH]; simpl; [done|]. destruct (p v).
  - intros [= ->]. rewrite !admin_count_cons. lia.
  - intros H. rewrite !admin_count_cons. specialize (IH H). lia.
Qed.

Lemma map_sublist {A B} (f : A -> B) l1 l2 : l1 `sublist_of` l2 -> map f l1 `sublist_of` map f l2.
Proof. induction 1; simpl; by constructor. Qed.

Lemma remove_first_sublist p us : remove_first p us `sublist_of` us.
Proof.
  induction us as [|u us IH]; simpl; [constructor|].
  destruct (p u); [by apply sublist_cons|by apply sublist_skip].
Qed.

Lemma find_named us name u : List.find (named name) us = Some u -> In u us /\ u_Username u = name.
Proof.
  intros H. apply find_some in H as [Hin Hn]. split; [done|]. by apply String.eqb_eq in Hn.
Qed.

Lemma find_update_first name f us u :
  (forall v, u_Username (f v) = u_Username v) -> List.find (named name) us = Some u ->
  List.find (named name) (update_first (named name) f us) = Some (f u).
Proof.
  intros Hf. induction us as [|v us IH]; simpl; [done|]. destruct (named name v) eqn:E.
  - intros [= ->]. simpl. unfold named in *. by rewrite Hf, E.
  - intros H. simpl. rewrite E. by apply IH.
Qed.


Lemma find_none_named name us : ~ In name (map u_Username us) -> List.find (named name) us = None.
Proof.
  induction us as [|u us IH]; simpl; [done|]. intros Hn. unfold named at 1.
  destruct (String.eqb_spec (u_Username u) name); [tauto|]. apply IH. tauto.
Qed.

Lemma find_remove_first name us :
  NoDup (map u_Username us) -> List.find (named name) (remove_first (named name) us) = None.
Proof.
  induction us as [|u us IH]; simpl; [done|]. inversion 1 as [|? ? Hni Hn]; subst.
  unfold named at 2. destruct (String.eqb_spec (u_Username u) name) as [<-|Hne].
  - apply find_none_named. by rewrite <- list_elem_of_In.
  - simpl. unfold named at 1. apply String.eqb_neq in Hne. rewrite Hne. by apply IH.
Qed.

(** ** What operations do to the users *)

Lemma users_save ok am : users (saveConfigLocked ok am) = users am.
Proof. by destruct ok. Qed.

Lemma save_or_restore_users {A} ok us am (k : AuthManager -> ret A) :
  (forall am', users (snd (k am')) = users am') ->
  users (snd (save_or_restore ok us am k)) = if ok then us else users am.
Proof. intros Hk. unfold save_or_restore. destruct ok; [by rewrite Hk|done]. Qed.

Lemma consume_users ok now name code am :
  map ident (users (snd (consumeSecondFactorLocked ok now name code am))) = map ident (users am).
Proof.
  unfold consumeSecondFactorLocked. destruct (GetUser am name) as [u|]; [|done].
  destruct (negb _); [done|]. destruct (verifyTOTP _ _ _ _) as [step|].
  - rewrite save_or_restore_users by done. destruct ok; [|done]. by apply ident_update_first.
  - destruct (remove_code _ _) as [codes|]; [|done].
    rewrite save_or_restore_users by done. destruct ok; [|done]. by apply ident_update_first.
Qed.

Lemma clear_users ok name keep am :
  map ident (users (snd (clearTwoFactorLocked ok name keep am))) = map ident (users am).
Proof.
  unfold clearTwoFactorLocked. destruct (GetUser am name) as [u|]; [|done]. destruct (negb _); [done|].
  rewrite save_or_restore_users by done. destruct ok; [|done]. by apply ident_update_first.
Qed.

Lemma save_if_changed_users ok p f am :
  (forall u, ident (f u) = ident u) ->
  map ident (users (snd (save_if_changed ok p f am))) = map ident (users am).
Proof.
  intros Hf. unfold save_if_changed. destruct (existsb p (users am)); [|done].
  cbn [snd]. rewrite users_save. unfold users at 1. cbn [set_users config Users]. rewrite map_map.
  apply map_ext. intros u. by destruct (p u).
Qed.

Lemma complete_users ok now token code am :
  map ident (users (snd (complete_locked ok now token code am))) = map ident (users am).
Proof.
  unfold complete_locked. destruct (challenges am !! token) as [c|]; [|done].
  destruct (c_expiry c <? now); [done|]. destruct (_ >? _); [done|].
  set (am1 := set_challenges _ am).
  pose proof (consume_users ok now (c_username c) code am1) as H.
  destruct (consumeSecondFactorLocked _ _ _ _ _) as [[|] am2]; exact H.
Qed.

Lemma confirm_users ok now draws name code keep am :
  map ident (users (snd (ConfirmTwoFactorSetup ok now draws name code keep am))) = map ident (users am).
Proof.
  unfold ConfirmTwoFactorSetup. destruct (setups am !! name) as [s|]; [|done].
  destruct (p_expiry s <? now); [done|]. destruct (verifyTOTP _ _ _ _); [|done].
  destruct (generateRecoveryCodes draws); [|done]. destruct (GetUser am name) as [u|]; [|done].
  destruct (u_TOTPEnabled u); [done|].
  rewrite save_or_restore_users by done. destruct ok; [|done]. by apply ident_update_first.
Qed.

Lemma regenerate_users ok1 ok2 now draws name code am :
  map ident (users (snd (regenerate_locked ok1 ok2 now draws name code am))) = map ident (users am).
Proof.
  unfold regenerate_locked. pose proof (consume_users ok1 now name code am) as H.
  destruct (consumeSecondFactorLocked _ _ _ _ _) as [[b|e] am1]; [|exact H].
  destruct (generateRecoveryCodes draws); [|exact H]. destruct (GetUser am1 name); [|exact H].
  rewrite save_or_restore_users by done. destruct ok2; [|exact H].
  rewrite <- H. by apply ident_update_first.
Qed.

Lemma disable_users ok1 ok2 now name code keep am :
  map ident (users (snd (disable_locked ok1 ok2 now name code keep am))) = map ident (users am).
Proof.
  unfold disable_locked. pose proof (consume_users ok1 now name code am) as H.
  destruct (consumeSecondFactorLocked _ _ _ _ _) as [[b|e] am1]; [|exact H].
  rewrite clear_users. exact H.
Qed.

Lemma create_users_ok ok name hash role servers perms am :
  users_ok (users am) -> users_ok (users (snd (create_user_locked ok name hash role servers perms am))).
Proof.
  intros Hok. unfold create_user_locked. destruct (existsb (named name) (users am)) eqn:E; [done|].
  rewrite save_or_restore_users by done. destruct ok; [|done]. destruct Hok as [Hn Ha].
  split; [|unfold admin_count in *; rewrite List.filter_app, length_app; lia].
  rewrite map_app. apply NoDup_app. split; [done|]. split; [|apply NoDup_singleton].
  intros x Hx Hx2. apply list_elem_of_singleton in Hx2. subst x.
  apply list_elem_of_In, in_map_iff in Hx as (u & Hu & Hin).
  apply not_true_iff_false in E. apply E, existsb_exists. exists u. split; [done|].
  unfold named. by apply String.eqb_eq.
Qed.

Lemma update_users_ok ok name hash role servers perms am :
  users_ok (users am) -> users_ok (users (snd (update_user_locked ok name hash role servers perms am))).
Proof.
  intros Hok. unfold update_user_locked. destruct (GetUser am name) as [u|] eqn:E; [|done].
  destruct (_ && _) eqn:Eg; [done|].
  rewrite save_or_restore_users by (intros; by destruct (String.eqb hash "")).
  destruct ok; [|done]. destruct Hok as [Hn Ha]. split.
  - rewrite names_update_first; [done|]. intros v. by destruct (String.eqb hash "").
  - match goal with |- context [update_first _ ?g _] => set (f := g) in * end.
    pose proof (admin_count_update (named name) f _ u E) as Hc.
    change (IsAdmin (f u)) with (String.eqb role RoleAdmin) in Hc.
    destruct (IsAdmin u); simpl in *; [|lia].
    destruct (String.eqb role RoleAdmin); simpl in *; [lia|].
    apply Nat.leb_gt in Eg. lia.
Qed.

Lemma delete_users_ok ok name am :
  users_ok (users am) -> users_ok (users (snd (DeleteUser ok name am))).
Proof.
  intros Hok. unfold DeleteUser. destruct (GetUser am name) as [u|] eqn:E; [|done].
  destruct (_ && _) eqn:Eg; [done|]. rewrite save_or_restore_users by done.
  destruct ok; [|done]. destruct Hok as [Hn Ha]. split.
  - eapply sublist_NoDup; [exact Hn|]. apply map_sublist, remove_first_sublist.
  - pose proof (admin_count_remove _ _ _ E) as Hc. destruct (IsAdmin u); simpl in *; [|lia].
    apply Nat.leb_gt in Eg. lia.
Qed.

(** Every step but the three that manage accounts leaves names and roles alone. *)
Lemma users_ok_step P Q am am' :
  auth_step P Q am am' -> users_ok (users am) -> users_ok (users am').
Proof.
  intros H Hok.
  destruct H; first [done | by apply create_users_ok | by apply update_users_ok
    | by apply delete_users_ok | apply (users_ok_ident (users am)); [|exact Hok]];
    auto using complete_users, confirm_users, regenerate_users, disable_users, clear_users.
  - unfold SetNotesSeen. destruct (GetUser am name); [|done]. cbn [snd]. rewrite users_save.
    by apply ident_update_first.
  - unfold createSession. by destruct csrf.
  - unfold GetSession. destruct (String.eqb sid ""); [done|].
    destruct (sessions am !! sid) as [s|]; [|done]. by destruct (session_over now s).
  - unfold SetUserNodes. destruct (negb _); [done|]. destruct (GetUser am name); [|done].
    cbn [snd]. rewrite users_save. by apply ident_update_first.
  - by apply save_if_changed_users.
  - by apply save_if_changed_users.
  - unfold change_password_locked. destruct (GetUser am name) as [u|]; [|done].
    destruct (negb _); [done|]. rewrite save_or_restore_users by done. destruct ok; [|done].
    by apply ident_update_first.
  - unfold upgrade_hash_locked. destruct (existsb _ _); [|done].
    rewrite save_or_restore_users by done. destruct ok; [|done]. by apply ident_update_first.
  - apply clear_users.
Qed.

(** ** What operations do to sessions and challenges *)

(** No session and no challenge is added or changed. *)
Definition quiet (am am' : AuthManager) : Prop :=
  sessions am' ⊆ sessions am /\ challenges am' ⊆ challenges am.

#[global] Instance quiet_preorder : PreOrder quiet.
Proof.
  split; [by intros am; split|]. intros a b c [H1 H2] [H3 H4]. split; by etrans.
Qed.

Lemma quiet_same am am' :
  sessions am' = sessions am -> challenges am' = challenges am -> quiet am am'.
Proof. intros H1 H2. split; [by rewrite H1|by rewrite H2]. Qed.

Lemma quiet_sessions P `{forall p, Decision (P p)} am :
  quiet am (set_sessions (filter P (sessions am)) am).
Proof. split; [apply map_filter_subseteq|done]. Qed.

Lemma quiet_challenges P `{forall p, Decision (P p)} am :
  quiet am (set_challenges (filter P (challenges am)) am).
Proof. split; [done|apply map_filter_subseteq]. Qed.

Lemma quiet_save {A} ok us am (k : AuthManager -> ret A) :
  (forall am', quiet am' (snd (k am'))) -> quiet am (snd (save_or_restore ok us am k)).
Proof.
  intros Hk. unfold save_or_restore. destruct ok; [|by apply quiet_same].
  etrans; [|apply Hk]. by apply quiet_same.
Qed.

Create HintDb quiet.
#[local] Hint Resolve quiet_sessions quiet_challenges quiet_save : quiet.
#[local] Hint Extern 1 (quiet ?a ?a) => reflexivity : quiet.
#[local] Hint Extern 1 (quiet _ (snd (Err _, _))) => reflexivity : quiet.
#[local] Hint Extern 2 (quiet _ _) => (apply quiet_same; reflexivity) : quiet.

Lemma invalidate_quiet name keep am : quiet am (invalidateUserSessionsLocked name keep am).
Proof. apply quiet_sessions. Qed.
#[local] Hint Resolve invalidate_quiet : quiet.

Lemma consume_quiet ok now name code am :
  quiet am (snd (consumeSecondFactorLocked ok now name code am)).
Proof.
  unfold consumeSecondFactorLocked. destruct (GetUser am name) as [u|]; [|done].
  destruct (negb _); [done|]. destruct (verifyTOTP _ _ _ _); [auto with quiet|].
  destruct (remove_code _ _); [auto with quiet|done].
Qed.

Lemma clear_quiet ok name keep am : quiet am (snd (clearTwoFactorLocked ok name keep am)).
Proof.
  unfold clearTwoFactorLocked. destruct (GetUser am name) as [u|]; [|done].
  destruct (negb _); [done|]. apply quiet_save. intros am'. cbn [snd].
  etrans; [apply invalidate_quiet|apply quiet_challenges].
Qed.

Lemma delete_quiet ok name am : quiet am (snd (DeleteUser ok name am)).
Proof.
  unfold DeleteUser. destruct (GetUser am name) as [u|]; [|done].
  destruct (_ && _); [done|]. apply quiet_save. intros am'. cbn [snd].
  etrans; [apply invalidate_quiet|]. etrans; [|apply quiet_challenges]. by apply quiet_same.
Qed.

Lemma confirm_quiet ok now draws name code keep am :
  quiet am (snd (ConfirmTwoFactorSetup ok now draws name code keep am)).
Proof.
  unfold ConfirmTwoFactorSetup. destruct (setups am !! name) as [s|]; [|by apply quiet_same].
  destruct (p_expiry s <? now); [by apply quiet_same|]. destruct (verifyTOTP _ _ _ _); [|done].
  destruct (generateRecoveryCodes draws); [|done]. destruct (GetUser am name) as [u|]; [|done].
  destruct (u_TOTPEnabled u); [done|]. apply quiet_save. intros am'. cbn [snd].
  etrans; [|apply invalidate_quiet]. by apply quiet_same.
Qed.

Lemma regenerate_quiet ok1 ok2 now draws name code am :
  quiet am (snd (regenerate_locked ok1 ok2 now draws name code am)).
Proof.
  unfold regenerate_locked. pose proof (consume_quiet ok1 now name code am) as H.
  destruct (consumeSecondFactorLocked _ _ _ _ _) as [[b|e] am1]; [|exact H].
  destruct (generateRecoveryCodes draws); [|exact H]. destruct (GetUser am1 name); [|exact H].
  etrans; [exact H|]. auto with quiet.
Qed.

Lemma disable_quiet ok1 ok2 now name code keep am :
  quiet am (snd (disable_locked ok1 ok2 now name code keep am)).
Proof.
  unfold disable_locked. pose proof (consume_quiet ok1 now name code am) as H.
  destruct (consumeSecondFactorLocked _ _ _ _ _) as [[b|e] am1]; [|exact H].
  etrans; [exact H|apply clear_quiet].
Qed.

Lemma save_if_changed_quiet ok p f am : quiet am (snd (save_if_changed ok p f am)).
Proof. unfold save_if_changed. destruct (existsb p _); [|done]. by destruct ok; apply quiet_same. Qed.

Lemma complete_sessions ok now token code am :
  sessions (snd (complete_locked ok now token code am)) ⊆ sessions am.
Proof.
  unfold complete_locked. destruct (challenges am !! token) as [c|]; [|done].
  destruct (c_expiry c <? now); [done|]. destruct (_ >? _); [done|].
  set (am1 := set_challenges _ am). pose proof (consume_quiet ok now (c_username c) code am1) as [H _].
  by destruct (consumeSecondFactorLocked _ _ _ _ _) as [[|] am2].
Qed.

Lemma complete_challenges ok now token code am t c :
  t <> token -> challenges (snd (complete_locked ok now token code am)) !! t = Some c ->
  challenges am !! t = Some c.
Proof.
  intros Ht. unfold complete_locked. destruct (challenges am !! token) as [c0|].
  2:{ simpl. by rewrite lookup_delete_ne. }
  destruct (c_expiry c0 <? now); [simpl; by rewrite lookup_delete_ne|].
  destruct (_ >? _); [simpl; by rewrite lookup_delete_ne|].
  set (am1 := set_challenges _ am). pose proof (consume_quiet ok now (c_username c0) code am1) as [_ H].
  intros Hc. assert (Hc1 : challenges am1 !! t = Some c).
  { destruct (consumeSecondFactorLocked _ _ _ _ _) as [[|] am2]; simpl in *.
    - rewrite lookup_delete_ne in Hc by done. by eapply lookup_weaken.
    - by eapply lookup_weaken. }
  simpl in Hc1. by rewrite lookup_insert_ne in Hc1.
Qed.

(** What a step does to a session it may not create and a challenge it may not
    create or complete. *)
Definition same_origin (s s' : Session) : Prop :=
  s_Username s' = s_Username s /\ s_Created s' = s_Created s /\ s_CSRFToken s' = s_CSRFToken s.

(** The steps that add or change a session or a challenge. *)
Inductive loud (P Q : string -> Prop) (am : AuthManager) : AuthManager -> Prop :=
| loud_quiet am' : quiet am am' -> loud P Q am am'
| loud_session now sid csrf name :
    P sid -> loud P Q am (snd (createSession now (Some sid) csrf name am))
| loud_use now sid : loud P Q am (snd (GetSession now sid am))
| loud_challenge now token name : Q token -> loud P Q am (add_challenge_locked now token name am)
| loud_complete ok now token code :
    Q token -> loud P Q am (snd (complete_locked ok now token code am)).

Lemma step_loud P Q am am' : auth_step P Q am am' -> loud P Q am am'.
Proof.
  intros H. destruct H;
    [apply loud_quiet|by apply loud_session|apply loud_quiet|apply loud_quiet|apply loud_use
    |apply loud_quiet|apply loud_quiet|apply loud_quiet|apply loud_quiet|apply loud_quiet
    |apply loud_quiet|apply loud_quiet|apply loud_quiet|apply loud_quiet|by apply loud_challenge
    |by apply loud_complete|apply loud_quiet|apply loud_quiet|apply loud_quiet|apply loud_quiet
    |apply loud_quiet].
  - unfold SetNotesSeen. destruct (GetUser am name); [|done]. by destruct ok; apply quiet_same.
  - split; [apply delete_subseteq|done].
  - apply invalidate_quiet.
  - split; apply map_filter_subseteq.
  - unfold create_user_locked. destruct (existsb _ _); [done|]. by apply quiet_save.
  - unfold update_user_locked. destruct (GetUser am name); [|done]. destruct (_ && _); [done|].
    apply quiet_save. intros am'. destruct (String.eqb hash ""); [done|apply invalidate_quiet].
  - apply delete_quiet.
  - unfold SetUserNodes. destruct (negb _); [done|]. destruct (GetUser am name); [|done].
    by destruct ok; apply quiet_same.
  - apply save_if_changed_quiet.
  - apply save_if_changed_quiet.
  - unfold change_password_locked. destruct (GetUser am name); [|done]. destruct (negb _); [done|].
    apply quiet_save. intros. apply invalidate_quiet.
  - unfold upgrade_hash_locked. destruct (existsb _ _); [|done]. by apply quiet_save.
  - by apply quiet_same.
  - apply confirm_quiet.
  - apply regenerate_quiet.
  - apply disable_quiet.
  - apply clear_quiet.
Qed.

Lemma session_step P Q am am' sid s' :
  auth_step P Q am am' -> ~ P sid -> sessions am' !! sid = Some s' ->
  exists s, sessions am !! sid = Some s /\ same_origin s s'.
Proof.
  intros Hst%step_loud HP Hs'.
  assert (Hq : forall m, m ⊆ sessions am -> m !! sid = Some s' ->
               exists s, sessions am !! sid = Some s /\ same_origin s s')
    by (intros m Hsub Hm; exists s'; split; [by eapply lookup_weaken|done]).
  destruct Hst as [am' [Hs _]|now sid0 csrf name H0|now sid0|now token name H0|ok now token code H0].
  - by eapply Hq.
  - unfold createSession in Hs'. destruct csrf as [csrf|]; [|by eapply Hq]. simpl in Hs'.
    rewrite lookup_insert_ne in Hs' by (intros ->; done). by exists s'.
  - unfold GetSession in Hs'. destruct (String.eqb sid0 ""); [by exists s'|].
    destruct (sessions am !! sid0) as [s0|] eqn:E; [|by exists s'].
    destruct (session_over now s0); simpl in Hs'.
    + exists s'. split; [|done]. by apply lookup_delete_Some in Hs' as [_ ?].
    + destruct (decide (sid0 = sid)) as [->|Hne].
      * rewrite lookup_insert_eq in Hs'. injection Hs' as <-. by exists s0.
      * rewrite lookup_insert_ne in Hs' by done. by exists s'.
  - by eapply Hq.
  - eapply Hq; [apply complete_sessions|exact Hs'].
Qed.

Lemma challenge_step P Q am am' token c :
  auth_step P Q am am' -> ~ Q token -> challenges am' !! token = Some c -> challenges am !! token = Some c.
Proof.
  intros Hst%step_loud HQ Hc.
  destruct Hst as [am' [_ Hs]|now sid0 csrf name H0|now sid0|now tk name H0|ok now tk code H0].
  - by eapply lookup_weaken.
  - unfold createSession in Hc. by destruct csrf.
  - unfold GetSession in Hc. destruct (String.eqb sid0 ""); [done|].
    destruct (sessions am !! sid0) as [s0|]; [|done]. by destruct (session_over now s0).
  - simpl in Hc. rewrite lookup_insert_ne in Hc by (intros ->; done). done.
  - eapply complete_challenges; [|exact Hc]. intros ->. done.
Qed.

(** ** Lookups after an update *)

Lemma get_user_update am name f u :
  (forall v, u_Username (f v) = u_Username v) -> GetUser am name = Some u ->
  forall am', users am' = update_first (named name) f (users am) -> GetUser am' name = Some (f u).
Proof. intros Hf H am' Hu. unfold GetUser in *. rewrite Hu. by apply find_update_first. Qed.

Lemma totp_loop_some secret code last steps s :
  totp_loop secret code last steps = Some s ->
  In s steps /\ last < s /\ TOTPCode secret s = Some code.
Proof.
  induction steps as [|x r IH]; simpl; [done|]. destruct (x <=? last) eqn:E.
  - intros H. destruct (IH H) as (? & ? & ?). auto.
  - destruct (TOTPCode secret x) as [want|] eqn:Ew; [|done].
    destruct (String.eqb_spec want code) as [->|].
    + intros [= <-]. to_prop. auto.
    + intros H. destruct (IH H) as (? & ? & ?). auto.
Qed.

Lemma totp_loop_complete secret code last steps s :
  In s steps -> last < s -> TOTPCode secret s = Some code ->
  exists s', totp_loop secret code last steps = Some s'.
Proof.
  induction steps as [|x r IH]; simpl; [done|]. intros Hin Hl Hc.
  assert (Hk : exists key, TOTPCode secret x = Some key).
  { unfold TOTPCode in *. destruct (base32_decode _) as [[|]|]; try done. by eexists. }
  destruct Hk as [key Hk]. destruct (x <=? last) eqn:E.
  - destruct Hin as [->|Hin]; [to_prop; lia|eauto].
  - rewrite Hk. destruct (String.eqb_spec key code) as [->|Hne]; [by eexists|].
    destruct Hin as [->|Hin]; [congruence|eauto].
Qed.

Lemma remove_code_spec h codes codes' :
  remove_code h codes = Some codes' -> codes ≡ₚ h :: codes'.
Proof.
  revert codes'. induction codes as [|c r IH]; simpl; [done|]. intros codes'.
  destruct (String.eqb_spec c h) as [->|].
  - by intros [= ->].
  - destruct (remove_code h r) as [r'|]; [|done]. intros [= <-].
    rewrite (IH r' eq_refl). apply Permutation_swap.
Qed.

Lemma remove_code_none h codes : remove_code h codes = None <-> ~ In h codes.
Proof.
  induction codes as [|c r IH]; simpl; [tauto|]. destruct (String.eqb_spec c h) as [->|Hne].
  - split; [done|]. intros Hn. exfalso. apply Hn. by left.
  - destruct (remove_code h r) as [l|]; split; try done.
    + intros Hn. exfalso. assert (Some l = None) by (apply IH; tauto). done.
    + intros _ [->|Hin]; [done|]. by apply IH.
Qed.

(** How many attempts a challenge has left. *)
Definition tries_left (token : string) (am : AuthManager) : Z :=
  match challenges am !! token with Some c => Z.max 0 (challengeAttempts - c_attempts c) | None => 0 end.

Lemma tries_left_step P Q am am' token :
  auth_step P Q am am' -> ~ Q token -> tries_left token am' <= tries_left token am.
Proof.
  intros Hst HQ. unfold tries_left. destruct (challenges am' !! token) as [c|] eqn:E.
  - by rewrite (challenge_step _ _ _ _ _ _ Hst HQ E).
  - destruct (challenges am !! token); lia.
Qed.

(** An attempt that reaches the check of the code. *)
Definition checked {A} (r : ret A) : bool :=
  match fst r with Err ErrChallengeExpired => false | _ => true end.

Lemma consume_not_expired ok now name code am :
  fst (consumeSecondFactorLocked ok now name code am) <> Err ErrChallengeExpired.
Proof.
  unfold consumeSecondFactorLocked. destruct (GetUser am name); [|done]. destruct (negb _); [done|].
  destruct (verifyTOTP _ _ _ _); [by destruct ok|]. destruct (remove_code _ _); [by destruct ok|done].
Qed.

Lemma tries_left_complete ok now token code am :
  let r := complete_locked ok now token code am in
  tries_left token (snd r) + (if checked r then 1 else 0) <= tries_left token am.
Proof.
  unfold complete_locked, tries_left. destruct (challenges am !! token) as [c|] eqn:E.
  2:{ simpl. rewrite lookup_delete_eq. lia. }
  destruct (c_expiry c <? now); [simpl; rewrite lookup_delete_eq; lia|].
  cbn [c_attempts]. destruct (c_attempts c + 1 >? challengeAttempts) eqn:Ea;
    [simpl; rewrite lookup_delete_eq; lia|].
  set (am1 := set_challenges _ am). pose proof (consume_quiet ok now (c_username c) code am1) as [_ Hq].
  destruct (consumeSecondFactorLocked _ _ _ _ _) as [[b|e] am2]; cbn [snd fst] in *.
  - simpl. rewrite lookup_delete_eq. lia.
  - assert (Hle : match challenges am2 !! token with
                  | Some c0 => Z.max 0 (challengeAttempts - c_attempts c0) | None => 0 end
                  <= challengeAttempts - (c_attempts c + 1)).
    { destruct (challenges am2 !! token) as [c2|] eqn:E2; [|lia].
      eapply lookup_weaken in E2; [|exact Hq]. simpl in E2. rewrite lookup_insert_eq in E2.
      injection E2 as <-. simpl. lia. }
    unfold checked. simpl. destruct e; lia.
Qed.

(** What a client does with one challenge, other requests in between; [n] codes
    were checked. *)
Inductive attempts (token : string) : AuthManager -> nat -> AuthManager -> Prop :=
| at_nil am : attempts token am 0 am
| at_other am am1 n am2 :
    auth_step any (not_this token) am am1 -> attempts token am1 n am2 -> attempts token am n am2
| at_try am ok now code n am2 :
    attempts token (snd (complete_locked ok now token code am)) n am2 ->
    attempts token am (n + if checked (complete_locked ok now token code am) then 1 else 0) am2.

Lemma attempts_tries token am n am' : attempts token am n am' -> Z.of_nat n <= tries_left token am.
Proof.
  induction 1 as [am|am am1 n am2 Hst _ IH|am ok now code n am2 _ IH].
  - unfold tries_left. destruct (challenges am !! token); lia.
  - pose proof (tries_left_step _ _ _ _ token Hst (fun H => H eq_refl)). lia.
  - pose proof (tries_left_complete ok now token code am) as H. simpl in H.
    destruct (checked _); lia.
Qed.

Lemma rtc_session P am am' sid s' :
  rtc (auth_step P any) am am' -> ~ P sid -> sessions am' !! sid = Some s' ->
  exists s, sessions am !! sid = Some s /\ same_origin s s'.
Proof.
  intros Hr HP. revert s'. induction Hr as [am|am am1 am2 Hst _ IH]; intros s' Hs'; [by exists s'|].
  destruct (IH s' Hs') as (s1 & Hs1 & A1 & A2 & A3).
  destruct (session_step _ _ _ _ _ _ Hst HP Hs1) as (s & Hs & B1 & B2 & B3).
  exists s. split; [done|]. unfold same_origin. split_and!; congruence.
Qed.

Lemma get_session_some now sid am s' am' :
  GetSession now sid am = (Some s', am') ->
  exists s, sessions am !! sid = Some s /\ now <= s_Expiry s /\ now - s_Created s <= SessionMaxLifetime /\
    same_origin s s' /\ s_Expiry s' = now + SessionIdleTimeout.
Proof.
  unfold GetSession. destruct (String.eqb sid ""); [done|]. destruct (sessions am !! sid) as [s|]; [|done].
  destruct (session_over now s) eqn:E; [done|]. intros [= <- _]. exists s.
  unfold session_over in E. to_prop. unfold same_origin. simpl. split_and!; done || lia.
Qed.

Lemma find_update_mine (p q : User -> bool) f us u :
  (forall v, q v = true -> p v = true) -> (forall v, p (f v) = p v) ->
  List.find p us = Some u -> q u = true -> List.find p (update_first q f us) = Some (f u).
Proof.
  intros Hqp Hf. induction us as [|v us IH]; simpl; [done|]. destruct (p v) eqn:E.
  - intros [= ->] Hq. rewrite Hq. simpl. by rewrite Hf, E.
  - intros H Hq. destruct (q v) eqn:Eq; [by rewrite (Hqp _ Eq) in E|]. simpl. rewrite E. by apply IH.
Qed.

(** A password check changes at most the hash it upgrades. *)
Lemma verify_credentials_spec `{Argon2} ok salt name password am am' :
  verifyCredentials ok salt name password am = (None, am') ->
  exists u u', GetUser am name = Some u /\ VerifyPassword password (u_PasswordHash u) = true /\
    GetUser am' name = Some u' /\ u_TOTPEnabled u' = u_TOTPEnabled u /\
    sessions am' = sessions am /\ challenges am' = challenges am /\ setups am' = setups am.
Proof.
  unfold verifyCredentials. destruct (GetUser am name) as [u|] eqn:E; [|done].
  destruct (VerifyPassword password (u_PasswordHash u)) eqn:Ev; cbn [negb]; [|done].
  intros Ha. exists u.
  assert (Hsame : am' = am -> exists u', Some u = Some u /\ VerifyPassword password (u_PasswordHash u) = true /\
      GetUser am' name = Some u' /\ u_TOTPEnabled u' = u_TOTPEnabled u /\
      sessions am' = sessions am /\ challenges am' = challenges am /\ setups am' = setups am)
    by (intros ->; exists u; by split_and!).
  destruct (IsLegacyPasswordHash _); [|injection Ha as <-; by apply Hsame].
  destruct (HashPassword password salt) as [h|]; [|injection Ha as <-; by apply Hsame].
  injection Ha as Ha. unfold upgrade_hash_locked in Ha.
  destruct (existsb _ _); [|by apply Hsame]. unfold save_or_restore in Ha. destruct ok; subst am'.
  - exists (with_hash h u). split_and!; try done. unfold GetUser. apply find_update_mine; try done.
    + intros v Hv. by apply andb_true_iff in Hv as [? _].
    + apply find_named in E as [_ Hn]. unfold named. by rewrite Hn, !String.eqb_refl.
  - exists u. by split_and!.
Qed.

Lemma consume_spec ok now name code am used am' :
  consumeSecondFactorLocked ok now name code am = (Ok used, am') ->
  exists u, GetUser am name = Some u /\ u_TOTPEnabled u = true /\ ok = true /\
    sessions am' = sessions am /\ challenges am' = challenges am /\
    ((used = false /\ exists step, In step [Z.quot (unix now) 30 - 1; Z.quot (unix now) 30; Z.quot (unix now) 30 + 1]
        /\ u_TOTPLastStep u < step
        /\ TOTPCode (u_TOTPSecret u) step = Some (replace_byte (trim_space code) " " "")
        /\ GetUser am' name = Some (set_step step u)) \/
     (used = true /\ exists codes, u_RecoveryCodes u ≡ₚ hashRecoveryCode name code :: codes
        /\ GetUser am' name = Some (set_codes codes u))).
Proof.
  unfold consumeSecondFactorLocked. destruct (GetUser am name) as [u|] eqn:E; [|done].
  destruct (u_TOTPEnabled u) eqn:Et; cbn [negb]; [|done]. unfold save_or_restore.
  destruct (verifyTOTP _ _ _ _) as [step|] eqn:Ev.
  - destruct ok; [|done]. intros [= <- <-]. exists u. split_and!; try done. left. split; [done|].
    exists step. unfold verifyTOTP in Ev. destruct (negb _); [done|]. destruct (negb _); [done|].
    apply totp_loop_some in Ev as (H1 & H2 & H3). split_and!; try done.
    by eapply (get_user_update am name (set_step step)).
  - destruct (remove_code _ _) as [codes|] eqn:Er; [|done]. destruct ok; [|done]. intros [= <- <-].
    exists u. split_and!; try done. right. split; [done|]. exists codes. split; [by apply remove_code_spec|].
    by eapply (get_user_update am name (set_codes codes)).
Qed.

Lemma trim_loop_spec es n failed :
  0 <= n < maxAuditEntries -> 0 <= failed <= maxAuditFailedLogins ->
  let out := trim_loop es n failed in
  out `sublist_of` es /\ n + Z.of_nat (length out) <= maxAuditEntries /\
  failed + Z.of_nat (length (List.filter (fun e => isFailedLoginAudit (a_Action e)) out)) <= maxAuditFailedLogins.
Proof.
  unfold maxAuditEntries, maxAuditFailedLogins.
  revert n failed. induction es as [|e es IH]; intros n failed Hn Hf; [split_and!; simpl; [constructor|lia..]|].
  cbn [trim_loop]. unfold maxAuditEntries, maxAuditFailedLogins.
  destruct (isFailedLoginAudit (a_Action e)) eqn:Ef.
  - destruct (failed >=? 200) eqn:E2.
    + destruct (IH n failed Hn Hf) as (H1 & H2 & H3). split_and!; try done. by apply sublist_cons.
    + destruct (n + 1 >=? 1000) eqn:E3.
      * simpl. rewrite Ef. simpl. split_and!; [apply sublist_skip, sublist_nil_l|lia..].
      * destruct (IH (n + 1) (failed + 1)) as (H1 & H2 & H3); [lia..|]. cbn [length List.filter]. rewrite Ef.
        cbn [length]. split_and!; [by apply sublist_skip|lia..].
  - destruct (n + 1 >=? 1000) eqn:E3.
    + simpl. rewrite Ef. simpl. split_and!; [apply sublist_skip, sublist_nil_l|lia..].
    + destruct (IH (n + 1) failed) as (H1 & H2 & H3); [lia..|]. cbn [length List.filter]. rewrite Ef.
      split_and!; [by apply sublist_skip|lia..].
Qed.

Definition other_action (e : AuditEntry) : bool := negb (isFailedLoginAudit (a_Action e)).

Lemma trim_loop_others es n failed :
  0 <= n < maxAuditEntries -> 0 <= failed <= maxAuditFailedLogins ->
  n + Z.of_nat (length (List.filter other_action es)) + (maxAuditFailedLogins - failed) <= maxAuditEntries ->
  List.filter other_action (trim_loop es n failed) = List.filter other_action es.
Proof.
  unfold maxAuditEntries, maxAuditFailedLogins.
  revert n failed. induction es as [|e es IH]; intros n failed Hn Hf Hl; [done|].
  assert (Hnil : forall l : list AuditEntry, Z.of_nat (length l) <= 0 -> l = []) by (intros [|]; simpl; [done|lia]).
  cbn [trim_loop]. unfold maxAuditEntries, maxAuditFailedLogins.
  cbn [List.filter] in Hl |- *. unfold other_action at 1 in Hl. unfold other_action at 2.
  destruct (isFailedLoginAudit (a_Action e)) eqn:Ef; cbn [negb length] in *.
  - destruct (failed >=? 200) eqn:E2; [by apply IH|]. cbn [List.filter]. unfold other_action at 1. rewrite Ef.
    cbn [negb]. destruct (n + 1 >=? 1000) eqn:E3; [|apply IH; lia]. simpl. symmetry. apply Hnil. lia.
  - cbn [List.filter]. unfold other_action at 1. rewrite Ef. cbn [negb]. f_equal.
    destruct (n + 1 >=? 1000) eqn:E3; [|apply IH; lia]. simpl. symmetry. apply Hnil. lia.
Qed.

(** * Properties *)

(** A small installation for concrete runs: a session, a challenge, and a user
    with the second factor of RFC 6238 and one recovery code. *)
Definition demo_anna : User :=
  with_totp true "GEZDGNBVGY3TQOJQGEZDGNBVGY3TQOJQ" 0 [hashRecoveryCode "anna" "abcde-fghjk"] demo_user.
Definition demo_am : AuthManager :=
  mkAM false (mkConfig [first_admin "admin" "x"; demo_anna] 8080)
    {[ "s1" := mkSession "anna" 100 50 "c1"; "s2" := mkSession "admin" 100 50 "c2" ]}
    {[ "t1" := mkChallenge "anna" (100 * ns_second) 0 ]} ∅ None.

Lemma demo_users_ok : users_ok (users demo_am).
Proof. split; [by apply (bool_decide_unpack _); vm_compute|vm_compute; lia]. Qed.

(** C1: whatever requests run, in whatever order and with whatever failing
    writes, user names stay unique and at least one administrator remains. *)
Theorem last_admin_preserved am am' :
  rtc (auth_step any any) am am' -> users_ok (users am) -> users_ok (users am').
Proof. induction 1; [done|]. eauto using users_ok_step. Qed.

Lemma last_admin_preserved_witness : users_ok (users (snd (DeleteUser true "anna" demo_am))).
Proof.
  refine (last_admin_preserved demo_am _ _ demo_users_ok). apply rtc_once. apply st_delete.
Defined.

(** An operation that reports an error and leaves users, file, sessions and
    challenges as they were. *)
Definition untouched (am am' : AuthManager) : Prop :=
  users am' = users am /\ disk am' = disk am /\ sessions am' = sessions am /\ challenges am' = challenges am.
Definition refused {A} (am : AuthManager) (r : ret A) : Prop :=
  is_ok (fst r) = false /\ untouched am (snd r).

Lemma refused_save {A} us am (k : AuthManager -> ret A) : refused am (save_or_restore false us am k).
Proof. split; [done|]. by destruct am as [? [] ? ? ? ?]. Qed.
Lemma refused_err {A} am e : @refused A am (Err e, am).
Proof. by split. Qed.

(** when the configuration cannot be written, the operations that change an
    account or its second factor report an error and leave users, file, sessions
    and challenges as they were. *)
Theorem failed_write_restores am name hash role servers perms stored keep code now draws :
  refused am (create_user_locked false name hash role servers perms am) /\
  refused am (update_user_locked false name hash role servers perms am) /\
  refused am (DeleteUser false name am) /\
  refused am (change_password_locked false name stored hash keep am) /\
  refused am (consumeSecondFactorLocked false now name code am) /\
  refused am (clearTwoFactorLocked false name keep am) /\
  refused am (ConfirmTwoFactorSetup false now draws name code keep am) /\
  untouched am (upgrade_hash_locked false name stored hash am).
Proof.
  split_and!.
  - unfold create_user_locked. destruct (existsb _ _); [done|apply refused_save].
  - unfold update_user_locked. destruct (GetUser am name); [|done].
    destruct (_ && _); [done|apply refused_save].
  - unfold DeleteUser. destruct (GetUser am name); [|done]. destruct (_ && _); [done|apply refused_save].
  - unfold change_password_locked. destruct (GetUser am name); [|done].
    destruct (negb _); [done|apply refused_save].
  - unfold consumeSecondFactorLocked. destruct (GetUser am name); [|done].
    destruct (negb _); [done|]. destruct (verifyTOTP _ _ _ _); [apply refused_save|].
    destruct (remove_code _ _); [apply refused_save|done].
  - unfold clearTwoFactorLocked. destruct (GetUser am name); [|done]. destruct (negb _); [done|apply refused_save].
  - unfold ConfirmTwoFactorSetup. destruct (setups am !! name) as [s|]; [|by split].
    destruct (p_expiry s <? now); [by split|]. destruct (verifyTOTP _ _ _ _); [|done].
    destruct (generateRecoveryCodes draws); [|done]. destruct (GetUser am name) as [u|]; [|done].
    destruct (u_TOTPEnabled u); [done|apply refused_save].
  - unfold upgrade_hash_locked. destruct (existsb _ _); [|done]. apply refused_save.
Qed.

(** the assignment of nodes does not do so: after a failed write the error is
    reported, but the new assignment is in force until the next start. *)
Theorem failed_write_keeps_nodes am name nodes u :
  GetUser am name = Some u -> forallb IsValidNodeID nodes = true ->
  let '(r, am') := SetUserNodes false name nodes am in
  r = Err ESave /\ disk am' = disk am /\ GetUser am' name = Some (with_servers (u_Servers u) nodes u).
Proof.
  intros Hu Hn. unfold SetUserNodes. rewrite Hn, Hu. cbn [negb]. split_and!; try done.
  by eapply (get_user_update am name (fun v => with_servers (u_Servers v) nodes v)).
Qed.
Lemma failed_write_keeps_nodes_witness :
  fst (SetUserNodes false "anna" ["lxc-2"] demo_am) = Err ESave.
Proof. exact (proj1 (failed_write_keeps_nodes demo_am "anna" ["lxc-2"] demo_anna eq_refl eq_refl)). Defined.

(** a session ends: unless the same random ID is drawn again, no sequence of
    requests lets it be used more than seven days after it was created, more than
    its last expiry, or for another user. *)
Theorem session_lifetime am am' am'' now sid s' :
  rtc (auth_step (not_this sid) any) am am' -> GetSession now sid am' = (Some s', am'') ->
  exists s, sessions am !! sid = Some s /\ s_Username s' = s_Username s /\
    now <= s_Created s + 7 * 24 * ns_hour /\ s_Expiry s' = now + 24 * ns_hour.
Proof.
  intros Hr Hg. apply get_session_some in Hg as (s1 & Hs1 & _ & Hm & (H1 & H2 & _) & He).
  destruct (rtc_session _ _ _ _ _ Hr (fun H => H eq_refl) Hs1) as (s & Hs & H3 & H4 & _).
  exists s. rewrite H4 in Hm. unfold SessionMaxLifetime, SessionIdleTimeout in *.
  split_and!; [done|congruence|lia|done].
Qed.
Lemma session_lifetime_witness :
  exists s, sessions demo_am !! "s1" = Some s /\ s_Username s = "anna".
Proof.
  destruct (session_lifetime demo_am demo_am _ 60 "s1" _ (rtc_refl _ _) eq_refl) as (s & Hs & Hu & _).
  exists s. split; [exact Hs|symmetry; exact Hu].
Defined.

(** after a user changed the password, the new one is stored and every
    session of the user but the one that changed it is gone; the sessions of
    others stay. *)
Theorem change_password_revokes `{Argon2} ok salt name old new keep am am' :
  ChangeUserPassword ok salt name old new keep am = (Ok tt, am') ->
  (exists u h, GetUser am name = Some u /\ VerifyPassword old (u_PasswordHash u) = true /\
     HashPassword new salt = Some h /\ GetUser am' name = Some (with_hash h u) /\ disk am' = Some (config am')) /\
  8 <= slen new /\
  forall sid s, sessions am' !! sid = Some s <->
    sessions am !! sid = Some s /\ (s_Username s = name -> sid = keep).
Proof.
  unfold ChangeUserPassword, MinPasswordLength. destruct (slen new <? 8) eqn:El; [done|].
  destruct (GetUser am name) as [u|] eqn:Eu; [|done]. destruct (VerifyPassword old _) eqn:Ev; [|done].
  cbn [negb]. destruct (HashPassword new salt) as [h|] eqn:Eh; [|done].
  unfold change_password_locked. rewrite Eu, String.eqb_refl. cbn [negb]. unfold save_or_restore.
  destruct ok; [|done]. intros [= <-]. split_and!.
  - exists u, h. split_and!; try done. by eapply (get_user_update am name (with_hash h)).
  - to_prop. lia.
  - intros sid s. simpl. rewrite map_lookup_filter_Some. unfold keeps_session. simpl.
    destruct (String.eqb_spec (s_Username s) name), (String.eqb_spec sid keep); simpl; intuition congruence.
Qed.
Definition demo_owner : AuthManager :=
  let h := match @HashPassword toy_argon2 "oldsecret" (Some [1; 2]) with Some h => h | None => "" end in
  set_users [with_hash h demo_user] demo_am.
Lemma change_password_revokes_witness :
  sessions (snd (@ChangeUserPassword toy_argon2 true (Some [3]) "anna" "oldsecret" "newsecret" "" demo_owner))
    !! "s1" = None.
Proof.
  refine (let H := @change_password_revokes toy_argon2 true (Some [3]) "anna" "oldsecret" "newsecret" ""
                     demo_owner _ _ in _).
  destruct (sessions (snd _) !! "s1") as [s|] eqn:E; [|reflexivity].
  apply (proj2 (proj2 H)) in E as [E1 E2]. vm_compute in E1. injection E1 as <-. by specialize (E2 eq_refl).
  Unshelve. vm_compute. reflexivity.
Defined.

(** deleting a user ends everything that was open for the account: no
    session, no pending login, no setup of the second factor is left. *)
Theorem delete_user_revokes name am am' :
  DeleteUser true name am = (Ok tt, am') -> NoDup (map u_Username (users am)) ->
  GetUser am' name = None /\ setups am' !! name = None /\
  (forall sid s, sid <> "" ->
     sessions am' !! sid = Some s <-> sessions am !! sid = Some s /\ s_Username s <> name) /\
  (forall t c, challenges am' !! t = Some c <-> challenges am !! t = Some c /\ c_username c <> name).
Proof.
  unfold DeleteUser. destruct (GetUser am name) as [u|] eqn:Eu; [|done]. destruct (_ && _); [done|].
  unfold save_or_restore. intros [= <-] Hn. split_and!.
  - unfold GetUser. by apply find_remove_first.
  - simpl. apply lookup_delete_eq.
  - intros sid s Hsid. simpl. rewrite map_lookup_filter_Some. unfold keeps_session. simpl.
    apply String.eqb_neq in Hsid. rewrite Hsid.
    destruct (String.eqb_spec (s_Username s) name); simpl; intuition congruence.
  - intros t c. simpl. rewrite map_lookup_filter_Some. simpl.
    destruct (String.eqb_spec (c_username c) name); simpl; intuition congruence.
Qed.

Lemma delete_user_revokes_witness :
  sessions (snd (DeleteUser true "anna" demo_am)) !! "s1" = None /\
  challenges (snd (DeleteUser true "anna" demo_am)) !! "t1" = None.
Proof.
  pose proof (delete_user_revokes "anna" demo_am (snd (DeleteUser true "anna" demo_am)) eq_refl
                (proj1 demo_users_ok)) as (_ & _ & H1 & H2).
  split.
  - destruct (sessions (snd (DeleteUser true "anna" demo_am)) !! "s1") as [s|] eqn:E; [|reflexivity].
    apply H1 in E as [E1 E2]; [|discriminate]. vm_compute in E1. injection E1 as <-. by destruct E2.
  - destruct (challenges (snd (DeleteUser true "anna" demo_am)) !! "t1") as [s|] eqn:E; [|reflexivity].
    apply H2 in E as [E1 E2]. vm_compute in E1. injection E1 as <-. by destruct E2.
Defined.

(** The first step of the login: the password is checked, and it alone gives
    a session only to an account without a second factor; otherwise the answer is
    a challenge for that account, and no session. *)
Theorem begin_login_second_factor `{Argon2} ok salt now sid csrf token name password am res am' :
  BeginLogin ok salt now (Some sid) (Some csrf) (Some token) name password am = (Ok res, am') ->
  exists u, GetUser am name = Some u /\ VerifyPassword password (u_PasswordHash u) = true /\
    if u_TOTPEnabled u
    then res = mkLoginResult "" token /\ sessions am' = sessions am /\
         challenges am' = <[token := mkChallenge name (now + 5 * ns_minute) 0]> (challenges am)
    else res = mkLoginResult sid "" /\ challenges am' = challenges am /\
         sessions am' = <[sid := mkSession name (now + 24 * ns_hour) now csrf]> (sessions am).
Proof.
  unfold BeginLogin. destruct (verifyCredentials ok salt name password am) as [[e|] am1] eqn:Ev; [done|].
  apply verify_credentials_spec in Ev as (u & u' & Hu & Hv & Hu' & Ht & Hs & Hc & _).
  rewrite Hu', Ht. intros Hr. exists u. split_and!; [done|done|].
  destruct (u_TOTPEnabled u); cbn [negb] in Hr; injection Hr as <- <-; simpl; by rewrite ?Hs, ?Hc.
Qed.
Lemma begin_login_second_factor_witness :
  challenges (snd (@BeginLogin toy_argon2 true None 0 (Some "s") (Some "c") (Some "t") "anna" "oldsecret"
    (set_users [with_totp true "A" 0 [] (List.hd demo_user (users demo_owner))] demo_am))) !! "t"
  = Some (mkChallenge "anna" (5 * ns_minute) 0).
Proof.
  pose proof (@begin_login_second_factor toy_argon2 true None 0 "s" "c" "t" "anna" "oldsecret"
    (set_users [with_totp true "A" 0 [] (List.hd demo_user (users demo_owner))] demo_am)
    (mkLoginResult "" "t") (snd (@BeginLogin toy_argon2 true None 0 (Some "s") (Some "c") (Some "t") "anna" "oldsecret"
    (set_users [with_totp true "A" 0 [] (List.hd demo_user (users demo_owner))] demo_am)))) as H.
  destruct H as (u & Hu & _ & Hif); [vm_compute; reflexivity|].
  vm_compute in Hu. injection Hu as <-. cbn [u_TOTPEnabled] in Hif. destruct Hif as (_ & _ & ->). reflexivity.
Defined.

(** the second step signs in only the user the challenge was made for, with
    a current and unused code of that user or one of that user's recovery codes,
    and uses the challenge up. *)
Theorem complete_login_binds_user ok now sid csrf token code am s used am' :
  CompleteLogin ok now (Some sid) (Some csrf) token code am = (Ok (s, used), am') ->
  exists c u, challenges am !! token = Some c /\ now <= c_expiry c /\ c_attempts c < 5 /\
    GetUser am (c_username c) = Some u /\ u_TOTPEnabled u = true /\
    (if used then In (hashRecoveryCode (c_username c) code) (u_RecoveryCodes u)
     else exists step, u_TOTPLastStep u < step /\ Z.abs (step - Z.quot (unix now) 30) <= 1 /\
            TOTPCode (u_TOTPSecret u) step = Some (replace_byte (trim_space code) " " "")) /\
    sessions am' = <[sid := mkSession (c_username c) (now + 24 * ns_hour) now csrf]> (sessions am) /\
    challenges am' !! token = None.
Proof.
  unfold CompleteLogin, complete_locked. destruct (challenges am !! token) as [c|] eqn:Ec; [|done].
  destruct (c_expiry c <? now) eqn:Ee; [done|]. cbn [c_attempts].
  destruct (c_attempts c + 1 >? challengeAttempts) eqn:Ea; [done|]. unfold challengeAttempts in Ea.
  set (am1 := set_challenges _ am).
  destruct (consumeSecondFactorLocked _ _ _ _ _) as [[b|e] am2] eqn:Ek; [|done].
  apply consume_spec in Ek as (u & Hu & Ht & _ & Hs & Hc & Hcase). simpl. intros [= <- <- <-].
  exists c, u. split_and!; try done; [lia|lia| | |].
  - destruct Hcase as [(-> & step & Hin & Hl & Hcode & _)|(-> & codes & Hp & _)].
    + exists step. split_and!; try done. simpl in Hin. lia.
    + apply list_elem_of_In. rewrite Hp. left.
  - simpl. by rewrite Hs.
  - simpl. apply lookup_delete_eq.
Qed.
Lemma complete_login_binds_user_witness :
  challenges (snd (CompleteLogin true (59 * ns_second) (Some "s") (Some "c") "t1" "287 082" demo_am)) !! "t1" = None.
Proof.
  pose proof (complete_login_binds_user true (59 * ns_second) "s" "c" "t1" "287 082" demo_am "s" false
    (snd (CompleteLogin true (59 * ns_second) (Some "s") (Some "c") "t1" "287 082" demo_am))) as H.
  destruct H as (c & u & _ & _ & _ & _ & _ & _ & _ & H); [vm_compute; reflexivity|exact H].
Defined.

(** a challenge allows five codes to be checked, whatever other requests run
    in between and whether writes fail. *)
Theorem challenge_attempts_bounded token am n am' :
  attempts token am n am' -> (forall c, challenges am !! token = Some c -> 0 <= c_attempts c) -> Z.of_nat n <= 5.
Proof.
  intros Ha%attempts_tries Hc. unfold tries_left in Ha.
  destruct (challenges am !! token) as [c|]; [|lia]. specialize (Hc c eq_refl).
  unfold challengeAttempts in Ha. lia.
Qed.
Lemma challenge_attempts_bounded_witness : Z.of_nat 1 <= 5.
Proof.
  refine (challenge_attempts_bounded "t1" demo_am 1 _ (at_try "t1" demo_am true 5 "000000" 0 _ (at_nil _ _)) _).
  intros c Hc. vm_compute in Hc. injection Hc as <-. simpl. lia.
Defined.

(** Every code of the current time step or the one before or after, of a step
    not used yet, is accepted, also when typed with spaces. *)
Theorem totp_accepts_window secret now last step code c :
  TOTPCode secret step = Some c -> Z.abs (step - Z.quot (unix now) 30) <= 1 -> last < step ->
  replace_byte (trim_space code) " " "" = c ->
  exists s, verifyTOTP secret code now last = Some s.
Proof.
  intros Hc Hs Hl Hn. unfold verifyTOTP. rewrite Hn.
  assert (H6 : slen c = totpDigits /\ sall is_digit c = true).
  { unfold TOTPCode in Hc. destruct (base32_decode _) as [[|]|]; try done. injection Hc as <-.
    unfold six_digits, slen, sall. rewrite length_of_bytes, to_of_bytes, length_map. split; [done|].
    apply forallb_forall. intros x (p & <- & _)%in_map_iff.
    apply digit_chr. apply Z.mod_pos_bound. lia. }
  destruct H6 as [-> ->]. cbn [negb Z.eqb totpDigits Pos.eqb].
  apply (totp_loop_complete _ _ _ _ step); [unfold totpPeriod; simpl; lia|done|done].
Qed.
Lemma totp_accepts_window_witness :
  exists s, verifyTOTP "GEZDGNBVGY3TQOJQGEZDGNBVGY3TQOJQ" "287 082" (89 * ns_second) 0 = Some s.
Proof.
  refine (totp_accepts_window _ _ 0 1 "287 082" "287082" _ _ _ _); [vm_compute; reflexivity|vm_compute; done|lia|reflexivity].
Defined.

(** A recovery code works once: using it removes exactly that code, so with
    different codes the same one is no recovery code any more. *)
Theorem recovery_code_single_use ok now name code am am' :
  consumeSecondFactorLocked ok now name code am = (Ok true, am') ->
  exists u u', GetUser am name = Some u /\ GetUser am' name = Some u' /\
    u_RecoveryCodes u ≡ₚ hashRecoveryCode name code :: u_RecoveryCodes u' /\
    u_TOTPLastStep u' = u_TOTPLastStep u /\
    (NoDup (u_RecoveryCodes u) -> forall ok' now' am'',
       consumeSecondFactorLocked ok' now' name code am' <> (Ok true, am'')).
Proof.
  intros (u & Hu & _ & _ & _ & _ & Hc)%consume_spec.
  destruct Hc as [(? & _)|(_ & codes & Hp & Hu')]; [done|].
  exists u, (set_codes codes u). split_and!; try done. rewrite Hp. intros Hn ok' now' am'' H2.
  apply consume_spec in H2 as (u2 & Hu2 & _ & _ & _ & _ & Hc). rewrite Hu' in Hu2. injection Hu2 as <-.
  destruct Hc as [(? & _)|(_ & codes2 & Hp2 & _)]; [done|]. simpl in Hp2.
  apply NoDup_cons in Hn as [Hni _]. apply Hni. rewrite Hp2. left.
Qed.
Lemma recovery_code_single_use_witness :
  exists u', GetUser (snd (consumeSecondFactorLocked true 0 "anna" "ABCDE FGHJK" demo_am)) "anna" = Some u' /\
    u_RecoveryCodes demo_anna ≡ₚ hashRecoveryCode "anna" "ABCDE FGHJK" :: u_RecoveryCodes u'.
Proof.
  pose proof (recovery_code_single_use true 0 "anna" "ABCDE FGHJK" demo_am
    (snd (consumeSecondFactorLocked true 0 "anna" "ABCDE FGHJK" demo_am))) as H.
  destruct H as (u & u' & Hu & Hu' & Hp & _); [vm_compute; reflexivity|].
  exists u'. split; [exact Hu'|]. injection Hu as <-. exact Hp.
Defined.

(** The audit log stays bounded, and failed logins, which need no account,
    cannot push out what users did: of up to 800 other entries none is lost. *)
Theorem trim_audit_log_bounds entries :
  let out := trimAuditLog entries in
  out `sublist_of` entries /\ Z.of_nat (length out) <= 1000 /\
  Z.of_nat (length (List.filter (fun e => isFailedLoginAudit (a_Action e)) out)) <= 200 /\
  (Z.of_nat (length (List.filter other_action entries)) <= 800 ->
   List.filter other_action out = List.filter other_action entries).
Proof.
  unfold trimAuditLog. destruct (trim_loop_spec entries 0 0) as (H1 & H2 & H3);
    [unfold maxAuditEntries; lia|unfold maxAuditFailedLogins; lia|].
  split_and!; [exact H1|exact H2|exact H3|].
  intros H. apply trim_loop_others; unfold maxAuditEntries, maxAuditFailedLogins; lia.
Qed.
