(* ===== verification/Replay.v ===== *)
(** * TOTP codes are used once

    The time step of an accepted code along everything that can happen to an
    account afterwards (backend/twofactor.go, backend/auth.go): other requests in
    any order, failing writes, and restarts of the dashboard that read
    config.json again, up to the point where the account is deleted or its second
    factor is switched off. *)

From Stdlib Require Import ZArith Lia Bool String Ascii List.
From stdpp Require Import base gmap strings list relations.
From S2P Require Import Prelude GoStrings Validate Authz Crypto Passwords Auth TwoFactor AuthInv.

(** ** What ends a registration, and what may come after a check *)

(** The three requests that take the second factor from an account, when they succeed. *)
Inductive ended (name : string) (am : AuthManager) : AuthManager -> Prop :=
| en_delete ok am' : DeleteUser ok name am = (Ok tt, am') -> ended name am am'
| en_reset ok am' : ResetTwoFactor ok name am = (Ok tt, am') -> ended name am am'
| en_disable ok1 ok2 now code keep am' :
    disable_locked ok1 ok2 now name code keep am = (Ok tt, am') -> ended name am am'.

(** A new process: the users of the file as it was last written, no sessions. *)
Definition restarted (c : Config) (am : AuthManager) : AuthManager :=
  let '(_, am') := loadOrCreateConfig empty_manager (Decoded (mkLegacy "" "" (Port c) (Users c))) None true in
  mkAM (freshInstall am') (config am') (sessions am') (challenges am') (setups am') (disk am).

Inductive next (name : string) (am : AuthManager) : AuthManager -> Prop :=
| nx_step am' : auth_step any any am am' -> ~ ended name am am' -> next name am am'
| nx_restart c : disk am = Some c -> next name am (restarted c am).

(** ** The step a registration has reached, in memory and on disk *)

Definition past (name secret : string) (s : Z) (us : list User) : Prop :=
  exists u, List.find (named name) us = Some u /\ u_TOTPEnabled u = true /\
    u_TOTPSecret u = secret /\ s <= u_TOTPLastStep u.

Definition held (name secret : string) (s : Z) (am : AuthManager) : Prop :=
  past name secret s (users am) /\ exists c, disk am = Some c /\ past name secret s (Users c).

Definition kept (name : string) (am am' : AuthManager) : Prop :=
  forall secret s, held name secret s am -> held name secret s am'.
Definition keeps (name : string) (us us' : list User) : Prop :=
  forall secret s, past name secret s us -> past name secret s us'.

#[global] Instance kept_preorder name : PreOrder (kept name).
Proof. split; [by intros am secret s|]. intros a b c H1 H2 secret s H. auto. Qed.

Definition factor (u : User) : string * bool * string * Z :=
  (u_Username u, u_TOTPEnabled u, u_TOTPSecret u, u_TOTPLastStep u).

Lemma keeps_factor name us us' : map factor us' = map factor us -> keeps name us us'.
Proof.
  revert us'. induction us as [|u us IH]; intros [|u' us'] He; [by intros ? ?|done..|]. injection He as H1 H2 H3 H4 He.
  intros secret s (v & Hv & Ht & Hsec & Hs). specialize (IH us' He secret s). simpl in Hv.
  unfold past in *. simpl. unfold named at 1 in Hv. unfold named at 1. rewrite H1.
  destruct (String.eqb (u_Username u) name); [|apply IH; by exists v].
  injection Hv as <-. exists u'. split_and!; congruence || lia.
Qed.

Lemma factor_update_first p f us :
  (forall u, factor (f u) = factor u) -> map factor (update_first p f us) = map factor us.
Proof.
  intros Hf. induction us as [|u us IH]; simpl; [done|]. destruct (p u); simpl; by rewrite ?Hf, ?IH.
Qed.

Lemma keeps_update name p f us :
  (forall u, factor (f u) = factor u) -> keeps name us (update_first p f us).
Proof. intros Hf. by apply keeps_factor, factor_update_first. Qed.

(** An update of the account itself that raises its step, or of another account. *)
Lemma keeps_named name n f us :
  (forall u, u_Username (f u) = u_Username u) ->
  (n = name -> forall u, List.find (named name) us = Some u -> u_TOTPEnabled (f u) = u_TOTPEnabled u
      /\ u_TOTPSecret (f u) = u_TOTPSecret u /\ u_TOTPLastStep u <= u_TOTPLastStep (f u)) ->
  keeps name us (update_first (named n) f us).
Proof.
  intros Hn Hf secret s (u & Hu & Ht & Hsec & Hs). destruct (decide (n = name)) as [->|Hne].
  - destruct (Hf eq_refl u Hu) as (A & B & C). exists (f u).
    split_and!; [by apply find_update_first|congruence|congruence|lia].
  - exists u. split_and!; try done. clear Hf. revert Hu. induction us as [|v us IH]; simpl; [done|].
    destruct (named n v) eqn:E; simpl.
    + unfold named in *. rewrite Hn. apply String.eqb_eq in E.
      destruct (String.eqb_spec (u_Username v) name); [congruence|done].
    + destruct (named name v); [done|]. apply IH.
Qed.

(** ** Saving *)

Lemma kept_users name us am : keeps name (users am) us -> kept name am (set_users us am).
Proof. intros H secret s [H1 H2]. split; [by apply H|done]. Qed.
Lemma kept_saved name ok am : kept name am (saveConfigLocked ok am).
Proof. intros secret s [H1 H2]. destruct ok; [|done]. split; [done|]. by exists (config am). Qed.
Lemma kept_same name am am' : users am' = users am -> disk am' = disk am -> kept name am am'.
Proof. intros H1 H2 secret s. unfold held. by rewrite H1, H2. Qed.

Lemma kept_save {A} name ok us am (k : AuthManager -> ret A) :
  keeps name (users am) us -> (forall am', kept name am' (snd (k am'))) ->
  kept name am (snd (save_or_restore ok us am k)).
Proof.
  intros Hu Hk. unfold save_or_restore. destruct ok; [|by apply kept_same].
  etrans; [by apply (kept_users name us)|]. etrans; [apply (kept_saved name true)|apply Hk].
Qed.

Create HintDb kept.
#[local] Hint Resolve kept_save kept_users kept_saved keeps_update : kept.
#[local] Hint Extern 1 (kept _ ?a ?a) => reflexivity : kept.
#[local] Hint Extern 2 (kept _ _ _) => (apply kept_same; reflexivity) : kept.

Ltac open_user am name := destruct (GetUser am name) as [?u|] eqn:?; [|auto with kept].

(** ** Every operation *)

Lemma consume_kept x ok now name code am :
  kept x am (snd (consumeSecondFactorLocked ok now name code am)).
Proof.
  unfold consumeSecondFactorLocked. open_user am name.
  destruct (negb _); [auto with kept|]. destruct (verifyTOTP _ _ _ _) as [step|] eqn:Ev.
  - apply kept_save; [|auto with kept]. apply keeps_named; [done|]. intros <- v Hv.
    unfold GetUser in *. assert (v = u) as -> by congruence. simpl. split_and!; [done|done|].
    unfold verifyTOTP in Ev. destruct (negb _); [done|]. destruct (negb _); [done|].
    apply totp_loop_some in Ev. lia.
  - destruct (remove_code _ _) as [codes|]; [|auto with kept]. apply kept_save; [|auto with kept].
    by apply keeps_update.
Qed.

Lemma clear_kept x ok name keep am :
  x <> name -> kept x am (snd (clearTwoFactorLocked ok name keep am)).
Proof.
  intros Hne. unfold clearTwoFactorLocked. open_user am name. destruct (negb _); [auto with kept|].
  apply kept_save; [by apply keeps_named|auto with kept].
Qed.
(** One that fails changes nothing. *)
Lemma clear_fails x ok name keep am :
  (exists e, fst (clearTwoFactorLocked ok name keep am) = Err e) ->
  kept x am (snd (clearTwoFactorLocked ok name keep am)).
Proof.
  unfold clearTwoFactorLocked. open_user am name. destruct (negb _); [auto with kept|].
  unfold save_or_restore. destruct ok; [by intros [e ?]|auto with kept].
Qed.

Lemma complete_kept x ok now token code am : kept x am (snd (complete_locked ok now token code am)).
Proof.
  unfold complete_locked. destruct (challenges am !! token) as [c|]; [|auto with kept].
  destruct (c_expiry c <? now); [auto with kept|]. destruct (_ >? _); [auto with kept|].
  set (am1 := set_challenges _ am).
  pose proof (consume_kept x ok now (c_username c) code am1) as H.
  destruct (consumeSecondFactorLocked _ _ _ _ _) as [[b|e] am2]; cbn [snd] in *.
  - etrans; [|etrans; [exact H|]]; auto with kept.
  - etrans; [|exact H]. auto with kept.
Qed.

Lemma regenerate_kept x ok1 ok2 now draws name code am :
  kept x am (snd (regenerate_locked ok1 ok2 now draws name code am)).
Proof.
  unfold regenerate_locked. pose proof (consume_kept x ok1 now name code am) as H.
  destruct (consumeSecondFactorLocked _ _ _ _ _) as [[b|e] am1]; [|exact H].
  destruct (generateRecoveryCodes draws); [|exact H]. destruct (GetUser am1 name); [|exact H].
  etrans; [exact H|]. apply kept_save; [by apply keeps_update|auto with kept].
Qed.

Lemma disable_kept x ok1 ok2 now name code keep am :
  (x = name -> exists e, fst (disable_locked ok1 ok2 now name code keep am) = Err e) ->
  kept x am (snd (disable_locked ok1 ok2 now name code keep am)).
Proof.
  unfold disable_locked. pose proof (consume_kept x ok1 now name code am) as H.
  destruct (consumeSecondFactorLocked _ _ _ _ _) as [[b|e] am1]; [|intros; exact H].
  intros Hx. etrans; [exact H|].
  destruct (decide (x = name)) as [->|Hne]; [by apply clear_fails, Hx|by apply clear_kept].
Qed.

(** The setup is confirmed only for an account without a second factor. *)
Lemma confirm_kept x ok now draws name code keep am :
  kept x am (snd (ConfirmTwoFactorSetup ok now draws name code keep am)).
Proof.
  unfold ConfirmTwoFactorSetup. destruct (setups am !! name) as [p|]; [|auto with kept].
  destruct (p_expiry p <? now); [auto with kept|]. destruct (verifyTOTP _ _ _ _); [|auto with kept].
  destruct (generateRecoveryCodes draws); [|auto with kept]. open_user am name.
  destruct (u_TOTPEnabled u) eqn:Et; [auto with kept|].
  destruct (decide (x = name)) as [->|Hne].
  - intros secret s [(v & Hv & Hvt & _) _]. unfold GetUser in *. congruence.
  - apply kept_save; [by apply keeps_named|auto with kept].
Qed.

Lemma delete_kept x ok name am :
  (x = name -> exists e, fst (DeleteUser ok name am) = Err e) -> kept x am (snd (DeleteUser ok name am)).
Proof.
  unfold DeleteUser. open_user am name. destruct (_ && _); [auto with kept|].
  destruct (decide (x = name)) as [->|Hne].
  - unfold save_or_restore. destruct ok; [|auto with kept]. intros H. by destruct (H eq_refl).
  - intros _. apply kept_save; [|auto with kept]. intros secret s (v & Hv & H). exists v. split; [|done].
    clear Heqo. induction (users am) as [|w us IH]; simpl in *; [done|]. destruct (named name w) eqn:E; simpl.
    + unfold named in *. apply String.eqb_eq in E.
      destruct (String.eqb_spec (u_Username w) x); [congruence|done].
    + destruct (named x w); [done|]. by apply IH.
Qed.

Lemma create_kept x ok name hash role servers perms am :
  kept x am (snd (create_user_locked ok name hash role servers perms am)).
Proof.
  unfold create_user_locked. destruct (existsb _ _); [auto with kept|].
  apply kept_save; [|auto with kept]. intros secret s (v & Hv & H). exists v. split; [|done].
  induction (users am) as [|w us IH]; simpl in *; [done|]. destruct (named x w); [done|]. by apply IH.
Qed.

Lemma if_changed_kept x ok p f am :
  (forall u, factor (f u) = factor u) -> kept x am (snd (save_if_changed ok p f am)).
Proof.
  intros Hf. unfold save_if_changed. destruct (existsb _ _); [|auto with kept].
  cbn [snd]. etrans; [|apply kept_saved]. apply kept_users, keeps_factor. rewrite map_map.
  apply map_ext. intros u. by destruct (p u).
Qed.

#[local] Hint Resolve create_kept if_changed_kept complete_kept regenerate_kept confirm_kept : kept.

Lemma step_kept name am am' :
  auth_step any any am am' -> ~ ended name am am' -> kept name am am'.
Proof.
  intros H Hne. destruct H; auto with kept.
  - unfold SetNotesSeen. open_user am name0. cbn [snd].
    etrans; [|apply kept_saved]. by apply kept_users, keeps_update.
  - unfold createSession. destruct csrf; auto with kept.
  - unfold GetSession. destruct (String.eqb sid ""); [done|].
    destruct (sessions am !! sid) as [s|]; [|done]. destruct (session_over now s); auto with kept.
  - unfold update_user_locked. open_user am name0. destruct (_ && _); [auto with kept|].
    apply kept_save; [|intros; destruct (String.eqb hash ""); auto with kept].
    apply keeps_update. intros v. by destruct (String.eqb hash "").
  - apply delete_kept. intros <-. destruct (DeleteUser ok name am) as [[[]|e] am'] eqn:E; [|by exists e].
    destruct Hne. by eapply en_delete.
  - unfold SetUserNodes. destruct (negb _); [done|]. open_user am name0. cbn [snd].
    etrans; [|apply kept_saved]. by apply kept_users, keeps_update.
  - by apply if_changed_kept.
  - by apply if_changed_kept.
  - unfold change_password_locked. open_user am name0. destruct (negb _); [auto with kept|].
    apply kept_save; [by apply keeps_update|auto with kept].
  - unfold upgrade_hash_locked. destruct (existsb _ _); [|done].
    apply kept_save; [by apply keeps_update|auto with kept].
  - apply disable_kept. intros <-.
    destruct (disable_locked ok1 ok2 now name code keep am) as [[[]|e] am'] eqn:E; [|by exists e].
    destruct Hne. by eapply en_disable.
  - destruct (decide (name = name0)) as [<-|Hn]; [|by apply clear_kept].
    unfold ResetTwoFactor in *. apply clear_fails. destruct (clearTwoFactorLocked ok name "" am) as [[[]|e] am'] eqn:E; [|by exists e].
    destruct Hne. by apply (en_reset _ _ ok).
Qed.

Lemma restart_kept name c am : disk am = Some c -> kept name am (restarted c am).
Proof.
  intros Hd secret s [_ (c' & Hc & Hp)]. assert (c' = c) as -> by congruence.
  unfold restarted, loadOrCreateConfig. cbn [l_Users l_Port l_Username l_PasswordHash].
  destruct (Users c) as [|u us] eqn:E; [by destruct Hp as (? & ? & _)|].
  split; [exact Hp|]. exists c. by rewrite E.
Qed.

Lemma later_kept name am am' : rtc (next name) am am' -> kept name am am'.
Proof.
  induction 1 as [am|am am1 am2 Hst _ IH]; [done|]. etrans; [|exact IH].
  destruct Hst as [am1 Hst Hne|c Hd]; [by apply step_kept|by apply restart_kept].
Qed.

Lemma consume_disk ok now name code am used am' :
  consumeSecondFactorLocked ok now name code am = (Ok used, am') -> disk am' = Some (config am').
Proof.
  unfold consumeSecondFactorLocked. destruct (GetUser am name) as [u|]; [|done].
  destruct (negb _); [done|]. unfold save_or_restore.
  destruct (verifyTOTP _ _ _ _); [|destruct (remove_code _ _); [|done]];
    destruct ok; try done; by intros [= _ <-].
Qed.

Definition code_of (secret code : string) (s : Z) : Prop :=
  TOTPCode secret s = Some (replace_byte (trim_space code) " " "").

(** ** The property *)

(** C30: no code of a time step is accepted twice: after a code was accepted, whatever
    other requests run, whichever writes fail and however often the dashboard is
    restarted, a code that is accepted for the account is one of a later time step,
    until the account is deleted or its second factor is switched off. *)
Theorem totp_no_replay name ok now code am am1 am2 ok' now' code' am3 :
  consumeSecondFactorLocked ok now name code am = (Ok false, am1) ->
  rtc (next name) am1 am2 ->
  consumeSecondFactorLocked ok' now' name code' am2 = (Ok false, am3) ->
  exists secret s s', s < s' /\ code_of secret code s /\ code_of secret code' s' /\
    Z.abs (s - Z.quot (unix now) 30) <= 1 /\ Z.abs (s' - Z.quot (unix now') 30) <= 1 /\
    held name secret s am1 /\ held name secret s' am3.
Proof.
  intros H1 Hr H2. pose proof (consume_disk _ _ _ _ _ _ _ H1) as Hd1. pose proof (consume_disk _ _ _ _ _ _ _ H2) as Hd3.
  apply consume_spec in H1 as (u & Hu & Ht & _ & _ & _ & Hc).
  destruct Hc as [(_ & s & Hin & Hl & Hcode & Hu1)|(? & _)]; [|done].
  assert (Hh : forall x st (am0 : AuthManager), GetUser am0 name = Some (set_step st x) ->
      disk am0 = Some (config am0) -> u_TOTPEnabled x = true -> held name (u_TOTPSecret x) st am0).
  { intros x st am0 Hx Hd He. assert (Hp : past name (u_TOTPSecret x) st (users am0))
      by (exists (set_step st x); split_and!; done || simpl; lia).
    split; [done|]. by exists (config am0). }
  pose proof (Hh _ _ _ Hu1 Hd1 Ht) as Hheld.
  destruct (later_kept _ _ _ Hr _ _ Hheld) as [(v & Hv & _ & Hsec & Hs) _].
  apply consume_spec in H2 as (w & Hw & Htw & _ & _ & _ & Hc).
  destruct Hc as [(_ & s' & Hin' & Hl' & Hcode' & Hu3)|(? & _)]; [|done].
  unfold GetUser in Hw. assert (w = v) as -> by congruence.
  exists (u_TOTPSecret u), s, s'. unfold code_of. simpl in Hin, Hin'.
  split_and!; [lia|done|congruence|lia|lia|done|]. rewrite <- Hsec. by apply Hh.
Qed.
Lemma totp_no_replay_witness :
  exists secret s s', s < s' /\ code_of secret "287082" s /\ code_of secret "359152" s'.
Proof.
  pose (am1 := snd (consumeSecondFactorLocked true (59 * ns_second) "anna" "287082" demo_am)).
  pose (am2 := restarted (config am1) am1).
  destruct (totp_no_replay "anna" true (59 * ns_second) "287082" demo_am am1 am2 true (60 * ns_second) "359152"
    (snd (consumeSecondFactorLocked true (60 * ns_second) "anna" "359152" am2)))
    as (secret & s & s' & H1 & H2 & H3 & _).
  - vm_compute. reflexivity.
  - apply rtc_once, nx_restart. vm_compute. reflexivity.
  - vm_compute. reflexivity.
  - exists secret, s, s'. split; [exact H1|]. split; [exact H2|exact H3].
Defined.

(** The same code right after it was accepted, with a restart in between. *)
Example code_refused_again :
  let am1 := snd (consumeSecondFactorLocked true (59 * ns_second) "anna" "287082" demo_am) in
  map (fun am => fst (consumeSecondFactorLocked true (60 * ns_second) "anna" "287082" am))
    [demo_am; am1; restarted (config am1) am1] = [Ok false; Err ErrInvalidCode; Err ErrInvalidCode].
Proof. by vm_compute. Qed.
