(* ===== verification/Version.v ===== *)
(** * Versions, releases and the self-update (backend/selfupdate.go,
    backend/releasenotes.go, backend/agent_update.go, backend/agent_access.go)

    Which version is newer, which release notes are shown, which node may be
    updated, and the installation of a release.  What GitHub answers, the file
    system and the Ed25519 check are inputs; the checks and their order are the
    code's. *)

From Stdlib Require Import ZArith Lia Bool String Ascii List.
From stdpp Require Import base gmap strings list.
From S2P Require Import Prelude GoStrings Text Crypto Cfg Passwords.

(** ** Versions *)

(** A number of one to four digits. *)
Definition tag_number (s : string) : bool := (1 <=? slen s) && (slen s <=? 4) && sall is_digit s.
(** The pattern of a stable tag: [v] and three such numbers. *)
Definition IsStableReleaseTag (tag : string) : bool :=
  match cut_prefix tag "v" with
  | Some r => match split "." r with [a; b; c] => tag_number a && tag_number b && tag_number c | _ => false end
  | None => false
  end.

Definition version : Type := Z * Z * Z.

Definition version_part (p : string) : option Z :=
  match atoi p with Some n => if n <? 0 then None else Some n | None => None end.

Definition ParseVersion (v : string) : option version :=
  match split "." (trim_prefix (trim_space v) "v") with
  | [a; b; c] =>
      match version_part a, version_part b, version_part c with
      | Some x, Some y, Some z => Some (x, y, z)
      | _, _, _ => None
      end
  | _ => None
  end.

(** The comparison loop of [IsNewerVersion]. *)
Definition version_gtb (l c : version) : bool :=
  let '(l0, l1, l2) := l in
  let '(c0, c1, c2) := c in
  if negb (l0 =? c0) then l0 >? c0
  else if negb (l1 =? c1) then l1 >? c1
  else if negb (l2 =? c2) then l2 >? c2
  else false.

Definition IsNewerVersion (latest current : string) : bool :=
  match ParseVersion latest with
  | None => false
  | Some l => match ParseVersion current with None => true | Some c => version_gtb l c end
  end.

Definition IsDevelopmentBuild (version : string) : bool := has_prefix version "dev-".

Definition AgentVersionsCompatible (controller agent : string) : bool :=
  match ParseVersion controller, ParseVersion agent with
  | Some (c0, c1, _), Some (a0, a1, _) => (c0 =? a0) && (c1 =? a1)
  | _, _ => negb (String.eqb (trim_space controller) "") && String.eqb controller agent
  end.

(** ** Release notes *)

Definition maxReleaseNotes : Z := 16 * 1024.

Record ReleaseNotes := mkNotes { rn_Version : string; rn_Body : string }.

(** A release as GitHub's API describes it. *)
Record api_release := mkApiRelease {
  TagName : string; Draft : bool; Prerelease : bool; HTMLURL : string; ApiBody : string;
  ApiAssets : list (string * string)
}.

Definition cut_notes (body : string) : string :=
  if maxReleaseNotes <? slen body then to_valid_utf8 (stake (Z.to_nat maxReleaseNotes) body) else body.

(** The notes [ReleaseNotes] keeps of an answer. *)
Definition notes_of (releases : list api_release) : list ReleaseNotes :=
  omap (fun r => if Draft r || Prerelease r || negb (IsStableReleaseTag (TagName r))
                    || String.eqb (trim_space (ApiBody r)) ""
                 then None else Some (mkNotes (TagName r) (cut_notes (ApiBody r)))) releases.

Definition UnseenReleaseNotes (all : list ReleaseNotes) (seen current : string) : list ReleaseNotes :=
  match ParseVersion current with
  | None => []
  | Some _ =>
      let seen := match ParseVersion seen with Some _ => seen | None => "" end in
      List.filter (fun n =>
        if IsNewerVersion (rn_Version n) current then false
        else if String.eqb seen "" then negb (IsNewerVersion current (rn_Version n))
        else IsNewerVersion (rn_Version n) seen) all
  end.

(** ** Updating nodes *)

Record Hello := mkHello { h_Version : string; h_SelfUpdate : bool; h_AllowSelfUpdate : bool; h_Mode : string }.
Inductive update_reason :=
| NodeUpdateCurrent | NodeUpdateOffline | NodeUpdateDashboardDev | NodeUpdateNewer
| NodeUpdateNoSelfUpdate | NodeUpdateDisabled | NodeUpdateUnknown.

(** The target of a possible update, or the reason why there is none. *)
Definition NodeUpdateInfo (controllerVersion : string) (online : bool) (hello : option Hello)
    : result update_reason string :=
  let target := "v" +:+ controllerVersion in
  match hello with
  | None => Err NodeUpdateOffline
  | Some h =>
      check online else NodeUpdateOffline ;;
      check (IsStableReleaseTag target) else NodeUpdateDashboardDev ;;
      check (negb (String.eqb (h_Version h) controllerVersion)) else NodeUpdateCurrent ;;
      check (match ParseVersion (h_Version h) with Some _ => true | None => String.eqb (h_Version h) "dev" end)
        else NodeUpdateUnknown ;;
      check (negb (IsNewerVersion (h_Version h) controllerVersion)) else NodeUpdateNewer ;;
      check (h_SelfUpdate h) else NodeUpdateNoSelfUpdate ;;
      check (h_AllowSelfUpdate h) else NodeUpdateDisabled ;;
      Ok target
  end.

(** ** Checking for and installing a release *)

Definition maxBinarySize : Z := 200 * 2 ^ 20.
Definition maxChecksumsSize : Z := 64 * 2 ^ 10.

Record ReleaseInfo := mkRelease { Tag : string; URL : string; Notes : string; Assets : gmap string string }.

Record UpdateStatus := mkStatus {
  us_Current : string; us_Latest : string; us_Available : bool; us_URL : string; us_Notes : string;
  us_Error : bool; us_Enabled : bool; us_DevBuild : bool
}.

Inductive install_error :=
| EDisabled | EBadTag | EQuery | ENotStable | ENotLatest | EUpToDate | EBranch | ENoBinary | EDownload
| EPublicKey | ESignature | ESignatureMismatch | EMalformedChecksum | ENoChecksum | EFileSystem
| EChecksumMismatch | ESmokeTest.

(** What the code asks of the outside: the answers of GitHub ([None] is an error),
    the bytes behind a URL, Ed25519, the version the new binary reports, and
    whether each file system call succeeds. *)
Record world := mkWorld {
  latest_answer : option api_release;
  compare_answer : string -> option (string * Z);     (* status, ahead_by *)
  fetch : string -> option (list Z);
  ed25519_Verify : list Z -> list Z -> list Z -> bool;
  reported_version : list Z -> option string;
  fs_EvalSymlinks : bool; fs_CreateTemp : bool; fs_Close : bool; fs_Chmod : bool;
  fs_RenameOld : bool; fs_RenameNew : bool; fs_RenameBack : bool
}.

Record Updater := mkUpdater { PublicKey : string; CurrentVersion : string; arch : string }.
Definition AssetName (u : Updater) : string := "lgsm-dashboard-linux-" +:+ arch u.

Definition Latest (w : world) : result install_error ReleaseInfo :=
  match latest_answer w with
  | None => Err EQuery
  | Some r =>
      check (negb (Draft r || Prerelease r || negb (IsStableReleaseTag (TagName r)))) else ENotStable ;;
      Ok (mkRelease (TagName r) (HTMLURL r) (cut_notes (ApiBody r))
            (fold_left (fun m a => <[fst a := snd a]> m) (ApiAssets r) ∅))
  end.

Definition VerifyOnReleaseBranch (w : world) (tag : string) : bool :=
  match compare_answer w tag with
  | None => false
  | Some (status, ahead) => (String.eqb status "behind" || String.eqb status "identical") && (ahead =? 0)
  end.

Definition asset (rel : ReleaseInfo) (name : string) : string := default "" (Assets rel !! name).

Definition checkInstallable (w : world) (u : Updater) (rel : ReleaseInfo) : option install_error :=
  if existsb (fun name => String.eqb (asset rel name) "") [AssetName u; "SHA256SUMS"; "SHA256SUMS.sig"]
  then Some ENoBinary
  else if VerifyOnReleaseBranch w (Tag rel) then None else Some EBranch.

(** [status] is the cached status of the last check. *)
Definition Check_ (w : world) (u : Updater) (status : UpdateStatus) : UpdateStatus :=
  let dev := IsDevelopmentBuild (CurrentVersion u) in
  let enabled := negb (String.eqb (PublicKey u) "") in
  let failed :=
    if negb (String.eqb (us_Latest status) "")
    then mkStatus (CurrentVersion u) (us_Latest status) (us_Available status) (us_URL status) (us_Notes status)
           true enabled dev
    else mkStatus (CurrentVersion u) "" false "" "" true enabled dev in
  match Latest w with
  | Err _ => failed
  | Ok rel =>
      match checkInstallable w u rel with
      | Some _ => failed
      | None => mkStatus (CurrentVersion u) (Tag rel) (IsNewerVersion (Tag rel) (CurrentVersion u) && negb dev)
                  (URL rel) (Notes rel) false enabled dev
      end
  end.

Definition download (w : world) (url : string) (limit : Z) : option (list Z) :=
  if negb (has_prefix url "https://") then None else
  match fetch w url with
  | Some b => if Z.of_nat (length b) >? limit then None else Some b
  | None => None
  end.

Definition VerifyChecksumsSignature (w : world) (publicKeyB64 : string) (sums sigB64 : list Z)
    : option install_error :=
  match base64_std_decode (trim_space publicKeyB64) with
  | None => Some EPublicKey
  | Some pub =>
      if negb (length pub =? 32)%nat then Some EPublicKey else
      match base64_std_decode (trim_space (of_octets sigB64)) with
      | None => Some ESignature
      | Some sig =>
          if negb (length sig =? 64)%nat then Some ESignature
          else if negb (ed25519_Verify w pub sums sig) then Some ESignatureMismatch
          else None
      end
  end.

Fixpoint find_checksum (lines : list string) (name : string) : result install_error string :=
  match lines with
  | [] => Err ENoChecksum
  | line :: r =>
      match fields line with
      | [sum; file] =>
          if String.eqb (trim_prefix file "*") name then
            if negb (hex_decodes sum) || negb (slen sum =? 64) then Err EMalformedChecksum
            else Ok (of_bytes (map lower_ascii (to_bytes sum)))
          else find_checksum r name
      | _ => find_checksum r name
      end
  end.
Definition ChecksumFor (sums : list Z) (name : string) : result install_error string :=
  find_checksum (split lf (of_octets sums)) name.

Definition smoke_test (w : world) (bin : list Z) (wantVersion : string) : bool :=
  match reported_version w bin with
  | None => false
  | Some out => String.eqb (trim_space out) wantVersion
  end.

(** The binary in place and the one kept as [execPath.old]. *)
Record binaries := mkBinaries { running : option (list Z); old : option (list Z) }.

(** The last steps of [Install]: move the running binary aside and the new one in. *)
Definition swap_binaries (w : world) (bin : list Z) (fs : binaries) : result install_error unit * binaries :=
  if negb (fs_RenameOld w) then (Err EFileSystem, mkBinaries (running fs) None)
  else if negb (fs_RenameNew w) then
    (Err EFileSystem, if fs_RenameBack w then mkBinaries (running fs) None else mkBinaries None (running fs))
  else (Ok tt, mkBinaries (Some bin) (running fs)).

(** Everything [Install] checks before it touches the installed binary. *)
Definition fetch_verified (w : world) (u : Updater) (tag : string) : result install_error (list Z) :=
  check (negb (String.eqb (PublicKey u) "")) else EDisabled ;;
  check (IsStableReleaseTag tag) else EBadTag ;;
  let? rel := Latest w in
  check (String.eqb (Tag rel) tag) else ENotLatest ;;
  check (IsNewerVersion (Tag rel) (CurrentVersion u)) else EUpToDate ;;
  check (VerifyOnReleaseBranch w tag) else EBranch ;;
  let binURL := asset rel (AssetName u) in
  let sumsURL := asset rel "SHA256SUMS" in
  let sigURL := asset rel "SHA256SUMS.sig" in
  check (negb (String.eqb binURL "" || String.eqb sumsURL "" || String.eqb sigURL "")) else ENoBinary ;;
  match download w sumsURL maxChecksumsSize, download w sigURL 4096 with
  | Some sums, Some sig =>
      match VerifyChecksumsSignature w (PublicKey u) sums sig with
      | Some e => Err e
      | None =>
          let? want := ChecksumFor sums (AssetName u) in
          check (fs_EvalSymlinks w && fs_CreateTemp w) else EFileSystem ;;
          match download w binURL maxBinarySize with
          | None => Err EDownload
          | Some bin =>
              check (fs_Close w) else EFileSystem ;;
              check (String.eqb (hex_encode (sha256 bin)) want) else EChecksumMismatch ;;
              check (fs_Chmod w) else EFileSystem ;;
              check (smoke_test w bin (trim_prefix tag "v")) else ESmokeTest ;;
              Ok bin
          end
      end
  | _, _ => Err EDownload
  end.

Definition Install (w : world) (u : Updater) (tag : string) (fs : binaries)
    : result install_error unit * binaries :=
  match fetch_verified w u tag with
  | Err e => (Err e, fs)
  | Ok bin => swap_binaries w bin fs
  end.

(** ** Lemmas *)

Lemma version_gtb_irrefl v : version_gtb v v = false.
Proof. destruct v as [[a b] c]. unfold version_gtb. by rewrite !Z.eqb_refl. Qed.

Lemma version_gtb_trans a b c : version_gtb a b = true -> version_gtb b c = true -> version_gtb a c = true.
Proof.
  destruct a as [[a0 a1] a2], b as [[b0 b1] b2], c as [[c0 c1] c2]. unfold version_gtb.
  destruct (Z.eqb_spec a0 b0), (Z.eqb_spec b0 c0), (Z.eqb_spec a0 c0),
    (Z.eqb_spec a1 b1), (Z.eqb_spec b1 c1), (Z.eqb_spec a1 c1),
    (Z.eqb_spec a2 b2), (Z.eqb_spec b2 c2), (Z.eqb_spec a2 c2); simpl; lia.
Qed.

Lemma version_gtb_total a b : version_gtb a b = false -> version_gtb b a = false -> a = b.
Proof.
  destruct a as [[a0 a1] a2], b as [[b0 b1] b2]. unfold version_gtb.
  rewrite (Z.eqb_sym b0), (Z.eqb_sym b1), (Z.eqb_sym b2).
  destruct (Z.eqb_spec a0 b0), (Z.eqb_spec a1 b1), (Z.eqb_spec a2 b2); simpl; intros; subst; (done || lia).
Qed.

Lemma newer_parsed a b va vb :
  ParseVersion a = Some va -> ParseVersion b = Some vb -> IsNewerVersion a b = version_gtb va vb.
Proof. unfold IsNewerVersion. by intros -> ->. Qed.

Lemma version_part_itoa n : 0 <= n <= int64_max -> version_part (itoa n) = Some n.
Proof. intros Hn. unfold version_part. rewrite atoi_itoa by done. by replace (n <? 0) with false by lia. Qed.

(** How the program prints a version. *)
Definition show_version (v : version) : string :=
  let '(a, b, c) := v in join "." [itoa a; itoa b; itoa c].
Definition version_ok (v : version) : Prop :=
  let '(a, b, c) := v in 0 <= a <= int64_max /\ 0 <= b <= int64_max /\ 0 <= c <= int64_max.

Lemma show_version_plain v : version_ok v -> exists d e r, is_digit d = true /\ is_digit e = true /\
  (show_version v = of_bytes (d :: r ++ [e])%list).
Proof.
  destruct v as [[a b] c]. intros (Ha & Hb & Hc). unfold show_version. rewrite !join_cons, join_one.
  destruct (itoa_digits a Ha) as (da & Ea & Fa & _ & Na). destruct (itoa_digits c Hc) as (dc & Ec & Fc & _ & Nc).
  destruct da as [|d da]; [done|]. destruct dc as [|x dc] using rev_ind; [done|]. clear IHdc.
  exists d, x, (da ++ to_bytes ("." +:+ itoa b +:+ ".") ++ dc)%list.
  simpl in Fa. rewrite forallb_app in Fc. simpl in Fc. to_prop. split_and!; [done..|].
  apply to_bytes_inj. rewrite to_of_bytes, !to_bytes_app, Ea, Ec.
  cbn [app]. by rewrite <- !app_assoc.
Qed.

Lemma digits_no_dot n : 0 <= n <= int64_max -> contains_byte (itoa n) "." = false.
Proof.
  intros Hn. apply contains_byte_false. intros Hin.
  pose proof (itoa_sall is_digit n Hn (fun c H => H)) as Hd. rewrite sall_forall in Hd. by specialize (Hd _ Hin).
Qed.

Lemma digit_not_v d : is_digit d = true -> Ascii.eqb "v" d = false.
Proof. intros H. apply Ascii.eqb_neq. intros <-. done. Qed.

Lemma parse_show_version v : version_ok v -> ParseVersion (show_version v) = Some v.
Proof.
  intros Hv. destruct (show_version_plain v Hv) as (d & e & r & Hd & He & Hs).
  assert (Ht : trim_space (show_version v) = show_version v).
  { rewrite Hs. unfold trim_space. rewrite to_of_bytes, trim_space_plain by auto with gostr. done. }
  assert (Hp : trim_prefix (show_version v) "v" = show_version v).
  { unfold trim_prefix, has_prefix. rewrite Hs, to_of_bytes. change (to_bytes "v") with ["v"%char]. cbn [lprefix]. by rewrite digit_not_v. }
  unfold ParseVersion. rewrite Ht, Hp. destruct v as [[a b] c]. destruct Hv as (Ha & Hb & Hc).
  unfold show_version. change "."%string with (byte_str "."). rewrite split_join; [|done|].
  - by rewrite !version_part_itoa.
  - repeat constructor; by apply digits_no_dot.
Qed.

Lemma checksum_shape lines name want :
  find_checksum lines name = Ok want ->
  exists line sum file, In line lines /\ fields line = [sum; file] /\ trim_prefix file "*" = name /\
    want = of_bytes (map lower_ascii (to_bytes sum)).
Proof.
  induction lines as [|line r IH]; simpl; [done|]. intros H.
  assert (Hr : find_checksum r name = Ok want -> exists line0 sum file, (line = line0 \/ In line0 r) /\
    fields line0 = [sum; file] /\ trim_prefix file "*" = name /\ want = of_bytes (map lower_ascii (to_bytes sum))).
  { intros (l & s & f & ? & ? & ? & ?)%IH. exists l, s, f. auto. }
  destruct (fields line) as [|sum [|file [|]]] eqn:E; auto.
  destruct (String.eqb_spec (trim_prefix file "*") name) as [Hn|]; [|auto].
  destruct (_ || _); [done|]. injection H as <-. exists line, sum, file. auto.
Qed.

Lemma fetch_verified_spec w u tag bin :
  fetch_verified w u tag = Ok bin ->
  exists rel sums sig, Latest w = Ok rel /\ Tag rel = tag /\ IsStableReleaseTag tag = true /\
    IsNewerVersion tag (CurrentVersion u) = true /\ VerifyOnReleaseBranch w tag = true /\
    download w (asset rel "SHA256SUMS") maxChecksumsSize = Some sums /\
    download w (asset rel "SHA256SUMS.sig") 4096 = Some sig /\
    VerifyChecksumsSignature w (PublicKey u) sums sig = None /\ PublicKey u <> "" /\
    ChecksumFor sums (AssetName u) = Ok (hex_encode (sha256 bin)) /\
    download w (asset rel (AssetName u)) maxBinarySize = Some bin /\
    smoke_test w bin (trim_prefix tag "v") = true.
Proof.
  unfold fetch_verified. destruct (String.eqb_spec (PublicKey u) ""); simpl; [done|].
  destruct (IsStableReleaseTag tag) eqn:Et; [|done]. destruct (Latest w) as [rel|] eqn:El; [|done].
  destruct (String.eqb_spec (Tag rel) tag) as [Ht|]; [|done]. rewrite Ht.
  destruct (IsNewerVersion tag _) eqn:En; [|done]. destruct (VerifyOnReleaseBranch w tag) eqn:Eb; [|done].
  destruct (negb _); [|done]. destruct (download w (asset rel "SHA256SUMS") _) as [sums|] eqn:Es; [|done].
  destruct (download w (asset rel "SHA256SUMS.sig") _) as [sig|] eqn:Eg; [|done].
  destruct (VerifyChecksumsSignature _ _ _ _) eqn:Ev; [done|].
  destruct (ChecksumFor sums (AssetName u)) as [want|] eqn:Ec; [|done].
  destruct (_ && _); [|done]. destruct (download w (asset rel (AssetName u)) _) as [b|] eqn:Eo; [|done].
  destruct (fs_Close w); [|done]. destruct (String.eqb_spec (hex_encode (sha256 b)) want) as [Hc|]; [|done].
  destruct (fs_Chmod w); [|done]. destruct (smoke_test _ _ _) eqn:Esm; [|done].
  intros [= <-]. exists rel, sums, sig. rewrite Hc. by split_and!.
Qed.

(** * Properties *)

(** C24: the installed binary is replaced only by one that is the latest stable
    release, newer than the running one and built from the release branch, whose
    SHA-256 is listed in a checksum file signed with the embedded key, and which
    reports the version it should; otherwise it stays as it is. *)
Theorem install_only_verified w u tag fs :
  let '(r, fs') := Install w u tag fs in
  (r = Ok tt /\ exists bin rel sums sig, running fs' = Some bin /\ old fs' = running fs /\
     Latest w = Ok rel /\ Tag rel = tag /\ IsNewerVersion tag (CurrentVersion u) = true /\
     VerifyOnReleaseBranch w tag = true /\
     download w (asset rel "SHA256SUMS") maxChecksumsSize = Some sums /\
     download w (asset rel "SHA256SUMS.sig") 4096 = Some sig /\
     PublicKey u <> "" /\ VerifyChecksumsSignature w (PublicKey u) sums sig = None /\
     ChecksumFor sums (AssetName u) = Ok (hex_encode (sha256 bin)) /\
     smoke_test w bin (trim_prefix tag "v") = true)
  \/ (is_ok r = false /\ (running fs' = running fs \/ fs_RenameBack w = false)).
Proof.
  unfold Install. destruct (fetch_verified w u tag) as [bin|e] eqn:E; [|right; auto].
  apply fetch_verified_spec in E
    as (rel & sums & sig & H1 & H2 & _ & H3 & H4 & H5 & H6 & H7 & H8 & H9 & _ & H10).
  unfold swap_binaries. destruct (fs_RenameOld w); simpl; [|right; auto].
  destruct (fs_RenameNew w); simpl.
  - left. split; [done|]. exists bin, rel, sums, sig. by split_and!.
  - right. split; [done|]. destruct (fs_RenameBack w); auto.
Qed.

(** "newer" is a strict total order on the versions a release can have, the
    lexicographic one on the numbers read back from the printed version, and a
    build without a version is older than every release. *)
Theorem newer_version_order va vb vc :
  version_ok va -> version_ok vb -> version_ok vc ->
  let newer x y := IsNewerVersion (show_version x) (show_version y) in
  newer va va = false /\
  (newer va vb = true -> newer vb vc = true -> newer va vc = true) /\
  (newer va vb = false -> newer vb va = false -> va = vb) /\
  IsNewerVersion (show_version va) "dev" = true /\ IsNewerVersion "dev" (show_version va) = false.
Proof.
  intros Ha Hb Hc newer.
  assert (Hn : forall x y, version_ok x -> version_ok y -> newer x y = version_gtb x y)
    by (intros x y Hx Hy; apply newer_parsed; by apply parse_show_version).
  rewrite !Hn by done. split_and!.
  - apply version_gtb_irrefl.
  - apply version_gtb_trans.
  - apply version_gtb_total.
  - unfold IsNewerVersion. by rewrite parse_show_version.
  - done.
Qed.
Lemma newer_version_order_witness :
  IsNewerVersion (show_version (1, 10, 0)) (show_version (1, 9, 12)) = true ->
  IsNewerVersion (show_version (1, 9, 12)) (show_version (1, 9, 3)) = true ->
  IsNewerVersion (show_version (1, 10, 0)) (show_version (1, 9, 3)) = true.
Proof.
  refine (proj1 (proj2 (newer_version_order (1, 10, 0) (1, 9, 12) (1, 9, 3) _ _ _)));
    unfold version_ok, int64_max; lia.
Defined.

(** every release note is shown exactly once: after an administrator has seen
    the notes up to one version, a later update shows those of the versions after
    it, and the two lists together are what one update would have shown. *)
Theorem release_notes_shown_once all seen cur1 cur2 v0 v1 v2 :
  ParseVersion seen = Some v0 -> ParseVersion cur1 = Some v1 -> ParseVersion cur2 = Some v2 ->
  version_gtb v0 v1 = false -> version_gtb v1 v2 = false ->
  forall n, In n (UnseenReleaseNotes all seen cur2) <->
    (In n (UnseenReleaseNotes all seen cur1) \/ In n (UnseenReleaseNotes all cur1 cur2)) /\
    ~ (In n (UnseenReleaseNotes all seen cur1) /\ In n (UnseenReleaseNotes all cur1 cur2)).
Proof.
  intros H0 H1 H2 H01 H12 n.
  assert (Hne : forall s v, ParseVersion s = Some v -> String.eqb s "" = false)
    by (intros s v Hs; apply String.eqb_neq; intros ->; by vm_compute in Hs).
  assert (Hin : forall s c vs vc, ParseVersion s = Some vs -> ParseVersion c = Some vc ->
    In n (UnseenReleaseNotes all s c) <->
    In n all /\ exists v, ParseVersion (rn_Version n) = Some v /\ version_gtb v vc = false /\ version_gtb v vs = true).
  { intros s c vs vc Hs Hc. unfold UnseenReleaseNotes. rewrite Hc, Hs, filter_In, (Hne _ _ Hs).
    unfold IsNewerVersion. rewrite Hc, Hs. destruct (ParseVersion (rn_Version n)) as [v|].
    - split.
      + intros [Ha Hf]. split; [done|]. exists v. by destruct (version_gtb v vc).
      + intros [Ha (v' & [= <-] & -> & ->)]. done.
    - split; [by intros [_ ?]|]. by intros [_ (v' & ? & _)]. }
  rewrite (Hin seen cur2 v0 v2), (Hin seen cur1 v0 v1), (Hin cur1 cur2 v1 v2) by done.
  split.
  - intros [Ha (v & Hv & Hle & Hgt)]. destruct (version_gtb v v1) eqn:E.
    + split; [right; eauto|]. intros [(_ & v' & Hv' & Hf & _) _]. congruence.
    + split; [left; eauto|]. intros [_ (_ & v' & Hv' & _ & Ht)]. congruence.
  - intros [[[Ha (v & Hv & Hle & Hgt)]|[Ha (v & Hv & Hle & Hgt)]] _]; split; try done; exists v; split_and!; try done.
    + destruct (version_gtb v v2) eqn:E; [|done]. exfalso.
      destruct (version_gtb v2 v1) eqn:E2; [by rewrite (version_gtb_trans _ _ _ E E2) in Hle|].
      rewrite (version_gtb_total _ _ H12 E2) in Hle. congruence.
    + destruct (version_gtb v1 v0) eqn:E; [by apply (version_gtb_trans _ _ _ Hgt)|].
      by rewrite (version_gtb_total _ _ H01 E).
Qed.
Definition demo_notes : list ReleaseNotes :=
  [mkNotes "v1.3.0" "c"; mkNotes "v1.2.0" "b"; mkNotes "v1.1.0" "a"].
Lemma release_notes_shown_once_witness :
  ~ In (mkNotes "v1.2.0" "b") (UnseenReleaseNotes demo_notes "v1.2.0" "v1.3.0").
Proof.
  pose proof (release_notes_shown_once demo_notes "v1.1.0" "v1.2.0" "v1.3.0" (1, 1, 0) (1, 2, 0) (1, 3, 0)
    eq_refl eq_refl eq_refl eq_refl eq_refl (mkNotes "v1.2.0" "b")) as [H _].
  intros Hin. apply (proj2 (H ltac:(vm_compute; auto))). split; [vm_compute; auto|exact Hin].
Defined.

(** the dashboard offers to update a node only to its own release version,
    only when the node is online, not newer, able to update itself and allows it;
    whatever version the node reports. *)
Theorem node_update_only_forward ctl online h target :
  NodeUpdateInfo ctl online (Some h) = Ok target ->
  online = true /\ target = "v" +:+ ctl /\ IsStableReleaseTag target = true /\ h_Version h <> ctl /\
  IsNewerVersion (h_Version h) ctl = false /\ h_SelfUpdate h = true /\ h_AllowSelfUpdate h = true.
Proof.
  unfold NodeUpdateInfo. destruct online; [|done]. destruct (IsStableReleaseTag _) eqn:E; [|done].
  destruct (String.eqb_spec (h_Version h) ctl); simpl; [done|].
  destruct (match ParseVersion (h_Version h) with Some _ => true | None => _ end); [|done].
  destruct (IsNewerVersion _ _) eqn:En; simpl; [done|]. destruct (h_SelfUpdate h); [|done].
  destruct (h_AllowSelfUpdate h); [|done]. intros [= <-]. by split_and!.
Qed.
Lemma node_update_only_forward_witness :
  IsNewerVersion "1.2.0" "1.3.0" = false.
Proof.
  exact (proj1 (proj2 (proj2 (proj2 (proj2
    (node_update_only_forward "1.3.0" true (mkHello "1.2.0" true true "read-write") "v1.3.0" eq_refl)))))).
Defined.
