(* ===== verification/WebSocket.v ===== *)
(** * WebSocket transport and Docker streams (backend/agent_ws.go, backend/docker_exec.go)

    The tunnel to a node runs over WebSocket frames, and the frames of the server
    side are parsed before anyone is authenticated.  This file models the frame
    writer and the reader of [wsConn], and the demultiplexer of the output of
    commands in a container.  It proves that what one side writes is what the other
    side reads, that the reader ends on every input and holds no more than a frame
    of a megabyte, and that the demultiplexer gives each stream its bytes. *)

From Stdlib Require Import ZArith Lia Bool String Ascii List.
From stdpp Require Import base strings list.
From S2P Require Import Prelude GoStrings Crypto.

Definition wsMaxFramePayload : Z := 1048576.
Definition wsWriteChunk : Z := 32768.

Definition wsOpContinuation : Z := 0x0.
Definition wsOpText : Z := 0x1.
Definition wsOpBinary : Z := 0x2.
Definition wsOpClose : Z := 0x8.
Definition wsOpPing : Z := 0x9.
Definition wsOpPong : Z := 0xA.

Inductive ws_error :=
| WsEOF
| WsUnexpectedEOF
| WsProtocol (why : string) (** wraps [ErrWebSocketProtocol] *)
| WsRandom (** the random source failed *)
| WsWrite. (** the connection refused a write *)

(** ** State *)

(** The fields [readMu] guards, with the bytes the peer sends until it closes. *)
Record reader := {
  remaining : Z; mask : list Z; masked : bool; maskPos : Z;
  fragmented : bool; readErr : option ws_error; input : list Z }.

(** The fields [writeMu] guards: the writes the connection took, oldest first, and
    how many frames were begun. *)
Record writer := { wout : list (list Z); tries : nat }.

Record wsConn := { client : bool; rd : reader; wr : writer }.

Definition newWSConn (conn : list Z) (isClient : bool) : wsConn :=
  {| client := isClient;
     rd := {| remaining := 0; mask := [0; 0; 0; 0]; masked := false; maskPos := 0;
              fragmented := false; readErr := None; input := conn |};
     wr := {| wout := []; tries := 0 |} |}.

Definition set_rd (c : wsConn) (r : reader) : wsConn := {| client := client c; rd := r; wr := wr c |}.
Definition set_wr (c : wsConn) (w : writer) : wsConn := {| client := client c; rd := rd c; wr := w |}.
Definition set_input (c : wsConn) (s : list Z) : wsConn :=
  set_rd c {| remaining := remaining (rd c); mask := mask (rd c); masked := masked (rd c);
              maskPos := maskPos (rd c); fragmented := fragmented (rd c);
              readErr := readErr (rd c); input := s |}.
Definition set_err (c : wsConn) (e : ws_error) : wsConn :=
  set_rd c {| remaining := remaining (rd c); mask := mask (rd c); masked := masked (rd c);
              maskPos := maskPos (rd c); fragmented := fragmented (rd c);
              readErr := Some e; input := input (rd c) |}.

(** What the outside answers to the n-th frame written: the random mask, and
    whether the connection takes the write. *)
Record answer := { a_mask : option (list Z); a_write : bool }.
Definition environment := nat -> answer.

(** The loops [p[i] ^= mask[pos&3]]. *)
Fixpoint mask_bytes (m : list Z) (pos : Z) (l : list Z) : list Z :=
  match l with
  | [] => []
  | b :: r => Z.lxor b (nth (Z.to_nat (Z.land pos 3)) m 0) :: mask_bytes m (pos + 1) r
  end.

(** ** Writing *)

Definition byte (z : Z) : Z := Z.land z 0xFF.

Definition length_bytes (maskBit n : Z) : list Z :=
  if n <=? 125 then [Z.lor maskBit (byte n)]
  else if n <=? 0xFFFF then [Z.lor maskBit 126; byte (Z.shiftr n 8); byte n]
  else Z.lor maskBit 127 :: be_bytes 8 n.

(** The buffer of [writeFrame], with the mask for a client. *)
Definition frame (m : option (list Z)) (opcode : Z) (payload : list Z) : list Z :=
  let n := Z.of_nat (length payload) in
  match m with
  | Some k => (Z.lor 0x80 opcode :: length_bytes 0x80 n ++ k ++ mask_bytes k 0 payload)%list
  | None => (Z.lor 0x80 opcode :: length_bytes 0 n ++ payload)%list
  end.

Definition writeFrame (env : environment) (isClient : bool) (w : writer) (opcode : Z) (payload : list Z)
  : option ws_error * writer :=
  let a := env (tries w) in
  let send buf := if a_write a then (None, {| wout := (wout w ++ [buf])%list; tries := S (tries w) |})
                  else (Some WsWrite, {| wout := wout w; tries := S (tries w) |}) in
  if isClient then
    match a_mask a with
    | Some k => send (frame (Some k) opcode payload)
    | None => (Some WsRandom, {| wout := wout w; tries := S (tries w) |})
    end
  else send (frame None opcode payload).

(** [Write] with chunks of [size] bytes: the bytes written and the error.  Every round takes at least one byte
    of [p], so [length p] rounds are enough. *)
Fixpoint write_loop (size fuel : nat) (env : environment) (isClient : bool) (w : writer) (p : list Z) (written : Z)
  : Z * option ws_error * writer :=
  match fuel, p with
  | S f, _ :: _ =>
      let chunk := take size p in
      match writeFrame env isClient w wsOpBinary chunk with
      | (Some e, w') => (written, Some e, w')
      | (None, w') => write_loop size f env isClient w' (drop (length chunk) p)
                                 (written + Z.of_nat (length chunk))
      end
  | _, _ => (written, None, w)
  end.
Definition Write (env : environment) (c : wsConn) (p : list Z) : Z * option ws_error * wsConn :=
  let '(n, e, w) := write_loop (Z.to_nat wsWriteChunk) (length p) env (client c) (wr c) p 0 in (n, e, set_wr c w).

(** ** Reading *)

(** A parser of the incoming bytes: what was read and the bytes after it. *)
Definition parser (A : Type) := list Z -> result ws_error A * list Z.
Definition pret {A} (a : A) : parser A := fun s => (Ok a, s).
Definition pfail {A} (e : ws_error) : parser A := fun s => (Err e, s).
Definition pbind {A B} (m : parser A) (k : A -> parser B) : parser B :=
  fun s => match m s with (Ok a, s') => k a s' | (Err e, s') => (Err e, s') end.
Notation "'let!' x := m 'in' k" := (pbind m (fun x => k))
  (at level 10, x pattern, m at level 200, k at level 200) : go_scope.

(** [io.ReadFull] into a buffer of [n] bytes. *)
Definition readFull (n : nat) : parser (list Z) := fun s =>
  if (n <=? length s)%nat then (Ok (take n s), drop n s)
  else (Err (match s with [] => WsEOF | _ => WsUnexpectedEOF end), []).

Record head := { h_fin : bool; h_opcode : Z; h_length : Z; h_masked : bool; h_mask : list Z }.

Definition readHead (isClient : bool) : parser head :=
  let! h := readFull 2 in
  let h0 := nth 0 h 0 in
  let h1 := nth 1 h 0 in
  let fin := negb (Z.land h0 0x80 =? 0) in
  if negb (Z.land h0 0x70 =? 0) then pfail (WsProtocol "reserved bits set") else
  let opcode := Z.land h0 0x0F in
  let masked := negb (Z.land h1 0x80 =? 0) in
  if eqb masked isClient then pfail (WsProtocol "wrong masking") else
  let length := Z.land h1 0x7F in
  let! length :=
    (if length =? 126 then let! ext := readFull 2 in pret (be_value ext)
     else if length =? 127 then
       let! ext := readFull 8 in
       if wsMaxFramePayload <? be_value ext then pfail (WsProtocol "frame too large") else pret (be_value ext)
     else pret length) in
  let! m := (if masked then readFull 4 else pret [0; 0; 0; 0]) in
  pret {| h_fin := fin; h_opcode := opcode; h_length := length; h_masked := masked; h_mask := m |}.

Definition data_frame (c : wsConn) (h : head) : wsConn :=
  set_rd c {| remaining := h_length h; mask := h_mask h; masked := h_masked h; maskPos := 0;
              fragmented := negb (h_fin h); readErr := readErr (rd c); input := input (rd c) |}.

(** The second half of the loop body for a data frame: the error, if any. *)
Definition check_data (c : wsConn) (h : head) : option ws_error :=
  if h_opcode h =? wsOpBinary then
    if fragmented (rd c) then Some (WsProtocol "new message inside fragmented message")
    else if wsMaxFramePayload <? h_length h then Some (WsProtocol "frame too large") else None
  else if h_opcode h =? wsOpContinuation then
    if negb (fragmented (rd c)) then Some (WsProtocol "unexpected continuation frame")
    else if wsMaxFramePayload <? h_length h then Some (WsProtocol "frame too large") else None
  else if h_opcode h =? wsOpText then Some (WsProtocol "text frames are not supported")
  else Some (WsProtocol "unknown opcode").

(** [nextDataFrame], [None] when the fuel runs out.  A round takes at least the two
    bytes of a header. *)
Fixpoint nextDataFrame (fuel : nat) (env : environment) (c : wsConn) : option (option ws_error * wsConn) :=
  match fuel with
  | O => None
  | S f =>
      match readHead (client c) (input (rd c)) with
      | (Err e, s) => Some (Some e, set_input c s)
      | (Ok h, s) =>
          let c := set_input c s in
          if wsOpClose <=? h_opcode h then
            if negb (h_fin h) || (125 <? h_length h)
            then Some (Some (WsProtocol "invalid control frame"), c) else
            match readFull (Z.to_nat (h_length h)) s with
            | (Err e, s') => Some (Some e, set_input c s')
            | (Ok payload, s') =>
                let c := set_input c s' in
                let payload := if h_masked h then mask_bytes (h_mask h) 0 payload else payload in
                if h_opcode h =? wsOpPing then
                  match writeFrame env (client c) (wr c) wsOpPong payload with
                  | (Some e, w) => Some (Some e, set_wr c w)
                  | (None, w) => nextDataFrame f env (set_wr c w)
                  end
                else if h_opcode h =? wsOpPong then nextDataFrame f env c
                else if h_opcode h =? wsOpClose then
                  let '(_, w) := writeFrame env (client c) (wr c) wsOpClose (take 2 payload) in
                  Some (Some WsEOF, set_wr c w)
                else Some (Some (WsProtocol "unknown opcode"), c)
            end
          else
            match check_data c h with
            | Some e => Some (Some e, c)
            | None =>
                let c := data_frame c h in
                if 0 <? h_length h then Some (None, c) else nextDataFrame f env c
            end
      end
  end.

(** The rest of [Read] inside a data frame, with room for [room] bytes, of which
    the buffered reader has at most [ready] at hand ([bufio.Reader] gives at least
    one byte, or the error). *)
Definition read_payload (room ready : nat) (c : wsConn) : list Z * option ws_error * wsConn :=
  let r := rd c in
  let want := Nat.min room (Z.to_nat (remaining r)) in
  match want, input r with
  | S _, [] => ([], Some WsUnexpectedEOF, set_err c WsUnexpectedEOF)
  | _, _ =>
      let got := take (Nat.min want (Nat.max 1 ready)) (input r) in
      let n := Z.of_nat (length got) in
      (if masked r then mask_bytes (mask r) (maskPos r) got else got, None,
       set_rd c {| remaining := remaining r - n; mask := mask r; masked := masked r;
                   maskPos := if masked r then maskPos r + n else maskPos r;
                   fragmented := fragmented r; readErr := readErr r;
                   input := drop (length got) (input r) |})
  end.

(** [Read].  Its loop runs once at most: [nextDataFrame] returns without an error
    only inside a frame with payload ([next_data_frame_inv]). *)
Definition Read (env : environment) (room ready : nat) (c : wsConn)
  : option (list Z * option ws_error * wsConn) :=
  if remaining (rd c) =? 0 then
    match readErr (rd c) with
    | Some e => Some ([], Some e, c)
    | None =>
        match nextDataFrame (S (length (input (rd c)))) env c with
        | None => None
        | Some (Some e, c') => Some ([], Some e, set_err c' e)
        | Some (None, c') => Some (read_payload room ready c')
        end
    end
  else Some (read_payload room ready c).

(** A reader that calls [Read] until it fails, with buffers [sizes i]. *)
Fixpoint drain (fuel : nat) (env : environment) (sizes : nat -> nat * nat) (i : nat) (c : wsConn)
  : option (list Z * ws_error * wsConn) :=
  match fuel with
  | O => None
  | S f =>
      match Read env (fst (sizes i)) (snd (sizes i)) c with
      | Some (d, Some e, c') => Some (d, e, c')
      | Some (d, None, c') =>
          match drain f env sizes (S i) c' with
          | Some (d', e, c'') => Some ((d ++ d')%list, e, c'')
          | None => None
          end
      | None => None
      end
  end.

(** ** Lemmas: bytes and masks *)

Lemma be_bytes_length n v : length (be_bytes n v) = n.
Proof. induction n; simpl; [done|]. by rewrite IHn. Qed.

Lemma be_value_bytes n v : be_value (be_bytes n v) = v mod 256 ^ Z.of_nat n.
Proof.
  induction n as [|n IH]; [by rewrite Z.mod_1_r|]. cbn [be_bytes]. unfold be_value. cbn [fold_left].
  rewrite be_value_acc, IH, be_bytes_length. rewrite Nat2Z.inj_succ, Z.pow_succ_r by lia.
  rewrite (Z.mul_comm 256), Z.rem_mul_r by lia. lia.
Qed.

Lemma mask_length m pos l : length (mask_bytes m pos l) = length l.
Proof. revert pos. induction l; intros; simpl; [done|]. by rewrite IHl. Qed.

Lemma mask_app m pos a b :
  mask_bytes m pos (a ++ b) = (mask_bytes m pos a ++ mask_bytes m (pos + Z.of_nat (length a)) b)%list.
Proof.
  revert pos. induction a as [|x a IH]; intros pos; simpl; [by rewrite Z.add_0_r|].
  rewrite IH. do 3 f_equal. lia.
Qed.

Lemma mask_involutive m pos l : mask_bytes m pos (mask_bytes m pos l) = l.
Proof.
  revert pos. induction l as [|x l IH]; intros pos; simpl; [done|].
  by rewrite IH, Z.lxor_assoc, Z.lxor_nilpotent, Z.lxor_0_r.
Qed.

Lemma byte_mod z : byte z = z mod 256.
Proof. unfold byte. change 0xFF with (Z.ones 8). by rewrite Z.land_ones by lia. Qed.

Lemma readFull_app l s n : n = length l -> readFull n (l ++ s) = (Ok l, s).
Proof.
  intros ->. unfold readFull. rewrite length_app. replace (_ <=? _)%nat with true by (symmetry; apply Nat.leb_le; lia).
  by rewrite take_app_length, drop_app_length.
Qed.

Lemma bind_readFull {A} l s n (k : list Z -> parser A) :
  n = length l -> pbind (readFull n) k (l ++ s) = k l s.
Proof. intros H. unfold pbind. by rewrite (readFull_app l). Qed.

(** ** Lemmas: a written frame is read *)

Definition mask_ok (isClient : bool) (m : option (list Z)) : Prop :=
  match m with Some k => isClient = true /\ length k = 4%nat | None => isClient = false end.

Definition masked_payload (m : option (list Z)) (p : list Z) : list Z :=
  match m with Some k => mask_bytes k 0 p | None => p end.

Definition head_of (m : option (list Z)) (opcode : Z) (p : list Z) : head :=
  {| h_fin := true; h_opcode := opcode; h_length := Z.of_nat (length p);
     h_masked := match m with Some _ => true | None => false end;
     h_mask := match m with Some k => k | None => [0; 0; 0; 0] end |}.

(** The bytes of a frame before the mask: opcode and length. *)
Definition frame_start (mbit : Z) (opcode n : Z) : list Z := Z.lor 0x80 opcode :: length_bytes mbit n.

Lemma frame_eq m opcode p :
  frame m opcode p =
  (frame_start (match m with Some _ => 0x80%Z | None => 0%Z end) opcode (Z.of_nat (length p)) ++
   match m with Some k => k | None => [] end ++ masked_payload m p)%list.
Proof. by destruct m. Qed.

Definition mbit_of (isClient : bool) : Z := if isClient then 0x80 else 0.

Lemma opcode_bits op : 0 <= op < 16 ->
  Z.land (Z.lor 0x80 op) 0x80 = 0x80 /\ Z.land (Z.lor 0x80 op) 0x70 = 0 /\ Z.land (Z.lor 0x80 op) 0x0F = op.
Proof.
  intros H. assert (C : (Z.land (Z.lor 0x80 op) 0x80 =? 0x80) && (Z.land (Z.lor 0x80 op) 0x70 =? 0)
    && (Z.land (Z.lor 0x80 op) 0x0F =? op) = true).
  { by apply (check_range (fun op => (Z.land (Z.lor 0x80 op) 0x80 =? 0x80) && (Z.land (Z.lor 0x80 op) 0x70 =? 0)
    && (Z.land (Z.lor 0x80 op) 0x0F =? op)) 16). }
  to_prop. lia.
Qed.

Lemma length_bits cl v : 0 <= v < 128 ->
  Z.land (Z.lor (mbit_of cl) v) 0x7F = v /\ negb (Z.land (Z.lor (mbit_of cl) v) 0x80 =? 0) = cl.
Proof.
  intros H. assert (C : (Z.land (Z.lor (mbit_of cl) v) 0x7F =? v)
    && eqb (negb (Z.land (Z.lor (mbit_of cl) v) 0x80 =? 0)) cl = true).
  { destruct cl; by apply (check_range (fun v => (Z.land (Z.lor (mbit_of _) v) 0x7F =? v)
      && eqb (negb (Z.land (Z.lor (mbit_of _) v) 0x80 =? 0)) _) 128). }
  apply andb_true_iff in C as [C1%Z.eqb_eq C2%eqb_prop]. done.
Qed.

(** The three forms of the length on the wire. *)
Lemma length_bytes_cases cl n : 0 <= n <= wsMaxFramePayload ->
  exists v ext, length_bytes (mbit_of cl) n = Z.lor (mbit_of cl) v :: ext /\ 0 <= v < 128 /\
    ((v = n /\ v < 126 /\ ext = []) \/
     (v = 126 /\ length ext = 2%nat /\ be_value ext = n) \/
     (v = 127 /\ length ext = 8%nat /\ be_value ext = n)).
Proof.
  unfold wsMaxFramePayload, length_bytes. intros Hn.
  destruct (Z.leb_spec n 125); [|destruct (Z.leb_spec n 0xFFFF)].
  - exists n, []. rewrite byte_mod, Z.mod_small by lia. split_and!; [done|lia..|]. left. split_and!; [done|lia|done].
  - exists 126, [byte (Z.shiftr n 8); byte n]. split_and!; [done|lia..|]. right. left. split_and!; [done..|].
    unfold be_value. simpl. rewrite !byte_mod, Z.shiftr_div_pow2 by lia. change (2 ^ 8) with 256. div_mod.
  - exists 127, (be_bytes 8 n). split_and!; [done|lia..|]. right. right. split_and!; [done|apply be_bytes_length|].
    rewrite be_value_bytes, Z.mod_small; [done|]. simpl. lia.
Qed.

Lemma readHead_frame cl m op p s :
  mask_ok cl m -> 0 <= op < 16 -> Z.of_nat (length p) <= wsMaxFramePayload ->
  readHead (negb cl) (frame m op p ++ s) = (Ok (head_of m op p), (masked_payload m p ++ s)%list).
Proof.
  intros Hm Hop Hp. rewrite frame_eq. unfold frame_start.
  assert (Eb : match m with Some _ => 0x80 | None => 0 end = mbit_of cl).
  { destruct m as [k|]; simpl in Hm; [by destruct Hm as [-> _]|by subst cl]. }
  rewrite Eb. destruct (length_bytes_cases cl (Z.of_nat (length p))) as (v & ext & -> & Hv & Hcase); [lia|].
  destruct (opcode_bits op Hop) as (B1 & B2 & B3). destruct (length_bits cl v Hv) as [B4 B5].
  cbn [app]. unfold readHead.
  change (Z.lor 0x80 op :: Z.lor (mbit_of cl) v :: ?l)%list
    with ([Z.lor 0x80 op; Z.lor (mbit_of cl) v] ++ l)%list.
  rewrite bind_readFull by done. cbn [nth]. rewrite B1, B2, B3, B4, B5, eqb_negb2.
  cbn [negb Z.eqb].
  assert (Hext : forall k : Z -> parser head,
    pbind (if v =? 126 then let! ext := readFull 2 in pret (be_value ext)
           else if v =? 127 then
             let! ext := readFull 8 in
             if wsMaxFramePayload <? be_value ext then pfail (WsProtocol "frame too large") else pret (be_value ext)
           else pret v) k
      ((ext ++ match m with Some k => k | None => [] end ++ masked_payload m p) ++ s) =
    k (Z.of_nat (length p)) ((match m with Some k => k | None => [] end ++ masked_payload m p) ++ s)).
  { intros k. rewrite <- !app_assoc. destruct Hcase as [(-> & H1 & ->)|[(-> & H1 & H2)|(-> & H1 & H2)]].
    - destruct (Z.eqb_spec (Z.of_nat (length p)) 126), (Z.eqb_spec (Z.of_nat (length p)) 127); (lia || done).
    - unfold pbind at 1. cbn [Z.eqb Pos.eqb]. rewrite bind_readFull by done. unfold pret. by rewrite H2.
    - unfold pbind at 1. cbn [Z.eqb Pos.eqb]. rewrite bind_readFull by done. rewrite H2.
      destruct (Z.ltb_spec wsMaxFramePayload (Z.of_nat (length p))); [lia|done]. }
  rewrite Hext. destruct m as [k|]; simpl in Hm.
  - destruct Hm as [-> Hk]. rewrite <- app_assoc. rewrite bind_readFull by done. done.
  - by subst cl.
Qed.

(** ** Lemmas: sending *)

(** What one side hands to [writeFrame]: pieces of data and control frames. *)
Inductive sframe :=
| SBinary (p : list Z)
| SPing (p : list Z)
| SPong (p : list Z).

Definition s_op (f : sframe) : Z :=
  match f with SBinary _ => wsOpBinary | SPing _ => wsOpPing | SPong _ => wsOpPong end.
Definition s_payload (f : sframe) : list Z :=
  match f with SBinary p | SPing p | SPong p => p end.
Definition sendable (f : sframe) : Prop :=
  match f with
  | SBinary p => Z.of_nat (length p) <= wsMaxFramePayload
  | SPing p | SPong p => Z.of_nat (length p) <= 125
  end.
Definition data_of (f : sframe) : list Z := match f with SBinary p => p | _ => [] end.
Definition pongs_of (fs : list sframe) : list sframe :=
  flat_map (fun f => match f with SPing p => [SPong p] | _ => [] end) fs.

Fixpoint send_all (env : environment) (isClient : bool) (w : writer) (fs : list sframe) : option ws_error * writer :=
  match fs with
  | [] => (None, w)
  | f :: r =>
      match writeFrame env isClient w (s_op f) (s_payload f) with
      | (None, w') => send_all env isClient w' r
      | (Some e, w') => (Some e, w')
      end
  end.

(** A connection that takes every write, and a random source that works. *)
Definition env_ok (env : environment) (isClient : bool) : Prop :=
  forall n, a_write (env n) = true /\
            (isClient = true -> exists k, a_mask (env n) = Some k /\ length k = 4%nat).

Definition mask_at (env : environment) (isClient : bool) (n : nat) : option (list Z) :=
  if isClient then a_mask (env n) else None.

Lemma writeFrame_ok env cl w op p : env_ok env cl ->
  writeFrame env cl w op p =
    (None, {| wout := (wout w ++ [frame (mask_at env cl (tries w)) op p])%list; tries := S (tries w) |}) /\
  mask_ok cl (mask_at env cl (tries w)).
Proof.
  intros H. destruct (H (tries w)) as [Hw Hm]. unfold writeFrame, mask_at. rewrite Hw. destruct cl; [|done].
  destruct Hm as (k & -> & Hk); done.
Qed.

(** The bytes of a sequence of frames, with whatever masks. *)
Inductive Stream (cl : bool) : list Z -> list sframe -> Prop :=
| stream_nil : Stream cl [] []
| stream_cons m f s fs :
    mask_ok cl m -> sendable f -> Stream cl s fs ->
    Stream cl (frame m (s_op f) (s_payload f) ++ s) (f :: fs).

Lemma send_all_ok env cl : forall fs w, env_ok env cl -> Forall sendable fs ->
  exists ws, send_all env cl w fs = (None, {| wout := (wout w ++ ws)%list; tries := (tries w + length fs)%nat |}) /\
             Stream cl (concat ws) fs /\ length ws = length fs.
Proof.
  induction fs as [|f fs IH]; intros w He Hf.
  - exists []. simpl. rewrite app_nil_r, Nat.add_0_r. split_and!; [by destruct w|constructor|done].
  - inversion_clear Hf as [|? ? H1 H2]. cbn [send_all].
    destruct (writeFrame_ok env cl w (s_op f) (s_payload f) He) as [-> Hm].
    destruct (IH {| wout := (wout w ++ [frame (mask_at env cl (tries w)) (s_op f) (s_payload f)])%list;
                    tries := S (tries w) |} He H2) as (ws & -> & Hs & Hl).
    eexists (_ :: ws). cbn [wout tries]. split_and!.
    + by rewrite <- app_assoc, Nat.add_succ_comm.
    + simpl. by constructor.
    + simpl. by rewrite Hl.
Qed.

Lemma send_all_app env cl a b w : env_ok env cl -> Forall sendable a ->
  send_all env cl w (a ++ b) = send_all env cl (snd (send_all env cl w a)) b.
Proof.
  intros He. revert w. induction a as [|f a IH]; intros w Ha; [done|]. inversion_clear Ha.
  cbn [send_all app]. destruct (writeFrame_ok env cl w (s_op f) (s_payload f) He) as [-> _]. by apply IH.
Qed.

Lemma pongs_sendable fs : Forall sendable fs -> Forall sendable (pongs_of fs).
Proof.
  unfold pongs_of. induction 1 as [|f fs Hf H IH]; simpl; [constructor|]. apply Forall_app. split; [|done].
  destruct f; simpl in *; repeat constructor; done.
Qed.
Lemma pongs_app a b : pongs_of (a ++ b) = (pongs_of a ++ pongs_of b)%list.
Proof. apply flat_map_app. Qed.

Lemma stream_sendable cl s fs : Stream cl s fs -> Forall sendable fs.
Proof. induction 1; constructor; done. Qed.

(** The pieces [Write] cuts a message into. *)
Definition write_chunks (p : list Z) : list (list Z) := chunks (length p) (Z.to_nat wsWriteChunk) p.

Lemma write_chunk_pos : (0 < Z.to_nat wsWriteChunk)%nat.
Proof. unfold wsWriteChunk. lia. Qed.

Lemma drop_taken {A} n (l : list A) : drop (length (take n l)) l = drop n l.
Proof.
  rewrite length_take. destruct (Nat.le_gt_cases n (length l)); [by rewrite Nat.min_l|].
  rewrite Nat.min_r, !drop_ge by lia. done.
Qed.

Lemma write_loop_sends env cl size : (0 < size)%nat -> forall fuel w p n, env_ok env cl -> (length p <= fuel)%nat ->
  write_loop size fuel env cl w p n =
  (n + Z.of_nat (length p), None, snd (send_all env cl w (map SBinary (chunks fuel size p)))).
Proof.
  intros Hpos. induction fuel as [|f IH]; intros w [|x r] n He Hl; cbn [write_loop chunks map send_all];
    try (cbn; by rewrite Z.add_0_r); [simpl in Hl; lia|].
  cbn [s_op s_payload]. set (p := x :: r) in *.
  destruct (writeFrame_ok env cl w wsOpBinary (take size p) He) as [-> _].
  rewrite drop_taken. rewrite IH; [|done|rewrite length_drop; simpl in *; lia].
  rewrite <- Z.add_assoc, <- Nat2Z.inj_add, length_take, length_drop.
  replace (_ + _)%nat with (length p) by lia. done.
Qed.

Lemma concat_chunks fuel n p : (0 < n)%nat -> (length p <= fuel)%nat -> concat (chunks fuel n p) = p.
Proof.
  revert p. induction fuel as [|f IH]; intros [|x r] Hn Hl; try done; [simpl in Hl; lia|].
  cbn [chunks concat]. rewrite IH; [apply take_drop|done|]. rewrite length_drop. simpl in *. lia.
Qed.
Lemma chunks_size fuel n p : Forall (fun c => (length c <= n)%nat) (chunks fuel n p).
Proof.
  revert p. induction fuel as [|f IH]; intros [|x r]; cbn [chunks]; constructor; [|apply IH].
  rewrite length_take. lia.
Qed.

(** ** Lemmas: receiving *)

(** In the middle of the stream: [pl] is what the current frame still holds, [fs]
    the frames after it. *)
Record Mid (cl : bool) (c : wsConn) (pl : list Z) (fs : list sframe) : Prop := {
  mid_client : client c = negb cl;
  mid_err : readErr (rd c) = None;
  mid_frag : fragmented (rd c) = false;
  mid_remaining : remaining (rd c) = Z.of_nat (length pl);
  mid_input : exists s, Stream cl s fs /\
    input (rd c) = ((if masked (rd c) then mask_bytes (mask (rd c)) (maskPos (rd c)) pl else pl) ++ s)%list }.

Lemma mid_ext cl c c' pl fs : Mid cl c pl fs -> client c' = client c -> rd c' = rd c -> Mid cl c' pl fs.
Proof. intros [] H1 H2. split; rewrite ?H1, ?H2; done. Qed.

Lemma read_payload_mid cl c pl fs room ready : Mid cl c pl fs -> pl <> [] -> (0 < room)%nat ->
  exists d pl' c', read_payload room ready c = (d, None, c') /\ pl = (d ++ pl')%list /\ wr c' = wr c /\ Mid cl c' pl' fs /\ (length (input (rd c')) < length (input (rd c)))%nat.
Proof.
  intros [H1 H2 H3 H4 (s & Hs & H5)] Hpl Hroom. unfold read_payload.
  set (n := Nat.min (Nat.min room (Z.to_nat (remaining (rd c)))) (Nat.max 1 ready)).
  assert (Hlen : (0 < length pl)%nat) by (destruct pl; simpl; [done|lia]).
  assert (Hn : (0 < n <= length pl)%nat) by (subst n; rewrite H4, Nat2Z.id; lia).
  assert (Ht : exists i, Nat.min room (Z.to_nat (remaining (rd c))) = S i).
  { rewrite H4, Nat2Z.id. exists (pred (Nat.min room (length pl))). lia. }
  destruct Ht as [i Ei]. unfold n in *. rewrite Ei in *. clear n.
  set (n := Nat.min (S i) (Nat.max 1 ready)) in *.
  set (enc := fun k (l : list Z) => if masked (rd c) then mask_bytes (mask (rd c)) k l else l).
  assert (Hi : input (rd c) = (enc (maskPos (rd c)) (take n pl) ++
      enc (if masked (rd c) then maskPos (rd c) + Z.of_nat n else maskPos (rd c)) (drop n pl) ++ s)%list).
  { rewrite H5, app_assoc. f_equal. unfold enc. destruct (masked (rd c)); [|by rewrite take_drop].
    rewrite <- (take_drop n pl) at 1. rewrite mask_app, length_take, Nat.min_l by lia. done. }
  assert (Hel : length (enc (maskPos (rd c)) (take n pl)) = n).
  { unfold enc. destruct (masked (rd c)); rewrite ?mask_length, length_take; lia. }
  assert (Ht : take n (input (rd c)) = enc (maskPos (rd c)) (take n pl)).
  { rewrite Hi. rewrite <- Hel at 1. apply take_app_length. }
  destruct (input (rd c)) as [|b rest] eqn:Einp.
  { symmetry in Hi. apply app_nil in Hi as [Hi _]. rewrite Hi in Hel. simpl in Hel. lia. }
  rewrite <- Einp in *. rewrite Ht, Hel. exists (take n pl), (drop n pl). eexists. split_and!.
  - f_equal. f_equal. unfold enc. destruct (masked (rd c)); [apply mask_involutive|done].
  - by rewrite take_drop.
  - done.
  - split; simpl; try done.
    + rewrite length_drop, H4. lia.
    + exists s. split; [done|]. rewrite Hi. rewrite <- Hel at 1. rewrite drop_app_length. done.
  - simpl. rewrite length_drop. rewrite Einp. simpl. lia.
Qed.

Lemma masked_payload_length m p : length (masked_payload m p) = length p.
Proof. destruct m; simpl; [apply mask_length|done]. Qed.
Lemma frame_longer m op p : (length p < length (frame m op p))%nat.
Proof. rewrite frame_eq, !length_app, masked_payload_length. unfold frame_start. simpl. lia. Qed.

(** One control frame in front: it is taken, a ping is answered. *)
Lemma next_control env cl f s c m fuel :
  env_ok env (negb cl) -> mask_ok cl m -> sendable f -> s_op f <> wsOpBinary ->
  client c = negb cl -> input (rd c) = (frame m (s_op f) (s_payload f) ++ s)%list ->
  nextDataFrame (S fuel) env c =
  nextDataFrame fuel env (set_wr (set_input c s) (snd (send_all env (negb cl) (wr c) (pongs_of [f])))).
Proof.
  intros He Hm Hs Hop Hc Hi.
  assert (Hb : Z.of_nat (length (s_payload f)) <= 125) by (destruct f; done).
  cbn [nextDataFrame]. rewrite Hc, Hi, readHead_frame; [|done|by destruct f|unfold wsMaxFramePayload; lia].
  unfold head_of. cbn [h_opcode h_fin h_length h_masked h_mask negb orb].
  replace (wsOpClose <=? s_op f) with true by (destruct f; done).
  replace (125 <? _) with false by lia.
  rewrite (readFull_app (masked_payload m (s_payload f))) by (rewrite masked_payload_length; lia).
  assert (Hp : (if match m with Some _ => true | None => false end
                then mask_bytes (match m with Some k => k | None => [0; 0; 0; 0] end) 0 (masked_payload m (s_payload f))
                else masked_payload m (s_payload f)) = s_payload f).
  { destruct m; simpl; [apply mask_involutive|done]. }
  rewrite Hp. destruct f as [p|p|p]; [done|..]; cbn [s_op s_payload].
  - cbn [pongs_of flat_map app send_all]. cbn [set_input set_rd client wr s_op s_payload].
    change (wsOpPing =? wsOpPing) with true. rewrite Hc. cbn iota.
    by destruct (writeFrame_ok env (negb cl) (wr c) wsOpPong p He) as [-> _].
  - change (wsOpPong =? wsOpPing) with false. change (wsOpPong =? wsOpPong) with true. done.
Qed.

(** A data frame in front: it becomes the current frame. *)
Lemma next_binary env cl p s fs c m fuel :
  mask_ok cl m -> Z.of_nat (length p) <= wsMaxFramePayload -> Stream cl s fs ->
  client c = negb cl -> readErr (rd c) = None -> fragmented (rd c) = false ->
  input (rd c) = (frame m wsOpBinary p ++ s)%list ->
  exists c', nextDataFrame (S fuel) env c = match p with [] => nextDataFrame fuel env c' | _ => Some (None, c') end /\
             Mid cl c' p fs /\ wr c' = wr c /\ input (rd c') = (masked_payload m p ++ s)%list.
Proof.
  intros Hm Hp Hs Hc He Hf Hi. cbn [nextDataFrame].
  rewrite Hc, Hi, readHead_frame by done. unfold head_of. cbn [h_opcode h_length].
  change (wsOpClose <=? wsOpBinary) with false. cbn iota.
  set (h := {| h_fin := true |}).
  assert (Hck : check_data (set_input c (masked_payload m p ++ s)%list) h = None).
  { unfold check_data. cbn. rewrite Hf. replace (wsMaxFramePayload <? _) with false by lia. done. }
  rewrite Hck. exists (data_frame (set_input c (masked_payload m p ++ s)%list) h). split_and!; [|split|..]; try done.
  - destruct p; [done|]. cbn. by destruct m.
  - exists s. split; [done|]. cbn. by destruct m.
Qed.

(** What [nextDataFrame] does at the start of [fs]: the end of the stream, or the
    next frame with payload; the pings before it are answered. *)
Definition Next (env : environment) (cl : bool) (w : writer) (n : nat) (fs : list sframe)
    (r : option ws_error) (c' : wsConn) : Prop :=
  (r = Some WsEOF /\ flat_map data_of fs = [] /\ wr c' = snd (send_all env (negb cl) w (pongs_of fs))) \/
  (exists p fs2 q, r = None /\ p <> [] /\ Mid cl c' p fs2 /\ (length (input (rd c')) < n)%nat /\
     flat_map data_of fs = (p ++ flat_map data_of fs2)%list /\ pongs_of fs = (q ++ pongs_of fs2)%list /\
     Forall sendable q /\ wr c' = snd (send_all env (negb cl) w q)).

(** A control frame, or a binary frame without payload, in front changes nothing
    but the answer to a ping. *)
Lemma next_skip env cl w w' n n' f fs r c' :
  env_ok env (negb cl) -> sendable f -> data_of f = [] -> w' = snd (send_all env (negb cl) w (pongs_of [f])) ->
  (n' <= n)%nat -> Next env cl w' n' fs r c' -> Next env cl w n (f :: fs) r c'.
Proof.
  intros He Hs Hd -> Hn H. change (f :: fs) with ([f] ++ fs)%list. unfold Next.
  assert (Hp : Forall sendable (pongs_of [f])) by (apply pongs_sendable; by constructor).
  rewrite pongs_app, flat_map_app. cbn [flat_map]. rewrite Hd. cbn [app].
  destruct H as [(-> & H1 & H2)|(p & fs2 & q & H1 & H2 & H3 & H4 & H5 & H6 & H7 & H8)]; [left|right].
  - split_and!; try done. by rewrite send_all_app.
  - exists p, fs2, (pongs_of [f] ++ q)%list. split_and!; try done; [lia| | |].
    + by rewrite H6, app_assoc.
    + by apply Forall_app.
    + by rewrite send_all_app.
Qed.

Lemma next_frame env cl s fs : Stream cl s fs -> forall c fuel,
  env_ok env (negb cl) -> client c = negb cl -> readErr (rd c) = None -> fragmented (rd c) = false ->
  input (rd c) = s -> (length s < fuel)%nat ->
  exists r c', nextDataFrame fuel env c = Some (r, c') /\ Next env cl (wr c) (length s) fs r c'.
Proof.
  induction 1 as [|m f s fs Hm Hf Hs IH]; intros c fuel He Hc Herr Hfr Hi Hl;
    (destruct fuel as [|fuel]; [simpl in Hl; lia|]).
  - cbn [nextDataFrame]. rewrite Hi. eexists _, _. split; [reflexivity|]. by left.
  - rewrite length_app in *. pose proof (frame_longer m (s_op f) (s_payload f)) as Hlong.
    assert (Hctl : s_op f <> wsOpBinary -> data_of f = [] ->
      exists r c', nextDataFrame (S fuel) env c = Some (r, c') /\
                   Next env cl (wr c) (length (frame m (s_op f) (s_payload f)) + length s) (f :: fs) r c').
    { intros Hop Hd. rewrite (next_control env cl f s c m fuel) by done.
      set (c1 := set_wr (set_input c s) _).
      destruct (IH c1 fuel He) as (r & c' & E & H); [done|done|done|done|lia|].
      exists r, c'. split; [done|]. eapply next_skip, H; [done..|lia]. }
    destruct f as [p|p|p]; try by apply Hctl. clear Hctl. cbn [s_op s_payload] in *.
    destruct (next_binary env cl p s fs c m fuel) as (c1 & -> & HM & Hw & Hi1); [done..|].
    destruct p as [|x p].
    + destruct HM as [M1 M2 M3 _ _]. destruct (IH c1 fuel) as (r & c' & E & H); try done; [|lia|].
      { rewrite Hi1. by destruct m. }
      exists r, c'. split; [done|]. eapply next_skip, H; try done. lia.
    + exists None, c1. split; [done|]. right. exists (x :: p), fs, [].
      split_and!; try done.
      rewrite Hi1, !length_app, masked_payload_length. simpl in *. lia.
Qed.

(** Reading until the end gives the rest of the current frame and the data of the
    frames after it; every ping is answered. *)
Lemma drain_mid env cl sizes : env_ok env (negb cl) -> (forall i, 0 < fst (sizes i))%nat ->
  forall fuel i c pl fs, Mid cl c pl fs -> (length (input (rd c)) < fuel)%nat ->
  exists c', drain fuel env sizes i c = Some ((pl ++ flat_map data_of fs)%list, WsEOF, c') /\
             wr c' = snd (send_all env (negb cl) (wr c) (pongs_of fs)).
Proof.
  intros He Hsz. induction fuel as [|fuel IH]; intros i c pl fs HM Hl; [lia|]. cbn [drain].
  assert (Hpay : forall c1 pl1 fs1, Mid cl c1 pl1 fs1 -> pl1 <> [] -> (length (input (rd c1)) <= fuel)%nat ->
    exists c', match read_payload (fst (sizes i)) (snd (sizes i)) c1 with
               | (d, Some e, c') => Some (d, e, c')
               | (d, None, c') =>
                   match drain fuel env sizes (S i) c' with
                   | Some (d', e, c'') => Some ((d ++ d')%list, e, c'')
                   | None => None
                   end
               end = Some ((pl1 ++ flat_map data_of fs1)%list, WsEOF, c') /\
               wr c' = snd (send_all env (negb cl) (wr c1) (pongs_of fs1))).
  { intros c1 pl1 fs1 HM1 Hne Hl1.
    destruct (read_payload_mid cl c1 pl1 fs1 (fst (sizes i)) (snd (sizes i)) HM1 Hne (Hsz i))
      as (d & pl2 & c2 & -> & -> & Hw & HM2 & Hl2).
    destruct (IH (S i) c2 pl2 fs1 HM2 ltac:(lia)) as (c3 & -> & Hw3).
    exists c3. split; [by rewrite app_assoc|by rewrite Hw3, Hw]. }
  unfold Read. rewrite (mid_remaining _ _ _ _ HM), (mid_err _ _ _ _ HM).
  destruct pl as [|x pl]; [|apply (Hpay c); [done..|lia]].
  change (Z.of_nat (length []) =? 0) with true. cbn iota. destruct HM as [H1 H2 H3 H4 (s & Hs & H5)].
  assert (Hin : input (rd c) = s) by (rewrite H5; by destruct (masked (rd c))).
  rewrite Hin in *. destruct (next_frame env cl s fs Hs c (S (length s))) as (r & c1 & -> & H); try done; [lia|].
  destruct H as [(-> & E1 & E2)|(p & fs2 & q & -> & Hp & HM & Hl1 & E1 & E2 & Hq & Hw)].
  - exists (set_err c1 WsEOF). rewrite E1. split; [done|]. exact E2.
  - destruct (Hpay c1 p fs2 HM Hp ltac:(lia)) as (c2 & -> & Hw2). exists c2.
    rewrite E1, E2, Hw2, Hw, send_all_app; done.
Qed.

(** C39: what one side of the tunnel writes is what the other side reads.  [Write]
    hands the whole message over as binary frames of at most 32 KiB; and for every
    sequence of such frames, with pings and pongs of other goroutines anywhere
    between them, whatever the masks, the buffer sizes of the reader and the pieces
    in which the bytes arrive, the reader gets exactly the data, then the end of the
    stream, and answers exactly the pings, with their payload. *)
Theorem ws_stream_roundtrip (cl : bool) (envs envr : environment) (fs : list sframe) (sizes : nat -> nat * nat) :
  env_ok envs cl -> env_ok envr (negb cl) -> Forall sendable fs -> (forall i, 0 < fst (sizes i))%nat ->
  (forall c p, client c = cl ->
     Write envs c p = (Z.of_nat (length p), None, set_wr c (snd (send_all envs cl (wr c) (map SBinary (write_chunks p))))) /\
     flat_map data_of (map SBinary (write_chunks p)) = p /\
     Forall sendable (map SBinary (write_chunks p))) /\
  exists w, send_all envs cl {| wout := []; tries := 0 |} fs = (None, w) /\
  exists c, drain (S (length (concat (wout w)))) envr sizes 0 (newWSConn (concat (wout w)) (negb cl)) =
              Some (flat_map data_of fs, WsEOF, c) /\
            wr c = snd (send_all envr (negb cl) {| wout := []; tries := 0 |} (pongs_of fs)).
Proof.
  intros Hes Her Hf Hsz. split.
  - intros c p Hc. unfold Write, write_chunks. rewrite Hc, write_loop_sends by (done || apply write_chunk_pos).
    split_and!; [done| |].
    + rewrite flat_map_concat_map, map_map, map_id. apply concat_chunks; [apply write_chunk_pos|done].
    + apply Forall_map. eapply Forall_impl; [apply chunks_size|]. intros l Hl. simpl in *.
      apply Nat2Z.inj_le in Hl. revert Hl. unfold wsWriteChunk, wsMaxFramePayload. rewrite Z2Nat.id; lia.
  - destruct (send_all_ok envs cl fs {| wout := []; tries := 0 |} Hes Hf) as (ws & -> & Hs & _). cbn [wout app].
    eexists. split; [reflexivity|]. cbn [wout].
    apply (drain_mid envr cl sizes Her Hsz _ 0 (newWSConn (concat ws) (negb cl)) [] fs); [|cbn; lia].
    split; try done. by exists (concat ws).
Qed.

Definition demo_env : environment := fun n => {| a_mask := Some [1; 2; 3; Z.of_nat n]; a_write := true |}.

Lemma ws_stream_roundtrip_witness :
  exists w, send_all demo_env true {| wout := []; tries := 0 |} [SBinary [104; 105]; SPing [7]; SBinary [33]] = (None, w) /\
  exists c, drain (S (length (concat (wout w)))) demo_env (fun _ => (1, 5)%nat) 0 (newWSConn (concat (wout w)) false) =
              Some ([104; 105; 33], WsEOF, c) /\
            wr c = snd (send_all demo_env false {| wout := []; tries := 0 |} [SPong [7]]).
Proof.
  apply (ws_stream_roundtrip true demo_env demo_env [SBinary [104; 105]; SPing [7]; SBinary [33]] (fun _ => (1, 5)%nat)).
  - intros n. split; [done|]. intros _. by eexists.
  - intros n. split; done.
  - repeat constructor; done.
  - intros _. simpl. lia.
Defined.

(** ** Lemmas: any input *)

(** [m] takes at least [n] bytes and gives a value in [P], or fails. *)
Definition takes {A} (n : nat) (P : A -> Prop) (m : parser A) : Prop :=
  forall s, octet_list s ->
  match m s with
  | (Ok a, s') => P a /\ octet_list s' /\ (length s' + n <= length s)%nat
  | (Err _, s') => octet_list s' /\ (length s' <= length s)%nat
  end.

Lemma takes_ret {A} (P : A -> Prop) a : P a -> takes 0 P (pret a).
Proof. intros H s Hs. simpl. split_and!; [done..|lia]. Qed.
Lemma takes_fail {A} n (P : A -> Prop) e : takes n P (pfail e).
Proof. intros s Hs. simpl. done. Qed.
Lemma takes_readFull n : takes n (fun l => length l = n /\ octet_list l) (readFull n).
Proof.
  intros s Hs. unfold readFull. destruct (Nat.leb_spec n (length s)).
  - split_and!; [rewrite length_take; lia|by apply Forall_take|by apply Forall_drop|rewrite length_drop; lia].
  - split; [constructor|simpl; lia].
Qed.
Lemma takes_bind {A B} n n' (P : A -> Prop) (Q : B -> Prop) m k :
  takes n P m -> (forall a, P a -> takes n' Q (k a)) -> takes (n + n') Q (pbind m k).
Proof.
  intros Hm Hk s Hs. unfold pbind. specialize (Hm s Hs). destruct (m s) as [[a|e] s']; [|done].
  destruct Hm as (Ha & Hs' & Hl). specialize (Hk a Ha s' Hs').
  destruct (k a s') as [[b|e] s'']; [|split; [tauto|lia]]. split_and!; [tauto..|lia].
Qed.
Lemma takes_weaken {A} n n' (P Q : A -> Prop) m :
  takes n P m -> (n' <= n)%nat -> (forall a, P a -> Q a) -> takes n' Q m.
Proof.
  intros Hm Hn HQ s Hs. specialize (Hm s Hs). destruct (m s) as [[a|e] s']; [|done].
  destruct Hm as (? & ? & ?). split_and!; [auto|done|lia].
Qed.

Definition head_ok (h : head) : Prop := 0 <= h_length h <= wsMaxFramePayload.

Lemma takes_readHead cl : takes 2 head_ok (readHead cl).
Proof.
  unfold readHead. apply (takes_bind 2 0 _ _ _ _ (takes_readFull 2)). intros h [Hh1 Hh2].
  destruct (negb _); [apply takes_fail|]. destruct (eqb _ _); [apply takes_fail|].
  set (l7 := Z.land (nth 1 h 0) 0x7F).
  assert (Hl7 : 0 <= l7 < 128).
  { unfold l7. change 0x7F with (Z.ones 7). rewrite Z.land_ones by lia. by apply Z.mod_pos_bound. }
  apply (takes_bind 0 0 (fun v => 0 <= v <= wsMaxFramePayload)).
  - destruct (_ =? 126); [|destruct (_ =? 127)].
    + apply (takes_weaken 2 0 (fun v => 0 <= v <= wsMaxFramePayload)); [|lia|done].
      apply (takes_bind 2 0 _ _ _ _ (takes_readFull 2)).
      intros e [He1 He2]. apply takes_ret. apply be_value_bound in He2. rewrite He1 in He2.
      unfold wsMaxFramePayload. lia.
    + apply (takes_weaken 8 0 (fun v => 0 <= v <= wsMaxFramePayload)); [|lia|done].
      apply (takes_bind 8 0 _ _ _ _ (takes_readFull 8)).
      intros e [He1 He2]. destruct (Z.ltb_spec wsMaxFramePayload (be_value e)); [apply takes_fail|apply takes_ret].
      apply be_value_bound in He2. lia.
    + apply takes_ret. unfold wsMaxFramePayload. lia.
  - intros v Hv. apply (takes_bind 0 0 (fun _ => True)); [|intros m _; by apply takes_ret].
    destruct (negb _); [|by apply takes_ret]. eapply takes_weaken; [apply (takes_readFull 4)|lia|done].
Qed.

(** What holds of a connection whatever the peer sent: at most a frame of a megabyte
    is open, and the answers written are small. *)
Record Safe (c : wsConn) : Prop := {
  safe_remaining : 0 <= remaining (rd c) <= wsMaxFramePayload;
  safe_input : octet_list (input (rd c));
  safe_out : Forall (fun b => (length b <= 131)%nat) (wout (wr c)) }.

Definition masks_ok (env : environment) : Prop :=
  forall n k, a_mask (env n) = Some k -> length k = 4%nat.

Lemma frame_small m op p : (length p <= 125)%nat -> (forall k, m = Some k -> length k = 4%nat) ->
  (length (frame m op p) <= 131)%nat.
Proof.
  intros Hp Hm. rewrite frame_eq. unfold frame_start, length_bytes.
  replace (_ <=? 125) with true by lia. rewrite !length_app, masked_payload_length. simpl.
  destruct m as [k|]; [rewrite (Hm k eq_refl)|]; simpl; lia.
Qed.

Lemma writeFrame_safe env cl w op p e w' : masks_ok env -> (length p <= 125)%nat ->
  writeFrame env cl w op p = (e, w') -> Forall (fun b => (length b <= 131)%nat) (wout w) ->
  Forall (fun b => (length b <= 131)%nat) (wout w').
Proof.
  intros Hm Hp H Hw. unfold writeFrame in H.
  assert (Hf : forall m : option (list Z), (forall k, m = Some k -> length k = 4%nat) ->
    Forall (fun b => (length b <= 131)%nat) (wout w ++ [frame m op p])).
  { intros m Hk. apply Forall_app. split; [done|]. constructor; [by apply frame_small|constructor]. }
  destruct cl; [destruct (a_mask (env (tries w))) as [k|] eqn:Ek|]; [destruct (a_write _)| |destruct (a_write _)];
    injection H as <- <-; try done; [apply (Hf (Some k))|by apply (Hf None)].
  intros k' [= <-]. by eapply Hm.
Qed.

Lemma next_safe env : masks_ok env -> forall fuel c, Safe c -> (length (input (rd c)) < fuel)%nat ->
  exists r c', nextDataFrame fuel env c = Some (r, c') /\ Safe c' /\
    (length (input (rd c')) <= length (input (rd c)))%nat /\ (r = None -> 0 < remaining (rd c')).
Proof.
  intros Hm. induction fuel as [|fuel IH]; intros c [S1 S2 S3] Hl; [lia|]. cbn [nextDataFrame].
  pose proof (takes_readHead (client c) _ S2) as Hh.
  destruct (readHead (client c) (input (rd c))) as [[h|e] s].
  2:{ destruct Hh as [Hs Hls]. eexists _, _. split; [reflexivity|]. split_and!; [by split|simpl; lia|done]. }
  destruct Hh as (Hh & Hs & Hls). destruct (wsOpClose <=? h_opcode h).
  - destruct (_ || _) eqn:Ec.
    { eexists _, _. split; [reflexivity|]. split_and!; [by split|simpl; lia|done]. }
    apply orb_false_iff in Ec as [_ Ec%Z.ltb_ge].
    pose proof (takes_readFull (Z.to_nat (h_length h)) s Hs) as Hr.
    destruct (readFull (Z.to_nat (h_length h)) s) as [[p|e] s'].
    2:{ destruct Hr as [Hs' Hls']. eexists _, _. split; [reflexivity|]. split_and!; [by split|simpl; lia|done]. }
    destruct Hr as ([Hp _] & Hs' & Hls').
    set (p' := if h_masked h then mask_bytes (h_mask h) 0 p else p).
    assert (Hp' : (length p' <= 125)%nat) by (unfold p'; destruct (h_masked h); rewrite ?mask_length; lia).
    destruct (_ =? wsOpPing); [|destruct (_ =? wsOpPong); [|destruct (_ =? wsOpClose)]].
    + destruct (writeFrame env _ _ wsOpPong p') as [[e|] w] eqn:Ew; apply writeFrame_safe in Ew; try done.
      * eexists _, _. split; [reflexivity|]. split_and!; [by split|simpl; lia|done].
      * edestruct (IH (set_wr (set_input (set_input c s) s') w)) as (r & c' & E & H1 & H2 & H3);
          [by split|simpl; lia|]. exists r, c'. split_and!; try done. simpl in *. lia.
    + edestruct (IH (set_input (set_input c s) s')) as (r & c' & E & H1 & H2 & H3);
        [by split|simpl; lia|]. exists r, c'. split_and!; try done. simpl in *. lia.
    + destruct (writeFrame env _ _ wsOpClose (take 2 p')) as [e w] eqn:Ew.
      apply writeFrame_safe in Ew; [|done|rewrite length_take; lia|done].
      eexists _, _. split; [reflexivity|]. split_and!; [by split|simpl; lia|done].
    + eexists _, _. split; [reflexivity|]. split_and!; [by split|simpl; lia|done].
  - destruct (check_data _ h).
    { eexists _, _. split; [reflexivity|]. split_and!; [by split|simpl; lia|done]. }
    destruct (Z.ltb_spec 0 (h_length h)).
    + eexists _, _. split; [reflexivity|]. split_and!; [by split|simpl; lia|done].
    + edestruct (IH (data_frame (set_input c s) h)) as (r & c' & E & H1 & H2 & H3);
        [by split|simpl; lia|]. exists r, c'. split_and!; try done. simpl in *. lia.
Qed.

Lemma read_payload_safe room ready c : Safe c -> (0 < room)%nat -> 0 < remaining (rd c) ->
  exists d e c', read_payload room ready c = (d, e, c') /\ Safe c' /\ (length d <= room)%nat /\
    (length (input (rd c')) + length d <= length (input (rd c)))%nat /\
    (e = None -> (0 < length d)%nat).
Proof.
  intros [S1 S2 S3] Hroom Hr. unfold read_payload.
  destruct (Nat.min room (Z.to_nat (remaining (rd c)))) as [|i] eqn:Ei; [lia|].
  destruct (input (rd c)) as [|b rest] eqn:Einp.
  { eexists _, _, _. split; [reflexivity|]. cbn [length]. split_and!; [split; simpl; rewrite ?Einp; done|lia| |done].
    simpl. rewrite Einp. simpl. lia. }
  set (got := take _ (b :: rest)).
  assert (Hg : (0 < length got <= S i)%nat) by (unfold got; rewrite length_take; cbn [length]; lia).
  assert (Hle : (length got <= length (b :: rest))%nat) by (unfold got; rewrite length_take; lia).
  assert (Hd : length (if masked (rd c) then mask_bytes (mask (rd c)) (maskPos (rd c)) got else got) = length got).
  { destruct (masked (rd c)); [apply mask_length|done]. }
  eexists _, _, _. split; [reflexivity|]. rewrite Hd. split_and!; [split|..]; cbn [rd remaining input set_rd wr]; try done.
  - lia.
  - apply Forall_drop. exact S2.
  - lia.
  - rewrite length_drop. lia.
  - lia.
Qed.

Lemma read_safe env room ready c : masks_ok env -> Safe c -> (0 < room)%nat ->
  exists d e c', Read env room ready c = Some (d, e, c') /\ Safe c' /\ (length d <= room)%nat /\
    (length (input (rd c')) + length d <= length (input (rd c)))%nat /\ (e = None -> (0 < length d)%nat).
Proof.
  intros Hm HS Hroom. unfold Read. destruct (Z.eqb_spec (remaining (rd c)) 0) as [Hz|Hz].
  - destruct (readErr (rd c)) as [e0|].
    { exists [], (Some e0), c; split_and!; [done|done|simpl; lia|simpl; lia|done]. }
    destruct (next_safe env Hm (S (length (input (rd c)))) c HS) as (r & c1 & -> & HS1 & Hl1 & Hr); [lia|].
    destruct r as [e0|].
    + eexists [], _, _. split; [reflexivity|]. split_and!; [by destruct HS1|simpl; lia|simpl; lia|done].
    + destruct (read_payload_safe room ready c1 HS1 Hroom (Hr eq_refl)) as (d & e & c2 & -> & ? & ? & ? & ?).
      exists d, e, c2. split_and!; try done. lia.
  - destruct (read_payload_safe room ready c HS Hroom) as (d & e & c2 & -> & ? & ? & ? & ?).
    { destruct HS. lia. }
    by exists d, e, c2.
Qed.

Lemma drain_ends env sizes : masks_ok env -> (forall i, 0 < fst (sizes i))%nat ->
  forall fuel i c, Safe c -> (length (input (rd c)) < fuel)%nat ->
  exists d e c', drain fuel env sizes i c = Some (d, e, c').
Proof.
  intros Hm Hsz. induction fuel as [|fuel IH]; intros i c HS Hl; [lia|]. cbn [drain].
  destruct (read_safe env (fst (sizes i)) (snd (sizes i)) c Hm HS (Hsz i)) as (d & [e|] & c1 & -> & HS1 & _ & Hl1 & He).
  - by exists d, e, c1.
  - specialize (He eq_refl). destruct (IH (S i) c1 HS1 ltac:(lia)) as (d' & e & c2 & ->). by eexists _, _, _.
Qed.

(** the reader is safe on any bytes, as it parses them before anyone is
    authenticated.  Every call of [Read] returns, with at most the bytes the buffer
    has room for and never more than were sent; between calls at most one frame of at
    most 1 MiB is open, and the frames the reader answers with are at most 131 bytes
    long, whatever the writes answer; and reading comes to an end. *)
Theorem ws_reader_safe env s cl : masks_ok env -> octet_list s ->
  Safe (newWSConn s cl) /\
  (forall c room ready, Safe c -> (0 < room)%nat ->
     exists d e c', Read env room ready c = Some (d, e, c') /\ Safe c' /\ (length d <= room)%nat /\
       (length (input (rd c')) + length d <= length (input (rd c)))%nat /\ (e = None -> (0 < length d)%nat)) /\
  (forall sizes, (forall i, 0 < fst (sizes i))%nat ->
     exists d e c', drain (S (length s)) env sizes 0 (newWSConn s cl) = Some (d, e, c')).
Proof.
  intros Hm Hs. assert (HS : Safe (newWSConn s cl)).
  { split; [simpl; unfold wsMaxFramePayload; lia|done|constructor]. }
  split_and!; [done|intros; by apply read_safe|]. intros sizes Hsz. apply drain_ends; try done. simpl. lia.
Qed.

Lemma ws_reader_safe_witness :
  Safe (newWSConn [0x82; 0xFF; 0] false) /\
  exists d e c', drain 4 demo_env (fun _ => (9, 9)%nat) 0 (newWSConn [0x82; 0xFF; 0] false) = Some (d, e, c').
Proof.
  destruct (ws_reader_safe demo_env [0x82; 0xFF; 0] false) as (H1 & _ & H3).
  - intros n k [= <-]. done.
  - repeat constructor; lia.
  - split; [exact H1|]. apply H3. intros _. simpl. lia.
Defined.

(** Frames the reader refuses. *)
Example ws_refused :
  let read s := match drain 20 demo_env (fun _ => (9, 9)%nat) 0 (newWSConn s false) with
                | Some (d, e, _) => Some (d, e) | None => None end in
  read [0xC2; 0x80; 0; 0; 0; 0] = Some ([], WsProtocol "reserved bits set") /\
  read [0x82; 0x01; 65] = Some ([], WsProtocol "wrong masking") /\
  read [0x81; 0x81; 0; 0; 0; 0; 65] = Some ([], WsProtocol "text frames are not supported") /\
  read [0x80; 0x81; 0; 0; 0; 0; 65] = Some ([], WsProtocol "unexpected continuation frame") /\
  read [0x82; 0xFF; 0; 0; 0; 0; 0; 0x10; 0; 1] = Some ([], WsProtocol "frame too large") /\
  read [0x02; 0x81; 0; 0; 0; 0; 65; 0x80; 0x81; 1; 0; 0; 0; 67] = Some ([65; 66], WsEOF) /\
  read [0x82; 0x82; 0; 0; 0; 0; 65] = Some ([65], WsUnexpectedEOF).
Proof. by vm_compute. Qed.

(** ** Streams of commands in a container *)

Inductive demux_error := DmEOF | DmTruncatedHeader | DmRead | DmWriter.

(** How the connection ends after the bytes of the stream: it is closed by Docker,
    by us ("use of closed network connection"), or by an error. *)
Inductive stream_end := EndEOF | EndClosed | EndError.

Inductive dest := ToStdout | ToStderr | ToDiscard.
Definition dest_of (b : Z) : dest := if b =? 1 then ToStdout else if b =? 2 then ToStderr else ToDiscard.

Record outputs := { stdout : list Z; stderr : list Z }.
Definition emit (d : dest) (p : list Z) (o : outputs) : outputs :=
  match d with
  | ToStdout => {| stdout := (stdout o ++ p)%list; stderr := stderr o |}
  | ToStderr => {| stdout := stdout o; stderr := (stderr o ++ p)%list |}
  | ToDiscard => o
  end.

(** The error of a read that finds the stream at its end. *)
Definition end_error (e : stream_end) (eof : demux_error) : option demux_error :=
  match e with EndEOF => Some eof | EndClosed => None | EndError => Some DmRead end.

(** [demuxDockerStream]: the n-th frame meets a writer that takes everything
    ([None]) or fails after some bytes.  Every frame takes eight bytes of header. *)
Fixpoint demux_loop (fuel : nat) (writes : nat -> option nat) (fin : stream_end) (n : nat) (s : list Z) (o : outputs)
  : option (option demux_error * outputs) :=
  match fuel with
  | O => None
  | S f =>
      match s with
      | [] => Some (match fin with EndEOF | EndClosed => None | EndError => Some DmRead end, o)
      | _ =>
          if (length s <? 8)%nat then Some (end_error fin DmTruncatedHeader, o) else
          let header := take 8 s in
          let size := Z.to_nat (be_value (drop 4 header)) in
          let body := drop 8 s in
          let d := dest_of (nth 0 header 0) in
          let here := take size body in
          match (match d with ToDiscard => None | _ => writes n end) with
          | Some k => if (k <? length here)%nat then Some (Some DmWriter, emit d (take k here) o)
                      else if (length here <? size)%nat then Some (end_error fin DmEOF, emit d here o)
                      else demux_loop f writes fin (S n) (drop size body) (emit d here o)
          | None => if (length here <? size)%nat then Some (end_error fin DmEOF, emit d here o)
                    else demux_loop f writes fin (S n) (drop size body) (emit d here o)
          end
      end
  end.
Definition demuxDockerStream (writes : nat -> option nat) (fin : stream_end) (s : list Z)
  : option (option demux_error * outputs) :=
  demux_loop (S (length s)) writes fin 0 s {| stdout := []; stderr := [] |}.

(** What Docker sends: a frame of stream [b] (0 stdin, 1 stdout, 2 stderr). *)
Definition docker_frame (f : Z * list Z) : list Z :=
  (f.1 :: 0%Z :: 0%Z :: 0%Z :: be_bytes 4 (Z.of_nat (length f.2)) ++ f.2)%list.
Definition docker_stream (fs : list (Z * list Z)) : list Z := flat_map docker_frame fs.
Definition of_stream (b : Z) (fs : list (Z * list Z)) : list Z :=
  flat_map (fun f => if f.1 =? b then f.2 else []) fs.
Definition docker_size (f : Z * list Z) : Prop := Z.of_nat (length f.2) < 2 ^ 32.

Lemma docker_frame_length f : length (docker_frame f) = (8 + length f.2)%nat.
Proof. unfold docker_frame. cbn [length]. rewrite length_app, be_bytes_length. lia. Qed.

(** The first frame of what arrived, [p] of its payload. *)
Lemma demux_first fuel writes fin n b size p s o :
  (forall i, writes i = None) -> 0 <= size < 2 ^ 32 ->
  (Z.of_nat (length p) = size \/ (Z.of_nat (length p) < size /\ s = [])) ->
  demux_loop (S fuel) writes fin n ((b :: 0%Z :: 0%Z :: 0%Z :: be_bytes 4 size ++ p) ++ s)%list o =
  if Z.of_nat (length p) <? size then Some (end_error fin DmEOF, emit (dest_of b) p o)
  else demux_loop fuel writes fin (S n) s (emit (dest_of b) p o).
Proof.
  intros Hw Hsz Hp. cbn [demux_loop app].
  assert (E : (be_bytes 4 size ++ p) ++ s = (be_bytes 4 size ++ (p ++ s))%list) by (symmetry; apply app_assoc).
  assert (L : length (b :: 0 :: 0 :: 0 :: (be_bytes 4 size ++ p) ++ s) = (8 + length (p ++ s))%nat).
  { rewrite E. cbn [length]. rewrite length_app, be_bytes_length. lia. }
  rewrite L. replace (_ <? 8)%nat with false by (symmetry; apply Nat.ltb_ge; lia).
  assert (T : take 8 (b :: 0 :: 0 :: 0 :: (be_bytes 4 size ++ p) ++ s) = (b :: 0 :: 0 :: 0 :: be_bytes 4 size)%list).
  { rewrite E. by cbn. }
  assert (D : drop 8 (b :: 0 :: 0 :: 0 :: (be_bytes 4 size ++ p) ++ s) = (p ++ s)%list).
  { rewrite E. by cbn. }
  rewrite T, D. change (drop 4 (b :: 0 :: 0 :: 0 :: be_bytes 4 size)) with (be_bytes 4 size).
  cbn [nth]. rewrite be_value_bytes, Z.mod_small by (simpl; lia).
  replace (match dest_of b with ToDiscard => None | _ => writes n end) with (@None nat)
    by (rewrite Hw; by destruct (dest_of b)).
  assert (Hc : take (Z.to_nat size) (p ++ s) = p /\ (Z.of_nat (length p) = size -> drop (Z.to_nat size) (p ++ s) = s)).
  { destruct Hp as [Hp|[Hp ->]].
    - replace (Z.to_nat size) with (length p) by lia. by rewrite take_app_length, drop_app_length.
    - rewrite app_nil_r. split; [apply take_ge; lia|lia]. }
  destruct Hc as [-> Hd]. destruct (Z.ltb_spec (Z.of_nat (length p)) size).
  - replace (_ <? _)%nat with true by (symmetry; apply Nat.ltb_lt; lia). done.
  - replace (_ <? _)%nat with false by (symmetry; apply Nat.ltb_ge; lia). rewrite Hd by lia. done.
Qed.

Lemma demux_frames fin writes tail : (forall i, writes i = None) -> forall fs fuel n o,
  Forall docker_size fs -> (length (docker_stream fs ++ tail) < fuel)%nat ->
  exists fuel' n', (length tail < fuel')%nat /\
  demux_loop fuel writes fin n (docker_stream fs ++ tail) o =
  demux_loop fuel' writes fin n' tail
    {| stdout := (stdout o ++ of_stream 1 fs)%list; stderr := (stderr o ++ of_stream 2 fs)%list |}.
Proof.
  intros Hw. induction fs as [|f fs IH]; intros fuel n o Hf Hl.
  - exists fuel, n. cbn in *. rewrite !app_nil_r. split; [done|by destruct o].
  - inversion_clear Hf as [|? ? H1 H2]. unfold docker_size in H1. cbn [docker_stream flat_map] in *.
    fold (docker_stream fs) in *. rewrite <- !app_assoc in *. rewrite length_app, docker_frame_length in Hl.
    destruct fuel as [|fuel]; [lia|]. unfold docker_frame.
    rewrite demux_first; [|done|lia|by left]. rewrite Z.ltb_irrefl.
    destruct (IH fuel (S n) (emit (dest_of f.1) f.2 o) H2) as (fuel' & n' & Hl' & ->); [lia|].
    exists fuel', n'. split; [done|]. f_equal. cbn [of_stream flat_map]. fold (of_stream 1 fs) (of_stream 2 fs).
    unfold dest_of. destruct (Z.eqb_spec f.1 1) as [->|]; [|destruct (Z.eqb_spec f.1 2) as [E|]];
      try rewrite E; cbn; by rewrite ?app_assoc.
Qed.

(** the output of a command in a container is split into exactly the bytes of
    stdout and of stderr, in order, however Docker cuts them into frames, and a stream
    Docker closes after a whole frame is no error.  When the connection breaks inside
    a frame, everything before it and the part that arrived are still passed on, and
    the command is not taken for finished: an error is returned. *)
Theorem docker_streams_split (writes : nat -> option nat) (fs : list (Z * list Z)) (f : Z * list Z) (k : nat) :
  (forall i, writes i = None) -> Forall docker_size fs -> docker_size f -> (0 < k < length (docker_frame f))%nat ->
  demuxDockerStream writes EndEOF (docker_stream fs) =
    Some (None, {| stdout := of_stream 1 fs; stderr := of_stream 2 fs |}) /\
  demuxDockerStream writes EndEOF (docker_stream fs ++ take k (docker_frame f)) =
    Some (Some (if (k <? 8)%nat then DmTruncatedHeader else DmEOF),
          let p := (f.1, take (k - 8) f.2) in
          {| stdout := of_stream 1 (fs ++ [p]); stderr := of_stream 2 (fs ++ [p]) |}).
Proof.
  intros Hw Hf Hsz Hk. unfold demuxDockerStream. split.
  - destruct (demux_frames EndEOF writes [] Hw fs (S (length (docker_stream fs))) 0
                {| stdout := []; stderr := [] |} Hf) as (fuel & n & Hl & E); [rewrite app_nil_r; lia|].
    rewrite app_nil_r in E. rewrite E. destruct fuel; [simpl in Hl; lia|]. done.
  - set (tail := take k (docker_frame f)).
    assert (Ht : length tail = k) by (unfold tail; rewrite length_take; lia).
    destruct (demux_frames EndEOF writes tail Hw fs (S (length (docker_stream fs ++ tail))) 0
                {| stdout := []; stderr := [] |} Hf) as (fuel & n & Hl & ->); [lia|].
    destruct fuel as [|fuel]; [lia|]. unfold of_stream. rewrite !flat_map_app. cbn [stdout stderr app flat_map fst snd].
    rewrite docker_frame_length in Hk. destruct (Nat.ltb_spec k 8) as [H8|H8].
    + cbn [demux_loop]. destruct tail as [|x t] eqn:Et; [simpl in Ht; lia|]. rewrite <- Et, Ht in *.
      replace (k <? 8)%nat with true by (symmetry; apply Nat.ltb_lt; lia).
      replace (k - 8)%nat with 0%nat by lia. rewrite take_0. by destruct (f.1 =? 1), (f.1 =? 2); rewrite ?app_nil_r.
    + assert (E : tail = (f.1 :: 0%Z :: 0%Z :: 0%Z :: be_bytes 4 (Z.of_nat (length f.2)) ++ take (k - 8) f.2) ++ []).
      { unfold tail, docker_frame. rewrite app_nil_r. replace k with (8 + (k - 8))%nat at 1 by lia.
        by cbn [Nat.add take be_bytes app]. }
      unfold docker_size in Hsz. assert (Htk : length (take (k - 8) f.2) = (k - 8)%nat) by (rewrite length_take; lia).
      rewrite E, demux_first; [|done|lia|right; split; [lia|done]]. rewrite Htk.
      replace (Z.of_nat (k - 8) <? Z.of_nat (length f.2)) with true by (symmetry; apply Z.ltb_lt; lia).
      unfold end_error. do 2 f_equal. unfold dest_of.
      destruct (Z.eqb_spec f.1 1) as [->|]; [|destruct (Z.eqb_spec f.1 2) as [Ef|]];
        try rewrite Ef; cbn; by rewrite ?app_nil_r.
Qed.

Lemma docker_streams_split_witness :
  demuxDockerStream (fun _ => None) EndEOF (docker_stream [(1, [104; 105]); (2, [33]); (1, [10])]) =
    Some (None, {| stdout := [104; 105; 10]; stderr := [33] |}) /\
  demuxDockerStream (fun _ => None) EndEOF (docker_stream [(1, [104; 105]); (2, [33]); (1, [10])] ++ [2; 0; 0; 0; 0; 0; 0; 3; 65]) =
    Some (Some DmEOF, {| stdout := [104; 105; 10]; stderr := [33; 65] |}).
Proof.
  apply (docker_streams_split (fun _ => None) [(1, [104; 105]); (2, [33]); (1, [10])] (2, [65; 66; 67]) 9).
  - done.
  - repeat constructor.
  - done.
  - simpl. lia.
Defined.
