(* ===== verification/GoHttp.v ===== *)
(** * Paths of requests and their routing (packages net/url and net/http)

    The percent encoding of paths, [cleanPath], and [ServeMux] for patterns without
    host, method and wildcards, as [src/main.go] uses it.  The mux compares the
    segments of the path as it was sent, while handlers see the decoded path, so both
    are modelled. *)

From Stdlib Require Import ZArith Lia Bool String Ascii List.
From stdpp Require Import base strings list.
From S2P Require Import Prelude GoStrings Crypto Validate Paths.

(** ** Percent encoding *)

Definition hex_value (c : ascii) : Z :=
  if is_digit c then code c - 48 else if between 97 102 c then code c - 87 else code c - 55.

(** [url.PathUnescape]; [None] for a malformed escape. *)
Fixpoint lunescape (l : bytes) : option bytes :=
  match l with
  | [] => Some []
  | c :: r =>
      if Ascii.eqb c "%" then
        match r with
        | h1 :: h2 :: r' =>
            if is_hex h1 && is_hex h2 then
              option_map (cons (chr (16 * hex_value h1 + hex_value h2))) (lunescape r')
            else None
        | _ => None
        end
      else option_map (cons c) (lunescape r)
  end.
Definition PathUnescape (s : string) : option string := option_map of_bytes (lunescape (to_bytes s)).

(** [shouldEscape] for a path, and [URL.EscapedPath] of a URL that was built with
    [Path] alone. *)
Definition path_char (c : ascii) : bool := is_alnum c || one_of "-_.~$&+,/:;=@" c.
Definition upper_hex (v : Z) : ascii := if v <? 10 then chr (48 + v) else chr (55 + v).
Definition escape_byte (c : ascii) : bytes :=
  if path_char c then [c] else ["%"%char; upper_hex (code c / 16); upper_hex (code c mod 16)].
Definition EscapePath (s : string) : string := of_bytes (flat_map escape_byte (to_bytes s)).

(** ** Routing *)

Definition cleanPath (p : string) : string :=
  if String.eqb p "" then "/" else
  let p := if has_prefix p "/" then p else "/" +:+ p in
  let np := Clean p in
  if has_suffix p "/" && negb (String.eqb np "/") then np +:+ "/" else np.

(** The decoded segments of a path, as the routing tree compares them. *)
Definition path_segments (p : string) : list string :=
  map (fun s => default s (PathUnescape s)) (split "/" (trim_prefix p "/")).

Fixpoint literal_prefix (pat segs : list string) : bool :=
  match pat, segs with
  | [], _ => true
  | a :: pat', b :: segs' => String.eqb a b && literal_prefix pat' segs'
  | _ :: _, [] => false
  end.

(** A pattern ending in a slash matches every path below it, another one only
    itself.  The number is how many literal segments it has. *)
Definition match_pattern (pat : string) (segs : list string) : option nat :=
  let ps := split "/" (trim_prefix pat "/") in
  match rev ps with
  | last :: front =>
      if String.eqb last "" then
        if (length front <? length segs)%nat && literal_prefix (rev front) segs then Some (length front) else None
      else if (length ps =? length segs)%nat && literal_prefix ps segs then Some (length ps) else None
  | [] => None
  end.

(** The most specific pattern wins: the one with the most literal segments. *)
Fixpoint mux_find {A} (table : list (string * A)) (segs : list string) : option (nat * (string * A)) :=
  match table with
  | [] => None
  | (pat, a) :: r =>
      match match_pattern pat segs, mux_find r segs with
      | Some n, Some (m, b) => if (m <=? n)%nat then Some (n, (pat, a)) else Some (m, b)
      | Some n, None => Some (n, (pat, a))
      | None, other => other
      end
  end.

(** [exactMatch]: the pattern is no subtree, or the path is its root. *)
Definition exact_match (pat path : string) : bool :=
  negb (has_suffix pat "/") ||
  (has_suffix path "/" && (length (split "/" pat) =? length (split "/" path))%nat).

Inductive mux_result (A : Type) :=
| MuxHandler (a : A)
| MuxRedirect
| MuxNotFound.
Arguments MuxHandler {A} a.
Arguments MuxRedirect {A}.
Arguments MuxNotFound {A}.

(** [ServeMux.findHandler]: [path] is the path as it was sent.  The path of a CONNECT
    request is not cleaned; it may be empty, and no pattern matches that. *)
Definition mux_serve {A} (table : list (string * A)) (method path : string) : mux_result A :=
  let cleaned := if String.eqb method "CONNECT" then path else cleanPath path in
  let found := if has_prefix cleaned "/" then mux_find table (path_segments cleaned) else None in
  let exact := match found with Some (_, (pat, _)) => exact_match pat cleaned | None => false end in
  let slash := cleaned +:+ "/" in
  if negb exact && negb (has_suffix cleaned "/") &&
     match mux_find table (path_segments slash) with
     | Some (_, (pat, _)) => exact_match pat slash
     | None => false
     end
  then MuxRedirect
  else if negb (String.eqb cleaned path) then MuxRedirect
  else match found with Some (_, (_, a)) => MuxHandler a | None => MuxNotFound end.

Example mux_vectors :
  let t := [("/", 0); ("/api/servers", 1); ("/api/servers/", 2); ("/api/servers/bulk", 3); ("/fastdl/", 4)] in
  mux_serve t "GET" "/index.html" = MuxHandler 0 /\
  mux_serve t "GET" "/api/servers" = MuxHandler 1 /\
  mux_serve t "GET" "/api/servers/" = MuxHandler 2 /\
  mux_serve t "GET" "/api/%73ervers/bulk" = MuxHandler 3 /\
  mux_serve t "GET" "/api/servers/bulk/x" = MuxHandler 2 /\
  mux_serve t "GET" "/fastdl" = MuxRedirect /\
  mux_serve t "GET" "/fastdl/../api/servers/bulk" = MuxRedirect /\
  mux_serve t "GET" "/fastdl/%2e%2e/api/servers/bulk" = MuxHandler 4 /\
  mux_serve t "CONNECT" "/fastdl/../api/servers/bulk" = MuxHandler 4 /\
  mux_serve t "CONNECT" "" = MuxRedirect /\
  mux_serve (tail t) "GET" "/other" = MuxNotFound.
Proof. by vm_compute. Qed.

(** ** Lemmas: escapes *)

Lemma lunescape_slash a : forall b r, lunescape (a ++ "/"%char :: b) = Some r ->
  exists ra rb, lunescape a = Some ra /\ lunescape b = Some rb /\ r = (ra ++ "/"%char :: rb)%list.
Proof.
  induction a as [a IH] using (induction_ltof1 _ (@length ascii)). unfold ltof in IH. intros b r H.
  destruct a as [|c a].
  - cbn in H. destruct (lunescape b) as [rb|]; [|done]. injection H as <-. by exists [], rb.
  - cbn [app lunescape] in *. destruct (Ascii.eqb c "%").
    + destruct a as [|h1 [|h2 a]]; cbn [app lunescape] in H |- *.
      * exfalso. destruct b as [|x b]; [done|]. by cbn in H.
      * exfalso. replace (is_hex "/") with false in H by done. by rewrite andb_false_r in H.
      * destruct (is_hex h1 && is_hex h2); [|done].
        destruct (lunescape (a ++ "/"%char :: b)) as [r0|] eqn:E; [|done]. injection H as <-.
        destruct (IH a ltac:(simpl; lia) b r0 E) as (ra & rb & -> & -> & ->). by eexists _, rb.
    + destruct (lunescape (a ++ "/"%char :: b)) as [r0|] eqn:E; [|done]. injection H as <-.
      destruct (IH a ltac:(simpl; lia) b r0 E) as (ra & rb & -> & -> & ->). by eexists _, rb.
Qed.

(** A decoded path is its decoded segments. *)
Lemma unescape_segments l : forall r, lunescape l = Some r ->
  r = ljoin ["/"%char] (map (fun s => default s (lunescape s)) (lsplit "/" l)).
Proof.
  induction l as [l IH] using (induction_ltof1 _ (@length ascii)). unfold ltof in IH. intros r H.
  destruct (lcut "/" l) as [[a b]|] eqn:E.
  - apply lcut_some in E as [-> Ha]. rewrite lsplit_app by done.
    apply lunescape_slash in H as (ra & rb & H1 & H2 & ->).
    apply IH in H2; [|rewrite length_app; simpl; lia]. rewrite H2.
    cbn [lsplit]. rewrite Ascii.eqb_refl, app_nil_r. cbn [map]. rewrite H1. cbn [default].
     destruct (lsplit "/" b) as [|x y] eqn:Eb; [by apply lsplit_not_nil in Eb|]. done.
  - apply lcut_none in E. rewrite lsplit_no_sep by done. cbn. by rewrite H.
Qed.

Lemma path_unescape_segments p r : PathUnescape p = Some r -> has_prefix p "/" = true ->
  r = "/" +:+ join "/" (path_segments p).
Proof.
  unfold PathUnescape, path_segments. intros H Hp. apply has_prefix_spec in Hp as [t ->].
  rewrite trim_prefix_app. rewrite to_bytes_app in H. change (to_bytes "/") with ["/"%char] in H.
  destruct (lunescape (["/"%char] ++ to_bytes t)) as [rb|] eqn:E; [|done]. injection H as <-.
  cbn in E. destruct (lunescape (to_bytes t)) as [rt|] eqn:Et; [|done]. injection E as <-.
  apply unescape_segments in Et as ->. change (of_bytes ("/"%char :: ?l)) with ("/" +:+ of_bytes l).
  unfold join. f_equal. f_equal. unfold split. rewrite !map_map.
  change (to_bytes "/") with ["/"%char]. f_equal. apply map_ext. intros x. unfold PathUnescape.
  rewrite to_of_bytes. destruct (lunescape x); cbn; by rewrite to_of_bytes.
Qed.

Lemma clean_path_rooted p : has_prefix (cleanPath p) "/" = true.
Proof.
  unfold cleanPath. destruct (String.eqb_spec p ""); [done|].
  set (p' := if has_prefix p "/" then p else "/" +:+ p).
  assert (Hp : IsAbs p' = true).
  { unfold p', IsAbs. destruct (has_prefix p "/") eqn:E; [done|apply has_prefix_app]. }
  apply clean_is_abs in Hp. unfold IsAbs in Hp. apply has_prefix_spec in Hp as [r Hr]. rewrite Hr.
  destruct (_ && _); rewrite ?string_app_assoc; apply has_prefix_app.
Qed.

(** Escaping is undone by unescaping, byte by byte; it keeps slashes apart. *)
Lemma unescape_byte c r : lunescape (escape_byte c ++ r)%list = option_map (cons c) (lunescape r).
Proof.
  unfold escape_byte. destruct (path_char c) eqn:E; cbn [app lunescape].
  - destruct (Ascii.eqb_spec c "%") as [->|]; [done|]. reflexivity.
  - set (h := upper_hex _). set (k := upper_hex _). rewrite Ascii.eqb_refl.
    replace (is_hex h && is_hex k) with true; [replace (chr _) with c; [done|]|]; subst h k; clear E;
      destruct c as [[] [] [] [] [] [] [] []]; by vm_compute.
Qed.

Lemma unescape_escape_bytes l : lunescape (flat_map escape_byte l) = Some l.
Proof. induction l as [|c l IH]; [done|]. cbn [flat_map]. by rewrite unescape_byte, IH. Qed.

Lemma unescape_escape s : PathUnescape (EscapePath s) = Some s.
Proof. unfold PathUnescape, EscapePath. by rewrite to_of_bytes, unescape_escape_bytes; cbn; rewrite of_to_bytes. Qed.

Lemma escape_app s t : EscapePath (s +:+ t) = EscapePath s +:+ EscapePath t.
Proof. unfold EscapePath. by rewrite to_bytes_app, flat_map_app, of_bytes_app. Qed.

Lemma escape_join l : EscapePath (join "/" l) = join "/" (map EscapePath l).
Proof.
  induction l as [|x [|y l] IH]; [done|by cbn [map]; rewrite !join_one|].
  cbn [map] in *. by rewrite !join_cons, !escape_app, IH.
Qed.

Lemma escape_byte_slash c : In "/"%char (escape_byte c) -> c = "/"%char.
Proof. destruct c as [[] [] [] [] [] [] [] []]; vm_compute; intuition congruence. Qed.

Lemma escape_name s : name_ok s -> name_ok (EscapePath s).
Proof.
  assert (Hinj : forall t, EscapePath s = EscapePath t -> s = t).
  { intros t E. apply (f_equal PathUnescape) in E. rewrite !unescape_escape in E. by injection E. }
  intros (H1 & H2 & H3 & H4). split_and!; [intros E; by apply (Hinj "") in E|intros E; by apply (Hinj ".") in E|
    intros E; by apply (Hinj "..") in E|].
  apply contains_byte_false. unfold EscapePath. rewrite to_of_bytes, in_flat_map. intros (c & Hc & Hs).
  apply escape_byte_slash in Hs as ->. unfold no_slash in H4. by apply contains_byte_false in H4.
Qed.

(** A path of names is sent, routed and decoded as these names. *)
Lemma sent_path l : l <> [] -> Forall name_ok l ->
  let p := EscapePath (abs_path l) in
  cleanPath p = p /\ path_segments p = l /\ path_segments (p +:+ "/") = (l ++ [""])%list /\
  PathUnescape p = Some (abs_path l) /\ split "/" p = "" :: map EscapePath l /\ has_suffix p "/" = false.
Proof.
  intros Hne Hn p. unfold p, abs_path. rewrite escape_app, escape_join.
  change (EscapePath "/") with "/". set (m := map EscapePath l).
  assert (Hm : Forall name_ok m) by (apply Forall_map; eapply Forall_impl; [exact Hn|apply escape_name]).
  assert (Hmne : m <> []) by (subst m; by destruct l).
  assert (Hs : split "/" (join "/" m) = m) by (apply split_join_slash; [done|by apply Forall_name_no_slash]).
  assert (Hback : map (fun s => default s (PathUnescape s)) m = l).
  { subst m. rewrite map_map. rewrite <- (map_id l) at 2. apply map_ext. intros s. by rewrite unescape_escape. }
  assert (Hsuf : has_suffix ("/" +:+ join "/" m) "/" = false).
  { destruct (has_suffix _ _) eqn:E; [exfalso|done]. apply has_suffix_spec in E as [r Hr].
    apply (f_equal (split "/")) in Hr. rewrite split_slash, Hs in Hr.
    replace (r +:+ "/") with (r +:+ "/" +:+ "") in Hr by by rewrite string_app_nil_r.
    rewrite split_app_slash in Hr. change (split "/" "") with [""] in Hr.
    destruct (split "/" r) as [|x t] eqn:Er; [by apply split_not_nil in Er|]. injection Hr as _ Hr. rewrite Hr in Hm.
    apply Forall_app in Hm as [_ Hm]. inversion Hm as [|? ? (Hx & _)]; done. }
  split_and!; [| | | | |done].
  - unfold cleanPath. change (String.eqb ("/" +:+ join "/" m) "") with false.
    change (has_prefix ("/" +:+ join "/" m) "/") with true. cbn [andb].
    rewrite clean_abs by reflexivity. rewrite elements_abs by exact Hm. rewrite Hsuf. done.
  - unfold path_segments. by rewrite trim_prefix_app, Hs.
  - unfold path_segments. rewrite string_app_assoc, trim_prefix_app.
    replace (join "/" m +:+ "/") with (join "/" m +:+ "/" +:+ "") by by rewrite string_app_nil_r.
    rewrite split_app_slash, Hs, map_app, Hback. done.
  - change ("/" +:+ join "/" m) with (EscapePath "/" +:+ join "/" m). unfold m.
    rewrite <- escape_join, <- escape_app. apply unescape_escape.
  - by rewrite split_slash, Hs.
Qed.

(** ** Lemmas: routing *)

Lemma mux_find_in {A} (table : list (string * A)) segs n pat a :
  mux_find table segs = Some (n, (pat, a)) -> In (pat, a) table /\ match_pattern pat segs = Some n.
Proof.
  revert n pat a. induction table as [|[p b] r IH]; intros n pat a H; [done|]. cbn [mux_find] in H.
  destruct (match_pattern p segs) as [k|] eqn:Ek.
  - destruct (mux_find r segs) as [[m [p' b']]|] eqn:Er.
    + destruct (m <=? k)%nat; injection H as <- <- <-; [split; [by left|done]|].
      destruct (IH _ _ _ eq_refl). split; [by right|done].
    + injection H as <- <- <-. split; [by left|done].
  - destruct (IH _ _ _ H). split; [by right|done].
Qed.

Lemma mux_serve_handler {A} (table : list (string * A)) method path a :
  mux_serve table method path = MuxHandler a ->
  has_prefix path "/" = true /\ exists n pat, mux_find table (path_segments path) = Some (n, (pat, a)).
Proof.
  unfold mux_serve. set (cleaned := if String.eqb method "CONNECT" then path else cleanPath path).
  destruct (_ && _); [done|]. destruct (String.eqb_spec cleaned path) as [E|]; [|done].
  cbn [negb]. rewrite E. destruct (has_prefix path "/"); [|done]. intros H. split; [done|].
  destruct (mux_find table (path_segments path)) as [[n [pat b]]|] eqn:Ef; [|done].
  injection H as ->. by eexists _, _.
Qed.

Lemma literal_prefix_spec pat segs : literal_prefix pat segs = true <-> exists r, segs = (pat ++ r)%list.
Proof.
  revert segs. induction pat as [|a pat IH]; intros segs; cbn [literal_prefix].
  - split; [by exists segs|done].
  - destruct segs as [|b segs]; [split; [done|by intros [r [=]]]|]. rewrite andb_true_iff, String.eqb_eq, IH. split.
    + intros [-> [r ->]]. by exists r.
    + intros [r [= -> ->]]. split; [done|by exists r].
Qed.

(** A pattern that starts with two elements matches only paths that do. *)
Lemma match_pattern_first pat segs n e x r :
  split "/" (trim_prefix pat "/") = e :: x :: r -> x <> "" -> match_pattern pat segs = Some n ->
  exists t, segs = e :: x :: t.
Proof.
  unfold match_pattern. intros -> Hx H. destruct (rev (e :: x :: r)) as [|last front] eqn:Er; [done|].
  apply (f_equal (@rev string)) in Er. rewrite rev_involutive in Er. cbn [rev] in Er.
  destruct (String.eqb_spec last "") as [->|].
  - destruct (_ && _) eqn:E; [|done]. apply andb_true_iff in E as [_ [t ->]%literal_prefix_spec].
    destruct (rev front) as [|a [|b l]]; cbn [app] in Er; injection Er; [done|congruence|].
    intros _ -> ->. by exists (l ++ t)%list.
  - destruct (_ && _) eqn:E; [|done]. apply andb_true_iff in E as [_ [t ->]%literal_prefix_spec]. by eexists.
Qed.
