(* ===== verification/Http.v ===== *)
(** * The HTTP server: who may do what (main.go)

    Every request passes the origin and CSRF checks, the router and the guard of its
    route; requests for a server are checked against the table of server routes and,
    for a server on a node, forwarded through its tunnel.  A node (agent mode) has a
    route table of its own, with an access class per method.  This file models that
    path up to the call of the operation, and what is done to the answer of a node.
    Decoded JSON bodies, the tunnel and the state of the hub are inputs. *)

From Stdlib Require Import ZArith Lia Bool String Ascii List.
From stdpp Require Import base gmap strings list.
From S2P Require Import Prelude GoStrings Crypto Validate Authz Paths GoHttp Passwords Auth.

(** [net/url.Parse]: the host of a URL, [None] when it does not parse. *)
Class UrlParser := { url_host : string -> option string }.

(** ** Requests *)

(** What the code reads of a request.  [q_escaped] is the path as it was sent; a
    header that is missing is the empty string. *)
Record request := mkRequest {
  q_method : string; q_escaped : string; q_host : string;
  q_origin : string; q_referer : string;
  q_cookie : option string; (** the session cookie *)
  q_csrf : string; (** X-CSRF-Token *)
  q_actor : string }. (** X-LGSM-Actor *)

(** [r.URL.Path] *)
Definition q_path (q : request) : string := default "" (PathUnescape (q_escaped q)).

Inductive outcome :=
| Status (code : Z) (** answered without running a handler *)
| Redirected
| Runs (handler : string) (user : option User) (sid : string).

(** ** Middleware *)

Definition isUnsafeMethod (m : string) : bool := negb (mem m ["GET"; "HEAD"; "OPTIONS"]).

(** The folding of [strings.EqualFold], exact when one side is ASCII: besides the
    upper case letters, U+017F folds to s and U+212A to k. *)
Fixpoint fold_bytes (l : bytes) : bytes :=
  match l with
  | [] => []
  | a :: t =>
      let rest := (if is_upper a then chr (code a + 32) else a) :: fold_bytes t in
      match t with
      | b :: r =>
          if (code a =? 0xC5) && (code b =? 0xBF) then "s"%char :: fold_bytes r
          else match r with
               | c :: r' => if (code a =? 0xE2) && (code b =? 0x84) && (code c =? 0xAA)
                            then "k"%char :: fold_bytes r' else rest
               | [] => rest
               end
      | [] => rest
      end
  end.
Definition EqualFold (s t : string) : bool :=
  String.eqb (of_bytes (fold_bytes (to_bytes s))) (of_bytes (fold_bytes (to_bytes t))).

Section Server.
Context `{UrlParser}.

(** [sameOrigin].  The server only takes ASCII host headers. *)
Definition sameOrigin (q : request) : bool :=
  let same raw :=
    match url_host raw with
    | None => false
    | Some h => negb (String.eqb h "") && EqualFold h (q_host q)
    end in
  if negb (String.eqb (q_origin q) "") then
    if String.eqb (q_origin q) "null" then false else same (q_origin q)
  else if negb (String.eqb (q_referer q) "") then same (q_referer q)
  else true.

(** [csrfProtect]: [None] passes the request on. *)
Definition csrfProtect (now : Z) (q : request) (am : AuthManager) : option Z * AuthManager :=
  if negb (isUnsafeMethod (q_method q)) || negb (has_prefix (q_path q) "/api/") then (None, am)
  else if negb (sameOrigin q) then (Some 403, am)
  else if String.eqb (q_path q) "/api/auth/login" || String.eqb (q_path q) "/api/auth/login/2fa" then (None, am)
  else match q_cookie q with
       | None => (None, am)
       | Some sid =>
           if negb (ValidateCSRF sid (q_csrf q) am) then
             let '(valid, am) := IsValidSession now sid am in
             if negb valid then (None, am) else (Some 403, am)
           else (None, am)
       end.

(** [currentUser] of the dashboard and of a node. *)
Definition currentUser (now : Z) (q : request) (am : AuthManager) : option (User * string) * AuthManager :=
  match q_cookie q with
  | None => (None, am)
  | Some sid =>
      let '(s, am) := GetSession now sid am in
      match s with
      | None => (None, am)
      | Some s => (match GetUser am (s_Username s) with Some u => Some (u, sid) | None => None end, am)
      end
  end.
Definition agent_user (q : request) : User :=
  let actor := if isValidUsername (q_actor q) then q_actor q else "unknown" in
  mkUser ("controller:" +:+ actor) "" RoleAdmin [] [] [] false "" 0 [] "".

(** ** Routes of the dashboard *)

Inductive guard := Public | RequireAuth | RequireAdmin.
Record route := mkRoute { r_method : option string; r_guard : guard; r_handler : string }.

(** [routes], without the embedded user interface when there is none. *)
Definition routes (ui : bool) : list (string * route) :=
  ((if ui then [("/", mkRoute None Public "FileServer")] else []) ++
  [("/api/auth/login", mkRoute (Some "POST") Public "handleLogin");
   ("/api/auth/login/2fa", mkRoute (Some "POST") Public "handleLoginSecondFactor");
   ("/api/account/2fa", mkRoute (Some "GET") RequireAuth "handleTwoFactorStatus");
   ("/api/account/2fa/setup", mkRoute (Some "POST") RequireAuth "handleTwoFactorSetup");
   ("/api/account/2fa/enable", mkRoute (Some "POST") RequireAuth "handleTwoFactorEnable");
   ("/api/account/2fa/disable", mkRoute (Some "POST") RequireAuth "handleTwoFactorDisable");
   ("/api/account/2fa/recovery-codes", mkRoute (Some "POST") RequireAuth "handleTwoFactorRecoveryCodes");
   ("/api/admin/users/2fa-reset", mkRoute (Some "POST") RequireAdmin "handleTwoFactorReset");
   ("/api/auth/logout", mkRoute (Some "POST") Public "handleLogout");
   ("/api/servers", mkRoute (Some "GET") RequireAuth "handleListServers");
   ("/api/servers/bulk", mkRoute (Some "POST") RequireAuth "handleBulk");
   ("/api/servers/", mkRoute None RequireAuth "handleServer");
   ("/api/system/stats", mkRoute (Some "GET") RequireAuth "handleStats");
   ("/api/system/info", mkRoute (Some "GET") RequireAuth "handleInfo");
   ("/api/system/firewall", mkRoute (Some "GET") RequireAdmin "handleFirewallStatus");
   ("/api/system/firewall/open", mkRoute (Some "POST") RequireAdmin "handleFirewallOpen");
   ("/api/system/audit", mkRoute (Some "GET") RequireAdmin "handleAudit");
   ("/api/settings/password", mkRoute (Some "POST") RequireAuth "handleChangePassword");
   ("/api/games/install", mkRoute (Some "POST") RequireAdmin "handleInstall");
   ("/api/games/list", mkRoute (Some "GET") RequireAuth "handleGamesList");
   ("/api/games/sync", mkRoute (Some "POST") RequireAdmin "handleGamesSync");
   ("/api/games/sync/status", mkRoute (Some "GET") RequireAdmin "handleGamesSyncStatus");
   ("/api/games/icon/", mkRoute None Public "handleGameIcon");
   ("/api/admin/users", mkRoute None RequireAdmin "handleUsers");
   ("/api/admin/server-paths", mkRoute None RequireAdmin "handleServerPaths");
   ("/api/admin/timezone", mkRoute None RequireAdmin "handleTimeZone");
   ("/api/admin/update/check", mkRoute (Some "GET") RequireAdmin "handleUpdateCheck");
   ("/api/admin/release-notes", mkRoute None RequireAdmin "handleReleaseNotes");
   ("/api/admin/update/trigger", mkRoute (Some "POST") RequireAdmin "handleUpdateTrigger");
   ("/api/admin/proxy", mkRoute None RequireAdmin "handleProxy");
   ("/api/admin/proxy/forwards", mkRoute (Some "PUT") RequireAdmin "handleProxyForwards");
   ("/api/admin/proxy/egress", mkRoute (Some "PUT") RequireAdmin "handleProxyEgress");
   ("/api/admin/nodes", mkRoute None RequireAdmin "handleNodes");
   ("/api/admin/nodes/update", mkRoute (Some "POST") RequireAdmin "handleNodeUpdate");
   ("/api/admin/nodes/delete", mkRoute (Some "POST") RequireAdmin "handleNodeDelete");
   ("/api/admin/nodes/upgrade", mkRoute (Some "POST") RequireAdmin "handleNodeUpgrade");
   ("/agent/connect", mkRoute (Some "GET") Public "handleAgentConnect");
   ("/fastdl/", mkRoute None Public "handleFastDL")])%list.

(** [methodOnly] around [requireAuth] or [requireAdmin] around the handler. *)
Definition run_route (now : Z) (q : request) (r : route) (am : AuthManager) : outcome * AuthManager :=
  if match r_method r with Some m => negb (String.eqb (q_method q) m) | None => false end
  then (Status 405, am) else
  match r_guard r with
  | Public => (Runs (r_handler r) None "", am)
  | g =>
      let '(cur, am) := currentUser now q am in
      match cur with
      | None => (Status 401, am)
      | Some (u, sid) =>
          match g with
          | RequireAdmin => if negb (IsAdmin u) then (Status 403, am) else (Runs (r_handler r) (Some u) sid, am)
          | _ => (Runs (r_handler r) (Some u) sid, am)
          end
      end
  end.

(** A request to the dashboard.  The server of net/http answers 400 to a path that
    does not decode. *)
Definition serve (ui : bool) (now : Z) (q : request) (am : AuthManager) : outcome * AuthManager :=
  match PathUnescape (q_escaped q) with None => (Status 400, am) | Some _ =>
  match csrfProtect now q am with
  | (Some code, am) => (Status code, am)
  | (None, am) =>
      match mux_serve (routes ui) (q_method q) (q_escaped q) with
      | MuxHandler r => run_route now q r am
      | MuxRedirect => (Redirected, am)
      | MuxNotFound => (Status 404, am)
      end
  end end.

End Server.

(** ** Lemmas: routes of the dashboard *)

(** What runs without a login, and what every signed-in user may call. *)
Definition public_handlers : list string :=
  ["FileServer"; "handleLogin"; "handleLoginSecondFactor"; "handleLogout"; "handleGameIcon";
   "handleAgentConnect"; "handleFastDL"].
Definition user_handlers : list string :=
  ["handleTwoFactorStatus"; "handleTwoFactorSetup"; "handleTwoFactorEnable"; "handleTwoFactorDisable";
   "handleTwoFactorRecoveryCodes"; "handleListServers"; "handleBulk"; "handleServer"; "handleStats";
   "handleInfo"; "handleChangePassword"; "handleGamesList"].

Definition login_paths : list string := ["/api/auth/login"; "/api/auth/login/2fa"].

(** Of every entry of the table: public handlers are listed above; the others are
    below /api/ and away from the login paths, and for administrators or listed. *)
Definition route_ok (e : string * route) : bool :=
  match r_guard e.2 with
  | Public => mem (r_handler e.2) public_handlers
  | g =>
      (match g with RequireAdmin => true | _ => mem (r_handler e.2) user_handlers end) &&
      match split "/" (trim_prefix e.1 "/") with
      | a :: x :: _ => String.eqb a "api" && negb (String.eqb x "") &&
                       forallb (fun p => negb (has_prefix p ("/api/" +:+ x))) login_paths
      | _ => false
      end
  end.

Lemma routes_ok ui : forallb route_ok (routes ui) = true.
Proof. destruct ui; by vm_compute. Qed.

Lemma matched_route ui m esc r : mux_serve (routes ui) m esc = MuxHandler r ->
  exists pat, route_ok (pat, r) = true /\ has_prefix esc "/" = true /\
              exists n, match_pattern pat (path_segments esc) = Some n.
Proof.
  intros (Hp & n & pat & H)%mux_serve_handler. apply mux_find_in in H as [Hin Hm].
  exists pat. split_and!; [|done|by exists n]. pose proof (routes_ok ui) as Hok.
  rewrite forallb_forall in Hok. by apply Hok.
Qed.

(** The path of a guarded route passes the CSRF check. *)
Lemma guarded_path ui m esc r p :
  mux_serve (routes ui) m esc = MuxHandler r -> r_guard r <> Public -> PathUnescape esc = Some p ->
  has_prefix p "/api/" = true /\ ~ In p login_paths.
Proof.
  intros (pat & Hok & Hp & n & Hm)%matched_route Hg Hu. unfold route_ok in Hok. cbn [fst snd] in Hok.
  assert (Hpat : exists x t, split "/" (trim_prefix pat "/") = "api" :: x :: t /\ x <> "" /\
                   forall q, In q login_paths -> has_prefix q ("/api/" +:+ x) = false).
  { destruct (r_guard r); [done|..]; apply andb_true_iff in Hok as [_ Hok];
      (destruct (split "/" (trim_prefix pat "/")) as [|a [|x t]]; [done|done|]);
      apply andb_true_iff in Hok as [[Ha Hx]%andb_true_iff Hf]; apply String.eqb_eq in Ha as ->;
      exists x, t; (split_and!; [done|by apply negb_true_iff, String.eqb_neq in Hx|]);
      intros q Hq; rewrite forallb_forall in Hf; apply negb_true_iff; by apply Hf. }
  destruct Hpat as (x & t & Hs & Hx & Hl). destruct (match_pattern_first _ _ _ _ _ _ Hs Hx Hm) as [segs Hsegs].
  apply path_unescape_segments in Hu; [|done]. rewrite Hsegs in Hu.
  assert (Hpx : exists r', p = ("/api/" +:+ x) +:+ r').
  { rewrite Hu, join_cons. destruct segs as [|s segs].
    - exists "". by rewrite join_one, string_app_nil_r.
    - rewrite join_cons. eexists. rewrite (string_app_assoc "/api/" x). reflexivity. }
  destruct Hpx as [r' ->]. split; [rewrite string_app_assoc; apply has_prefix_app|].
  intros Hq%Hl. by rewrite has_prefix_app in Hq.
Qed.

(** ** The session of a request *)

Section Sessions.
Context `{UrlParser}.

(** The session [sid] is alive and belongs to the user [u]. *)
Definition signed_in (now : Z) (am : AuthManager) (sid : string) (u : User) : Prop :=
  sid <> "" /\ exists s, sessions am !! sid = Some s /\ session_over now s = false /\
                         GetUser am (s_Username s) = Some u.

Lemma get_session_users now sid am s am' :
  GetSession now sid am = (s, am') -> config am' = config am.
Proof.
  unfold GetSession. destruct (String.eqb sid ""); [by intros [= _ <-]|].
  destruct (sessions am !! sid) as [t|]; [|by intros [= _ <-]].
  destruct (session_over now t); by intros [= _ <-].
Qed.

Lemma current_user_signed_in now q am u sid am' :
  currentUser now q am = (Some (u, sid), am') -> q_cookie q = Some sid /\ signed_in now am sid u.
Proof.
  unfold currentUser. destruct (q_cookie q) as [c|]; [|done].
  destruct (GetSession now c am) as [s am1] eqn:E. pose proof (get_session_users _ _ _ _ _ E) as Hc.
  destruct s as [s|]; [|done]. unfold GetUser, users. rewrite Hc. fold (users am). fold (GetUser am (s_Username s)).
  destruct (GetUser am (s_Username s)) as [u'|] eqn:Eu; [|done]. intros [= -> -> _]. split; [done|].
  unfold GetSession in E. destruct (String.eqb_spec sid ""); [done|]. split; [done|].
  destruct (sessions am !! sid) as [t|]; [|done]. exists t.
  destruct (session_over now t) eqn:Eo; [done|]. injection E as <- _. done.
Qed.

(** A dead session stays dead: once [GetSession] refused it, nobody is signed in. *)
Lemma get_session_none now sid am am' :
  GetSession now sid am = (None, am') -> forall q u s2 am2,
  q_cookie q = Some sid -> currentUser now q am' <> (Some (u, s2), am2).
Proof.
  intros E q u s2 am2 Hq Hu. apply current_user_signed_in in Hu as [Hc (Hne & s & Hs & Ho & _)].
  rewrite Hq in Hc. injection Hc as <-. unfold GetSession in E.
  destruct (String.eqb_spec sid ""); [done|]. destruct (sessions am !! sid) as [t|] eqn:Et.
  - destruct (session_over now t) eqn:Eo; [|done]. injection E as <-. cbn in Hs.
    by rewrite lookup_delete_eq in Hs.
  - injection E as <-. congruence.
Qed.

(** What a passed CSRF check means for a request below /api/ with a cookie. *)
Lemma csrf_passed now q am am1 sid : csrfProtect now q am = (None, am1) ->
  has_prefix (q_path q) "/api/" = true -> ~ In (q_path q) login_paths -> q_cookie q = Some sid ->
  (am1 = am /\ (isUnsafeMethod (q_method q) = true -> sameOrigin q = true /\ ValidateCSRF sid (q_csrf q) am = true)) \/
  GetSession now sid am = (None, am1).
Proof.
  unfold csrfProtect. intros Hc Hp Hl Hq. rewrite Hp, orb_false_r in Hc.
  destruct (isUnsafeMethod (q_method q)); cbn [negb] in Hc; [|injection Hc as <-; by left].
  destruct (sameOrigin q); cbn [negb] in Hc; [|done].
  destruct (String.eqb_spec (q_path q) "/api/auth/login") as [E|]; [exfalso; apply Hl; rewrite E; by left|].
  destruct (String.eqb_spec (q_path q) "/api/auth/login/2fa") as [E|];
    [exfalso; apply Hl; rewrite E; by right; left|].
  cbn [orb] in Hc. rewrite Hq in Hc. destruct (ValidateCSRF sid (q_csrf q) am); cbn [negb] in Hc.
  - injection Hc as <-. left. split; done.
  - right. unfold IsValidSession in Hc. destruct (GetSession now sid am) as [[s|] am2]; cbn in Hc; [done|].
    by injection Hc as <-.
Qed.

(** C34: nothing but the public handlers runs without a session.  Any other handler
    runs only for the user of a session that is alive, only for an administrator
    unless it is one every user may call, and for a state-changing method only with
    the CSRF token of that session and from the dashboard's own origin; for every path
    a client can send, however it is escaped. *)
Theorem api_requires_session ui now q am name user sid am' :
  serve ui now q am = (Runs name user sid, am') ->
  (In name public_handlers /\ user = None) \/
  (exists u, user = Some u /\ q_cookie q = Some sid /\ signed_in now am sid u /\
             (~ In name user_handlers -> IsAdmin u = true) /\
             (isUnsafeMethod (q_method q) = true ->
                sameOrigin q = true /\ ValidateCSRF sid (q_csrf q) am = true)).
Proof.
  unfold serve. destruct (PathUnescape (q_escaped q)) as [p|] eqn:Hp; [|done].
  destruct (csrfProtect now q am) as [[code|] am1] eqn:Hc; [done|].
  destruct (mux_serve (routes ui) (q_method q) (q_escaped q)) as [r| |] eqn:Hm; [|done|done].
  unfold run_route. destruct (match r_method r with Some m => _ | None => _ end); [done|].
  destruct (matched_route _ _ _ _ Hm) as (pat & Hok & _). unfold route_ok in Hok. cbn [snd] in Hok.
  assert (Hpath : r_guard r <> Public -> has_prefix (q_path q) "/api/" = true /\ ~ In (q_path q) login_paths).
  { intros Hg. unfold q_path. rewrite Hp. by apply (guarded_path ui (q_method q) (q_escaped q) r). }
  assert (Hguard : forall u s am2, r_guard r <> Public -> currentUser now q am1 = (Some (u, s), am2) ->
    q_cookie q = Some s /\ signed_in now am s u /\
    (isUnsafeMethod (q_method q) = true -> sameOrigin q = true /\ ValidateCSRF s (q_csrf q) am = true)).
  { intros u s am2 Hg Hu. destruct (Hpath Hg) as [Hp1 Hp2].
    destruct (current_user_signed_in _ _ _ _ _ _ Hu) as [Hq _].
    destruct (csrf_passed _ _ _ _ _ Hc Hp1 Hp2 Hq) as [[-> Hcs]|Hd].
    - split_and!; [done|by apply current_user_signed_in in Hu as [_ ?]|done].
    - exfalso. eapply get_session_none; [exact Hd|exact Hq|exact Hu]. }
  destruct (r_guard r) eqn:Hg.
  - intros [= <- <- <- <-]. left. split; [by apply mem_true|done].
  - destruct (currentUser now q am1) as [[[u s]|] am2] eqn:Hu; [|done]. intros [= <- <- <- <-]. right.
    destruct (Hguard u s am2) as (H1 & H2 & H3); [done|done|]. exists u. split_and!; try done.
    intros Hn. apply andb_true_iff in Hok as [Hok _]. by apply mem_true in Hok.
  - destruct (currentUser now q am1) as [[[u s]|] am2] eqn:Hu; [|done].
    destruct (IsAdmin u) eqn:Ha; [|done]. cbn [negb]. intros [= <- <- <- <-]. right.
    destruct (Hguard u s am2) as (H1 & H2 & H3); [done|done|]. by exists u.
Qed.

End Sessions.

#[local] Instance no_urls : UrlParser := { url_host := fun _ => None }.

Definition demo_session : Session := mkSession "anna" (ns_hour) 0 "token".
Definition demo_admin : User := mkUser "anna" "" RoleAdmin [] [] [] false "" 0 [] "".
Definition demo_manager : AuthManager :=
  mkAM false (mkConfig [demo_admin] 0) {["s1" := demo_session]} ∅ ∅ None.
Definition demo_request (token : string) : request :=
  mkRequest "POST" "/api/admin/%6eodes" "host" "" "" (Some "s1") token "".

Lemma api_requires_session_witness :
  exists u, Some demo_admin = Some u /\ Some "s1" = Some "s1" /\ signed_in 0 demo_manager "s1" u.
Proof.
  destruct (api_requires_session true 0 (demo_request "token") demo_manager "handleNodes" (Some demo_admin) "s1" _ eq_refl)
    as [[_ H]|(u & H1 & H2 & H3 & _)]; [discriminate H|]. exists u. split; [exact H1|]. split; [reflexivity|exact H3].
Defined.

(** Without the token the same request is refused. *)
Example wrong_csrf_token : fst (serve true 0 (demo_request "other") demo_manager) = Status 403 /\
  fst (serve true 0 (mkRequest "POST" "/api/admin/nodes" "host" "" "" None "" "") demo_manager) = Status 401.
Proof. by vm_compute. Qed.
