(* ===== verification/ServerApi.v ===== *)
(** * Requests for servers, nodes and downloads (main.go)

    The table of server routes and [handleServer], [runAction], [handleBulk]; the way
    of a request to a node ([handleNodeServer], [forwardToNode]); the API a node serves
    on its tunnel, with its access mode; and FastDL.  Decoded bodies, the servers that
    exist and the state of the nodes are inputs; an outcome names the operation that
    is called, which is as far as the decision goes. *)

From Stdlib Require Import ZArith Lia Bool String Ascii List.
From stdpp Require Import base gmap strings list.
From S2P Require Import Prelude GoStrings Crypto Validate Authz Paths GoHttp.

(** ** The table of server routes *)

Record routePolicy := mkPolicy { perm : string; access : string }.
Definition permByAction : string := "by-action".

Definition serverRoutes : list (string * routePolicy) :=
  [("delete POST", mkPolicy PermAdmin AccessWrite);
   ("portcheck GET", mkPolicy PermView AccessRead);
   ("action POST", mkPolicy permByAction AccessByAction);
   ("console GET", mkPolicy PermConsole AccessRead);
   ("console/send POST", mkPolicy PermConsole AccessWrite);
   ("rcon POST", mkPolicy PermConsole AccessWrite);
   ("configs GET", mkPolicy PermConfig AccessRead);
   ("configs/file GET", mkPolicy PermConfig AccessRead);
   ("configs/file POST", mkPolicy PermConfig AccessWrite);
   ("tag POST", mkPolicy PermAdmin AccessWrite);
   ("cron GET", mkPolicy PermView AccessRead);
   ("cron POST", mkPolicy PermSchedule AccessWrite);
   ("cron/install POST", mkPolicy PermAdmin AccessWrite);
   ("backups GET", mkPolicy PermBackup AccessRead);
   ("backups/delete POST", mkPolicy PermBackup AccessWrite);
   ("backups/upload POST", mkPolicy PermBackup AccessWrite);
   ("backups/download GET", mkPolicy PermBackup AccessRead);
   ("backups/restore POST", mkPolicy PermBackup AccessWrite);
   ("backups/settings GET", mkPolicy PermBackup AccessRead);
   ("backups/settings POST", mkPolicy PermBackup AccessWrite);
   ("alerts GET", mkPolicy PermAlerts AccessRead);
   ("alerts POST", mkPolicy PermAlerts AccessWrite);
   ("systemd/install POST", mkPolicy PermAdmin AccessWrite);
   ("files GET", mkPolicy PermFiles AccessRead);
   ("files POST", mkPolicy PermFiles AccessWrite);
   ("files/download GET", mkPolicy PermFiles AccessRead);
   ("files/content GET", mkPolicy PermFiles AccessRead);
   ("files/upload POST", mkPolicy PermFiles AccessWrite);
   ("mods GET", mkPolicy PermView AccessRead);
   ("mods/available GET", mkPolicy PermAdmin AccessRead);
   ("stopmode GET", mkPolicy PermView AccessRead);
   ("stopmode POST", mkPolicy PermAdmin AccessWrite);
   ("clone POST", mkPolicy PermAdmin AccessWrite);
   ("cloudbackup/settings GET", mkPolicy PermBackup AccessRead);
   ("cloudbackup/settings POST", mkPolicy PermAdmin AccessWrite);
   ("cloudbackup/sync POST", mkPolicy PermBackup AccessWrite);
   ("fastdl GET", mkPolicy PermView AccessRead);
   ("fastdl POST", mkPolicy PermAdmin AccessWrite)].

Fixpoint assoc {A} (k : string) (l : list (string * A)) : option A :=
  match l with
  | [] => None
  | (k', a) :: r => if String.eqb k' k then Some a else assoc k r
  end.

(** The policy, or the status of the answer. *)
Definition serverRoutePermission (route method : string) : result Z routePolicy :=
  match assoc (route +:+ " " +:+ method) serverRoutes with
  | Some p => Ok p
  | None => if existsb (fun e => has_prefix e.1 (route +:+ " ")) serverRoutes then Err 405 else Err 404
  end.

(** ** State the handlers read *)

Record AgentPolicy := mkAgentPolicy {
  pol_Mode : string; pol_Servers : list string; pol_AllowFirewall : bool;
  pol_AllowSelfUpdate : bool; pol_DenyProxy : bool }.

(** The live state of a node: its tunnel, and what [Hub.Status] says. *)
Record nodeState := mkNodeState {
  ns_tunnel : bool; ns_Online : bool; ns_Compatible : bool; ns_EffectiveMode : string }.

Record app := mkApp {
  agentMode : bool;
  policy : AgentPolicy;
  localExists : string -> bool; (** InstanceManager.ServerExists *)
  nodeServer : string -> bool; (** Hub.NodeServer *)
  nodeStatus : string -> nodeState;
  slotFree : string -> string -> bool; (** nodeRequestLimiter.acquire *)
  proxyHost : bool; (** not in Docker mode *)
  fastDLMode : string -> string }.

Definition serverExists (a : app) (serverID : string) : bool :=
  let '(node, _) := SplitServerID serverID in
  if String.eqb node "" then localExists a serverID else nodeServer a serverID.

Definition agentAllows (a : app) (class : string) : bool := AgentModeAllows (pol_Mode (policy a)) class.
Definition policyAllowsServer (a : app) (serverID : string) : bool :=
  match pol_Servers (policy a) with [] => true | l => mem serverID l end.

Definition authz_status (e : authz_error) : Z :=
  match e with ErrUnauthenticated => 401 | ErrServerNotFound => 404 | ErrForbidden => 403 end.

(** ** Server scoped requests *)

Inductive server_outcome :=
| SStatus (code : Z) (** answered without doing anything *)
| SRun (route id : string) (** a branch of the switch in [handleServer] *)
| SAction (action id : string) (** [RunAction] *)
| STag (id : string) (** [SetNodeServerTag] *)
| SForward (node path : string). (** [forwardToNode] *)

(** [body] is the action in the decoded body, [None] when it does not decode. *)
Definition runAction (a : app) (user : User) (serverID : string) (body : option string) : server_outcome :=
  match body with
  | None => SStatus 400
  | Some action =>
      match ActionPermission action with
      | None => SStatus 400
      | Some p =>
          match AuthorizeServerAction (Some user) serverID p None with
          | Some e => SStatus (authz_status e)
          | None => if agentMode a && negb (agentAllows a (ActionAccess action)) then SStatus 403
                    else SAction action serverID
          end
      end
  end.

(** [handleNodeServer], with [nodeTunnel]. *)
Definition handleNodeServer (a : app) (user : User) (serverID route : string) (p : routePolicy) (body : option string)
  : server_outcome :=
  let '(nodeID, localID) := SplitServerID serverID in
  if String.eqb route "tag" then match body with None => SStatus 400 | Some _ => STag serverID end else
  let st := nodeStatus a nodeID in
  if negb (ns_tunnel st) || negb (ns_Online st) then SStatus 503 else
  if negb (ns_Compatible st) then SStatus 409 else
  let forward class :=
    if negb (AgentModeAllows (ns_EffectiveMode st) class) then SStatus 403
    else if negb (slotFree a nodeID (u_Username user)) then SStatus 429
    else SForward nodeID ("/api/servers/" +:+ localID +:+ "/" +:+ route) in
  if String.eqb (access p) AccessByAction then
    match body with
    | None => SStatus 400
    | Some action =>
        match ActionPermission action with
        | None => SStatus 400
        | Some perm =>
            match AuthorizeServerAction (Some user) serverID perm None with
            | Some e => SStatus (authz_status e)
            | None => forward (ActionAccess action)
            end
        end
    end
  else forward (access p).

(** The routes that have a branch in the switch. *)
Definition switch_routes : list string :=
  ["delete"; "portcheck"; "action"; "console"; "console/send"; "rcon"; "configs"; "configs/file"; "tag"; "cron";
   "cron/install"; "systemd/install"; "backups"; "backups/delete"; "backups/upload"; "backups/download";
   "backups/restore"; "backups/settings"; "alerts"; "files"; "files/download"; "files/content"; "files/upload";
   "mods"; "mods/available"; "stopmode"; "clone"; "cloudbackup/settings"; "cloudbackup/sync"; "fastdl"].

(** The part of [handleServer] after the path is split. *)
Definition handle_server_route (a : app) (user : User) (serverID route method : string) (body : option string)
  : server_outcome :=
  match serverRoutePermission route method with
  | Err code => SStatus code
  | Ok p =>
      let authPerm := if String.eqb (perm p) permByAction then PermView else perm p in
      if agentMode a && negb (policyAllowsServer a serverID) then SStatus 404 else
      let '(node, _) := SplitServerID serverID in
      if negb (String.eqb node "") then
        if agentMode a then SStatus 404 else
        match AuthorizeServerAction (Some user) serverID authPerm (Some (serverExists a)) with
        | Some e => SStatus (authz_status e)
        | None => handleNodeServer a user serverID route p body
        end
      else
        match AuthorizeServerAction (Some user) serverID authPerm (Some (localExists a)) with
        | Some e => SStatus (authz_status e)
        | None =>
            if agentMode a && negb (String.eqb (access p) AccessByAction) && negb (agentAllows a (access p))
            then SStatus 403
            else if String.eqb route "action" then runAction a user serverID body
            else if mem route switch_routes then SRun route serverID else SStatus 404
        end
  end.

Definition handleServer (a : app) (user : User) (path method : string) (body : option string) : server_outcome :=
  match split "/" (trim path "/") with
  | [_; _; id; r] => handle_server_route a user id r method body
  | [_; _; id; r; sub] => handle_server_route a user id (r +:+ "/" +:+ sub) method body
  | _ => SStatus 404
  end.

(** ** Bulk actions *)

Definition maxBulkServers : Z := 100.

Inductive bulk_outcome :=
| BStatus (code : Z)
| BRun (action : string) (ids : list string).

(** The loop that authorizes every server before anything runs; IDs that were seen
    are skipped. *)
Fixpoint authorize_all (a : app) (user : User) (p : string) (ids seen : list string) : result Z (list string) :=
  match ids with
  | [] => Ok []
  | id :: r =>
      if mem id seen then authorize_all a user p r seen else
      match AuthorizeServerAction (Some user) id p (Some (serverExists a)) with
      | Some e => Err (authz_status e)
      | None =>
          match authorize_all a user p r (id :: seen) with
          | Ok l => Ok (id :: l)
          | Err e => Err e
          end
      end
  end.

Definition handleBulk (a : app) (user : User) (payload : option (string * list string)) : bulk_outcome :=
  match payload with
  | None => BStatus 400
  | Some (action, ids) =>
      match BulkActionPermission action with
      | None => BStatus 400
      | Some p =>
          if (Z.of_nat (length ids) =? 0) || (maxBulkServers <? Z.of_nat (length ids)) then BStatus 400
          else if agentMode a && negb (agentAllows a (ActionAccess action)) then BStatus 403
          else if agentMode a && negb (forallb (policyAllowsServer a) ids) then BStatus 404
          else match authorize_all a user p ids [] with
               | Err code => BStatus code
               | Ok l => BRun action l
               end
      end
  end.

(** [runBulkAcrossNodes] sends each node its servers in one request. *)
Definition bulk_local (ids : list string) : list string :=
  List.filter (fun id => String.eqb (SplitServerID id).1 "") ids.
Definition bulk_of_node (node : string) (ids : list string) : list string :=
  map (fun id => (SplitServerID id).2)
      (List.filter (fun id => negb (String.eqb node "") && String.eqb (SplitServerID id).1 node) ids).

(** ** The API of a node *)

Definition accessInHandler : string := "in-handler".
Definition accessSelfUpdate : string := "self-update".
Definition accessMaintenance : string := "maintenance".

Record agentRoute := mkAgentRoute { ar_access : list (string * string); ar_handler : string }.

Definition read_ : list (string * string) := [("GET", AccessRead)].
Definition readWrite : list (string * string) := [("GET", AccessRead); ("PUT", AccessWrite); ("POST", AccessWrite)].

Definition agentRouteTable : list (string * agentRoute) :=
  [("/agent/v1/hello", mkAgentRoute read_ "handleAgentHello");
   ("/agent/v1/csr", mkAgentRoute [("POST", accessMaintenance)] "handleAgentCSR");
   ("/agent/v1/cert", mkAgentRoute [("POST", accessMaintenance)] "handleAgentCert");
   ("/agent/v1/proxy", mkAgentRoute [("GET", AccessRead); ("PUT", accessInHandler)] "handleAgentProxy");
   ("/agent/v1/proxy/prepare", mkAgentRoute [("POST", accessInHandler)] "handleAgentProxyPrepare");
   ("/api/servers", mkAgentRoute read_ "handleListServers");
   ("/api/servers/bulk", mkAgentRoute [("POST", accessInHandler)] "handleBulk");
   ("/api/servers/", mkAgentRoute [("GET", accessInHandler); ("POST", accessInHandler)] "handleServer");
   ("/api/system/stats", mkAgentRoute read_ "handleStats");
   ("/api/system/info", mkAgentRoute read_ "handleInfo");
   ("/api/system/firewall", mkAgentRoute read_ "handleFirewallStatus");
   ("/api/system/firewall/open", mkAgentRoute [("POST", AccessWrite)] "handleFirewallOpen");
   ("/api/games/install", mkAgentRoute [("POST", AccessWrite)] "handleInstall");
   ("/api/admin/server-paths", mkAgentRoute readWrite "handleServerPaths");
   ("/api/admin/timezone", mkAgentRoute readWrite "handleTimeZone");
   ("/api/admin/update/check", mkAgentRoute read_ "handleUpdateCheck");
   ("/api/admin/update/trigger", mkAgentRoute [("POST", accessSelfUpdate)] "handleUpdateTrigger");
   ("/fastdl/", mkAgentRoute [("GET", AccessRead); ("HEAD", AccessRead)] "handleFastDL")].

(** [agentProxyAllowed]: the status of the refusal. *)
Definition agentProxyAllowed (a : app) : option Z :=
  if negb (proxyHost a) then Some 409
  else if pol_DenyProxy (policy a) then Some 403
  else if negb (AgentModeAllows (pol_Mode (policy a)) AccessWrite) then Some 403
  else None.

(** ** FastDL *)

(** The decoded bytes of runes below 0x20 and of 0x7f are exactly the control bytes. *)
Definition fastdl_segment (seg : string) : bool :=
  negb (String.eqb seg "") && negb (String.eqb seg ".") && negb (String.eqb seg "..") &&
  sall (fun c => negb (is_ctl c)) seg.
Definition isCanonicalFastDLPath (rel : string) : bool :=
  if String.eqb rel "" || (1024 <? slen rel) || contains_byte rel "\" || contains_byte rel (chr 0) then false
  else forallb fastdl_segment (split "/" rel).

Inductive fastdl_outcome :=
| FStatus (code : Z)
| FServe (id rel : string) (** [serveFastDLFile] *)
| FForward (node path : string).

(** [handleFastDL] and [forwardFastDL]; [slot] says whether [TryFastDLSlot] has one. *)
Definition handleFastDL (a : app) (slot : bool) (path method : string) : fastdl_outcome :=
  if negb (mem method ["GET"; "HEAD"]) then FStatus 405 else
  match cut "/" (trim_prefix path "/fastdl/") with
  | None => FStatus 404
  | Some (id, rel) =>
      if negb (IsValidServerID id) || negb (isCanonicalFastDLPath rel) then FStatus 404 else
      let '(node, local) := SplitServerID id in
      if negb (String.eqb node "") then
        if agentMode a then FStatus 404 else
        if negb (IsValidNodeID node) then FStatus 404 else
        let st := nodeStatus a node in
        if negb (ns_tunnel st) || negb (ns_Online st) || negb (ns_Compatible st) then FStatus 404
        else if negb slot then FStatus 503
        else FForward node ("/fastdl/" +:+ local +:+ "/" +:+ rel)
      else if negb (String.eqb (fastDLMode a id) "dashboard") || (agentMode a && negb (policyAllowsServer a id))
      then FStatus 404
      else FServe id rel
  end.

(** [serveNodeFastDL], the handler of a node's public port. *)
Definition serveNodeFastDL (a : app) (path method : string) : fastdl_outcome :=
  if negb (mem method ["GET"; "HEAD"]) then FStatus 405 else
  match cut "/" (trim_prefix path "/fastdl/") with
  | None => FStatus 404
  | Some (id, rel) =>
      if negb (has_prefix path "/fastdl/") || negb (isCanonicalFastDLPath rel) || negb (IsValidLocalServerID id) ||
         negb (policyAllowsServer a id) || negb (String.eqb (fastDLMode a id) "node")
      then FStatus 404 else FServe id rel
  end.

(** ** A request on the tunnel *)

(** What a body may hold: the action of a server request, a bulk request, or whether
    a proxy plan is empty. *)
Record body := mkBody {
  b_action : option string; b_bulk : option (string * list string); b_plan : option bool }.

Inductive agent_outcome :=
| AStatus (code : Z)
| ARedirect
| ARun (handler : string)
| AServer (o : server_outcome)
| ABulk (o : bulk_outcome)
| AFastDL (o : fastdl_outcome).

(** The user of [currentUser] on a node is always an administrator. *)
Definition controller_user (actor : string) : User :=
  mkUser ("controller:" +:+ (if isValidUsername actor then actor else "unknown")) "" RoleAdmin [] [] [] false "" 0 [] "".

Definition agent_handler (a : app) (actor name path method : string) (b : body) : agent_outcome :=
  if String.eqb name "handleServer" then AServer (handleServer a (controller_user actor) path method (b_action b))
  else if String.eqb name "handleBulk" then ABulk (handleBulk a (controller_user actor) (b_bulk b))
  else if String.eqb name "handleFastDL" then AFastDL (handleFastDL a false path method)
  else if String.eqb name "handleFirewallOpen" then
    if negb (pol_AllowFirewall (policy a)) then AStatus 403 else ARun name
  else if String.eqb name "handleAgentProxyPrepare" then
    match b_plan b with
    | None => AStatus 400
    | Some _ => match agentProxyAllowed a with Some code => AStatus code | None => ARun name end
    end
  else if String.eqb name "handleAgentProxy" then
    if String.eqb method "GET" then ARun "proxyStatus" else
    match b_plan b with
    | None => AStatus 400
    | Some true => ARun "proxyTeardown"
    | Some false => match agentProxyAllowed a with Some code => AStatus code | None => ARun "proxyApply" end
    end
  else ARun name.

(** [agentRoutes]: [escaped] is the path as it was sent. *)
Definition agentRoutes (a : app) (actor escaped method : string) (b : body) : agent_outcome :=
  match PathUnescape escaped with None => AStatus 400 | Some path =>
  match mux_serve agentRouteTable method escaped with
  | MuxNotFound => AStatus 404
  | MuxRedirect => ARedirect
  | MuxHandler r =>
      match assoc method (ar_access r) with
      | None => AStatus 405
      | Some class =>
          if mem class [accessInHandler; accessMaintenance] then agent_handler a actor (ar_handler r) path method b
          else if String.eqb class accessSelfUpdate then
            if negb (pol_AllowSelfUpdate (policy a)) then AStatus 403
            else agent_handler a actor (ar_handler r) path method b
          else if negb (agentAllows a class) then AStatus 403
          else agent_handler a actor (ar_handler r) path method b
      end
  end end.


(** * Properties *)

(** ** Lemmas: the tables *)

Lemma assoc_in {A} k (l : list (string * A)) a : assoc k l = Some a -> In (k, a) l.
Proof.
  induction l as [|[k' b] r IH]; [done|]. cbn [assoc]. destruct (String.eqb_spec k' k) as [->|].
  - intros [= ->]. by left.
  - intros H. right. by apply IH.
Qed.

(** What holds of every entry of the table of server routes. *)
Definition entry_ok (e : string * routePolicy) : bool :=
  match split " " e.1 with
  | [route; method] =>
      mem route switch_routes && mem method ["GET"; "POST"] &&
      Bool.eqb (String.eqb (perm e.2) permByAction) (String.eqb route "action") &&
      Bool.eqb (String.eqb (access e.2) AccessByAction) (String.eqb route "action") &&
      Bool.eqb (String.eqb (access e.2) AccessRead) (String.eqb method "GET") &&
      mem (access e.2) [AccessRead; AccessWrite; AccessByAction] &&
      (mem (perm e.2) AssignablePermissions || mem (perm e.2) [PermView; PermAdmin; permByAction]) &&
      forallb (fun x => negb (mem x [""; "."; ".."])) (split "/" route) && (length (split "/" route) <=? 2)%nat
  | _ => false
  end.
Lemma entries_ok : forallb entry_ok serverRoutes = true.
Proof. by vm_compute. Qed.

Lemma policy_found route method p :
  serverRoutePermission route method = Ok p <-> assoc (route +:+ " " +:+ method) serverRoutes = Some p.
Proof.
  unfold serverRoutePermission. destruct (assoc _ _) as [q|].
  - split; by intros [= ->].
  - by destruct (existsb _ _).
Qed.

Lemma eqb_iff (s t s' t' : string) : Bool.eqb (String.eqb s t) (String.eqb s' t') = true <-> (s = t <-> s' = t').
Proof. rewrite Bool.eqb_true_iff. destruct (String.eqb_spec s t), (String.eqb_spec s' t'); split; intuition congruence. Qed.

Record policy_facts (route method : string) (p : routePolicy) : Prop := {
  pf_switch : mem route switch_routes = true;
  pf_method : In method ["GET"; "POST"];
  pf_perm : perm p = permByAction <-> route = "action";
  pf_access : access p = AccessByAction <-> route = "action";
  pf_read : access p = AccessRead <-> method = "GET";
  pf_class : In (access p) [AccessRead; AccessWrite; AccessByAction];
  pf_known : In (perm p) AssignablePermissions \/ In (perm p) [PermView; PermAdmin; permByAction];
  pf_names : Forall name_ok (split "/" route);
  pf_depth : (length (split "/" route) <= 2)%nat }.

Lemma policy_ok route method p : serverRoutePermission route method = Ok p -> policy_facts route method p.
Proof.
  intros H%policy_found%assoc_in. pose proof entries_ok as Hok. rewrite forallb_forall in Hok.
  specialize (Hok _ H). unfold entry_ok in Hok. cbn [fst snd] in Hok.
  destruct (split " " (route +:+ " " +:+ method)) as [|r [|m [|? ?]]] eqn:E; [done|done| |done].
  apply split_two in E as [-> ->]. repeat rewrite andb_true_iff in Hok.
  destruct Hok as [[[[[[[[H1 H2] H3] H4] H5] H9] H6] H7] H8]. split.
  - exact H1.
  - by apply mem_true.
  - by apply eqb_iff.
  - by apply eqb_iff.
  - by apply eqb_iff.
  - by apply mem_true.
  - apply orb_true_iff in H6. by rewrite !mem_true in H6.
  - rewrite forallb_forall in H7. apply Forall_forall. intros x Hx. pose proof (split_no_slash r) as Hs.
    rewrite Forall_forall in Hs. specialize (H7 x ltac:(by apply list_elem_of_In)). apply negb_true_iff, mem_false in H7.
    simpl in H7. split_and!; [..|by apply Hs]; intros ->; tauto.
  - by apply Nat.leb_le.
Qed.

(** ** Lemmas: a request for a server of this machine *)

(** What a node's own policy demands; nothing on a machine that is no node. *)
Definition node_policy (a : app) (id class : string) : Prop :=
  agentMode a = true -> policyAllowsServer a id = true /\ agentAllows a class = true.

Lemma granted_local user id p ex :
  AuthorizeServerAction user id p ex = None -> (SplitServerID id).1 = "" -> SplitServerID id = ("", id).
Proof.
  intros (u & _ & _ & Hv & _)%authorize_granted_iff Hs.
  destruct (valid_server_id_cases _ Hv) as [[_ ?]|(n & l & _ & Hn & _ & E)]; [done|].
  rewrite E in Hs. cbn in Hs. by apply valid_node_nonempty in Hn.
Qed.

Lemma no_forward a user id r p b o :
  handleNodeServer a user id r p b = o -> match o with SRun _ _ | SAction _ _ => False | _ => True end.
Proof.
  intros <-. unfold handleNodeServer. destruct (SplitServerID id) as [n l].
  destruct (String.eqb r "tag"); [by destruct b|]. destruct (_ || _); [done|]. destruct (negb _); [done|].
  assert (Hf : forall class, match (if negb (AgentModeAllows (ns_EffectiveMode (nodeStatus a n)) class) then SStatus 403
    else if negb (slotFree a n (u_Username user)) then SStatus 429
    else SForward n ("/api/servers/" +:+ l +:+ "/" +:+ r)) with SRun _ _ | SAction _ _ => False | _ => True end)
    by (intros c; repeat case_match; done).
  destruct (String.eqb (access p) AccessByAction); [|apply Hf]. destruct b as [act|]; [|done].
  destruct (ActionPermission act); [|done]. destruct (AuthorizeServerAction _ _ _ _); [done|apply Hf].
Qed.

(** The path names the server [id] and the route. *)
Definition path_names (path id route : string) : Prop :=
  exists x y, split "/" (trim path "/") = x :: y :: id :: split "/" route.

Lemma split_name r : no_slash r -> split "/" r = [r].
Proof. intros H. rewrite <- (join_one "/" r) at 1. apply split_join_slash; [done|]. by constructor. Qed.

Lemma handle_server_names a user path method b id route :
  path_names path id route -> (length (split "/" route) <= 2)%nat ->
  handleServer a user path method b = handle_server_route a user id route method b.
Proof.
  intros (x & y & E) Hl. unfold handleServer. rewrite E. pose proof (split_not_nil "/" route) as Hn.
  pose proof (join_split "/" route) as Hj. change (byte_str "/") with "/" in Hj.
  destruct (split "/" route) as [|r [|t [|? ?]]]; [done| | |simpl in Hl; lia]; cbn [Datatypes.app]; rewrite <- Hj.
  - by rewrite join_one.
  - by rewrite join_cons, join_one.
Qed.

Lemma handle_server_inv a user path method b :
  handleServer a user path method b = SStatus 404 \/
  exists id route, path_names path id route /\
    handleServer a user path method b = handle_server_route a user id route method b.
Proof.
  unfold handleServer, path_names. pose proof (split_no_slash (trim path "/")) as Hs.
  destruct (split "/" (trim path "/")) as [|x [|y [|id [|r [|t [|? ?]]]]]]; try (by left); right;
    rewrite !Forall_cons in Hs; destruct Hs as (_ & _ & _ & Hr & Hs).
  - exists id, r. split; [exists x, y; by rewrite split_name|done].
  - exists id, (r +:+ "/" +:+ t). split; [exists x, y|done].
    rewrite split_app_slash, !split_name by tauto. done.
Qed.

Lemma path_names_inj path id route id' route' :
  path_names path id route -> path_names path id' route' -> id' = id /\ route' = route.
Proof.
  intros (x & y & E) (x' & y' & E'). rewrite E in E'. injection E' as -> -> -> H. split; [done|].
  rewrite <- (join_split "/" route), <- (join_split "/" route'). by rewrite H.
Qed.

Lemma view_granted user id p ex :
  AuthorizeServerAction (Some user) id PermView ex = None /\ AuthorizeServerAction (Some user) id p None = None <->
  AuthorizeServerAction (Some user) id p ex = None.
Proof.
  rewrite !authorize_granted_iff. split.
  - intros [(u & [= <-] & H1 & H2 & H3 & H4 & _) (u' & [= <-] & _ & _ & _ & _ & H5)]. by exists user.
  - intros (u & [= <-] & H1 & H2 & H3 & H4 & H5). split; exists user; split_and!; try done.
    right. split; [done|by left].
    all: try tauto.
Qed.

(** The part of the handler for servers of this machine. *)
Definition local_part (a : app) (user : User) (id route : string) (p : routePolicy) (b : option string) : server_outcome :=
  match AuthorizeServerAction (Some user) id (if String.eqb (perm p) permByAction then PermView else perm p)
          (Some (localExists a)) with
  | Some e => SStatus (authz_status e)
  | None =>
      if agentMode a && negb (String.eqb (access p) AccessByAction) && negb (agentAllows a (access p)) then SStatus 403
      else if String.eqb route "action" then runAction a user id b
      else if mem route switch_routes then SRun route id else SStatus 404
  end.

Lemma local_part_here a user id route p b :
  match local_part a user id route p b with
  | STag _ | SForward _ _ => False
  | SAction _ _ => route = "action"
  | _ => True
  end.
Proof.
  unfold local_part. destruct (AuthorizeServerAction _ _ _ _); [done|]. destruct (_ && _ && _); [done|].
  destruct (String.eqb_spec route "action"); [|by destruct (mem route switch_routes)].
  unfold runAction. by repeat case_match.
Qed.

Lemma handle_local a user id route method b p :
  serverRoutePermission route method = Ok p -> SplitServerID id = ("", id) ->
  handle_server_route a user id route method b =
  if agentMode a && negb (policyAllowsServer a id) then SStatus 404 else local_part a user id route p b.
Proof. intros Hp Hs. unfold handle_server_route. by rewrite Hp, Hs. Qed.

Lemma local_part_run a user id route method p b route' id' :
  policy_facts route method p ->
  local_part a user id route p b = SRun route' id' <->
  route' = route /\ id' = id /\ route <> "action" /\
  AuthorizeServerAction (Some user) id (perm p) (Some (localExists a)) = None /\
  (agentMode a = true -> agentAllows a (access p) = true).
Proof.
  intros F. unfold local_part. pose proof (pf_perm _ _ _ F) as Hp. pose proof (pf_access _ _ _ F) as Ha.
  destruct (String.eqb_spec route "action") as [->|Hr].
  { split; [|tauto]. destruct (AuthorizeServerAction _ _ _ _); [done|]. destruct (_ && _); [done|].
    unfold runAction. destruct b as [act|]; [|done]. destruct (ActionPermission act); [|done].
    destruct (AuthorizeServerAction _ _ _ _); [done|]. by destruct (_ && _). }
  destruct (String.eqb_spec (perm p) permByAction); [tauto|].
  destruct (String.eqb_spec (access p) AccessByAction); [tauto|]. cbn [negb]. rewrite andb_true_r.
  rewrite (pf_switch _ _ _ F).
  destruct (AuthorizeServerAction _ _ _ _); [by split; [|intros (_ & _ & _ & ? & _)]|].
  destruct (agentMode a), (agentAllows a (access p)); cbn [andb negb];
    (split; [try done; by intros [= <- <-]|intros (-> & -> & _ & _ & H); try done; by specialize (H eq_refl)]).
Qed.

Lemma local_part_action a user id method p b act id' :
  policy_facts "action" method p ->
  local_part a user id "action" p b = SAction act id' <->
  id' = id /\ b = Some act /\ exists q, ActionPermission act = Some q /\
  AuthorizeServerAction (Some user) id q (Some (localExists a)) = None /\
  (agentMode a = true -> agentAllows a (ActionAccess act) = true).
Proof.
  intros F. unfold local_part. rewrite (proj2 (pf_perm _ _ _ F) eq_refl), (proj2 (pf_access _ _ _ F) eq_refl).
  rewrite !String.eqb_refl. cbn [negb]. rewrite andb_false_r. cbn [andb]. unfold runAction. split.
  - destruct (AuthorizeServerAction _ _ PermView _) eqn:E1; [done|]. destruct b as [act'|]; [|done].
    destruct (ActionPermission act') as [q|] eqn:Eq; [|done].
    destruct (AuthorizeServerAction _ _ q None) eqn:E2; [done|].
    destruct (agentMode a && _) eqn:E3; [done|]. intros [= <- <-]. split_and!; [done..|].
    exists q. split_and!; [done|by apply view_granted|]. intros Hm. rewrite Hm in E3. by apply negb_false_iff in E3.
  - intros (-> & -> & q & Hq & [H1 H2]%view_granted & H3). rewrite H1, Hq, H2.
    destruct (agentMode a); [|done]. by rewrite H3.
Qed.

(** ** Server requests *)

(** What runs here passed the checks for servers of this machine. *)
Lemma runs_here a user path method b o :
  handleServer a user path method b = o -> match o with SRun _ _ | SAction _ _ => True | _ => False end ->
  exists id route p, path_names path id route /\ SplitServerID id = ("", id) /\
    policy_facts route method p /\ serverRoutePermission route method = Ok p /\
    (agentMode a = true -> policyAllowsServer a id = true) /\ local_part a user id route p b = o.
Proof.
  intros Ho Hkind. destruct (handle_server_inv a user path method b) as [E|(id & route & Hn & E)];
    [rewrite E in Ho; by subst|]. rewrite E in Ho. exists id, route. unfold handle_server_route in Ho.
  destruct (serverRoutePermission route method) as [p|code] eqn:Ep; [|by subst]. exists p.
  destruct (agentMode a && negb (policyAllowsServer a id)) eqn:Epol; [by subst|].
  destruct (SplitServerID id) as [n l] eqn:Es. destruct (String.eqb_spec n "") as [->|Hne]; cbn [negb] in Ho.
  - assert (SplitServerID id = ("", id)) as Hl; [|rewrite Es in Hl].
    { destruct (AuthorizeServerAction _ _ _ _) eqn:Ea; [by subst|].
      apply granted_local in Ea; [done|by rewrite Es]. }
    split_and!; [done|done|by apply policy_ok|done| |exact Ho].
    intros Hm. rewrite Hm in Epol. by apply negb_false_iff in Epol.
  - destruct (agentMode a); [by subst|]. destruct (AuthorizeServerAction _ _ _ _); [by subst|].
    apply no_forward in Ho. by destruct o.
Qed.

Lemma handled_here a user path method b id route p :
  path_names path id route -> SplitServerID id = ("", id) ->
  serverRoutePermission route method = Ok p -> (agentMode a = true -> policyAllowsServer a id = true) ->
  handleServer a user path method b = local_part a user id route p b.
Proof.
  intros Hn Hs Hp Ha. rewrite (handle_server_names _ _ _ _ _ _ _ Hn (pf_depth _ _ _ (policy_ok _ _ _ Hp))).
  rewrite (handle_local _ _ _ _ _ _ _ Hp Hs). destruct (agentMode a); [|done]. by rewrite Ha.
Qed.

(** C35: a request for a server runs a route on this machine exactly when its path
    names a local server and a route of the table, and the user is granted the
    permission the table lists for it; an action exactly when the user is granted the
    permission of that action.  On a node the access policy must allow both the server
    and the kind of access. *)
Theorem server_route_authorized a user path method b :
  (forall route id, handleServer a user path method b = SRun route id <->
     path_names path id route /\ route <> "action" /\ SplitServerID id = ("", id) /\
     exists p, serverRoutePermission route method = Ok p /\
       AuthorizeServerAction (Some user) id (perm p) (Some (localExists a)) = None /\
       node_policy a id (access p)) /\
  (forall action id, handleServer a user path method b = SAction action id <->
     path_names path id "action" /\ method = "POST" /\ b = Some action /\ SplitServerID id = ("", id) /\
     exists p, ActionPermission action = Some p /\
       AuthorizeServerAction (Some user) id p (Some (localExists a)) = None /\
       node_policy a id (ActionAccess action)).
Proof.
  split; intros x id; split.
  - intros H. destruct (runs_here _ _ _ _ _ _ H I) as (id' & r & p & Hn & Hs & F & Hp & Ha & Ho).
    apply (local_part_run _ _ _ _ _ _ _ _ _ F) in Ho as (-> & -> & ? & ? & ?). split_and!; try done.
    exists p. split_and!; [done|done|]. intros Hm. auto.
  - intros (Hn & Hr & Hs & p & Hp & Hz & Ha). rewrite (handled_here _ _ _ _ _ id x p Hn Hs Hp) by (intros Hm; by apply Ha).
    apply (local_part_run _ _ _ _ _ _ _ _ _ (policy_ok _ _ _ Hp)). split_and!; try done. intros Hm. by apply Ha.
  - intros H. destruct (runs_here _ _ _ _ _ _ H I) as (id' & r & p & Hn & Hs & F & Hp & Ha & Ho).
    pose proof (local_part_here a user id' r p b) as Hx. rewrite Ho in Hx. subst r.
    assert (method = "POST") as ->.
    { destruct (pf_method _ _ _ F) as [E|[E|[]]]; [|done]. subst method. by apply policy_found in Hp. }
    apply (local_part_action _ _ _ _ _ _ _ _ F) in Ho as (-> & -> & q & Hq & Hz & Hacc). split_and!; try done.
    exists q. split_and!; [done|done|]. intros Hm. auto.
  - intros (Hn & -> & -> & Hs & q & Hq & Hz & Ha).
    rewrite (handled_here _ _ _ "POST" _ id "action" (mkPolicy permByAction AccessByAction) Hn Hs eq_refl) by (intros Hm; by apply Ha).
    apply (local_part_action _ _ _ "POST" _ _ _ _ (policy_ok "action" "POST" (mkPolicy permByAction AccessByAction) eq_refl)). split_and!; try done.
    exists q. split_and!; try done. intros Hm. by apply Ha.
Qed.

(** ** Bulk actions *)

Lemma authorize_all_ok a user p ids : forall seen l, authorize_all a user p ids seen = Ok l ->
  NoDup l /\ (forall id, In id l <-> In id ids /\ ~ In id seen) /\
  (forall id, In id l -> AuthorizeServerAction (Some user) id p (Some (serverExists a)) = None).
Proof.
  induction ids as [|id r IH]; intros seen l; cbn [authorize_all].
  - intros [= <-]. split; [constructor|]. split; [simpl; tauto|simpl; tauto].
  - destruct (mem id seen) eqn:Em.
    + apply mem_true in Em. intros (H1 & H2 & H3)%IH. split; [done|]. split; [|done]. intros x. rewrite H2.
      simpl. split; [tauto|]. intros [[<-|?] ?]; tauto.
    + apply mem_false in Em. destruct (AuthorizeServerAction _ _ _ _) eqn:Ez; [done|].
      destruct (authorize_all a user p r (id :: seen)) as [k|] eqn:Ek; [|done]. intros [= <-].
      apply IH in Ek as (H1 & H2 & H3). split_and!.
      * constructor; [|done]. rewrite list_elem_of_In, H2. simpl. tauto.
      * intros x. simpl. rewrite H2. simpl. destruct (decide (id = x)) as [->|]; tauto.
      * intros x [<-|Hx]; [done|by apply H3].
Qed.

Lemma authorize_all_complete a user p ids seen :
  (forall id, In id ids -> AuthorizeServerAction (Some user) id p (Some (serverExists a)) = None) ->
  exists l, authorize_all a user p ids seen = Ok l.
Proof.
  revert seen. induction ids as [|id r IH]; intros seen H; cbn [authorize_all]; [by eexists|].
  destruct (mem id seen); [apply IH; intros; apply H; by right|]. rewrite H by by left.
  destruct (IH (id :: seen)) as [l ->]; [intros; apply H; by right|]. by eexists.
Qed.

(** What a node is asked to do: its servers of the request, under their local IDs. *)
Lemma bulk_of_node_spec l node local : IsValidNodeID node = true -> Forall (fun id => IsValidServerID id = true) l ->
  In local (bulk_of_node node l) <-> In (GlobalServerID node local) l.
Proof.
  intros Hn Hv. rewrite Forall_forall in Hv. unfold bulk_of_node. rewrite in_map_iff. split.
  - intros (id & <- & Hin). apply filter_In in Hin as [Hin [_ E%String.eqb_eq]%andb_true_iff].
    destruct (valid_server_id_cases id) as [[_ Hs]|(n & k & -> & _ & _ & Hs)]; [by apply Hv, list_elem_of_In| |];
      rewrite Hs in E |- *; cbn in E |- *; [|by subst].
    subst node. done.
  - intros Hin. exists (GlobalServerID node local). rewrite split_global by done. split; [done|].
    apply filter_In. split; [done|]. rewrite split_global by done. cbn [fst].
    rewrite String.eqb_refl, andb_true_r. apply negb_true_iff, String.eqb_neq. by apply valid_node_nonempty.
Qed.

Lemma bulk_of_node_nodup l node : Forall (fun id => IsValidServerID id = true) l -> NoDup l -> NoDup (bulk_of_node node l).
Proof.
  intros Hv Hd. unfold bulk_of_node. rewrite NoDup_ListNoDup in Hd. rewrite NoDup_ListNoDup.
  rewrite Forall_forall in Hv. induction l as [|id r IH]; [constructor|]. inversion Hd as [|? ? Hid Hr]; subst.
  specialize (IH ltac:(intros; apply Hv; by right) Hr). cbn [List.filter].
  destruct (negb (String.eqb node "") && String.eqb (SplitServerID id).1 node) eqn:E; [|done].
  cbn [map]. constructor; [|done]. rewrite in_map_iff. intros (id' & Hl & Hin). apply Hid.
  apply filter_In in Hin as [Hin E']. apply andb_true_iff in E as [Hne E%String.eqb_eq], E' as [_ E'%String.eqb_eq].
  apply negb_true_iff, String.eqb_neq in Hne.
  assert (Hg : forall x, IsValidServerID x = true -> (SplitServerID x).1 = node -> x = GlobalServerID node (SplitServerID x).2).
  { intros x Hx Hs. destruct (valid_server_id_cases x Hx) as [[_ Hx']|(n & k & -> & _ & _ & Hx')];
      rewrite Hx' in Hs |- *; cbn in Hs |- *; [by rewrite Hs in Hne|by rewrite Hs]. }
  assert (Hvi : IsValidServerID id = true /\ IsValidServerID id' = true)
    by (split; apply Hv; [by left|right; by apply list_elem_of_In]).
  by rewrite (Hg id), <- Hl, <- (Hg id') by tauto.
Qed.

Lemma handle_bulk_run a user payload action l : handleBulk a user payload = BRun action l ->
  exists ids p, payload = Some (action, ids) /\ 0 < Z.of_nat (length ids) <= maxBulkServers /\
    BulkActionPermission action = Some p /\ authorize_all a user p ids [] = Ok l /\
    (forall id, In id ids -> node_policy a id (ActionAccess action)).
Proof.
  unfold handleBulk. destruct payload as [[act ids]|]; [|done].
  destruct (BulkActionPermission act) as [p|] eqn:Ep; [|done].
  destruct (_ || _) eqn:El; [done|]. apply orb_false_iff in El as [E1%Z.eqb_neq E2%Z.ltb_ge].
  destruct (agentMode a && negb (agentAllows a (ActionAccess act))) eqn:Ea; [done|].
  destruct (agentMode a && negb (forallb _ _)) eqn:Es; [done|].
  destruct (authorize_all a user p ids []) as [k|] eqn:Ek; [|done]. intros [= <- <-].
  exists ids, p. split_and!; [done|lia|lia|done|done|].
  intros id Hid Hm. rewrite Hm in Ea, Es. apply negb_false_iff in Ea, Es. rewrite forallb_forall in Es. auto.
Qed.

(** a bulk action runs for all the servers asked for or for none: it runs exactly
    when there are 1 to 100, it is a bulk action, the node's policy allows it, and the
    user is granted its permission on every single one.  Then it runs once for each of
    them: on this machine for the local ones, and every node is asked exactly once for
    each of its own. *)
Theorem bulk_all_or_nothing a user payload action :
  ((exists l, handleBulk a user payload = BRun action l) <->
   exists ids p, payload = Some (action, ids) /\ 0 < Z.of_nat (length ids) <= maxBulkServers /\
     BulkActionPermission action = Some p /\
     (forall id, In id ids -> AuthorizeServerAction (Some user) id p (Some (serverExists a)) = None /\
                              node_policy a id (ActionAccess action))) /\
  (forall l ids, handleBulk a user payload = BRun action l -> payload = Some (action, ids) ->
     NoDup (bulk_local l) /\
     (forall id, In id (bulk_local l) <-> In id ids /\ (SplitServerID id).1 = "") /\
     (forall node, IsValidNodeID node = true ->
        NoDup (bulk_of_node node l) /\
        forall local, In local (bulk_of_node node l) <-> In (GlobalServerID node local) ids)).
Proof.
  split; [split|].
  - intros [l (ids & p & -> & Hl & Hp & Hk & Hn)%handle_bulk_run]. exists ids, p. split_and!; [done|lia|lia|done|].
    intros id Hid. split; [|by apply Hn]. apply authorize_all_ok in Hk as (_ & H2 & H3). apply H3, H2. simpl. tauto.
  - intros (ids & p & -> & Hl & Hp & H). unfold handleBulk. rewrite Hp.
    destruct (_ || _) eqn:El; [apply orb_true_iff in El; rewrite Z.eqb_eq, Z.ltb_lt in El; lia|].
    destruct (agentMode a && negb (agentAllows a (ActionAccess action))) eqn:Ea.
    { apply andb_true_iff in Ea as [Hm Ea]. destruct ids as [|i ids]; [simpl in Hl; lia|].
      destruct (H i ltac:(by left)) as [_ Hn]. destruct (Hn Hm) as [_ Hn2]. by rewrite Hn2 in Ea. }
    destruct (agentMode a && negb (forallb _ _)) eqn:Es.
    { apply andb_true_iff in Es as [Hm Es]. apply negb_true_iff in Es. rewrite <- not_true_iff_false in Es.
      exfalso. apply Es, forallb_forall. intros i Hi. by apply H. }
    destruct (authorize_all_complete a user p ids []) as [l Hk]; [intros i Hi; by apply H|].
    rewrite Hk. by eexists.
  - intros l ids (ids' & p & E & _ & _ & Hk & _)%handle_bulk_run Hp. rewrite Hp in E. injection E as <-.
    apply authorize_all_ok in Hk as (H1 & H2 & H3).
    assert (Hv : Forall (fun id => IsValidServerID id = true) l).
    { apply Forall_forall. intros id Hid%list_elem_of_In. apply H3, authorize_granted_iff in Hid as (? & _ & _ & ? & _). done. }
    assert (Hin : forall id, In id l <-> In id ids) by (intros id; rewrite H2; simpl; tauto).
    split_and!.
    + unfold bulk_local. rewrite NoDup_ListNoDup in *. by apply List.NoDup_filter.
    + intros id. unfold bulk_local. by rewrite filter_In, String.eqb_eq, Hin.
    + intros node Hn. split; [by apply bulk_of_node_nodup|]. intros local. by rewrite bulk_of_node_spec, Hin.
Qed.

(** ** Requests that are forwarded to a node *)

(** A path of names reaches the handler of a subtree with [n] literal elements when
    no other pattern fits better. *)
Lemma mux_serve_below {A} (table : list (string * A)) method l n pat a :
  method <> "CONNECT" -> l <> [] -> Forall name_ok l -> has_suffix pat "/" = true ->
  (length (split "/" pat) < S (S (length l)))%nat ->
  mux_find table l = Some (n, (pat, a)) -> mux_find table (l ++ [""])%list = Some (n, (pat, a)) ->
  mux_serve table method (EscapePath (abs_path l)) = MuxHandler a.
Proof.
  intros Hc Hne Hn Hp Hlen H1 H2. destruct (sent_path l Hne Hn) as (E1 & E2 & E3 & _ & E5 & E6).
  unfold mux_serve. apply String.eqb_neq in Hc. pose proof (clean_path_rooted (EscapePath (abs_path l))) as Hroot.
  rewrite E1 in Hroot. rewrite Hc, E1, E2, E3, Hroot, H1, H2, String.eqb_refl. cbn [negb].
  assert (He : exact_match pat (EscapePath (abs_path l) +:+ "/") = false).
  { unfold exact_match. rewrite Hp. cbn [negb orb].
    replace (EscapePath (abs_path l) +:+ "/") with (EscapePath (abs_path l) +:+ "/" +:+ "") by by rewrite string_app_nil_r.
    rewrite split_app_slash, E5, length_app. change (length (split "/" "")) with 1%nat. cbn [length].
    rewrite length_map. destruct (Nat.eqb_spec (length (split "/" pat)) (S (length l) + 1)); [lia|].
    by rewrite andb_false_r. }
  by rewrite He, andb_false_r.
Qed.

Lemma local_id_name id : IsValidLocalServerID id = true -> name_ok id.
Proof.
  unfold IsValidLocalServerID. intros [H1 H2]%andb_true_iff. pose proof H1 as H0.
  apply re_word_inv in H0 as (Hne & Hc & _).
  split_and!; [done|intros ->; done|intros ->; done|]. apply contains_byte_false. intros Hin.
  destruct (Hc _ Hin) as [E|E]; done.
Qed.

Lemma route_servers : assoc "/api/servers/" agentRouteTable =
  Some (mkAgentRoute [("GET", accessInHandler); ("POST", accessInHandler)] "handleServer").
Proof. done. Qed.

Lemma node_runs_server_request n actor local route method bd :
  IsValidLocalServerID local = true -> Forall name_ok (split "/" route) -> (length (split "/" route) <= 2)%nat ->
  In method ["GET"; "POST"] ->
  agentRoutes n actor (EscapePath ("/api/servers/" +:+ local +:+ "/" +:+ route)) method bd =
  AServer (handle_server_route n (controller_user actor) local route method (b_action bd)).
Proof.
  intros Hl Hr Hlen Hm. pose proof (local_id_name _ Hl) as Hln. set (l := "api" :: "servers" :: local :: split "/" route).
  assert (Hn : Forall name_ok l) by (subst l; do 2 (constructor; [by split_and!|]); by constructor).
  assert (Hpath : "/api/servers/" +:+ local +:+ "/" +:+ route = abs_path l).
  { unfold abs_path, l. pose proof (split_not_nil "/" route) as Hne. pose proof (join_split "/" route) as Hj.
    change (byte_str "/") with "/" in Hj. destruct (split "/" route) as [|x t]; [done|].
    rewrite !join_cons, Hj. done. }
  rewrite Hpath. destruct (sent_path l) as (_ & _ & _ & E4 & _); [done|done|].
  unfold agentRoutes. rewrite E4.
  rewrite (mux_serve_below _ method l 2 "/api/servers/"
             (mkAgentRoute [("GET", accessInHandler); ("POST", accessInHandler)] "handleServer")); try done.
  2:{ destruct Hm as [<-|[<-|[]]]; done. }
  - assert (Hh : handleServer n (controller_user actor) (abs_path l) method (b_action bd) =
                 handle_server_route n (controller_user actor) local route method (b_action bd)).
    { apply handle_server_names; [|done]. exists "api", "servers".
      rewrite trim_names by done. by apply split_join_slash; [|apply Forall_name_no_slash]. }
    destruct Hm as [<-|[<-|[]]]; cbn [assoc ar_access String.eqb Ascii.eqb]; unfold agent_handler; rewrite <- Hh; done.
  - cbn. lia.
  - subst l. pose proof (split_not_nil "/" route). destruct (split "/" route) as [|x [|y [|? ?]]]; [done|done|done|simpl in Hlen; lia].
  - subst l. pose proof (split_not_nil "/" route). destruct (split "/" route) as [|x [|y [|? ?]]]; [done|done|done|simpl in Hlen; lia].
Qed.

(** The access class of a request: the table's, or that of the action. *)
Definition request_class (p : routePolicy) (b : option string) : string :=
  if String.eqb (access p) AccessByAction then ActionAccess (default "" b) else access p.
(** The permission it needs. *)
Definition needs_permission (p : routePolicy) (b : option string) (q : string) : Prop :=
  if String.eqb (perm p) permByAction then exists act, b = Some act /\ ActionPermission act = Some q else perm p = q.

Lemma forward_inv a user path method b node fp :
  handleServer a user path method b = SForward node fp ->
  exists local route p q, path_names path (GlobalServerID node local) route /\
    agentMode a = false /\ IsValidNodeID node = true /\ IsValidLocalServerID local = true /\
    serverRoutePermission route method = Ok p /\ fp = "/api/servers/" +:+ local +:+ "/" +:+ route /\
    (ns_tunnel (nodeStatus a node) = true /\ ns_Online (nodeStatus a node) = true /\ ns_Compatible (nodeStatus a node) = true) /\
    AgentModeAllows (ns_EffectiveMode (nodeStatus a node)) (request_class p b) = true /\
    needs_permission p b q /\
    AuthorizeServerAction (Some user) (GlobalServerID node local) q (Some (serverExists a)) = None.
Proof.
  intros Ho. destruct (handle_server_inv a user path method b) as [E|(id & route & Hn & E)]; rewrite E in Ho; [done|].
  unfold handle_server_route in Ho. destruct (serverRoutePermission route method) as [p|] eqn:Ep; [|done].
  pose proof (policy_ok _ _ _ Ep) as F. destruct (agentMode a && negb (policyAllowsServer a id)); [done|].
  destruct (SplitServerID id) as [n l] eqn:Es. destruct (String.eqb_spec n "") as [->|Hne]; cbn [negb] in Ho.
  { pose proof (local_part_here a user id route p b) as Hx. unfold local_part in Hx. by rewrite Ho in Hx. }
  destruct (agentMode a) eqn:Em; [done|].
  destruct (AuthorizeServerAction _ _ _ _) eqn:Ea; [done|].
  assert (id = GlobalServerID n l /\ IsValidNodeID n = true /\ IsValidLocalServerID l = true) as (-> & Hvn & Hvl).
  { apply authorize_granted_iff in Ea as (u & _ & _ & Hv & _).
    destruct (valid_server_id_cases id Hv) as [[_ Hs]|(n' & l' & -> & ? & ? & Hs)]; rewrite Es in Hs; [congruence|].
    injection Hs as -> ->. done. }
  unfold handleNodeServer in Ho. rewrite Es in Ho. destruct (String.eqb route "tag"); [by destruct b|].
  destruct (ns_tunnel (nodeStatus a n)) eqn:Et; cbn [negb orb] in Ho; [|done].
  destruct (ns_Online (nodeStatus a n)) eqn:Eo; cbn [negb orb] in Ho; [|done].
  destruct (ns_Compatible (nodeStatus a n)) eqn:Ec; cbn [negb] in Ho; [|done].
  assert (Hfwd : forall class, (if negb (AgentModeAllows (ns_EffectiveMode (nodeStatus a n)) class) then SStatus 403
    else if negb (slotFree a n (u_Username user)) then SStatus 429
    else SForward n ("/api/servers/" +:+ l +:+ "/" +:+ route)) = SForward node fp ->
    node = n /\ fp = "/api/servers/" +:+ l +:+ "/" +:+ route /\
    AgentModeAllows (ns_EffectiveMode (nodeStatus a n)) class = true).
  { intros class. destruct (AgentModeAllows _ class); [|done]. destruct (negb (slotFree _ _ _)); [done|].
    by intros [= <- <-]. }
  pose proof (pf_perm _ _ _ F) as Hp. pose proof (pf_access _ _ _ F) as Hacc.
  unfold request_class, needs_permission. exists l, route, p.
  destruct (String.eqb_spec (access p) AccessByAction) as [Hby|Hby].
  - assert (Hpa : perm p = permByAction) by (apply Hp, Hacc; exact Hby).
    rewrite Hpa, String.eqb_refl in Ea |- *.
    destruct b as [act|]; [|done]. destruct (ActionPermission act) as [q|] eqn:Eq; [|done].
    destruct (AuthorizeServerAction _ _ q _) eqn:Ea2; [done|]. apply Hfwd in Ho as (-> & -> & Hc).
    exists q. split_and!; try done; [by exists act|]. by apply view_granted.
  - assert (Hpa : perm p <> permByAction) by (intros Hx; by apply Hby, Hacc, Hp).
    apply String.eqb_neq in Hpa as Hpb. rewrite Hpb in Ea |- *. apply Hfwd in Ho as (-> & -> & Hc).
    exists (perm p). by split_and!.
Qed.

(** a request the controller forwards reaches exactly the route it was checked
    for: the node, whatever its own state and policy, either refuses it or runs that
    route, or that action, for that server of its own; and the user holds the permission
    for it on the controller, and the node's tunnel is up and its mode allows it. *)
Theorem forwarded_request_same_route a user path method b node fp :
  handleServer a user path method b = SForward node fp ->
  exists local route p q, path_names path (GlobalServerID node local) route /\
    serverRoutePermission route method = Ok p /\ needs_permission p b q /\
    AuthorizeServerAction (Some user) (GlobalServerID node local) q (Some (serverExists a)) = None /\
    AgentModeAllows (ns_EffectiveMode (nodeStatus a node)) (request_class p b) = true /\
    forall n actor bd, agentMode n = true -> b_action bd = b ->
    exists o, agentRoutes n actor (EscapePath fp) method bd = AServer o /\
      match o with
      | SStatus _ => True
      | SRun r id => r = route /\ id = local /\ route <> "action"
      | SAction act id => route = "action" /\ b = Some act /\ id = local
      | _ => False
      end.
Proof.
  intros (local & route & p & q & Hn & _ & _ & Hvl & Hp & -> & _ & Hc & Hneed & Ha)%forward_inv.
  exists local, route, p, q. split_and!; try done. intros n actor bd Hm <-.
  pose proof (policy_ok _ _ _ Hp) as F.
  rewrite node_runs_server_request; [|done|apply F|apply F|apply F]. eexists. split; [done|].
  rewrite (handle_local _ _ _ _ _ _ _ Hp) by by apply split_local. rewrite Hm. cbn [andb].
  destruct (negb _); [done|].
  destruct (local_part n (controller_user actor) local route p (b_action bd)) as [|r i|act i|i|m f] eqn:E; [done|..].
  - by apply (local_part_run _ _ _ _ _ _ _ _ _ F) in E as (-> & -> & ? & _).
  - pose proof (local_part_here n (controller_user actor) local route p (b_action bd)) as Hx. rewrite E in Hx. subst route.
    by apply (local_part_action _ _ _ _ _ _ _ _ F) in E as (-> & ? & _).
  - pose proof (local_part_here n (controller_user actor) local route p (b_action bd)) as Hx. by rewrite E in Hx.
  - pose proof (local_part_here n (controller_user actor) local route p (b_action bd)) as Hx. by rewrite E in Hx.
Qed.

(** ** Nodes in read-only mode *)

(** What a node may do for its controller without read-write access. *)
Definition read_handlers : list string :=
  ["handleAgentHello"; "proxyStatus"; "handleListServers"; "handleStats"; "handleInfo"; "handleFirewallStatus";
   "handleServerPaths"; "handleTimeZone"; "handleUpdateCheck"].

Definition read_only_ok (a : app) (method : string) (o : agent_outcome) : Prop :=
  match o with
  | AStatus _ | ARedirect | AServer (SStatus _) | ABulk (BStatus _) => True
  | ARun h =>
      (In h read_handlers /\ method = "GET") \/ In h ["handleAgentCSR"; "handleAgentCert"; "proxyTeardown"] \/
      (h = "handleUpdateTrigger" /\ pol_AllowSelfUpdate (policy a) = true)
  | AServer (SRun route _) => method = "GET"
  | AServer (SAction act _) => In act ["start"; "stop"; "restart"; "details"]
  | AServer _ => False
  | ABulk (BRun act _) => In act ["start"; "stop"; "restart"]
  | AFastDL _ => In method ["GET"; "HEAD"]
  end.

Lemma read_only_class a class : pol_Mode (policy a) <> AgentModeReadWrite -> agentAllows a class = true ->
  class = AccessRead \/ class = AccessControl.
Proof.
  unfold agentAllows, AgentModeAllows. intros Hm.
  destruct (String.eqb_spec class AccessRead); [by left|]. destruct (String.eqb_spec class AccessControl); [by right|].
  cbn [orb]. by intros H%String.eqb_eq.
Qed.

Lemma read_only_action a act : pol_Mode (policy a) <> AgentModeReadWrite -> agentAllows a (ActionAccess act) = true ->
  In act ["start"; "stop"; "restart"; "details"].
Proof.
  intros Hm Ha. apply read_only_class in Ha; [|done]. unfold ActionAccess in Ha.
  destruct (mem act ["start"; "stop"; "restart"]) eqn:E; [apply mem_true in E; simpl in *; tauto|].
  destruct (String.eqb_spec act "details") as [->|]; [simpl; tauto|]. by destruct Ha.
Qed.

Lemma read_only_proxy a : pol_Mode (policy a) <> AgentModeReadWrite -> exists code, agentProxyAllowed a = Some code.
Proof.
  intros Hm. unfold agentProxyAllowed. destruct (negb (proxyHost a)); [by eexists|].
  destruct (pol_DenyProxy (policy a)); [by eexists|].
  destruct (AgentModeAllows (pol_Mode (policy a)) AccessWrite) eqn:E; [|by eexists].
  apply (read_only_class a AccessWrite Hm) in E. by destruct E.
Qed.

Lemma node_server_forward_free a user path method b :
  agentMode a = true -> match handleServer a user path method b with STag _ | SForward _ _ => False | _ => True end.
Proof.
  intros Hm. destruct (handle_server_inv a user path method b) as [E|(id & route & _ & E)]; rewrite E; [done|].
  unfold handle_server_route. rewrite Hm. destruct (serverRoutePermission route method) as [p|]; [|done].
  destruct (_ && _); [done|]. destruct (SplitServerID id) as [n l]. destruct (negb (String.eqb n "")); [done|].
  pose proof (local_part_here a user id route p b) as Hx. unfold local_part in Hx. rewrite Hm in Hx.
  by repeat case_match.
Qed.

(** One entry of the node's route table. *)
Ltac node_route Hm Hpc :=
  cbn [ar_access ar_handler read_ readWrite assoc];
  repeat match goal with
  | |- context [String.eqb ?m ?method] => is_var method; destruct (String.eqb_spec m method) as [<-|]
  end; try exact I; unfold agent_handler; rewrite ?Hpc;
  cbn -[handleServer handleBulk handleFastDL agentAllows In read_handlers read_only_ok]; try assumption;
  repeat match goal with
  | |- context [agentAllows ?a ?c] =>
      let E := fresh "E" in destruct (agentAllows a c) eqn:E; cbn [negb];
      [try (apply read_only_class in E; [by destruct E|exact Hm])|]
  | |- context [match b_plan ?b with _ => _ end] => destruct (b_plan b) as [[]|]
  | |- context [pol_AllowSelfUpdate ?p] => destruct (pol_AllowSelfUpdate p) eqn:?; cbn [negb]
  end; try exact I; cbn; tauto.

(** a node whose access mode is not read-write changes nothing for its controller,
    whatever request comes through the tunnel: it answers reads, starts, stops and
    restarts servers, renews its own certificate, takes down the proxy, and updates
    itself where its own policy says so. *)
Theorem read_only_node a actor escaped method b :
  agentMode a = true -> pol_Mode (policy a) <> AgentModeReadWrite ->
  read_only_ok a method (agentRoutes a actor escaped method b).
Proof.
  intros Ha Hm. unfold agentRoutes. destruct (PathUnescape escaped) as [path|]; [|done].
  destruct (mux_serve agentRouteTable method escaped) as [r| |] eqn:Er; [|done|done].
  apply mux_serve_handler in Er as (_ & n & pat & Hf). apply mux_find_in in Hf as [Hin _].
  assert (Hsrv : read_only_ok a method (AServer (handleServer a (controller_user actor) path method (b_action b)))).
  { pose proof (node_server_forward_free a (controller_user actor) path method (b_action b) Ha) as H3.
    destruct (handleServer a _ path method _) as [|route id|act id|id|nd f] eqn:Eo; cbn; try done;
      destruct (runs_here _ _ _ _ _ _ Eo I) as (id' & rt & p & _ & _ & F & _ & _ & Ho).
    - apply (local_part_run _ _ _ _ _ _ _ _ _ F) in Ho as (_ & _ & _ & _ & Hc).
      specialize (Hc Ha). apply read_only_class in Hc as [Hc|Hc]; [by apply (pf_read _ _ _ F)| |done].
      exfalso. pose proof (pf_class _ _ _ F) as Hcl. rewrite Hc in Hcl. by destruct Hcl as [?|[?|[?|[]]]].
    - pose proof (local_part_here a (controller_user actor) id' rt p (b_action b)) as Hx. rewrite Ho in Hx. subst rt.
      apply (local_part_action _ _ _ _ _ _ _ _ F) in Ho as (_ & _ & q & _ & _ & Hc).
      specialize (Hc Ha). by apply read_only_action in Hc. }
  assert (Hbulk : read_only_ok a method (ABulk (handleBulk a (controller_user actor) (b_bulk b)))).
  { destruct (handleBulk a _ _) as [|act l] eqn:E; [done|].
    apply handle_bulk_run in E as (ids & p & _ & Hl & Hp & _ & Hall). destruct ids as [|i ids]; [simpl in Hl; lia|].
    destruct (Hall i ltac:(by left) Ha) as [_ Hc]. apply read_only_action in Hc; [|done].
    unfold BulkActionPermission in Hp. destruct Hc as [<-|[<-|[<-|[<-|[]]]]]; try (by vm_compute; tauto). done. }
  destruct (read_only_proxy a Hm) as [pc Hpc].
  cbn [agentRouteTable In] in Hin.
  repeat (destruct Hin as [Hin|Hin]; [injection Hin as <- <-; node_route Hm Hpc|]). destruct Hin.
Qed.

(** ** FastDL *)

Lemma canonical_names rel : isCanonicalFastDLPath rel = true -> Forall name_ok (split "/" rel).
Proof.
  unfold isCanonicalFastDLPath. destruct (_ || _ || _ || _); [done|]. intros H. rewrite forallb_forall in H.
  apply Forall_forall. intros x Hx. pose proof (split_no_slash rel) as Hs. rewrite Forall_forall in Hs.
  specialize (H x ltac:(by apply list_elem_of_In)). unfold fastdl_segment in H. repeat rewrite andb_true_iff in H.
  destruct H as [[[H1 H2] H3] _]. apply negb_true_iff, String.eqb_neq in H1, H2, H3. split_and!; [done..|by apply Hs].
Qed.

(** Downloads have a pattern of their own on a node. *)
Lemma node_fastdl_route local segs : segs <> [] ->
  mux_find agentRouteTable ("fastdl" :: local :: segs) =
  Some (1%nat, ("/fastdl/", mkAgentRoute [("GET", AccessRead); ("HEAD", AccessRead)] "handleFastDL")).
Proof. intros H. destruct segs as [|x [|y [|z t]]]; done. Qed.

Lemma fastdl_path local rel :
  "/fastdl/" +:+ local +:+ "/" +:+ rel = abs_path ("fastdl" :: local :: split "/" rel).
Proof.
  unfold abs_path. pose proof (split_not_nil "/" rel) as Hne. pose proof (join_split "/" rel) as Hj.
  change (byte_str "/") with "/" in Hj. destruct (split "/" rel) as [|x t]; [done|]. by rewrite !join_cons, Hj.
Qed.

Lemma handle_fastdl_forward a slot path method node fp :
  handleFastDL a slot path method = FForward node fp ->
  In method ["GET"; "HEAD"] /\ agentMode a = false /\ exists local rel,
    cut "/" (trim_prefix path "/fastdl/") = Some (GlobalServerID node local, rel) /\
    IsValidLocalServerID local = true /\ isCanonicalFastDLPath rel = true /\
    fp = "/fastdl/" +:+ local +:+ "/" +:+ rel.
Proof.
  unfold handleFastDL. destruct (mem method ["GET"; "HEAD"]) eqn:Em; [|done]. apply mem_true in Em. cbn [negb].
  destruct (cut "/" _) as [[id rel]|]; [|done].
  destruct (IsValidServerID id) eqn:Ev; [|done]. destruct (isCanonicalFastDLPath rel) eqn:Er; [|done]. cbn [negb orb].
  destruct (valid_server_id_cases id Ev) as [[_ Hs]|(n & l & -> & Hn & Hl & Hs)]; rewrite Hs.
  - cbn -[fastDLMode policyAllowsServer]. by case_match.
  - apply valid_node_nonempty in Hn as Hne. apply String.eqb_neq in Hne. rewrite Hne, Hn. cbn [negb fst snd].
    destruct (agentMode a); [done|]. repeat (case_match; [done|]).
    intros [= <- <-]. split_and!; [done|done|]. by exists l, rel.
Qed.

(** a download the controller passes on names exactly one file to the node: the
    server and the relative path of the request, whatever bytes they contain after
    escaping; the node refuses it or serves that path, and only for a server of its own
    that its policy lists and whose downloads go through the dashboard. *)
Theorem fastdl_forward_exact a slot path method node fp :
  handleFastDL a slot path method = FForward node fp ->
  exists local rel, cut "/" (trim_prefix path "/fastdl/") = Some (GlobalServerID node local, rel) /\
    Forall name_ok (split "/" rel) /\
    forall n actor bd, agentMode n = true ->
      match agentRoutes n actor (EscapePath fp) method bd with
      | AStatus code => code = 403
      | AFastDL (FStatus code) => code = 404
      | AFastDL (FServe id r) => id = local /\ r = rel /\ fastDLMode n local = "dashboard" /\
                                 policyAllowsServer n local = true
      | _ => False
      end.
Proof.
  intros (Hm & _ & local & rel & Hcut & Hl & Hr & ->)%handle_fastdl_forward. exists local, rel.
  pose proof (canonical_names _ Hr) as Hnames. split_and!; [done|done|]. intros n actor bd Hag.
  set (l := "fastdl" :: local :: split "/" rel).
  assert (Hn : Forall name_ok l)
    by (subst l; constructor; [by split_and!|]; constructor; [by apply local_id_name|done]).
  pose proof (split_not_nil "/" rel) as Hne.
  unfold agentRoutes. rewrite fastdl_path. fold l. destruct (sent_path l) as (_ & _ & _ & E4 & _); [done|done|].
  rewrite E4, (mux_serve_below _ method l 1 "/fastdl/" (mkAgentRoute [("GET", AccessRead); ("HEAD", AccessRead)] "handleFastDL"));
    try done; [|by destruct Hm as [<-|[<-|[]]]|cbn; lia|by apply node_fastdl_route|].
  2:{ subst l. cbn [Datatypes.app]. apply node_fastdl_route. by destruct (split "/" rel). }
  assert (Hh : match handleFastDL n false (abs_path l) method with
               | FStatus code => code = 404
               | FServe id r => id = local /\ r = rel /\ fastDLMode n local = "dashboard" /\ policyAllowsServer n local = true
               | FForward _ _ => False
               end).
  { unfold handleFastDL. apply mem_true in Hm. rewrite Hm. cbn [negb]. unfold l. rewrite <- fastdl_path, trim_prefix_app.
    assert (Hc : cut "/" (local +:+ "/" +:+ rel) = Some (local, rel)).
    { change "/"%string with (byte_str "/"). apply cut_app. by apply local_id_name. }
    rewrite Hc. cbn match. rewrite Hr.
    assert (Hv : IsValidServerID local = true).
    { unfold IsValidServerID. apply valid_local_no_tilde in Hl as Ht. apply cut_none in Ht. by rewrite Ht. }
    rewrite Hv, (split_local local Hl). cbn [negb orb String.eqb]. rewrite Hag. cbn [andb].
    destruct (String.eqb_spec (fastDLMode n local) "dashboard"); [|done]. cbn [negb orb].
    destruct (policyAllowsServer n local); done. }
  destruct Hm as [<-|[<-|[]]]; cbn [assoc ar_access String.eqb Ascii.eqb Bool.eqb];
    cbn [mem existsb accessInHandler accessMaintenance]; unfold agent_handler;
    (destruct (agentAllows n AccessRead) eqn:Ea; [|cbn; rewrite ?Ea; done]); cbn -[handleFastDL abs_path l agentAllows]; rewrite ?Ea;
    cbn -[handleFastDL abs_path l]; destruct (handleFastDL _ _ _ _); done.
Qed.

(** ** Concrete runs *)

Definition demo_policy (mode : string) : AgentPolicy := mkAgentPolicy mode ["vhserver"] false false false.
Definition demo_app (agent : bool) (mode : string) : app :=
  mkApp agent (demo_policy mode) (fun id => String.eqb id "vhserver") (fun id => String.eqb id "lxc-1~vhserver")
    (fun _ => mkNodeState true true true "read-write") (fun _ _ => true) true (fun _ => "dashboard").
Definition demo_root : User := mkUser "root" "" RoleAdmin [] [] [] false "" 0 [] "".
Definition demo_body (act : option string) : body := mkBody act None None.

(** A request of a signed-in administrator for a server of a node, from the controller
    to the node: in read-write mode it runs, in read-only mode it is refused. *)
Example forwarded_console :
  handleServer (demo_app false "") demo_root "/api/servers/lxc-1~vhserver/console/send" "POST" None =
    SForward "lxc-1" "/api/servers/vhserver/console/send" /\
  agentRoutes (demo_app true "read-write") "root" (EscapePath "/api/servers/vhserver/console/send") "POST" (demo_body None) =
    AServer (SRun "console/send" "vhserver") /\
  agentRoutes (demo_app true "read-only") "root" (EscapePath "/api/servers/vhserver/console/send") "POST" (demo_body None) =
    AServer (SStatus 403) /\
  handleServer (demo_app false "") demo_user "/api/servers/lxc-2~vhserver/console/send" "POST" None = SStatus 403.
Proof. by vm_compute. Qed.

Lemma forwarded_request_same_route_witness :
  exists o, agentRoutes (demo_app true "read-only") "root" (EscapePath "/api/servers/vhserver/action") "POST"
              (demo_body (Some "start")) = AServer o /\ o = SAction "start" "vhserver".
Proof.
  destruct (forwarded_request_same_route (demo_app false "") demo_root "/api/servers/lxc-1~vhserver/action" "POST"
    (Some "start") "lxc-1" "/api/servers/vhserver/action") as (local & route & p & q & _ & _ & _ & _ & _ & H).
  - vm_compute. reflexivity.
  - destruct (H (demo_app true "read-only") "root" (demo_body (Some "start")) eq_refl eq_refl) as (o & Ho & _).
    exists o. split; [exact Ho|]. vm_compute in Ho. injection Ho as <-. reflexivity.
Defined.

Lemma read_only_node_witness :
  read_only_ok (demo_app true "read-only") "POST"
    (agentRoutes (demo_app true "read-only") "root" "/api/servers/vhserver/delete" "POST" (demo_body None)).
Proof. apply (read_only_node (demo_app true "read-only")); [reflexivity|discriminate]. Defined.

Lemma fastdl_forward_exact_witness :
  match agentRoutes (demo_app true "read-only") "" (EscapePath "/fastdl/vhserver/maps/a b%2f.bsp") "GET" (demo_body None) with
  | AFastDL (FServe id r) => id = "vhserver" /\ r = "maps/a b%2f.bsp"
  | _ => False
  end.
Proof.
  destruct (fastdl_forward_exact (demo_app false "") true "/fastdl/lxc-1~vhserver/maps/a b%2f.bsp" "GET" "lxc-1"
    "/fastdl/vhserver/maps/a b%2f.bsp" eq_refl) as (local & rel & Hc & _ & H).
  vm_compute in Hc. injection Hc as <- <-.
  specialize (H (demo_app true "read-only") "" (demo_body None) eq_refl). vm_compute in H |- *.
  destruct H as (H1 & H2 & _). split; [exact H1|exact H2].
Defined.
