(* ===== verification/Nodes.v ===== *)
(** * Node registry and pairing (agent_nodes.go, agent_pki.go)

    The nodes a controller trusts, by the fingerprints of their public keys, and the
    tokens with which a new node is paired.  Every operation gets the time, its random
    draws and whether writing [nodes.json] succeeds; [stored] is what the file holds.
    The file is modelled as the list of its entries, which JSON keeps as they are
    because every text in it is valid UTF-8.  X.509 is a parameter. *)

From Stdlib Require Import ZArith Lia Bool String Ascii List.
From stdpp Require Import base gmap strings list sorting fin_maps.
From S2P Require Import Prelude GoStrings Text Crypto Validate Authz.

(** ** Certificates *)

Record certificate := mkCert { x_CN : string; x_SPKI : string }.

(** What the code uses of [crypto/x509].  A certificate request is [None] when it does
    not parse; otherwise whether its signature is valid, and its public key when that
    is an Ed25519 key. *)
Class X509 := {
  ParseCertificateRequest : string -> option (bool * option string);
  CreateCertificate : string -> string -> Z -> Z -> option string; (** subject, key, validity *)
  ParseCertificate : string -> option certificate
}.
(** A created certificate parses as what it was made for. *)
Class X509Laws (X : X509) := {
  created_parses cn key nb na der : CreateCertificate cn key nb na = Some der ->
    ParseCertificate der = Some (mkCert cn key)
}.

Inductive node_error :=
| EMode | ERandom | ETooMany | ENotFound | ENameRequired | EInvalidPairingToken
| ERequest | ESignature | EKeyKind | ENodeID | ECreate | EParse | ERemoved | EInUse | ESaveNodes
| EMachineMismatch | ENotPaired | EKeyNotPaired | EBadFile.

Definition AgentNodeCertValidity : Z := 30 * 24 * ns_hour.
Definition agentCertBackdate : Z := 5 * ns_minute.

(** [PublicKeyFingerprint] *)
Definition PublicKeyFingerprint (c : certificate) : string := "sha256:" +:+ hex_encode (sha256 (octets (x_SPKI c))).

Section PKI.
Context `{X509}.

(** [SignNodeCSR]; [serial] says whether a serial number could be drawn. *)
Definition SignNodeCSR (csr nodeID : string) (now : Z) (serial : bool) : result node_error string :=
  match ParseCertificateRequest csr with
  | None => Err ERequest
  | Some (signed, key) =>
      if negb signed then Err ESignature else
      match key with
      | None => Err EKeyKind
      | Some pub =>
          if negb (IsValidNodeID nodeID) then Err ENodeID
          else if negb serial then Err ERandom
          else match CreateCertificate nodeID pub (now - agentCertBackdate) (now + AgentNodeCertValidity) with
               | Some der => Ok der
               | None => Err ECreate
               end
      end
  end.
End PKI.

(** ** State *)

Definition AgentPairingValidity : Z := 15 * ns_minute.
Definition maxPendingPairings : Z := 50.

(** [n_LastSeen] is [None] for the zero time. *)
Record Node := mkNode {
  n_ID : string; n_Name : string; n_Mode : string; n_Keys : list string; n_MachineID : string;
  n_Hostname : string; n_PairedAt : Z; n_LastSeen : option Z; n_Version : string }.

Record pendingPairing := mkPairing {
  pp_nodeID : string; pp_name : string; pp_mode : string; pp_repair : bool; pp_expires : Z }.

Record NodeRegistry := mkRegistry {
  nodes : gmap string Node;
  pairings : gmap string pendingPairing; (** by [pairingKey] *)
  stored : option (list Node) }. (** nodes.json, [None] when it is missing *)

Definition set_nodes (m : gmap string Node) (r : NodeRegistry) : NodeRegistry := mkRegistry m (pairings r) (stored r).
Definition set_pairings (m : gmap string pendingPairing) (r : NodeRegistry) : NodeRegistry :=
  mkRegistry (nodes r) m (stored r).

Definition node_le (a b : Node) : Prop := String.leb (n_ID a) (n_ID b) = true.
#[export] Instance node_le_dec a b : Decision (node_le a b).
Proof. unfold node_le. apply _. Defined.
(** [Nodes]: sorted by ID, as they are listed and saved. *)
Definition Nodes (r : NodeRegistry) : list Node := merge_sort node_le (map snd (map_to_list (nodes r))).

Definition saveLocked (ok : bool) (r : NodeRegistry) : NodeRegistry :=
  if ok then mkRegistry (nodes r) (pairings r) (Some (Nodes r)) else r.
(** The return of [saveLocked] is the return of most operations. *)
Definition saved {A} (ok : bool) (a : A) (r : NodeRegistry) : result node_error A * NodeRegistry :=
  (if ok then Ok a else Err ESaveNodes, saveLocked ok r).

Definition set_mode (mode : string) (n : Node) : Node :=
  mkNode (n_ID n) (n_Name n) mode (n_Keys n) (n_MachineID n) (n_Hostname n) (n_PairedAt n) (n_LastSeen n) (n_Version n).
Definition set_name (name : string) (n : Node) : Node :=
  mkNode (n_ID n) name (n_Mode n) (n_Keys n) (n_MachineID n) (n_Hostname n) (n_PairedAt n) (n_LastSeen n) (n_Version n).
Definition set_keys (keys : list string) (n : Node) : Node :=
  mkNode (n_ID n) (n_Name n) (n_Mode n) keys (n_MachineID n) (n_Hostname n) (n_PairedAt n) (n_LastSeen n) (n_Version n).

(** ** Loading *)

Inductive nodes_file := FMissing | FUnreadable | FMalformed | FEntries (l : list (option Node)).

Fixpoint load_entries (l : list (option Node)) (m : gmap string Node) : result node_error (gmap string Node) :=
  match l with
  | [] => Ok m
  | None :: _ => Err EBadFile
  | Some n :: r =>
      if negb (IsValidNodeID (n_ID n)) || bool_decide (is_Some (m !! n_ID n)) then Err EBadFile
      else load_entries r (<[n_ID n := if IsValidAgentMode (n_Mode n) then n else set_mode AgentModeReadOnly n]> m)
  end.

Definition somes (l : list (option Node)) : list Node := omap id l.

Definition NewNodeRegistry (file : nodes_file) : result node_error NodeRegistry :=
  match file with
  | FMissing => Ok (mkRegistry ∅ ∅ None)
  | FUnreadable | FMalformed => Err EBadFile
  | FEntries l =>
      match load_entries l ∅ with
      | Ok m => Ok (mkRegistry m ∅ (Some (somes l)))
      | Err e => Err e
      end
  end.
(** The file as the program left it. *)
Definition file_of (r : NodeRegistry) : nodes_file :=
  match stored r with None => FMissing | Some l => FEntries (map Some l) end.

(** ** Pairing *)

(** The loop of [nodeIDFromName], on the lower case name. *)
Fixpoint id_chars (dash started : bool) (l : bytes) : bytes :=
  match l with
  | [] => []
  | c :: r =>
      if is_lower c || is_digit c then c :: id_chars false true r
      else if started && negb dash then "-"%char :: id_chars true true r
      else id_chars dash started r
  end.
Definition nodeIDFromName (name : string) : string :=
  let id := trim (of_bytes (id_chars false false (lower_bytes (to_bytes name)))) "-" in
  let id := if 28 <? slen id then trim (stake 28 id) "-" else id in
  if String.eqb id "" then "node" else id.

Definition pairing_for (id : string) (p : pendingPairing) : bool := String.eqb (pp_nodeID p) id && negb (pp_repair p).
Definition idTakenLocked (r : NodeRegistry) (id : string) : bool :=
  bool_decide (is_Some (nodes r !! id)) || existsb (fun e => pairing_for id e.2) (map_to_list (pairings r)).

Definition pruneLocked (now : Z) (r : NodeRegistry) : NodeRegistry :=
  set_pairings (filter (fun e => now < pp_expires e.2) (pairings r)) r.

Definition normalizePairingToken (token : string) : string :=
  replace_byte (replace_byte (of_bytes (upper_bytes (to_bytes token))) "-" "") " " "".
Definition pairingKey (token : string) : string := hex_encode (sha256 (octets (normalizePairingToken token))).

(** Groups of four characters. *)
Fixpoint groups (fuel : nat) (l : bytes) : list bytes :=
  match fuel, l with
  | S f, _ :: _ => take 4 l :: groups f (drop 4 l)
  | _, _ => []
  end.
Definition token_of (raw : list Z) : string :=
  let plain := to_bytes (base32_encode raw) in
  join "-" (map of_bytes (groups (length plain) plain)).

(** The first free of base, base-2, base-3 ...; as many are tried as IDs can be taken. *)
Fixpoint free_node_id (fuel : nat) (r : NodeRegistry) (base id : string) (i : Z) : option string :=
  if idTakenLocked r id then
    match fuel with
    | O => None
    | S f => free_node_id f r base (base +:+ "-" +:+ itoa i) (i + 1)
    end
  else Some id.
Definition taken_bound (r : NodeRegistry) : nat := size (nodes r) + size (pairings r).

Record PairingTicket := mkTicket { t_Token : string; t_NodeID : string; t_Name : string; t_Mode : string; t_Expires : Z }.

(** [raw] is the random draw of 20 bytes, [None] when it failed. *)
Definition CreatePairing (now : Z) (raw : option (list Z)) (name mode repairID : string) (r : NodeRegistry)
  : result node_error PairingTicket * NodeRegistry :=
  let name := sanitizeDisplayText (trim_space name) 64 in
  if negb (IsValidAgentMode mode) then (Err EMode, r) else
  match raw with None => (Err ERandom, r) | Some raw =>
  let token := token_of raw in
  let r := pruneLocked now r in
  if maxPendingPairings <=? Z.of_nat (size (pairings r)) then (Err ETooMany, r) else
  let add p := (Ok (mkTicket token (pp_nodeID p) (pp_name p) (pp_mode p) (pp_expires p)),
                set_pairings (<[pairingKey token := p]> (pairings r)) r) in
  if negb (String.eqb repairID "") then
    match nodes r !! repairID with
    | None => (Err ENotFound, r)
    | Some n => add (mkPairing (n_ID n) (n_Name n) mode true (now + AgentPairingValidity))
    end
  else if String.eqb name "" then (Err ENameRequired, r)
  else
    let base := nodeIDFromName name in
    match free_node_id (taken_bound r) r base base 2 with
    | Some id => add (mkPairing id name mode false (now + AgentPairingValidity))
    | None => (Err ENotFound, r) (** unreachable: [free_node_id_some] *)
    end
  end.

Record EnrollRequest := mkEnroll { e_Token : string; e_CSR : string; e_MachineID : string; e_Hostname : string; e_Version : string }.
Record EnrollResponse := mkResponse { r_NodeID : string; r_Name : string; r_Mode : string; r_Cert : string }.

Section Registry.
Context `{X509}.

Definition Enroll (now : Z) (serial ok : bool) (req : EnrollRequest) (r : NodeRegistry)
  : result node_error EnrollResponse * NodeRegistry :=
  let key := pairingKey (e_Token req) in
  let r := pruneLocked now r in
  match pairings r !! key with
  | None => (Err EInvalidPairingToken, r)
  | Some p =>
      let r := set_pairings (delete key (pairings r)) r in
      match SignNodeCSR (e_CSR req) (pp_nodeID p) now serial with
      | Err e => (Err e, r)
      | Ok der =>
          match ParseCertificate der with
          | None => (Err EParse, r)
          | Some cert =>
              let enroll n :=
                let n := mkNode (n_ID n) (n_Name n) (pp_mode p) [PublicKeyFingerprint cert]
                           (sanitizeDisplayText (e_MachineID req) 64) (sanitizeDisplayText (e_Hostname req) 64)
                           now (n_LastSeen n) (sanitizeDisplayText (e_Version req) 64) in
                let r' := set_nodes (<[n_ID n := n]> (nodes r)) r in
                if ok then (Ok (mkResponse (n_ID n) (n_Name n) (n_Mode n) der), saveLocked true r')
                else (Err ESaveNodes, if pp_repair p then r' else set_nodes (delete (n_ID n) (nodes r')) r') in
              match nodes r !! pp_nodeID p with
              | None => if pp_repair p then (Err ERemoved, r)
                        else enroll (mkNode (pp_nodeID p) (pp_name p) "" [] "" "" 0 None "")
              | Some n => if pp_repair p then enroll n else (Err EInUse, r)
              end
          end
      end
  end.

(** ** Connections *)

(** [VerifyNodeCert] of the certificate a node connected with. *)
Definition VerifyNodeCert (leaf : certificate) (r : NodeRegistry) : option node_error :=
  match nodes r !! x_CN leaf with
  | None => Some ENotPaired
  | Some n => if mem (PublicKeyFingerprint leaf) (n_Keys n) then None else Some EKeyNotPaired
  end.
End Registry.

Definition AddNodeKey (ok : bool) (id fingerprint : string) (r : NodeRegistry) : result node_error unit * NodeRegistry :=
  match nodes r !! id with
  | None => (Err ENotFound, r)
  | Some n =>
      if mem fingerprint (n_Keys n) then (Ok tt, r)
      else saved ok tt (set_nodes (<[id := set_keys (n_Keys n ++ [fingerprint])%list n]> (nodes r)) r)
  end.

Definition RetireNodeKeys (ok : bool) (id keep : string) (r : NodeRegistry) : result node_error unit * NodeRegistry :=
  match nodes r !! id with
  | None => (Err ENotFound, r)
  | Some n =>
      if bool_decide (n_Keys n = [keep]) then (Ok tt, r)
      else saved ok tt (set_nodes (<[id := set_keys [keep] n]> (nodes r)) r)
  end.

Definition RemoveNode (ok : bool) (id : string) (r : NodeRegistry) : result node_error unit * NodeRegistry :=
  match nodes r !! id with
  | None => (Err ENotFound, r)
  | Some _ =>
      saved ok tt (mkRegistry (delete id (nodes r))
                     (filter (fun e => pp_nodeID e.2 <> id) (pairings r)) (stored r))
  end.

Definition UpdateNode (ok : bool) (id name mode : string) (r : NodeRegistry) : result node_error unit * NodeRegistry :=
  let name := sanitizeDisplayText (trim_space name) 64 in
  if String.eqb name "" then (Err ENameRequired, r)
  else if negb (IsValidAgentMode mode) then (Err EMode, r)
  else match nodes r !! id with
       | None => (Err ENotFound, r)
       | Some n => saved ok tt (set_nodes (<[id := set_mode mode (set_name name n)]> (nodes r)) r)
       end.

Definition CheckMachineID (id machineID : string) (r : NodeRegistry) : option node_error :=
  match nodes r !! id with
  | None => Some ENotFound
  | Some n =>
      if negb (String.eqb (n_MachineID n) "") && negb (String.eqb machineID "") &&
         negb (String.eqb (n_MachineID n) (sanitizeDisplayText machineID 64))
      then Some EMachineMismatch else None
  end.

(** [Seen]; a failed write is ignored. *)
Definition Seen (now : Z) (ok : bool) (id version : string) (r : NodeRegistry) : NodeRegistry :=
  match nodes r !! id with
  | None => r
  | Some n =>
      let version := sanitizeDisplayText version 64 in
      let version := if String.eqb version "" then n_Version n else version in
      let recent := match n_LastSeen n with Some t => now - t <? ns_minute | None => false end in
      if recent && String.eqb (n_Version n) version then r
      else saveLocked ok (set_nodes (<[id := mkNode (n_ID n) (n_Name n) (n_Mode n) (n_Keys n) (n_MachineID n)
                                               (n_Hostname n) (n_PairedAt n) (Some now) version]> (nodes r)) r)
  end.

(** ** Runs *)

Inductive node_op :=
| OCreate (name mode repairID : string) (raw : option (list Z))
| OEnroll (req : EnrollRequest) (serial : bool)
| OAddKey (id fingerprint : string)
| ORetire (id keep : string)
| ORemove (id : string)
| OUpdate (id name mode : string)
| OSeen (id version : string)
| ORestart.

(** An operation with its time and whether the file can be written. *)
Record step := mkStep { s_op : node_op; s_now : Z; s_ok : bool }.

Definition no_value {A} (x : result node_error A * NodeRegistry) : result node_error unit * NodeRegistry :=
  (match x.1 with Ok _ => Ok tt | Err e => Err e end, x.2).

Section Runs.
Context `{X509}.

Definition exec (s : step) (r : NodeRegistry) : result node_error unit * NodeRegistry :=
  match s_op s with
  | OCreate name mode repairID raw => no_value (CreatePairing (s_now s) raw name mode repairID r)
  | OEnroll req serial => no_value (Enroll (s_now s) serial (s_ok s) req r)
  | OAddKey id fp => AddNodeKey (s_ok s) id fp r
  | ORetire id keep => RetireNodeKeys (s_ok s) id keep r
  | ORemove id => RemoveNode (s_ok s) id r
  | OUpdate id name mode => UpdateNode (s_ok s) id name mode r
  | OSeen id version => (Ok tt, Seen (s_now s) (s_ok s) id version r)
  | ORestart => match NewNodeRegistry (file_of r) with
                | Ok r' => (Ok tt, r')
                | Err e => (Err e, r)
                end
  end.

Fixpoint exec_all (l : list step) (r : NodeRegistry) : NodeRegistry :=
  match l with
  | [] => r
  | s :: t => exec_all t (exec s r).2
  end.
End Runs.

(** ** Lemmas: loading and saving *)

Definition entry_ok (id : string) (n : Node) : Prop :=
  n_ID n = id /\ IsValidNodeID id = true /\ IsValidAgentMode (n_Mode n) = true.
Definition nodes_ok (m : gmap string Node) : Prop := map_Forall entry_ok m.

Lemma nodes_ok_insert m id n : nodes_ok m -> entry_ok id n -> nodes_ok (<[id := n]> m).
Proof. intros Hm Hn. by apply map_Forall_insert_2. Qed.

Lemma load_entries_ok l : forall m m', nodes_ok m -> load_entries l m = Ok m' -> nodes_ok m'.
Proof.
  induction l as [|[n|] l IH]; intros m m' Hm; cbn [load_entries]; [by intros [= <-]| |done].
  destruct (negb (IsValidNodeID (n_ID n)) || _) eqn:E; [done|]. apply orb_false_iff in E as [E _].
  apply negb_false_iff in E. intros H. apply (IH _ _) in H; [done|]. apply nodes_ok_insert; [done|].
  destruct (IsValidAgentMode (n_Mode n)) eqn:Em; by split_and!.
Qed.

Definition by_id (n : Node) : string * Node := (n_ID n, n).

Lemma load_entries_all l : forall m,
  NoDup (map n_ID l) -> Forall (fun n => entry_ok (n_ID n) n /\ m !! n_ID n = None) l ->
  load_entries (map Some l) m = Ok (list_to_map (map by_id l) ∪ m).
Proof.
  induction l as [|n l IH]; intros m Hd Hl; cbn [map load_entries list_to_map].
  - f_equal. symmetry. apply (left_id_L ∅ (∪)).
  - inversion Hd as [|? ? Hn Hd']; subst. inversion Hl as [|? ? [(_ & Hv & Hm) Hnone] Hl']; subst.
    rewrite Hv, Hm. rewrite bool_decide_eq_false_2 by (rewrite Hnone; by intros [? ?]). cbn [negb orb].
    rewrite IH; [|done|].
    + f_equal. cbn [by_id]. rewrite <- insert_union_r, insert_union_l; [done|].
      apply not_elem_of_list_to_map. rewrite <- list_fmap_compose. exact Hn.
    + rewrite Forall_forall in Hl' |- *. intros x Hx. destruct (Hl' x Hx) as [? ?]. split; [done|].
      rewrite lookup_insert_ne; [done|]. intros E. apply Hn. rewrite E. by apply list_elem_of_fmap_2.
Qed.

Lemma by_id_values m : nodes_ok m -> map by_id (map snd (map_to_list m)) = map_to_list m.
Proof.
  intros Hm. rewrite map_map. rewrite <- (map_id (map_to_list m)) at 2. apply map_ext_in.
  intros [id n] Hin. apply list_elem_of_In, elem_of_map_to_list in Hin. destruct (Hm _ _ Hin) as (E & _).
  unfold by_id. cbn. by rewrite E.
Qed.

(** Reading the file back gives the nodes that were saved. *)
Lemma load_saved r : nodes_ok (nodes r) -> load_entries (map Some (Nodes r)) ∅ = Ok (nodes r).
Proof.
  intros Hm. set (vs := map snd (map_to_list (nodes r))).
  assert (Hp : Nodes r ≡ₚ vs) by apply merge_sort_Permutation.
  assert (Hids : map n_ID vs = map fst (map_to_list (nodes r))).
  { unfold vs. rewrite map_map. apply map_ext_in. intros [id n] Hin.
    apply list_elem_of_In, elem_of_map_to_list in Hin. by destruct (Hm _ _ Hin) as (E & _). }
  rewrite load_entries_all.
  - f_equal. rewrite (right_id_L ∅ (∪)). rewrite (list_to_map_proper (map by_id (Nodes r)) (map by_id vs)).
    + unfold vs. rewrite by_id_values by done. apply list_to_map_to_list.
    + rewrite map_map. change (NoDup (map n_ID (Nodes r))). rewrite Hp, Hids. apply NoDup_fst_map_to_list.
    + by rewrite Hp.
  - rewrite Hp, Hids. apply NoDup_fst_map_to_list.
  - rewrite Hp. apply Forall_forall. intros n Hn. unfold vs in Hn. apply list_elem_of_fmap in Hn as ([id n'] & -> & Hin).
    apply elem_of_map_to_list in Hin. destruct (Hm _ _ Hin) as (E & H1 & H2). cbn [snd].
    split; [rewrite E; by split_and!|apply lookup_empty].
Qed.

Lemma somes_map l : somes (map Some l) = l.
Proof. induction l as [|n l IH]; [done|]. cbn. unfold somes in IH. by rewrite IH. Qed.

(** The nodes a restart finds. *)
Definition stored_nodes (r : NodeRegistry) : gmap string Node :=
  match load_entries (map Some (default [] (stored r))) ∅ with Ok m => m | Err _ => ∅ end.

Lemma stored_saved r : nodes_ok (nodes r) -> stored_nodes (saveLocked true r) = nodes r.
Proof. intros H. unfold stored_nodes. cbn. by rewrite load_saved. Qed.

(** ** Lemmas: the invariant *)

(** New nodes get IDs no node and no other open token has; a token for an existing
    node is only open while the node is there. *)
Record pairings_ok (m : gmap string Node) (ps : gmap string pendingPairing) : Prop := {
  po_node k p : ps !! k = Some p -> if pp_repair p then is_Some (m !! pp_nodeID p) else m !! pp_nodeID p = None;
  po_unique k k' p p' : ps !! k = Some p -> ps !! k' = Some p' -> pp_repair p = false -> pp_repair p' = false ->
    pp_nodeID p = pp_nodeID p' -> k = k';
  po_mode k p : ps !! k = Some p -> IsValidAgentMode (pp_mode p) = true
}.

Record registry_ok (r : NodeRegistry) : Prop := {
  ro_nodes : nodes_ok (nodes r);
  ro_file : exists m, load_entries (map Some (default [] (stored r))) ∅ = Ok m;
  ro_pairings : pairings_ok (nodes r) (pairings r);
  ro_size : Z.of_nat (size (pairings r)) <= maxPendingPairings
}.

Lemma pairings_ok_sub m ps ps' : pairings_ok m ps -> ps' ⊆ ps -> pairings_ok m ps'.
Proof.
  intros H Hs. assert (Hl : forall k p, ps' !! k = Some p -> ps !! k = Some p)
    by (intros k p Hk; by eapply lookup_weaken).
  split.
  - intros k p Hk. by eapply (po_node _ _ H), Hl.
  - intros k k' p p' Hk Hk'. by apply (po_unique _ _ H); apply Hl.
  - intros k p Hk. by eapply (po_mode _ _ H), Hl.
Qed.

(** Only which nodes exist matters for the open tokens. *)
Lemma pairings_ok_dom m m' ps : dom m = dom m' -> pairings_ok m ps -> pairings_ok m' ps.
Proof.
  intros Hd H. split; [|apply (po_unique _ _ H)|apply (po_mode _ _ H)].
  intros k p Hk. pose proof (po_node _ _ H k p Hk) as Hn. destruct (pp_repair p).
  - apply elem_of_dom. rewrite <- Hd. by apply elem_of_dom.
  - apply not_elem_of_dom. rewrite <- Hd. by apply not_elem_of_dom.
Qed.

Lemma size_filter_le (P : string * pendingPairing -> Prop) `{!forall x, Decision (P x)} (ps : gmap string pendingPairing) :
  (size (filter P ps) <= size ps)%nat.
Proof. apply map_subseteq_size, map_filter_subseteq. Qed.

Lemma prune_ok now r : registry_ok r -> registry_ok (pruneLocked now r).
Proof.
  intros [H1 H2 H3 H4]. split; cbn; [done|done| |].
  - eapply pairings_ok_sub; [exact H3|apply map_filter_subseteq].
  - pose proof (size_filter_le (fun e => now < pp_expires e.2) (pairings r)). lia.
Qed.

Lemma consume_ok k r : registry_ok r -> registry_ok (set_pairings (delete k (pairings r)) r).
Proof.
  intros [H1 H2 H3 H4]. split; cbn; [done|done| |].
  - eapply pairings_ok_sub; [exact H3|apply delete_subseteq].
  - pose proof (map_subseteq_size (delete k (pairings r)) (pairings r) (delete_subseteq (pairings r) k)). lia.
Qed.

Lemma save_ok ok r : registry_ok r -> registry_ok (saveLocked ok r).
Proof.
  intros [H1 H2 H3 H4]. destruct ok; [|by split]. split; cbn; try done. exists (nodes r). by apply load_saved.
Qed.

(** An operation that changes an existing node. *)
Lemma change_ok id n n' r : registry_ok r -> nodes r !! id = Some n -> entry_ok id n' ->
  registry_ok (set_nodes (<[id := n']> (nodes r)) r).
Proof.
  intros [H1 H2 H3 H4] Hn He. split; cbn; [by apply nodes_ok_insert|done| |done].
  eapply pairings_ok_dom; [|exact H3]. rewrite dom_insert_L. apply elem_of_dom_2 in Hn. set_solver.
Qed.

Lemma saved_ok {A} ok (a : A) r : registry_ok r -> registry_ok (saved ok a r).2.
Proof. intros H. by apply save_ok. Qed.

(** ** Lemmas: IDs of new nodes *)

Definition taken_ids (r : NodeRegistry) : gset string :=
  dom (nodes r) ∪ list_to_set (map (fun e => pp_nodeID e.2) (map_to_list (pairings r))).

Lemma taken_ids_size r : (size (taken_ids r) <= taken_bound r)%nat.
Proof.
  unfold taken_ids, taken_bound. rewrite size_union_alt. rewrite size_dom.
  assert (H : forall l : list string, (size (list_to_set (C := gset string) l) <= length l)%nat).
  { intros l. induction l as [|x l IH]; [by rewrite list_to_set_nil, size_empty|]. cbn [list_to_set length].
    pose proof (size_union_alt ({[x]} : gset string) (list_to_set l)) as Hs. rewrite size_singleton in Hs.
    pose proof (subseteq_size (list_to_set l ∖ {[x]}) (list_to_set l : gset string) ltac:(set_solver)). cbn. lia. }
  pose proof (subseteq_size (list_to_set (map (fun e => pp_nodeID e.2) (map_to_list (pairings r))) ∖ dom (nodes r))
    (list_to_set (map (fun e => pp_nodeID e.2) (map_to_list (pairings r))) : gset string) ltac:(set_solver)) as Hs.
  specialize (H (map (fun e => pp_nodeID e.2) (map_to_list (pairings r)))). rewrite length_map in H.
  rewrite length_map_to_list in H. cbn in *. lia.
Qed.

Lemma taken_in r id : idTakenLocked r id = true -> id ∈ taken_ids r.
Proof.
  unfold idTakenLocked, taken_ids. intros [H|H]%orb_true_iff.
  - apply bool_decide_eq_true in H. apply elem_of_union_l. by apply elem_of_dom.
  - apply existsb_exists in H as ([k p] & Hin & [Hp%String.eqb_eq _]%andb_true_iff). apply elem_of_union_r.
    apply elem_of_list_to_set, list_elem_of_In, in_map_iff. by exists (k, p).
Qed.

Lemma not_taken r id : idTakenLocked r id = false ->
  nodes r !! id = None /\ forall k p, pairings r !! k = Some p -> pp_repair p = false -> pp_nodeID p <> id.
Proof.
  unfold idTakenLocked. intros [H1 H2]%orb_false_iff. apply bool_decide_eq_false in H1. split; [by apply eq_None_not_Some|].
  intros k p Hp Hr E. rewrite <- not_true_iff_false in H2. apply H2, existsb_exists. exists (k, p).
  split; [by apply list_elem_of_In, elem_of_map_to_list|]. unfold pairing_for. cbn. by rewrite E, String.eqb_refl, Hr.
Qed.

Lemma free_node_id_free fuel : forall r base id i id',
  free_node_id fuel r base id i = Some id' -> idTakenLocked r id' = false.
Proof.
  induction fuel as [|fuel IH]; intros r base id i id'; cbn [free_node_id];
    destruct (idTakenLocked r id) eqn:E; try done; try (by intros [= <-]). by apply IH.
Qed.

(** More numbers are tried than IDs are taken. *)
Lemma free_node_id_some r base fuel : forall id i (seen : gset string),
  seen ⊆ taken_ids r -> (size (taken_ids r) <= fuel + size seen)%nat -> 2 <= i -> i + Z.of_nat fuel <= int64_max ->
  id ∉ seen -> (forall m, i <= m <= int64_max -> (base +:+ "-" +:+ itoa m) ∉ seen /\ (base +:+ "-" +:+ itoa m) <> id) ->
  exists id', free_node_id fuel r base id i = Some id'.
Proof.
  induction fuel as [|fuel IH]; intros id i seen Hsub Hsz H2 Hmax Hid Hm; cbn [free_node_id];
    destruct (idTakenLocked r id) eqn:Et; try (by eexists); apply taken_in in Et.
  - exfalso. assert (size ({[id]} ∪ seen) <= size (taken_ids r))%nat as Hs by (apply subseteq_size; set_solver).
    rewrite size_union, size_singleton in Hs by set_solver. lia.
  - apply (IH _ _ ({[id]} ∪ seen)); [set_solver| |lia|lia| |].
    + rewrite size_union, size_singleton by set_solver. lia.
    + destruct (Hm i ltac:(lia)). set_solver.
    + intros m Hmi. destruct (Hm m ltac:(lia)) as [H3 H4]. split; [set_solver|]. intros E. apply numbered_inj in E; lia.
Qed.

Lemma new_id_found r base : Z.of_nat (taken_bound r) <= 2 ^ 62 ->
  exists id, free_node_id (taken_bound r) r base base 2 = Some id.
Proof.
  intros Hb. pose proof (taken_ids_size r). apply (free_node_id_some _ _ _ _ _ ∅).
  - apply empty_subseteq.
  - rewrite size_empty. lia.
  - lia.
  - unfold int64_max. lia.
  - apply not_elem_of_empty.
  - intros m _. split; [apply not_elem_of_empty|]. intros E. apply (f_equal String.length) in E.
    rewrite string_app_length in E. simpl in E. lia.
Qed.

#[local] Opaque pairingKey token_of sanitizeDisplayText nodeIDFromName sha256.

Lemma create_pairing_shape now raw name mode repairID r res r' :
  CreatePairing now raw name mode repairID r = (res, r') ->
  r' = r \/ r' = pruneLocked now r \/
  exists raw' p t, raw = Some raw' /\ IsValidAgentMode mode = true /\ pp_mode p = mode /\
    Z.of_nat (size (pairings (pruneLocked now r))) < maxPendingPairings /\
    pp_expires p = now + AgentPairingValidity /\
    (if pp_repair p then exists n, nodes r !! repairID = Some n /\ pp_nodeID p = n_ID n
     else idTakenLocked (pruneLocked now r) (pp_nodeID p) = false) /\
    res = Ok t /\ t_Token t = token_of raw' /\ t_NodeID t = pp_nodeID p /\ t_Expires t = pp_expires p /\
    r' = set_pairings (<[pairingKey (token_of raw') := p]> (pairings (pruneLocked now r))) (pruneLocked now r).
Proof.
  unfold CreatePairing. destruct (IsValidAgentMode mode) eqn:Em; cbn [negb]; [|intros [= <- <-]; by left].
  destruct raw as [raw'|]; [|intros [= <- <-]; by left].
  destruct (Z.leb_spec maxPendingPairings (Z.of_nat (size (pairings (pruneLocked now r))))) as [|Hsz];
    [intros [= <- <-]; by right; left|].
  destruct (negb (String.eqb repairID "")).
  - cbn [nodes pruneLocked set_pairings]. destruct (nodes r !! repairID) as [n|] eqn:En; [|intros [= <- <-]; by right; left].
    intros [= <- <-]. right; right. eexists raw', _, _. split_and!; try done; cbn; try done. by exists n.
  - destruct (String.eqb _ ""); [intros [= <- <-]; by right; left|].
    destruct (free_node_id _ _ _ _ _) as [id|] eqn:Ef; [|intros [= <- <-]; by right; left].
    apply free_node_id_free in Ef. intros [= <- <-]. right; right. eexists raw', _, _. by split_and!; try done; cbn.
Qed.

Lemma create_pairing_ok now raw name mode repairID r :
  registry_ok r -> registry_ok (CreatePairing now raw name mode repairID r).2.
Proof.
  intros Hr. destruct (CreatePairing now raw name mode repairID r) as [res r'] eqn:E.
  apply create_pairing_shape in E as [->|[->|(raw' & p & t & -> & Hm & Hpm & Hsz & _ & Hid & _ & _ & _ & _ & ->)]]; cbn [snd].
  { done. } { by apply prune_ok. }
  apply (prune_ok now) in Hr. set (q := pruneLocked now r) in *. destruct Hr as [H1 H2 H3 H4].
  split; cbn [nodes pairings stored set_pairings]; [done|done| |].
  - assert (Hnew : if pp_repair p then is_Some (nodes q !! pp_nodeID p)
      else nodes q !! pp_nodeID p = None /\ forall k p', pairings q !! k = Some p' -> pp_repair p' = false -> pp_nodeID p' <> pp_nodeID p).
    { destruct (pp_repair p); [|by apply not_taken].
      destruct Hid as (n & Hn & ->). destruct (H1 _ _ Hn) as (-> & _). by exists n. }
    clear Hid. split.
    + intros k p'. rewrite lookup_insert_Some. intros [[<- <-]|[_ Hk]]; [|by apply (po_node _ _ H3 k)].
      destruct (pp_repair p); [done|]. by apply Hnew.
    + intros k k' p1 p2. rewrite !lookup_insert_Some. intros [[<- <-]|[Hk1 Hp1]] [[<- <-]|[Hk2 Hp2]] Hr1 Hr2 Heq.
      * done.
      * rewrite Hr1 in Hnew. by destruct Hnew as [_ Hnew]; destruct (Hnew k' p2 Hp2 Hr2).
      * rewrite Hr2 in Hnew. by destruct Hnew as [_ Hnew]; destruct (Hnew k p1 Hp1 Hr1).
      * by eapply (po_unique _ _ H3).
    + intros k p'. rewrite lookup_insert_Some. intros [[<- <-]|[_ Hk]]; [by rewrite Hpm|by apply (po_mode _ _ H3 k)].
  - change (Z.of_nat (size (<[pairingKey (token_of raw') := p]> (pairings q))) <= maxPendingPairings).
    rewrite map_size_insert. destruct (pairings q !! _); unfold id; lia.
Qed.

Section Invariant.
Context `{HX : X509}.

(** What Enroll does: nothing but dropping tokens, or one node gets the key of the
    request and the mode of the token. *)
Lemma enroll_shape now serial ok req r res r' : Enroll now serial ok req r = (res, r') ->
  let r0 := pruneLocked now r in let key := pairingKey (e_Token req) in
  (pairings r0 !! key = None /\ res = Err EInvalidPairingToken /\ r' = r0) \/
  exists p, pairings r0 !! key = Some p /\ let r1 := set_pairings (delete key (pairings r0)) r0 in
    ((exists e, res = Err e /\ r' = r1 /\
        (e = ERemoved -> pp_repair p = true /\ nodes r !! pp_nodeID p = None) /\
        (e = EInUse -> pp_repair p = false /\ is_Some (nodes r !! pp_nodeID p))) \/
     exists n cert der, SignNodeCSR (e_CSR req) (pp_nodeID p) now serial = Ok der /\ ParseCertificate der = Some cert /\
       (if pp_repair p then exists n0, nodes r !! pp_nodeID p = Some n0 /\ n_ID n = n_ID n0
        else nodes r !! pp_nodeID p = None /\ n_ID n = pp_nodeID p) /\
       n_Keys n = [PublicKeyFingerprint cert] /\ n_Mode n = pp_mode p /\
       let r2 := set_nodes (<[n_ID n := n]> (nodes r)) r1 in
       ((ok = true /\ (exists t, res = Ok t /\ r_NodeID t = n_ID n) /\ r' = saveLocked true r2) \/
        (ok = false /\ res = Err ESaveNodes /\ pp_repair p = true /\ r' = r2) \/
        (ok = false /\ res = Err ESaveNodes /\ pp_repair p = false /\ r' = set_nodes (delete (n_ID n) (nodes r2)) r2))).
Proof.
  unfold Enroll. set (r0 := pruneLocked now r). set (key := pairingKey (e_Token req)).
  destruct (pairings r0 !! key) as [p|] eqn:Ep; [|intros [= <- <-]; by left]. intros E. right. exists p. split; [done|].
  set (r1 := set_pairings (delete key (pairings r0)) r0) in *. cbn zeta.
  destruct (SignNodeCSR (e_CSR req) (pp_nodeID p) now serial) as [der|e] eqn:Es.
  2:{ injection E as <- <-. left. exists e. split_and!; try done; intros ->; exfalso; revert Es; unfold SignNodeCSR;
      repeat case_match; done. }
  destruct (ParseCertificate der) as [cert|] eqn:Ec; [|injection E as <- <-; left; by eexists].
  change (nodes r1) with (nodes r) in E. destruct (nodes r !! pp_nodeID p) as [n|] eqn:En.
  - destruct (pp_repair p) eqn:Er; [|injection E as <- <-; left; eexists; split_and!; try done; by eexists].
    right. eexists (mkNode (n_ID n) (n_Name n) (pp_mode p) _ _ _ _ _ _), cert, der. split_and!; try done.
    + by exists n.
    + destruct ok; injection E as <- <-; [left|right; left]; split_and!; try done. by eexists.
  - destruct (pp_repair p) eqn:Er; [injection E as <- <-; left; by eexists|].
    right. eexists (mkNode (pp_nodeID p) (pp_name p) (pp_mode p) _ _ _ _ _ _), cert, der. split_and!; try done.
    destruct ok; injection E as <- <-; [left|right; right]; split_and!; try done. by eexists.
Qed.

Lemma enroll_mode now serial ok req r res r' : Enroll now serial ok req r = (res, r') ->
  forall t, res = Ok t -> exists p, pairings r !! pairingKey (e_Token req) = Some p /\ r_Mode t = pp_mode p.
Proof.
  unfold Enroll. intros E t ->. destruct (pairings (pruneLocked now r) !! _) as [p|] eqn:Ep; [|done].
  exists p. cbn in Ep. apply map_lookup_filter_Some in Ep as [Ep _]. split; [done|].
  destruct (SignNodeCSR _ _ _ _) as [der|]; [|done]. destruct (ParseCertificate der) as [cert|]; [|done].
  destruct (nodes _ !! pp_nodeID p) as [n|]; destruct (pp_repair p); try done; destruct ok; try done; by injection E as <-.
Qed.

Lemma sign_valid csr id now serial der : SignNodeCSR csr id now serial = Ok der -> IsValidNodeID id = true.
Proof. unfold SignNodeCSR. intros H. destruct (IsValidNodeID id); [done|]. by repeat case_match. Qed.

Lemma enroll_ok now serial ok req r : registry_ok r -> registry_ok (Enroll now serial ok req r).2.
Proof.
  intros Hr. destruct (Enroll now serial ok req r) as [res r'] eqn:E. apply (prune_ok now) in Hr.
  apply enroll_shape in E as [(_ & _ & ->)|(p & Hp & E)]; [done|]. cbn zeta in E.
  apply (consume_ok (pairingKey (e_Token req))) in Hr as Hc. set (r1 := set_pairings _ _) in *.
  destruct E as [(e & _ & -> & _)|(n & cert & der & Hs & Hcert & Hn & Hk & Hm & E)]; [done|].
  apply sign_valid in Hs. pose proof (po_mode _ _ (ro_pairings _ Hr) _ _ Hp) as Hmode.
  assert (Hid : n_ID n = pp_nodeID p).
  { destruct (pp_repair p); [|by destruct Hn]. destruct Hn as (n0 & Hn0 & ->).
    by destruct (ro_nodes _ Hr _ _ Hn0) as (-> & _). }
  assert (He : entry_ok (n_ID n) n) by (split_and!; [done|by rewrite Hid|by rewrite Hm]).
  assert (Hnodes : nodes r1 = nodes r) by done.
  assert (Hr2 : registry_ok (set_nodes (<[n_ID n := n]> (nodes r)) r1)).
  { rewrite <- Hnodes. destruct (pp_repair p) eqn:Erep.
    - destruct Hn as (n0 & Hn0 & Hid0). apply (change_ok (n_ID n) n0); [done| |done]. by rewrite Hnodes, Hid.
    - destruct Hc as [H1 H2 H3 H4]. split; cbn [nodes pairings stored set_nodes]; try done.
      + by apply nodes_ok_insert.
      + split; [|apply (po_unique _ _ H3)|apply (po_mode _ _ H3)]. intros k p' Hk'.
        pose proof (po_node _ _ H3 k p' Hk') as Hp'. destruct (pp_repair p') eqn:Er'.
        * apply elem_of_dom. rewrite dom_insert. apply elem_of_dom in Hp'. set_solver.
        * rewrite lookup_insert_ne; [done|]. intros Heq. cbn in Hk'. apply lookup_delete_Some in Hk' as [Hne Hk'].
          apply Hne. apply (po_unique _ _ (ro_pairings _ Hr) _ _ p p'); try done. by rewrite <- Hid. }
  destruct E as [(_ & _ & ->)|[(_ & _ & _ & ->)|(_ & _ & Hrep & ->)]]; cbn [snd]; [by apply save_ok|done|].
  cbn [nodes set_nodes pairings stored]. rewrite Hrep in Hn. destruct Hn as [Hnone _].
  rewrite delete_insert_id by by rewrite Hid. exact Hc.
Qed.

Lemma remove_ok ok id r : registry_ok r -> registry_ok (RemoveNode ok id r).2.
Proof.
  intros Hr. unfold RemoveNode. destruct (nodes r !! id); [|done]. apply saved_ok. destruct Hr as [H1 H2 H3 H4].
  split; cbn [nodes pairings stored]; [|done| |].
  - by apply map_Forall_delete.
  - assert (Hl : forall k p, filter (fun e => pp_nodeID e.2 <> id) (pairings r) !! k = Some p ->
      pairings r !! k = Some p /\ pp_nodeID p <> id) by (intros k p; by rewrite map_lookup_filter_Some).
    split.
    + intros k p [Hk Hne]%Hl. pose proof (po_node _ _ H3 k p Hk) as Hp.
      destruct (pp_repair p); by rewrite lookup_delete_ne.
    + intros k k' p p' [Hk _]%Hl [Hk' _]%Hl. by apply (po_unique _ _ H3).
    + intros k p [Hk _]%Hl. by apply (po_mode _ _ H3 k).
  - pose proof (size_filter_le (fun e => pp_nodeID e.2 <> id) (pairings r)). lia.
Qed.

Lemma load_registry l : forall m, load_entries (map Some l) ∅ = Ok m ->
  registry_ok (mkRegistry m ∅ (Some l)).
Proof.
  intros m Hm. split; cbn; [by eapply load_entries_ok; [apply map_Forall_empty|]|by exists m| |done].
  split; intros k; intros; by rewrite lookup_empty in *.
Qed.

Lemma restart_ok r : registry_ok r -> exists r', NewNodeRegistry (file_of r) = Ok r' /\ registry_ok r' /\
  nodes r' = stored_nodes r /\ pairings r' = ∅ /\ stored r' = stored r.
Proof.
  intros Hr. destruct (ro_file _ Hr) as [m Hm]. unfold file_of, stored_nodes. destruct (stored r) as [l|] eqn:El; cbn in *.
  - rewrite Hm. eexists. split; [done|]. rewrite somes_map. split_and!; try done. by apply load_registry.
  - eexists. split; [done|]. split_and!; try done. split; cbn; [apply map_Forall_empty|by eexists| |done].
    split; intros k; intros; by rewrite lookup_empty in *.
Qed.

Lemma exec_ok s r : registry_ok r -> registry_ok (exec s r).2.
Proof.
  intros Hr. assert (He : forall id n, nodes r !! id = Some n -> entry_ok id n) by (intros id n; apply (ro_nodes _ Hr)).
  destruct s as [op now ok]. destruct op; cbn [exec s_op s_now s_ok no_value].
  - by apply create_pairing_ok.
  - by apply enroll_ok.
  - unfold AddNodeKey. destruct (nodes r !! id) as [n|] eqn:En; [|done]. destruct (mem _ _); [done|].
    apply saved_ok. eapply change_ok; [done..|]. exact (He _ _ En).
  - unfold RetireNodeKeys. destruct (nodes r !! id) as [n|] eqn:En; [|done]. case_bool_decide; [done|].
    apply saved_ok. eapply change_ok; [done..|]. exact (He _ _ En).
  - by apply remove_ok.
  - unfold UpdateNode. destruct (String.eqb _ ""); [done|]. destruct (IsValidAgentMode mode) eqn:Em; [|done].
    cbn [negb]. destruct (nodes r !! id) as [n|] eqn:En; [|done]. apply saved_ok. eapply change_ok; [done..|].
    destruct (He _ _ En) as (? & ? & _). by split_and!.
  - unfold Seen. cbn [snd]. destruct (nodes r !! id) as [n|] eqn:En; [|done]. cbn zeta. destruct (_ && _); [done|].
    apply save_ok. eapply change_ok; [done..|]. exact (He _ _ En).
  - destruct (restart_ok r Hr) as (r' & -> & H & _). done.
Qed.

Lemma exec_all_ok l : forall r, registry_ok r -> registry_ok (exec_all l r).
Proof. induction l as [|s l IH]; intros r Hr; [done|]. apply IH. by apply exec_ok. Qed.

Lemma exec_all_app l1 l2 : forall r, exec_all (l1 ++ l2) r = exec_all l2 (exec_all l1 r).
Proof. induction l1 as [|s l IH]; intros r; [done|]. apply IH. Qed.

Lemma new_registry_ok file r : NewNodeRegistry file = Ok r -> registry_ok r.
Proof.
  unfold NewNodeRegistry. destruct file as [| | |l]; [|done|done|].
  - intros [= <-]. split; cbn; [apply map_Forall_empty|by eexists| |done].
    split; intros k; intros; by rewrite lookup_empty in *.
  - destruct (load_entries l ∅) as [m|] eqn:E; [|done]. intros [= <-]. apply load_registry.
    assert (Hsome : forall l m, load_entries l m = load_entries (map Some (somes l)) m \/ exists e, load_entries l m = Err e).
    { clear. induction l as [|[n|] l IH]; intros m; cbn; [by left| |right; by eexists].
      destruct (_ || _); [right; by eexists|]. apply IH. }
    destruct (Hsome l ∅) as [Hs|[e He]]; congruence.
Qed.
End Invariant.
