(* ===== verification/NodeAccess.v ===== *)
(** * Which keys a controller trusts (agent_nodes.go)

    The specification of the registry: the keys and the access mode of every node, as
    the running controller uses them and as the file keeps them.  [registry_refines]
    shows that the registry of Nodes.v takes only steps of this specification and that
    [VerifyNodeCert] accepts exactly the keys it lists; that revoked keys stay revoked
    is then proved of the specification.  The life of a pairing token follows. *)

From Stdlib Require Import ZArith Lia Bool String Ascii List.
From stdpp Require Import base gmap strings list.
From S2P Require Import Prelude GoStrings Text Crypto Validate Authz Nodes.

(** ** Specification *)

(** The fingerprints a node may connect with, and its access mode. *)
Record entry := mkEntry { en_keys : gset string; en_mode : string }.
Definition allow_list : Type := gmap string entry.
Record access := mkAccess { live : allow_list; kept : allow_list }.

Inductive change :=
| CPair (id key mode : string) (** a new node *)
| CRepair (id key mode : string) (** an existing node gets a new key instead of all others *)
| CAllow (id key : string)
| COnly (id key : string)
| CDrop (id : string)
| CMode (id mode : string).

(** [None] when the change does not apply. *)
Definition apply_change (c : change) (m : allow_list) : option allow_list :=
  match c with
  | CPair id key mode => match m !! id with None => Some (<[id := mkEntry {[key]} mode]> m) | Some _ => None end
  | CRepair id key mode => match m !! id with Some _ => Some (<[id := mkEntry {[key]} mode]> m) | None => None end
  | CAllow id key => match m !! id with Some n => Some (<[id := mkEntry ({[key]} ∪ en_keys n) (en_mode n)]> m) | None => None end
  | COnly id key => match m !! id with Some n => Some (<[id := mkEntry {[key]} (en_mode n)]> m) | None => None end
  | CDrop id => match m !! id with Some _ => Some (delete id m) | None => None end
  | CMode id mode => match m !! id with Some n => Some (<[id := mkEntry (en_keys n) mode]> m) | None => None end
  end.

Definition lists (m : allow_list) (id key : string) : Prop := exists n, m !! id = Some n /\ key ∈ en_keys n.

Section Spec.
Context `{X509}.

(** The fingerprint of the key a certificate request proves to have. *)
Definition request_key (csr : string) : option string :=
  match ParseCertificateRequest csr with
  | Some (true, Some pub) => Some (PublicKeyFingerprint (mkCert "" pub))
  | _ => None
  end.

(** The changes an operation may make. *)
Definition may_do (o : node_op) (c : change) : Prop :=
  match o, c with
  | OEnroll req _, (CPair id key mode | CRepair id key mode) =>
      request_key (e_CSR req) = Some key /\ IsValidNodeID id = true /\ IsValidAgentMode mode = true
  | OAddKey id key, CAllow id' key' => id' = id /\ key' = key
  | ORetire id key, COnly id' key' => id' = id /\ key' = key
  | ORemove id, CDrop id' => id' = id
  | OUpdate id _ mode, CMode id' mode' => id' = id /\ mode' = mode
  | _, _ => False
  end.

(** When an operation reports success without a change. *)
Definition in_effect (o : node_op) (m : allow_list) : Prop :=
  match o with
  | OCreate _ _ _ _ | OSeen _ _ => True
  | OAddKey id key => lists m id key
  | ORetire id key => exists n, m !! id = Some n /\ en_keys n = {[key]}
  | _ => False
  end.

(** One operation with its result: nothing changes; or the change is made and written,
    which is reported as success; or it is made but could not be written; [OSeen] may
    write what is there; a restart continues with what was written. *)
Inductive access_step (o : node_op) : result node_error unit -> access -> access -> Prop :=
| step_refused e a : access_step o (Err e) a a
| step_done a : in_effect o (live a) -> access_step o (Ok tt) a a
| step_change c l a : may_do o c -> apply_change c (live a) = Some l -> access_step o (Ok tt) a (mkAccess l l)
| step_unsaved c l a : may_do o c -> apply_change c (live a) = Some l ->
    access_step o (Err ESaveNodes) a (mkAccess l (kept a))
| step_written id v a : o = OSeen id v -> access_step o (Ok tt) a (mkAccess (live a) (live a))
| step_restart a : o = ORestart -> access_step o (Ok tt) a (mkAccess (kept a) (kept a)).

(** ** Abstraction *)

Definition entry_of (n : Node) : entry := mkEntry (list_to_set (n_Keys n)) (n_Mode n).
Definition access_of (r : NodeRegistry) : access := mkAccess (entry_of <$> nodes r) (entry_of <$> stored_nodes r).

Lemma live_lookup r id : live (access_of r) !! id = entry_of <$> nodes r !! id.
Proof. apply lookup_fmap. Qed.

Lemma access_saved ok r : nodes_ok (nodes r) ->
  access_of (saveLocked ok r) = if ok then mkAccess (live (access_of r)) (live (access_of r)) else access_of r.
Proof. intros Hr. destruct ok; [|done]. unfold access_of. by rewrite stored_saved. Qed.

(** Tokens do not matter here. *)
Lemma access_pairings ps r : access_of (set_pairings ps r) = access_of r.
Proof. done. Qed.

Lemma sign_key csr id now serial der cert `{!X509Laws _} :
  SignNodeCSR csr id now serial = Ok der -> ParseCertificate der = Some cert ->
  request_key csr = Some (PublicKeyFingerprint cert).
Proof.
  unfold SignNodeCSR, request_key. destruct (ParseCertificateRequest csr) as [[[] [pub|]]|]; try done.
  cbn [negb]. destruct (negb (IsValidNodeID id)); [done|]. destruct (negb serial); [done|].
  destruct (CreateCertificate _ _ _ _) as [d|] eqn:E; [|done]. intros [= ->]. rewrite (created_parses _ _ _ _ _ E).
  by intros [= <-].
Qed.

(** A change of one node, in the registry and in the specification. *)
Lemma changed_node o c id n n' r ok :
  nodes_ok (<[id := n']> (nodes r)) -> nodes r !! id = Some n -> may_do o c ->
  apply_change c (live (access_of r)) = Some (<[id := entry_of n']> (live (access_of r))) ->
  access_step o (saved ok tt (set_nodes (<[id := n']> (nodes r)) r)).1 (access_of r)
    (access_of (saved ok tt (set_nodes (<[id := n']> (nodes r)) r)).2).
Proof.
  intros Hok Hn Hdo Hc. unfold saved. cbn [fst snd]. rewrite access_saved by done.
  assert (Hl : live (access_of (set_nodes (<[id := n']> (nodes r)) r)) = <[id := entry_of n']> (live (access_of r)))
    by apply fmap_insert.
  destruct ok.
  - rewrite Hl. by apply (step_change _ c).
  - assert (Ha : access_of (set_nodes (<[id := n']> (nodes r)) r) =
                 mkAccess (<[id := entry_of n']> (live (access_of r))) (kept (access_of r))) by (rewrite <- Hl; done).
    rewrite Ha. by apply (step_unsaved _ c).
Qed.

(** ** Refinement *)

Lemma enroll_refines `{!X509Laws _} now serial ok req r : registry_ok r ->
  access_step (OEnroll req serial) (no_value (Enroll now serial ok req r)).1 (access_of r)
    (access_of (no_value (Enroll now serial ok req r)).2).
Proof.
  intros Hr. destruct (Enroll now serial ok req r) as [res r'] eqn:E. cbn [no_value fst snd].
  pose proof (enroll_ok now serial ok req r Hr) as Hr'. rewrite E in Hr'. cbn [snd] in Hr'.
  apply enroll_shape in E as [(_ & -> & ->)|(p & Hp & E)]; [apply step_refused|]. cbn zeta in E.
  destruct E as [(e & -> & -> & _)|(n & cert & der & Hs & Hcert & Hn & Hk & Hm & E)]; [apply step_refused|].
  pose proof (sign_valid _ _ _ _ _ Hs) as Hv.
  pose proof (sign_key _ _ _ _ _ _ Hs Hcert) as Hkey.
  apply (prune_ok now) in Hr as Hr0. pose proof (po_mode _ _ (ro_pairings _ Hr0) _ _ Hp) as Hmode.
  assert (Hid : n_ID n = pp_nodeID p).
  { destruct (pp_repair p); [|by destruct Hn]. destruct Hn as (n0 & Hn0 & ->). by destruct (ro_nodes _ Hr _ _ Hn0) as (-> & _). }
  set (r2 := set_nodes (<[n_ID n := n]> (nodes r)) _) in E.
  assert (Hl : live (access_of r2) = <[n_ID n := entry_of n]> (live (access_of r))) by apply fmap_insert.
  assert (Hentry : entry_of n = mkEntry {[PublicKeyFingerprint cert]} (pp_mode p)).
  { unfold entry_of. rewrite Hk, Hm. f_equal. cbn. by rewrite (right_id_L ∅ (∪)). }
  set (c := if pp_repair p then CRepair (n_ID n) (PublicKeyFingerprint cert) (pp_mode p)
            else CPair (n_ID n) (PublicKeyFingerprint cert) (pp_mode p)).
  assert (Hdo : may_do (OEnroll req serial) c) by (unfold c; destruct (pp_repair p); cbn; by rewrite Hid).
  assert (Hc : apply_change c (live (access_of r)) = Some (live (access_of r2))).
  { rewrite Hl, Hentry. unfold c. rewrite Hid in *. destruct (pp_repair p); cbn [apply_change]; rewrite live_lookup.
    - destruct Hn as (n0 & -> & _). done.
    - destruct Hn as [-> _]. done. }
  destruct E as [(-> & (t & -> & _) & ->)|[(-> & -> & Hrep & ->)|(-> & -> & Hrep & ->)]].
  - rewrite access_saved.
    + by apply (step_change _ c).
    + pose proof (ro_nodes _ Hr') as Hok. exact Hok.
  - apply (step_unsaved _ c _ (access_of r)); done.
  - replace (access_of (set_nodes _ _)) with (access_of r); [apply step_refused|].
    rewrite Hrep in Hn. destruct Hn as [Hn _].
    assert (Hd : delete (n_ID n) (nodes r2) = nodes r) by (unfold r2; cbn; by rewrite delete_insert_id by by rewrite Hid).
    by rewrite Hd.
Qed.

Lemma seen_refines now ok id version r : registry_ok r ->
  access_step (OSeen id version) (Ok tt) (access_of r) (access_of (Seen now ok id version r)).
Proof.
  intros Hr. unfold Seen. destruct (nodes r !! id) as [n|] eqn:En; [|by apply step_done]. cbn zeta.
  set (v := if String.eqb _ "" then _ else _). destruct (_ && _); [by apply step_done|].
  set (n' := mkNode _ _ _ _ _ _ _ _ _). destruct (ro_nodes _ Hr _ _ En) as (H1 & H2 & H3).
  assert (Hsame : live (access_of (set_nodes (<[id := n']> (nodes r)) r)) = live (access_of r)).
  { cbn. rewrite fmap_insert. apply map_eq. intros k. rewrite !lookup_fmap.
    destruct (decide (k = id)) as [->|]; [|by rewrite lookup_insert_ne, lookup_fmap].
    by rewrite lookup_insert_eq, En. }
  rewrite access_saved; [|apply nodes_ok_insert; [apply Hr|by split_and!]].
  rewrite Hsame. destruct ok; [by eapply step_written|].
  replace (access_of (set_nodes _ r)) with (access_of r); [by apply step_done|].
  unfold access_of. f_equal. exact (eq_sym Hsame).
Qed.

(** Every operation of the registry is a step of the specification. *)
Lemma exec_refines `{!X509Laws _} s r : registry_ok r ->
  access_step (s_op s) (exec s r).1 (access_of r) (access_of (exec s r).2).
Proof.
  intros Hr. assert (He : forall id n, nodes r !! id = Some n -> entry_ok id n) by (intros id n; apply (ro_nodes _ Hr)).
  assert (Hin : forall id n n', nodes r !! id = Some n -> n_ID n' = n_ID n -> IsValidAgentMode (n_Mode n') = true ->
    nodes_ok (<[id := n']> (nodes r))).
  { intros id n n' Hn E Hm. apply nodes_ok_insert; [apply Hr|]. destruct (He _ _ Hn) as (E1 & ? & _).
    split_and!; [by rewrite E|done|done]. }
  destruct s as [op now ok]. destruct op; cbn [exec s_op s_now s_ok].
  - destruct (CreatePairing _ _ _ _ _ _) as [res r'] eqn:E. unfold no_value. cbn [fst snd].
    assert (Ha : access_of r' = access_of r).
    { apply create_pairing_shape in E as [->|[->|(? & ? & ? & _ & _ & _ & _ & _ & _ & _ & _ & _ & _ & ->)]]; done. }
    rewrite Ha. destruct res; [by apply step_done|apply step_refused].
  - by apply enroll_refines.
  - unfold AddNodeKey. destruct (nodes r !! id) as [n|] eqn:En; [|apply step_refused].
    destruct (mem fingerprint (n_Keys n)) eqn:Em.
    + apply step_done. exists (entry_of n). split; [by rewrite live_lookup; cbn [fst snd]; rewrite En|].
      apply elem_of_list_to_set, list_elem_of_In. by apply mem_true.
    + apply (changed_node _ (CAllow id fingerprint) _ n); [|done|done|].
      * eapply Hin; [exact En|done|]. by apply (He _ _ En).
      * cbn [apply_change]. rewrite live_lookup, En. cbn. do 2 f_equal. unfold entry_of. cbn.
        f_equal. rewrite list_to_set_app_L. cbn. set_solver.
  - unfold RetireNodeKeys. destruct (nodes r !! id) as [n|] eqn:En; [|apply step_refused].
    case_bool_decide as Hk.
    + apply step_done. exists (entry_of n). split; [by rewrite live_lookup; cbn [fst snd]; rewrite En|]. unfold entry_of. rewrite Hk. cbn. set_solver.
    + apply (changed_node _ (COnly id keep) _ n); [|done|done|].
      * eapply Hin; [exact En|done|]. by apply (He _ _ En).
      * cbn [apply_change]. rewrite live_lookup, En. cbn. do 2 f_equal. unfold entry_of. cbn. f_equal. set_solver.
  - unfold RemoveNode. destruct (nodes r !! id) as [n|] eqn:En; [|apply step_refused]. unfold saved. cbn [fst snd].
    rewrite access_saved; [|cbn; apply map_Forall_delete, Hr].
    assert (Hl : live (access_of (mkRegistry (delete id (nodes r)) (filter (fun e => pp_nodeID e.2 <> id) (pairings r)) (stored r)))
                 = delete id (live (access_of r))) by apply fmap_delete.
    assert (Hc : apply_change (CDrop id) (live (access_of r)) = Some (delete id (live (access_of r))))
      by (cbn [apply_change]; by rewrite live_lookup, En).
    destruct ok; rewrite <- Hl in Hc; [by apply (step_change _ (CDrop id))|].
    by apply (step_unsaved _ (CDrop id) _ (access_of r)).
  - unfold UpdateNode. destruct (String.eqb _ ""); [apply step_refused|].
    destruct (IsValidAgentMode mode) eqn:Em; [|apply step_refused]. cbn [negb].
    destruct (nodes r !! id) as [n|] eqn:En; [|apply step_refused].
    apply (changed_node _ (CMode id mode) _ n); [|done|done|].
    + eapply Hin; [exact En|done|done].
    + cbn [apply_change]. by rewrite live_lookup, En.
  - by apply seen_refines.
  - destruct (restart_ok r Hr) as (r' & -> & _ & Hn & _ & Hs). cbn [fst snd].
    replace (access_of r') with (mkAccess (kept (access_of r)) (kept (access_of r))); [by apply step_restart|].
    unfold access_of. cbn. rewrite Hn. f_equal. unfold stored_nodes. by rewrite Hs.
Qed.

Lemma verify_lists leaf r :
  VerifyNodeCert leaf r = None <-> lists (live (access_of r)) (x_CN leaf) (PublicKeyFingerprint leaf).
Proof.
  unfold VerifyNodeCert, lists. rewrite live_lookup. destruct (nodes r !! x_CN leaf) as [n|]; cbn.
  - destruct (mem (PublicKeyFingerprint leaf) (n_Keys n)) eqn:E.
    + apply mem_true in E. split; [intros _|done]. eexists. split; [done|]. by apply elem_of_list_to_set, list_elem_of_In.
    + apply mem_false in E. split; [done|]. intros (m & [= <-] & Hk). apply elem_of_list_to_set, list_elem_of_In in Hk. done.
  - split; [done|]. by intros (m & ? & _).
Qed.

(** The operations of a run, with their results. *)
Fixpoint results (l : list step) (r : NodeRegistry) : list (node_op * result node_error unit) :=
  match l with
  | [] => []
  | s :: t => (s_op s, (exec s r).1) :: results t (exec s r).2
  end.

Inductive access_run : list (node_op * result node_error unit) -> access -> access -> Prop :=
| run_nil a : access_run [] a a
| run_cons o res t a b c : access_step o res a b -> access_run t b c -> access_run ((o, res) :: t) a c.

Lemma results_refine `{!X509Laws _} l : forall r, registry_ok r ->
  access_run (results l r) (access_of r) (access_of (exec_all l r)).
Proof.
  induction l as [|s l IH]; intros r Hr; cbn [results exec_all]; [constructor|].
  eapply run_cons; [by apply exec_refines|]. by apply IH, exec_ok.
Qed.

(** ** Revoked keys *)

(** Only these operations make a key of a node valid. *)
Definition grants (o : node_op) (id key : string) : Prop :=
  match o with
  | OEnroll req _ => request_key (e_CSR req) = Some key
  | OAddKey id' key' | ORetire id' key' => id' = id /\ key' = key
  | _ => False
  end.

Lemma change_grants o c m l id key : may_do o c -> apply_change c m = Some l -> lists l id key ->
  grants o id key \/ lists m id key.
Proof.
  intros Hdo Hc (n & Hn & Hk).
  assert (Hold : forall n', m !! id = Some n' -> key ∈ en_keys n' -> grants o id key \/ lists m id key)
    by (intros n' H1 H2; right; by exists n').
  destruct c as [i k md|i k md|i k|i k|i|i md]; cbn [apply_change] in Hc;
    destruct (m !! i) as [n0|] eqn:E; try done; injection Hc as <-.
  - apply lookup_insert_Some in Hn as [[-> <-]|[Hne Hn]]; [|by eapply Hold]. left. cbn in Hk.
    apply elem_of_singleton in Hk as ->. destruct o; try done. by destruct Hdo as (? & _).
  - apply lookup_insert_Some in Hn as [[-> <-]|[Hne Hn]]; [|by eapply Hold]. left. cbn in Hk.
    apply elem_of_singleton in Hk as ->. destruct o; try done. by destruct Hdo as (? & _).
  - apply lookup_insert_Some in Hn as [[-> <-]|[Hne Hn]]; [|by eapply Hold]. cbn in Hk.
    apply elem_of_union in Hk as [->%elem_of_singleton|Hk]; [|by eapply Hold]. left. destruct o; try done.
    by destruct Hdo as [-> ->].
  - apply lookup_insert_Some in Hn as [[-> <-]|[Hne Hn]]; [|by eapply Hold]. left. cbn in Hk.
    apply elem_of_singleton in Hk as ->. destruct o; try done. by destruct Hdo as [-> ->].
  - apply lookup_delete_Some in Hn as [_ Hn]. by eapply Hold.
  - apply lookup_insert_Some in Hn as [[-> <-]|[Hne Hn]]; [|by eapply Hold]. by eapply Hold.
Qed.

(** Neither the running controller nor its file lists the key. *)
Definition unlisted (a : access) (id key : string) : Prop := ~ lists (live a) id key /\ ~ lists (kept a) id key.

Lemma step_unlisted o res a b id key :
  access_step o res a b -> ~ grants o id key -> unlisted a id key -> unlisted b id key.
Proof.
  intros Hs Hg [H1 H2]. destruct Hs as [| |c l a Hdo Hc|c l a Hdo Hc| |]; try done.
  - assert (~ lists l id key) by (intros Hl; destruct (change_grants _ _ _ _ _ _ Hdo Hc Hl); done). done.
  - split; [|done]. intros Hl. by destruct (change_grants _ _ _ _ _ _ Hdo Hc Hl).
Qed.

Lemma run_unlisted `{!X509Laws _} l id key : forall r, registry_ok r -> Forall (fun t => ~ grants (s_op t) id key) l ->
  unlisted (access_of r) id key -> unlisted (access_of (exec_all l r)) id key.
Proof.
  induction l as [|s l IH]; intros r Hr Hl Hu; [done|]. inversion Hl; subst. cbn [exec_all].
  apply IH; [by apply exec_ok|done|]. by eapply step_unlisted; [apply exec_refines| |].
Qed.

(** An operation that succeeded and changed something leaves nothing unwritten. *)
Lemma success_written o a b : access_step o (Ok tt) a b -> live b = live a \/ kept b = live b.
Proof. intros Hs. inversion Hs; subst; auto. Qed.

(** * Properties *)

(** C36: from a loaded file on, every run of the registry, with restarts and failing
    writes anywhere in it, is a run of the specification of trusted keys, and a
    connection is accepted exactly when the specification lists its key for the node of
    its certificate. *)
Theorem registry_refines `{!X509Laws _} file r l :
  NewNodeRegistry file = Ok r ->
  access_run (results l r) (access_of r) (access_of (exec_all l r)) /\
  forall leaf, VerifyNodeCert leaf (exec_all l r) = None <->
               lists (live (access_of (exec_all l r))) (x_CN leaf) (PublicKeyFingerprint leaf).
Proof.
  intros Hr%new_registry_ok. split; [by apply results_refine|]. intros leaf. apply verify_lists.
Qed.

(** a key an operation took away and reported as done (the node was removed, paired
    again, or its old key retired) is refused for good: through every later operation,
    failed write and restart, until that very key is granted again. *)
Theorem revoked_key_refused `{!X509Laws _} s r r1 id key l leaf :
  registry_ok r -> exec s r = (Ok tt, r1) ->
  lists (live (access_of r)) id key -> ~ lists (live (access_of r1)) id key ->
  Forall (fun t => ~ grants (s_op t) id key) l ->
  x_CN leaf = id -> PublicKeyFingerprint leaf = key ->
  VerifyNodeCert leaf (exec_all l r1) <> None.
Proof.
  intros Hr Hs Hbefore Hafter Hl <- <-. rewrite verify_lists. apply run_unlisted; [|done|].
  - pose proof (exec_ok s r Hr) as H1. by rewrite Hs in H1.
  - pose proof (exec_refines s r Hr) as H1. rewrite Hs in H1. cbn [fst snd] in H1.
    apply success_written in H1 as [E|E]; [by rewrite E in Hafter|]. split; [done|]. by rewrite E.
Qed.

(** ** Pairing tokens *)

(** The run that made the token [k]: nothing used it since, and the controller was not
    restarted. *)
Definition opened_by (l : list step) (k : string) (p : pendingPairing) : Prop :=
  exists l1 s l2 name mode repairID raw, l = (l1 ++ s :: l2)%list /\
    s_op s = OCreate name mode repairID (Some raw) /\ pairingKey (token_of raw) = k /\
    pp_mode p = mode /\ pp_expires p = s_now s + AgentPairingValidity /\
    Forall (fun t => match s_op t with
                     | OEnroll req _ => pairingKey (e_Token req) <> k
                     | ORestart => False
                     | _ => True
                     end) l2.

Lemma exec_pairings s r k p : registry_ok r -> pairings (exec s r).2 !! k = Some p ->
  (pairings r !! k = Some p /\ match s_op s with OEnroll req _ => pairingKey (e_Token req) <> k | ORestart => False | _ => True end) \/
  opened_by [s] k p.
Proof.
  intros Hr. destruct s as [op now ok]. destruct op; cbn [exec s_op s_now s_ok no_value snd].
  - destruct (CreatePairing _ _ _ _ _ _) as [res r'] eqn:E. cbn [snd].
    assert (Hp : pairings (pruneLocked now r) !! k = Some p -> pairings r !! k = Some p)
      by (cbn; intros H2; by apply map_lookup_filter_Some in H2 as [? _]).
    apply create_pairing_shape in E as [->|[->|(raw' & p' & t & -> & _ & Hm & _ & He & _ & _ & _ & _ & _ & ->)]]; [by left|by left; auto|].
    cbn [pairings set_pairings]. rewrite lookup_insert_Some. intros [[<- <-]|[Hne Hk]]; [right|left; by auto].
    by exists [], (mkStep (OCreate name mode repairID (Some raw')) now ok), [], name, mode, repairID, raw'.
  - destruct (Enroll _ _ _ _ _) as [res r'] eqn:E. cbn [snd]. apply enroll_shape in E. cbn zeta in E. intros Hk.
    assert (Hsub : pairings r' = delete (pairingKey (e_Token req)) (pairings (pruneLocked now r))).
    { destruct E as [(Hnone & _ & ->)|(p0 & Hp0 & [(e & _ & -> & _)|(n & cert & der & _ & _ & _ & _ & _ & E)])].
      - by rewrite delete_id.
      - done.
      - destruct E as [(_ & _ & ->)|[(_ & _ & _ & ->)|(_ & _ & _ & ->)]]; done. }
    rewrite Hsub in Hk. apply lookup_delete_Some in Hk as [Hne Hk]. cbn in Hk. apply map_lookup_filter_Some in Hk as [Hk _]. by left.
  - unfold AddNodeKey. destruct (nodes r !! id); [|by left]. destruct (mem _ _); [by left|]. destruct ok; by left.
  - unfold RetireNodeKeys. destruct (nodes r !! id); [|by left]. case_bool_decide; [by left|]. destruct ok; by left.
  - unfold RemoveNode. destruct (nodes r !! id); [|by left]. unfold saved. cbn [snd]. intros Hk. left. split; [|done].
    destruct ok; cbn in Hk; by apply map_lookup_filter_Some in Hk as [? _].
  - unfold UpdateNode. destruct (String.eqb _ ""); [by left|]. destruct (negb _); [by left|].
    destruct (nodes r !! id); [|by left]. destruct ok; by left.
  - unfold Seen. destruct (nodes r !! id); [|by left]. cbn zeta. destruct (_ && _); [by left|]. destruct ok; by left.
  - destruct (restart_ok r Hr) as (r' & -> & _ & _ & Hp & _). cbn [snd]. rewrite Hp. by rewrite lookup_empty.
Qed.

Lemma opened_later l s k p : opened_by l k p ->
  match s_op s with OEnroll req _ => pairingKey (e_Token req) <> k | ORestart => False | _ => True end ->
  opened_by (l ++ [s]) k p.
Proof.
  intros (l1 & t & l2 & name & mode & rep & raw & -> & H1 & H2 & H3 & H4 & H5) Hs.
  exists l1, t, (l2 ++ [s])%list, name, mode, rep, raw. rewrite <- app_assoc. split_and!; try done.
  apply Forall_app. split; [done|]. by constructor.
Qed.

Lemma run_pairings l : forall r, registry_ok r -> pairings r = ∅ -> forall k p,
  pairings (exec_all l r) !! k = Some p -> opened_by l k p.
Proof.
  intros r Hr Hp. induction l as [|s l IH] using rev_ind; intros k p; [cbn [exec_all]; by rewrite Hp, lookup_empty|].
  rewrite exec_all_app. cbn [exec_all]. intros Hk. apply exec_pairings in Hk as [[Hk Hs]|Hk]; [| |by apply exec_all_ok].
  - apply opened_later; [by apply IH|done].
  - destruct Hk as (l1 & t & l2 & name & mode & rep & raw & E & Hrest).
    exists (l ++ l1)%list, t, l2, name, mode, rep, raw. rewrite E, app_assoc. done.
Qed.

(** a pairing token works once and for 15 minutes: an enrolment only gets past the
    token check if an administrator's request drew that token at most 15 minutes ago, and
    since then nobody has used it (successfully or not) and the controller was not
    restarted.  It then pairs exactly the node and mode of that request. *)
Theorem pairing_token_once file r l now serial ok req res r' :
  NewNodeRegistry file = Ok r -> Enroll now serial ok req (exec_all l r) = (res, r') ->
  res <> Err EInvalidPairingToken ->
  exists l1 s l2 name mode repairID raw, l = (l1 ++ s :: l2)%list /\
    s_op s = OCreate name mode repairID (Some raw) /\
    pairingKey (token_of raw) = pairingKey (e_Token req) /\ now < s_now s + 15 * ns_minute /\
    Forall (fun t => match s_op t with
                     | OEnroll req' _ => pairingKey (e_Token req') <> pairingKey (e_Token req)
                     | ORestart => False
                     | _ => True
                     end) l2 /\
    (forall t, res = Ok t -> r_Mode t = mode) /\ pairings r' !! pairingKey (e_Token req) = None.
Proof.
  intros Hnew E Hne. pose proof (new_registry_ok _ _ Hnew) as Hr.
  assert (Hempty : pairings r = ∅).
  { unfold NewNodeRegistry in Hnew. repeat case_match; try done; by injection Hnew as <-. }
  pose proof (enroll_mode _ _ _ _ _ _ _ E) as Hmode.
  apply enroll_shape in E as [(_ & -> & _)|(p & Hp & E)]; [done|]. cbn zeta in E. cbn in Hp.
  apply map_lookup_filter_Some in Hp as [Hp Hexp]. cbn in Hexp.
  pose proof (run_pairings l r Hr Hempty _ _ Hp) as (l1 & s & l2 & name & mode & rep & raw & -> & Hop & Hk & Hm & He & Hl2).
  exists l1, s, l2, name, mode, rep, raw. split_and!; try done.
  - rewrite He in Hexp. exact Hexp.
  - intros t Ht. destruct (Hmode t Ht) as (p' & Hp' & ->). rewrite Hp in Hp'. by injection Hp' as <-.
  - assert (Hd : pairings r' = delete (pairingKey (e_Token req)) (pairings (pruneLocked now (exec_all (l1 ++ s :: l2) r)))).
    { destruct E as [(e & _ & -> & _)|(n & cert & der & _ & _ & _ & _ & _ & E)]; [done|].
      destruct E as [(_ & _ & ->)|[(_ & _ & _ & ->)|(_ & _ & _ & ->)]]; done. }
    rewrite Hd. apply lookup_delete_eq.
Qed.
End Spec.

(** opening a pairing token fails for no other reason than the documented ones (an
    invalid mode, no random bytes, 50 open tokens, no name, or an unknown node to pair
    again): a free ID is always found.  And whatever happens between opening and using
    a token, its enrolment never finds its node removed or its ID taken. *)
Theorem pairing_never_conflicts `{X509} file r0 l r :
  NewNodeRegistry file = Ok r0 -> r = exec_all l r0 -> Z.of_nat (size (nodes r)) <= 2 ^ 61 ->
  (forall now raw name mode repairID,
     is_ok (CreatePairing now raw name mode repairID r).1 = true <->
     IsValidAgentMode mode = true /\ is_Some raw /\
     Z.of_nat (size (pairings (pruneLocked now r))) < maxPendingPairings /\
     if String.eqb repairID "" then sanitizeDisplayText (trim_space name) 64 <> "" else is_Some (nodes r !! repairID)) /\
  (forall now serial ok req res r', Enroll now serial ok req r = (res, r') -> res <> Err ERemoved /\ res <> Err EInUse) /\
  Z.of_nat (size (pairings r)) <= maxPendingPairings.
Proof.
  intros Hr%new_registry_ok -> Hsz. apply (exec_all_ok l) in Hr. set (r := exec_all l r0) in *.
  split_and!; [| |apply Hr].
  - intros now raw name mode repairID. unfold CreatePairing.
    destruct (IsValidAgentMode mode); cbn [negb]; [|by split; [|intros (? & _)]].
    destruct raw as [raw|]; [|by split; [|intros (_ & [? ?] & _)]].
    destruct (Z.leb_spec maxPendingPairings (Z.of_nat (size (pairings (pruneLocked now r))))) as [Hle|Hlt].
    { split; [done|]. intros (_ & _ & ? & _). lia. }
    destruct (String.eqb repairID ""); cbn [negb].
    + destruct (String.eqb_spec (sanitizeDisplayText (trim_space name) 64) "") as [E|E].
      { split; [done|]. by intros (_ & _ & _ & ?). }
      destruct (new_id_found (pruneLocked now r) (nodeIDFromName (sanitizeDisplayText (trim_space name) 64))) as [id ->].
      { unfold taken_bound. change (nodes (pruneLocked now r)) with (nodes r). unfold maxPendingPairings in Hlt.
        rewrite Nat2Z.inj_add. lia. }
      split; [intros _|done]. split_and!; try done.
    + cbn [nodes pruneLocked set_pairings]. destruct (nodes r !! repairID) as [n|].
      * split; [intros _|done]. split_and!; try done.
      * split; [done|]. by intros (_ & _ & _ & [? ?]).
  - intros now serial ok req res r' E. apply (prune_ok now) in Hr as Hr1.
    apply enroll_shape in E as [(_ & -> & _)|(p & Hp & E)]; [done|]. cbn zeta in E.
    pose proof (po_node _ _ (ro_pairings _ Hr1) _ _ Hp) as Hn. change (nodes (pruneLocked now r)) with (nodes r) in Hn.
    destruct E as [(e & -> & _ & H1 & H2)|(n & cert & der & _ & _ & _ & _ & _ & E)].
    + split; intros [= ->].
      * destruct (H1 eq_refl) as [Hrep Hnone]. rewrite Hrep, Hnone in Hn. by destruct Hn.
      * destruct (H2 eq_refl) as [Hrep [n Hsome]]. rewrite Hrep, Hsome in Hn. done.
    + destruct E as [(_ & (t & -> & _) & _)|[(_ & -> & _)|(_ & -> & _)]]; done.
Qed.

(** ** A concrete registry *)

(** Requests that are their key, certificates that are their subject and key. *)
#[local] Instance toy_x509 : X509 := {
  ParseCertificateRequest csr := Some (true, Some csr);
  CreateCertificate cn key _ _ := if contains_byte cn "|" then None else Some (cn +:+ "|" +:+ key);
  ParseCertificate der := match cut "|" der with Some (cn, key) => Some (mkCert cn key) | None => None end
}.
#[local] Instance toy_x509_laws : X509Laws toy_x509.
Proof.
  split. intros cn key nb na der. cbn. destruct (contains_byte cn "|") eqn:E; [done|]. intros [= <-].
  change "|"%string with (byte_str "|"). by rewrite cut_app.
Qed.

Definition demo_raw : list Z := seq 1 20 ≫= fun n => [Z.of_nat n].
Definition demo_token : string := token_of demo_raw.
Definition demo_run : list step :=
  [mkStep (OCreate " Büro 1" AgentModeReadWrite "" (Some demo_raw)) 0 true;
   mkStep (OEnroll (mkEnroll demo_token "key-a" "m1" "host" "1.0") true) (10 * ns_minute) true].
Definition demo_registry : NodeRegistry := exec_all demo_run (mkRegistry ∅ ∅ None).
Definition demo_leaf (key : string) : certificate := mkCert "b-ro-1" key.

Example demo_pairing :
  demo_token = "AEBA-GBAF-AYDQ-QCIK-BMGA-2DQP-CAIR-EEYU" /\
  nodes demo_registry !! "b-ro-1" = Some (mkNode "b-ro-1" "Büro 1" AgentModeReadWrite
    [PublicKeyFingerprint (demo_leaf "key-a")] "m1" "host" (10 * ns_minute) None "1.0") /\
  VerifyNodeCert (demo_leaf "key-a") demo_registry = None /\
  (Enroll (10 * ns_minute) true true (mkEnroll demo_token "key-b" "" "" "") demo_registry).1 = Err EInvalidPairingToken /\
  (Enroll (15 * ns_minute) true true (mkEnroll demo_token "key-b" "" "" "")
     (exec_all (take 1 demo_run) (mkRegistry ∅ ∅ None))).1 = Err EInvalidPairingToken.
Proof. by vm_compute. Qed.

(** A node that was removed while the file could not be written is back after a restart,
    and until then it cannot be removed again: the second try finds no node. *)
Example removed_node_returns :
  let failed := RemoveNode false "b-ro-1" demo_registry in
  failed.1 = Err ESaveNodes /\
  VerifyNodeCert (demo_leaf "key-a") failed.2 = Some ENotPaired /\
  (RemoveNode true "b-ro-1" failed.2).1 = Err ENotFound /\
  VerifyNodeCert (demo_leaf "key-a") (exec_all [mkStep (ORemove "b-ro-1") 0 true; mkStep ORestart 0 true] failed.2) = None.
Proof. by vm_compute. Qed.

Lemma registry_refines_witness :
  access_run (results demo_run (mkRegistry ∅ ∅ None)) (access_of (mkRegistry ∅ ∅ None)) (access_of demo_registry).
Proof. apply (proj1 (registry_refines FMissing (mkRegistry ∅ ∅ None) demo_run eq_refl)). Defined.

Lemma revoked_key_refused_witness :
  VerifyNodeCert (demo_leaf "key-a")
    (exec_all [mkStep ORestart 0 true] (exec (mkStep (ORemove "b-ro-1") 0 true) demo_registry).2) <> None.
Proof.
  apply (revoked_key_refused (mkStep (ORemove "b-ro-1") 0 true) demo_registry _ "b-ro-1"
    (PublicKeyFingerprint (demo_leaf "key-a"))).
  - apply exec_all_ok. apply (new_registry_ok FMissing). reflexivity.
  - vm_compute. reflexivity.
  - exists (mkEntry {[PublicKeyFingerprint (demo_leaf "key-a")]} AgentModeReadWrite). split; [vm_compute; reflexivity|set_solver].
  - intros (n & Hn & _). vm_compute in Hn. discriminate Hn.
  - constructor; [intros []|constructor].
  - reflexivity.
  - reflexivity.
Defined.

Lemma pairing_token_once_witness : exists raw, pairingKey (token_of raw) = pairingKey demo_token.
Proof.
  set (req := mkEnroll "aeba gbaf aydq qcik bmga 2dqp cair eeyu" "key-a" "m1" "host" "1.0").
  set (r := exec_all (take 1 demo_run) (mkRegistry ∅ ∅ None)).
  assert (Hok : is_ok (Enroll (10 * ns_minute) true true req r).1 = true) by (vm_compute; reflexivity).
  destruct (Enroll (10 * ns_minute) true true req r) as [res r'] eqn:E.
  destruct (pairing_token_once FMissing (mkRegistry ∅ ∅ None) (take 1 demo_run) (10 * ns_minute) true true req res r' eq_refl E)
    as (l1 & s & l2 & name & mode & rep & raw & _ & _ & H & _).
  - intros ->. discriminate Hok.
  - exists raw. rewrite H. vm_compute. reflexivity.
Defined.

Lemma pairing_never_conflicts_witness :
  is_ok (CreatePairing 0 (Some demo_raw) "Büro 1" AgentModeReadOnly "" (exec_all demo_run (mkRegistry ∅ ∅ None))).1 = true.
Proof.
  assert (Hs : Z.of_nat (size (nodes (exec_all demo_run (mkRegistry ∅ ∅ None)))) <= 2 ^ 61) by (vm_compute; discriminate).
  destruct (pairing_never_conflicts FMissing (mkRegistry ∅ ∅ None) demo_run _ eq_refl eq_refl Hs) as [H _].
  apply H. split; [reflexivity|]. split; [by eexists|]. split; vm_compute; [reflexivity|discriminate].
Defined.
