(* ===== verification/Query.v ===== *)
(** * Live queries of game servers (query.go)

    The answers come from the network, byte by byte as a stranger sends them.  A read
    outside a buffer, at which Go panics, is the error [EPanic] here, so that a theorem
    can say it never happens.  A connection is the list of what arrives on it; when
    that is used up, a read fails as at the deadline.  Bytes are numbers. *)

From Stdlib Require Import ZArith Lia Bool String Ascii List.
From Stdlib Require Import SpecFloat.
From stdpp Require Import base gmap strings list.
From S2P Require Import Prelude GoStrings Text Crypto GoNet ProxyController.

(** ** Slices *)

Inductive query_error := EFormat | EDeadline | EWrite | ECompressed | EChallengeLoop | EPanic.

Definition llen {A} (l : list A) : Z := Z.of_nat (length l).
(** [l[i]] and [l[a:b]] *)
Definition idx {A} (l : list A) (i : Z) : result query_error A :=
  if 0 <=? i then match nth_error l (Z.to_nat i) with Some v => Ok v | None => Err EPanic end else Err EPanic.
Definition slice (l : list Z) (a b : Z) : result query_error (list Z) :=
  if (0 <=? a) && (a <=? b) && (b <=? llen l)
  then Ok (take (Z.to_nat (b - a)) (drop (Z.to_nat a) l)) else Err EPanic.
Definition from (l : list Z) (a : Z) : result query_error (list Z) := slice l a (llen l).

Definition le_value (l : list Z) : Z := fold_right (fun b v => b + 256 * v) 0 l.
(** [binary.LittleEndian.Uint16] and [Uint32] of a slice *)
Definition le_uint (n : Z) (l : list Z) : result query_error Z := let? s := slice l 0 n in Ok (le_value s).
Definition int32 (z : Z) : Z := (z + 2 ^ 31) mod 2 ^ 32 - 2 ^ 31.
Definition byte (z : Z) : Z := z mod 256.

(** ** Byte reader *)

Record byteReader := mkReader { rb : list Z; rpos : Z; rerr : bool }.
Definition newReader (b : list Z) : byteReader := mkReader b 0 false.
Definition failed (r : byteReader) : byteReader := mkReader (rb r) (rpos r) true.
Definition advance (n : Z) (r : byteReader) : byteReader := mkReader (rb r) (rpos r + n) (rerr r).

Definition u8 (r : byteReader) : result query_error (Z * byteReader) :=
  if rerr r || (llen (rb r) <? rpos r + 1) then Ok (0, failed r)
  else let? v := idx (rb r) (rpos r) in Ok (v, advance 1 r).
Definition uint (n : Z) (r : byteReader) : result query_error (Z * byteReader) :=
  if rerr r || (llen (rb r) <? rpos r + n) then Ok (0, failed r)
  else let? s := from (rb r) (rpos r) in let? v := le_uint n s in Ok (v, advance n r).
Definition u16 : byteReader -> result query_error (Z * byteReader) := uint 2.
Definition u32le : byteReader -> result query_error (Z * byteReader) := uint 4.

(** [bytes.IndexByte] *)
Fixpoint index_byte (l : list Z) (c : Z) : option nat :=
  match l with
  | [] => None
  | b :: r => if b =? c then Some O else option_map S (index_byte r c)
  end.
Definition str (r : byteReader) : result query_error (string * byteReader) :=
  if rerr r then Ok ("", r) else
  let? s := from (rb r) (rpos r) in
  match index_byte s 0 with
  | None => Ok ("", failed r)
  | Some n => let? t := slice (rb r) (rpos r) (rpos r + Z.of_nat n) in Ok (of_octets t, advance (Z.of_nat n + 1) r)
  end.

(** ** Split answers *)

Definition a2sMaxSplitParts : Z := 32.
Inductive layout := SplitSource | SplitSourceOld | SplitGoldSrc.

Definition starts (p : list Z) (at_ : Z) : result query_error bool :=
  if llen p <? at_ + 4 then Ok false else
  let? a := idx p at_ in let? b := idx p (at_ + 1) in let? c := idx p (at_ + 2) in let? d := idx p (at_ + 3) in
  Ok ((a =? 0xFF) && (b =? 0xFF) && (c =? 0xFF) && (d =? 0xFF)).

(** [None] for a part that does not show its layout. *)
Definition detectA2SSplitLayout (p : list Z) : result query_error (option layout) :=
  let? s9 := starts p 9 in
  let? h := (if s9 : bool then idx p 8 else Ok 0) in
  if s9 && (Z.shiftr h 4 =? 0) then Ok (Some SplitGoldSrc) else
  let? n := (if 9 <? llen p then idx p 9 else Ok 0) in
  if (9 <? llen p) && negb (n =? 0) then Ok None else
  let? s10 := starts p 10 in
  if s10 : bool then Ok (Some SplitSourceOld) else
  let? s12 := starts p 12 in
  if s12 : bool then Ok (Some SplitSource) else Ok None.

Definition header_len (l : layout) : Z := match l with SplitSource => 12 | SplitSourceOld => 10 | SplitGoldSrc => 9 end.

(** Total, number and payload of a part. *)
Definition parseA2SSplit (p : list Z) (l : layout) : result query_error (Z * Z * list Z) :=
  if llen p <? header_len l then Err EFormat else
  let? tn := (match l with
              | SplitGoldSrc => let? h := idx p 8 in Ok (Z.land h 0x0F, Z.shiftr h 4)
              | _ => let? t := idx p 8 in let? n := idx p 9 in Ok (t, n)
              end) in
  let '(total, number) := tn in
  if (total =? 0) || (a2sMaxSplitParts <? total) || (total <=? number) then Err EFormat
  else let? payload := from p (header_len l) in Ok (total, number, payload).

Fixpoint collect (split : list (list Z)) (l : layout) (total : Z) (parts : gmap Z (list Z))
  : result query_error (Z * gmap Z (list Z)) :=
  match split with
  | [] => Ok (total, parts)
  | p :: r =>
      let? x := parseA2SSplit p l in
      let '(t, number, payload) := x in collect r l t (<[number := payload]> parts)
  end.

(** [None] before all parts have arrived. *)
Definition joinA2SSplit (split : list (list Z)) (l : layout) : result query_error (option (list Z)) :=
  let? x := collect split l 0 ∅ in
  let '(total, parts) := x in
  if negb (Z.of_nat (size parts) =? total) then Ok None else
  let joined := flat_map (fun i => default [] (parts !! Z.of_nat i)) (seq 0 (Z.to_nat total)) in
  if llen joined <? 4 then Err EFormat else
  let? h := le_uint 4 joined in
  if negb (int32 h =? -1) then Err EFormat else
  let? resp := from joined 4 in Ok (Some resp).

(** One round of the loop of [a2sExchange]: the answer, or what was collected so far. *)
Definition exchange_step (d : list Z) (split : list (list Z)) (l : option layout)
  : result query_error (list Z + list (list Z) * option layout) :=
  let p := take 1500 d in
  if llen p <? 5 then Err EFormat else
  let? h := le_uint 4 p in
  if int32 h =? -1 then let? resp := from p 4 in Ok (inl resp) else
  if negb (int32 h =? -2) || (llen p <? 9) || (a2sMaxSplitParts <=? llen split) then Err EFormat else
  let? s := slice p 4 8 in
  let? id := le_uint 4 s in
  if negb (Z.land id 0x80000000 =? 0) then Err ECompressed else
  let split := (split ++ [p])%list in
  let? l := (match l with None => detectA2SSplitLayout p | Some _ => Ok l end) in
  match l with
  | None => Ok (inr (split, l))
  | Some lay =>
      let? j := joinA2SSplit split lay in
      match j with Some resp => Ok (inl resp) | None => Ok (inr (split, l)) end
  end.

(** The result comes with what has not been read. *)
Fixpoint exchange_loop (incoming : list (list Z)) (split : list (list Z)) (l : option layout)
  : result query_error (list Z) * list (list Z) :=
  match incoming with
  | [] => (Err EDeadline, [])
  | d :: rest =>
      match exchange_step d split l with
      | Err e => (Err e, rest)
      | Ok (inl resp) => (Ok resp, rest)
      | Ok (inr (split, l)) => exchange_loop rest split l
      end
  end.
Definition a2sExchange (write : bool) (incoming : list (list Z)) : result query_error (list Z) * list (list Z) :=
  if write then exchange_loop incoming [] None else (Err EWrite, incoming).

(** ** Requests *)

Definition a2sInfoRequest : list Z := ([0xFF; 0xFF; 0xFF; 0xFF; 0x54] ++ octets "Source Engine Query" ++ [0])%list.
Definition playerReq : list Z := [0xFF; 0xFF; 0xFF; 0xFF; 0x55; 0xFF; 0xFF; 0xFF; 0xFF].

(** The loop over the attempts, with the requests that are sent.  [writes] says whether
    an attempt can be written. *)
Fixpoint request_loop (attempts : nat) (writes : nat -> bool) (base req : list Z) (suffix : bool) (incoming : list (list Z))
  : result query_error (list Z) * list (list Z) * list (list Z) :=
  match attempts with
  | O => (Err EChallengeLoop, incoming, [])
  | S a =>
      let '(r, rest) := a2sExchange (writes a) incoming in
      match r with
      | Err e => (Err e, rest, [req])
      | Ok resp =>
          match (if 5 <=? llen resp then let? c := idx resp 0 in Ok (c =? 0x41) else Ok false : result query_error bool) with
          | Err e => (Err e, rest, [req])
          | Ok false => (Ok resp, rest, [req])
          | Ok true =>
              match slice resp 1 5, slice base 0 5 with
              | Ok challenge, Ok head =>
                  let '(r, rest, sent) := request_loop a writes base ((if suffix then base else head) ++ challenge)%list suffix rest in
                  (r, rest, req :: sent)
              | _, _ => (Err EPanic, rest, [req])
              end
          end
      end
  end.
Definition a2sRequest (writes : nat -> bool) (base : list Z) (suffix : bool) (incoming : list (list Z)) :=
  request_loop 3 writes base base suffix incoming.

(** ** Answers *)

Record PlayerInfo := mkPlayer { pi_Name : string; pi_Score : Z; pi_Time : string }.
(** Without [Updated], which the clock sets. *)
Record QueryInfo := mkQuery {
  q_Online : bool; q_Protocol : string; q_Name : string; q_Map : string;
  q_NumPlayers : Z; q_MaxPlayers : Z; q_Bots : Z; q_Ping : Z; q_Players : list PlayerInfo }.
Definition no_query : QueryInfo := mkQuery false "" "" "" 0 0 0 0 [].

Definition parseA2SInfo (resp : list Z) : result query_error QueryInfo :=
  let? (kind, r) := u8 (newReader resp) in
  if kind =? 0x49 then
    let? (_, r) := u8 r in
    let? (name, r) := str r in let? (map_, r) := str r in
    let? (_, r) := str r in let? (_, r) := str r in let? (_, r) := u16 r in
    let? (players, r) := u8 r in let? (max, r) := u8 r in let? (bots, r) := u8 r in
    if rerr r then Err EFormat else Ok (mkQuery false "" name map_ players max bots 0 [])
  else if kind =? 0x6D then
    let? (_, r) := str r in
    let? (name, r) := str r in let? (map_, r) := str r in
    let? (_, r) := str r in let? (_, r) := str r in
    let? (players, r) := u8 r in let? (max, r) := u8 r in
    if rerr r then Err EFormat else Ok (mkQuery false "" name map_ players max 0 0 [])
  else Err EFormat.

(** [math.Float32frombits]: not a number or infinite, or [sign * m * 2 ^ e]. *)
Inductive float32 := FSpecial | FFinite (negative : bool) (m e : Z).
Definition float32_of (bits : Z) : float32 :=
  let exponent := Z.land (Z.shiftr bits 23) 0xFF in
  let fraction := Z.land bits 0x7FFFFF in
  if exponent =? 0xFF then FSpecial
  else FFinite (Z.testbit bits 31) (if exponent =? 0 then fraction else fraction + 2 ^ 23)
               (if exponent =? 0 then -149 else exponent - 150).
(** The integer part of a finite value that is not negative. *)
Definition truncated (m e : Z) : Z := Z.shiftl m e.

(** [float64] of an integer, and back. *)
Definition f64 (z : Z) : spec_float := binary_normalize 53 1024 z 0 false.
Definition f64_int (f : spec_float) : Z :=
  match f with S754_finite s m e => let v := Z.shiftl (Zpos m) e in if s then - v else v | _ => 0 end.
(** [Duration.Hours], [Minutes] and [Seconds], as an [int]. *)
Definition in_units (unit d : Z) : Z :=
  f64_int (SFadd 53 1024 (f64 (Z.quot d unit)) (SFdiv 53 1024 (f64 (Z.rem d unit)) (f64 unit))).

Definition pad2 (n : Z) : string := if (0 <=? n) && (n <? 10) then "0" +:+ itoa n else itoa n.

Definition QueryProtoA2S : string := "a2s".
Definition QueryProtoMinecraft : string := "minecraft".
Definition QueryProtoBedrock : string := "bedrock".
Definition maxQueryPlayers : nat := 256.

(** [sort.SliceStable] by score, the highest first. *)
Fixpoint insert_player (p : PlayerInfo) (l : list PlayerInfo) : list PlayerInfo :=
  match l with
  | [] => [p]
  | q :: r => if pi_Score q <? pi_Score p then p :: l else q :: insert_player p r
  end.
Definition sort_players (l : list PlayerInfo) : list PlayerInfo := fold_left (fun acc p => insert_player p acc) l [].

Definition finishQueryInfo (protocol : string) (ping : Z) (info : QueryInfo) : QueryInfo :=
  let name p := mkPlayer (sanitizeDisplayText (pi_Name p) 64) (pi_Score p) (pi_Time p) in
  mkQuery true protocol (sanitizeDisplayText (q_Name info) 128) (sanitizeDisplayText (q_Map info) 128)
    (q_NumPlayers info) (q_MaxPlayers info) (q_Bots info) ping
    (sort_players (map name (take maxQueryPlayers (q_Players info)))).

Section Duration.
(** What the processor makes of a float beyond 64-bit integers, which Go leaves open. *)
Context (overflow : Z).

Definition formatDuration (seconds : float32) : string :=
  match seconds with
  | FSpecial => ""
  | FFinite negative m e =>
      if negative && negb (m =? 0) then "" else
      let t := truncated m e in
      let s := if t <=? int64_max then t else overflow in
      let d := wrap64 (s * ns_second) in
      let h := in_units ns_hour d in
      let min := Z.rem (in_units ns_minute d) 60 in
      if 0 <? h then itoa h +:+ "h " +:+ pad2 min +:+ "m"
      else itoa min +:+ "m " +:+ pad2 (Z.rem (in_units ns_second d) 60) +:+ "s"
  end.

Fixpoint players_loop (n : nat) (r : byteReader) (players : list PlayerInfo) : result query_error (list PlayerInfo) :=
  match n with
  | O => Ok players
  | S n =>
      if rerr r then Ok players else
      let? (_, r) := u8 r in
      let? (name, r) := str r in
      let? (score, r) := u32le r in
      let? (duration, r) := u32le r in
      if rerr r then Ok players
      else if String.eqb (trim_space name) "" then players_loop n r players
      else players_loop n r (players ++ [mkPlayer name (int32 score) (formatDuration (float32_of duration))])%list
  end.
Definition parseA2SPlayers (resp : list Z) : result query_error (list PlayerInfo) :=
  let? (kind, r) := u8 (newReader resp) in
  if negb (kind =? 0x44) then Err EFormat else
  let? (count, r) := u8 r in
  players_loop (Z.to_nat count) r [].

(** [QueryA2S] on an open connection; [writes] and [writes2] say whether the requests
    can be sent. *)
Definition QueryA2S (writes writes2 : nat -> bool) (ping : Z) (incoming : list (list Z)) : result query_error QueryInfo :=
  let '(r, rest, _) := a2sRequest writes a2sInfoRequest true incoming in
  let? resp := r in
  let? info := parseA2SInfo resp in
  let? players :=
    (if 0 <? q_NumPlayers info then
       match a2sRequest writes2 playerReq false rest with
       | (Ok presp, _, _) =>
           match parseA2SPlayers presp with Ok l => Ok l | Err EPanic => Err EPanic | Err _ => Ok [] end
       | (Err EPanic, _, _) => Err EPanic
       | (Err _, _, _) => Ok []
       end
     else Ok []) in
  Ok (finishQueryInfo QueryProtoA2S ping
        (mkQuery false "" (q_Name info) (q_Map info) (q_NumPlayers info) (q_MaxPlayers info) (q_Bots info) 0 players)).
End Duration.

(** ** Minecraft Java Edition *)

(** [int32] as [uint32]. *)
Definition uint32 (v : Z) : Z := v mod 2 ^ 32.
Fixpoint varint_loop (fuel : nat) (u : Z) : list Z :=
  match fuel with
  | O => [] (** unreachable: five groups of seven bits hold 32 bits *)
  | S f => if Z.land u (Z.lnot 0x7F) =? 0 then [byte u]
           else byte (Z.lor (Z.land u 0x7F) 0x80) :: varint_loop f (Z.shiftr u 7)
  end.
Definition appendVarInt (b : list Z) (v : Z) : list Z := (b ++ varint_loop 5 (uint32 v))%list.

(** [limitedByteReader]: how much may still be read, and what arrives. *)
Record limited := mkLimited { left_ : Z; input : list Z }.
Definition ReadByte (r : limited) : result query_error (Z * limited) :=
  if left_ r <=? 0 then Err EFormat else
  match input r with
  | [] => Err EDeadline
  | b :: rest => Ok (b, mkLimited (left_ r - 1) rest)
  end.
Fixpoint readVarInt_loop (n : nat) (i : Z) (acc : Z) (r : limited) : result query_error (Z * limited) :=
  match n with
  | O => Err EFormat
  | S n =>
      let? (b, r) := ReadByte r in
      let acc := Z.lor acc (uint32 (Z.shiftl (Z.land b 0x7F) (7 * i))) in
      if Z.land b 0x80 =? 0 then Ok (int32 acc, r) else readVarInt_loop n (i + 1) acc r
  end.
Definition readVarInt (r : limited) : result query_error (Z * limited) := readVarInt_loop 5 0 0 r.

(** [io.ReadFull] of [n] bytes. *)
Definition readFull (n : Z) (r : limited) : result query_error (list Z * limited) :=
  if llen (input r) <? Z.min n (left_ r) then Err EDeadline
  else if left_ r <? n then Err EFormat
  else Ok (take (Z.to_nat n) (input r), mkLimited (left_ r - n) (drop (Z.to_nat n) (input r))).

(** A chat component: a text, an object with text and parts, or something else. *)
Inductive component := CText (s : string) | CObject (text : string) (extra : list component) | COther.
Fixpoint mcText (c : component) : string :=
  match c with
  | CText s => s
  | CObject text extra => fold_left (fun out e => out +:+ mcText e) extra text
  | COther => ""
  end.

(** [reMinecraftFormatting] removes U+00A7 with the rune behind it, unless that is a
    line break. *)
Fixpoint strip_formatting (fuel : nat) (l : bytes) : bytes :=
  match fuel with
  | O => l
  | S f =>
      match l with
      | [] => []
      | a :: r =>
          match r with
          | b :: ((c :: _) as t) =>
              if (code a =? 0xC2) && (code b =? 0xA7) && negb (code c =? 10)
              then strip_formatting f (drop (Nat.max 1 (rune_width t)) t)
              else a :: strip_formatting f r
          | _ => a :: strip_formatting f r
          end
      end
  end.
Definition removeFormatting (s : string) : string :=
  of_bytes (strip_formatting (String.length s) (to_bytes s)).

Record mcStatus := mkStatus { mc_Max : Z; mc_Online : Z; mc_Sample : list string; mc_Description : component }.

Definition handshake (host : string) (port : Z) : list Z :=
  let hs := appendVarInt (appendVarInt [] 0) (-1) in
  let hs := (appendVarInt hs (slen host) ++ octets host ++ [byte (Z.shiftr port 8); byte port])%list in
  let hs := appendVarInt hs 1 in
  (appendVarInt [] (llen hs) ++ hs ++ [1; 0])%list.

Section Minecraft.
(** [json.Unmarshal] into [mcStatus]. *)
Context (decode_status : list Z -> option mcStatus).

Definition limit_20 : Z := 2 ^ 20.
Definition QueryMinecraft (write : bool) (ping : Z) (incoming : list Z) : result query_error QueryInfo :=
  if negb write then Err EWrite else
  let format {A} (r : result query_error A) : result query_error A := match r with Ok a => Ok a | Err _ => Err EFormat end in
  let? (length_, r) := format (readVarInt (mkLimited limit_20 incoming)) in
  if (length_ <=? 0) || (limit_20 <? length_) then Err EFormat else
  let? (id, r) := format (readVarInt r) in
  if negb (id =? 0) then Err EFormat else
  let? (strLen, r) := format (readVarInt r) in
  if (strLen <=? 0) || (limit_20 <? strLen) then Err EFormat else
  let? (data, r) := readFull strLen r in
  match decode_status data with
  | None => Err EFormat
  | Some st =>
      Ok (finishQueryInfo QueryProtoMinecraft ping
            (mkQuery false "" (removeFormatting (mcText (mc_Description st))) "" (mc_Online st) (mc_Max st) 0 0
               (map (fun n => mkPlayer n 0 "") (mc_Sample st))))
  end.
End Minecraft.

(** ** Minecraft Bedrock Edition *)

Definition raknetMagic : list Z :=
  [0x00; 0xff; 0xff; 0x00; 0xfe; 0xfe; 0xfe; 0xfe; 0xfd; 0xfd; 0xfd; 0xfd; 0x12; 0x34; 0x56; 0x78].
Definition bedrock_ping (millis : Z) : list Z :=
  ([1] ++ be_bytes 8 millis ++ raknetMagic ++ be_bytes 8 0x4C47534D44415348)%list.

(** The value [strconv.Atoi] returns also with an error: 0, or the nearest integer. *)
Definition atoi_value (s : string) : Z :=
  match atoi s with
  | Some v => v
  | None =>
      let l := to_bytes s in
      let '(neg, ds) := match l with c :: r => if Ascii.eqb c "-" then (true, r) else if Ascii.eqb c "+" then (false, r) else (false, l)
                                   | [] => (false, []) end in
      if forallb is_digit ds && negb (bool_decide (ds = [])) then (if neg : bool then int64_min else int64_max) else 0
  end.

Definition parseBedrockPong (b : list Z) : result query_error QueryInfo :=
  if llen b <? 35 then Err EFormat else
  let? k := idx b 0 in
  if negb (k =? 0x1C) then Err EFormat else
  let? magic := slice b 17 33 in
  if negb (bool_decide (magic = raknetMagic)) then Err EFormat else
  let? n := slice b 33 35 in
  let strLen := be_value n in
  if llen b <? 35 + strLen then Err EFormat else
  let? text := slice b 35 (35 + strLen) in
  let fields := split ";" (of_octets text) in
  if llen fields <? 6 then Err EFormat else
  let? online := idx fields 4 in
  let? max := idx fields 5 in
  let? motd := idx fields 1 in
  let? map := if 7 <? llen fields then idx fields 7 else Ok "" in
  Ok (mkQuery false "" motd map (atoi_value online) (atoi_value max) 0 0 []).

Definition QueryBedrock (write : bool) (ping : Z) (incoming : list (list Z)) : result query_error QueryInfo :=
  if negb write then Err EWrite else
  match incoming with
  | [] => Err EDeadline
  | d :: _ => let? info := parseBedrockPong (take 2048 d) in Ok (finishQueryInfo QueryProtoBedrock ping info)
  end.

(** ** What to ask, and when *)

Definition queryUnsupportedGames : list string := ["ts3"; "mumble"; "sbots"].
Definition minecraftJavaGames : list string := ["mc"; "pmc"; "vpmc"; "wmc"].

Record queryTarget := mkTarget { t_Host : string; t_Port : Z; t_Protocol : string }.
#[export] Instance queryTarget_eq : EqDecision queryTarget.
Proof. solve_decision. Defined.

(** What the queries read of a server; ports as (description, port). *)
Record queried := mkQueried {
  qs_Game : string; qs_BindIP : string; qs_Port : Z; qs_ParsedPorts : list (string * Z) }.

Definition add_port (ports : list Z) (p : Z) : list Z :=
  if (p <=? 0) || (65535 <? p) || existsb (Z.eqb p) ports then ports else (ports ++ [p])%list.
Definition lower (s : string) : string := of_bytes (lower_bytes (to_bytes s)).
Definition is_ip (s : string) : bool := match ParseIP s with Some _ => true | None => false end.

Definition queryTargets (srv : queried) (extraHosts : list string) : list queryTarget :=
  if mem (qs_Game srv) queryUnsupportedGames then [] else
  let hosts := "127.0.0.1" ::
    (if negb (mem (qs_BindIP srv) [""; "0.0.0.0"; "127.0.0.1"]) && is_ip (qs_BindIP srv) then [qs_BindIP srv] else []) in
  let hosts := fold_left (fun hs h => if is_ip h then appendUniqueString hs h else hs) extraHosts hosts in
  let gamePort := fold_left (fun g p => if contains (lower p.1) "game" && (g =? 0) then p.2 else g) (qs_ParsedPorts srv) (qs_Port srv) in
  let queryPorts := map snd (List.filter (fun p => contains (lower p.1) "query" && negb (contains (lower p.1) "rcon")) (qs_ParsedPorts srv)) in
  let '(proto, ports) :=
    if mem (qs_Game srv) minecraftJavaGames then
      (QueryProtoMinecraft, let ps := add_port [] gamePort in if gamePort =? 0 then add_port ps 25565 else ps)
    else if String.eqb (qs_Game srv) "mcb" then
      (QueryProtoBedrock, let ps := add_port [] gamePort in if gamePort =? 0 then add_port ps 19132 else ps)
    else
      (QueryProtoA2S, let ps := add_port (fold_left add_port queryPorts []) gamePort in
                      if 0 <? gamePort then add_port ps (gamePort + 1) else ps) in
  take 4 (flat_map (fun h => map (fun p => mkTarget h p proto) ports) hosts).

Record queryState := mkQueryState { qy_info : QueryInfo; qy_target : option queryTarget }.

(** The loop of [queryServer]; [ask] is [QueryTarget].  What was asked is returned. *)
Fixpoint ask_targets (ask : queryTarget -> option QueryInfo) (targets tried : list queryTarget)
  : option (QueryInfo * queryTarget) * list queryTarget :=
  match targets with
  | [] => (None, [])
  | t :: r =>
      if bool_decide (t ∈ tried) then ask_targets ask r tried else
      match ask t with
      | Some info => (Some (info, t), [t])
      | None => let '(x, asked) := ask_targets ask r (t :: tried) in (x, t :: asked)
      end
  end.
Definition queryServer (ask : queryTarget -> option QueryInfo) (srv : queried) (extra : list string) (prev : queryState)
  : queryState * list queryTarget :=
  let targets := match qy_target prev with Some t => [t] | None => [] end ++ queryTargets srv extra in
  match ask_targets ask targets [] with
  | (Some (info, t), asked) => (mkQueryState info (Some t), asked)
  | (None, asked) => (mkQueryState no_query (qy_target prev), asked)
  end.

(** ** Lemmas: reads stay inside *)

Lemma slice_ok l a b : 0 <= a <= b -> b <= llen l -> slice l a b = Ok (take (Z.to_nat (b - a)) (drop (Z.to_nat a) l)).
Proof.
  intros H1 H2. unfold slice. replace (0 <=? a) with true by lia. replace (a <=? b) with true by lia.
  by replace (b <=? llen l) with true by lia.
Qed.
Lemma from_ok l a : 0 <= a <= llen l -> from l a = Ok (drop (Z.to_nat a) l).
Proof.
  intros H. unfold from. rewrite slice_ok by lia. f_equal. apply take_ge. rewrite length_drop. unfold llen in *. lia.
Qed.
Lemma idx_ok {A} (l : list A) i : 0 <= i < llen l -> exists v, idx l i = Ok v /\ nth_error l (Z.to_nat i) = Some v.
Proof.
  intros H. unfold idx. replace (0 <=? i) with true by lia.
  destruct (nth_error l (Z.to_nat i)) as [v|] eqn:E; [by exists v|].
  apply nth_error_None in E. unfold llen in H. lia.
Qed.
Lemma le_uint_ok n l : 0 <= n <= llen l -> le_uint n l = Ok (le_value (take (Z.to_nat n) l)).
Proof. intros H. unfold le_uint. rewrite slice_ok by lia. cbn. by rewrite drop_0, Z.sub_0_r. Qed.
Lemma llen_take {A} n (l : list A) : llen (take n l) = Z.min (Z.of_nat n) (llen l).
Proof. unfold llen. rewrite length_take. lia. Qed.
Lemma llen_drop {A} n (l : list A) : llen (drop n l) = Z.max 0 (llen l - Z.of_nat n).
Proof. unfold llen. rewrite length_drop. lia. Qed.
Lemma llen_nonneg {A} (l : list A) : 0 <= llen l.
Proof. unfold llen. lia. Qed.

Definition reader_ok (r : byteReader) : Prop := 0 <= rpos r <= llen (rb r).

Lemma u8_ok r : reader_ok r -> exists v r', u8 r = Ok (v, r') /\ reader_ok r'.
Proof.
  intros H. unfold u8. destruct (rerr r); cbn [orb]; [by eexists _, _|].
  destruct (Z.ltb_spec (llen (rb r)) (rpos r + 1)); [by eexists _, _|]. unfold reader_ok in H.
  destruct (idx_ok (rb r) (rpos r)) as (v & -> & _); [lia|]. exists v, (advance 1 r). split; [done|]. unfold reader_ok. simpl. lia.
Qed.
Lemma uint_ok n r : 0 <= n -> reader_ok r -> exists v r', uint n r = Ok (v, r') /\ reader_ok r'.
Proof.
  intros Hn H. unfold uint. destruct (rerr r); cbn [orb]; [by eexists _, _|].
  destruct (Z.ltb_spec (llen (rb r)) (rpos r + n)); [by eexists _, _|]. unfold reader_ok in H.
  rewrite from_ok by lia. rewrite le_uint_ok by (rewrite llen_drop; lia).
  eexists _, (advance n r). split; [done|]. unfold reader_ok. simpl. lia.
Qed.
Lemma index_byte_lt l c n : index_byte l c = Some n -> (n < length l)%nat.
Proof.
  revert n. induction l as [|b l IH]; intros n; [done|]. cbn [index_byte length]. destruct (b =? c); [intros [= <-]; lia|].
  destruct (index_byte l c) as [k|]; [|done]. intros [= <-]. specialize (IH k eq_refl). lia.
Qed.
Lemma str_ok r : reader_ok r -> exists v r', str r = Ok (v, r') /\ reader_ok r'.
Proof.
  intros H. unfold str. destruct (rerr r); [by eexists _, _|]. unfold reader_ok in H. rewrite from_ok by lia.
  destruct (index_byte _ 0) as [n|] eqn:E; [|by eexists _, _]. apply index_byte_lt in E. rewrite length_drop in E.
  unfold llen in H. rewrite slice_ok by (unfold llen; lia). eexists _, (advance (Z.of_nat n + 1) r). split; [done|].
  unfold reader_ok, llen. simpl. lia.
Qed.

(** Takes the next read of a goal. *)
Ltac read_next :=
  match goal with
  | |- context [u8 ?r] =>
      let v := fresh "v" in let r' := fresh "r" in let E := fresh "E" in let H := fresh "Hr" in
      destruct (u8_ok r) as (v & r' & E & H); [assumption|rewrite E; clear E]
  | |- context [u16 ?r] =>
      let v := fresh "v" in let r' := fresh "r" in let E := fresh "E" in let H := fresh "Hr" in
      destruct (uint_ok 2 r) as (v & r' & E & H); [lia|assumption|unfold u16; rewrite E; clear E]
  | |- context [u32le ?r] =>
      let v := fresh "v" in let r' := fresh "r" in let E := fresh "E" in let H := fresh "Hr" in
      destruct (uint_ok 4 r) as (v & r' & E & H); [lia|assumption|unfold u32le; rewrite E; clear E; fold u32le]
  | |- context [str ?r] =>
      let v := fresh "v" in let r' := fresh "r" in let E := fresh "E" in let H := fresh "Hr" in
      destruct (str_ok r) as (v & r' & E & H); [assumption|rewrite E; clear E]
  end; cbn beta iota.

Lemma new_reader_ok b : reader_ok (newReader b).
Proof. unfold reader_ok. simpl. pose proof (llen_nonneg b). lia. Qed.

(** Go does not panic. *)
Definition calm {A} (r : result query_error A) : Prop := r <> Err EPanic.

Lemma calm_bind {A B} (r : result query_error A) (k : A -> result query_error B) :
  calm r -> (forall a, r = Ok a -> calm (k a)) -> calm (let? a := r in k a).
Proof. unfold calm. destruct r as [a|e]; [intros _ H; by apply H|intros H _ [= ->]; done]. Qed.

Lemma parse_info_calm b : calm (parseA2SInfo b).
Proof.
  pose proof (new_reader_ok b). unfold parseA2SInfo, calm. read_next.
  destruct (v =? 0x49); [|destruct (v =? 0x6D); [|done]]; repeat read_next; by case_match.
Qed.

Lemma players_loop_calm o n : forall r ps, reader_ok r -> calm (players_loop o n r ps).
Proof.
  induction n as [|n IH]; intros r ps H; cbn [players_loop]; [done|]. destruct (rerr r); [done|].
  do 4 read_next. destruct (rerr _); [done|]. destruct (String.eqb _ ""); by apply IH.
Qed.

Lemma parse_players_calm o b : calm (parseA2SPlayers o b).
Proof.
  pose proof (new_reader_ok b). unfold parseA2SPlayers. read_next. destruct (negb (v =? 0x44)); [done|].
  read_next. by apply players_loop_calm.
Qed.

Lemma starts_calm p a : 0 <= a -> exists s, starts p a = Ok s /\ (s = true -> a + 4 <= llen p).
Proof.
  intros Ha. unfold starts. destruct (Z.ltb_spec (llen p) (a + 4)); [by exists false|].
  destruct (idx_ok p a) as (? & -> & _); [lia|]. destruct (idx_ok p (a + 1)) as (? & -> & _); [lia|].
  destruct (idx_ok p (a + 2)) as (? & -> & _); [lia|]. destruct (idx_ok p (a + 3)) as (? & -> & _); [lia|].
  cbn. by eexists.
Qed.

Lemma detect_calm p : calm (detectA2SSplitLayout p).
Proof.
  unfold detectA2SSplitLayout. destruct (starts_calm p 9) as (s & -> & Hs); [lia|].
  apply calm_bind; [destruct s; [|done]; destruct (idx_ok p 8) as (? & -> & _); [specialize (Hs eq_refl); lia|done]|].
  intros h _. destruct (s && _); [done|]. apply calm_bind.
  { destruct (Z.ltb_spec 9 (llen p)); [|done]. destruct (idx_ok p 9) as (? & -> & _); [lia|done]. }
  intros n _. destruct (_ && _); [done|]. destruct (starts_calm p 10) as ([] & -> & _); [lia|done|].
  destruct (starts_calm p 12) as ([] & -> & _); [lia|done|done].
Qed.

Lemma parse_split_calm p l : calm (parseA2SSplit p l).
Proof.
  unfold parseA2SSplit. destruct (Z.ltb_spec (llen p) (header_len l)); [done|].
  destruct (idx_ok p 8) as (h & Hh & _); [destruct l; simpl in *; lia|].
  apply calm_bind; [destruct l; rewrite Hh; [..|done]; destruct (idx_ok p 9) as (n & -> & _); try done; simpl in *; lia|].
  intros [t n] _. destruct (_ || _ || _); [done|]. rewrite from_ok by (destruct l; simpl in *; lia). done.
Qed.

Lemma collect_calm split l : forall t parts, calm (collect split l t parts).
Proof.
  induction split as [|p r IH]; intros t parts; cbn [collect]; [done|].
  apply calm_bind; [apply parse_split_calm|]. intros [[t' n] payload] _. apply IH.
Qed.

Lemma join_calm split l : calm (joinA2SSplit split l).
Proof.
  unfold joinA2SSplit. apply calm_bind; [apply collect_calm|]. intros [t parts] _. destruct (negb _); [done|].
  set (j := flat_map _ _). destruct (Z.ltb_spec (llen j) 4); [done|]. rewrite le_uint_ok by lia.
  destruct (negb _); [done|]. rewrite from_ok by lia. done.
Qed.

Lemma exchange_step_calm d split l : calm (exchange_step d split l).
Proof.
  unfold exchange_step. set (p := take 1500 d). destruct (Z.ltb_spec (llen p) 5); [done|]. rewrite le_uint_ok by lia.
  destruct (_ =? -1); [rewrite from_ok by lia; done|]. destruct (negb _ || _ || _) eqn:E; [done|].
  to_prop. rewrite slice_ok by lia. rewrite le_uint_ok; [|rewrite llen_take, llen_drop; lia].
  destruct (negb _); [done|]. apply calm_bind; [destruct l; [done|apply detect_calm]|]. intros l' _.
  destruct l' as [lay|]; [|done]. apply calm_bind; [apply join_calm|]. by intros [resp|] _.
Qed.

Lemma exchange_loop_calm incoming : forall split l, calm (exchange_loop incoming split l).1.
Proof.
  induction incoming as [|d rest IH]; intros split l; cbn [exchange_loop]; [done|].
  pose proof (exchange_step_calm d split l) as H. destruct (exchange_step d split l) as [[resp|[sp lay]]|e]; [done|apply IH|].
  intros [= ->]. done.
Qed.

Lemma request_loop_calm a writes base sfx : (5 <= length base)%nat ->
  forall req incoming, calm (request_loop a writes base req sfx incoming).1.1.
Proof.
  intros Hb. induction a as [|a IH]; intros req incoming; cbn [request_loop]; [done|].
  assert (H : calm (a2sExchange (writes a) incoming).1).
  { unfold a2sExchange. destruct (writes a); [apply exchange_loop_calm|done]. }
  destruct (a2sExchange (writes a) incoming) as [[resp|e] rest]; [|intros [= ->]; done].
  destruct (Z.leb_spec 5 (llen resp)) as [H5|]; [|done].
  destruct (idx_ok resp 0) as (c & -> & _); [lia|]. destruct (c =? 0x41); [|done].
  rewrite slice_ok by lia. rewrite slice_ok by (unfold llen; lia).
  specialize (IH ((if sfx then base else take (Z.to_nat (5 - 0)) (drop (Z.to_nat 0) base)) ++
                  take (Z.to_nat (5 - 1)) (drop (Z.to_nat 1) resp))%list rest).
  destruct (request_loop _ _ _ _ _ rest) as [[r rest'] sent]. exact IH.
Qed.

(** The fields of a pong are read only where they are. *)
Lemma pong_fields (fields : list string) :
  let r := if llen fields <? 6 then Err EFormat else
    (let? online := idx fields 4 in
     let? max := idx fields 5 in
     let? motd := idx fields 1 in
     let? map := if 7 <? llen fields then idx fields 7 else Ok "" in
     Ok (mkQuery false "" motd map (atoi_value online) (atoi_value max) 0 0 [])) in
  r = Err EFormat \/ exists info, r = Ok info.
Proof.
  cbn zeta. destruct (Z.ltb_spec (llen fields) 6); [by left|]. right.
  destruct (idx_ok fields 4) as (? & -> & _); [lia|]. destruct (idx_ok fields 5) as (? & -> & _); [lia|].
  destruct (idx_ok fields 1) as (? & -> & _); [lia|]. cbn zeta beta iota.
  destruct (Z.ltb_spec 7 (llen fields)); [|by eexists]. destruct (idx_ok fields 7) as (? & -> & _); [lia|]. by eexists.
Qed.

(** * Properties *)

(** C40: whatever a queried server, or anyone who can answer in its place, sends to a
    query of Valve's protocol or of Minecraft Bedrock, no read leaves the buffer or the
    list it reads from: for split answers in any order and layout, texts without an end,
    wrong counts, challenges, and pongs with too few fields.  The parser of a pong answers
    every datagram with a result or the format error. *)
Theorem query_never_panics overflow writes writes2 ping incoming datagram :
  octet_list datagram ->
  calm (QueryA2S overflow writes writes2 ping incoming) /\
  (parseBedrockPong datagram = Err EFormat \/ exists info, parseBedrockPong datagram = Ok info).
Proof.
  intros Hd. split.
  - unfold QueryA2S. pose proof (request_loop_calm 3 writes a2sInfoRequest true) as H.
    specialize (H ltac:(vm_compute; lia) a2sInfoRequest incoming). unfold a2sRequest at 1.
    destruct (request_loop _ _ _ _ _ _) as [[r rest] sent]. cbn [fst] in H. apply calm_bind; [done|]. intros resp _.
    apply calm_bind; [apply parse_info_calm|]. intros info _. apply calm_bind; [|done].
    destruct (0 <? q_NumPlayers info); [|done].
    pose proof (request_loop_calm 3 writes2 playerReq false) as H2.
    specialize (H2 ltac:(vm_compute; lia) playerReq rest). unfold a2sRequest.
    destruct (request_loop _ _ _ _ _ rest) as [[r2 rest2] sent2]. cbn [fst] in H2.
    destruct r2 as [presp|e]; [|by destruct e]. pose proof (parse_players_calm overflow presp) as H3.
    destruct (parseA2SPlayers overflow presp) as [l|e]; [done|by destruct e].
  - unfold parseBedrockPong. destruct (Z.ltb_spec (llen datagram) 35); [by left|].
    destruct (idx_ok datagram 0) as (k & -> & _); [lia|]. destruct (negb _); [by left|]. rewrite slice_ok by lia.
    destruct (negb _); [by left|]. rewrite slice_ok by lia. cbn zeta beta iota.
    set (n := be_value _). destruct (Z.ltb_spec (llen datagram) (35 + n)); [by left|].
    assert (0 <= n) by (apply be_value_bound, Forall_take, Forall_drop; exact Hd).
    rewrite slice_ok by lia. cbn zeta beta iota. by apply pong_fields.
Qed.

(** ** Lemmas: variable length integers *)

Lemma lor_add a b k : 0 <= k -> 0 <= a < 2 ^ k -> Z.lor a (b * 2 ^ k) = a + b * 2 ^ k.
Proof.
  intros Hk Ha. rewrite <- Z.add_lor_land. cut (Z.land a (b * 2 ^ k) = 0); [lia|].
  apply Z.bits_inj'. intros n Hn. rewrite Z.land_spec, Z.bits_0. destruct (Z.lt_ge_cases n k).
  - by rewrite Z.mul_pow2_bits_low, andb_false_r.
  - rewrite <- (Z.mod_small a (2 ^ k)) by lia. by rewrite Z.mod_pow2_bits_high.
Qed.

(** The seven bits of a byte and its continuation bit. *)
Lemma group_bits u : 0 <= u < 128 -> byte u = u /\ Z.land u 0x7F = u /\ Z.land u 0x80 = 0 /\
  byte (Z.lor u 0x80) = u + 128 /\ Z.land (u + 128) 0x7F = u /\ Z.land (u + 128) 0x80 = 128.
Proof.
  intros H.
  pose proof (check_range (fun u => (byte u =? u) && (Z.land u 0x7F =? u) && (Z.land u 0x80 =? 0) &&
    (byte (Z.lor u 0x80) =? u + 128) && (Z.land (u + 128) 0x7F =? u) && (Z.land (u + 128) 0x80 =? 128)) 128 u) as Hc.
  specialize (Hc ltac:(by vm_compute) ltac:(lia)). cbn beta in Hc. to_prop. done.
Qed.

Lemma last_group u : 0 <= u -> (Z.land u (Z.lnot 0x7F) =? 0) = (u <? 128).
Proof.
  intros Hu. change (Z.land u (Z.lnot 0x7F)) with (Z.land u (Z.lnot (Z.ones 7))).
  rewrite <- Z.ldiff_land, Z.ldiff_ones_r, Z.shiftr_div_pow2, Z.shiftl_mul_pow2 by lia. change (2 ^ 7) with 128.
  pose proof (Z.div_mod u 128 ltac:(lia)). pose proof (Z.mod_pos_bound u 128 ltac:(lia)).
  destruct (Z.ltb_spec u 128); [rewrite Z.div_small by lia; done|].
  apply Z.eqb_neq. assert (1 <= u / 128) by (apply Z.div_le_lower_bound; lia). lia.
Qed.

Lemma varint_length f u : 0 <= u -> (length (varint_loop f u) <= f)%nat /\ octet_list (varint_loop f u).
Proof.
  revert u. induction f as [|f IH]; intros u Hu; cbn [varint_loop]; [split; [simpl; lia|constructor]|].
  assert (Hb : forall z, 0 <= byte z < 256) by (intros z; apply Z.mod_pos_bound; lia).
  destruct (_ =? 0); [split; [simpl; lia|apply Forall_singleton, Hb]|].
  destruct (IH (Z.shiftr u 7)) as [H1 H2]; [by apply Z.shiftr_nonneg|]. split; [simpl; lia|by constructor].
Qed.

Lemma read_varint_loop f : forall n i acc u l rest, (f <= n)%nat -> 0 <= i -> 7 * i <= 28 ->
  0 <= u < 2 ^ (7 * Z.of_nat f) -> u * 2 ^ (7 * i) < 2 ^ 32 -> 0 <= acc < 2 ^ (7 * i) ->
  llen (varint_loop f u) <= l -> (f <> 0)%nat ->
  readVarInt_loop n i acc (mkLimited l (varint_loop f u ++ rest)) =
  Ok (int32 (acc + u * 2 ^ (7 * i)), mkLimited (l - llen (varint_loop f u)) rest).
Proof.
  induction f as [|f IH]; intros n i acc u l rest Hf Hi Hi4 Hu Hfit Hacc Hl Hf0; [done|].
  destruct n as [|n]; [lia|]. cbn [readVarInt_loop varint_loop] in *. rewrite last_group in * by lia.
  destruct (Z.ltb_spec u 128) as [Hlast|Hmore].
  - destruct (group_bits u) as (E1 & E2 & E3 & _); [lia|]. unfold ReadByte. cbn [left_ input app].
    unfold llen in *. cbn [length] in *. replace (l <=? 0) with false by lia. rewrite E1, E2, E3. cbn [Z.eqb].
    rewrite Z.shiftl_mul_pow2 by lia. unfold uint32. rewrite Z.mod_small by (pose proof (Z.pow_pos_nonneg 2 (7 * i)); nia).
    rewrite lor_add by lia. do 3 f_equal; lia.
  - pose proof (Z.div_mod u 128 ltac:(lia)) as Hdm. pose proof (Z.mod_pos_bound u 128 ltac:(lia)) as Hmod.
    destruct (group_bits (u mod 128)) as (_ & _ & _ & E1 & E2 & E3); [lia|].
    assert (Hlow : Z.land u 0x7F = u mod 128) by (change 0x7F with (Z.ones 7); by rewrite Z.land_ones by lia).
    assert (Hshift : Z.shiftr u 7 = u / 128) by (by rewrite Z.shiftr_div_pow2 by lia).
    rewrite Hlow, Hshift, E1 in *. unfold ReadByte. cbn [left_ input app].
    assert (Hlen : llen (u mod 128 + 128 :: varint_loop f (u / 128)) = llen (varint_loop f (u / 128)) + 1)
      by (unfold llen; cbn [length]; lia).
    rewrite Hlen in Hl |- *. pose proof (llen_nonneg (varint_loop f (u / 128))).
    replace (l <=? 0) with false by lia. rewrite E2, E3. change (128 =? 0) with false. cbn match.
    assert (Hpos : 0 < 2 ^ (7 * i)) by (apply Z.pow_pos_nonneg; lia).
    assert (Hpow : 2 ^ (7 * (i + 1)) = 128 * 2 ^ (7 * i)).
    { replace (7 * (i + 1)) with (7 + 7 * i) by lia. by rewrite Z.pow_add_r by lia. }
    assert (Hpowf : 2 ^ (7 * Z.of_nat (S f)) = 128 * 2 ^ (7 * Z.of_nat f)).
    { replace (7 * Z.of_nat (S f)) with (7 + 7 * Z.of_nat f) by lia. by rewrite Z.pow_add_r by lia. }
    rewrite Z.shiftl_mul_pow2 by lia. unfold uint32. rewrite Z.mod_small by nia. rewrite lor_add by lia.
    assert (Hu128 : 1 <= u / 128) by (apply Z.div_le_lower_bound; lia).
    assert (Hi' : 7 * (i + 1) <= 28).
    { destruct (Z.le_gt_cases (7 * (i + 1)) 28); [done|]. assert (i = 4) as -> by lia. change (2 ^ (7 * 4)) with (2 ^ 28) in *. lia. }
    rewrite IH; try lia; try nia.
    + do 3 f_equal; [rewrite Hpow; nia|lia].
    + destruct f; [|lia]. change (2 ^ (7 * Z.of_nat 1)) with 128 in Hu. lia.
Qed.

(** every 32-bit number is written in at most five bytes and read back as itself,
    negative ones included, with the rest of the stream left where it was. *)
Theorem varint_roundtrip v rest l :
  - 2 ^ 31 <= v < 2 ^ 31 -> llen (appendVarInt [] v) <= l ->
  readVarInt (mkLimited l (appendVarInt [] v ++ rest)) = Ok (v, mkLimited (l - llen (appendVarInt [] v)) rest) /\
  (length (appendVarInt [] v) <= 5)%nat /\ octet_list (appendVarInt [] v).
Proof.
  intros Hv Hl. unfold appendVarInt in *. cbn [app] in *.
  pose proof (Z.mod_pos_bound v (2 ^ 32) ltac:(lia)) as Hu. fold (uint32 v) in Hu. split; [|apply varint_length; lia].
  unfold readVarInt. rewrite read_varint_loop; try lia.
  f_equal. f_equal. unfold int32, uint32. rewrite Z.add_0_l, Z.mul_1_r, Z.add_mod_idemp_l by lia.
  rewrite Z.mod_small by lia. lia.
Qed.

(** ** Lemmas: headers *)

(** Total and number, as a header gives them. *)
Definition header_fields (h : list Z) (l : layout) : result query_error (Z * Z) :=
  match l with
  | SplitGoldSrc => let? h := idx h 8 in Ok (Z.land h 0x0F, Z.shiftr h 4)
  | _ => let? t := idx h 8 in let? n := idx h 9 in Ok (t, n)
  end.

Lemma nibbles k t : 0 <= k -> 0 <= t < 16 -> Z.land (k * 16 + t) 0x0F = t /\ Z.shiftr (k * 16 + t) 4 = k.
Proof.
  intros Hk Ht. change 0x0F with (Z.ones 4). rewrite Z.land_ones, Z.shiftr_div_pow2 by lia. change (2 ^ 4) with 16.
  rewrite Z.add_comm, Z.mod_add, Z.div_add, Z.mod_small, Z.div_small by lia. lia.
Qed.

(** ** Split answers: what a server sends *)

Definition marker : list Z := [0xFF; 0xFF; 0xFF; 0xFF].

(** The header of a part, by layout; [size] is a field the receiver does not need. *)
Definition split_header (l : layout) (size : list Z) (total number : Z) : list Z :=
  match l with
  | SplitSource => ([total; number] ++ size)%list
  | SplitSourceOld => [total; number]
  | SplitGoldSrc => [number * 16 + total]
  end.
Definition split_part (l : layout) (id size : list Z) (chunks : list (list Z)) (k : nat) : list Z :=
  ([0xFE; 0xFF; 0xFF; 0xFF] ++ id ++ split_header l size (llen chunks) (Z.of_nat k) ++ nth k chunks [])%list.

(** An answer with the payload [body] that is sent in parts.  The first part holds the
    whole marker; no packet exceeds the buffer; the size field is not 0xFFFF; and with
    GoldSrc no later part looks like the first part of another layout. *)
Record split_answer (l : layout) (id size : list Z) (chunks : list (list Z)) (body : list Z) : Prop := {
  sa_body : concat chunks = (marker ++ body)%list;
  sa_first : (4 <= length (nth 0 chunks []))%nat;
  sa_total : llen chunks <= match l with SplitGoldSrc => 15 | _ => a2sMaxSplitParts end;
  sa_id : exists a b c d, id = [a; b; c; d] /\ 0 <= a < 256 /\ 0 <= b < 256 /\ 0 <= c < 256 /\ 0 <= d < 128;
  sa_size : exists a b, size = [a; b] /\ ~ (a = 0xFF /\ b = 0xFF);
  sa_packet : forall k, (length (split_part l id size chunks k) <= 1500)%nat;
  sa_clear : l = SplitGoldSrc -> forall k, (0 < k < length chunks)%nat ->
    take 5 (nth k chunks []) <> [0; 0xFF; 0xFF; 0xFF; 0xFF] /\
    ~ (nth 0 (nth k chunks []) 1 = 0 /\ take 4 (drop 3 (nth k chunks [])) = marker)
}.

(** ** Lemmas: splitting at a header *)

Lemma from_app h rest a : Z.of_nat (length h) = a -> from (h ++ rest)%list a = Ok rest.
Proof.
  intros Hh. rewrite from_ok by (unfold llen; rewrite length_app; lia).
  f_equal. rewrite <- Hh, Nat2Z.id. apply drop_app_length.
Qed.

Lemma idx_app (h rest : list Z) i : idx (h ++ rest)%list (Z.of_nat (length h) + Z.of_nat i) =
    match nth_error rest i with Some v => Ok v | None => Err (A := Z) EPanic end.
Proof.
  unfold idx. destruct (Z.leb_spec 0 (Z.of_nat (length h) + Z.of_nat i)); [|lia]. rewrite nth_error_app2 by lia.
  do 2 f_equal. all: by replace (Z.to_nat (Z.of_nat (length h) + Z.of_nat i) - length h)%nat with i by lia.
Qed.

Lemma idx_prefix (h rest : list Z) i : 0 <= i < Z.of_nat (length h) -> idx (h ++ rest)%list i = idx h i.
Proof. intros Hi. unfold idx. by rewrite nth_error_app1 by lia. Qed.

Lemma starts_app h rest a : Z.of_nat (length h) = a -> starts (h ++ rest)%list a = Ok (bool_decide (take 4 rest = marker)).
Proof.
  intros <-. unfold starts. pose proof (idx_app h rest) as Hi. pose proof (Hi 0%nat) as H0. rewrite Z.add_0_r in H0.
  rewrite H0. clear H0. rewrite (Hi 1%nat : idx _ (_ + 1) = _), (Hi 2%nat : idx _ (_ + 2) = _), (Hi 3%nat : idx _ (_ + 3) = _).
  unfold llen. rewrite length_app. destruct rest as [|r0 [|r1 [|r2 [|r3 rest]]]]; cbn [length];
    (case_match eqn:Hlt; to_prop; try lia);
    try (symmetry; f_equal; apply bool_decide_eq_false; done).
  cbn [nth_error]. f_equal. unfold marker. cbn [take].
  symmetry. case_bool_decide as E; [by injection E as -> -> -> ->|].
  destruct (Z.eqb_spec r0 0xFF) as [->|]; [|done]. destruct (Z.eqb_spec r1 0xFF) as [->|]; [|done].
  destruct (Z.eqb_spec r2 0xFF) as [->|]; [|done]. destruct (Z.eqb_spec r3 0xFF) as [->|]; done.
Qed.

Lemma starts_spec p a : 0 <= a -> starts p a = Ok (bool_decide (take 4 (drop (Z.to_nat a) p) = marker)).
Proof.
  intros Ha. destruct (Z.leb_spec a (llen p)) as [Hle|Hgt].
  - unfold llen in Hle. rewrite <- (take_drop (Z.to_nat a) p) at 1. apply starts_app. rewrite length_take. lia.
  - unfold starts. destruct (Z.ltb_spec (llen p) (a + 4)); [|lia]. unfold llen in Hgt.
    rewrite drop_ge by lia. by rewrite bool_decide_eq_false_2.
Qed.

(** The layout, from the ninth byte and what follows it. *)
Lemma detect_spec h8 e rest : length h8 = 8%nat -> detectA2SSplitLayout (h8 ++ e :: rest)%list =
  Ok (if bool_decide (take 4 rest = marker) && (Z.shiftr e 4 =? 0) then Some SplitGoldSrc
      else if negb (nth 0 rest 0 =? 0) then None
      else if bool_decide (take 4 (drop 1 rest) = marker) then Some SplitSourceOld
      else if bool_decide (take 4 (drop 3 rest) = marker) then Some SplitSource else None).
Proof.
  intros H8. unfold detectA2SSplitLayout. rewrite !starts_spec by done.
  assert (Hd : forall n, drop (8 + S n) (h8 ++ e :: rest) = drop n rest).
  { intros n. rewrite <- H8, drop_app_add. done. }
  change (Z.to_nat 9) with (8 + 1)%nat. change (Z.to_nat 10) with (8 + 2)%nat. change (Z.to_nat 12) with (8 + 4)%nat.
  rewrite !Hd, drop_0. assert (Hi : idx (h8 ++ e :: rest)%list 8 = Ok e).
  { change 8 with (8 + Z.of_nat 0). change 8 with (Z.of_nat 8) at 1. rewrite <- H8 at 1. by rewrite idx_app. }
  assert (Hn : forall T (A B : result query_error T),
    (let? n := (if 9 <? llen (h8 ++ e :: rest)%list then idx (h8 ++ e :: rest)%list 9 else Ok 0) in
     if (9 <? llen (h8 ++ e :: rest)%list) && negb (n =? 0) then A else B) = if negb (nth 0 rest 0 =? 0) then A else B).
  { intros T A B. unfold llen. rewrite length_app, H8. cbn [length].
    assert (Hi9 : idx (h8 ++ e :: rest)%list 9 = match nth_error rest 0 with Some v => Ok v | None => Err EPanic end).
    { change 9 with (8 + Z.of_nat 1). change 8 with (Z.of_nat 8) at 1. rewrite <- H8 at 1. by rewrite idx_app. }
    rewrite Hi9. destruct rest as [|n rest]; [done|]. cbn [length nth nth_error].
    destruct (Z.ltb_spec 9 (Z.of_nat (8 + S (S (length rest))))); [done|lia]. }
  destruct (bool_decide (take 4 rest = marker)); cbn beta iota; rewrite ?Hi; cbn beta iota; cbn [andb].
  - destruct (Z.shiftr e 4 =? 0); [done|]. rewrite Hn. by repeat case_match.
  - rewrite Hn. by repeat case_match.
Qed.

Lemma parse_header l h payload t n : Z.of_nat (length h) = header_len l -> header_fields h l = Ok (t, n) ->
  0 < t <= a2sMaxSplitParts -> n < t -> parseA2SSplit (h ++ payload)%list l = Ok (t, n, payload).
Proof.
  intros Hh Hf Ht Hn. unfold parseA2SSplit. unfold llen. rewrite length_app.
  destruct (Z.ltb_spec (Z.of_nat (length h + length payload)) (header_len l)); [lia|].
  fold (header_fields (h ++ payload)%list l).
  assert (header_fields (h ++ payload)%list l = Ok (t, n)) as ->.
  { rewrite <- Hf. unfold header_fields. destruct l; cbn [header_len] in Hh; by rewrite ?idx_prefix by lia. }
  cbn beta iota.
  destruct (Z.eqb_spec t 0); [lia|]. destruct (Z.ltb_spec a2sMaxSplitParts t); [lia|].
  destruct (Z.leb_spec t n); [lia|]. cbn [orb]. by rewrite from_app.
Qed.

Section Split.
Context (l : layout) (id sz : list Z) (chunks : list (list Z)) (body : list Z).
Context (H : split_answer l id sz chunks body).
Abbreviation part := (split_part l id sz chunks).
Abbreviation total := (length chunks).

Lemma total_pos : (0 < total)%nat.
Proof. pose proof (sa_first _ _ _ _ _ H). destruct chunks; simpl in *; lia. Qed.

(** The parts as lists with their header written out. *)
Lemma part_shape k : exists a b c d hdr, 0 <= a < 256 /\ 0 <= b < 256 /\ 0 <= c < 256 /\ 0 <= d < 128 /\
  part k = (0xFE :: 0xFF :: 0xFF :: 0xFF :: a :: b :: c :: d :: hdr ++ nth k chunks [])%list /\
  hdr = split_header l sz (llen chunks) (Z.of_nat k).
Proof.
  destruct (sa_id _ _ _ _ _ H) as (a & b & c & d & -> & Ha & Hb & Hc & Hd).
  exists a, b, c, d, (split_header l sz (llen chunks) (Z.of_nat k)). split_and!; try lia; done.
Qed.

Lemma land_id a b c d : 0 <= a < 256 -> 0 <= b < 256 -> 0 <= c < 256 -> 0 <= d < 128 ->
  Z.land (le_value [a; b; c; d]) 0x80000000 = 0.
Proof.
  intros Ha Hb Hc Hd. set (v := le_value [a; b; c; d]).
  assert (Hv : 0 <= v < 2 ^ 31) by (unfold v; cbn; lia).
  apply Z.bits_inj'. intros n Hn. rewrite Z.land_spec, Z.bits_0. change 0x80000000 with (2 ^ 31).
  rewrite Z.pow2_bits_eqb by lia. destruct (Z.eqb_spec 31 n) as [<-|]; [|by rewrite andb_false_r].
  rewrite <- (Z.mod_small v (2 ^ 31)) by lia. by rewrite Z.mod_pow2_bits_high.
Qed.

Lemma parse_part k : (k < total)%nat -> parseA2SSplit (part k) l = Ok (llen chunks, Z.of_nat k, nth k chunks []).
Proof.
  intros Hk. pose proof (sa_total _ _ _ _ _ H) as Ht. unfold llen, a2sMaxSplitParts in *.
  destruct (part_shape k) as (a & b & c & d & hdr & _ & _ & _ & _ & -> & ->).
  destruct (sa_size _ _ _ _ _ H) as (s0 & s1 & -> & _). unfold split_header, llen. destruct l.
  - apply (parse_header _ [0xFE; 0xFF; 0xFF; 0xFF; a; b; c; d; Z.of_nat total; Z.of_nat k; s0; s1]); unfold a2sMaxSplitParts; try done; lia.
  - apply (parse_header _ [0xFE; 0xFF; 0xFF; 0xFF; a; b; c; d; Z.of_nat total; Z.of_nat k]); unfold a2sMaxSplitParts; try done; lia.
  - destruct (nibbles (Z.of_nat k) (Z.of_nat total)) as [E1 E2]; [lia..|].
    apply (parse_header _ [0xFE; 0xFF; 0xFF; 0xFF; a; b; c; d; Z.of_nat k * 16 + Z.of_nat total]); unfold a2sMaxSplitParts; try done; [|lia..].
    unfold header_fields. change (idx _ 8) with (@Ok query_error _ (Z.of_nat k * 16 + Z.of_nat total)).
    cbn beta iota. by rewrite E1, E2.
Qed.

Lemma first_marker : take 4 (nth 0 chunks []) = marker.
Proof.
  pose proof (sa_first _ _ _ _ _ H) as Hf. pose proof (sa_body _ _ _ _ _ H) as Hb.
  destruct chunks as [|c cs]; cbn [nth] in *; [simpl in Hf; lia|]. cbn [concat] in Hb.
  apply (f_equal (take 4)) in Hb. by rewrite take_app_le in Hb by lia.
Qed.

(** The first part alone shows the layout. *)
Lemma detect_part k : (k < total)%nat -> detectA2SSplitLayout (part k) = Ok (if Nat.eqb k 0 then Some l else None).
Proof.
  intros Hk. pose proof (sa_total _ _ _ _ _ H) as Ht. pose proof first_marker as Hm. pose proof (sa_clear _ _ _ _ _ H) as Hc.
  destruct (part_shape k) as (a & b & c & d & hdr & _ & _ & _ & _ & -> & ->).
  destruct (sa_size _ _ _ _ _ H) as (s0 & s1 & -> & Hs). unfold split_header, llen, a2sMaxSplitParts in *.
  destruct l.
  - etrans; [exact (detect_spec [0xFE; 0xFF; 0xFF; 0xFF; a; b; c; d] (Z.of_nat total) (Z.of_nat k :: s0 :: s1 :: nth k chunks []) eq_refl)|].
    cbn [nth take drop]. rewrite bool_decide_eq_false_2 by (unfold marker; intros [=]; lia). cbn [andb].
    destruct k as [|k]; [|done]. cbn [Nat.eqb].
    rewrite bool_decide_eq_false_2 by (unfold marker; intros [= -> ->]; by apply Hs).
    change (take 4 (nth 0 chunks [])) with (firstn 4 (nth 0 chunks [])). by rewrite bool_decide_eq_true_2.
  - etrans; [exact (detect_spec [0xFE; 0xFF; 0xFF; 0xFF; a; b; c; d] (Z.of_nat total) (Z.of_nat k :: nth k chunks []) eq_refl)|].
    cbn [nth take drop]. rewrite bool_decide_eq_false_2 by (unfold marker; intros [=]; lia). cbn [andb].
    destruct k as [|k]; [|done]. by rewrite bool_decide_eq_true_2.
  - etrans; [exact (detect_spec [0xFE; 0xFF; 0xFF; 0xFF; a; b; c; d] (Z.of_nat k * 16 + Z.of_nat total) (nth k chunks []) eq_refl)|].
    destruct (nibbles (Z.of_nat k) (Z.of_nat total)) as [_ ->]; [lia..|].
    destruct k as [|k]; [by rewrite Hm, bool_decide_eq_true_2|].
    destruct (Z.eqb_spec (Z.of_nat (S k)) 0); [lia|]. rewrite andb_false_r. cbn [Nat.eqb].
    destruct (Hc eq_refl (S k)) as [Hc1 Hc2]; [lia|]. set (p := nth (S k) chunks []) in *.
    destruct (Z.eqb_spec (nth 0 p 0) 0) as [H0|]; [cbn [negb]|done].
    destruct p as [|p0 p]; [by rewrite !bool_decide_eq_false_2|]. cbn [nth] in *. subst p0.
    rewrite !bool_decide_eq_false_2; [done|..].
    + intros E. apply Hc2. done.
    + intros E. apply Hc1. change (0 :: take 4 p = 0 :: marker). by rewrite <- E.
Qed.

(** ** Collecting *)

Definition complete (ks : list nat) : bool := forallb (fun k => bool_decide (k ∈ ks)) (seq 0 total).

Lemma complete_all ks : complete ks = true <-> forall k, (k < total)%nat -> k ∈ ks.
Proof.
  unfold complete. rewrite forallb_forall. split.
  - intros Hc k Hk. specialize (Hc k). rewrite in_seq in Hc. by apply bool_decide_eq_true_1 in Hc; [|lia].
  - intros Hc k Hk%in_seq. apply bool_decide_eq_true_2, Hc. lia.
Qed.

Lemma collect_parts ks t m : Forall (fun k => (k < total)%nat) ks ->
  exists m', collect (map part ks) l t m = Ok (match ks with [] => t | _ => llen chunks end, m') /\
    dom m' = list_to_set (Z.of_nat <$> ks) ∪ dom m /\
    (forall k, k ∈ ks -> m' !! Z.of_nat k = Some (nth k chunks [])) /\
    (forall k, k ∉ ks -> m' !! Z.of_nat k = m !! Z.of_nat k).
Proof.
  revert t m. induction ks as [|k ks IH]; intros t m Hks.
  - exists m. split_and!; [done|set_solver|set_solver|done].
  - apply Forall_cons in Hks as [Hk Hks]. cbn [map collect]. rewrite parse_part by done. cbn beta iota.
    destruct (IH (llen chunks) (<[Z.of_nat k := nth k chunks []]> m) Hks) as (m' & -> & Hd & Hin & Hout).
    exists m'. split_and!; [by destruct ks|rewrite Hd, dom_insert_L; set_solver|..].
    + intros j Hj. destruct (decide (j ∈ ks)) as [|Hn]; [by apply Hin|].
      apply elem_of_cons in Hj as [->|]; [|done]. rewrite Hout by done. by rewrite lookup_insert_eq.
    + intros j Hj. apply not_elem_of_cons in Hj as [Hne Hj]. rewrite Hout by done.
      rewrite lookup_insert_ne; [done|lia].
Qed.

Lemma numbers_size (ks : list nat) : Forall (fun k => (k < total)%nat) ks ->
  (size (list_to_set (Z.of_nat <$> ks) : gset Z) = total) <-> complete ks = true.
Proof.
  intros Hks. set (all := list_to_set (Z.of_nat <$> seq 0 total) : gset Z).
  assert (Hall : size all = total).
  { unfold all. rewrite size_list_to_set; [by rewrite length_fmap, length_seq|].
    apply NoDup_fmap; [intros x y; apply Nat2Z.inj|apply NoDup_seq]. }
  assert (Hsub : (list_to_set (Z.of_nat <$> ks) : gset Z) ⊆ all).
  { unfold all. intros z Hz. rewrite elem_of_list_to_set, list_elem_of_fmap in *. destruct Hz as (k & -> & Hk).
    exists k. split; [done|]. apply elem_of_seq. rewrite Forall_forall in Hks. specialize (Hks _ Hk). lia. }
  rewrite complete_all. split.
  - intros Hs k Hk. assert (list_to_set (Z.of_nat <$> ks) = all) as E by (apply set_subseteq_size_eq; [done|lia]).
    assert (Z.of_nat k ∈ all) as Hin.
    { unfold all. apply elem_of_list_to_set, list_elem_of_fmap. exists k. split; [done|]. apply elem_of_seq. lia. }
    rewrite <- E, elem_of_list_to_set, list_elem_of_fmap in Hin. destruct Hin as (k' & E'%Nat2Z.inj & Hin). by subst.
  - intros Hc. rewrite <- Hall. f_equal. apply set_eq. intros z. split; [apply Hsub|]. unfold all.
    rewrite !elem_of_list_to_set, !list_elem_of_fmap. intros (k & -> & Hk%elem_of_seq). exists k. split; [done|]. apply Hc. lia.
Qed.

Lemma join_parts ks : Forall (fun k => (k < total)%nat) ks -> ks <> [] ->
  joinA2SSplit (map part ks) l = Ok (if complete ks then Some body else None).
Proof.
  intros Hks Hne. unfold joinA2SSplit. destruct (collect_parts ks 0 ∅ Hks) as (m & -> & Hd & Hin & _).
  cbn beta iota. assert (Hsize : size m = size (list_to_set (Z.of_nat <$> ks) : gset Z)).
  { rewrite <- size_dom, Hd, dom_empty_L. f_equal. set_solver. }
  destruct ks as [|k0 ks]; [done|]. set (all := k0 :: ks) in *. unfold llen. rewrite Hsize.
  pose proof (numbers_size all Hks) as Hn.
  destruct (Z.eqb_spec (Z.of_nat (size (list_to_set (Z.of_nat <$> all) : gset Z))) (Z.of_nat total)) as [E|E]; cbn [negb].
  - apply Nat2Z.inj in E. apply Hn in E. rewrite E. rewrite complete_all in E. rewrite Nat2Z.id.
    assert (flat_map (fun i => default [] (m !! Z.of_nat i)) (seq 0 total) = marker ++ body)%list as ->.
    { rewrite <- (sa_body _ _ _ _ _ H), flat_map_concat_map. f_equal.
      apply nth_ext with [] []; [by rewrite length_map, length_seq|].
      rewrite length_map, length_seq. intros k Hk.
      rewrite nth_indep with (d' := default [] (m !! Z.of_nat 0)) by (by rewrite length_map, length_seq).
      rewrite (map_nth (fun i => default [] (m !! Z.of_nat i))), seq_nth by done. cbn [Nat.add].
      by rewrite Hin by (by apply E). }
    rewrite length_app. destruct (Z.ltb_spec (Z.of_nat (length marker + length body)) 4) as [Hlt|_]; [simpl in Hlt; lia|].
    change (le_uint 4 (marker ++ body)%list) with
      (let? s := (if (0 <=? 0) && (0 <=? 4) && (4 <=? llen (marker ++ body)%list) then Ok marker else Err EPanic) in
       Ok (le_value s) : result query_error Z).
    unfold llen. rewrite length_app. destruct (Z.leb_spec 4 (Z.of_nat (length marker + length body))) as [_|Hlt]; [|simpl in Hlt; lia].
    cbn beta iota. change (int32 (le_value marker) =? -1) with true. cbn [andb negb Z.leb Z.compare].
    by rewrite from_app.
  - destruct (complete all); [|done]. destruct Hn as [_ Hn]. specialize (Hn eq_refl). lia.
Qed.

(** One part more. *)
Lemma exchange_part k ks : (k < total)%nat -> Forall (fun k => (k < total)%nat) ks -> (length ks < 32)%nat ->
  exchange_step (part k) (map part ks) (if bool_decide (0%nat ∈ ks) then Some l else None) =
  Ok (if complete (ks ++ [k]) then inl body
      else inr (map part (ks ++ [k]), if bool_decide (0%nat ∈ ks ++ [k]) then Some l else None)).
Proof.
  intros Hk Hks Hlen. unfold exchange_step. rewrite take_ge by apply (sa_packet _ _ _ _ _ H).
  destruct (part_shape k) as (a & b & c & d & hdr & Ha & Hb & Hc & Hd & Hp & _).
  assert (Hll : llen (part k) = 8 + llen (hdr ++ nth k chunks [])%list) by (rewrite Hp; unfold llen; cbn [length]; lia).
  assert (Hh : 1 <= llen (hdr ++ nth k chunks [])%list).
  { pose proof (parse_part k Hk) as Hparse. unfold parseA2SSplit in Hparse.
    destruct (Z.ltb_spec (llen (part k)) (header_len l)) as [|Hlt]; [done|]. rewrite Hll in Hlt. destruct l; simpl in Hlt; lia. }
  assert (Hslice : forall x y, 0 <= x <= y -> y <= 8 -> slice (part k) x y =
    Ok (take (Z.to_nat (y - x)) (drop (Z.to_nat x) [0xFE; 0xFF; 0xFF; 0xFF; a; b; c; d]))).
  { intros x y Hx Hy. rewrite slice_ok by lia. rewrite Hp. f_equal.
    change (take (Z.to_nat (y - x)) (drop (Z.to_nat x) ([0xFE; 0xFF; 0xFF; 0xFF; a; b; c; d] ++ (hdr ++ nth k chunks []))) =
      take (Z.to_nat (y - x)) (drop (Z.to_nat x) [0xFE; 0xFF; 0xFF; 0xFF; a; b; c; d])).
    rewrite drop_app_le by (cbn [length]; lia). rewrite take_app_le; [done|]. rewrite length_drop. cbn [length]. lia. }
  destruct (Z.ltb_spec (llen (part k)) 5); [lia|]. destruct (Z.ltb_spec (llen (part k)) 9); [lia|].
  unfold le_uint. rewrite !Hslice by lia. cbn beta iota.
  change (int32 _ =? -1) with false. change (int32 _ =? -2) with true. cbn beta iota. cbn [negb orb].
  unfold a2sMaxSplitParts. destruct (Z.leb_spec 32 (llen (map part ks))) as [Hl|_]; [unfold llen in Hl; rewrite length_map in Hl; lia|].
  change (take (Z.to_nat (4 - 0)) (drop (Z.to_nat 0) (take (Z.to_nat (8 - 4)) (drop (Z.to_nat 4) [254; 255; 255; 255; a; b; c; d])))) with [a; b; c; d].
  assert (Hid : slice (take (Z.to_nat (8 - 4)) (drop (Z.to_nat 4) [254; 255; 255; 255; a; b; c; d])) 0 4 = Ok [a; b; c; d]) by done.
  rewrite Hid. cbn beta iota. rewrite land_id by done. cbn [Z.eqb negb].
  assert (Hmap : (map part ks ++ [part k])%list = map part (ks ++ [k])) by (by rewrite map_app). rewrite Hmap.
  assert (Hlay : (let? x := (match (if bool_decide (0%nat ∈ ks) then Some l else None) with
      | Some _ => Ok (if bool_decide (0%nat ∈ ks) then Some l else None) | None => detectA2SSplitLayout (part k) end) in Ok x) =
     Ok (if bool_decide (0%nat ∈ ks ++ [k]) then Some l else None)).
  { rewrite detect_part by done. case_bool_decide as E.
    - by rewrite bool_decide_eq_true_2 by set_solver.
    - destruct (Nat.eqb_spec k 0) as [->|]; [by rewrite bool_decide_eq_true_2 by set_solver|].
      by rewrite bool_decide_eq_false_2 by set_solver. }
  destruct (match (if bool_decide (0%nat ∈ ks) then Some l else None) with Some _ => _ | None => _ end) as [x|]; [|done].
  injection Hlay as ->. assert (Hall : Forall (fun k => (k < total)%nat) (ks ++ [k])) by (apply Forall_app; by repeat constructor).
  case_bool_decide as E.
  - rewrite join_parts; [|done|by destruct ks]. by destruct (complete _).
  - destruct (complete _) eqn:Ec; [|done]. rewrite complete_all in Ec. destruct E. apply Ec, total_pos.
Qed.

Lemma exchange_parts ks2 more : forall ks1,
  Forall (fun k => (k < total)%nat) (ks1 ++ ks2) -> (length ks1 + length ks2 <= 32)%nat ->
  complete ks1 = false -> complete (ks1 ++ ks2) = true ->
  exists first k later, (ks1 ++ ks2 = first ++ k :: later)%list /\ complete (first ++ [k]) = true /\ complete first = false /\
    exchange_loop (map part ks2 ++ more) (map part ks1) (if bool_decide (0%nat ∈ ks1) then Some l else None) =
    (Ok body, map part later ++ more)%list.
Proof.
  induction ks2 as [|k ks2 IH]; intros ks1 Hks Hlen Hno Hyes; [rewrite app_nil_r in Hyes; congruence|].
  pose proof Hks as [H1 H2]%Forall_app. apply Forall_cons in H2 as [Hk H2]. cbn [map app exchange_loop].
  rewrite exchange_part by (try done; cbn [length] in Hlen; lia).
  destruct (complete (ks1 ++ [k])) eqn:Ec; [by exists ks1, k, ks2|].
  destruct (IH (ks1 ++ [k])%list) as (first & k' & later & E & Hc & Hf & Hx).
  - by rewrite <- app_assoc.
  - rewrite length_app. cbn [length] in *. lia.
  - done.
  - by rewrite <- app_assoc.
  - exists first, k', later. split; [by rewrite <- E, <- app_assoc|]. done.
Qed.
End Split.

(** an answer that is split into parts is put together whatever layout the server
    uses and in whatever order its parts arrive, repeated ones included, as long as no
    more than 32 packets arrive; reading stops at the part that completes the answer. *)
Theorem a2s_split_reassembled l id size chunks body ks more :
  split_answer l id size chunks body ->
  (forall k, k ∈ ks -> (k < length chunks)%nat) -> (forall k, (k < length chunks)%nat -> k ∈ ks) -> (length ks <= 32)%nat ->
  exists first k later, ks = (first ++ k :: later)%list /\ k ∉ first /\
    (forall j, (j < length chunks)%nat -> j ∈ first \/ j = k) /\
    a2sExchange true (map (split_part l id size chunks) ks ++ more) =
    (Ok body, map (split_part l id size chunks) later ++ more)%list.
Proof.
  intros H Hin Hall Hlen. destruct (exchange_parts l id size chunks body H ks more []) as (first & k & later & E & Hc & Hf & Hx).
  - by apply Forall_forall.
  - done.
  - apply not_true_is_false. rewrite complete_all. intros Hc. by apply (not_elem_of_nil 0%nat), Hc, (total_pos _ _ _ _ _ H).
  - by apply complete_all.
  - exists first, k, later. rewrite complete_all in Hc. split; [done|]. split; [|split].
    + intros Hk. apply not_true_iff_false in Hf. apply Hf, complete_all. intros j Hj. specialize (Hc j Hj). set_solver.
    + intros j Hj. specialize (Hc j Hj). set_solver.
    + exact Hx.
Qed.

(** ** Lemmas: the targets of a server *)

Lemma ask_targets_spec ask targets : forall tried x asked, ask_targets ask targets tried = (x, asked) ->
  NoDup asked /\ (forall t, t ∈ asked -> t ∈ targets /\ t ∉ tried) /\ (length asked <= length targets)%nat /\
  match x with
  | Some (info, t) => ask t = Some info /\ exists before, asked = (before ++ [t])%list /\ Forall (fun t => ask t = None) before
  | None => Forall (fun t => ask t = None) asked /\ forall t, t ∈ targets -> t ∈ asked \/ t ∈ tried
  end.
Proof.
  induction targets as [|t r IH]; intros tried x asked; cbn [ask_targets].
  - intros [= <- <-]. split_and!; [constructor|set_solver|simpl; lia|constructor|set_solver].
  - case_bool_decide as Ht.
    + intros (H1 & H2 & H3 & H4)%IH. split_and!; [done|set_solver|simpl; lia|].
      destruct x as [[info t']|]; [done|]. destruct H4 as [H4 H5]. split; [done|]. intros u [->|Hu]%elem_of_cons; [by right|by apply H5].
    + destruct (ask t) as [info|] eqn:Ea.
      * intros [= <- <-]. split_and!; [apply NoDup_singleton|set_solver|simpl; lia|done|]. exists []. by split.
      * destruct (ask_targets ask r (t :: tried)) as [x' asked'] eqn:E. intros [= <- <-].
        apply IH in E as (H1 & H2 & H3 & H4). split_and!.
        -- constructor; [|done]. intros Hin%H2. set_solver.
        -- intros u [->|Hu]%elem_of_cons; [set_solver|]. apply H2 in Hu. set_solver.
        -- simpl. lia.
        -- destruct x' as [[info t']|].
           ++ destruct H4 as (Hi & before & -> & Hb). split; [done|]. exists (t :: before). split; [done|by constructor].
           ++ destruct H4 as [Hb Hc]. split; [by constructor|]. intros u [->|Hu]%elem_of_cons; [set_solver|]. apply Hc in Hu. set_solver.
Qed.

Lemma query_targets_bound srv extra : (length (queryTargets srv extra) <= 4)%nat.
Proof. unfold queryTargets. repeat case_match; try (simpl; lia); rewrite length_take; lia. Qed.

(** one round for a server asks the target that answered last time first, then the
    candidates, none of them twice and no more than five, and stops at the first answer;
    without an answer the server counts as offline and the last target is kept. *)
Theorem query_server_round ask srv extra prev st asked :
  queryServer ask srv extra prev = (st, asked) ->
  NoDup asked /\ (length asked <= 5)%nat /\ (forall t, qy_target prev = Some t -> head asked = Some t) /\
  ((exists before t info, asked = (before ++ [t])%list /\ Forall (fun t => ask t = None) before /\ ask t = Some info /\
      st = mkQueryState info (Some t)) \/
   (Forall (fun t => ask t = None) asked /\ (forall t, t ∈ queryTargets srv extra -> t ∈ asked) /\
      st = mkQueryState no_query (qy_target prev))).
Proof.
  unfold queryServer. set (targets := match qy_target prev with Some t => [t] | None => [] end ++ queryTargets srv extra).
  destruct (ask_targets ask targets []) as [x asked'] eqn:E. intros H.
  assert (asked' = asked) as -> by (destruct x as [[? ?]|]; by injection H).
  pose proof (ask_targets_spec _ _ _ _ _ E) as (H1 & _ & H3 & H4). split; [done|]. split; [|split].
  - pose proof (query_targets_bound srv extra). unfold targets in H3. rewrite length_app in H3. destruct (qy_target prev); simpl in H3; lia.
  - intros t Ht. unfold targets in E. rewrite Ht in E. cbn [app ask_targets] in E.
    rewrite bool_decide_eq_false_2 in E by apply not_elem_of_nil. destruct (ask t); [by injection E as <- <-|].
    destruct (ask_targets ask _ [t]). by injection E as <- <-.
  - destruct x as [[info t]|]; injection H as <-.
    + left. destruct H4 as (Ha & before & -> & Hb). by exists before, t, info.
    + right. destruct H4 as [Hb Hc]. split_and!; [done| |done]. intros t Ht.
      destruct (Hc t) as [|Hn]; [unfold targets; set_solver|done|by apply not_elem_of_nil in Hn].
Qed.

(** ** Witnesses *)

(** A server that answers the first request with a challenge, then with a text that has
    no end; a pong that is too short. *)
Lemma query_never_panics_witness :
  let incoming := [[0xFF; 0xFF; 0xFF; 0xFF; 0x41; 1; 2; 3; 4]; [0xFF; 0xFF; 0xFF; 0xFF; 0x49; 17; 0x61; 0x62]] in
  octet_list [0x1C; 0; 0] /\
  QueryA2S 0 (fun _ => true) (fun _ => true) 20 incoming = Err EFormat /\
  calm (QueryA2S 0 (fun _ => true) (fun _ => true) 20 incoming) /\
  (parseBedrockPong [0x1C; 0; 0] = Err EFormat \/ exists info, parseBedrockPong [0x1C; 0; 0] = Ok info).
Proof.
  assert (Hd : octet_list [0x1C; 0; 0]) by (repeat constructor; lia).
  split; [exact Hd|]. split; [vm_compute; reflexivity|].
  exact (query_never_panics 0 (fun _ => true) (fun _ => true) 20
    [[0xFF; 0xFF; 0xFF; 0xFF; 0x41; 1; 2; 3; 4]; [0xFF; 0xFF; 0xFF; 0xFF; 0x49; 17; 0x61; 0x62]] [0x1C; 0; 0] Hd).
Defined.

Lemma varint_roundtrip_witness :
  appendVarInt [] 300 = [172; 2] /\ readVarInt (mkLimited 5 ([172; 2] ++ [9])) = Ok (300, mkLimited 3 [9]).
Proof.
  split; [vm_compute; reflexivity|].
  exact (proj1 (varint_roundtrip 300 [9] 5 ltac:(split; vm_compute; congruence) ltac:(vm_compute; congruence))).
Defined.

Definition demo_chunks : list (list Z) := [marker ++ [0x49; 1]; [2; 3]; [4]]%list.
Lemma demo_split : split_answer SplitGoldSrc [7; 0; 0; 0] [0; 0] demo_chunks [0x49; 1; 2; 3; 4].
Proof.
  constructor.
  - reflexivity.
  - cbn. lia.
  - vm_compute. congruence.
  - exists 7, 0, 0, 0. split; [done|]. lia.
  - exists 0, 0. split; [done|]. lia.
  - intros [|[|[|[|k]]]]; cbn; lia.
  - intros _ [|[|[|k]]] Hk; cbn in Hk; try lia; vm_compute; split; try done; intros [? ?]; done.
Defined.

(** The last part arrives first and the second one twice. *)
Lemma a2s_split_reassembled_witness :
  split_answer SplitGoldSrc [7; 0; 0; 0] [0; 0] demo_chunks [0x49; 1; 2; 3; 4] /\
  exists first k later, [2; 1; 1; 0; 1]%nat = (first ++ k :: later)%list /\ k ∉ first /\
    (forall j, (j < 3)%nat -> j ∈ first \/ j = k) /\
    a2sExchange true (map (split_part SplitGoldSrc [7; 0; 0; 0] [0; 0] demo_chunks) [2; 1; 1; 0; 1]%nat ++ []) =
    (Ok [0x49; 1; 2; 3; 4], map (split_part SplitGoldSrc [7; 0; 0; 0] [0; 0] demo_chunks) later ++ [])%list.
Proof.
  split; [exact demo_split|]. apply (a2s_split_reassembled _ _ _ _ _ [2; 1; 1; 0; 1]%nat [] demo_split).
  - intros k Hk. rewrite !elem_of_cons in Hk. cbn. destruct Hk as [->|[->|[->|[->|[->|Hk]]]]]; try lia. by apply elem_of_nil in Hk.
  - intros [|[|[|k]]] Hk; cbn in Hk; try lia; rewrite !elem_of_cons; tauto.
  - cbn. lia.
Defined.

(** The last target no longer answers; the query port does. *)
Lemma query_server_round_witness :
  let srv := mkQueried "rust" "0.0.0.0" 28015 [("Query", 28017)] in
  let old := mkTarget "127.0.0.1" 27015 QueryProtoA2S in
  let good := mkTarget "127.0.0.1" 28015 QueryProtoA2S in
  let info := mkQuery true "a2s" "demo" "" 0 0 0 0 [] in
  let ask := fun t => if bool_decide (t = good) then Some info else None in
  queryServer ask srv [] (mkQueryState no_query (Some old)) =
    (mkQueryState info (Some good), [old; mkTarget "127.0.0.1" 28017 QueryProtoA2S; good]) /\
  NoDup [old; mkTarget "127.0.0.1" 28017 QueryProtoA2S; good].
Proof.
  intros srv old good info ask.
  assert (E : queryServer ask srv [] (mkQueryState no_query (Some old)) =
    (mkQueryState info (Some good), [old; mkTarget "127.0.0.1" 28017 QueryProtoA2S; good])) by (vm_compute; reflexivity).
  split; [exact E|]. exact (proj1 (query_server_round ask srv [] _ _ _ E)).
Defined.
