(* ===== verification/Login.v ===== *)
(** * Logging in (main.go): the handlers around users, sessions and the limiter

    [handleLogin], [handleLoginSecondFactor], [handleLogout] and the handlers that ask a
    signed-in user for the password again.  They compose the limiter (RateLimit.v), the
    users (Auth.v, TwoFactor.v) and the audit log.  A request reserves its keys, checks
    the password, and reports the result to the limiter; the times of the three, the
    random draws and whether files can be written are in its [env].  Requests follow one
    another here; attempts at the same time are the subject of Guesses.v. *)

From Stdlib Require Import ZArith Lia Bool String Ascii List.
From stdpp Require Import base gmap strings list fin_maps.
From S2P Require Import Prelude GoStrings Validate GoNet Paths Crypto Authz Passwords RateLimit Auth TwoFactor AuthInv.

(** ** Addresses *)

(** What the code reads of a connection: [X-Forwarded-For] as its header lines. *)
Record peer := mkPeer {
  p_RemoteAddr : string; p_ForwardedFor : list string; p_ForwardedProto : string; p_ActorIP : string; p_TLS : bool }.

Record settings_ := mkSettings { agentMode : bool; trustProxy : bool; secureCookies : bool }.

Section Address.
(** [net.IP.String] *)
Context (ip_String : list Z -> string).

Definition clientIP (a : settings_) (p : peer) : string :=
  let direct := match SplitHostPort (p_RemoteAddr p) with Some (host, _) => host | None => p_RemoteAddr p end in
  if agentMode a then match ParseIP (p_ActorIP p) with Some ip => ip_String ip | None => "controller" end
  else if trustProxy a then
    match last (p_ForwardedFor p) with
    | Some v =>
        match ParseIP (trim_space (default "" (last (split "," v)))) with
        | Some ip => ip_String ip
        | None => direct
        end
    | None => direct
    end
  else direct.
End Address.

(** ** Answers *)

Inductive same_site := Lax | Strict.
Record cookie := mkCookie {
  ck_Name : string; ck_Value : string; ck_HttpOnly : bool; ck_Secure : bool; ck_SameSite : same_site; ck_MaxAge : Z }.
Definition SessionCookieName : string := "session_id".
Definition CSRFCookieName : string := "csrf_token".

Inductive reply :=
| Code (status : Z) (** 200 without more, or an error *)
| RetryAfter (seconds : Z) (** 429 *)
| NeedCode (challenge : string)
| SignedIn (cookies : list cookie) (csrf : string)
| SignedOut (cookies : list cookie)
| Secrets (l : list string). (** a secret and its URI, or recovery codes *)

(** [isHTTPS]; [strings.EqualFold] with an ASCII text is a parameter of the model of
    the origin check too. *)
Definition isHTTPS (EqualFold : string -> string -> bool) (a : settings_) (p : peer) : bool :=
  p_TLS p || (trustProxy a && EqualFold (p_ForwardedProto p) "https").

Definition setSessionCookies (secure : bool) (sessionID csrf : string) (maxAge : Z) : list cookie :=
  [mkCookie SessionCookieName sessionID true secure Lax maxAge; mkCookie CSRFCookieName csrf false secure Strict maxAge].

(** ** State *)

Record state := mkState { limiter : LoginLimiter; auth : AuthManager; audit : list AuditEntry }.
Definition with_limiter l (st : state) := mkState l (auth st) (audit st).
Definition with_auth am (st : state) := mkState (limiter st) am (audit st).

Record env := mkEnv {
  e_reserve : Z; e_now : Z; e_done : Z; (** [Reserve], the check, and [done] *)
  e_order : list string; (** iteration order of a map, should the limiter be full *)
  e_ok : bool; e_ok1 : bool; e_ok2 : bool; (** writes of the configuration *)
  e_salt : option (list Z); e_sid : option string; e_csrf : option string; e_token : option string;
  e_random : option (list Z); e_codes : option (list (list Z));
  e_audit : bool; e_stamp : string }.

Definition log (e : env) (username ip action details : string) (st : state) : state :=
  mkState (limiter st) (auth st) (LogAudit (e_audit e) (mkAudit (e_stamp e) username ip action details "") (audit st)).

(** [int(wait.Seconds())+1] *)
Definition retry_after (wait : Z) : Z := Z.quot wait second + 1.

(** [Reserve], the operation, and [done(err == nil)]. *)
Definition guarded {A} (keys : list string) (op : AuthManager -> ret A) (e : env) (st : state)
  : result Z (result auth_error A) * state :=
  match Reserve (limiter st) (e_reserve e) keys with
  | (l, (false, wait)) => (Err (retry_after wait), with_limiter l st)
  | (l, (true, _)) =>
      let '(r, am) := op (auth st) in
      (Ok r, mkState (done_ l (e_done e) (e_order e) keys (is_ok r)) am (audit st))
  end.

Section Handlers.
Context `{Argon2}.
(** [strings.ToLower] *)
Context (ToLower : string -> string).
(** Whether the connection counts as encrypted, and its address. *)
Context (secure : bool) (ip : string).

Definition login_keys (username : string) : list string := ["ip:" +:+ ip; "user:" +:+ ToLower username].
Definition code_keys (username : string) : list string := ["ip:" +:+ ip; "2fa:" +:+ ToLower username].
(** [limitReverify] *)
Definition verify_keys (username : string) : list string := ["user:" +:+ ToLower username].

Definition session_seconds : Z := Z.quot SessionMaxLifetime second.

Definition finishLogin (e : env) (presented : option string) (username sessionID details : string) (st : state) : reply * state :=
  let am := match presented with
            | Some old => if String.eqb old sessionID then auth st else Logout old (auth st)
            | None => auth st
            end in
  let '(s, am) := GetSession (e_done e) sessionID am in
  let csrf := match s with Some s => s_CSRFToken s | None => "" end in
  (SignedIn (setSessionCookies secure sessionID csrf session_seconds) csrf, log e username ip "LOGIN" details (with_auth am st)).

Definition begin (e : env) (username password : string) : AuthManager -> ret LoginResult :=
  BeginLogin (e_ok e) (e_salt e) (e_now e) (e_sid e) (e_csrf e) (e_token e) username password.

(** [body] is [None] when it does not decode. *)
Definition handleLogin (e : env) (presented : option string) (body : option (string * string)) (st : state) : reply * state :=
  match body with
  | None => (Code 400, st)
  | Some (username, password) =>
      if String.eqb username "" || (64 <? slen username) || (1024 <? slen password) then (Code 401, st) else
      match guarded (login_keys username) (begin e username password) e st with
      | (Err seconds, st) => (RetryAfter seconds, st)
      | (Ok (Err _), st) => (Code 401, log e username ip "LOGIN_FAILED" "Invalid username or password" st)
      | (Ok (Ok res), st) =>
          if negb (String.eqb (Challenge res) "") then (NeedCode (Challenge res), st)
          else finishLogin e presented username (SessionID res) "User logged in successfully" st
      end
  end.

Definition handleLoginSecondFactor (e : env) (presented : option string) (body : option (string * string)) (st : state) : reply * state :=
  match body with
  | None => (Code 400, st)
  | Some (challenge, code) =>
      match ChallengeUser (e_reserve e) challenge (auth st) with
      | None => (Code 401, st)
      | Some username =>
          match guarded (code_keys username) (CompleteLogin (e_ok e) (e_now e) (e_sid e) (e_csrf e) challenge code) e st with
          | (Err seconds, st) => (RetryAfter seconds, st)
          | (Ok (Err _), st) => (Code 401, log e username ip "LOGIN_2FA_FAILED" "Invalid two-factor code" st)
          | (Ok (Ok (sessionID, used)), st) =>
              finishLogin e presented username sessionID
                (if used : bool then "User logged in with a recovery code" else "User logged in with two-factor authentication") st
          end
      end
  end.

Definition handleLogout (presented : option string) (st : state) : reply * state :=
  (SignedOut (setSessionCookies secure "" "" (-1)),
   match presented with Some sid => with_auth (Logout sid (auth st)) st | None => st end).

(** ** Handlers that ask for the password again *)

Definition handleChangePassword (e : env) (user : User) (sessionID : string) (body : option (string * string)) (st : state) : reply * state :=
  match body with
  | None => (Code 400, st)
  | Some (old, new) =>
      if 1024 <? slen new then (Code 400, st) else
      match guarded (verify_keys (u_Username user)) (ChangeUserPassword (e_ok e) (e_salt e) (u_Username user) old new sessionID) e st with
      | (Err seconds, st) => (RetryAfter seconds, st)
      | (Ok (Err _), st) => (Code 400, st)
      | (Ok (Ok _), st) => (Code 200, log e (u_Username user) ip "PASSWORD_CHANGE" "Changed own password" st)
      end
  end.

(** [host] is [requestHostName], [qr] whether the QR code can be drawn. *)
Definition handleTwoFactorSetup (e : env) (user : User) (host : string) (qr : bool) (body : option string) (st : state) : reply * state :=
  match body with
  | None => (Code 400, st)
  | Some password =>
      match guarded (verify_keys (u_Username user))
              (StartTwoFactorSetup (e_ok e) (e_salt e) (e_now e) (e_random e) (u_Username user) password host) e st with
      | (Err seconds, st) => (RetryAfter seconds, st)
      | (Ok (Err _), st) => (Code 400, st)
      | (Ok (Ok (secret, uri)), st) => if qr then (Secrets [secret; uri], st) else (Code 500, st)
      end
  end.

Definition handleTwoFactorEnable (e : env) (user : User) (sessionID : string) (body : option string) (st : state) : reply * state :=
  match body with
  | None => (Code 400, st)
  | Some code =>
      match ConfirmTwoFactorSetup (e_ok e) (e_now e) (e_codes e) (u_Username user) code sessionID (auth st) with
      | (Err _, am) => (Code 400, with_auth am st)
      | (Ok codes, am) =>
          (Secrets codes, log e (u_Username user) ip "2FA_ENABLED" "Enabled two-factor authentication" (with_auth am st))
      end
  end.

Definition handleTwoFactorDisable (e : env) (user : User) (sessionID : string) (body : option (string * string)) (st : state) : reply * state :=
  match body with
  | None => (Code 400, st)
  | Some (password, code) =>
      match guarded (verify_keys (u_Username user))
              (DisableTwoFactor (e_ok e) (e_ok1 e) (e_ok2 e) (e_salt e) (e_now e) (u_Username user) password code sessionID) e st with
      | (Err seconds, st) => (RetryAfter seconds, st)
      | (Ok (Err _), st) => (Code 400, st)
      | (Ok (Ok _), st) => (Code 200, log e (u_Username user) ip "2FA_DISABLED" "Disabled two-factor authentication" st)
      end
  end.

Definition handleTwoFactorRecoveryCodes (e : env) (user : User) (body : option (string * string)) (st : state) : reply * state :=
  match body with
  | None => (Code 400, st)
  | Some (password, code) =>
      match guarded (verify_keys (u_Username user))
              (RegenerateRecoveryCodes (e_ok e) (e_ok1 e) (e_ok2 e) (e_salt e) (e_now e) (e_codes e) (u_Username user) password code) e st with
      | (Err seconds, st) => (RetryAfter seconds, st)
      | (Ok (Err _), st) => (Code 400, st)
      | (Ok (Ok codes), st) => (Secrets codes, log e (u_Username user) ip "2FA_RECOVERY_CODES" "Generated new recovery codes" st)
      end
  end.

Definition handleTwoFactorReset (e : env) (admin : User) (body : option string) (st : state) : reply * state :=
  match body with
  | None => (Code 400, st)
  | Some username =>
      match ResetTwoFactor (e_ok e) username (auth st) with
      | (Err _, am) => (Code 400, with_auth am st)
      | (Ok _, am) =>
          (Code 200, log e (u_Username admin) ip "2FA_RESET" ("Reset two-factor authentication of " +:+ username) (with_auth am st))
      end
  end.
End Handlers.

(** ** Lemmas: one attempt and the entry of a key *)

(** What an attempt at the limiter is made of. *)
Record attempt := mkAttempt { at_keys : list string; at_reserve : Z; at_done : Z; at_order : list string; at_ok : bool }.
Definition attempt_run (l : LoginLimiter) (a : attempt) : LoginLimiter * bool :=
  match Reserve l (at_reserve a) (at_keys a) with
  | (l1, (true, _)) => (done_ l1 (at_done a) (at_order a) (at_keys a) (at_ok a), true)
  | (l1, (false, _)) => (l1, false)
  end.

Lemma allow_loop_wait now forget keys : forall m w, w <= snd (allow_loop now forget keys m w).
Proof.
  induction keys as [|x ks IH]; intros m w; cbn [allow_loop]; [done|].
  destruct (m !! x) as [ex|]; [|apply IH]. destruct (_ >? _); [apply IH|].
  destruct (now <? blockedTill ex); [|apply IH]. destruct (Z.gtb_spec (blockedTill ex - now) w); [|apply IH].
  etrans; [|apply IH]. lia.
Qed.

Lemma allow_loop_entry now forget keys k e : forall m w, m !! k = Some e ->
  let '(m', w') := allow_loop now forget keys m w in
  w <= w' /\
  ((m' !! k = None /\ now - lastFailure e > forget) \/
   (m' !! k = Some e /\ (In k keys -> now < blockedTill e -> blockedTill e - now <= w'))).
Proof.
  induction keys as [|k0 ks IH]; intros m w Hk; cbn [allow_loop]; [split; [lia|right; split; [done|by intros []]]|].
  destruct (m !! k0) as [e0|] eqn:E0.
  2:{ specialize (IH m w Hk). destruct (allow_loop _ _ _ _ _) as [m' w']. destruct IH as [Hw IH]. split; [done|].
      destruct IH as [|[Hm Hi]]; [by left|right]. split; [done|]. intros [->|Hin]; [congruence|by apply Hi]. }
  destruct (Z.gtb_spec (now - lastFailure e0) forget) as [Hx|Hx].
  - destruct (decide (k0 = k)) as [->|Hne].
    + rewrite Hk in E0. injection E0 as <-. clear IH. pose proof (allow_loop_sub now forget ks (delete k m) w) as Hsub.
      pose proof (allow_loop_wait now forget ks (delete k m) w) as Hw.
      destruct (allow_loop _ _ _ _ _) as [m' w']. split; [exact Hw|left]. split; [|lia].
      destruct (m' !! k) as [x|] eqn:Ex; [|done]. eapply lookup_weaken in Ex; [|exact Hsub]. by rewrite lookup_delete_eq in Ex.
    + specialize (IH (delete k0 m) w ltac:(by rewrite lookup_delete_ne)). destruct (allow_loop _ _ _ _ _) as [m' w'].
      destruct IH as [Hw IH]. split; [done|]. destruct IH as [|[Hm Hi]]; [by left|right]. split; [done|]. intros [->|Hin]; [done|by apply Hi].
  - set (w1 := if now <? blockedTill e0 then _ else w).
    assert (Hw1 : w <= w1 /\ (now < blockedTill e0 -> blockedTill e0 - now <= w1)).
    { unfold w1. destruct (Z.ltb_spec now (blockedTill e0)); [|lia]. destruct (Z.gtb_spec (blockedTill e0 - now) w); lia. }
    specialize (IH m w1 Hk). destruct (allow_loop _ _ _ _ _) as [m' w']. destruct IH as [Hw IH]. split; [lia|].
    destruct IH as [|[Hm Hi]]; [by left|right]. split; [done|]. intros [->|Hin] Hlt; [|by apply Hi].
    rewrite Hk in E0. injection E0 as <-. lia.
Qed.

(** What the first half of an attempt does to the entry of a key. *)
Lemma reserve_entry l now keys l1 ok w k e : Reserve l now keys = (l1, (ok, w)) -> entries l !! k = Some e ->
  (entries l1 !! k = None /\ now - lastFailure e > forgetAfter l) \/
  (entries l1 !! k = Some e /\ (In k keys -> ok = true -> blockedTill e <= now)).
Proof.
  unfold Reserve, Allow. intros E Hk. pose proof (allow_loop_entry now (forgetAfter l) keys k e (entries l) 0 Hk) as Ha.
  destruct (allow_loop _ _ _ _ _) as [m wait]. destruct Ha as [H0 Ha]. destruct (Z.eqb_spec wait 0) as [Hw|Hw]; cbn [negb] in E.
  - destruct (reserve_locked _ _) as [l2|] eqn:Er; injection E as <- <- <-.
    + unfold reserve_locked in Er. destruct (existsb _ _); [done|]. injection Er as <-.
      assert (He : entries (fold_left (add_inflight 1) keys (set_entries l m)) = m) by (by apply settings_fold). rewrite He.
      destruct Ha as [|[Hm Hi]]; [by left|right]. split; [done|]. intros Hin _. specialize (Hi Hin). clear - Hi Hw. lia.
    + cbn. destruct Ha as [|[Hm _]]; [by left|by right].
  - injection E as <- <- <-. cbn. destruct Ha as [|[Hm _]]; [by left|by right].
Qed.

Lemma reserve_none l now keys l1 ok w k : Reserve l now keys = (l1, (ok, w)) -> entries l !! k = None -> entries l1 !! k = None.
Proof.
  unfold Reserve, Allow. intros E Hk. pose proof (allow_loop_sub now (forgetAfter l) keys (entries l) 0) as Hs.
  destruct (allow_loop _ _ _ _ _) as [m wait]. cbn in Hs. assert (Hm : m !! k = None) by (eapply lookup_weaken_None; done).
  destruct (wait =? 0); cbn [negb] in E; [|by injection E as <- _ _].
  destruct (reserve_locked _ _) as [l2|] eqn:Er; [|by injection E as <- _ _]. injection E as <- _ _.
  unfold reserve_locked in Er. destruct (existsb _ _); [done|]. injection Er as <-.
  by rewrite (proj2 (settings_fold (add_inflight 1) keys (set_entries l m) ltac:(done))).
Qed.

Lemma reserve_frame l now keys l1 x : Reserve l now keys = (l1, x) -> settings l1 = settings l /\ entries l1 ⊆ entries l.
Proof.
  unfold Reserve, Allow. intros E. pose proof (allow_loop_sub now (forgetAfter l) keys (entries l) 0) as Hs.
  destruct (allow_loop _ _ _ _ _) as [m wait]. cbn in Hs. destruct (wait =? 0); cbn [negb] in E; [|by injection E as <- _].
  destruct (reserve_locked _ _) as [l2|] eqn:Er; [|by injection E as <- _]. injection E as <- _.
  unfold reserve_locked in Er. destruct (existsb _ _); [done|]. injection Er as <-.
  destruct (settings_fold (add_inflight 1) keys (set_entries l m) ltac:(done)) as [-> ->]. done.
Qed.

(** The entry a failure starts from. *)
Definition known (l : LoginLimiter) (now : Z) (o : option limiterEntry) : limiterEntry :=
  match o with
  | Some e => if now - lastFailure e >? forgetAfter l then mkEntry 0 zeroTime zeroTime else e
  | None => mkEntry 0 zeroTime zeroTime
  end.

Lemma same_settings l l' now e o : settings l = settings l' ->
  fail_entry l now e = fail_entry l' now e /\ known l now o = known l' now o.
Proof.
  intros (H1 & H2 & H3 & H4 & H5)%settings_eq. unfold fail_entry, known, cooldown. rewrite H1, H2, H3, H4. done.
Qed.

Lemma failure_key_entry now l k0 k : mlen (entries l) < maxEntries l ->
  let l' := failure_key now l k0 in
  settings l' = settings l /\ mlen (entries l') <= mlen (entries l) + 1 /\
  entries l' !! k = if String.eqb k0 k then Some (fail_entry l now (known l now (entries l !! k))) else entries l !! k.
Proof.
  intros Hm. unfold failure_key, known. destruct (entries l !! k0) as [e|] eqn:E; cbn zeta.
  - split_and!; [done| |].
    + unfold mlen. cbn. rewrite map_size_insert_Some by eauto. lia.
    + cbn. destruct (String.eqb_spec k0 k) as [->|]; [by rewrite E, lookup_insert_eq|by rewrite lookup_insert_ne].
  - destruct (Z.geb_spec (mlen (entries l)) (maxEntries l)); [lia|]. split_and!; [done| |].
    + unfold mlen. cbn. rewrite map_size_insert_None by done. lia.
    + cbn. destruct (String.eqb_spec k0 k) as [->|]; [by rewrite E, lookup_insert_eq|by rewrite lookup_insert_ne].
Qed.

Lemma failure_entry now keys k : forall l, NoDup keys -> mlen (entries l) + Z.of_nat (length keys) <= maxEntries l ->
  let l' := fold_left (failure_key now) keys l in
  settings l' = settings l /\ mlen (entries l') <= mlen (entries l) + Z.of_nat (length keys) /\
  entries l' !! k = if mem k keys then Some (fail_entry l now (known l now (entries l !! k))) else entries l !! k.
Proof.
  induction keys as [|k0 ks IH]; intros l Hnd Hm; cbn [fold_left length] in *; [split_and!; [done|lia|done]|].
  apply NoDup_cons in Hnd as [Hni Hnd]. destruct (failure_key_entry now l k0 k ltac:(lia)) as (H1 & H2 & H3). cbn zeta in *.
  pose proof (settings_eq _ _ H1) as (_ & _ & _ & _ & H5).
  destruct (IH (failure_key now l k0) Hnd) as (H6 & H7 & H8); [lia|]. rewrite H6, H1. split_and!; [done|lia|].
  rewrite H8, H3. destruct (same_settings _ _ now (known l now (entries l !! k)) (entries l !! k) H1) as [Hs _].
  cbn [mem existsb]. rewrite (String.eqb_sym k k0). destruct (String.eqb_spec k0 k) as [->|]; cbn [orb]; fold (mem k ks).
  - replace (mem k ks) with false; [done|]. symmetry. apply mem_false. by rewrite <- list_elem_of_In.
  - destruct (same_settings _ _ now (known (failure_key now l k0) now (entries l !! k)) (entries l !! k) H1) as [Ha Hb].
    destruct (mem k ks); [|done]. by rewrite Ha, Hb.
Qed.

Lemma release_entries keys l : settings (done_release l keys) = settings l /\ entries (done_release l keys) = entries l.
Proof. apply (settings_fold release_key keys l). by intros. Qed.

Lemma success_entry keys k m : mem k keys = false -> fold_left (fun m k => delete k m) keys m !! k = (m : gmap string limiterEntry) !! k.
Proof.
  revert m. induction keys as [|k0 ks IH]; intros m Hk; [done|]. unfold mem in Hk. cbn [existsb] in Hk. apply orb_false_iff in Hk as [Hne Hk].
  cbn [fold_left]. rewrite IH by done. apply String.eqb_neq in Hne. by rewrite lookup_delete_ne.
Qed.

(** An attempt and the entry of [k], when the limiter has room. *)
Lemma attempt_entry l a l' checked k : attempt_run l a = (l', checked) -> NoDup (at_keys a) ->
  mlen (entries l) + Z.of_nat (length (at_keys a)) < maxEntries l ->
  settings l' = settings l /\ mlen (entries l') <= mlen (entries l) + Z.of_nat (length (at_keys a)) /\
  exists l1, settings l1 = settings l /\
    (entries l !! k = None -> entries l1 !! k = None) /\
    (forall e, entries l !! k = Some e ->
       (entries l1 !! k = None /\ at_reserve a - lastFailure e > forgetAfter l) \/
       (entries l1 !! k = Some e /\ (In k (at_keys a) -> checked = true -> blockedTill e <= at_reserve a))) /\
    (checked = true -> at_ok a = false -> mem k (at_keys a) = true ->
       entries l' !! k = Some (fail_entry l (at_done a) (known l (at_done a) (entries l1 !! k)))) /\
    (checked = false \/ mem k (at_keys a) = false -> entries l' !! k = entries l1 !! k).
Proof.
  intros E Hnd Hm. unfold attempt_run in E. destruct (Reserve l (at_reserve a) (at_keys a)) as [l1 [ok w]] eqn:Er.
  destruct (reserve_frame _ _ _ _ _ Er) as [Hs1 Hsub]. pose proof (mlen_sub _ _ Hsub) as Hlen.
  pose proof (settings_eq _ _ Hs1) as (_ & _ & _ & _ & Hmax).
  assert (Hent : forall e, entries l !! k = Some e ->
     (entries l1 !! k = None /\ at_reserve a - lastFailure e > forgetAfter l) \/
     (entries l1 !! k = Some e /\ (In k (at_keys a) -> ok = true -> blockedTill e <= at_reserve a)))
    by (intros e; apply (reserve_entry _ _ _ _ _ _ _ _ Er)).
  assert (Hno : entries l !! k = None -> entries l1 !! k = None) by apply (reserve_none _ _ _ _ _ _ _ Er).
  destruct ok; injection E as <- <-.
  2:{ split_and!; [done|lia|]. exists l1. split_and!; [done|exact Hno| |done|done].
      intros e He. destruct (Hent e He) as [|[? _]]; [by left|by right]. }
  destruct (release_entries (at_keys a) l1) as [Hr1 Hr2]. unfold done_. destruct (at_ok a).
  - split_and!; [by rewrite <- Hs1|..].
    + cbn. rewrite Hr2. pose proof (mlen_sub _ _ (fold_delete_sub (at_keys a) (entries l1))). lia.
    + exists l1. split_and!; [done|exact Hno|exact Hent|done|]. intros [|Hk]; [done|]. cbn. rewrite Hr2. by apply success_entry.
  - unfold Failure. rewrite Hr2. pose proof (settings_eq _ _ Hr1) as (_ & _ & _ & _ & Hmax').
    destruct (Z.geb_spec (mlen (entries l1)) (maxEntries (done_release l1 (at_keys a)))); [lia|].
    destruct (failure_entry (at_done a) (at_keys a) k (done_release l1 (at_keys a)) Hnd) as (H1 & H2 & H3); [rewrite Hr2; lia|].
    rewrite Hr2 in H2. split_and!; [by rewrite H1, Hr1|lia|]. exists l1. split_and!; [done|exact Hno|exact Hent| |].
    + intros _ _ Hk. rewrite H3, Hk, Hr2.
      destruct (same_settings (done_release l1 (at_keys a)) l (at_done a) (known (done_release l1 (at_keys a)) (at_done a) (entries l1 !! k)) (entries l1 !! k))
        as [Ha Hb]; [by rewrite Hr1|]. by rewrite Ha, Hb.
    + intros [|Hk]; [done|]. by rewrite H3, Hk, Hr2.
Qed.

(** ** Sequences of requests *)

(** The requests that check a password or a code.  Each carries the connection it came
    on; the ones of a signed-in user carry that user and the session. *)
Inductive action :=
| ALogin (presented : option string) (body : option (string * string))
| ASecondFactor (presented : option string) (body : option (string * string))
| AChangePassword (user : User) (sid : string) (body : option (string * string))
| ASetup (user : User) (host : string) (qr : bool) (body : option string)
| ADisable (user : User) (sid : string) (body : option (string * string))
| ARecoveryCodes (user : User) (body : option (string * string)).
Record request := mkRequest { r_secure : bool; r_ip : string; r_env : env; r_action : action }.

(** The requests after which a wrong password counts, and those that are let in. *)
Definition rejected (r : reply) : bool := match r with Code 400 | Code 401 => true | _ => false end.
Definition retry (r : reply) : bool := match r with RetryAfter _ => true | _ => false end.

Section Requests.
Context `{Argon2}.
Context (ToLower : string -> string).

Definition serve (r : request) : state -> reply * state :=
  let e := r_env r in let ip := r_ip r in
  match r_action r with
  | ALogin p b => handleLogin ToLower (r_secure r) ip e p b
  | ASecondFactor p b => handleLoginSecondFactor ToLower (r_secure r) ip e p b
  | AChangePassword u sid b => handleChangePassword ToLower ip e u sid b
  | ASetup u host qr b => handleTwoFactorSetup ToLower e u host qr b
  | ADisable u sid b => handleTwoFactorDisable ToLower ip e u sid b
  | ARecoveryCodes u b => handleTwoFactorRecoveryCodes ToLower ip e u b
  end.

(** The keys a request reserves; none when it is answered without a check. *)
Definition reserves (r : request) (st : state) : list string :=
  match r_action r with
  | ALogin _ (Some (u, p)) =>
      if String.eqb u "" || (64 <? slen u) || (1024 <? slen p) then [] else login_keys ToLower (r_ip r) u
  | ASecondFactor _ (Some (t, _)) =>
      match ChallengeUser (e_reserve (r_env r)) t (auth st) with Some u => code_keys ToLower (r_ip r) u | None => [] end
  | AChangePassword u _ (Some (_, new)) => if 1024 <? slen new then [] else verify_keys ToLower (u_Username u)
  | ASetup u _ _ (Some _) | ADisable u _ (Some _) | ARecoveryCodes u (Some _) => verify_keys ToLower (u_Username u)
  | _ => []
  end.

Fixpoint serve_all (rs : list request) (st : state) : list (request * state * reply) * state :=
  match rs with
  | [] => ([], st)
  | r :: rs => let '(a, st1) := serve r st in let '(t, st2) := serve_all rs st1 in ((r, st, a) :: t, st2)
  end.

(** A request that was let in for [k] and failed, and one that succeeded. *)
Definition wrong_guess (k : string) (x : request * state * reply) : bool :=
  mem k (reserves x.1.1 x.1.2) && rejected x.2.
Definition right_guess (k : string) (x : request * state * reply) : bool :=
  mem k (reserves x.1.1 x.1.2) && negb (rejected x.2) && negb (retry x.2).

(** *** Every handler's part in the limiter is one attempt *)

Lemma guarded_attempt {A} keys (op : AuthManager -> ret A) e st x st' : guarded keys op e st = (x, st') ->
  audit st' = audit st /\
  forall b, (forall r, x = Ok r -> b = is_ok r) ->
    attempt_run (limiter st) (mkAttempt keys (e_reserve e) (e_done e) (e_order e) b) = (limiter st', is_ok x).
Proof.
  unfold guarded, attempt_run. cbn [at_keys at_reserve at_done at_order at_ok].
  destruct (Reserve _ _ _) as [l [[] w]]; [|by intros [= <- <-]].
  destruct (op (auth st)) as [r am]. intros [= <- <-]. split; [done|]. intros b Hb. by rewrite (Hb r).
Qed.

Lemma limiter_finish secure ip e p u sid d st : limiter (snd (finishLogin secure ip e p u sid d st)) = limiter st.
Proof. unfold finishLogin. by destruct (GetSession _ _ _). Qed.
Lemma reply_finish secure ip e p u sid d st :
  rejected (fst (finishLogin secure ip e p u sid d st)) = false /\ retry (fst (finishLogin secure ip e p u sid d st)) = false.
Proof. unfold finishLogin. by destruct (GetSession _ _ _). Qed.

Lemma serve_attempt r st : let '(a, st') := serve r st in
  if decide (reserves r st = []) then limiter st' = limiter st else
  attempt_run (limiter st) (mkAttempt (reserves r st) (e_reserve (r_env r)) (e_done (r_env r)) (e_order (r_env r)) (negb (rejected a)))
  = (limiter st', negb (retry a)).
Proof.
  destruct r as [sec ip e act].
  unfold serve, reserves; cbn [r_env r_ip r_secure r_action]; destruct act as [p b|p b|u sid b|u host qr b|u sid b|u b];
    destruct b as [b|]; try done; try destruct b as [b1 b2].
  - unfold handleLogin. destruct (_ || _ || _); [done|].
    destruct (guarded _ _ _ _) as [[[res|er]|s] st1] eqn:Eg; apply guarded_attempt in Eg as [_ Eg]; cbn.
    + destruct (negb (String.eqb (Challenge res) "")); [by apply Eg; intros ? [= <-]|].
      set (d := "User logged in successfully").
      pose proof (limiter_finish sec ip e p b1 (SessionID res) d st1) as Hl.
      pose proof (reply_finish sec ip e p b1 (SessionID res) d st1) as [H1 H2].
      destruct (finishLogin _ _ _ _ _ _ _ _) as [a st2]. cbn in *. rewrite H1, H2, Hl. by apply Eg; intros ? [= <-].
    + by apply Eg; intros ? [= <-].
    + by apply Eg.
  - unfold handleLoginSecondFactor. destruct (ChallengeUser _ _ _) as [u|]; [|done].
    destruct (guarded _ _ _ _) as [[[[sid used]|er]|s] st1] eqn:Eg; apply guarded_attempt in Eg as [_ Eg]; cbn [decide].
    + set (d := if used then _ else _).
      pose proof (limiter_finish sec ip e p u sid d st1) as Hl. pose proof (reply_finish sec ip e p u sid d st1) as [H1 H2].
      destruct (finishLogin _ _ _ _ _ _ _ _) as [a st2]. cbn in *. rewrite H1, H2, Hl. by apply Eg; intros ? [= <-].
    + by apply Eg; intros ? [= <-].
    + by apply Eg.
  - unfold handleChangePassword. destruct (1024 <? slen b2); [done|].
    destruct (guarded _ _ _ _) as [[[x|er]|s] st1] eqn:Eg; apply guarded_attempt in Eg as [_ Eg]; by apply Eg; intros ? [= <-].
  - unfold handleTwoFactorSetup.
    destruct (guarded _ _ _ _) as [[[[sec' uri]|er]|s] st1] eqn:Eg; apply guarded_attempt in Eg as [_ Eg];
      [destruct qr|..]; by apply Eg; intros ? [= <-].
  - unfold handleTwoFactorDisable.
    destruct (guarded _ _ _ _) as [[[x|er]|s] st1] eqn:Eg; apply guarded_attempt in Eg as [_ Eg]; by apply Eg; intros ? [= <-].
  - unfold handleTwoFactorRecoveryCodes.
    destruct (guarded _ _ _ _) as [[[codes|er]|s] st1] eqn:Eg; apply guarded_attempt in Eg as [_ Eg]; by apply Eg; intros ? [= <-].
Qed.

Lemma reserves_nodup r st : NoDup (reserves r st) /\ (length (reserves r st) <= 2)%nat.
Proof.
  assert (Hp : forall x y : string, x <> y -> NoDup [x; y])
    by (intros x y Hxy; apply NoDup_cons; split; [by intros ?%list_elem_of_singleton|apply NoDup_singleton]).
  unfold reserves, login_keys, code_keys, verify_keys. destruct (r_action r); repeat case_match;
    (split; [first [apply NoDup_nil_2|apply NoDup_singleton|by apply Hp]|cbn; lia]).
Qed.

End Requests.

(** *** The window

    [J] relates the number [j] of failures counted since [T] to the entry of the key:
    each failure from the sixth on has waited for the cooldown of the one before. *)

(** The least time from [T] to the [j]-th failure. *)
Fixpoint elapsed (j : nat) : Z :=
  match j with O => 0 | S i => elapsed i + if (6 <=? i)%nat then cooldown NewLoginLimiter (Z.of_nat i - 5) else 0 end.

Definition J (T D : Z) (k : string) (j : nat) (l : LoginLimiter) : Prop :=
  (j <= 15)%nat /\
  match j with
  | O => forall e, entries l !! k = Some e -> 0 <= failures e
  | _ => exists e, entries l !! k = Some e /\ Z.of_nat j <= failures e /\ T + elapsed j <= lastFailure e /\ lastFailure e <= D /\
           (5 < failures e -> lastFailure e + cooldown NewLoginLimiter (failures e - 5) <= blockedTill e)
  end.

Lemma cooldown_mono n m : n <= m -> cooldown NewLoginLimiter n <= cooldown NewLoginLimiter m.
Proof.
  intros H. rewrite !cooldown_closed by done.
  assert (2 ^ Z.of_nat (Z.to_nat (n - 1)) <= 2 ^ Z.of_nat (Z.to_nat (m - 1))) by (apply Z.pow_le_mono_r; lia).
  cbn. unfold second. lia.
Qed.

Lemma cooldown_pos n : 0 <= cooldown NewLoginLimiter n.
Proof.
  rewrite cooldown_closed by done. assert (0 < 2 ^ Z.of_nat (Z.to_nat (n - 1))) by (apply Z.pow_pos_nonneg; lia).
  cbn. unfold minute, second. lia.
Qed.

Lemma elapsed_S j : elapsed (S j) = elapsed j + if (6 <=? j)%nat then cooldown NewLoginLimiter (Z.of_nat j - 5) else 0.
Proof. done. Qed.

Lemma elapsed_pos j : 0 <= elapsed j.
Proof. induction j as [|j IH]; cbn [elapsed]; [done|]. pose proof (cooldown_pos (Z.of_nat j - 5)). destruct (6 <=? j)%nat; lia. Qed.

Lemma J_later T D D' k j l : D <= D' -> J T D k j l -> J T D' k j l.
Proof.
  intros HD [Hj HJ]. split; [done|]. destruct j; [done|]. destruct HJ as (e & He & H1 & H2 & H3 & H4). exists e. split_and!; try done. lia.
Qed.

(** One attempt: [J] goes on, with one more for a failure of the key. *)
Lemma J_step T D k j l a l' checked : settings l = settings NewLoginLimiter -> J T D k j l ->
  attempt_run l a = (l', checked) -> NoDup (at_keys a) -> mlen (entries l) + Z.of_nat (length (at_keys a)) < maxEntries l ->
  T <= D -> D <= at_reserve a -> at_reserve a <= at_done a -> at_done a <= T + 30 * minute ->
  (mem k (at_keys a) = true -> checked = true -> at_ok a = false) ->
  J T (at_done a) k (if mem k (at_keys a) && checked then S j else j) l'.
Proof.
  intros Hs [Hj HJ] E Hnd Hm H0 H1 H2 H3 Hok.
  destruct (attempt_entry l a l' checked k E Hnd Hm) as (_ & _ & l1 & _ & Hno & Hent & Hfail & Hrest).
  assert (Hg : forgetAfter l = 30 * minute) by (by pose proof (settings_eq _ _ Hs) as (_ & _ & _ & -> & _)).
  destruct (same_settings l NewLoginLimiter (at_done a) (known l (at_done a) (entries l1 !! k)) (entries l1 !! k) Hs) as [Hf Hk].
  destruct (mem k (at_keys a) && checked) eqn:Eb.
  2:{ rewrite andb_false_iff in Eb. specialize (Hrest ltac:(tauto)). split; [done|]. destruct j.
      - intros e. rewrite Hrest. intros He. destruct (entries l !! k) as [e0|] eqn:E0.
        + destruct (Hent e0 eq_refl) as [[Hn _]|[Hn _]]; rewrite Hn in He; [done|]. injection He as <-. by apply HJ.
        + by rewrite Hno in He.
      - destruct HJ as (e & He & H4 & H5 & H6 & H7). exists e. rewrite Hrest.
        assert (0 <= elapsed (S j)) by apply elapsed_pos. destruct (Hent e He) as [[_ Hx]|[Hn _]]; [lia|]. split_and!; [done|done|done|lia|done]. }
  apply andb_true_iff in Eb as [Hk1 ->]. specialize (Hfail eq_refl (Hok Hk1 eq_refl) Hk1). rewrite Hf, Hk in Hfail.
  assert (Hin : In k (at_keys a)) by (by apply mem_true). clear Hrest Hok.
  set (e0 := known NewLoginLimiter (at_done a) (entries l1 !! k)) in *.
  assert (Hnew : exists f, f = failures e0 + 1 /\ Z.of_nat (S j) <= f /\ T + elapsed (S j) <= at_done a).
  { exists (failures e0 + 1). split; [done|]. destruct j as [|j].
    - assert (0 <= failures e0); [|cbn; lia]. unfold e0, known. destruct (entries l1 !! k) as [e|] eqn:Ee; [|done].
      destruct (_ >? _); [done|]. apply HJ. destruct (entries l !! k) as [e'|] eqn:E'; [|specialize (Hno eq_refl); congruence].
      destruct (Hent e' eq_refl) as [[Hn _]|[Hn _]]; congruence.
    - destruct HJ as (e & He & H4 & H5 & H6 & H7). pose proof (elapsed_pos (S j)).
      destruct (Hent e He) as [[_ Hx]|[Hn Hb]]; [lia|]. specialize (Hb Hin eq_refl).
      assert (He0 : e0 = e) by (unfold e0, known; rewrite Hn; cbn [forgetAfter NewLoginLimiter]; destruct (Z.gtb_spec (at_done a - lastFailure e) (30 * minute)); [lia|done]).
      rewrite He0. split; [lia|]. rewrite (elapsed_S (S j)). destruct (Nat.leb_spec 6 (S j)); [|lia].
      specialize (H7 ltac:(lia)). pose proof (cooldown_mono (Z.of_nat (S j) - 5) (failures e - 5)). lia. }
  destruct Hnew as (f & Hf0 & Hf1 & Hf2). split.
  - destruct (Nat.eq_dec j 15%nat) as [->|]; [|lia]. exfalso.
    assert (elapsed 16 = 1922 * second) by reflexivity. unfold minute, second in *. lia.
  - eexists. split; [exact Hfail|]. unfold fail_entry. rewrite <- Hf0. cbn [failures lastFailure blockedTill freeTries NewLoginLimiter].
    split_and!; [done|done|done|]. intros. destruct (Z.gtb_spec f 5); [|lia]. done.
Qed.

(** A sequence of requests in a window, one after the other. *)
Fixpoint ordered (T0 T1 : Z) (rs : list request) : Prop :=
  match rs with
  | [] => True
  | r :: rs => T0 <= e_reserve (r_env r) /\ e_reserve (r_env r) <= e_done (r_env r) /\ e_done (r_env r) <= T1 /\
      ordered (e_done (r_env r)) T1 rs
  end.
Definition wrong_guesses (ToLower : string -> string) (k : string) (t : list (request * state * reply)) : nat := length (List.filter (wrong_guess ToLower k) t).

Lemma window `{Argon2} (ToLower : string -> string) T k rs : forall st j T0, T <= T0 ->
  settings (limiter st) = settings NewLoginLimiter -> J T T0 k j (limiter st) ->
  mlen (entries (limiter st)) + 2 * Z.of_nat (length rs) < maxEntries (limiter st) ->
  ordered T0 (T + 30 * minute) rs ->
  existsb (right_guess ToLower k) (fst (serve_all ToLower rs st)) = false ->
  (j + wrong_guesses ToLower k (fst (serve_all ToLower rs st)) <= 15)%nat.
Proof.
  induction rs as [|r rs IH]; intros st j T0 HT Hs HJ Hm Ho Hr; [destruct HJ; cbn; lia|].
  cbn [serve_all] in *. pose proof (serve_attempt ToLower r st) as Ha. destruct (serve ToLower r st) as [a st1].
  destruct (serve_all ToLower rs st1) as [t st2] eqn:Et. cbn [fst existsb] in *. apply orb_false_iff in Hr as [Hr1 Hr2].
  destruct Ho as (H1 & H2 & H3 & Ho). cbn [length] in Hm. destruct (reserves_nodup ToLower r st) as [Hnd Hlen].
  unfold wrong_guesses. cbn [List.filter]. unfold wrong_guess, right_guess in *. cbn [fst snd] in *.
  destruct (decide (reserves ToLower r st = [])) as [He|Hne].
  - rewrite He in *. cbn [mem existsb andb]. specialize (IH st1 j (e_done (r_env r))). rewrite Et, Ha in IH.
    apply IH; [lia|done|apply (J_later _ T0); [lia|done]|lia|done|done].
  - assert (Hmax : maxEntries (limiter st) = 10000) by (by pose proof (settings_eq _ _ Hs) as (_ & _ & _ & _ & ->)).
    destruct (attempt_entry _ _ _ _ k Ha Hnd) as (Hs1 & Hm1 & _); [cbn; lia|]. cbn [at_keys] in Hm1.
    assert (HJ' := J_step T T0 k j _ _ _ _ Hs HJ Ha Hnd ltac:(cbn; lia) HT ltac:(cbn; lia) ltac:(cbn; lia) ltac:(cbn; lia)).
    cbn [at_keys at_ok] in HJ'. specialize (IH st1 (if mem k (reserves ToLower r st) && negb (retry a) then S j else j) (e_done (r_env r))).
    rewrite Et, Hs1 in IH. cbn [fst] in IH.
    assert (Hmax1 : maxEntries (limiter st1) = 10000) by (by pose proof (settings_eq _ _ Hs1) as (_ & _ & _ & _ & ->)).
    destruct (mem k (reserves ToLower r st)) eqn:Ek; cbn [andb] in *.
    + assert (Hrej : negb (retry a) = rejected a) by (destruct (retry a) eqn:E1, (rejected a) eqn:E2; cbn in *; try done; by destruct a).
      rewrite Hrej in *. destruct (rejected a) eqn:Ea; cbn [length] in *.
      * enough (S j + length (List.filter (fun x => mem k (reserves ToLower x.1.1 x.1.2) && rejected x.2) t) <= 15)%nat by lia.
        apply IH; [lia|done|by apply HJ'|lia|done|done].
      * apply IH; [lia|done|by apply HJ'|lia|done|done].
    + apply IH; [lia|done|by apply HJ'|lia|done|done].
Qed.


(** ** Lemmas: signing in *)

Lemma consume_sessions ok now name code am :
  sessions (snd (consumeSecondFactorLocked ok now name code am)) = sessions am.
Proof.
  unfold consumeSecondFactorLocked, save_or_restore. repeat case_match; done.
Qed.

Lemma complete_locked_spec ok now token code am r am1 : complete_locked ok now token code am = (r, am1) ->
  sessions am1 = sessions am /\
  forall username used, r = Ok (username, used) ->
    exists c u, challenges am !! token = Some c /\ now <= c_expiry c /\ c_attempts c < 5 /\ c_username c = username /\
      GetUser am username = Some u /\ u_TOTPEnabled u = true /\
      (if used then In (hashRecoveryCode username code) (u_RecoveryCodes u)
       else exists step, u_TOTPLastStep u < step /\ Z.abs (step - Z.quot (unix now) 30) <= 1 /\
              TOTPCode (u_TOTPSecret u) step = Some (replace_byte (trim_space code) " " "")) /\
      challenges am1 !! token = None.
Proof.
  unfold complete_locked. destruct (challenges am !! token) as [c|] eqn:Ec; [|by intros [= <- <-]].
  destruct (Z.ltb_spec (c_expiry c) now) as [He|He]; [by intros [= <- <-]|]. cbn [c_attempts].
  destruct (Z.gtb_spec (c_attempts c + 1) challengeAttempts) as [Ha|Ha]; [by intros [= <- <-]|]. unfold challengeAttempts in Ha.
  set (am0 := set_challenges _ am).
  pose proof (consume_sessions ok now (c_username c) code am0) as Hs.
  destruct (consumeSecondFactorLocked _ _ _ _ _) as [[b|er] am2] eqn:Ek; intros [= <- <-]; (split; [exact Hs|]);
    intros username used [= <- <-].
  apply consume_spec in Ek as (u & Hu & Ht & _ & _ & _ & Hcase).
  exists c, u. split_and!; [done|lia|lia|done|done|done| |apply lookup_delete_eq].
  destruct Hcase as [(-> & step & Hin & Hl & Hcode & _)|(-> & codes & Hp & _)].
  - exists step. split_and!; [done| |done]. simpl in Hin. lia.
  - apply list_elem_of_In. rewrite Hp. left.
Qed.

Lemma verify_sessions `{Argon2} ok salt name password am : sessions (snd (verifyCredentials ok salt name password am)) = sessions am.
Proof. unfold verifyCredentials, upgrade_hash_locked, save_or_restore. repeat case_match; done. Qed.

(** The sessions after a sign-in: the new one, and not the one the browser presented. *)
Definition signed_in_sessions (e : env) (presented : option string) (username sid csrf : string) (m : gmap string Session) : gmap string Session :=
  <[sid := mkSession username (e_done e + SessionIdleTimeout) (e_now e) csrf]>
    (match presented with Some old => delete old m | None => m end).

Lemma finish_login secure ip e presented username sid csrf d st m :
  sessions (auth st) = <[sid := mkSession username (e_now e + SessionIdleTimeout) (e_now e) csrf]> m ->
  sid <> "" -> e_now e <= e_done e <= e_now e + SessionIdleTimeout ->
  fst (finishLogin secure ip e presented username sid d st) = SignedIn (setSessionCookies secure sid csrf session_seconds) csrf /\
  sessions (auth (snd (finishLogin secure ip e presented username sid d st))) = signed_in_sessions e presented username sid csrf m.
Proof.
  intros Hm Hsid Ht. unfold finishLogin.
  set (am := match presented with Some old => if String.eqb old sid then auth st else Logout old (auth st) | None => auth st end).
  assert (Hs : sessions am = <[sid := mkSession username (e_now e + SessionIdleTimeout) (e_now e) csrf]>
                 (match presented with Some old => delete old m | None => m end)).
  { unfold am. destruct presented as [old|]; [|done]. destruct (String.eqb_spec old sid) as [->|Hne].
    - rewrite Hm. by rewrite insert_delete_eq.
    - cbn. rewrite Hm. by rewrite delete_insert_ne. }
  unfold GetSession. apply String.eqb_neq in Hsid as Hsid'. rewrite Hsid', Hs, lookup_insert_eq.
  assert (Ho : session_over (e_done e) (mkSession username (e_now e + SessionIdleTimeout) (e_now e) csrf) = false).
  { unfold session_over. cbn [s_Expiry s_Created]. apply orb_false_iff. split; apply Z.ltb_ge; unfold SessionMaxLifetime, SessionIdleTimeout, ns_hour in *; lia. }
  rewrite Ho. cbn. split; [done|]. unfold signed_in_sessions. by rewrite insert_insert_eq.
Qed.

(** What a sign-in rests on. *)
Definition credentials_ok `{Argon2} (am : AuthManager) (now : Z) (a : action) (username : string) : Prop :=
  match a with
  | ALogin _ (Some (name, password)) =>
      name = username /\ exists u, GetUser am name = Some u /\ VerifyPassword password (u_PasswordHash u) = true /\ u_TOTPEnabled u = false
  | ASecondFactor _ (Some (token, code)) =>
      exists c u, challenges am !! token = Some c /\ now <= c_expiry c /\ c_attempts c < 5 /\ c_username c = username /\
        GetUser am username = Some u /\ u_TOTPEnabled u = true /\
        (In (hashRecoveryCode username code) (u_RecoveryCodes u) \/
         exists step, u_TOTPLastStep u < step /\ Z.abs (step - Z.quot (unix now) 30) <= 1 /\
              TOTPCode (u_TOTPSecret u) step = Some (replace_byte (trim_space code) " " ""))
  | _ => False
  end.
Definition presented_of (a : action) : option string :=
  match a with ALogin p _ | ASecondFactor p _ => p | _ => None end.

(** A refusal names a time after which no key is blocked any more. *)
Lemma reserve_refusal l now keys l' w : Reserve l now keys = (l', (false, w)) -> 0 <= baseDelay l ->
  exists w0, allow_loop now (forgetAfter l) keys (entries l) 0 = (entries l', w0) /\ 0 <= w0 <= w.
Proof.
  unfold Reserve, Allow. intros E Hb. pose proof (allow_loop_wait now (forgetAfter l) keys (entries l) 0) as Hw.
  destruct (allow_loop _ _ _ _ _) as [m w0]. cbn in Hw. exists w0. destruct (Z.eqb_spec w0 0) as [H0|Hne]; cbn [negb] in E.
  - destruct (reserve_locked _ _); [done|]. injection E as <- <-. split; [done|cbn; lia].
  - injection E as <- <-. split; [done|lia].
Qed.

Lemma retry_after_covers w : 0 <= w -> 0 < retry_after w /\ w < retry_after w * second.
Proof.
  intros H. unfold retry_after. pose proof (Z.quot_rem' w second). pose proof (Z.rem_bound_pos w second H ltac:(done)).
  pose proof (Z.quot_pos w second H ltac:(done)). unfold second in *. lia.
Qed.

Lemma reserve_wait l now keys l' w k e : Reserve l now keys = (l', (false, w)) -> 0 <= baseDelay l ->
  In k keys -> entries l' !! k = Some e -> blockedTill e < now + retry_after w * second.
Proof.
  intros E Hb Hin Hk. destruct (reserve_frame _ _ _ _ _ E) as [_ Hsub].
  destruct (reserve_refusal _ _ _ _ _ E Hb) as (w0 & Hl & Hw).
  assert (Hk0 : entries l !! k = Some e) by (by eapply lookup_weaken).
  pose proof (allow_loop_entry now (forgetAfter l) keys k e (entries l) 0 Hk0) as He. rewrite Hl in He.
  destruct He as [_ [[Hn _]|[_ He]]]; [congruence|]. specialize (He Hin).
  destruct (retry_after_covers w) as [_ Hr]; [lia|]. lia.
Qed.

Section SignIn.
Context `{Argon2}.
Context (ToLower : string -> string).

(** A sign-in that succeeds: the sessions it leaves, or none when nothing is created. *)
Definition creates (now : Z) (sid csrf : option string) (username : string) (am am1 : AuthManager) (s : string) : Prop :=
  exists tok, sid = Some s /\ csrf = Some tok /\
    sessions am1 = <[s := mkSession username (now + SessionIdleTimeout) now tok]> (sessions am).

Lemma begin_spec ok salt now sid csrf token name password am r am1 :
  BeginLogin ok salt now sid csrf token name password am = (r, am1) -> token <> Some "" ->
  match r with
  | Ok res =>
      if String.eqb (Challenge res) "" then
        creates now sid csrf name am am1 (SessionID res) /\
        exists u, GetUser am name = Some u /\ VerifyPassword password (u_PasswordHash u) = true /\ u_TOTPEnabled u = false
      else sessions am1 = sessions am
  | Err _ => sessions am1 = sessions am
  end.
Proof.
  unfold BeginLogin. intros E Ht. pose proof (verify_sessions ok salt name password am) as Hs.
  destruct (verifyCredentials ok salt name password am) as [[er|] am0] eqn:Ev; [by injection E as <- <-|]. cbn in Hs.
  apply verify_credentials_spec in Ev as (u & u' & Hu & Hv & Hu' & Hte & _). rewrite Hu', Hte in E. unfold createSession in E.
  destruct (u_TOTPEnabled u) eqn:Eu; cbn [negb] in E.
  - destruct token as [t|]; [|by injection E as <- <-]. injection E as <- <-. cbn.
    destruct (String.eqb_spec t "") as [->|]; [done|exact Hs].
  - destruct sid as [s|]; [|by injection E as <- <-]. destruct csrf as [c|]; [|by injection E as <- <-].
    injection E as <- <-. cbn. split; [exists c; by rewrite Hs|by exists u].
Qed.

Lemma complete_spec ok now sid csrf token code am r am1 : CompleteLogin ok now sid csrf token code am = (r, am1) ->
  match r with
  | Ok (s, used) => exists username, creates now sid csrf username am am1 s /\
      (forall p, credentials_ok am now (ASecondFactor p (Some (token, code))) username) /\
      ChallengeUser now token am = Some username /\ challenges am1 !! token = None
  | Err _ => sessions am1 = sessions am
  end.
Proof.
  unfold CompleteLogin. destruct (complete_locked ok now token code am) as [r0 am0] eqn:Ec.
  apply complete_locked_spec in Ec as [Hs Hok]. destruct r0 as [[username used]|er]; [|by intros [= <- <-]].
  unfold createSession. destruct sid as [s|]; [|by intros [= <- <-]]. destruct csrf as [c|]; [|by intros [= <- <-]].
  intros [= <- <-]. destruct (Hok username used eq_refl) as (ch & u & H1 & H2 & H3 & H4 & H5 & H6 & H7 & H8).
  exists username. split; [exists c; cbn; by rewrite Hs|]. split; [|split; [|done]].
  - intros p. cbn [credentials_ok]. exists ch, u. split_and!; try done. destruct used; [by left|by right].
  - unfold ChallengeUser. rewrite H1. destruct (Z.ltb_spec (c_expiry ch) now); [lia|by rewrite H4].
Qed.

(** C2: signing in (main.go, handleLogin and handleLoginSecondFactor).  A session is made
    only when the limiter let the request in and the password of an account without a second
    factor was right, or the challenge was open and its user's code was right.  The new
    session is that user's, its cookies are the ones sent, and the session the browser
    presented is gone.  Every other answer leaves all sessions as they were. *)
Theorem login_sessions r st reply st' : serve ToLower r st = (reply, st') ->
  let e := r_env r in
  match r_action r with ALogin _ _ | ASecondFactor _ _ => True | _ => False end ->
  e_sid e <> Some "" -> e_token e <> Some "" -> e_now e <= e_done e <= e_now e + SessionIdleTimeout ->
  match reply with
  | SignedIn cookies tok => exists username sid,
      credentials_ok (auth st) (e_now e) (r_action r) username /\
      fst (snd (Reserve (limiter st) (e_reserve e) (reserves ToLower r st))) = true /\
      e_sid e = Some sid /\ e_csrf e = Some tok /\ cookies = setSessionCookies (r_secure r) sid tok session_seconds /\
      sessions (auth st') = signed_in_sessions e (presented_of (r_action r)) username sid tok (sessions (auth st))
  | _ => sessions (auth st') = sessions (auth st)
  end.
Proof.
  destruct r as [sec ip e act]. unfold serve, reserves. cbn [r_env r_ip r_secure r_action].
  intros E Ha Hsid Htok Htime. destruct act as [p b|p b|?|?|?|?]; try done; cbn [presented_of].
  - unfold handleLogin in E. destruct b as [[name pw]|]; [|by injection E as <- <-].
    destruct (_ || _ || _); [by injection E as <- <-|]. unfold guarded in E.
    destruct (Reserve _ _ _) as [l [[] w]]; [|by injection E as <- <-]. unfold begin in E.
    destruct (BeginLogin _ _ _ _ _ _ _ _ _) as [r am1] eqn:Eb. apply begin_spec in Eb; [|done].
    destruct r as [res|er]; [|by injection E as <- <-]. destruct (String.eqb (Challenge res) ""); cbn [negb] in E; [|by injection E as <- <-].
    destruct Eb as ((tok & Es & Ecs & Hm) & Hu). set (st1 := mkState _ am1 _) in E.
    destruct (finish_login sec ip e p name (SessionID res) tok "User logged in successfully" st1 (sessions (auth st)) Hm) as [Hr Hs]; [congruence|done|].
    rewrite E in Hr, Hs. cbn in Hr, Hs. subst reply. by exists name, (SessionID res).
  - unfold handleLoginSecondFactor in E. destruct b as [[token code]|]; [|by injection E as <- <-].
    destruct (ChallengeUser (e_reserve e) token (auth st)) as [u0|] eqn:Eu; [|by injection E as <- <-]. unfold guarded in E.
    destruct (Reserve _ _ _) as [l [[] w]]; [|by injection E as <- <-].
    destruct (CompleteLogin _ _ _ _ _ _ _) as [r am1] eqn:Eb. apply complete_spec in Eb.
    destruct r as [[s used]|er]; [|by injection E as <- <-].
    destruct Eb as (username & (tok & Es & Ecs & Hm) & Hu & Hch & _). set (st1 := mkState _ am1 _) in E.
    assert (Huu : u0 = username).
    { unfold ChallengeUser in *. destruct (challenges (auth st) !! token) as [c|]; [|done]. repeat case_match; congruence. }
    subst u0. set (d := if used then _ else _) in E.
    destruct (finish_login sec ip e p username s tok d st1 (sessions (auth st)) Hm) as [Hr Hs]; [congruence|done|].
    rewrite E in Hr, Hs. cbn in Hr, Hs. subst reply. by exists username, s.
Qed.

(** refusals (limitReverify, handleLogin, handleLoginSecondFactor).  A request answered
    429 has checked nothing: users, sessions, challenges and audit log are untouched.  The
    limiter has let go nothing but entries it forgets, and after the time in [Retry-After]
    none of the request's keys is blocked. *)
Theorem throttled_untouched r st secs st' : serve ToLower r st = (RetryAfter secs, st') ->
  0 <= baseDelay (limiter st) ->
  auth st' = auth st /\ audit st' = audit st /\
  settings (limiter st') = settings (limiter st) /\ entries (limiter st') ⊆ entries (limiter st) /\ 0 < secs /\
  forall k e, In k (reserves ToLower r st) -> entries (limiter st') !! k = Some e ->
    blockedTill e < e_reserve (r_env r) + secs * second.
Proof.
  intros E Hb.
  assert (Key : forall A keys (op : AuthManager -> ret A) e, guarded keys op e st = (Err secs, st') ->
    auth st' = auth st /\ audit st' = audit st /\
    settings (limiter st') = settings (limiter st) /\ entries (limiter st') ⊆ entries (limiter st) /\ 0 < secs /\
    forall k en, In k keys -> entries (limiter st') !! k = Some en -> blockedTill en < e_reserve e + secs * second).
  { intros A keys op e Eg. unfold guarded in Eg. destruct (Reserve _ _ _) as [l [[] w]] eqn:Er; [by destruct (op _)|].
    injection Eg as <- <-. cbn [auth audit limiter with_limiter].
    destruct (reserve_frame _ _ _ _ _ Er) as [H1 H2]. split_and!; try done.
    - destruct (reserve_refusal _ _ _ _ _ Er Hb) as (w0 & _ & Hw). by apply retry_after_covers; lia.
    - intros k en. by eapply reserve_wait. }
  destruct r as [sec ip e act]. unfold serve, reserves in *. cbn [r_env r_ip r_secure r_action] in *.
  destruct act as [p b|p b|u sid b|u host qr b|u sid b|u b]; destruct b as [b|]; try done; try destruct b as [b1 b2].
  - unfold handleLogin in E. destruct (_ || _ || _); [done|].
    destruct (guarded _ _ _ _) as [[[res|er]|sc] st1] eqn:Eg; [|done|injection E as -> ->; by eapply Key].
    destruct (negb _); [done|]. unfold finishLogin in E. by destruct (GetSession _ _ _).
  - unfold handleLoginSecondFactor in E. destruct (ChallengeUser _ _ _); [|done].
    destruct (guarded _ _ _ _) as [[[[sid used]|er]|sc] st1] eqn:Eg; [|done|injection E as -> ->; by eapply Key].
    unfold finishLogin in E. by destruct (GetSession _ _ _).
  - unfold handleChangePassword in E. destruct (1024 <? _); [done|].
    destruct (guarded _ _ _ _) as [[[x|er]|sc] st1] eqn:Eg; [done|done|injection E as -> ->; by eapply Key].
  - unfold handleTwoFactorSetup in E.
    destruct (guarded _ _ _ _) as [[[[x y]|er]|sc] st1] eqn:Eg; [by destruct qr|done|injection E as -> ->; by eapply Key].
  - unfold handleTwoFactorDisable in E.
    destruct (guarded _ _ _ _) as [[[x|er]|sc] st1] eqn:Eg; [done|done|injection E as -> ->; by eapply Key].
  - unfold handleTwoFactorRecoveryCodes in E.
    destruct (guarded _ _ _ _) as [[[x|er]|sc] st1] eqn:Eg; [done|done|injection E as -> ->; by eapply Key].
Qed.
End SignIn.

(** Guessing one request after the other: in any half hour, however the requests are spread over
    logins, second factors and the handlers that ask for the password again, at most fifteen
    wrong passwords or codes are checked for a key (an address, an account, an account's
    second factor), unless one of them is right and clears the key.  The limiter has room
    for the keys of the requests. *)
Theorem guesses_bounded `{Argon2} (ToLower : string -> string) T k rs st :
  settings (limiter st) = settings NewLoginLimiter ->
  (forall e, entries (limiter st) !! k = Some e -> 0 <= failures e) ->
  mlen (entries (limiter st)) + 2 * Z.of_nat (length rs) < 10000 ->
  ordered T (T + 30 * minute) rs ->
  existsb (right_guess ToLower k) (fst (serve_all ToLower rs st)) = false ->
  (wrong_guesses ToLower k (fst (serve_all ToLower rs st)) <= 15)%nat.
Proof.
  intros Hs Hf Hm Ho Hr. apply (window ToLower T k rs st 0 T); [lia|done|split; [lia|exact Hf]| |done|done].
  by pose proof (settings_eq _ _ Hs) as (_ & _ & _ & _ & ->).
Qed.

(** the address the limiter and the audit log see (main.go, clientIP).  Behind the trusted
    proxy it is the last element of the last [X-Forwarded-For] line, which the proxy wrote,
    whatever lines and elements the client sent before it; without the proxy no header
    matters. *)
Theorem client_ip_last_hop (ip_String : list Z -> string) sc p lines pre hop ip :
  contains_byte hop "," = false -> ParseIP (trim_space hop) = Some ip ->
  p_ForwardedFor p = (lines ++ [hop])%list \/ p_ForwardedFor p = (lines ++ [pre +:+ "," +:+ hop])%list ->
  clientIP ip_String (mkSettings false true sc) p = ip_String ip /\
  forall q, p_RemoteAddr q = p_RemoteAddr p ->
    clientIP ip_String (mkSettings false false sc) q = clientIP ip_String (mkSettings false false sc) p.
Proof.
  intros Hh Hip Hx. split; [|by intros q; unfold clientIP; cbn; intros ->].
  assert (Hsp : split "," hop = [hop]).
  { pose proof (split_join "," [hop]) as Hj. rewrite join_one in Hj. apply Hj; [done|by repeat constructor]. }
  unfold clientIP. cbn [agentMode trustProxy]. destruct Hx as [->| ->]; rewrite last_snoc.
  - rewrite Hsp. change (default "" (last [hop])) with hop. by rewrite Hip.
  - change (pre +:+ "," +:+ hop) with (pre +:+ byte_str "," +:+ hop). rewrite split_app, Hsp, last_snoc. change (default "" (Some hop)) with hop. by rewrite Hip.
Qed.

(** ** Concrete runs *)

Definition demo_env (t : Z) : env :=
  mkEnv t t t [] true true true None (Some "new") (Some "tok") (Some "chal") None None true "2024".
Definition demo_state : state := mkState NewLoginLimiter demo_owner [].
Definition demo_login (t : Z) (password : string) : request :=
  mkRequest true "192.0.2.1" (demo_env t) (ALogin (Some "s1") (Some ("anna", password))).
(** The sixth failure blocks. *)
Definition demo_blocked : state :=
  with_limiter (set_entries NewLoginLimiter {[ "user:anna" := mkEntry 6 0 (2 * second) ]}) demo_state.

Lemma login_sessions_witness :
  sessions (auth (snd (@serve toy_argon2 id (demo_login 10 "oldsecret") demo_state))) !! "new" =
    Some (mkSession "anna" (10 + SessionIdleTimeout) 10 "tok") /\
  sessions (auth (snd (@serve toy_argon2 id (demo_login 10 "oldsecret") demo_state))) !! "s1" = None /\
  sessions (auth (snd (@serve toy_argon2 id (demo_login 10 "wrong") demo_state))) = sessions demo_am.
Proof.
  pose proof (@login_sessions toy_argon2 id (demo_login 10 "oldsecret") demo_state _ _ (surjective_pairing _)) as H.
  pose proof (@login_sessions toy_argon2 id (demo_login 10 "wrong") demo_state _ _ (surjective_pairing _)) as H'.
  cbn zeta in H, H'. specialize (H I). specialize (H' I).
  assert (E : fst (@serve toy_argon2 id (demo_login 10 "oldsecret") demo_state) =
    SignedIn (setSessionCookies true "new" "tok" 604800) "tok") by (vm_compute; reflexivity).
  assert (E' : fst (@serve toy_argon2 id (demo_login 10 "wrong") demo_state) = Code 401) by (vm_compute; reflexivity).
  rewrite E in H. rewrite E' in H'. split_and!.
  - destruct H as (u & sid & (Hu & _) & _ & Hsid & _ & _ & ->); [done|done|by vm_compute|].
    injection Hsid as <-. subst u. apply lookup_insert_eq.
  - destruct H as (u & sid & _ & _ & Hsid & _ & _ & ->); [done|done|by vm_compute|].
    injection Hsid as <-. unfold signed_in_sessions. rewrite lookup_insert_ne by done. apply lookup_delete_eq.
  - apply H'; [discriminate|discriminate|split; vm_compute; discriminate].
Defined.

Lemma throttled_untouched_witness :
  auth (snd (@serve toy_argon2 id (demo_login second "oldsecret") demo_blocked)) = demo_owner /\
  2 * second < second + 2 * second.
Proof.
  assert (E : @serve toy_argon2 id (demo_login second "oldsecret") demo_blocked =
    (RetryAfter 2, demo_blocked)) by (vm_compute; reflexivity).
  destruct (@throttled_untouched toy_argon2 id _ _ _ _ E) as (H1 & _ & _ & _ & _ & H2); [vm_compute; discriminate|].
  split; [by rewrite E|]. apply (H2 "user:anna" (mkEntry 6 0 (2 * second))); [right; by left|reflexivity].
Defined.

Lemma guesses_bounded_witness :
  (wrong_guesses id "user:anna" (fst (@serve_all toy_argon2 id [demo_login 5 "a"; demo_login 6 "b"] demo_state)) <= 15)%nat /\
  wrong_guesses id "user:anna" (fst (@serve_all toy_argon2 id [demo_login 5 "a"; demo_login 6 "b"] demo_state)) = 2%nat.
Proof.
  split; [|vm_compute; reflexivity].
  apply (@guesses_bounded toy_argon2 id 0 "user:anna"); [done|done|vm_compute; reflexivity|cbn; unfold minute, second; lia|vm_compute; reflexivity].
Defined.

Lemma client_ip_last_hop_witness :
  clientIP (fun _ => "ip") (mkSettings false true true)
    (mkPeer "127.0.0.1:80" ["10.0.0.1"; "10.0.0.2, 192.0.2.7"] "" "" false) = "ip".
Proof.
  refine (proj1 (client_ip_last_hop (fun _ => "ip") true _ ["10.0.0.1"] "10.0.0.2" " 192.0.2.7" _ _ _ (or_intror _)));
    [reflexivity|vm_compute; reflexivity|reflexivity].
Defined.
