(* ===== verification/Guesses.v ===== *)
(** * Guessing passwords with requests at the same time

    The limiter of backend/ratelimit.go as the handlers of main.go use it from many
    goroutines: an attempt passes [Allow], is granted by the second critical section
    of [Reserve], runs, gives its slot back in the first critical section of [done]
    and records its result in the second.  Each of these is one step of a relation
    with the clock; other attempts come in between everywhere.  The number of
    guesses in a window is bounded by how many attempts are between two critical
    sections of [Reserve] or of [done] at the same time ([RateLimit.reserve_race]). *)

From Stdlib Require Import ZArith Lia Bool String Ascii List.
From stdpp Require Import base gmap strings list fin_maps relations.
From S2P Require Import Prelude GoStrings RateLimit Auth Login.

(** ** Steps *)

(** The keys of the attempts that passed [Allow], that are being verified, and that
    gave their slot back but did not record their result. *)
Record tstate := mkT {
  clock : Z; lim : LoginLimiter;
  passed : list (list string); verified : list (list string); released : list (list string) }.

Inductive event :=
| Tick | Pass (keys : list string) | Turn (keys : list string) | Grant (keys : list string)
| Busy (keys : list string) | Release (keys : list string)
| Fail (order keys : list string) | Succeed (keys : list string).

Inductive tstep : tstate -> event -> tstate -> Prop :=
| ts_tick t t' l ps vs rs : t <= t' -> tstep (mkT t l ps vs rs) Tick (mkT t' l ps vs rs)
| ts_pass t l ps vs rs keys l' w :
    NoDup keys -> Allow l t keys = (l', (true, w)) ->
    tstep (mkT t l ps vs rs) (Pass keys) (mkT t l' (keys :: ps) vs rs)
| ts_turn t l ps vs rs keys l' w :
    Allow l t keys = (l', (false, w)) -> tstep (mkT t l ps vs rs) (Turn keys) (mkT t l' ps vs rs)
| ts_grant t l p1 keys p2 vs rs l' :
    reserve_locked l keys = Some l' ->
    tstep (mkT t l (p1 ++ keys :: p2) vs rs) (Grant keys) (mkT t l' (p1 ++ p2) (keys :: vs) rs)
| ts_busy t l p1 keys p2 vs rs :
    reserve_locked l keys = None ->
    tstep (mkT t l (p1 ++ keys :: p2) vs rs) (Busy keys) (mkT t l (p1 ++ p2) vs rs)
| ts_release t l ps v1 keys v2 rs :
    tstep (mkT t l ps (v1 ++ keys :: v2) rs) (Release keys) (mkT t (done_release l keys) ps (v1 ++ v2) (keys :: rs))
| ts_fail t l ps vs r1 keys r2 order :
    order_ok l t order ->
    tstep (mkT t l ps vs (r1 ++ keys :: r2)) (Fail order keys) (mkT t (Failure l t order keys) ps vs (r1 ++ r2))
| ts_succeed t l ps vs r1 keys r2 :
    tstep (mkT t l ps vs (r1 ++ keys :: r2)) (Succeed keys) (mkT t (Success l keys) ps vs (r1 ++ r2)).

Definition start (t : Z) : tstate := mkT t NewLoginLimiter [] [] [].

(** Attempts for [k] between the two critical sections of [Reserve] or of [done]. *)
Definition in_transit (k : string) (s : tstate) : Z := active k (passed s) + active k (released s).

(** A run with at most [m] of them at a time; [P] limits its steps. *)
Inductive run (k : string) (m : Z) (P : tstate -> event -> Prop) : tstate -> list event -> tstate -> Prop :=
| run_nil s : in_transit k s <= m -> run k m P s [] s
| run_cons s e s1 es s2 : in_transit k s <= m -> P s e -> tstep s e s1 -> run k m P s1 es s2 ->
    run k m P s (e :: es) s2.

Definition anything (s : tstate) (e : event) : Prop := True.
(** No right guess for [k] clears it, and the limiter has room for the keys. *)
Definition undisturbed (k : string) (s : tstate) (e : event) : Prop :=
  match e with
  | Succeed keys => mem k keys = false
  | Fail _ keys => mlen (entries (lim s)) + Z.of_nat (length keys) < maxEntries (lim s)
  | _ => True
  end.

(** The guesses for [k] that are checked. *)
Definition grants (k : string) (es : list event) : Z :=
  Z.of_nat (length (List.filter (fun e => match e with Grant keys => mem k keys | _ => false end) es)).

(** ** Lemmas: failures of a key *)

Lemma failed_same l l' k : entries l' = entries l -> failed l' k = failed l k.
Proof. unfold failed. by intros ->. Qed.

Lemma failed_sub l m k : entries_ok l -> m ⊆ entries l -> failed (set_entries l m) k <= failed l k.
Proof.
  intros Hok Hs. unfold failed. cbn. destruct (m !! k) as [e|] eqn:E.
  - by rewrite (lookup_weaken _ _ _ _ E Hs).
  - destruct (entries l !! k) as [e|] eqn:E'; [|done]. by apply Hok in E' as [].
Qed.

Lemma failed_key now l k0 k : entries_ok l ->
  failed (failure_key now l k0) k <= failed l k + (if String.eqb k0 k then 1 else 0).
Proof.
  intros Hok. unfold failure_key. destruct (entries l !! k0) as [e|] eqn:E.
  - unfold failed. cbn. destruct (String.eqb_spec k0 k) as [->|Hne].
    + rewrite lookup_insert_eq, E. apply Hok in E as [? _]. cbn. destruct (_ >? _); cbn; lia.
    + rewrite lookup_insert_ne by done. lia.
  - destruct (_ >=? _); [destruct (String.eqb k0 k); lia|]. unfold failed. cbn.
    destruct (String.eqb_spec k0 k) as [->|Hne].
    + rewrite lookup_insert_eq, E. done.
    + rewrite lookup_insert_ne by done. lia.
Qed.

Lemma failed_failure l vs now order keys k : inv (l, vs) -> NoDup keys ->
  failed (Failure l now order keys) k <= failed l k + (if mem k keys then 1 else 0).
Proof.
  intros I Hn. unfold Failure.
  set (l1 := if mlen (entries l) >=? maxEntries l then pruneLocked l now order else l).
  assert (H1 : inv (l1, vs) /\ failed l1 k <= failed l k).
  { unfold l1. destruct (_ >=? _); [|by split]. split.
    - unfold pruneLocked. apply inv_sub; [exact (prune_sub l now order)|done].
    - apply failed_sub; [apply (inv_entries _ I)|exact (prune_sub l now order)]. }
  destruct H1 as [I1 Hle]. enough (failed (fold_left (failure_key now) keys l1) k <= failed l1 k + (if mem k keys then 1 else 0)) by lia.
  clear Hle I. clearbody l1. revert l1 I1 Hn. induction keys as [|k0 ks IH]; intros l1 I1 Hn; cbn [fold_left]; [unfold mem; cbn; lia|].
  apply NoDup_cons in Hn as [Hni Hn]. pose proof (failed_key now l1 k0 k (inv_entries _ I1)) as Hk.
  assert (I2 : inv (failure_key now l1 k0, vs)).
  { destruct (failure_key_inv now l1 k0) as (A & B & C & D); try apply I1.
    - pose proof (settings_eq _ _ (inv_settings _ I1)) as (_ & Hb & _). cbn in Hb. by rewrite Hb.
    - apply (inv_same_flight l1); try done. pose proof (settings_eq _ _ A) as (_ & _ & _ & _ & Hm). by rewrite Hm. }
  specialize (IH _ I2 Hn). unfold mem in *. cbn [existsb]. rewrite (String.eqb_sym k k0).
  destruct (String.eqb_spec k0 k) as [->|Hne]; cbn [orb]; [|lia].
  assert (E : existsb (String.eqb k) ks = false) by (apply mem_false; by rewrite <- list_elem_of_In).
  rewrite E in IH. lia.
Qed.

(** ** Lemmas: every run *)

Definition good (s : tstate) : Prop :=
  inv (lim s, verified s) /\ Forall (fun ks : list string => NoDup ks) (passed s) /\
  Forall (fun ks : list string => NoDup ks) (released s).

Lemma Forall_split_at {A} (P : A -> Prop) l1 x l2 : Forall P (l1 ++ x :: l2)%list <-> P x /\ Forall P (l1 ++ l2)%list.
Proof. rewrite !Forall_app, Forall_cons. tauto. Qed.

Lemma good_step s e s' : tstep s e s' -> good s -> good s'.
Proof.
  intros Hs (I & Hp & Hr).
  destruct Hs as [| t l ps vs rs keys l' w Hn Ha|t l ps vs rs keys l' w Ha|t l p1 keys p2 vs rs l' Hg| |
                  t l ps v1 keys v2 rs|t l ps vs r1 keys r2 order Ho|t l ps vs r1 keys r2];
    unfold good in *; cbn [lim passed verified released] in *; rewrite ?Forall_split_at in *.
  - done.
  - split_and!; [|by constructor|done]. replace l' with (fst (Allow l t keys)) by by rewrite Ha.
    eapply inv_step; [apply step_allow|done].
  - split_and!; [|done|done]. replace l' with (fst (Allow l t keys)) by by rewrite Ha.
    eapply inv_step; [apply step_allow|done].
  - destruct Hp as [Hk Hp]. split_and!; [|done|done]. by eapply inv_step; [apply step_reserve|].
  - tauto.
  - split_and!; [eapply inv_step; [apply step_release|done]|done|]. constructor; [|done].
    pose proof (inv_nodup _ I) as Hd. cbn [snd] in Hd. by apply Forall_split_at in Hd as [? _].
  - split_and!; [by eapply inv_step; [apply step_failure|]|done|tauto].
  - split_and!; [by eapply inv_step; [apply step_success|]|done|tauto].
Qed.

Lemma good_start t : good (start t).
Proof. split_and!; [apply inv_init|by constructor..]. Qed.

(** The slots: verified attempts for [k] have free tries left, but for one. *)
Definition slots (k : string) (m : Z) (s : tstate) : Prop :=
  active k (verified s) <= 1 \/ failed (lim s) k + active k (verified s) + active k (released s) <= 4 + m.

Lemma entries_grant l keys l' : reserve_locked l keys = Some l' -> entries l' = entries l /\ settings l' = settings l.
Proof.
  unfold reserve_locked. destruct (existsb _ _); [done|]. intros [= <-].
  by destruct (settings_fold (add_inflight 1) keys l ltac:(done)).
Qed.

Lemma grant_free l vs keys l' k : inv (l, vs) -> reserve_locked l keys = Some l' -> mem k keys = true ->
  active k vs = 0 \/ failed l k + active k vs < 5.
Proof.
  intros I Hg Hk. unfold reserve_locked in Hg. destruct (existsb _ _) eqn:Ex; [done|].
  assert (Hr : reserve_refused l k = false).
  { apply not_true_iff_false. intros Ht. apply not_true_iff_false in Ex. apply Ex, existsb_exists.
    exists k. split; [by apply mem_true|done]. }
  unfold reserve_refused in Hr. pose proof (inv_running _ I k) as Hrun. cbn in Hrun. rewrite Hrun in Hr.
  pose proof (settings_eq _ _ (inv_settings _ I)) as (Hf & _). cbn in Hf. rewrite Hf in Hr.
  pose proof (active_nonneg k vs). lia.
Qed.

Lemma failed_allow l t keys k : entries_ok l -> failed (fst (Allow l t keys)) k <= failed l k.
Proof.
  intros Hok. unfold Allow. pose proof (allow_loop_sub t (forgetAfter l) keys (entries l) 0) as Hs.
  destruct (allow_loop _ _ _ _ _) as [m w]. by apply failed_sub.
Qed.

Lemma slots_step k m s e s' : tstep s e s' -> good s -> in_transit k s <= m -> slots k m s -> slots k m s'.
Proof.
  intros Hs (I & Hp & Hr) Hm Hsl. pose proof (inv_entries _ I) as Hok. cbn [fst] in Hok.
  destruct Hs as [| t l ps vs rs keys l' w Hn Ha|t l ps vs rs keys l' w Ha|t l p1 keys p2 vs rs l' Hg| |
                  t l ps v1 keys v2 rs|t l ps vs r1 keys r2 order Ho|t l ps vs r1 keys r2];
    unfold slots, in_transit in *; cbn [lim passed verified released] in *;
    rewrite ?active_app, ?active_cons, ?active_app in *; try done.
  - pose proof (failed_allow l t keys k Hok) as H. rewrite Ha in H. cbn in H. lia.
  - pose proof (failed_allow l t keys k Hok) as H. rewrite Ha in H. cbn in H. lia.
  - destruct (entries_grant _ _ _ Hg) as [He _]. rewrite (failed_same _ _ _ He).
    destruct (mem k keys) eqn:Ek; cbn [Z.add] in *; [|lia]. destruct (grant_free _ _ _ _ _ I Hg Ek); [lia|].
    pose proof (active_nonneg k p1). pose proof (active_nonneg k p2). lia.
  - rewrite (failed_same _ _ k (proj2 (release_entries keys l))). destruct (mem k keys); lia.
  - apply Forall_split_at in Hr as [Hk _].
    pose proof (failed_failure l vs t order keys k I Hk). destruct (mem k keys); lia.
  - pose proof (failed_sub l (fold_left (fun m k => delete k m) keys (entries l)) k Hok (fold_delete_sub _ _)) as H.
    fold (Success l keys) in H. destruct (mem k keys); lia.
Qed.

(** ** Lemmas: a window *)

Definition fails (k : string) (e : event) : Z :=
  match e with Fail _ keys => if mem k keys then 1 else 0 | _ => 0 end.
Definition granted (k : string) (e : event) : Z :=
  match e with Grant keys => if mem k keys then 1 else 0 | _ => 0 end.

(** Attempts of the window that were counted, or that still can be. *)
Definition demand (k : string) (R : Z) (s : tstate) : Z :=
  R + active k (verified s) + active k (released s) + active k (passed s).

(** The bound before [i] more cooldowns than one can have ended. *)
Definition bound (m : Z) (i : nat) : Z := 5 + 2 * m + Z.of_nat i * (1 + m).

(** [R] failures were recorded since [t0] and [G] guesses let in. *)
Record window (k : string) (m t0 R G : Z) (s : tstate) : Prop := {
  wn_pos : 0 <= R;
  wn_grants : G <= R + active k (verified s) + active k (released s);
  wn_entry : 0 < R -> exists e, entries (lim s) !! k = Some e /\ t0 <= lastFailure e <= clock s /\ R <= failures e /\
    (5 < failures e -> blockedTill e = lastFailure e + cooldown NewLoginLimiter (failures e - 5)) /\
    (forall i, lastFailure e - t0 < elapsed (7 + i) -> R <= bound m i);
  wn_demand : forall i, clock s - t0 < elapsed (7 + i) -> demand k R s <= bound m i }.

Lemma elapsed_next i : elapsed (7 + i) = elapsed (6 + i) + cooldown NewLoginLimiter (Z.of_nat i + 1).
Proof.
  change (7 + i)%nat with (S (6 + i)). rewrite elapsed_S. replace (6 <=? 6 + i)%nat with true by (symmetry; apply Nat.leb_le; lia).
  do 2 f_equal. lia.
Qed.

(** After a cooldown at most one more than fit in transit. *)
Lemma unblocked_bound m t0 t R e i : 1 <= m -> 0 < R -> t0 <= lastFailure e -> R <= failures e ->
  (5 < failures e -> lastFailure e + cooldown NewLoginLimiter (failures e - 5) <= t) ->
  (forall i, lastFailure e - t0 < elapsed (7 + i) -> R <= bound m i) ->
  t - t0 < elapsed (7 + i) -> R + 1 + m <= bound m i.
Proof.
  intros Hm HR H0 Hf Hb Hl Ht. unfold bound in *. destruct (Z.le_gt_cases R 5) as [|H5]; [nia|].
  specialize (Hb ltac:(lia)). rewrite elapsed_next in Ht. destruct i as [|i].
  - pose proof (cooldown_mono 1 (failures e - 5) ltac:(lia)). change (Z.of_nat 0 + 1) with 1 in Ht.
    assert (elapsed (6 + 0) = 0) by reflexivity. lia.
  - destruct (Z.lt_ge_cases (lastFailure e - t0) (elapsed (7 + i))) as [Hi|Hi]; [specialize (Hl i Hi); nia|].
    change (6 + S i)%nat with (7 + i)%nat in Ht.
    destruct (Z.le_gt_cases (Z.of_nat (S i) + 1) (failures e - 5)) as [Hc|Hc].
    + pose proof (cooldown_mono _ _ Hc). lia.
    + nia.
Qed.

(** A step that leaves the entry of the key. *)
Lemma window_same k m t0 R G s s' g : window k m t0 R G s ->
  entries (lim s') !! k = entries (lim s) !! k -> clock s <= clock s' ->
  demand k R s' <= demand k R s ->
  g + active k (verified s) + active k (released s) <= active k (verified s') + active k (released s') ->
  window k m t0 R (G + g) s'.
Proof.
  intros [W1 W2 W3 W4] He Hc Hd Hg. split; [done|lia| |].
  - intros HR. destruct (W3 HR) as (e & H1 & H2 & H3). exists e. rewrite He. split_and!; [done|lia|lia|apply H3..].
  - intros i Hi. specialize (W4 i). lia.
Qed.

Lemma known_failures l now k : entries_ok l -> 0 <= failures (known l now (entries l !! k)).
Proof.
  intros Hok. unfold known. destruct (entries l !! k) as [e|] eqn:E; [|done].
  destruct (_ >? _); [done|]. by apply Hok in E as [].
Qed.

Lemma entry_fresh k m t0 R G s e t : window k m t0 R G s -> inv (lim s, verified s) -> 0 < R -> t <= t0 + 30 * minute ->
  entries (lim s) !! k = Some e -> forgetAfter (lim s) = 30 * minute /\ t - lastFailure e <= 30 * minute.
Proof.
  intros W I HR Ht He. destruct (wn_entry _ _ _ _ _ _ W HR) as (e' & He' & H1 & _). assert (e' = e) as -> by congruence.
  pose proof (settings_eq _ _ (inv_settings _ I)) as (_ & _ & _ & Hf & _). cbn in Hf. split; [done|lia].
Qed.

(** [Allow] in the window: a known entry stays, and is not blocked when it says yes. *)
Lemma allow_window k m t0 R G s keys l' ok w : window k m t0 R G s -> inv (lim s, verified s) -> clock s <= t0 + 30 * minute ->
  Allow (lim s) (clock s) keys = (l', (ok, w)) -> 0 < R ->
  entries l' !! k = entries (lim s) !! k /\
  (ok = true -> mem k keys = true -> forall e, entries (lim s) !! k = Some e -> blockedTill e <= clock s).
Proof.
  intros W I Ht Ha HR. destruct (wn_entry _ _ _ _ _ _ W HR) as (e & He & _).
  destruct (entry_fresh _ _ _ _ _ _ _ _ W I HR Ht He) as [Hf Hl].
  unfold Allow in Ha. pose proof (allow_loop_entry (clock s) (forgetAfter (lim s)) keys k e (entries (lim s)) 0 He) as H.
  destruct (allow_loop _ _ _ _ _) as [m' w']. injection Ha as <- <- <-. destruct H as [Hw [[_ H]|[H Hi]]]; [lia|].
  cbn. rewrite H, He. split; [done|]. intros Hok Hk e' [= <-]. apply Z.eqb_eq in Hok.
  destruct (Z.lt_ge_cases (clock s) (blockedTill e)) as [Hlt|]; [|done]. specialize (Hi ltac:(by apply mem_true) Hlt). lia.
Qed.

(** What an attempt that passes [Allow] adds. *)
Lemma pass_demand k m t0 R G t l ps vs rs keys l' w i : 1 <= m ->
  window k m t0 R G (mkT t l ps vs rs) -> good (mkT t l ps vs rs) -> slots k m (mkT t l ps vs rs) ->
  in_transit k (mkT t l' (keys :: ps) vs rs) <= m -> t <= t0 + 30 * minute ->
  Allow l t keys = (l', (true, w)) -> mem k keys = true -> t - t0 < elapsed (7 + i) ->
  demand k R (mkT t l' (keys :: ps) vs rs) <= bound m i.
Proof.
  intros Hm W (I & _) Hsl Htr Ht Ha Hk Hi. unfold demand, in_transit, slots in *. cbn [clock lim passed verified released] in *.
  pose proof (active_nonneg k rs). pose proof (active_nonneg k vs). pose proof (wn_pos _ _ _ _ _ _ W) as HR0.
  assert (Hf : 0 <= failed l k /\ (0 < R -> R <= failed l k)).
  { unfold failed. destruct (entries l !! k) as [e|] eqn:E.
    - pose proof (inv_entries _ I k e E) as [He _]. split; [done|]. intros HR.
      destruct (wn_entry _ _ _ _ _ _ W HR) as (e' & He' & _ & Hle & _). cbn in He'. congruence.
    - split; [done|]. intros HR. destruct (wn_entry _ _ _ _ _ _ W HR) as (e' & He' & _). cbn in He'. congruence. }
  assert (Hb : active k vs <= 1 -> R + 1 + m <= bound m i).
  { intros _. destruct (Z.eq_dec R 0) as [->|Hne]; [unfold bound; nia|].
    destruct (wn_entry _ _ _ _ _ _ W ltac:(lia)) as (e & He & [H1 H2] & H3 & H4 & H5).
    destruct (allow_window _ _ _ _ _ _ _ _ _ _ W I Ht Ha ltac:(lia)) as [_ Hu].
    apply (unblocked_bound m t0 t R e i); try done; [lia|]. intros H6. rewrite <- H4 by done. by apply Hu. }
  destruct Hsl as [Hsl|Hsl]; [specialize (Hb Hsl); lia|]. unfold bound in *. nia.
Qed.

(** A failure of the key in the window. *)
Lemma fail_window k m t0 R G t l ps vs r1 keys r2 order :
  window k m t0 R G (mkT t l ps vs (r1 ++ keys :: r2)) -> good (mkT t l ps vs (r1 ++ keys :: r2)) ->
  t0 <= t <= t0 + 30 * minute -> mlen (entries l) + Z.of_nat (length keys) < maxEntries l ->
  window k m t0 (R + if mem k keys then 1 else 0) G (mkT t (Failure l t order keys) ps vs (r1 ++ r2)).
Proof.
  intros W (I & _ & Hr) [H0 Ht] Hroom. cbn [lim verified released] in *. apply Forall_split_at in Hr as [Hn _].
  unfold Failure. destruct (Z.geb_spec (mlen (entries l)) (maxEntries l)); [lia|].
  destruct (failure_entry t keys k l Hn ltac:(lia)) as (Hs & _ & He). cbn zeta in Hs, He.
  set (l' := fold_left (failure_key t) keys l) in *. destruct (mem k keys) eqn:Ek.
  2:{ rewrite Z.add_0_r. replace G with (G + 0) by lia. apply (window_same _ _ _ _ _ _ _ 0 W); cbn; try lia; [done|..];
        unfold demand; cbn; rewrite !active_app, !active_cons, Ek; lia. }
  pose proof W as [W1 W2 W3 W4]. unfold demand in W4. cbn [clock lim passed verified released] in *.
  rewrite !active_app, !active_cons, Ek in *.
  destruct (same_settings l NewLoginLimiter t (known l t (entries l !! k)) (entries l !! k) (inv_settings _ I)) as [Hfe _].
  rewrite Hfe in He. set (e0 := known l t (entries l !! k)) in *.
  assert (Hf0 : R <= failures e0).
  { destruct (Z.eq_dec R 0) as [->|]; [apply known_failures, (inv_entries _ I)|].
    destruct (W3 ltac:(lia)) as (e & He' & _ & HRe & _).
    destruct (entry_fresh _ _ _ _ _ _ e t W I ltac:(lia) Ht He') as [Hg Hl]. cbn in Hg. unfold e0, known. rewrite He', Hg.
    destruct (Z.gtb_spec (t - lastFailure e) (30 * minute)); [lia|done]. }
  pose proof (active_nonneg k r1). pose proof (active_nonneg k r2). pose proof (active_nonneg k ps). pose proof (active_nonneg k vs).
  split; cbn [clock lim passed verified released]; rewrite ?active_app.
  - lia.
  - lia.
  - intros _. eexists. split; [exact He|]. unfold fail_entry. cbn [failures lastFailure blockedTill freeTries NewLoginLimiter].
    split_and!; [lia|lia|lia| |].
    + intros Hx. destruct (Z.gtb_spec (failures e0 + 1) 5); [done|lia].
    + intros i Hi. specialize (W4 i Hi). lia.
  - intros i Hi. specialize (W4 i Hi). unfold demand. cbn [passed verified released]. rewrite active_app. lia.
Qed.

Lemma window_step k m t0 R G s e s' : 1 <= m -> tstep s e s' -> undisturbed k s e -> good s -> slots k m s ->
  in_transit k s' <= m -> t0 <= clock s -> clock s' <= t0 + 30 * minute ->
  window k m t0 R G s -> window k m t0 (R + fails k e) (G + granted k e) s'.
Proof.
  intros Hm Hs Hu Hg Hsl Htr H0 Ht W. pose proof Hg as (I & _).
  destruct Hs as [t t' l ps vs rs Hle| t l ps vs rs keys l' w Hn Ha|t l ps vs rs keys l' w Ha|t l p1 keys p2 vs rs l' Hgr|
                  t l p1 keys p2 vs rs Hgr|t l ps v1 keys v2 rs|t l ps vs r1 keys r2 order Ho|t l ps vs r1 keys r2];
    cbn [fails granted clock] in *; rewrite ?Z.add_0_r.
  - rewrite <- (Z.add_0_r G). apply (window_same _ _ _ _ _ _ _ _ W); try done; cbn; lia.
  - pose proof W as [W1 W2 W3 W4]. split; [done|done| |].
    + intros HR. destruct (W3 HR) as (e & He & H). exists e. split; [|exact H].
      destruct (allow_window _ _ _ _ _ _ _ _ _ _ W I Ht Ha HR) as [HE _]. cbn in HE, He |- *. congruence.
    + intros i Hi. destruct (mem k keys) eqn:Ek; [by apply (pass_demand _ _ _ _ _ _ _ _ _ _ _ _ _ i Hm W Hg Hsl Htr Ht Ha Ek)|].
      specialize (W4 i Hi). unfold demand in *. cbn [passed verified released] in *. rewrite active_cons, Ek. lia.
  - pose proof W as [W1 W2 W3 W4]. split; [done|done| |done].
    intros HR. destruct (W3 HR) as (e & He & H). exists e. split; [|exact H].
    destruct (allow_window _ _ _ _ _ _ _ _ _ _ W I Ht Ha HR) as [HE _]. cbn in HE, He |- *. congruence.
  - destruct (entries_grant _ _ _ Hgr) as [He _].
    apply (window_same _ _ _ _ _ _ _ _ W); unfold demand; cbn; rewrite ?He, ?active_app, ?active_cons; try lia; done.
  - rewrite <- (Z.add_0_r G). apply (window_same _ _ _ _ _ _ _ _ W); unfold demand; cbn; rewrite ?active_app, ?active_cons; try lia; [done|].
    destruct (mem k keys); lia.
  - rewrite <- (Z.add_0_r G). apply (window_same _ _ _ _ _ _ _ _ W); unfold demand; cbn; rewrite ?active_app, ?active_cons; try lia.
    by rewrite (proj2 (release_entries keys l)).
  - by apply fail_window.
  - cbn in Hu. rewrite <- (Z.add_0_r G). apply (window_same _ _ _ _ _ _ _ _ W); unfold demand; cbn; rewrite ?active_app, ?active_cons, ?Hu; try lia.
    by rewrite success_entry.
Qed.

(** ** Lemmas: runs *)

Lemma run_transit k m P s es s' : run k m P s es s' -> in_transit k s <= m.
Proof. by destruct 1. Qed.

Lemma run_clock k m P s es s' : run k m P s es s' -> clock s <= clock s'.
Proof.
  induction 1 as [s _|s e s1 es s2 _ _ Hs _ IH]; [lia|]. enough (clock s <= clock s1) by lia.
  by destruct Hs.
Qed.

Lemma run_good k m P s es s' : run k m P s es s' -> good s -> slots k m s -> good s' /\ slots k m s'.
Proof. induction 1 as [|s e s1 es s2 Ht _ Hs _ IH]; [done|]. eauto using good_step, slots_step. Qed.

Lemma grants_cons k e es : grants k (e :: es) = granted k e + grants k es.
Proof. unfold grants. destruct e; cbn; try lia. destruct (mem k keys); cbn; lia. Qed.

Lemma run_window k m t0 s es s' : 1 <= m -> run k m (undisturbed k) s es s' -> good s -> slots k m s ->
  t0 <= clock s -> clock s' <= t0 + 30 * minute -> forall R G, window k m t0 R G s ->
  exists R', window k m t0 R' (G + grants k es) s'.
Proof.
  intros Hm. induction 1 as [s _|s e s1 es s2 Ht Hu Hs Hrun IH]; intros Hg Hsl H0 H1 R G W.
  { exists R. unfold grants. cbn. by rewrite Z.add_0_r. }
  pose proof (run_transit _ _ _ _ _ _ Hrun). pose proof (run_clock _ _ _ _ _ _ Hrun).
  assert (clock s <= clock s1) by (by destruct Hs).
  destruct (IH ltac:(by eapply good_step) ltac:(by eapply slots_step) ltac:(lia) H1 (R + fails k e) (G + granted k e)) as [R' W'].
  { apply (window_step k m t0 R G s e s1); try done. lia. }
  exists R'. by rewrite grants_cons, Z.add_assoc.
Qed.

(** A window that opens in any state: no failure of it is recorded yet. *)
Lemma window_open k m s : 1 <= m -> in_transit k s <= m -> slots k m s -> inv (lim s, verified s) -> window k m (clock s) 0 0 s.
Proof.
  intros Hm Ht Hsl I.
  assert (0 <= failed (lim s) k).
  { unfold failed. destruct (entries (lim s) !! k) as [e|] eqn:E; [|done]. by apply (inv_entries _ I) in E as []. }
  pose proof (active_nonneg k (verified s)). pose proof (active_nonneg k (released s)). pose proof (active_nonneg k (passed s)).
  unfold slots, in_transit in *. split; [done|lia|lia|]. intros i _. unfold demand, bound. nia.
Qed.

(** ** The handlers *)

(** A request that asks for a password or a code ([Login.guarded]) is such a run, when
    no other request comes in between: [Reserve] is [Allow] and the reservation, [done]
    the release and the record, and its check is one guess exactly when it is let in. *)
Lemma guarded_run {A} k keys (op : AuthManager -> ret A) e st x st' :
  guarded keys op e st = (x, st') -> NoDup keys -> e_reserve e <= e_done e ->
  order_ok (done_release (fst (Reserve (limiter st) (e_reserve e) keys)) keys) (e_done e) (e_order e) ->
  exists es, run k 1 anything (mkT (e_reserve e) (limiter st) [] [] []) es
    (mkT (if is_ok x then e_done e else e_reserve e) (limiter st') [] [] []) /\
    grants k es = if is_ok x && mem k keys then 1 else 0.
Proof.
  intros Hg Hn Ht Ho. unfold guarded, Reserve in *.
  assert (Hone : active k [] + active k [keys] <= 1)
    by (rewrite active_cons; change (active k []) with 0; destruct (mem k keys); lia).
  assert (H0 : active k [] + active k [] <= 1) by done.
  destruct (Allow (limiter st) (e_reserve e) keys) as [l1 [[] w]] eqn:Ea; cbn [negb] in *.
  2:{ injection Hg as <- <-. exists [Turn keys]. split; [|done]. eapply run_cons; [done|done|by eapply ts_turn|by apply run_nil]. }
  destruct (reserve_locked l1 keys) as [l2|] eqn:Er.
  2:{ injection Hg as <- <-. exists [Pass keys; Busy keys]. split; [|done].
      eapply run_cons; [done|done|by eapply ts_pass|]. eapply run_cons; [|done|by apply (ts_busy _ _ [] keys [])|by apply run_nil].
      unfold in_transit. cbn [passed released]. rewrite Z.add_comm; exact Hone. }
  destruct (op (auth st)) as [r am]. injection Hg as <- <-. cbn [fst] in Ho.
  exists [Pass keys; Grant keys; Release keys; Tick; (if is_ok r then Succeed keys else Fail (e_order e) keys)]. split.
  - eapply run_cons; [done|done|by eapply ts_pass|].
    eapply run_cons; [unfold in_transit; cbn [passed released]; rewrite Z.add_comm; exact Hone|done|by apply (ts_grant _ _ [] keys [])|].
    eapply run_cons; [done|done|apply (ts_release _ _ _ [] keys [])|].
    eapply run_cons; [unfold in_transit; cbn [passed released]; exact Hone|done|by apply ts_tick|].
    eapply run_cons; [unfold in_transit; cbn [passed released]; exact Hone|done| |by apply run_nil].
    unfold done_. cbn [is_ok limiter]. destruct (is_ok r); [apply (ts_succeed _ _ _ _ [] keys [])|by apply (ts_fail _ _ _ _ [] keys [])].
  - rewrite !grants_cons. cbn [granted is_ok andb]. destruct (is_ok r); cbn [granted]; change (grants k []) with 0; destruct (mem k keys); lia.
Qed.

(** ** The property *)

(** C3: guessing passwords and codes with any number of requests at the same time: in any
    half hour at most [14 + 11 * m] guesses for a key (an address, an account, an
    account's second factor) are checked, when never more than [m] attempts for it are
    between the two critical sections of [Reserve] or of [done] at once, no guess is
    right and clears the key, and the limiter has room for the keys.  Verifying a
    password, which takes most of an attempt, lies between the two calls. *)
Theorem parallel_guesses_bounded k m t es0 s0 es s :
  1 <= m -> run k m anything (start t) es0 s0 -> run k m (undisturbed k) s0 es s ->
  clock s <= clock s0 + 30 * minute -> grants k es <= 14 + 11 * m.
Proof.
  intros Hm H0 Hr Ht.
  destruct (run_good _ _ _ _ _ _ H0 (good_start t)) as [Hg Hsl]; [left; done|].
  pose proof (run_transit _ _ _ _ _ _ Hr) as Htr.
  destruct (run_window k m (clock s0) s0 es s Hm Hr Hg Hsl ltac:(lia) Ht 0 0) as [R W].
  { apply window_open; try done. apply Hg. }
  pose proof (wn_grants _ _ _ _ _ _ W) as HG. pose proof (wn_demand _ _ _ _ _ _ W 9%nat) as HD.
  assert (E : elapsed (7 + 9) = 1922 * second) by reflexivity. rewrite E in HD.
  specialize (HD ltac:(unfold minute, second in *; lia)). pose proof (active_nonneg k (passed s)).
  unfold demand, bound in HD. lia.
Qed.

(** Two attempts for an address that are verified at the same time. *)
Definition demo_events : list event :=
  [Pass ["ip:1"]; Grant ["ip:1"]; Pass ["ip:1"]; Grant ["ip:1"]; Release ["ip:1"]; Fail [] ["ip:1"]].
Definition demo_end : tstate :=
  mkT 0 (Failure (done_release (fold_left (add_inflight 1) ["ip:1"; "ip:1"] NewLoginLimiter) ["ip:1"]) 0 [] ["ip:1"]) [] [["ip:1"]] [].
Lemma parallel_guesses_bounded_witness : grants "ip:1" demo_events = 2 /\ 2 <= 14 + 11 * 1.
Proof.
  split; [reflexivity|]. change 2 with (grants "ip:1" demo_events).
  apply (parallel_guesses_bounded "ip:1" 1 0 [] (start 0) demo_events demo_end); [lia|apply run_nil; vm_compute; discriminate| |vm_compute; discriminate].
  eapply run_cons; [vm_compute; discriminate|exact I|eapply ts_pass; [apply NoDup_singleton|reflexivity]|].
  eapply run_cons; [vm_compute; discriminate|exact I|apply (ts_grant _ _ [] _ []); reflexivity|].
  eapply run_cons; [vm_compute; discriminate|exact I|eapply ts_pass; [apply NoDup_singleton|reflexivity]|].
  eapply run_cons; [vm_compute; discriminate|exact I|apply (ts_grant _ _ [] _ []); reflexivity|].
  eapply run_cons; [vm_compute; discriminate|exact I|apply (ts_release _ _ _ [] _ [["ip:1"]])|].
  eapply run_cons; [vm_compute; discriminate|vm_compute; reflexivity|apply (ts_fail _ _ _ _ [] _ []); vm_compute; constructor|].
  apply run_nil. vm_compute. discriminate.
Defined.
