(* ===== verification/Slots.v ===== *)
(** * Limits on what runs at once (limitlistener.go, agent_gateway.go, agent_tunnel.go, main.go)

    Connections, handshakes, requests and downloads hold a slot while they run.  A
    counter per key says how many are taken; a token, a number here, stands for who
    holds one, because a slot is given back once and by its holder only
    ([sync.Once], or the one path of a function that releases). *)

From Stdlib Require Import ZArith Lia Bool String Ascii List.
From stdpp Require Import base gmap strings list fin_maps.
From S2P Require Import Prelude GoStrings Text Validate GoNet.

(** ** Counters per key *)

(** [if m[key] >= limit { return false }; m[key]++] *)
Definition take_key (limit : Z) (key : string) (m : gmap string Z) : option (gmap string Z) :=
  let n := default 0 (m !! key) in
  if limit <=? n then None else Some (<[key := n + 1]> m).
(** [if m[key]--; m[key] <= 0 { delete(m, key) }] *)
Definition give_key (key : string) (m : gmap string Z) : gmap string Z :=
  let n := default 0 (m !! key) - 1 in
  if n <=? 0 then delete key m else <[key := n]> m.

(** How many tokens hold a slot of [key]. *)
Definition taken (key : string) (held : gmap nat string) : Z :=
  Z.of_nat (size (filter (fun e : nat * string => e.2 = key) held)).

Lemma taken_insert i k key held : held !! i = None ->
  taken key (<[i := k]> held) = taken key held + (if decide (k = key) then 1 else 0).
Proof.
  intros Hi. unfold taken. destruct (decide (k = key)) as [->|Hne].
  - rewrite map_filter_insert_True by done. rewrite map_size_insert_None; [lia|].
    by rewrite map_lookup_filter_None; left.
  - rewrite map_filter_insert_False by done. rewrite delete_id by done. lia.
Qed.

Lemma taken_delete i k key held : held !! i = Some k ->
  taken key held = taken key (delete i held) + (if decide (k = key) then 1 else 0).
Proof.
  intros Hi. rewrite <- (insert_delete_id held i k Hi) at 1. by rewrite taken_insert by (by rewrite lookup_delete_eq).
Qed.

Lemma taken_nonneg key held : 0 <= taken key held.
Proof. unfold taken. lia. Qed.

(** The counters are exact and within the limit. *)
Record counted (limit : Z) (m : gmap string Z) (held : gmap nat string) : Prop := {
  ct_exact key : default 0 (m !! key) = taken key held;
  ct_limit key : taken key held <= limit;
  ct_positive key n : m !! key = Some n -> 0 < n
}.

Lemma counted_empty limit : 0 <= limit -> counted limit ∅ ∅.
Proof. intros H. split; [done|intros key; unfold taken; rewrite map_filter_empty; done|done]. Qed.

Lemma counted_take limit key m m' held i : counted limit m held -> held !! i = None ->
  take_key limit key m = Some m' -> counted limit m' (<[i := key]> held).
Proof.
  intros H Hi. unfold take_key. pose proof (ct_exact _ _ _ H) as Hs. rewrite Hs. pose proof (ct_limit _ _ _ H) as Hl.
  destruct (Z.leb_spec limit (taken key held)) as [|Hlt]; [done|]. intros [= <-]. split.
  - intros k. rewrite taken_insert by done. destruct (decide (key = k)) as [->|Hne]; [by rewrite lookup_insert_eq|].
    rewrite lookup_insert_ne by done. rewrite Hs. lia.
  - intros k. rewrite taken_insert by done. specialize (Hl k). destruct (decide (key = k)) as [->|]; lia.
  - intros k n. destruct (decide (k = key)) as [->|Hne]; [rewrite lookup_insert_eq; intros [= <-]; unfold taken; lia|].
    rewrite lookup_insert_ne by done. apply H.
Qed.

Lemma counted_give limit key m held i : counted limit m held -> held !! i = Some key ->
  counted limit (give_key key m) (delete i held).
Proof.
  intros H Hi. pose proof (ct_exact _ _ _ H) as Hs. pose proof (ct_limit _ _ _ H) as Hl.
  pose proof (taken_delete i key) as Ht. unfold give_key. rewrite (Hs key).
  assert (Hm : taken key held - 1 = taken key (delete i held)) by (rewrite (Ht key held Hi); destruct (decide (key = key)); [lia|done]).
  rewrite Hm. split.
  - intros k. specialize (Ht k held Hi). destruct (Z.leb_spec (taken key (delete i held)) 0) as [H0|H0].
    + destruct (decide (key = k)) as [<-|Hne]; [rewrite lookup_delete_eq; pose proof (taken_nonneg key (delete i held)); cbn; lia|].
      rewrite lookup_delete_ne by done. rewrite Hs. lia.
    + destruct (decide (key = k)) as [<-|Hne]; [by rewrite lookup_insert_eq|].
      rewrite lookup_insert_ne by done. rewrite Hs. lia.
  - intros k. specialize (Hl k). rewrite (Ht k held Hi) in Hl. destruct (decide (key = k)); lia.
  - intros k n. destruct (Z.leb_spec (taken key (delete i held)) 0) as [H0|H0].
    + intros [_ Hk]%lookup_delete_Some. by eapply H.
    + destruct (decide (key = k)) as [<-|Hne]; [rewrite lookup_insert_eq; intros [= <-]; lia|].
      rewrite lookup_insert_ne by done. apply H.
Qed.

(** Nothing is left when everything was given back. *)
Lemma counted_all_free limit m : counted limit m ∅ -> m = ∅.
Proof.
  intros H. apply map_eq. intros key. rewrite lookup_empty. destruct (m !! key) as [n|] eqn:E; [|done].
  pose proof (ct_exact _ _ _ H key) as Hs. pose proof (ct_positive _ _ _ H key n E) as Hp.
  rewrite E in Hs. unfold taken in Hs. rewrite map_filter_empty, map_size_empty in Hs. simpl in Hs. lia.
Qed.

(** A key is refused exactly when all its slots are held. *)
Lemma counted_refused limit key m held : counted limit m held ->
  take_key limit key m = None <-> taken key held = limit.
Proof.
  intros H. unfold take_key. rewrite (ct_exact _ _ _ H). pose proof (ct_limit _ _ _ H key).
  destruct (Z.leb_spec limit (taken key held)); split; try done; lia.
Qed.

Lemma counted_free_key limit key m held : counted limit m held -> taken key held < limit -> is_Some (take_key limit key m).
Proof.
  intros H Hlt. destruct (take_key limit key m) eqn:E; [by eexists|]. apply (counted_refused _ _ _ _ H) in E. lia.
Qed.

(** ** Forwarded requests per user and node (nodeRequestLimiter) *)

Definition maxNodeRequestsPerUser : Z := 24.
Definition request_key (node user : string) : string := node +:+ of_bytes [chr 0] +:+ user.
Definition acquire (node user : string) (active : gmap string Z) : option (gmap string Z) :=
  take_key maxNodeRequestsPerUser (request_key node user) active.
Definition release (node user : string) (active : gmap string Z) : gmap string Z := give_key (request_key node user) active.

(** The limit is per user and node: no two of them share a counter. *)
Lemma request_key_inj n1 u1 n2 u2 : IsValidNodeID n1 = true -> IsValidNodeID n2 = true ->
  request_key n1 u1 = request_key n2 u2 -> n1 = n2 /\ u1 = u2.
Proof.
  intros H1 H2 E. unfold request_key in E. change (of_bytes [chr 0]) with (byte_str (chr 0)) in E.
  assert (Hz : forall n, IsValidNodeID n = true -> contains_byte n (chr 0) = false).
  { intros n H. unfold IsValidNodeID in H. split_match; [done|]. apply contains_byte_false. intros Hin.
    rewrite sall_forall in H. by apply H in Hin. }
  apply (f_equal (cut (chr 0))) in E. rewrite !cut_app in E by auto. by injection E.
Qed.

(** ** Handshakes of agents (AgentGateway) *)

Definition maxAgentHandshakes : Z := 64.
Definition maxAgentHandshakesPerIP : Z := 4.
Definition AgentEnrollALPN : string := "lgsm-enroll/1".
Definition agentTunnelALPN : string := "h2".

(** [net.IP.IsLoopback] *)
Definition IsLoopback (ip : list Z) : bool :=
  match To4 ip with
  | Some v4 => nth 0 v4 0 =? 127
  | None => bool_decide (ip = repeat 0 15 ++ [1])%list
  end.
Definition perIPExempt (clientIP : string) : bool :=
  match ParseIP clientIP with None => true | Some ip => IsLoopback ip end.

(** [handshakes] is how full the channel is. *)
Record gateway := mkGateway { handshakes : Z; perIP : gmap string Z }.

(** The two critical sections of [acquireHandshake], and of [releaseHandshake]. *)
Definition acquirePerIP (clientIP : string) (g : gateway) : option gateway :=
  if perIPExempt clientIP then Some g
  else option_map (mkGateway (handshakes g)) (take_key maxAgentHandshakesPerIP clientIP (perIP g)).
Definition releasePerIP (clientIP : string) (g : gateway) : gateway :=
  if perIPExempt clientIP then g else mkGateway (handshakes g) (give_key clientIP (perIP g)).
Definition acquireGlobal (clientIP : string) (g : gateway) : bool * gateway :=
  if handshakes g <? maxAgentHandshakes then (true, mkGateway (handshakes g + 1) (perIP g))
  else (false, releasePerIP clientIP g).
Definition releaseGlobal (g : gateway) : gateway := mkGateway (handshakes g - 1) (perIP g).

Definition acquireHandshake (clientIP : string) (g : gateway) : bool * gateway :=
  match acquirePerIP clientIP g with None => (false, g) | Some g => acquireGlobal clientIP g end.
Definition releaseHandshake (clientIP : string) (g : gateway) : gateway := releasePerIP clientIP (releaseGlobal g).

(** [HandleCarrier]: what happens to a connection, in order.  [handshake] is the
    negotiated protocol and the name in the client's certificate. *)
Inductive carrier_act := AReleaseHandshake | AHandleEnroll | AOnTunnel (nodeID : string) | AClose.
Definition HandleCarrier (acquired onTunnel : bool) (handshake : option (string * option string)) : list carrier_act :=
  if negb acquired then [AClose] else
  match handshake with
  | None => [AReleaseHandshake; AClose]
  | Some (protocol, cert) =>
      match cert with
      | None => if String.eqb protocol AgentEnrollALPN then [AHandleEnroll; AReleaseHandshake] else [AReleaseHandshake; AClose]
      | Some nodeID =>
          if String.eqb protocol agentTunnelALPN
          then AReleaseHandshake :: [if onTunnel then AOnTunnel nodeID else AClose]
          else [AReleaseHandshake; AClose]
      end
  end.

(** Connections between the critical sections: counted for their address, holding a
    slot of the channel too, and on the way out. *)
Inductive hs_phase := HCounted | HHeld | HLeaving.
#[export] Instance hs_phase_eq : EqDecision hs_phase.
Proof. solve_decision. Defined.

Inductive gw_event := GArrive (i : nat) (ip : string) | GGlobal (i : nat) | GFree (i : nat) | GLeave (i : nat).
Definition gw_config : Type := gateway * gmap nat (string * hs_phase).
Definition gw_step (e : gw_event) (c : gw_config) : gw_config :=
  let '(g, conns) := c in
  match e with
  | GArrive i ip =>
      match conns !! i, acquirePerIP ip g with
      | None, Some g' => (g', <[i := (ip, HCounted)]> conns)
      | _, _ => c
      end
  | GGlobal i =>
      match conns !! i with
      | Some (ip, HCounted) =>
          match acquireGlobal ip g with
          | (true, g') => (g', <[i := (ip, HHeld)]> conns)
          | (false, g') => (g', delete i conns)
          end
      | _ => c
      end
  | GFree i => match conns !! i with Some (ip, HHeld) => (releaseGlobal g, <[i := (ip, HLeaving)]> conns) | _ => c end
  | GLeave i => match conns !! i with Some (ip, HLeaving) => (releasePerIP ip g, delete i conns) | _ => c end
  end.
Fixpoint gw_run (l : list gw_event) (c : gw_config) : gw_config :=
  match l with [] => c | e :: t => gw_run t (gw_step e c) end.
Definition gw_start : gw_config := (mkGateway 0 ∅, ∅).

(** ** Requests through a tunnel (AgentTunnelClient) *)

Definition agentTunnelMaxStreams : Z := 200.
Definition agentTunnelControlStreams : Z := 8.
Definition kind_streams : string := "streams".
Definition kind_control : string := "control".
Definition stream_limit (kind : string) : Z :=
  if String.eqb kind kind_control then agentTunnelControlStreams else agentTunnelMaxStreams - agentTunnelControlStreams.

(** How full the channels [streams] and [control] are. *)
Record tunnel := mkTunnel { streams : Z; control : Z; t_done : bool }.
Definition used (kind : string) (t : tunnel) : Z := if String.eqb kind kind_control then control t else streams t.
Definition add_used (kind : string) (d : Z) (t : tunnel) : tunnel :=
  if String.eqb kind kind_control then mkTunnel (streams t) (control t + d) (t_done t) else mkTunnel (streams t + d) (control t) (t_done t).

(** A request waits for a slot, runs, and then holds its slot until the body is closed. *)
Inductive req_phase := RWaiting | RRunning | RBody.
Inductive tn_event :=
| TDo (i : nat) (isControl : bool) (** [Do], [DoControl] *)
| TSlot (i : nat) (** the slot is sent *)
| TGone (i : nat) (** the tunnel is closed, or the context ends, while it waits *)
| TFail (i : nat) (** [RoundTrip] fails *)
| TResponse (i : nat)
| TBodyClose (i : nat) (** the first call of [tunnelBody.Close] *)
| TClose.
Definition tn_config : Type := tunnel * gmap nat (string * req_phase).
Definition tn_step (e : tn_event) (c : tn_config) : tn_config :=
  let '(t, reqs) := c in
  match e with
  | TDo i ctl =>
      match reqs !! i with
      | None => (t, <[i := (if ctl then kind_control else kind_streams, RWaiting)]> reqs)
      | Some _ => c
      end
  | TSlot i =>
      match reqs !! i with
      | Some (kind, RWaiting) =>
          if used kind t <? stream_limit kind then (add_used kind 1 t, <[i := (kind, RRunning)]> reqs) else c
      | _ => c
      end
  | TGone i => match reqs !! i with Some (_, RWaiting) => (t, delete i reqs) | _ => c end
  | TFail i => match reqs !! i with Some (kind, RRunning) => (add_used kind (-1) t, delete i reqs) | _ => c end
  | TResponse i => match reqs !! i with Some (kind, RRunning) => (t, <[i := (kind, RBody)]> reqs) | _ => c end
  | TBodyClose i => match reqs !! i with Some (kind, RBody) => (add_used kind (-1) t, delete i reqs) | _ => c end
  | TClose => (mkTunnel (streams t) (control t) true, reqs)
  end.
Fixpoint tn_run (l : list tn_event) (c : tn_config) : tn_config :=
  match l with [] => c | e :: t => tn_run t (tn_step e c) end.
Definition tn_start : tn_config := (mkTunnel 0 0 false, ∅).

(** ** Listeners with a limit (limitListener) *)

(** A listener for [n] connections: how full [slots] is, and its connections, [false]
    while [Accept] waits for one. *)
Inductive ll_event :=
| LSlot (i : nat) (** [Accept] sends its slot *)
| LError (i : nat) (** the listener below fails *)
| LConn (i : nat)
| LClose (i : nat). (** the first [Close] of a connection *)
Definition ll_config : Type := Z * gmap nat bool.
Definition ll_step (n : Z) (e : ll_event) (c : ll_config) : ll_config :=
  let '(slots, conns) := c in
  match e with
  | LSlot i => match conns !! i with None => if slots <? n then (slots + 1, <[i := false]> conns) else c | Some _ => c end
  | LError i => match conns !! i with Some false => (slots - 1, delete i conns) | _ => c end
  | LConn i => match conns !! i with Some false => (slots, <[i := true]> conns) | _ => c end
  | LClose i => match conns !! i with Some true => (slots - 1, delete i conns) | _ => c end
  end.
Fixpoint ll_run (n : Z) (l : list ll_event) (c : ll_config) : ll_config :=
  match l with [] => c | e :: t => ll_run n t (ll_step n e c) end.

(** ** Lemmas: holders in a map of phases *)

Section Holders.
Context {A : Type} (f : A -> option string).

Definition share (key : string) (x : A) : Z := match f x with Some k => if decide (k = key) then 1 else 0 | None => 0 end.

Lemma holders_insert key i x (m : gmap nat A) :
  taken key (omap f (<[i := x]> m)) = taken key (omap f (delete i m)) + share key x.
Proof.
  rewrite <- insert_delete_eq, omap_insert. unfold share. destruct (f x) as [k|].
  - apply taken_insert. rewrite lookup_omap, lookup_delete_eq. done.
  - rewrite delete_id; [lia|]. by rewrite lookup_omap, lookup_delete_eq.
Qed.
Lemma holders_lookup key i x (m : gmap nat A) : m !! i = Some x ->
  taken key (omap f m) = taken key (omap f (delete i m)) + share key x.
Proof. intros H. rewrite <- (insert_id m i x H) at 1. apply holders_insert. Qed.
Lemma holders_change key i x y (m : gmap nat A) : m !! i = Some x ->
  taken key (omap f (<[i := y]> m)) = taken key (omap f m) - share key x + share key y.
Proof. intros H. rewrite holders_insert, (holders_lookup key i x m H). lia. Qed.
Lemma holders_new key i x (m : gmap nat A) : m !! i = None ->
  taken key (omap f (<[i := x]> m)) = taken key (omap f m) + share key x.
Proof. intros H. by rewrite holders_insert, delete_id. Qed.
Lemma holders_leave key i x (m : gmap nat A) : m !! i = Some x ->
  taken key (omap f (delete i m)) = taken key (omap f m) - share key x.
Proof. intros H. rewrite (holders_lookup key i x m H). lia. Qed.
(** A change of phase that keeps the slot. *)
Lemma holders_same i x y (m : gmap nat A) : m !! i = Some x -> f x = f y -> omap f (<[i := y]> m) = omap f m.
Proof.
  intros H E. apply map_eq. intros j. rewrite !lookup_omap. destruct (decide (i = j)) as [<-|Hne].
  - by rewrite lookup_insert_eq, H.
  - by rewrite lookup_insert_ne.
Qed.
Lemma holders_free i x (m : gmap nat A) : m !! i = Some x -> f x = None -> omap f (delete i m) = omap f m.
Proof. intros H E. rewrite omap_delete, delete_id; [done|]. rewrite lookup_omap, H. exact E. Qed.
End Holders.

(** ** Lemmas: the gateway *)

Definition slot_of (c : string * hs_phase) : option string := match c.2 with HHeld => Some "" | _ => None end.
Definition ip_of (c : string * hs_phase) : option string := if perIPExempt c.1 then None else Some c.1.

Record gw_ok (c : gw_config) : Prop := {
  gw_slots : handshakes c.1 = taken "" (omap slot_of c.2);
  gw_limit : handshakes c.1 <= maxAgentHandshakes;
  gw_perIP : counted maxAgentHandshakesPerIP (perIP c.1) (omap ip_of c.2)
}.

Lemma release_ip_ok g conns i ip ph : conns !! i = Some (ip, ph) ->
  counted maxAgentHandshakesPerIP (perIP g) (omap ip_of conns) ->
  counted maxAgentHandshakesPerIP (perIP (releasePerIP ip g)) (omap ip_of (delete i conns)).
Proof.
  intros Hi H. unfold releasePerIP. destruct (perIPExempt ip) eqn:E.
  - rewrite (holders_free ip_of i (ip, ph)); [done|done|]. unfold ip_of; cbn. by rewrite E.
  - cbn. rewrite omap_delete. apply counted_give; [done|]. rewrite lookup_omap, Hi. unfold ip_of; cbn. by rewrite E.
Qed.

Lemma release_ip_slots ip g : handshakes (releasePerIP ip g) = handshakes g.
Proof. unfold releasePerIP. by destruct (perIPExempt ip). Qed.

Lemma gw_step_ok e c : gw_ok c -> gw_ok (gw_step e c).
Proof.
  destruct c as [g conns]. intros [Hs Hl Hp]. cbn in Hs, Hl, Hp. destruct e as [i ip|i|i|i]; cbn.
  - destruct (conns !! i) as [|] eqn:Ei; [done|]. unfold acquirePerIP. destruct (perIPExempt ip) eqn:Ee.
    + split; cbn; [|done|].
      * rewrite (holders_new slot_of) by done. cbn. lia.
      * rewrite omap_insert_None by (unfold ip_of; cbn; by rewrite Ee). rewrite <- omap_delete. by rewrite delete_id.
    + destruct (take_key _ _ _) as [m|] eqn:Et; [|done]. split; cbn; [|done|].
      * rewrite (holders_new slot_of) by done. cbn. lia.
      * rewrite (omap_insert_Some ip_of conns i (ip, HCounted) ip) by (unfold ip_of; cbn; by rewrite Ee).
        eapply counted_take; [done| |done]. by rewrite lookup_omap, Ei.
  - destruct (conns !! i) as [[ip []]|] eqn:Ei; try done. unfold acquireGlobal.
    destruct (Z.ltb_spec (handshakes g) maxAgentHandshakes).
    + split; cbn; [|lia|].
      * rewrite (holders_change slot_of _ _ (ip, HCounted)) by done. unfold share. cbn. rewrite decide_True by done. lia.
      * by rewrite (holders_same ip_of i (ip, HCounted)).
    + split; cbn [fst snd].
      * rewrite release_ip_slots. by rewrite (holders_free slot_of i (ip, HCounted)).
      * by rewrite release_ip_slots.
      * by eapply release_ip_ok.
  - destruct (conns !! i) as [[ip []]|] eqn:Ei; try done. split; cbn.
    + rewrite (holders_change slot_of _ _ (ip, HHeld)) by done. unfold share. cbn. rewrite decide_True by done. lia.
    + lia.
    + by rewrite (holders_same ip_of i (ip, HHeld)).
  - destruct (conns !! i) as [[ip []]|] eqn:Ei; try done. split; cbn [fst snd].
    + rewrite release_ip_slots. by rewrite (holders_free slot_of i (ip, HLeaving)).
    + by rewrite release_ip_slots.
    + by eapply release_ip_ok.
Qed.

Lemma gw_run_ok l : forall c, gw_ok c -> gw_ok (gw_run l c).
Proof. induction l as [|e l IH]; intros c Hc; [done|]. by apply IH, gw_step_ok. Qed.
Lemma gw_start_ok : gw_ok gw_start.
Proof. split; cbn; [done|done|]. by apply counted_empty. Qed.

(** ** Lemmas: the tunnel *)

Definition stream_of (r : string * req_phase) : option string := match r.2 with RWaiting => None | _ => Some r.1 end.

Record tn_ok (c : tn_config) : Prop := {
  tn_used kind : kind = kind_streams \/ kind = kind_control -> used kind c.1 = taken kind (omap stream_of c.2);
  tn_limit kind : used kind c.1 <= stream_limit kind;
  tn_kind i kind ph : c.2 !! i = Some (kind, ph) -> kind = kind_streams \/ kind = kind_control
}.

Lemma used_add kind kind' d t : kind = kind_streams \/ kind = kind_control -> kind' = kind_streams \/ kind' = kind_control ->
  used kind' (add_used kind d t) = used kind' t + (if decide (kind = kind') then d else 0).
Proof. intros [->| ->] [->| ->]; unfold used, add_used; cbn [String.eqb kind_streams kind_control]; destruct (decide _) as [E|E]; try done; cbn; lia. Qed.

Lemma used_other kind d t k : kind = kind_streams \/ kind = kind_control ->
  used k (add_used kind d t) = used k t \/ used k (add_used kind d t) = used k t + d /\ stream_limit k = stream_limit kind /\ used k t = used kind t.
Proof.
  intros [->| ->]; unfold used, add_used, stream_limit; cbn -[stream_limit]; destruct (String.eqb k kind_control); cbn; auto.
Qed.

Lemma tn_step_ok e c : tn_ok c -> tn_ok (tn_step e c).
Proof.
  destruct c as [t reqs]. intros [Hu Hl Hk]. cbn in Hu, Hl, Hk.
  assert (Hdel : forall i j kind ph, delete i reqs !! j = Some (kind, ph) -> kind = kind_streams \/ kind = kind_control)
    by (intros i j kind ph [_ Hj]%lookup_delete_Some; by eapply Hk).
  assert (Hins : forall i j k p kind ph, k = kind_streams \/ k = kind_control -> <[i := (k, p)]> reqs !! j = Some (kind, ph) ->
    kind = kind_streams \/ kind = kind_control).
  { intros i j k p kind ph Hkk. destruct (decide (i = j)) as [<-|Hne]; [rewrite lookup_insert_eq; by intros [= <- <-]|].
    rewrite lookup_insert_ne by done. apply Hk. }
  assert (Hleave : forall i k ph, reqs !! i = Some (k, ph) -> ph <> RWaiting -> tn_ok (add_used k (-1) t, delete i reqs)).
  { intros i k ph Hi Hph. pose proof (Hk _ _ _ Hi) as Hkk. split; cbn [fst snd]; [|  |by apply Hdel].
    - intros kind Hkind. rewrite (holders_leave stream_of _ _ (k, ph)), <- Hu, used_add by done.
      unfold share, stream_of. cbn. destruct ph; [done|..]; destruct (decide (k = kind)); lia.
    - intros kind. specialize (Hl kind). destruct (used_other k (-1) t kind Hkk) as [->|(-> & _)]; lia. }
  destruct e as [i ctl|i|i|i|i|i|]; cbn.
  - destruct (reqs !! i) as [|] eqn:Ei; [done|].
    assert (Hkk : (if ctl then kind_control else kind_streams) = kind_streams \/ (if ctl then kind_control else kind_streams) = kind_control)
      by (destruct ctl; auto).
    split; cbn [fst snd]; [|done|intros ???; by apply Hins].
    intros kind Hkind. rewrite (holders_new stream_of), <- Hu by done. unfold share. cbn. lia.
  - destruct (reqs !! i) as [[k []]|] eqn:Ei; try done. pose proof (Hk _ _ _ Ei) as Hkk.
    destruct (Z.ltb_spec (used k t) (stream_limit k)); [|done]. split; cbn [fst snd]; [| |intros ???; by apply Hins].
    + intros kind Hkind. rewrite (holders_change stream_of _ _ (k, RWaiting)), <- Hu, used_add by done.
      unfold share. cbn. destruct (decide (k = kind)); lia.
    + intros kind. specialize (Hl kind). destruct (used_other k 1 t kind Hkk) as [->|(-> & -> & E)]; lia.
  - destruct (reqs !! i) as [[k []]|] eqn:Ei; try done. split; cbn [fst snd]; [|done|by apply Hdel].
    intros kind Hkind. by rewrite (holders_free stream_of i (k, RWaiting)), <- Hu.
  - destruct (reqs !! i) as [[k []]|] eqn:Ei; try done. by eapply Hleave.
  - destruct (reqs !! i) as [[k []]|] eqn:Ei; try done. pose proof (Hk _ _ _ Ei) as Hkk. split; cbn [fst snd]; [|done|intros ???; by apply Hins].
    intros kind Hkind. by rewrite (holders_same stream_of i (k, RRunning)), <- Hu.
  - destruct (reqs !! i) as [[k []]|] eqn:Ei; try done. by eapply Hleave.
  - by split.
Qed.

Lemma tn_run_ok l : forall c, tn_ok c -> tn_ok (tn_run l c).
Proof. induction l as [|e l IH]; intros c Hc; [done|]. by apply IH, tn_step_ok. Qed.
Lemma tn_start_ok : tn_ok tn_start.
Proof. split; cbn; [by intros kind [->| ->]|intros kind; unfold used, stream_limit; destruct (String.eqb kind kind_control); done|done]. Qed.

(** ** Lemmas: the listener *)

Definition conn_of (b : bool) : option string := Some "".
Definition ll_ok (n : Z) (c : ll_config) : Prop := c.1 = taken "" (omap conn_of c.2) /\ c.1 <= n.

Lemma ll_step_ok n e c : ll_ok n c -> ll_ok n (ll_step n e c).
Proof.
  destruct c as [slots conns]. intros [Hs Hl]. cbn in Hs, Hl. unfold ll_ok. destruct e as [i|i|i|i]; cbn.
  - destruct (conns !! i) as [|] eqn:Ei; [done|]. destruct (Z.ltb_spec slots n); [|done]. cbn.
    rewrite (holders_new conn_of) by done. unfold share. cbn. rewrite decide_True by done. lia.
  - destruct (conns !! i) as [[]|] eqn:Ei; try done. cbn.
    rewrite (holders_leave conn_of _ _ false) by done. unfold share. cbn. rewrite decide_True by done. lia.
  - destruct (conns !! i) as [[]|] eqn:Ei; try done. cbn. by rewrite (holders_same conn_of i false).
  - destruct (conns !! i) as [[]|] eqn:Ei; try done. cbn.
    rewrite (holders_leave conn_of _ _ true) by done. unfold share. cbn. rewrite decide_True by done. lia.
Qed.
Lemma ll_run_ok n l : forall c, ll_ok n c -> ll_ok n (ll_run n l c).
Proof. induction l as [|e l IH]; intros c Hc; [done|]. by apply IH, ll_step_ok. Qed.

(** The cases of being in a written-out list. *)
Ltac member H :=
  repeat (apply elem_of_cons in H as [H|H]; [simplify_eq|]); try (apply elem_of_nil in H; destruct H).

Definition is_release (a : carrier_act) : bool := match a with AReleaseHandshake => true | _ => false end.

Lemma taken_all (held : gmap nat string) : map_Forall (fun _ k => k = "") held -> taken "" held = Z.of_nat (size held).
Proof. intros H. unfold taken. rewrite map_filter_id; [done|]. intros i k Hk. by apply (H i). Qed.

Lemma conns_size (conns : gmap nat bool) : taken "" (omap conn_of conns) = Z.of_nat (size conns).
Proof.
  assert (E : omap conn_of conns = (fun _ => "") <$> conns).
  { apply map_eq. intros i. rewrite lookup_omap, lookup_fmap. by destruct (conns !! i). }
  rewrite E, taken_all; [by rewrite map_size_fmap|]. intros i k. rewrite lookup_fmap. by destruct (conns !! i); intros [= <-].
Qed.

(** When a handshake is refused. *)
Lemma acquire_refused ip c : gw_ok c -> (acquireHandshake ip c.1).1 = false <->
  (perIPExempt ip = false /\ taken ip (omap ip_of c.2) = maxAgentHandshakesPerIP) \/
  taken "" (omap slot_of c.2) = maxAgentHandshakes.
Proof.
  destruct c as [g conns]. intros [Hs Hl Hp]. cbn [fst snd] in *. unfold acquireHandshake, acquirePerIP.
  assert (Hg : forall m, (acquireGlobal ip (mkGateway (handshakes g) m)).1 = false <-> taken "" (omap slot_of conns) = maxAgentHandshakes).
  { intros m. unfold acquireGlobal. cbn [handshakes]. destruct (Z.ltb_spec (handshakes g) maxAgentHandshakes); cbn; split; try done; lia. }
  destruct (perIPExempt ip) eqn:Ee.
  - destruct g as [h m]. cbn [handshakes] in *. rewrite (Hg m). split; [by right|]. intros [[? _]|]; done.
  - pose proof (counted_refused _ ip _ _ Hp) as Hr. destruct (take_key maxAgentHandshakesPerIP ip (perIP g)) as [m|]; cbn [option_map].
    + rewrite (Hg m). split; [by right|]. intros [[_ H]|]; [|done]. by apply Hr in H.
    + split; [|done]. intros _. left. split; [done|]. by apply Hr.
Qed.

(** * Properties *)

(** strangers who connect as agents hold at most 64 handshakes at once and at most
    4 per address, whatever the interleaving; a connection is refused only when its
    address or the gateway has used up its slots; every connection that got a slot gives
    it back exactly once, so none stay behind; pairing requests hold theirs until they
    are answered, and only a connection with a certificate becomes a tunnel. *)
Theorem gateway_handshakes_bounded l g conns :
  gw_run l gw_start = (g, conns) ->
  handshakes g <= maxAgentHandshakes /\
  (forall ip, perIPExempt ip = false -> taken ip (omap ip_of conns) <= maxAgentHandshakesPerIP) /\
  (forall ip, (acquireHandshake ip g).1 = false <->
     (perIPExempt ip = false /\ taken ip (omap ip_of conns) = maxAgentHandshakesPerIP) \/
     taken "" (omap slot_of conns) = maxAgentHandshakes) /\
  (conns = ∅ -> g = mkGateway 0 ∅) /\
  (forall onTunnel h, let acts := HandleCarrier true onTunnel h in
     length (List.filter is_release acts) = 1%nat /\
     (AHandleEnroll ∈ acts -> acts = [AHandleEnroll; AReleaseHandshake] /\ exists p, h = Some (p, None)) /\
     (forall id, AOnTunnel id ∈ acts -> h = Some (agentTunnelALPN, Some id))).
Proof.
  intros E. pose proof (gw_run_ok l _ gw_start_ok) as H. rewrite E in H. pose proof H as [Hs Hl Hp]. cbn [fst snd] in *.
  split_and!; [done|intros ip _; apply Hp|intros ip; exact (acquire_refused ip _ H)| |].
  - intros ->. rewrite omap_empty in Hs, Hp. apply counted_all_free in Hp. destruct g as [h m]. cbn in *. subst m.
    unfold taken in Hs. rewrite map_filter_empty, map_size_empty in Hs. by subst h.
  - intros onTunnel h. cbn zeta. destruct h as [[p [id|]]|]; cbn.
    + destruct (String.eqb_spec p agentTunnelALPN) as [->|]; [destruct onTunnel|]; cbn;
        (split; [reflexivity|split]; [intros Hin|intros id' Hin]); member Hin; done.
    + destruct (String.eqb p AgentEnrollALPN); cbn;
        (split; [reflexivity|split]; [intros Hin|intros id' Hin]); member Hin; try done. by split; [|exists p].
    + split; [reflexivity|split]; [intros Hin|intros id' Hin]; member Hin; done.
Qed.

(** user requests never keep the controller from pinging, checking or renewing a node:
    of the 200 streams of a tunnel they hold at most 192, and a control request gets a
    slot as soon as fewer than 8 control requests run, however many user requests run or
    wait; every slot comes back. *)
Theorem control_never_starved l t reqs :
  tn_run l tn_start = (t, reqs) ->
  streams t <= 192 /\ control t <= 8 /\ streams t + control t <= agentTunnelMaxStreams /\
  (forall i, reqs !! i = Some (kind_control, RWaiting) -> taken kind_control (omap stream_of reqs) < 8 ->
     exists t' reqs', tn_step (TSlot i) (t, reqs) = (t', reqs') /\ reqs' !! i = Some (kind_control, RRunning)) /\
  (omap stream_of reqs = (∅ : gmap nat string) -> streams t = 0 /\ control t = 0).
Proof.
  intros E. pose proof (tn_run_ok l _ tn_start_ok) as [Hu Hl Hk]. rewrite E in Hu, Hl, Hk. cbn in Hu, Hl, Hk.
  pose proof (Hl kind_streams) as H1. pose proof (Hl kind_control) as H2. cbn in H1, H2.
  unfold agentTunnelControlStreams, agentTunnelMaxStreams in *. split_and!; try lia.
  - intros i Hi Hlt. cbn. rewrite Hi. rewrite <- Hu in Hlt by auto. cbn in Hlt |- *. unfold stream_limit, agentTunnelControlStreams. cbn.
    destruct (Z.ltb_spec (control t) 8); [|lia]. eexists _, _. split; [done|]. by rewrite lookup_insert_eq.
  - intros He. rewrite He in Hu. split; [exact (Hu kind_streams (or_introl eq_refl))|exact (Hu kind_control (or_intror eq_refl))].
Qed.

(** a limited listener never has more than [n] connections open or being accepted,
    counts them exactly, and accepts again as soon as one is closed. *)
Theorem limit_listener_exact n l slots conns :
  0 <= n -> ll_run n l (0, ∅) = (slots, conns) ->
  slots = Z.of_nat (size conns) /\ slots <= n /\
  (forall i, conns !! i = None -> (ll_step n (LSlot i) (slots, conns)).2 !! i = Some false <-> slots < n).
Proof.
  intros Hn E. assert (H0 : ll_ok n (0, ∅)) by (split; [done|exact Hn]).
  pose proof (ll_run_ok n l _ H0) as [Hs Hl]. rewrite E in Hs, Hl. cbn in Hs, Hl. rewrite conns_size in Hs.
  split_and!; [done..|]. intros i Hi. cbn. rewrite Hi. destruct (Z.ltb_spec slots n); cbn.
  - by rewrite lookup_insert_eq.
  - rewrite Hi. split; [done|lia].
Qed.

(** ** Witnesses *)

(** Five connections of one address and one behind the local proxy. *)
Definition demo_arrivals : list gw_event :=
  [GArrive 0 "203.0.113.9"; GArrive 1 "203.0.113.9"; GGlobal 0; GArrive 2 "203.0.113.9"; GArrive 3 "203.0.113.9";
   GArrive 4 "203.0.113.9"; GArrive 5 "127.0.0.1"; GGlobal 5; GFree 0].

Lemma gateway_handshakes_bounded_witness :
  (acquireHandshake "203.0.113.9" (gw_run demo_arrivals gw_start).1).1 = false /\
  taken "203.0.113.9" (omap ip_of (gw_run demo_arrivals gw_start).2) = 4 /\
  handshakes (gw_run demo_arrivals gw_start).1 <= maxAgentHandshakes.
Proof.
  destruct (gateway_handshakes_bounded demo_arrivals (gw_run demo_arrivals gw_start).1 (gw_run demo_arrivals gw_start).2)
    as (H1 & _ & H3 & _); [apply surjective_pairing|].
  split; [vm_compute; reflexivity|]. split; [vm_compute; reflexivity|exact H1].
Defined.

(** User request 7 holds a stream, control request 8 waits. *)
Lemma control_never_starved_witness :
  exists t' reqs', tn_step (TSlot 8) (tn_run [TDo 7 false; TSlot 7; TResponse 7; TDo 8 true] tn_start) = (t', reqs') /\
    reqs' !! 8%nat = Some (kind_control, RRunning).
Proof.
  set (l := [TDo 7 false; TSlot 7; TResponse 7; TDo 8 true]).
  destruct (control_never_starved l (tn_run l tn_start).1 (tn_run l tn_start).2) as (_ & _ & _ & H & _); [apply surjective_pairing|].
  rewrite (surjective_pairing (tn_run l tn_start)). apply H; vm_compute; reflexivity.
Defined.

Lemma limit_listener_exact_witness :
  (ll_run 1 [LSlot 0; LConn 0; LSlot 1; LClose 0; LClose 0; LSlot 1] (0, ∅)).1 <= 1.
Proof.
  set (l := [LSlot 0; LConn 0; LSlot 1; LClose 0; LClose 0; LSlot 1]).
  destruct (limit_listener_exact 1 l (ll_run 1 l (0, ∅)).1 (ll_run 1 l (0, ∅)).2 ltac:(lia)) as (_ & H & _);
    [apply surjective_pairing|exact H].
Defined.
