(* ===== verification/Hub.v ===== *)
(** * Node tunnels and cached servers (agent_hub.go, agent_cache.go)

    The controller's live view of its nodes: at most one tunnel per node, the answer to
    hello, and the last server list, rebuilt from what the node sent.  A tunnel is a
    number.  Every critical section of the hub is one step, so steps of several tunnels
    interleave freely; what a node answers is an input of the step.  Times of a server
    entry are left out. *)

From Stdlib Require Import ZArith Lia Bool String Ascii List.
From Stdlib Require Import SpecFloat.
From stdpp Require Import base gmap strings list sorting fin_maps.
From S2P Require Import Prelude GoStrings Text Validate Authz Version Nodes Query ServerApi Slots.

(** ** What nodes send *)

Record Capabilities := mkCaps {
  cap_Runtime : string; cap_LinuxUsers : bool; cap_CustomInstallDir : bool; cap_ServerPaths : bool; cap_MultiInstance : bool;
  cap_Cron : bool; cap_Autostart : bool; cap_Firewall : bool; cap_SelfUpdate : bool; cap_ScheduleTimeZone : bool }.

Record AgentHello := mkHello {
  h_Version : string; h_Protocol : Z; h_Hostname : string; h_MachineID : string; h_Capabilities : Capabilities;
  h_Mode : string; h_AllowFirewall : bool; h_AllowSelfUpdate : bool; h_Servers : list string;
  h_FastDLURL : string; h_Proxy : bool }.

Record PortProbe := mkProbe {
  pt_Port : Z; pt_Protocol : string; pt_Open : bool; pt_Description : string; pt_ViaProxy : string; pt_Status : string }.

Record DiskUsage := mkDisk {
  d_Used : Z; d_Backups : Z; d_Files : Z; d_FSTotal : Z; d_FSFree : Z; d_FSMount : string; d_Shared : bool;
  d_Scanning : bool; d_Error : string }.

(** [GameServerInstance], as far as it crosses the tunnel. *)
Record server := mkServer {
  s_ID : string; s_Name : string; s_User : string; s_Script : string; s_Dir : string; s_Status : string;
  s_Port : Z; s_Game : string; s_CPU : spec_float; s_RAM : spec_float; s_PIDs : list Z; s_ParsedPorts : list PortProbe;
  s_Tag : string; s_QueryData : QueryInfo; s_Disk : option DiskUsage; s_ProxyAddress : string; s_ProxyAvailable : bool;
  s_Node : string; s_NodeName : string; s_NodeOffline : bool; s_NodeMode : string; s_Capabilities : option Capabilities;
  s_Commands : option (list string) }.

Record HostStats := mkHost {
  hs_CPU : spec_float; hs_CPUCores : Z; hs_CPUModel : string; hs_RAMUsed : spec_float; hs_RAMTotal : spec_float;
  hs_RAMPercent : spec_float; hs_DiskFree : spec_float; hs_DiskTotal : spec_float; hs_DiskPercent : spec_float }.

(** ** Rebuilding what nodes send *)

Definition AgentProtocolVersion : Z := 1.
Definition maxAgentServers : nat := 500.

(** [num], [count] and [port] of [sanitizeNodeServer]. *)
Definition num (v : spec_float) : spec_float :=
  match v with
  | S754_zero _ | S754_finite false _ _ => v
  | S754_nan | S754_infinity _ | S754_finite true _ _ => S754_zero false
  end.
Definition count (v : Z) : Z := if (v <? 0) || (1000000 <? v) then 0 else v.
Definition port (v : Z) : Z := if (v <? 0) || (65535 <? v) then 0 else v.

Definition known_command (c : string) : bool := bool_decide (is_Some (ActionPermission c)) || String.eqb c "send".
Definition add_command (out : list string) (c : string) : list string :=
  if known_command c && negb (mem c out) && (length out <? 64)%nat then (out ++ [c])%list else out.

#[local] Abbreviation text := sanitizeDisplayText.
Definition sanitizeNodeServer (s : server) (nodeID : string) : option server :=
  if negb (IsValidLocalServerID (s_ID s)) then None else
  let q := s_QueryData s in
  Some (mkServer (GlobalServerID nodeID (s_ID s)) (text (s_Name s) 128)
    (if IsValidLinuxUsername (s_User s) then s_User s else "")
    (if IsValidScriptName (s_Script s) then s_Script s else "")
    (text (s_Dir s) 512) (text (s_Status s) 16) (port (s_Port s)) (text (s_Game s) 64) (num (s_CPU s)) (num (s_RAM s)) []
    (map (fun p => mkProbe (port (pt_Port p)) (text (pt_Protocol p) 8) (pt_Open p) (text (pt_Description p) 64) "" "")
       (take 32 (s_ParsedPorts s)))
    ""
    (mkQuery (q_Online q) (text (q_Protocol q) 16) (text (q_Name q) 128) (text (q_Map q) 128)
       (count (q_NumPlayers q)) (count (q_MaxPlayers q)) (count (q_Bots q)) (count (q_Ping q))
       (map (fun p => mkPlayer (text (pi_Name p) 64) (pi_Score p) (text (pi_Time p) 32)) (take 256 (q_Players q))))
    (option_map (fun d => mkDisk (Z.max (d_Used d) 0) (Z.max (d_Backups d) 0) (Z.max (d_Files d) 0) (Z.max (d_FSTotal d) 0)
       (Z.max (d_FSFree d) 0) (text (d_FSMount d) 512) (d_Shared d) false "") (s_Disk s))
    "" false nodeID "" false "" None
    (option_map (fun cs => fold_left add_command cs []) (s_Commands s))).

(** The loop of [fetchNodeServers]; [seen] are the IDs in [acc]. *)
Definition add_server (nodeID : string) (acc : list server) (s : server) : list server :=
  match sanitizeNodeServer s nodeID with
  | Some clean => if mem (s_ID clean) (map s_ID acc) then acc else (acc ++ [clean])%list
  | None => acc
  end.
(** [answer] is what the node sent, or the error. *)
Definition fetchNodeServers (answer : result string (list server)) (nodeID : string) : result string (list server) :=
  let? raw := answer in Ok (fold_left (add_server nodeID) (take maxAgentServers raw) []).

Definition fetchNodeHost (answer : result string HostStats) : result string HostStats :=
  let? s := answer in
  let cores := hs_CPUCores s in
  Ok (mkHost (num (hs_CPU s)) (if (cores <? 0) || (4096 <? cores) then 0 else cores) (sanitizeDisplayText (hs_CPUModel s) 128)
        (num (hs_RAMUsed s)) (num (hs_RAMTotal s)) (num (hs_RAMPercent s))
        (num (hs_DiskFree s)) (num (hs_DiskTotal s)) (num (hs_DiskPercent s))).

(** ** The hub *)

Record NodeStatus := mkStatus {
  st_Online : bool; st_Hello : option AgentHello; st_Compatible : bool; st_EffectiveMode : string;
  st_Host : option HostStats; st_Problem : string }.
Definition zero_status : NodeStatus := mkStatus false None false "" None "".

Record AgentHub := mkHub {
  tunnels : gmap string nat; status : gmap string NodeStatus; servers : gmap string (list server);
  hosts : gmap string HostStats; fastdl : gmap string Z }.
Definition NewAgentHub : AgentHub := mkHub ∅ ∅ ∅ ∅ ∅.

Definition set_tunnels m (h : AgentHub) := mkHub m (status h) (servers h) (hosts h) (fastdl h).
Definition set_status m (h : AgentHub) := mkHub (tunnels h) m (servers h) (hosts h) (fastdl h).
Definition set_servers m (h : AgentHub) := mkHub (tunnels h) (status h) m (hosts h) (fastdl h).
Definition set_hosts m (h : AgentHub) := mkHub (tunnels h) (status h) (servers h) m (fastdl h).
Definition set_fastdl m (h : AgentHub) := mkHub (tunnels h) (status h) (servers h) (hosts h) m.

(** [h.tunnels[nodeID] == client] *)
Definition is_current (nodeID : string) (client : nat) (h : AgentHub) : bool := bool_decide (tunnels h !! nodeID = Some client).

(** [Attach], up to its goroutines: the tunnel that is closed is returned too. *)
Definition Attach (nodeID : string) (client : nat) (h : AgentHub) : option nat * AgentHub :=
  (tunnels h !! nodeID, set_tunnels (<[nodeID := client]> (tunnels h)) h).

(** The goroutine of [Attach] that waits for the end of the tunnel. *)
Definition tunnel_done (nodeID : string) (client : nat) (h : AgentHub) : AgentHub :=
  if is_current nodeID client h then
    let st := default zero_status (status h !! nodeID) in
    set_status (<[nodeID := mkStatus false (st_Hello st) (st_Compatible st) (st_EffectiveMode st) (st_Host st) (st_Problem st)]> (status h))
      (set_tunnels (delete nodeID (tunnels h)) h)
  else h.

Definition setStatus (nodeID : string) (client : nat) (st : NodeStatus) (h : AgentHub) : AgentHub :=
  if is_current nodeID client h || negb (st_Online st) then set_status (<[nodeID := st]> (status h)) h else h.

Section Handshake.
(** [url.Parse]: scheme and host, [None] for an error. *)
Context (url_Parse : string -> option (string * string)).
(** The version of the controller. *)
Context (version : string).

Definition fetchAgentHello (answer : result string AgentHello) : result string AgentHello :=
  let? h := answer in
  let c := h_Capabilities h in
  let bad_url := match url_Parse (h_FastDLURL h) with
                 | None => true
                 | Some (scheme, host) =>
                     (negb (String.eqb scheme "http") && negb (String.eqb scheme "https")) || String.eqb host "" ||
                     (256 <? slen (h_FastDLURL h))
                 end in
  Ok (mkHello (sanitizeDisplayText (h_Version h) 64) (h_Protocol h) (sanitizeDisplayText (h_Hostname h) 64)
        (sanitizeDisplayText (h_MachineID h) 64)
        (mkCaps (sanitizeDisplayText (cap_Runtime c) 32) (cap_LinuxUsers c) (cap_CustomInstallDir c) (cap_ServerPaths c)
           (cap_MultiInstance c) (cap_Cron c) (cap_Autostart c) (cap_Firewall c) (cap_SelfUpdate c) (cap_ScheduleTimeZone c))
        (if IsValidAgentMode (h_Mode h) then h_Mode h else AgentModeReadOnly)
        (h_AllowFirewall h) (h_AllowSelfUpdate h) (List.filter IsValidLocalServerID (h_Servers h))
        (if bad_url then "" else h_FastDLURL h) (h_Proxy h)).

Definition node_error_text (e : node_error) : string :=
  match e with
  | EMachineMismatch => "this node identity is used by another machine; run `agent join` again on the cloned machine"
  | _ => "node not found"
  end.

(** [handshake] up to its last [setStatus]: whether the tunnel may stay, the status to
    be stored, and the registry it leaves. *)
Definition handshake (now : Z) (ok : bool) (nodeID : string) (answer : result string AgentHello) (r : NodeRegistry)
  : bool * NodeStatus * NodeRegistry :=
  match fetchAgentHello answer with
  | Err e => (false, mkStatus false None false "" None ("no valid hello: " +:+ e), r)
  | Ok hello =>
      match CheckMachineID nodeID (h_MachineID hello) r with
      | Some e => (false, mkStatus false (Some hello) false "" None (node_error_text e), r)
      | None =>
          let r := Seen now ok nodeID (h_Version hello) r in
          let mode := match nodes r !! nodeID with Some n => n_Mode n | None => "" end in
          let compatible := AgentVersionsCompatible version (h_Version hello) && (h_Protocol hello =? AgentProtocolVersion) in
          (true,
           mkStatus true (Some hello) compatible (LowerAgentMode mode (h_Mode hello)) None
             (if compatible then "" else
                "update required: the dashboard runs " +:+ version +:+ ", the node " +:+ h_Version hello), r)
      end
  end.
End Handshake.

Definition Tunnel (nodeID : string) (h : AgentHub) : option nat := tunnels h !! nodeID.
Definition Online (nodeID : string) (h : AgentHub) : bool := bool_decide (is_Some (Tunnel nodeID h)).

Definition mode_of (nodeID : string) (r : NodeRegistry) : string :=
  match nodes r !! nodeID with Some n => n_Mode n | None => "" end.

(** [Status]; [r] is the registry when it is read after the hub. *)
Definition Status (nodeID : string) (h : AgentHub) (r : NodeRegistry) : NodeStatus :=
  let st := default zero_status (status h !! nodeID) in
  let online := Online nodeID h in
  mkStatus online (st_Hello st) (online && st_Compatible st)
    (match st_Hello st with Some hello => LowerAgentMode (mode_of nodeID r) (h_Mode hello) | None => st_EffectiveMode st end)
    (match hosts h !! nodeID with Some host => if online then Some host else st_Host st | None => st_Host st end)
    (st_Problem st).

(** [Disconnect]; the tunnel that is closed is returned too. *)
Definition Disconnect (nodeID : string) (h : AgentHub) : option nat * AgentHub :=
  (tunnels h !! nodeID,
   mkHub (delete nodeID (tunnels h)) (delete nodeID (status h)) (delete nodeID (servers h)) (delete nodeID (hosts h)) (fastdl h)).

Definition refreshServers (nodeID : string) (client : nat) (answer : result string (list server)) (h : AgentHub) : AgentHub :=
  match fetchNodeServers answer nodeID with
  | Ok l => if is_current nodeID client h then set_servers (<[nodeID := l]> (servers h)) h else h
  | Err _ => h
  end.
(** The host statistics of [pollServers]. *)
Definition refreshHost (nodeID : string) (client : nat) (answer : result string HostStats) (h : AgentHub) : AgentHub :=
  match fetchNodeHost answer with
  | Ok host => if is_current nodeID client h then set_hosts (<[nodeID := host]> (hosts h)) h else h
  | Err _ => h
  end.

Definition maxFastDLStreamsPerNode : Z := 32.
Definition TryFastDLSlot (nodeID : string) (h : AgentHub) : option AgentHub :=
  option_map (fun m => set_fastdl m h) (take_key maxFastDLStreamsPerNode nodeID (fastdl h)).
(** The function [TryFastDLSlot] returns, at its first call. *)
Definition releaseFastDLSlot (nodeID : string) (h : AgentHub) : AgentHub := set_fastdl (give_key nodeID (fastdl h)) h.

(** ** The servers of all nodes *)

Definition server_le (a b : server) : Prop := String.leb (s_ID a) (s_ID b) = true.
#[export] Instance server_le_dec a b : Decision (server_le a b).
Proof. unfold server_le. apply _. Defined.

(** One server as it is listed. *)
Definition listed (name mode : string) (online : bool) (caps : option Capabilities) (s : server) : server :=
  let q := s_QueryData s in
  mkServer (s_ID s) (s_Name s) (s_User s) (s_Script s) (s_Dir s) (s_Status s) (s_Port s) (s_Game s)
    (if online then s_CPU s else S754_zero false) (if online then s_RAM s else S754_zero false) (s_PIDs s) (s_ParsedPorts s) (s_Tag s)
    (mkQuery (online && q_Online q) (q_Protocol q) (q_Name q) (q_Map q) (q_NumPlayers q) (q_MaxPlayers q) (q_Bots q) (q_Ping q) (q_Players q))
    (s_Disk s) (s_ProxyAddress s) (s_ProxyAvailable s) (s_Node s) name (negb online) mode caps (s_Commands s).

Definition servers_of (h : AgentHub) (r : NodeRegistry) (e : string * list server) : list server :=
  match nodes r !! e.1 with
  | None => []
  | Some n =>
      let hello := match status h !! e.1 with Some st => st_Hello st | None => None end in
      map (listed (n_Name n)
             (match hello with Some x => LowerAgentMode (n_Mode n) (h_Mode x) | None => AgentModeReadOnly end)
             (Online e.1 h) (option_map h_Capabilities hello)) e.2
  end.

(** [NodeServers]; [r] is the registry as it was listed before. *)
Definition NodeServers (h : AgentHub) (r : NodeRegistry) : list server :=
  merge_sort server_le (flat_map (servers_of h r) (map_to_list (servers h))).
Definition NodeServer (globalID : string) (h : AgentHub) (r : NodeRegistry) : option server :=
  if String.eqb (SplitServerID globalID).1 "" then None
  else find (fun s => String.eqb (s_ID s) globalID) (NodeServers h r).

(** ** Runs: steps of several tunnels, interleaved *)

Inductive event :=
| EAttach (nodeID : string) (client : nat)
| EHello (nodeID : string) (client : nat) (answer : result string AgentHello) (now : Z) (ok : bool)
    (** the checks of [handshake] *)
| EStore (i : nat) (** a handshake stores the status it found and closes a rejected tunnel *)
| EClose (client : nat) (** the tunnel ends, for whatever reason *)
| EDone (nodeID : string) (client : nat) (** [Attach] has seen it *)
| ERefresh (nodeID : string) (client : nat) (answer : result string (list server))
| EHost (nodeID : string) (client : nat) (answer : result string HostStats)
| EDisconnect (nodeID : string)
| ERegistry (s : step) (** any operation on the registry *)
| ESlot (nodeID : string) (slot : nat)
| ERelease (slot : nat).

(** [w_pending] are handshakes that have not stored their status yet, [w_opened] and
    [w_closed] tunnels, [w_slots] the FastDL slots that were not given back. *)
Record world := mkWorld {
  w_hub : AgentHub; w_reg : NodeRegistry; w_pending : list (string * nat * bool * NodeStatus);
  w_opened : gset nat; w_closed : gset nat; w_slots : gmap nat string }.

Definition on_hub (f : AgentHub -> AgentHub) (w : world) : world :=
  mkWorld (f (w_hub w)) (w_reg w) (w_pending w) (w_opened w) (w_closed w) (w_slots w).
Definition close (c : option nat) (w : world) : world :=
  mkWorld (w_hub w) (w_reg w) (w_pending w) (w_opened w)
    (match c with Some c => {[c]} ∪ w_closed w | None => w_closed w end) (w_slots w).

Section Runs.
Context `{X509} (url_Parse : string -> option (string * string)) (version : string).

Definition hub_step (e : event) (w : world) : world :=
  match e with
  | EAttach nodeID c =>
      if decide (c ∈ w_opened w) then w else
      let '(old, h) := Attach nodeID c (w_hub w) in
      close old (mkWorld h (w_reg w) (w_pending w) ({[c]} ∪ w_opened w) (w_closed w) (w_slots w))
  | EHello nodeID c answer now ok =>
      let '(good, st, r) := handshake url_Parse version now ok nodeID answer (w_reg w) in
      mkWorld (w_hub w) r (w_pending w ++ [(nodeID, c, good, st)])%list (w_opened w) (w_closed w) (w_slots w)
  | EStore i =>
      match w_pending w !! i with
      | None => w
      | Some (nodeID, c, good, st) =>
          let w := on_hub (setStatus nodeID c st) w in
          let w := mkWorld (w_hub w) (w_reg w) (delete i (w_pending w)) (w_opened w) (w_closed w) (w_slots w) in
          close (if good : bool then None else Some c) w
      end
  | EClose c => close (Some c) w
  | EDone nodeID c => if decide (c ∈ w_closed w) then on_hub (tunnel_done nodeID c) w else w
  | ERefresh nodeID c answer => on_hub (refreshServers nodeID c answer) w
  | EHost nodeID c answer => on_hub (refreshHost nodeID c answer) w
  | EDisconnect nodeID => let '(old, h) := Disconnect nodeID (w_hub w) in close old (on_hub (fun _ => h) w)
  | ERegistry s => mkWorld (w_hub w) (exec s (w_reg w)).2 (w_pending w) (w_opened w) (w_closed w) (w_slots w)
  | ESlot nodeID i =>
      match w_slots w !! i, TryFastDLSlot nodeID (w_hub w) with
      | None, Some h => mkWorld h (w_reg w) (w_pending w) (w_opened w) (w_closed w) (<[i := nodeID]> (w_slots w))
      | _, _ => w
      end
  | ERelease i =>
      match w_slots w !! i with
      | Some nodeID =>
          mkWorld (releaseFastDLSlot nodeID (w_hub w)) (w_reg w) (w_pending w) (w_opened w) (w_closed w) (delete i (w_slots w))
      | None => w (** [sync.Once] *)
      end
  end.

Fixpoint hub_run (l : list event) (w : world) : world :=
  match l with [] => w | e :: t => hub_run t (hub_step e w) end.

Definition start (r : NodeRegistry) : world := mkWorld NewAgentHub r [] ∅ ∅ ∅.
End Runs.

(** ** Lemmas: what nodes send is rebuilt *)

(** No control bytes, and at most [n] runes. *)
Definition clean_text (n : nat) (s : string) : Prop :=
  sall (fun c => negb (is_ctl c)) s = true /\ (length (runes (to_bytes s)) <= n)%nat.

Lemma clean_sanitize s n m : (n <= m)%nat -> clean_text m (sanitizeDisplayText s n).
Proof. intros H. destruct (sanitize_ok s n) as (H1 & H2 & _). split; [exact H1|lia]. Qed.
Lemma clean_empty n : clean_text n "".
Proof. split; [done|]. vm_compute. lia. Qed.
Create HintDb hub.
#[local] Hint Extern 1 (clean_text _ (sanitizeDisplayText _ _)) => (apply clean_sanitize; lia) : hub.
#[local] Hint Resolve clean_empty : hub.

Definition num_ok (v : spec_float) : Prop :=
  match v with S754_zero _ | S754_finite false _ _ => True | _ => False end.
Lemma num_clean v : num_ok (num v).
Proof. by destruct v as [|[]| |[]]. Qed.
Lemma count_clean v : 0 <= count v <= 1000000.
Proof. unfold count. case_match; to_prop; lia. Qed.
Lemma port_clean v : 0 <= port v <= 65535.
Proof. unfold port. case_match; to_prop; lia. Qed.

(** A list of commands the dashboard may show. *)
Definition commands_ok (cs : list string) : Prop :=
  NoDup cs /\ (length cs <= 64)%nat /\ Forall (fun c => c = "send" \/ is_Some (ActionPermission c)) cs.

Lemma add_commands_ok cs : forall out, commands_ok out -> commands_ok (fold_left add_command cs out).
Proof.
  induction cs as [|c cs IH]; intros out Ho; [done|]. apply IH. unfold add_command.
  destruct (known_command c) eqn:Ek; cbn [andb]; [|done]. destruct (mem c out) eqn:Em; cbn [negb andb]; [done|].
  destruct (Nat.ltb_spec (length out) 64) as [Hlt|]; [|done].
  destruct Ho as (H1 & H2 & H3). apply mem_false in Em. split_and!.
  - apply NoDup_app. split_and!; [done| |apply NoDup_singleton].
    intros x Hx ->%list_elem_of_singleton. apply Em. by apply list_elem_of_In.
  - rewrite length_app. simpl. lia.
  - apply Forall_app. split; [done|]. apply Forall_singleton. unfold known_command in Ek. to_prop.
    destruct Ek as [|]; to_prop; [by right|by left].
Qed.

(** What is known of an entry of [nodeID], whatever the node sent. *)
Record clean_server (nodeID : string) (s : server) : Prop := {
  cs_id : exists local, s_ID s = GlobalServerID nodeID local /\ IsValidLocalServerID local = true;
  cs_node : s_Node s = nodeID;
  cs_user : s_User s = "" \/ IsValidLinuxUsername (s_User s) = true;
  cs_script : s_Script s = "" \/ IsValidScriptName (s_Script s) = true;
  cs_texts : clean_text 128 (s_Name s) /\ clean_text 512 (s_Dir s) /\ clean_text 16 (s_Status s) /\ clean_text 64 (s_Game s);
  cs_numbers : 0 <= s_Port s <= 65535 /\ num_ok (s_CPU s) /\ num_ok (s_RAM s);
  cs_dropped : s_PIDs s = [] /\ s_Tag s = "" /\ s_ProxyAddress s = "" /\ s_ProxyAvailable s = false;
  cs_ports : (length (s_ParsedPorts s) <= 32)%nat /\
    Forall (fun p => 0 <= pt_Port p <= 65535 /\ clean_text 8 (pt_Protocol p) /\ clean_text 64 (pt_Description p) /\
                     pt_ViaProxy p = "" /\ pt_Status p = "") (s_ParsedPorts s);
  cs_query : let q := s_QueryData s in clean_text 16 (q_Protocol q) /\ clean_text 128 (q_Name q) /\ clean_text 128 (q_Map q) /\
    Forall (fun n => 0 <= n <= 1000000) [q_NumPlayers q; q_MaxPlayers q; q_Bots q; q_Ping q];
  cs_players : (length (q_Players (s_QueryData s)) <= 256)%nat /\
    Forall (fun p => clean_text 64 (pi_Name p) /\ clean_text 32 (pi_Time p)) (q_Players (s_QueryData s));
  cs_disk : forall d, s_Disk s = Some d -> Forall (Z.le 0) [d_Used d; d_Backups d; d_Files d; d_FSTotal d; d_FSFree d] /\
    clean_text 512 (d_FSMount d) /\ d_Error d = "";
  cs_commands : forall l, s_Commands s = Some l -> commands_ok l
}.

Lemma length_take_le {A} n (l : list A) : (length (take n l) <= n)%nat.
Proof. rewrite length_take. lia. Qed.

Lemma sanitize_server_clean s nodeID c : sanitizeNodeServer s nodeID = Some c -> clean_server nodeID c.
Proof.
  unfold sanitizeNodeServer. destruct (IsValidLocalServerID (s_ID s)) eqn:Eid; [|done]. cbn [negb]. intros [= <-].
  split; cbn -[sanitizeDisplayText take commands_ok clean_text num_ok num count port].
  - by exists (s_ID s).
  - done.
  - destruct (IsValidLinuxUsername (s_User s)) eqn:E; [by right|by left].
  - destruct (IsValidScriptName (s_Script s)) eqn:E; [by right|by left].
  - split_and!; auto with hub.
  - pose proof (port_clean (s_Port s)). split_and!; auto using num_clean; lia.
  - done.
  - split; [rewrite length_map; apply length_take_le|]. apply Forall_map, Forall_forall. intros p _. cbn -[sanitizeDisplayText clean_text port].
    pose proof (port_clean (pt_Port p)). split_and!; auto with hub; lia.
  - split_and!; auto with hub. repeat constructor; apply count_clean.
  - split; [rewrite length_map; apply length_take_le|]. apply Forall_map, Forall_forall. intros p _. split; cbn -[sanitizeDisplayText clean_text]; auto with hub.
  - intros d Hd. destruct (s_Disk s) as [d0|]; [|done]. injection Hd as <-. cbn -[sanitizeDisplayText clean_text].
    split_and!; [repeat constructor; lia|auto with hub|done].
  - intros l Hl. destruct (s_Commands s) as [cs|]; [|done]. injection Hl as <-. apply add_commands_ok.
    split_and!; [constructor|simpl; lia|constructor].
Qed.

(** A cached list. *)
Definition clean_list (nodeID : string) (l : list server) : Prop :=
  Forall (clean_server nodeID) l /\ NoDup (map s_ID l) /\ (length l <= maxAgentServers)%nat.

Lemma add_servers_clean nodeID raw : forall acc, Forall (clean_server nodeID) acc -> NoDup (map s_ID acc) ->
  let l := fold_left (add_server nodeID) raw acc in
  Forall (clean_server nodeID) l /\ NoDup (map s_ID l) /\ (length l <= length acc + length raw)%nat.
Proof.
  induction raw as [|s raw IH]; intros acc H1 H2; [split_and!; [done..|simpl; lia]|]. cbn [fold_left length].
  assert (Ha : Forall (clean_server nodeID) (add_server nodeID acc s) /\ NoDup (map s_ID (add_server nodeID acc s)) /\
    (length (add_server nodeID acc s) <= S (length acc))%nat).
  { unfold add_server. destruct (sanitizeNodeServer s nodeID) as [c|] eqn:E; [|split_and!; [done..|lia]].
    destruct (mem _ _) eqn:Em; [split_and!; [done..|lia]|]. apply mem_false in Em.
    rewrite map_app, length_app. split_and!; [|apply NoDup_app; split_and!|simpl; lia]; try done.
    - apply Forall_app. split; [done|]. by apply Forall_singleton, (sanitize_server_clean s).
    - intros x Hx ->%list_elem_of_singleton. apply Em. by apply list_elem_of_In.
    - apply NoDup_singleton. }
  destruct Ha as (Ha1 & Ha2 & Ha3). destruct (IH _ Ha1 Ha2) as (? & ? & ?). split_and!; [done..|lia].
Qed.

Lemma fetch_servers_clean answer nodeID l : fetchNodeServers answer nodeID = Ok l -> clean_list nodeID l.
Proof.
  unfold fetchNodeServers. destruct answer as [raw|]; [|done]. intros [= <-].
  destruct (add_servers_clean nodeID (take maxAgentServers raw) []) as (H1 & H2 & H3); [constructor..|].
  split_and!; [done..|]. pose proof (length_take_le maxAgentServers raw). simpl in H3. lia.
Qed.

(** ** Lemmas: the invariant *)

Section Invariant.
Context `{X509} (url_Parse : string -> option (string * string)) (version : string).
Abbreviation step := (hub_step url_Parse version).
Abbreviation run := (hub_run url_Parse version).

(** What is known of an answer to hello. *)
Record clean_hello (x : AgentHello) : Prop := {
  ch_texts : clean_text 64 (h_Version x) /\ clean_text 64 (h_Hostname x) /\ clean_text 64 (h_MachineID x) /\
             clean_text 32 (cap_Runtime (h_Capabilities x));
  ch_mode : IsValidAgentMode (h_Mode x) = true;
  ch_servers : Forall (fun id => IsValidLocalServerID id = true) (h_Servers x);
  ch_url : h_FastDLURL x = "" \/ slen (h_FastDLURL x) <= 256 /\
           exists scheme host, url_Parse (h_FastDLURL x) = Some (scheme, host) /\ (scheme = "http" \/ scheme = "https") /\ host <> ""
}.

Lemma fetch_hello_clean answer x : fetchAgentHello url_Parse answer = Ok x -> clean_hello x.
Proof.
  unfold fetchAgentHello. destruct answer as [y|]; [|done]. cbn zeta. intros [= <-].
  split; cbn -[sanitizeDisplayText clean_text IsValidAgentMode slen].
  - split_and!; auto with hub.
  - by destruct (IsValidAgentMode (h_Mode y)) eqn:E.
  - apply Forall_forall. intros id Hid%list_elem_of_In. by apply filter_In in Hid as [_ Hid].
  - destruct (url_Parse (h_FastDLURL y)) as [[scheme host]|] eqn:Eu; [|by left].
    match goal with |- context [if ?b then _ else _] => destruct b eqn:E end; [by left|right]. to_prop.
    split; [lia|]. exists scheme, host. rewrite Eu. split_and!; [done| |done].
    match goal with H : _ \/ _ |- _ => destruct H end; to_prop; auto.
Qed.

(** A status is that of a tunnel whose node passed every check, or a failure. *)
Definition status_ok (st : NodeStatus) : Prop :=
  st_Host st = None /\
  match st_Hello st with
  | None => st_Compatible st = false /\ st_EffectiveMode st = ""
  | Some x => clean_hello x /\
      (st_Compatible st = true ->
         AgentVersionsCompatible version (h_Version x) = true /\ h_Protocol x = AgentProtocolVersion /\ st_Problem st = "")
  end.

Lemma handshake_ok now ok nodeID answer r good st r' :
  handshake url_Parse version now ok nodeID answer r = (good, st, r') -> registry_ok r ->
  status_ok st /\ st_Online st = good /\ registry_ok r'.
Proof.
  unfold handshake. intros E Hr. destruct (fetchAgentHello url_Parse answer) as [x|e] eqn:Ef; [|by injection E as <- <- <-].
  apply fetch_hello_clean in Ef. destruct (CheckMachineID _ _ _) as [e|]; [by injection E as <- <- <-|].
  injection E as <- <- <-. cbn zeta. split_and!; [|done|].
  - split; [done|]. cbn [st_Hello st_Compatible st_Problem]. split; [done|]. intros Hc. rewrite Hc. to_prop. by split_and!.
  - exact (exec_ok (mkStep (OSeen nodeID (h_Version x)) now ok) r Hr).
Qed.

Record world_ok (w : world) : Prop := {
  wo_reg : registry_ok (w_reg w);
  wo_status : map_Forall (fun _ => status_ok) (status (w_hub w));
  wo_pending : Forall (fun p => status_ok p.2 /\ st_Online p.2 = p.1.2) (w_pending w);
  wo_servers : map_Forall clean_list (servers (w_hub w));
  wo_opened nodeID c : tunnels (w_hub w) !! nodeID = Some c -> c ∈ w_opened w;
  wo_one n1 n2 c : tunnels (w_hub w) !! n1 = Some c -> tunnels (w_hub w) !! n2 = Some c -> n1 = n2;
  wo_left c : c ∈ w_opened w -> c ∈ w_closed w \/ exists nodeID, tunnels (w_hub w) !! nodeID = Some c;
  wo_slots : counted maxFastDLStreamsPerNode (fastdl (w_hub w)) (w_slots w)
}.

Lemma start_ok r : registry_ok r -> world_ok (start r).
Proof.
  intros Hr. split; cbn; try done; try apply map_Forall_empty; try (by apply counted_empty); try constructor; try set_solver.
Qed.

Lemma close_ok c w : world_ok w -> world_ok (close c w).
Proof. intros []. split; cbn; try done. intros d Hd. destruct (wo_left0 d Hd) as [|?]; [left; destruct c; set_solver|by right]. Qed.

(** A step that leaves the tunnels and slots alone. *)
Lemma hub_changed h w : world_ok w -> tunnels h = tunnels (w_hub w) -> fastdl h = fastdl (w_hub w) ->
  map_Forall (fun _ => status_ok) (status h) -> map_Forall clean_list (servers h) -> world_ok (on_hub (fun _ => h) w).
Proof. intros [] Ht Hf Hs Hl. split; cbn; rewrite ?Ht, ?Hf; done. Qed.

Lemma set_status_ok nodeID c st w : world_ok w -> status_ok st -> world_ok (on_hub (setStatus nodeID c st) w).
Proof.
  intros Hw Hst. apply (hub_changed (setStatus nodeID c st (w_hub w)) w Hw); unfold setStatus; destruct (_ || _); try done;
    try apply Hw. cbn. apply map_Forall_insert_2; [done|apply Hw].
Qed.

Lemma pending_tail w ps r : world_ok w -> registry_ok r -> Forall (fun p => status_ok p.2 /\ st_Online p.2 = p.1.2) ps ->
  world_ok (mkWorld (w_hub w) r ps (w_opened w) (w_closed w) (w_slots w)).
Proof. intros [] Hr Hp. by split. Qed.

Lemma attach_ok nodeID c w : world_ok w -> world_ok (step (EAttach nodeID c) w).
Proof.
  intros Hw. cbn. destruct (decide (c ∈ w_opened w)) as [|Hc]; [done|]. cbn.
  assert (Hne : forall n, tunnels (w_hub w) !! n <> Some c) by (intros n Hn; by apply Hc, (wo_opened _ Hw n)).
  destruct Hw. split; cbn; try done.
  - intros n d. destruct (decide (n = nodeID)) as [->|Hn]; [rewrite lookup_insert_eq|rewrite lookup_insert_ne by done].
    + intros [= ->]. set_solver.
    + intros Hd%wo_opened0. set_solver.
  - intros n1 n2 d. destruct (decide (n1 = nodeID)) as [->|H1], (decide (n2 = nodeID)) as [->|H2];
      rewrite ?lookup_insert_eq, ?lookup_insert_ne by done; try done.
    + intros [= <-] H2'. by apply Hne in H2'.
    + intros H1' [= <-]. by apply Hne in H1'.
    + apply wo_one0.
  - intros d [->%elem_of_singleton|Hd]%elem_of_union; [right; exists nodeID; by rewrite lookup_insert_eq|].
    destruct (wo_left0 d Hd) as [Hd'|[n Hn]]; [left; destruct (tunnels (w_hub w) !! nodeID); set_solver|].
    destruct (decide (n = nodeID)) as [->|Hne']; [left; rewrite Hn; set_solver|].
    right. exists n. by rewrite lookup_insert_ne.
Qed.

Lemma store_ok i w : world_ok w -> world_ok (step (EStore i) w).
Proof.
  intros Hw. cbn. destruct (w_pending w !! i) as [[[[n c] good] st]|] eqn:Ei; [|done]. apply close_ok.
  assert (Hst : status_ok st) by exact (proj1 (proj1 (Forall_lookup _ _) (wo_pending _ Hw) i _ Ei)).
  apply (pending_tail (on_hub (setStatus n c st) w)); [by apply set_status_ok|apply Hw|].
  by apply Forall_delete, Hw.
Qed.

(** A tunnel leaves its node: it is closed by then. *)
Lemma leave_ok nodeID h w : world_ok w -> (forall c, tunnels (w_hub w) !! nodeID = Some c -> c ∈ w_closed w) ->
  tunnels h = delete nodeID (tunnels (w_hub w)) -> fastdl h = fastdl (w_hub w) ->
  map_Forall (fun _ => status_ok) (status h) -> map_Forall clean_list (servers h) -> world_ok (on_hub (fun _ => h) w).
Proof.
  intros [] Hc Ht Hf Hs Hl. split; cbn; rewrite ?Ht, ?Hf; try done.
  - intros n c [_ Hn]%lookup_delete_Some. by eapply wo_opened0.
  - intros n1 n2 c [_ H1]%lookup_delete_Some [_ H2]%lookup_delete_Some. by eapply wo_one0.
  - intros c Hd. destruct (wo_left0 c Hd) as [|[n Hn]]; [by left|].
    destruct (decide (n = nodeID)) as [->|Hne]; [left; by apply Hc|]. right. exists n. by rewrite lookup_delete_ne.
Qed.

Lemma done_ok nodeID c w : world_ok w -> world_ok (step (EDone nodeID c) w).
Proof.
  intros Hw. cbn. destruct (decide (c ∈ w_closed w)) as [Hc|]; [|done].
  unfold on_hub. change (world_ok (on_hub (fun _ => tunnel_done nodeID c (w_hub w)) w)).
  unfold tunnel_done, is_current. case_bool_decide as E; [|by apply (hub_changed (w_hub w) w); try apply Hw].
  apply (leave_ok nodeID); cbn; try done; [by intros d; rewrite E; intros [= <-]| |apply Hw].
  apply map_Forall_insert_2; [|apply Hw]. pose proof (wo_status _ Hw nodeID) as Hs. cbn in Hs.
  destruct (status (w_hub w) !! nodeID) as [st|]; [exact (Hs st eq_refl)|done].
Qed.

Lemma disconnect_ok nodeID w : world_ok w -> world_ok (step (EDisconnect nodeID) w).
Proof.
  intros Hw. cbn. set (h := mkHub _ _ _ _ _).
  apply (leave_ok nodeID h (close (tunnels (w_hub w) !! nodeID) w)); cbn; try done; [by apply close_ok| | |].
  - intros c ->. set_solver.
  - intros n st [_ Hn]%lookup_delete_Some. by apply (wo_status _ Hw n).
  - intros n l [_ Hn]%lookup_delete_Some. by apply (wo_servers _ Hw n).
Qed.

Lemma slot_ok nodeID i w : world_ok w -> world_ok (step (ESlot nodeID i) w).
Proof.
  intros Hw. cbn. destruct (w_slots w !! i) as [|] eqn:Ei; [done|]. unfold TryFastDLSlot.
  destruct (take_key _ _ _) as [m|] eqn:Et; [|done]. cbn. destruct Hw. split; cbn; try done. by eapply counted_take.
Qed.

Lemma release_ok i w : world_ok w -> world_ok (step (ERelease i) w).
Proof.
  intros Hw. cbn. destruct (w_slots w !! i) as [m|] eqn:Ei; [|done]. destruct Hw. split; cbn; try done. by apply counted_give.
Qed.

Lemma step_ok e w : world_ok w -> world_ok (step e w).
Proof.
  intros Hw. destruct e.
  - by apply attach_ok.
  - cbn. destruct (handshake _ _ _ _ _ _ _) as [[good st] r] eqn:E.
    destruct (handshake_ok _ _ _ _ _ _ _ _ E (wo_reg _ Hw)) as (H1 & H2 & H3).
    apply pending_tail; [done..|]. apply Forall_app. split; [apply Hw|]. by apply Forall_singleton.
  - by apply store_ok.
  - by apply close_ok.
  - by apply done_ok.
  - apply (hub_changed (refreshServers nodeID client answer (w_hub w)) w Hw); unfold refreshServers;
      destruct (fetchNodeServers answer nodeID) as [l|] eqn:El; try destruct (is_current nodeID client (w_hub w)); try done; try apply Hw.
    apply map_Forall_insert_2; [by eapply fetch_servers_clean|apply Hw].
  - apply (hub_changed (refreshHost nodeID client answer (w_hub w)) w Hw); unfold refreshHost;
      destruct (fetchNodeHost answer); try destruct (is_current nodeID client (w_hub w)); try done; apply Hw.
  - by apply disconnect_ok.
  - apply pending_tail; [done|apply exec_ok, Hw|apply Hw].
  - by apply slot_ok.
  - by apply release_ok.
Qed.

Lemma run_ok l : forall w, world_ok w -> world_ok (run l w).
Proof. induction l as [|e l IH]; intros w Hw; [done|]. by apply IH, step_ok. Qed.

(** ** Lemmas: the list of all nodes *)

Lemma servers_of_spec h r e s : s ∈ servers_of h r e -> exists n s0, nodes r !! e.1 = Some n /\ s0 ∈ e.2 /\
  s = listed (n_Name n) (match status h !! e.1 with Some st => match st_Hello st with Some x => LowerAgentMode (n_Mode n) (h_Mode x) | None => AgentModeReadOnly end | None => AgentModeReadOnly end)
        (Online e.1 h) (option_map h_Capabilities (match status h !! e.1 with Some st => st_Hello st | None => None end)) s0.
Proof.
  unfold servers_of. destruct (nodes r !! e.1) as [n|]; [|by intros ?%not_elem_of_nil].
  intros (s0 & -> & Hs)%list_elem_of_fmap. exists n, s0. split_and!; [done..|]. by destruct (status h !! e.1) as [[? [|] ? ? ? ?]|].
Qed.

Lemma node_servers_spec h r s : s ∈ NodeServers h r <-> exists nodeID l, servers h !! nodeID = Some l /\ s ∈ servers_of h r (nodeID, l).
Proof.
  unfold NodeServers. rewrite merge_sort_Permutation, list_elem_of_In, in_flat_map. split.
  - intros ([n l] & Hin & Hs). exists n, l. rewrite <- list_elem_of_In in Hin. apply elem_of_map_to_list in Hin. split; [done|]. by apply list_elem_of_In.
  - intros (n & l & Hl & Hs). exists (n, l). rewrite <- !list_elem_of_In. split; [by apply elem_of_map_to_list|done].
Qed.

Lemma listed_id name mode online caps s : s_ID (listed name mode online caps s) = s_ID s.
Proof. done. Qed.

Lemma node_servers_ids h r : map_Forall clean_list (servers h) -> registry_ok r -> NoDup (map s_ID (NodeServers h r)).
Proof.
  intros Hc Hr. assert (Hp : map s_ID (NodeServers h r) ≡ₚ map s_ID (flat_map (servers_of h r) (map_to_list (servers h))))
    by (apply fmap_Permutation, merge_sort_Permutation). rewrite Hp. clear Hp.
  assert (Hall : Forall (fun e : string * list server => clean_list e.1 e.2) (map_to_list (servers h))).
  { apply Forall_forall. intros [n l] Hin%elem_of_map_to_list. by apply Hc. }
  pose proof (NoDup_fst_map_to_list (servers h)) as Hnd. induction (map_to_list (servers h)) as [|[n l] rest IH]; [constructor|].
  apply Forall_cons in Hall as [H1 H2]. cbn [fmap list_fmap] in Hnd. apply NoDup_cons in Hnd as [Hn Hnd].
  cbn [flat_map]. rewrite map_app. apply NoDup_app. split_and!.
  - unfold servers_of. destruct (nodes r !! (n, l).1); [|constructor]. rewrite map_map.
    erewrite map_ext; [apply H1|]. done.
  - intros id (s & -> & Hs)%list_elem_of_fmap (s' & E & Hs')%list_elem_of_fmap.
    apply list_elem_of_In, in_flat_map in Hs' as ([n' l'] & Hin & Hs'). apply list_elem_of_In in Hin, Hs'.
    apply servers_of_spec in Hs as (x & s0 & Hx & Hs0 & ->). apply servers_of_spec in Hs' as (x' & s0' & Hx' & Hs0' & ->).
    rewrite !listed_id in E. cbn [fst snd] in *.
    assert (Hc0 : clean_server n s0) by (apply (proj1 (Forall_forall _ _) (proj1 H1)); done).
    rewrite Forall_forall in H2. specialize (H2 _ Hin). assert (Hc0' : clean_server n' s0') by (apply (proj1 (Forall_forall _ _) (proj1 H2)); done).
    destruct (cs_id _ _ Hc0) as (i & Ei & _), (cs_id _ _ Hc0') as (i' & Ei' & _). rewrite Ei, Ei' in E.
    assert (Hv : forall m y, nodes r !! m = Some y -> IsValidNodeID m = true) by (intros m y Hy; destruct (ro_nodes _ Hr m y Hy) as (<- & ? & _); done).
    pose proof (split_global n i (Hv _ _ Hx)) as Ha. rewrite E, split_global in Ha by by eapply Hv. injection Ha as -> _.
    apply Hn. apply list_elem_of_fmap. by exists (n, l').
  - by apply IH.
Qed.
End Invariant.

(** ** What the request handlers see *)

(** [app.serverExists] and [app.nodeTunnel] read the hub at three moments. *)
Definition view (w1 w2 w3 : world) (a : app) : app :=
  mkApp (agentMode a) (policy a) (localExists a)
    (fun id => bool_decide (is_Some (NodeServer id (w_hub w1) (w_reg w1))))
    (fun n => let st := Status n (w_hub w2) (w_reg w2) in
              mkNodeState (Online n (w_hub w3)) (st_Online st) (st_Compatible st) (st_EffectiveMode st))
    (slotFree a) (proxyHost a) (fastDLMode a).

(** * Properties *)

Section Properties.
Context `{X509} (url_Parse : string -> option (string * string)) (version : string).
Abbreviation reach r0 l := (hub_run url_Parse version l (start r0)).

(** What a status says. *)
Lemma status_checked w r node : world_ok url_Parse version w ->
  let st := Status node (w_hub w) r in
  (st_Online st = true <-> is_Some (tunnels (w_hub w) !! node)) /\
  (st_Compatible st = true -> st_Online st = true /\ exists x, st_Hello st = Some x /\ clean_hello url_Parse x /\
     AgentVersionsCompatible version (h_Version x) = true /\ h_Protocol x = AgentProtocolVersion) /\
  (st_EffectiveMode st = AgentModeReadWrite -> exists x n, st_Hello st = Some x /\ nodes r !! node = Some n /\
     n_Mode n = AgentModeReadWrite /\ h_Mode x = AgentModeReadWrite) /\
  (is_Some (st_Host st) -> st_Online st = true).
Proof.
  intros Hw. cbn zeta. unfold Status. cbn [st_Online st_Hello st_Compatible st_EffectiveMode st_Host].
  set (st := default zero_status (status (w_hub w) !! node)).
  assert (Hst : status_ok url_Parse version st).
  { unfold st. destruct (status (w_hub w) !! node) as [x|] eqn:E; [exact (wo_status _ _ _ Hw node x E)|by split]. }
  destruct Hst as [Hh Hst]. split; [unfold Online, Tunnel; apply bool_decide_eq_true|]. split; [|split].
  - intros [Ho Hc]%andb_true_iff. split; [done|]. destruct (st_Hello st) as [x|]; [|by destruct Hst as [Hx _]; rewrite Hx in Hc].
    exists x. destruct Hst as [Hx Hst]. destruct (Hst Hc) as (? & ? & _). done.
  - destruct (st_Hello st) as [x|]; [|destruct Hst as [_ He]; by rewrite He]. unfold LowerAgentMode, mode_of.
    destruct (nodes r !! node) as [n|]; [|discriminate]. destruct (String.eqb_spec (n_Mode n) AgentModeReadWrite); [|discriminate].
    destruct (String.eqb_spec (h_Mode x) AgentModeReadWrite); [|discriminate]. intros _. by exists x, n.
  - rewrite Hh. destruct (hosts (w_hub w) !! node); [|by intros []]. destruct (Online node (w_hub w)); [done|by intros []].
Qed.

(** Each listed server belongs to a paired node. *)
Lemma listed_paired w r s node local : world_ok url_Parse version w -> registry_ok r -> IsValidNodeID node = true ->
  s ∈ NodeServers (w_hub w) r -> s_ID s = GlobalServerID node local -> is_Some (nodes r !! node).
Proof.
  intros Hw Hr Hv (node' & srvs & Hl & Hs)%node_servers_spec Hid.
  apply servers_of_spec in Hs as (n & s0 & Hn & Hs0 & ->). cbn [fst snd] in *. rewrite listed_id in Hid.
  pose proof (wo_servers _ _ _ Hw node' srvs Hl) as (Hcl & _). rewrite Forall_forall in Hcl. specialize (Hcl _ Hs0).
  destruct (cs_id _ _ Hcl) as (local' & Hid' & _). rewrite Hid in Hid'.
  assert (Hvn : IsValidNodeID node' = true) by (destruct (ro_nodes _ Hr node' n Hn) as (<- & ? & _); done).
  apply (f_equal SplitServerID) in Hid'. rewrite !split_global in Hid' by done. injection Hid' as -> _. by eexists.
Qed.

(** C38: whatever the nodes send and in whatever order tunnels open, answer and end, the
    controller's server list names only servers of paired nodes, each under the ID of
    its own node, no ID twice, and every field a browser or a permission check relies on
    is rebuilt: a node cannot present a server of another node or of the controller. *)
Theorem node_servers_contained r0 l w r :
  registry_ok r0 -> w = reach r0 l -> registry_ok r ->
  let list := NodeServers (w_hub w) r in
  NoDup (map s_ID list) /\ Sorted server_le list /\
  forall s, s ∈ list -> exists node n local, nodes r !! node = Some n /\
    IsValidLocalServerID local = true /\ s_ID s = GlobalServerID node local /\ SplitServerID (s_ID s) = (node, local) /\
    s_NodeName s = n_Name n /\ clean_server node s /\
    (s_NodeMode s = AgentModeReadWrite -> n_Mode n = AgentModeReadWrite) /\
    (s_NodeOffline s = true <-> tunnels (w_hub w) !! node = None) /\
    (forall c, s_Capabilities s = Some c -> clean_text 32 (cap_Runtime c)).
Proof.
  intros Hr0 -> Hr. pose proof (run_ok url_Parse version l _ (start_ok url_Parse version r0 Hr0)) as Hw.
  set (w := reach r0 l) in *. cbn zeta. split; [apply node_servers_ids; [apply Hw|done]|].
  split; [apply Sorted_merge_sort; intros x y; unfold server_le; apply String.leb_total|].
  intros s (node & srvs & Hl & Hs)%node_servers_spec. apply servers_of_spec in Hs as (n & s0 & Hn & Hs0 & ->). cbn [fst snd] in *.
  pose proof (wo_servers _ _ _ Hw node srvs Hl) as (Hcl & _). rewrite Forall_forall in Hcl. specialize (Hcl _ Hs0).
  destruct (cs_id _ _ Hcl) as (local & Hid & Hv). exists node, n, local. rewrite listed_id, Hid.
  assert (Hvn : IsValidNodeID node = true) by (destruct (ro_nodes _ Hr node n Hn) as (<- & ? & _); done).
  assert (Hst : forall st, status (w_hub w) !! node = Some st -> status_ok url_Parse version st) by (intros st; apply (wo_status _ _ _ Hw node)).
  split_and!; try done; [by apply split_global| | | |].
  - destruct Hcl. split; cbn; try done. by destruct (Online node (w_hub w)); [|destruct cs_numbers0].
  - cbn. destruct (status (w_hub w) !! node) as [st|]; [|done]. destruct (st_Hello st); [|done]. unfold LowerAgentMode.
    destruct (String.eqb_spec (n_Mode n) AgentModeReadWrite); [done|discriminate].
  - cbn. unfold Online, Tunnel. case_bool_decide as E; [split; [done|by intros E'; rewrite E' in E; destruct E]|].
    split; [|done]. intros _. by apply eq_None_not_Some.
  - cbn. intros c. destruct (status (w_hub w) !! node) as [st|]; [|done]. destruct (Hst st eq_refl) as [_ Hok].
    destruct (st_Hello st) as [x|]; [|done]. intros [= <-]. apply Hok.
Qed.

(** a status that lets requests through (online and compatible) belongs to a node
    with an open tunnel whose hello passed every check, and its effective mode is
    read-write only if the registry, as it is now, and the node itself say so. *)
Theorem node_status_checked r0 l w r node :
  registry_ok r0 -> w = reach r0 l ->
  let st := Status node (w_hub w) r in
  (st_Online st = true <-> is_Some (tunnels (w_hub w) !! node)) /\
  (st_Compatible st = true -> st_Online st = true /\ exists x, st_Hello st = Some x /\ clean_hello url_Parse x /\
     AgentVersionsCompatible version (h_Version x) = true /\ h_Protocol x = AgentProtocolVersion) /\
  (st_EffectiveMode st = AgentModeReadWrite -> exists x n, st_Hello st = Some x /\ nodes r !! node = Some n /\
     n_Mode n = AgentModeReadWrite /\ h_Mode x = AgentModeReadWrite) /\
  (is_Some (st_Host st) -> st_Online st = true).
Proof. intros Hr0 ->. by apply status_checked, run_ok, start_ok. Qed.

(** every tunnel that was opened is closed or is the one tunnel of its node, so a
    reconnecting or removed node leaves no connection behind; and the FastDL slots of
    a node are counted exactly, are at most 32, and all come back. *)
Theorem tunnels_and_slots_accounted r0 l w :
  registry_ok r0 -> w = reach r0 l ->
  (forall c, c ∈ w_opened w -> c ∈ w_closed w \/ exists node, tunnels (w_hub w) !! node = Some c /\
               forall node', tunnels (w_hub w) !! node' = Some c -> node' = node) /\
  (forall node, default 0 (fastdl (w_hub w) !! node) = taken node (w_slots w) /\ taken node (w_slots w) <= maxFastDLStreamsPerNode) /\
  (w_slots w = ∅ -> fastdl (w_hub w) = ∅).
Proof.
  intros Hr0 ->. pose proof (run_ok url_Parse version l _ (start_ok url_Parse version r0 Hr0)) as Hw.
  set (w := reach r0 l) in *. split; [|split].
  - intros c [|[n Hn]]%(wo_left _ _ _ Hw); [by left|]. right. exists n. split; [done|]. intros n' Hn'. by apply (wo_one _ _ _ Hw n' n c).
  - intros node. split; apply (wo_slots _ _ _ Hw).
  - intros He. pose proof (wo_slots _ _ _ Hw) as Hs. rewrite He in Hs. by eapply counted_all_free.
Qed.

(** a request for a server of a node leaves the controller only if that node is
    paired and lists the server, has a tunnel, and answered a compatible hello; and one
    that changes something only if the administrator's setting of the node and the
    node's own mode both allow changes. *)
Theorem forward_needs_live_node r0 l1 l2 l3 a user path method b node fp :
  registry_ok r0 ->
  let w1 := reach r0 l1 in let w2 := reach r0 (l1 ++ l2) in let w3 := reach r0 (l1 ++ l2 ++ l3) in
  handleServer (view w1 w2 w3 a) user path method b = SForward node fp ->
  exists route p local s x n1, path_names path (GlobalServerID node local) route /\ serverRoutePermission route method = Ok p /\
    nodes (w_reg w1) !! node = Some n1 /\ s ∈ NodeServers (w_hub w1) (w_reg w1) /\ s_ID s = GlobalServerID node local /\
    is_Some (tunnels (w_hub w3) !! node) /\ st_Hello (Status node (w_hub w2) (w_reg w2)) = Some x /\
    AgentVersionsCompatible version (h_Version x) = true /\
    (request_class p b = AccessWrite -> h_Mode x = AgentModeReadWrite /\
       exists n, nodes (w_reg w2) !! node = Some n /\ n_Mode n = AgentModeReadWrite).
Proof.
  intros Hr0 w1 w2 w3 (local & route & p & q & Hn & _ & Hvn & _ & Hp & _ & Ht & Hc & _ & Ha)%forward_inv.
  apply authorize_granted_iff in Ha as (u & _ & _ & _ & _ & Hex & _). specialize (Hex _ eq_refl).
  unfold serverExists in Hex. rewrite split_global in Hex by done.
  destruct (String.eqb_spec node "") as [->|_]; [done|]. cbn in Hex, Ht, Hc. apply bool_decide_eq_true_1 in Hex as [s Hs].
  unfold NodeServer in Hs. rewrite split_global in Hs by done. cbn [fst] in Hs. destruct (String.eqb node ""); [done|].
  apply find_some in Hs as [Hs Hid]. apply String.eqb_eq in Hid. apply list_elem_of_In in Hs.
  pose proof (start_ok url_Parse version r0 Hr0) as H0. pose proof (run_ok url_Parse version l1 _ H0) as Hw1.
  pose proof (run_ok url_Parse version (l1 ++ l2) _ H0) as Hw2.
  destruct (listed_paired _ _ _ _ _ Hw1 (wo_reg _ _ _ Hw1) Hvn Hs Hid) as [n1 Hn1].
  destruct (status_checked _ (w_reg w2) node Hw2) as (_ & Hcomp & Hmode & _).
  destruct Ht as (Ht & _ & Hc'). destruct (Hcomp Hc') as (_ & x & Hx & _ & Hver & _).
  exists route, p, local, s, x, n1. split_and!; try done; [by apply bool_decide_eq_true_1 in Ht|].
  intros Hwr. rewrite Hwr in Hc. apply String.eqb_eq in Hc. destruct (Hmode Hc) as (x' & n & Hx' & Hn' & Hm & Hh).
  rewrite Hx in Hx'. injection Hx' as <-. split; [done|]. by exists n.
Qed.
End Properties.

(** ** Concrete runs *)

#[local] Instance no_x509 : X509 := {
  ParseCertificateRequest _ := None; CreateCertificate _ _ _ _ := None; ParseCertificate _ := None }.
Definition demo_url (s : string) : option (string * string) := if String.eqb s "http://n1:8080" then Some ("http", "n1:8080") else None.
Definition demo_node : Node := mkNode "n1" "Node 1" AgentModeReadWrite ["k"] "m1" "host" 0 None "1.4.0".
Definition demo_reg : NodeRegistry := mkRegistry {["n1" := demo_node]} ∅ (Some [demo_node]).
Definition demo_caps : Capabilities := mkCaps "docker" false false false false true false false true true.
Definition demo_hello (mode machine : string) : AgentHello :=
  mkHello "1.4.2" 1 "host" machine demo_caps mode true false ["vhserver"; "../x"] "http://n1:8080" false.
Definition demo_server (id : string) : server :=
  mkServer id "My server" "vh" "vhserver" "/home/vh" "running" 70000 "vh" (S754_finite true 1 0) (S754_zero false) [1; 2] []
    "tag" (mkQuery true "a2s" "n" "m" (-1) 10 0 20 []) None "evil" true "n2" "" false "" None (Some ["start"; "rm"; "start"; "send"]).

(** A node connects, answers, and sends its servers, one of them with a foreign ID. *)
Definition demo_events : list event :=
  [EAttach "n1" 1; EHello "n1" 1 (Ok (demo_hello AgentModeReadWrite "m1")) 5 true; EStore 0;
   ERefresh "n1" 1 (Ok [demo_server "vhserver"; demo_server "n2~vhserver"; demo_server "vhserver"]);
   ESlot "n1" 0; ESlot "n1" 1; ERelease 0; ERelease 0].
#[local] Abbreviation demo_world := (hub_run demo_url "1.4.0" demo_events (start demo_reg)).

Lemma demo_reg_ok : registry_ok demo_reg.
Proof. apply (new_registry_ok (FEntries [Some demo_node])). reflexivity. Qed.

Example demo_hub :
  map s_ID (NodeServers (w_hub demo_world) (w_reg demo_world)) = ["n1~vhserver"] /\
  map s_Commands (NodeServers (w_hub demo_world) (w_reg demo_world)) = [Some ["start"; "send"]] /\
  st_EffectiveMode (Status "n1" (w_hub demo_world) (w_reg demo_world)) = AgentModeReadWrite /\
  fastdl (w_hub demo_world) !! "n1" = Some 1.
Proof. by vm_compute. Qed.

(** A tunnel that was replaced while its hello was still open fails afterwards and
    overwrites the status of the new tunnel: the node stays connected, but the
    controller refuses every request for it until it reconnects. *)
Example late_failure_hides_node :
  let w := hub_run demo_url "1.4.0"
    [EAttach "n1" 1; EHello "n1" 1 (Err "context deadline exceeded") 5 true; EAttach "n1" 2;
     EHello "n1" 2 (Ok (demo_hello AgentModeReadWrite "m1")) 6 true; EStore 1; EStore 0; EDone "n1" 1] (start demo_reg) in
  let st := Status "n1" (w_hub w) (w_reg w) in
  tunnels (w_hub w) !! "n1" = Some 2%nat /\ 2%nat ∉ w_closed w /\ st_Online st = true /\ st_Compatible st = false /\
  st_Problem st = "no valid hello: context deadline exceeded".
Proof. split_and!; try (vm_compute; reflexivity). apply (bool_decide_unpack _). vm_compute. exact I. Qed.

Lemma node_servers_contained_witness :
  let list := NodeServers (w_hub demo_world) demo_reg in
  map s_ID list = ["n1~vhserver"] /\ NoDup (map s_ID list) /\ Sorted server_le list.
Proof.
  destruct (node_servers_contained demo_url "1.4.0" demo_reg demo_events demo_world demo_reg demo_reg_ok eq_refl demo_reg_ok)
    as (H1 & H2 & _).
  split; [vm_compute; reflexivity|]. split; [exact H1|exact H2].
Defined.

Lemma node_status_checked_witness :
  exists x, st_Hello (Status "n1" (w_hub demo_world) demo_reg) = Some x /\ h_Servers x = ["vhserver"] /\
    AgentVersionsCompatible "1.4.0" (h_Version x) = true.
Proof.
  destruct (node_status_checked demo_url "1.4.0" demo_reg demo_events demo_world demo_reg "n1" demo_reg_ok eq_refl)
    as (_ & H & _).
  destruct (H ltac:(vm_compute; reflexivity)) as (_ & x & Hx & _ & Hv & _).
  assert (E : option_map h_Servers (st_Hello (Status "n1" (w_hub demo_world) demo_reg)) = Some ["vhserver"]) by (vm_compute; reflexivity).
  exists x. split; [exact Hx|]. split; [|exact Hv]. rewrite Hx in E. by injection E.
Defined.

Lemma tunnels_and_slots_accounted_witness : taken "n1" (w_slots demo_world) = 1.
Proof.
  destruct (tunnels_and_slots_accounted demo_url "1.4.0" demo_reg demo_events demo_world demo_reg_ok eq_refl) as (_ & H & _).
  destruct (H "n1") as [H1 _]. rewrite <- H1. vm_compute. reflexivity.
Defined.

Lemma forward_needs_live_node_witness :
  exists route p local s, serverRoutePermission route "POST" = Ok p /\
    s ∈ NodeServers (w_hub demo_world) (w_reg demo_world) /\ s_ID s = GlobalServerID "n1" local.
Proof.
  destruct (forward_needs_live_node demo_url "1.4.0" demo_reg demo_events [] [] (demo_app false "") demo_root
    "/api/servers/n1~vhserver/console/send" "POST" None "n1" "/api/servers/vhserver/console/send" demo_reg_ok)
    as (route & p & local & s & x & n1 & _ & Hp & _ & Hs & Hid & _); [vm_compute; reflexivity|].
  exists route, p, local, s. split; [exact Hp|]. split; [exact Hs|exact Hid].
Defined.
