(* ===== verification/Output.v ===== *)
(** * Output of commands (backend/runtime.go, backend/manager.go, backend/helpers.go)

    What the dashboard reads from LinuxGSM and from the game servers and shows in the
    browser: the output of a command as it is streamed, line by line, with the lines that
    programs draw again and again; the end of a log file; and the details LinuxGSM prints. *)

From Stdlib Require Import ZArith Lia Bool String Ascii List.
From stdpp Require Import base gmap strings list.
From S2P Require Import Prelude GoStrings Text Http GoNet Cron Cfg Stores Hub.

(** ** Escape sequences *)

Definition esc : ascii := chr 27.
Definition letter (c : ascii) : bool := is_lower c || is_upper c.
Definition csi_param (c : ascii) : bool := is_digit c || Ascii.eqb c ";" || Ascii.eqb c "?".

(** The length of what follows ESC in [\x1b\[[0-9;?]*[a-zA-Z]]. *)
Definition csi_len (l : bytes) : option nat :=
  match l with
  | b :: t =>
      if Ascii.eqb b "[" then
        let '(p, rest) := span csi_param t in
        match rest with c :: _ => if letter c then Some (S (S (length p))) else None | [] => None end
      else None
  | [] => None
  end.
(** [skip] bytes belong to the sequence that is being removed. *)
Fixpoint strip_csi (skip : nat) (l : bytes) : bytes :=
  match l with
  | [] => []
  | c :: r =>
      match skip with
      | S k => strip_csi k r
      | O => match (if Ascii.eqb c esc then csi_len r else None) with
             | Some n => strip_csi n r
             | None => c :: strip_csi 0 r
             end
      end
  end.
Definition kept (c : ascii) : bool := negb (is_ctl c) || Ascii.eqb c newline.
Definition stripAnsi (s : string) : string := of_bytes (List.filter kept (strip_csi 0 (to_bytes s))).

(** ** Lines of a running command *)

Definition CR : ascii := chr 13.

(** The line read, and the rest of the output; [None] when it ended before the line did. *)
Fixpoint readLineOrCR (b input : bytes) : bytes * option bytes :=
  match input with
  | [] => (rev b, None)
  | c :: r =>
      if Ascii.eqb c newline then (rev (c :: b), Some r)
      else if Ascii.eqb c CR then
        match r with
        | next :: _ => if Ascii.eqb next newline then readLineOrCR (c :: b) r else (rev (c :: b), Some r)
        | [] => (rev (c :: b), Some r)
        end
      else readLineOrCR (c :: b) r
  end.
(** [streamLines]: the lines given to [onLine] for all the output of a command. *)
Fixpoint stream_loop (fuel : nat) (input : bytes) : list string :=
  match fuel with
  | O => []
  | S f =>
      match readLineOrCR [] input with
      | (line, Some rest) => of_bytes line :: stream_loop f rest
      | (line, None) => if (0 <? length line)%nat then [of_bytes line] else []
      end
  end.
Definition streamLines (output : string) : list string := stream_loop (S (String.length output)) (to_bytes output).

(** A log message: its text, and whether it replaces the one before. *)
Record log_message := mkLog { lg_text : string; lg_replace : bool }.
Fixpoint log (redraw : bool) (lines : list string) : list log_message :=
  match lines with
  | [] => []
  | text :: r => mkLog (stripAnsi text) redraw :: log (has_suffix text (of_bytes [CR])) r
  end.

(** ** The end of a log *)

Definition maxTail : nat := 256 * 1024.
(** [strings.ReplaceAll(s, "\r\n", "\n")] *)
Fixpoint unix_lines (l : bytes) : bytes :=
  match l with
  | c :: ((n :: _) as r) => if Ascii.eqb c CR && Ascii.eqb n newline then unix_lines r else c :: unix_lines r
  | _ => l
  end.
(** The size of the file and what is in it are read at different times: [data] is what the
    read from [offset] on answers. *)
Definition tailLines (offset : nat) (data : bytes) (n : nat) : list string :=
  let raw := split newline (of_bytes (unix_lines data)) in
  let raw := if (0 <? offset)%nat then tl raw else raw in
  let raw := match last raw with Some l => if String.eqb l "" then removelast raw else raw | None => raw end in
  let raw := if (n <? length raw)%nat then drop (length raw - n) raw else raw in
  map stripAnsi raw.
Definition tail_of (file : bytes) (n : nat) : list string :=
  let offset := (length file - maxTail)%nat in tailLines offset (take maxTail (drop offset file)) n.

(** ** The details of a server *)

Definition listed_port (port : Z) (protocol description : string) : PortProbe := mkProbe port protocol false description "" "".

Definition re_space (c : ascii) : bool := one_of (of_bytes (map chr [9; 10; 12; 13; 32])) c.

(** The length of the prefix of [l] that folds to the text [p] (lower case). *)
Fixpoint fold_prefix (p l : bytes) : option nat :=
  match p with
  | [] => Some 0%nat
  | x :: p' =>
      match l with
      | c :: l' =>
          if Ascii.eqb (lower_ascii c) x then option_map S (fold_prefix p' l')
          else match l' with
               | d :: l'' =>
                   if Ascii.eqb x "s" && (code c =? 0xC5) && (code d =? 0xBF) then option_map (fun n => S (S n)) (fold_prefix p' l'')
                   else match l'' with
                        | e :: l3 => if Ascii.eqb x "k" && (code c =? 0xE2) && (code d =? 0x84) && (code e =? 0xAA)
                                     then option_map (fun n => S (S (S n))) (fold_prefix p' l3) else None
                        | [] => None
                        end
               | [] => None
               end
      | [] => None
      end
  end.

(** [^Server name:\s*(.+)$] on a line without surrounding white space. *)
Definition reName (line : string) : option string :=
  match fold_prefix (to_bytes "server name:") (to_bytes line) with
  | Some n => let rest := ldrop_while re_space (drop n (to_bytes line)) in
              if (0 <? length rest)%nat then Some (of_bytes rest) else None
  | None => None
  end.

(** The width of a letter of the class [a-z] when case is ignored, 0 otherwise. *)
Definition letter_width (l : bytes) : nat :=
  match l with
  | c :: t =>
      if letter c then 1%nat
      else match t with
           | d :: t' => if (code c =? 0xC5) && (code d =? 0xBF) then 2%nat
                        else match t' with
                             | e :: _ => if (code c =? 0xE2) && (code d =? 0x84) && (code e =? 0xAA) then 3%nat else 0%nat
                             | [] => 0%nat
                             end
           | [] => 0%nat
           end
  | [] => 0%nat
  end.
(** What is left after a sequence [(\x1b|\\x1b|\\e|\\033)?\[[0-9;]*[a-zA-Z]] at the start. *)
Definition colour_rest (l : bytes) : option bytes :=
  let prefix :=
    match l with
    | c :: t => if Ascii.eqb c esc then t
                else if Ascii.eqb c "\" then
                  match fold_prefix (to_bytes "x1b") t, fold_prefix (to_bytes "e") t, fold_prefix (to_bytes "033") t with
                  | Some n, _, _ | None, Some n, _ | None, None, Some n => drop n t
                  | None, None, None => l
                  end
                else l
    | [] => l
    end in
  match prefix with
  | b :: t => if Ascii.eqb b "[" then
                let '(_, rest) := span (fun c => is_digit c || Ascii.eqb c ";") t in
                match letter_width rest with O => None | w => Some (drop w rest) end
              else None
  | [] => None
  end.
Fixpoint reClean (fuel : nat) (l : bytes) : bytes :=
  match fuel, l with
  | S f, c :: r => match colour_rest l with Some rest => reClean f rest | None => c :: reClean f r end
  | _, _ => []
  end.

Definition word_char (c : ascii) : bool := letter c || is_digit c || Ascii.eqb c "_".
(** [\s+(\d+)\s+(tcp|udp)\b] *)
Definition port_suffix (l : bytes) : option (bytes * string) :=
  let '(s1, r1) := span re_space l in
  let '(ds, r2) := span is_digit r1 in
  let '(s2, r3) := span re_space r2 in
  let proto p := match fold_prefix (to_bytes p) r3 with
                 | Some n => match drop n r3 with c :: _ => negb (word_char c) | [] => true end
                 | None => false
                 end in
  if ((0 <? length s1) && (0 <? length ds) && (0 <? length s2))%nat then
    if proto "tcp" then Some (ds, "TCP") else if proto "udp" then Some (ds, "UDP") else None
  else None.
(** The description grows as long as the rest does not match. *)
Fixpoint port_row (fuel : nat) (desc l : bytes) : option (bytes * bytes * string) :=
  match fuel with
  | O => None
  | S f =>
      match port_suffix l with
      | Some (ds, proto) => Some (desc, ds, proto)
      | None =>
          match l with
          | c :: r =>
              if is_digit c || one_of " _-()+:" c then port_row f (desc ++ [c])%list r
              else match letter_width l with O => None | w => port_row f (desc ++ take w l)%list (drop w l) end
          | [] => None
          end
      end
  end.
Definition rePort (line : string) : option (bytes * bytes * string) :=
  let l := ldrop_while re_space (to_bytes line) in
  let first := match l with c :: _ => if is_digit c then 1%nat else letter_width l | [] => 0%nat end in
  match first with O => None | w => port_row (length l) (take w l) (drop w l) end.

(** [fmt.Sscanf] with %d leaves the variable at 0 when the number does not fit. *)
Definition scan_port (ds : bytes) : Z := let v := digits_value ds in if v <=? int64_max then v else 0.

Definition details_line (st : string * list PortProbe) (line : string) : string * list PortProbe :=
  let line := trim_space line in
  match reName line with
  | Some raw =>
      let raw := to_bytes (trim_space raw) in
      let name := trim_space (of_bytes (reClean (length raw) raw)) in
      (if EqualFold name "NOT SET" then "" else name, st.2)
  | None =>
      match rePort line with
      | Some (desc, ds, proto) =>
          let p := scan_port ds in
          if p >? 0 then (st.1, (st.2 ++ [listed_port p proto (trim_space (of_bytes desc))])%list) else st
      | None => st
      end
  end.
Definition parseDetailsOutput (output : string) : string * list PortProbe :=
  fold_left details_line (split newline output) ("", []).

(** [\s*Server IP:\s*([0-9.]+)(?::\d+)?\s*$] at the start of [l], which may go on over
    several lines. *)
Definition ip_here (l : bytes) : option string :=
  let l := ldrop_while re_space l in
  match fold_prefix (to_bytes "server ip:") l with
  | None => None
  | Some n =>
      let '(ip, rest) := span (fun c => is_digit c || Ascii.eqb c ".") (ldrop_while re_space (drop n l)) in
      let rest := match rest with
                  | c :: r => if Ascii.eqb c ":" then let '(ds, r') := span is_digit r in if (0 <? length ds)%nat then r' else rest
                              else rest
                  | [] => rest
                  end in
      let '(sp, rest) := span re_space rest in
      if (0 <? length ip)%nat && ((length rest =? 0)%nat || existsb (Ascii.eqb newline) sp) then Some (of_bytes ip) else None
  end.
Fixpoint ip_line (l : bytes) : option string :=
  match l with
  | [] => None
  | c :: r => if Ascii.eqb c newline then match ip_here r with Some ip => Some ip | None => ip_line r end else ip_line r
  end.
Definition parseDetailsIP (output : string) : string :=
  match ip_line (newline :: to_bytes output) with
  | Some ip => match ParseIP ip with Some _ => ip | None => "" end
  | None => ""
  end.

(** ** Names of games and scripts *)

Definition game_names : list (string * string) :=
  [("arkserver", "Ark: Survival Evolved"); ("vhserver", "Valheim"); ("cs2server", "Counter-Strike 2"); ("csgoserver", "CS:GO");
   ("rustserver", "Rust"); ("mcserver", "Minecraft"); ("sdtdserver", "7 Days to Die"); ("gmodserver", "Garry's Mod");
   ("tserver", "Terraria"); ("fctrserver", "Factorio"); ("tf2server", "Team Fortress 2"); ("squadserver", "Squad");
   ("l4d2server", "Left 4 Dead 2"); ("insserver", "Insurgency"); ("dstserver", "Don't Starve Together");
   ("ceserver", "Conan Exiles"); ("dayzserver", "DayZ"); ("arma3server", "Arma 3"); ("sfserver", "Satisfactory");
   ("pwserver", "Palworld"); ("pzserver", "Project Zomboid"); ("mtaserver", "Multi Theft Auto")].
(** Script names are ASCII. *)
Definition mapScriptToGameName (scriptName : string) : string :=
  let '(base, suffix) :=
    match cut "-" scriptName with
    | Some (base, rest) => (base, match atoi rest with Some num => " #" +:+ itoa num | None => " (" +:+ rest +:+ ")" end)
    | None => (scriptName, "")
    end in
  match List.find (fun p => String.eqb (fst p) base) game_names with
  | Some (_, name) => name +:+ suffix
  | None =>
      match to_bytes (trim_suffix base "server") with
      | c :: r => of_bytes (upper_bytes [c] ++ r)%list +:+ suffix
      | [] => scriptName
      end
  end.
Definition getGameFromScriptName (scriptName : string) : string := trim_suffix (hd "" (split "-" scriptName)) "server".

(** [content]: the first 500 bytes, [None] when they cannot be read. *)
Definition isLinuxGSMScript (content : option string) : bool :=
  match content with
  | None => false
  | Some c => has_prefix c "#!" && (contains c "LinuxGSM" || contains c "lgsmdir" || contains c "lgsmversion")
  end.
Definition tmuxSessionExists (sessionList sessionName : string) : bool :=
  existsb (fun line => String.eqb (trim_space line) sessionName) (split newline sessionList).
(** The last message of LinuxGSM after SteamCMD failed ten times. *)
Definition lgsmDownloadFailed (line : string) : bool := contains (stripAnsi line) "Did not complete the download".

Definition line (s : string) : string := s +:+ of_bytes [newline].
Example details_example :
  parseDetailsOutput (join (of_bytes [newline]) ["Server name:   My [31mServer[0m "; "DESCRIPTION  PORT  PROTOCOL"; "  Game  27015  udp  1";
    "Query (http)  8080  TCP  0"; "Rcon 99999999999999999999 tcp"; "x 5 tcpx"]) =
  ("My Server", [listed_port 27015 "UDP" "Game"; listed_port 8080 "TCP" "Query (http)"]) /\
  parseDetailsOutput "Server name: not set" = ("", []) /\
  parseDetailsIP (line "Server name: x" +:+ line "  server IP:  10.0.0.5:27015  " +:+ "y") = "10.0.0.5" /\
  parseDetailsIP "Server IP: 1.2.3.4 x" = "".
Proof. vm_compute. by split_and!. Qed.
Example game_name_examples :
  map mapScriptToGameName ["vhserver"; "vhserver-2"; "rustserver-test"; "q3server"; "server"; "fooserver-x-1"] =
  ["Valheim"; "Valheim #2"; "Rust (test)"; "Q3"; "server"; "Foo (x-1)"].
Proof. vm_compute. reflexivity. Qed.
Example stream_example :
  streamLines (line "a" +:+ "b" +:+ of_bytes [CR] +:+ "c" +:+ of_bytes [CR; newline] +:+ "d") =
  [line "a"; "b" +:+ of_bytes [CR]; "c" +:+ of_bytes [CR; newline]; "d"].
Proof. vm_compute. reflexivity. Qed.

(** * Properties *)

(** ** Escape sequences *)

Lemma strip_csi_In l : forall k c, In c (strip_csi k l) -> In c l.
Proof.
  induction l as [|x r IH]; intros k c; [done|]. cbn [strip_csi]. destruct k as [|k]; [|right; by eapply IH].
  destruct (if Ascii.eqb x esc then _ else _); [right; by eapply IH|]. intros [->|H]; [by left|right; by eapply IH].
Qed.
Lemma strip_csi_clean l : forallb kept l = true -> strip_csi 0 l = l.
Proof.
  induction l as [|x r IH]; [done|]. cbn [forallb strip_csi]. intros [Hx Hr]%andb_true_iff.
  destruct (Ascii.eqb_spec x esc) as [->|]; [by vm_compute in Hx|]. by rewrite IH.
Qed.

(** The text shown holds no control bytes but line breaks, none of its bytes is new,
    and a text without control bytes is shown as it is. *)
Lemma strip_ansi_clean s :
  sall kept (stripAnsi s) = true /\ (forall c, In c (to_bytes (stripAnsi s)) -> In c (to_bytes s)) /\
  (sall kept s = true -> stripAnsi s = s).
Proof.
  unfold stripAnsi. split_and!.
  - rewrite sall_of_bytes. apply forallb_forall. intros c Hc. by apply filter_In in Hc as [].
  - intros c. rewrite to_of_bytes. intros [Hc _]%filter_In. by eapply strip_csi_In.
  - intros H. rewrite strip_csi_clean by done. rewrite filter_all by by apply List.Forall_forall, forallb_forall.
    apply of_to_bytes.
Qed.

(** ** Lines *)

Definition no_break (p : bytes) : Prop := ~ In CR p /\ ~ In newline p.

Lemma read_line_app p l : no_break p -> forall b, readLineOrCR b (p ++ l) = readLineOrCR (rev p ++ b) l.
Proof.
  intros [H1 H2]. induction p as [|c p IH]; intros b; [done|]. cbn [app readLineOrCR rev].
  destruct (Ascii.eqb_spec c newline) as [->|]; [exfalso; apply H2; by left|].
  destruct (Ascii.eqb_spec c CR) as [->|]; [exfalso; apply H1; by left|].
  rewrite IH; [by rewrite <- app_assoc|by intro; apply H1; right|by intro; apply H2; right].
Qed.
Lemma read_line_concat input : forall b line rest, readLineOrCR b input = (line, Some rest) ->
  (line ++ rest = rev b ++ input)%list /\ (length rest < length input)%nat.
Proof.
  induction input as [|c r IH]; intros b line rest; cbn [readLineOrCR]; [done|].
  assert (Hd : (rev (c :: b), Some r) = (line, Some rest) -> (line ++ rest = rev b ++ c :: r)%list /\ (length rest < length (c :: r))%nat).
  { intros [= <- <-]. cbn [rev length]. rewrite <- app_assoc. split; [done|lia]. }
  assert (Hn : readLineOrCR (c :: b) r = (line, Some rest) -> (line ++ rest = rev b ++ c :: r)%list /\ (length rest < length (c :: r))%nat).
  { intros [E Hlt]%IH. rewrite E. cbn [rev length]. rewrite <- app_assoc. split; [done|lia]. }
  destruct (Ascii.eqb c newline); [done|]. destruct (Ascii.eqb c CR); [|done].
  destruct r as [|n r]; [done|]. by destruct (Ascii.eqb n newline).
Qed.
Lemma read_line_end input : forall b line, readLineOrCR b input = (line, None) -> line = (rev b ++ input)%list.
Proof.
  induction input as [|c r IH]; intros b line; cbn [readLineOrCR]; [intros [= <-]; by rewrite app_nil_r|].
  assert (Hn : readLineOrCR (c :: b) r = (line, None) -> line = (rev b ++ c :: r)%list).
  { intros ->%IH. cbn [rev]. by rewrite <- app_assoc. }
  destruct (Ascii.eqb c newline); [done|]. destruct (Ascii.eqb c CR); [|done].
  destruct r as [|n r]; [done|]. by destruct (Ascii.eqb n newline).
Qed.

Lemma stream_fuel f : forall g input, (length input < f)%nat -> (length input < g)%nat -> stream_loop f input = stream_loop g input.
Proof.
  induction f as [|f IH]; intros [|g] input Hf Hg; try lia. cbn [stream_loop].
  destruct (readLineOrCR [] input) as [line [rest|]] eqn:E; [|done]. apply read_line_concat in E as [_ E]. f_equal. apply IH; lia.
Qed.
Definition lines (input : bytes) : list string := stream_loop (S (length input)) input.
Lemma lines_some input line rest : readLineOrCR [] input = (line, Some rest) -> lines input = of_bytes line :: lines rest.
Proof.
  intros E. unfold lines at 1. cbn [stream_loop]. rewrite E. apply read_line_concat in E as [_ E]. f_equal. apply stream_fuel; lia.
Qed.
Lemma lines_none input line : readLineOrCR [] input = (line, None) -> lines input = if (0 <? length line)%nat then [of_bytes line] else [].
Proof. intros E. unfold lines. cbn [stream_loop]. by rewrite E. Qed.
Lemma stream_lines_def out : streamLines out = lines (to_bytes out).
Proof. unfold streamLines, lines. by rewrite length_to_bytes. Qed.

(** Nothing is lost: the lines are the output, in order. *)
Lemma lines_concat f : forall input, (length input < f)%nat -> concat (map to_bytes (lines input)) = input.
Proof.
  induction f as [|f IH]; intros input Hf; [lia|]. destruct (readLineOrCR [] input) as [line [rest|]] eqn:E.
  - rewrite (lines_some _ _ _ E). apply read_line_concat in E as [E Hlt]. cbn [map concat]. rewrite to_of_bytes, IH by lia. done.
  - rewrite (lines_none _ _ E). apply read_line_end in E as ->. cbn [rev app]. destruct input; [done|]. cbn [length Nat.ltb Nat.leb map concat]. by rewrite to_of_bytes, app_nil_r.
Qed.

(** What the browser shows: a message that replaces takes the place of the last line. *)
Definition show_step (shown : list string) (m : log_message) : list string :=
  ((if lg_replace m then removelast shown else shown) ++ [lg_text m])%list.
Definition show (msgs : list log_message) : list string := fold_left show_step msgs [].

(** The drawings of a line: what stands between its lone carriage returns. *)
Definition drawings (r : bytes) : list bytes := lsplit CR r.
Definition line_end (r : bytes) : bytes * bytes :=
  match last r with
  | Some c => if Ascii.eqb c CR then (removelast r, [CR; newline]) else (r, [newline])
  | None => (r, [newline])
  end.
(** A finished line shows its last drawing; so does the unfinished line at the end, unless
    nothing has been drawn since the carriage return. *)
Definition finished (r : bytes) : string :=
  let '(body, e) := line_end r in stripAnsi (of_bytes (List.last (drawings body) [] ++ e)).
Definition unfinished (r : bytes) : list string :=
  match rev (drawings r) with
  | [] :: prev :: _ => [stripAnsi (of_bytes (prev ++ [CR]))]
  | [] :: [] | [] => []
  | p :: _ => [stripAnsi (of_bytes p)]
  end.
Fixpoint screen (rows : list bytes) : list string :=
  match rows with
  | [] => []
  | [r] => unfinished r
  | r :: rows => finished r :: screen rows
  end.

Definition draw (p : bytes) : string := of_bytes (p ++ [CR]).

(** A line break after a drawing ends the line; another carriage return starts the next drawing. *)
Lemma line_break e l : e = [newline] \/ e = [CR; newline] -> forall p, no_break p -> lines (p ++ e ++ l) = of_bytes (p ++ e) :: lines l.
Proof.
  intros He p Hp. rewrite (lines_some _ (p ++ e) l); [done|]. rewrite read_line_app, app_nil_r by done.
  destruct He as [-> | ->]; cbn; [|rewrite <- app_assoc]; by rewrite rev_involutive.
Qed.
Lemma line_draw p l : no_break p -> head l <> Some newline -> lines (p ++ CR :: l) = draw p :: lines l.
Proof.
  intros Hp Hl. rewrite (lines_some _ (p ++ [CR]) l); [done|]. rewrite read_line_app, app_nil_r by done. cbn [readLineOrCR].
  change (Ascii.eqb CR newline) with false. rewrite Ascii.eqb_refl. cbn [rev]. rewrite rev_involutive.
  destruct l as [|c l]; [done|]. destruct (Ascii.eqb_spec c newline) as [->|]; [by destruct Hl|done].
Qed.
Lemma line_rest p : no_break p -> lines p = if (0 <? length p)%nat then [of_bytes p] else [].
Proof. intros Hp. apply lines_none. rewrite <- (app_nil_r p) at 1. rewrite read_line_app by done. cbn. by rewrite app_nil_r, rev_involutive. Qed.

Lemma drawings_head q ps p t : no_break q -> head (ljoin [CR] ((q :: ps) ++ [p]) ++ t) <> Some newline.
Proof.
  intros [_ H]. assert (E : ljoin [CR] ((q :: ps) ++ [p]) = (q ++ CR :: ljoin [CR] (ps ++ [p]))%list) by by destruct ps.
  rewrite E. destruct q as [|c q]; [done|]. intros [= ->]. apply H. by left.
Qed.

(** The lines of drawings [ps] that end with [e]. *)
Lemma row_lines e l : e = [newline] \/ e = [CR; newline] -> forall ps p, Forall no_break (ps ++ [p]) ->
  (p <> [] \/ ps = [] \/ e = [CR; newline]) ->
  lines (ljoin [CR] (ps ++ [p]) ++ e ++ l) = (map draw ps ++ of_bytes (p ++ e) :: lines l)%list.
Proof.
  intros He. induction ps as [|q ps IH]; intros p Hps Hp; [cbn; by apply line_break; [|inversion Hps]|].
  inversion Hps as [|? ? Hq Hrest]; subst. cbn [app map].
  replace (ljoin [CR] (q :: ps ++ [p]) ++ e ++ l)%list with (q ++ CR :: (ljoin [CR] (ps ++ [p]) ++ e ++ l))%list
    by (destruct ps; cbn; by rewrite <- ?app_assoc).
  rewrite line_draw; [|done|].
  - f_equal. apply IH; [done|]. destruct Hp as [|[|]]; [by left|done|by right; right].
  - destruct ps as [|q' ps].
    + cbn [app ljoin] in *. destruct p as [|c p]; [destruct Hp as [|[|Hp]]; [done|done|by rewrite Hp]|]. inversion Hrest as [|? ? [_ H] _]; subst.
      cbn. intros [= ->]. apply H. by left.
    + apply drawings_head. by inversion Hrest.
Qed.
Lemma last_row_lines ps : forall p, Forall no_break (ps ++ [p]) ->
  lines (ljoin [CR] (ps ++ [p])) = (map draw ps ++ if (0 <? length p)%nat then [of_bytes p] else [])%list.
Proof.
  induction ps as [|q ps IH]; intros p Hps; [cbn; apply line_rest; by inversion Hps|]. inversion Hps as [|? ? Hq Hrest]; subst.
  replace (ljoin [CR] ((q :: ps) ++ [p])) with (q ++ CR :: ljoin [CR] (ps ++ [p]))%list by (destruct ps; done).
  rewrite line_draw; [cbn [map app]; by rewrite IH|done|].
  destruct ps as [|q' ps].
  - cbn [app ljoin] in *. destruct p as [|c p]; [done|]. inversion Hrest as [|? ? [_ H] _]; subst. intros [= ->]. apply H. by left.
  - rewrite <- (app_nil_r (ljoin _ _)). apply drawings_head. by inversion Hrest.
Qed.

(** ** What is shown *)

Definition redrawn (s : string) : bool := has_suffix s (of_bytes [CR]).
Lemma redrawn_snoc p c : redrawn (of_bytes (p ++ [c])) = Ascii.eqb CR c.
Proof. unfold redrawn, has_suffix. rewrite !to_of_bytes, rev_app_distr. cbn [rev app lprefix]. by rewrite andb_true_r. Qed.
Lemma redrawn_draw p : redrawn (draw p) = true.
Proof. unfold draw. by rewrite redrawn_snoc. Qed.

Lemma show_draws ps : forall b acc more,
  fold_left show_step (log b (map draw ps ++ more)) acc =
  fold_left show_step (log (match ps with [] => b | _ => true end) more)
    (match rev ps with [] => acc | p :: _ => ((if b then removelast acc else acc) ++ [stripAnsi (draw p)])%list end).
Proof.
  induction ps as [|p ps IH]; intros b acc more; [done|]. cbn [map app log fold_left]. fold (redrawn (draw p)).
  rewrite redrawn_draw, IH. unfold show_step at 2 3. cbn [lg_replace lg_text rev].
  destruct ps as [|q ps]; [by destruct b|]. destruct (rev (q :: ps)) as [|x l] eqn:E; [by apply (f_equal (@length _)) in E; rewrite length_rev in E|].
  cbn [app]. by rewrite removelast_last.
Qed.
(** Drawings that end with another message leave one line. *)
Lemma show_row ps fin more acc :
  fold_left show_step (log false (map draw ps ++ fin :: more)) acc =
  fold_left show_step (log (redrawn fin) more) (acc ++ [stripAnsi fin])%list.
Proof.
  rewrite show_draws. cbn [log fold_left]. fold (redrawn fin). unfold show_step at 2. cbn [lg_replace lg_text].
  destruct (rev ps) as [|p l] eqn:E.
  - apply (f_equal (@rev _)) in E. rewrite rev_involutive in E. by subst.
  - destruct ps; [done|]. by rewrite removelast_last.
Qed.

Lemma line_end_spec r : exists body e, line_end r = (body, e) /\ (r ++ [newline] = body ++ e)%list /\
  (e = [newline] \/ e = [CR; newline]) /\ (e = [newline] -> last body <> Some CR).
Proof.
  unfold line_end. destruct (last r) as [c|] eqn:E.
  - apply last_Some in E as [l ->]. destruct (Ascii.eqb_spec c CR) as [->|Hc].
    + exists l, [CR; newline]. rewrite removelast_last, <- app_assoc. split_and!; [done..|by right|done].
    + exists (l ++ [c])%list, [newline]. split_and!; [done..|by left|]. rewrite last_snoc. by intros _ [= ->].
  - exists r, [newline]. split_and!; [done..|by left|]. by rewrite E.
Qed.
Lemma drawings_spec body : ~ In newline body -> exists ps p, drawings body = (ps ++ [p])%list /\ Forall no_break (ps ++ [p]) /\
  body = ljoin [CR] (ps ++ [p]) /\ (p = [] -> ps <> [] -> last body = Some CR).
Proof.
  intros Hn. destruct (exists_last (lsplit_not_nil CR body)) as (ps & p & E). exists ps, p. unfold drawings.
  assert (Hj : body = ljoin [CR] (ps ++ [p])) by by rewrite <- E, ljoin_lsplit.
  split_and!; [done| |done|].
  - rewrite <- E. apply List.Forall_forall. intros q Hq. split; [by eapply List.Forall_forall in Hq; [|apply lsplit_pieces]|].
    intros Hin. apply Hn. rewrite <- (ljoin_lsplit CR). clear -Hq Hin. revert Hq. generalize (lsplit CR body) as l.
    induction l as [|x l IH]; [done|]. intros [->|Hq]; [destruct l; cbn; [done|apply in_app_iff; by left]|].
    destruct l; [done|]. cbn [ljoin]. apply in_app_iff. right. right. by apply IH.
  - intros -> Hps. rewrite Hj. clear -Hps. assert (E : ljoin [CR] (ps ++ [[]]) = (ljoin [CR] ps ++ [CR])%list); [|exact (eq_trans (f_equal last E) (last_snoc _ _))].
    induction ps as [|q ps IH]; [done|]. destruct ps as [|q' ps]; [done|].
    change (ljoin [CR] ((q :: q' :: ps) ++ [[]])) with (q ++ CR :: ljoin [CR] ((q' :: ps) ++ [[]]))%list. rewrite IH by done.
    change (ljoin [CR] (q :: q' :: ps)) with (q ++ CR :: ljoin [CR] (q' :: ps))%list. by rewrite <- app_assoc.
Qed.

Lemma finished_shown r rest acc : ~ In newline r ->
  fold_left show_step (log false (lines (r ++ newline :: rest))) acc = fold_left show_step (log false (lines rest)) (acc ++ [finished r])%list.
Proof.
  intros Hr. destruct (line_end_spec r) as (body & e & El & Eb & He & Hc).
  assert (Hb : ~ In newline body).
  { intros Hin. unfold line_end in El. destruct (last r) as [c|] eqn:E; [apply last_Some in E as [l ->]; destruct (Ascii.eqb c CR)|];
      injection El as <- <-; [rewrite removelast_last in Hin; apply Hr, in_app_iff; by left|done|done]. }
  destruct (drawings_spec body Hb) as (ps & p & Ed & Hps & Ej & Hlast).
  unfold finished. rewrite El, Ed, List.last_last.
  replace (r ++ newline :: rest)%list with (body ++ e ++ rest)%list by (rewrite app_assoc, <- Eb, <- app_assoc; done).
  rewrite Ej, row_lines; [|done..|].
  - rewrite show_row. f_equal. f_equal. destruct He as [-> | ->]; [by rewrite redrawn_snoc|].
    change [CR; newline] with ([CR] ++ [newline])%list. by rewrite app_assoc, redrawn_snoc.
  - destruct (decide (p = [])) as [Hp|]; [|by left]. destruct (decide (ps = [])) as [|Hn]; [by right; left|]. right. right.
    destruct He as [He|]; [|done]. by destruct (Hc He (Hlast Hp Hn)).
Qed.
Lemma unfinished_shown r acc : ~ In newline r -> fold_left show_step (log false (lines r)) acc = (acc ++ unfinished r)%list.
Proof.
  intros Hr. destruct (drawings_spec r Hr) as (ps & p & Ed & Hps & Ej & _). unfold unfinished. rewrite Ed, rev_app_distr. cbn [rev app].
  rewrite Ej, last_row_lines by done. destruct p as [|c p]; cbn [length Nat.ltb Nat.leb].
  - rewrite show_draws. destruct (rev ps); [by rewrite app_nil_r|done].
  - by rewrite show_row.
Qed.

(** C29: what the browser shows of a running command (streamLines, readLineOrCR and the log of
    sseWriter).  No byte of the output is lost and none is read twice; and the browser shows
    exactly one line for each line of the output, namely what was drawn last on it: a line
    that a program redraws after a carriage return is replaced, a carriage return before the
    line break ends the line like the line break alone. *)
Theorem stream_shown output :
  concat (map to_bytes (streamLines output)) = to_bytes output /\
  show (log false (streamLines output)) = screen (lsplit newline (to_bytes output)).
Proof.
  rewrite stream_lines_def. split; [by apply (lines_concat (S (length (to_bytes output)))); lia|].
  rewrite <- (ljoin_lsplit newline (to_bytes output)) at 1. pose proof (lsplit_pieces newline (to_bytes output)) as H.
  pose proof (lsplit_not_nil newline (to_bytes output)) as Hn. revert H Hn. generalize (lsplit newline (to_bytes output)) as rows.
  intros rows. unfold show. change (screen rows) with ([] ++ screen rows)%list. generalize (@nil string) as acc.
  induction rows as [|r rows IH]; [done|]. intros acc Hr _. inversion Hr as [|? ? H1 H2]; subst.
  destruct rows as [|r' rows]; [by apply unfinished_shown|].
  change (ljoin [newline] (r :: r' :: rows)) with (r ++ newline :: ljoin [newline] (r' :: rows))%list.
  rewrite finished_shown, IH by done. by rewrite <- app_assoc.
Qed.
