(* ===== verification/Ports.v ===== *)
(** * Ports of a server (backend/helpers.go)

    Which ports a server listens on, from its configs, and the check that tells the user
    whether they can be reached.  The network is a function: what answers a test. *)

From Stdlib Require Import ZArith Lia Bool String Ascii List.
From stdpp Require Import base gmap strings list.
From S2P Require Import Prelude GoStrings Text Validate Http GoNet Cron Cfg Settings Stores ProxyController Query Hub Output.

Definition lgsmCfgValuesAt (d : cfg_dir) : gmap string string := lgsmCfgValues d true.

(** ** Ports in config files *)

(** The digits after the first [before] followed by a digit: [before(\d+)].  A text is a list
    of bytes; [None] in it stands for any rune (the dot of a regular expression). *)
Fixpoint pattern_rest (p : list (option ascii)) (l : bytes) : option bytes :=
  match p with
  | [] => Some l
  | Some c :: p' => match l with x :: l' => if Ascii.eqb c x then pattern_rest p' l' else None | [] => None end
  | None :: p' => match l with
                  | x :: l' => if Ascii.eqb x newline then None else pattern_rest p' (drop (Nat.max 1 (rune_width l)) l)
                  | [] => None
                  end
  end.
Fixpoint find_digits (before : list (option ascii)) (after : bytes) (l : bytes) : option bytes :=
  let here := match pattern_rest before l with
              | Some r => let '(ds, rest) := span is_digit r in
                          if (0 <? length ds)%nat && lprefix after rest then Some ds else None
              | None => None
              end in
  match here, l with
  | Some ds, _ => Some ds
  | None, _ :: r => find_digits before after r
  | None, [] => None
  end.
Definition literal (s : string) : list (option ascii) := map Some (to_bytes s).
Definition port_in (before : list (option ascii)) (after : string) (text : string) : option Z :=
  match find_digits before (to_bytes after) (to_bytes text) with
  | Some ds => match atoi (of_bytes ds) with Some p => if p >? 0 then Some p else None | None => None end
  | None => None
  end.
Definition mtaPort : string -> option Z := port_in (literal "<serverport>") "</serverport>".
Definition mtaHttp : string -> option Z := port_in (literal "<httpport>") "</httpport>".
Definition mcPort : string -> option Z := port_in (literal "server-port=") "".
Definition mcQuery : string -> option Z := port_in (literal "query" ++ None :: literal "port=") "".
Definition mcRcon : string -> option Z := port_in (literal "rcon" ++ None :: literal "port=") "".

(** The first, and the last port a pattern finds in a file. *)
Fixpoint first_port (re : string -> option Z) (lines : list string) : option Z :=
  match lines with
  | [] => None
  | l :: r => match re l with Some p => Some p | None => first_port re r end
  end.
Definition last_port (re : string -> option Z) (lines : list string) : option Z :=
  fold_left (fun found l => match re l with Some p => Some p | None => found end) lines None.

Definition positive_port (values : gmap string string) (key : string) : option Z :=
  match atoi (default "" (values !! key)) with Some p => if p >? 0 then Some p else None | None => None end.

(** [mta] and [mc] are the texts of mtaserver.conf and server.properties, where they can be
    opened; [rootScript] is the game of the script. *)
Definition parseServerPort (values : gmap string string) (rootScript scriptName : string) (mta mc : option string) : Z :=
  match positive_port values "port" with
  | Some p => p
  | None =>
      let named names := mem rootScript names || mem scriptName names in
      let of_file re file := match file with Some text => first_port re (scanner_lines (split newline text)) | None => None end in
      match (if named ["mtaserver"] then of_file mtaPort mta else None) with
      | Some p => p
      | None => match (if named ["mcserver"; "minecraft"] then of_file mcPort mc else None) with Some p => p | None => 0 end
      end
  end.

Definition isMinecraftJavaGame (game : string) : bool := String.eqb game "minecraft" || mem game minecraftJavaGames.

Definition mta_ports (text : string) : list PortProbe :=
  let lines := scanner_lines (split newline text) in
  let serverPort := default 22003 (last_port mtaPort lines) in
  [listed_port serverPort "UDP" "MTA Game Port"; listed_port (wrap64 (serverPort + 123)) "UDP" "MTA ASE Query Port";
   listed_port (default 22005 (last_port mtaHttp lines)) "TCP" "MTA HTTP Web Server"].
Definition mc_ports (text : string) : list PortProbe :=
  let lines := scanner_lines (split newline text) in
  listed_port (default 25565 (last_port mcPort lines)) "TCP" "Minecraft Game Port" ::
  (match last_port mcQuery lines with Some p => [listed_port p "UDP" "Minecraft Query Port"] | None => [] end) ++
  (match last_port mcRcon lines with Some p => [listed_port p "TCP" "Minecraft RCON Port"] | None => [] end).
Definition cfg_ports (values : gmap string string) (game : string) : list PortProbe :=
  omap (fun '(key, proto, desc) =>
          match positive_port values key with Some p => if p <? 65536 then Some (listed_port p proto desc) else None | None => None end)
    [("port", if isMinecraftJavaGame game then "TCP" else "UDP", "Game Port"); ("queryport", "UDP", "Query Port");
     ("rconport", "TCP", "RCON Port"); ("appport", "TCP", "App Port"); ("sourcetvport", "UDP", "SourceTV Port")].
Definition parseServerPortsFromConfig (values : gmap string string) (scriptName game : string) (mta mc : option string) : list PortProbe :=
  match (if String.eqb scriptName "mtaserver" || String.eqb game "multitheftauto" then mta else None) with
  | Some text => mta_ports text
  | None =>
      match (if mem scriptName ["mcserver"; "minecraft"] || isMinecraftJavaGame game then mc else None) with
      | Some text => mc_ports text
      | None => cfg_ports values game
      end
  end.

(** ** Testing ports *)

Definition portStatusOpen : string := "open".
Definition portStatusLocal : string := "local".
Definition portStatusClosed : string := "closed".
Definition portStatusUntestable : string := "untestable".
Definition portTestTCP : string := "tcp".
Definition portTestA2S : string := "a2s".
Definition portTestMCB : string := "mcbedrock".

Definition is_query (description : string) : bool :=
  let d := lower description in contains d "query" && negb (contains d "rcon").
Definition portTestFor (p : PortProbe) (querytype : string) (hasQueryPort : bool) : string :=
  if EqualFold (pt_Protocol p) "TCP" then portTestTCP else
  let isGame := contains (lower (pt_Description p)) "game" in
  if String.eqb querytype "protocol-valve" then
    (if is_query (pt_Description p) || (isGame && negb hasQueryPort) then portTestA2S else "")
  else if String.eqb querytype "mbe" then (if isGame then portTestMCB else "")
  else "".

(** What the network does: whether a TCP connection can be made, and the first datagram that
    answers a request. *)
Record network := mkNetwork {
  tcp_open : string -> Z -> bool;
  udp_answer : string -> Z -> list Z -> option (list Z);
  bedrock_info : string -> Z -> bool }.
Definition checkTCP (net : network) (ip : string) (port : Z) : bool := tcp_open net ip port.
Definition checkUDPQuery (net : network) (ip : string) (port : Z) : bool :=
  match udp_answer net ip port a2sInfoRequest with
  | Some buf => let buf := take 1024 buf in (4 <? length buf)%nat && forallb (Z.eqb 0xFF) (take 4 buf)
  | None => false
  end.
Definition runPortTest (net : network) (test host : string) (port : Z) : bool :=
  if String.eqb test portTestTCP then checkTCP net host port
  else if String.eqb test portTestA2S then checkUDPQuery net host port
  else if String.eqb test portTestMCB then bedrock_info net host port
  else false.
Definition probePort (net : network) (test publicIP : string) (localHosts : list string) (port : Z) : string :=
  if String.eqb test "" then portStatusUntestable
  else if negb (String.eqb publicIP "") && runPortTest net test publicIP port then portStatusOpen
  else if existsb (fun host => runPortTest net test host port) localHosts then portStatusLocal
  else portStatusClosed.

Definition same_port (p q : PortProbe) : bool := (pt_Port p =? pt_Port q) && EqualFold (pt_Protocol p) (pt_Protocol q).
(** [out[i].Description += ", " + p.Description] for the first entry of the same port. *)
Definition describe (o p : PortProbe) : PortProbe :=
  if contains (pt_Description o) (pt_Description p) then o
  else mkProbe (pt_Port o) (pt_Protocol o) (pt_Open o) (pt_Description o +:+ ", " +:+ pt_Description p) (pt_ViaProxy o) (pt_Status o).
Fixpoint add_probe (out : list PortProbe) (p : PortProbe) : list PortProbe :=
  match out with
  | [] => [p]
  | o :: r => if same_port o p then describe o p :: r else o :: add_probe r p
  end.
Definition uniquePorts (ports : list PortProbe) : list PortProbe := fold_left add_probe ports [].

(** The answer of the lookup of the public address, and the cache with its time. *)
Definition publicIPCacheTime : Z := 10 * ns_minute.
Definition getPublicIP (now : Z) (fetched : option string) (cache : string * Z) : option string * (string * Z) :=
  if negb (String.eqb cache.1 "") && (now - cache.2 <? publicIPCacheTime) then (Some cache.1, cache)
  else match fetched with
       | None => (None, cache)
       | Some body => let ip := trim_space (stake 64 body) in
                      if is_ip ip then (Some ip, (ip, now)) else (None, cache)
       end.

Record checked := mkChecked {
  ck_Port : Z; ck_Script : string; ck_Game : string; ck_BindIP : string; ck_ParsedPorts : list PortProbe }.
Definition proxy_address (proxyHost : option (Z -> string -> string)) (p : PortProbe) : string :=
  match proxyHost with Some f => f (pt_Port p) (pt_Protocol p) | None => "" end.
Definition check_probe (net : network) (publicIP : string) (proxyHost : option (Z -> string -> string)) (querytype : string)
    (hasQueryPort : bool) (localHosts : list string) (p : PortProbe) : PortProbe :=
  let host := proxy_address proxyHost p in
  let public := if String.eqb host "" then publicIP else host in
  let via := if String.eqb host "" then pt_ViaProxy p else host in
  let status := probePort net (portTestFor p querytype hasQueryPort) public localHosts (pt_Port p) in
  mkProbe (pt_Port p) (pt_Protocol p) (String.eqb status portStatusOpen) (pt_Description p) via status.
(** The ports of LinuxGSM's details, else of the configs, else the game port. *)
Definition known_ports (values : gmap string string) (mta mc : option string) (srv : checked) : list PortProbe :=
  let ports := match ck_ParsedPorts srv with
               | [] => parseServerPortsFromConfig values (ck_Script srv) (ck_Game srv) mta mc
               | l => l
               end in
  match ports with
  | [] => if ck_Port srv >? 0
          then [listed_port (ck_Port srv) (if isMinecraftJavaGame (ck_Game srv) then "TCP" else "UDP") "Game Port"] else []
  | l => l
  end.
Definition local_hosts (bindIP : string) (queryHosts : list string) : list string :=
  fold_left (fun hs h => if is_ip h then appendUniqueString hs h else hs) queryHosts
    (if negb (String.eqb bindIP "") && negb (String.eqb bindIP "0.0.0.0") && is_ip bindIP
     then appendUniqueString ["127.0.0.1"] bindIP else ["127.0.0.1"]).
(** [publicIP] is empty when it is unknown.  The probes are checked at the same time, and each
    goroutine writes its own entry, so the order does not matter. *)
Definition CheckServerPorts (net : network) (publicIP : string) (proxyHost : option (Z -> string -> string)) (queryHosts : list string)
    (values : gmap string string) (mta mc : option string) (srv : checked) : list PortProbe :=
  let probes := uniquePorts (known_ports values mta mc srv) in
  let hasQueryPort := existsb (fun p => is_query (pt_Description p)) probes in
  map (check_probe net publicIP proxyHost (default "" (values !! "querytype")) hasQueryPort (local_hosts (ck_BindIP srv) queryHosts)) probes.

Example port_examples :
  mcPort "server-port=25570 " = Some 25570 /\ mcPort "server-port=x server-port=7" = Some 7 /\ mcPort "server-port=0" = None /\
  mcQuery "query.port=9" = Some 9 /\ mcQuery "query-port=9" = Some 9 /\ mtaPort "<serverport>22003</serverport>" = Some 22003 /\
  mtaPort "<serverport>22003 </serverport>" = None.
Proof. vm_compute. by split_and!. Qed.

(** * Properties *)

Definition port_key (p : PortProbe) : Z * string := (pt_Port p, of_bytes (fold_bytes (to_bytes (pt_Protocol p)))).
Lemma same_port_key p q : same_port p q = true <-> port_key p = port_key q.
Proof.
  unfold same_port, port_key, EqualFold. rewrite andb_true_iff, Z.eqb_eq, String.eqb_eq. split; [by intros [-> ->]|by intros [= -> ->]].
Qed.

Lemma lcontains_spec p l : lcontains p l = true <-> exists a b, l = (a ++ p ++ b)%list.
Proof.
  induction l as [|x l IH]; cbn [lcontains].
  - rewrite orb_false_r, lprefix_spec. split.
    + intros [r E]. exists [], r. done.
    + intros (a & b & E). destruct a; [by exists b|done].
  - rewrite orb_true_iff, lprefix_spec, IH. split.
    + intros [[r E]|(a & b & ->)]; [by exists [], r|by exists (x :: a), b].
    + intros (a & b & E). destruct a as [|y a]; [left; by exists b|right]. injection E as -> ->. by exists a, b.
Qed.
Lemma contains_spec s p : contains s p = true <-> exists a b, s = a +:+ p +:+ b.
Proof.
  unfold contains. rewrite lcontains_spec. split.
  - intros (a & b & E). exists (of_bytes a), (of_bytes b). apply to_bytes_inj. by rewrite !to_bytes_app, !to_of_bytes.
  - intros (a & b & ->). exists (to_bytes a), (to_bytes b). by rewrite !to_bytes_app.
Qed.
Lemma contains_refl s : contains s s = true.
Proof. apply contains_spec. exists "", "". by rewrite string_app_nil_r. Qed.
Lemma contains_describe o p d : contains (pt_Description o) d = true -> contains (pt_Description (describe o p)) d = true.
Proof.
  intros H. unfold describe. destruct (contains (pt_Description o) (pt_Description p)); [done|].
  apply contains_spec in H as (a & b & E). apply contains_spec. exists a, (b +:+ ", " +:+ pt_Description p).
  cbn. by rewrite E, !string_app_assoc.
Qed.
Lemma describe_contains o p : contains (pt_Description (describe o p)) (pt_Description p) = true.
Proof.
  unfold describe. destruct (contains (pt_Description o) (pt_Description p)) eqn:E; [done|].
  apply contains_spec. exists (pt_Description o +:+ ", "), "". cbn. by rewrite string_app_nil_r, string_app_assoc.
Qed.
Lemma describe_key o p : port_key (describe o p) = port_key o.
Proof. unfold describe. by destruct (contains _ _). Qed.

(** One more port: a new entry at the end, or its description joins the entry it has. *)
Lemma add_probe_keys out p :
  map port_key (add_probe out p) = if decide (port_key p ∈ map port_key out) then map port_key out else (map port_key out ++ [port_key p])%list.
Proof.
  induction out as [|o out IH]; [done|]. cbn [add_probe map]. destruct (same_port o p) eqn:E.
  - apply same_port_key in E. cbn [map]. rewrite describe_key, E. rewrite decide_True by left. done.
  - cbn [map]. rewrite IH. assert (Hne : port_key p <> port_key o) by (intros H; symmetry in H; apply same_port_key in H; congruence).
    destruct (decide (port_key p ∈ map port_key out)) as [Hin|Hin].
    + rewrite decide_True by by right. done.
    + rewrite decide_False; [done|]. by intros [?|?]%elem_of_cons.
Qed.
Definition describes (out : list PortProbe) (p : PortProbe) : Prop :=
  exists q, q ∈ out /\ port_key q = port_key p /\ contains (pt_Description q) (pt_Description p) = true.
Lemma add_probe_describes out p : describes (add_probe out p) p /\ (forall q, describes out q -> describes (add_probe out p) q).
Proof.
  induction out as [|o out [IH1 IH2]]; cbn [add_probe].
  - split; [exists p; split_and!; [left|done|apply contains_refl]|]. intros q (x & Hx & _). by apply not_elem_of_nil in Hx.
  - destruct (same_port o p) eqn:E.
    + split; [exists (describe o p); split_and!; [left|rewrite describe_key; by apply same_port_key|apply describe_contains]|].
      intros q (x & [->|Hx]%elem_of_cons & Hk & Hc); [|exists x; split_and!; [by right|done..]].
      exists (describe o p). split_and!; [left|by rewrite describe_key|by apply contains_describe].
    + split; [destruct IH1 as (x & Hx & ?); exists x; split; [by right|done]|].
      intros q (x & [->|Hx]%elem_of_cons & H); [exists o; split; [left|done]|].
      destruct (IH2 q) as (y & Hy & ?); [by exists x|]. exists y. split; [by right|done].
Qed.

Lemma unique_ports_spec ports : forall out, NoDup (map port_key out) ->
  let r := fold_left add_probe ports out in
  NoDup (map port_key r) /\ (forall k, k ∈ map port_key r <-> k ∈ map port_key out \/ k ∈ map port_key ports) /\
  (forall p, p ∈ ports \/ describes out p -> describes r p).
Proof.
  induction ports as [|p ports IH]; intros out Hn; cbn [fold_left].
  - split_and!; [done| |].
    + intros k. split; [by left|by intros [?|?%elem_of_nil]].
    + intros p [?%elem_of_nil|?]; done.
  - destruct (add_probe_describes out p) as [D1 D2]. pose proof (add_probe_keys out p) as Hk.
    assert (Hn' : NoDup (map port_key (add_probe out p))).
    { rewrite Hk. destruct (decide _) as [|Hin]; [done|]. apply NoDup_app. split_and!; [done| |apply NoDup_singleton].
      intros x Hx ->%list_elem_of_singleton. done. }
    destruct (IH _ Hn') as (H1 & H2 & H3). split_and!; [done| |].
    + intros k. rewrite H2, Hk. cbn [map]. rewrite elem_of_cons.
      destruct (decide (port_key p ∈ map port_key out)) as [Hin|]; [|rewrite elem_of_app, list_elem_of_singleton]; [|tauto].
      split; [tauto|]. intros [|[->|]]; tauto.
    + intros q Hq. apply H3. destruct Hq as [[->|Hq]%elem_of_cons|Hq]; [right; exact D1|by left|right; by apply D2].
Qed.

Definition public_host (publicIP : string) (p : PortProbe) : string :=
  if String.eqb (pt_ViaProxy p) "" then publicIP else pt_ViaProxy p.

Lemma probe_port_spec net test publicIP hosts port :
  let s := probePort net test publicIP hosts port in
  (s = portStatusUntestable <-> test = "") /\
  (s = portStatusOpen <-> test <> "" /\ publicIP <> "" /\ runPortTest net test publicIP port = true) /\
  (s = portStatusClosed -> forall h, h ∈ hosts -> runPortTest net test h port = false).
Proof.
  unfold probePort. destruct (String.eqb_spec test "") as [->|Ht]; cbn zeta;
    [split_and!; [done|by split; [|intros [[] _]]|done]|].
  destruct (String.eqb_spec publicIP "") as [->|Hp]; cbn [negb andb].
  - split_and!; [by destruct (existsb _ _)|by destruct (existsb _ _); (split; [|intros (_ & [] & _)])|].
    destruct (existsb _ _) eqn:E; [done|]. intros _ h Hh. destruct (runPortTest net test h port) eqn:Er; [|done].
    rewrite <- E. symmetry. apply existsb_exists. exists h. split; [by apply list_elem_of_In|done].
  - destruct (runPortTest net test publicIP port) eqn:Eo; [by split_and!|].
    split_and!; [by destruct (existsb _ _)|by destruct (existsb _ _); (split; [|intros (_ & _ & ?)])|].
    destruct (existsb _ _) eqn:E; [done|]. intros _ h Hh. destruct (runPortTest net test h port) eqn:Er; [|done].
    rewrite <- E. symmetry. apply existsb_exists. exists h. split; [by apply list_elem_of_In|done].
Qed.

Lemma listed_port_via p : forall port proto desc, p = listed_port port proto desc -> pt_ViaProxy p = "".
Proof. by intros ??? ->. Qed.
Lemma config_ports_via values script game mta mc :
  Forall (fun p => pt_ViaProxy p = "") (parseServerPortsFromConfig values script game mta mc).
Proof.
  unfold parseServerPortsFromConfig. destruct (if String.eqb script "mtaserver" || _ then mta else None); [by repeat constructor|].
  destruct (if mem script _ || _ then mc else None).
  - unfold mc_ports. constructor; [done|]. apply Forall_app. split; by destruct (last_port _ _); repeat constructor.
  - apply Forall_forall. intros p Hp. apply list_elem_of_omap in Hp as ([[key proto] desc] & _ & Hp).
    destruct (positive_port values key) as [z|]; [|done]. destruct (z <? 65536); [|done]. by injection Hp as <-.
Qed.
Lemma add_probe_via out p : pt_ViaProxy p = "" -> Forall (fun p => pt_ViaProxy p = "") out -> Forall (fun p => pt_ViaProxy p = "") (add_probe out p).
Proof.
  intros Hp. induction out as [|o out IH]; [by repeat constructor|]. inversion 1; subst. cbn [add_probe]. destruct (same_port o p); constructor; auto.
  unfold describe. by destruct (contains _ _).
Qed.
Lemma unique_ports_via ports : Forall (fun p => pt_ViaProxy p = "") ports -> Forall (fun p => pt_ViaProxy p = "") (uniquePorts ports).
Proof.
  unfold uniquePorts. assert (H : forall out, Forall (fun p => pt_ViaProxy p = "") out -> Forall (fun p => pt_ViaProxy p = "") ports ->
    Forall (fun p => pt_ViaProxy p = "") (fold_left add_probe ports out)); [|by apply H].
  induction ports as [|p ports IH]; intros out Ho Hp; [done|]. inversion Hp; subst. cbn [fold_left]. apply IH; [by apply add_probe_via|done].
Qed.

Lemma known_ports_via values mta mc srv : Forall (fun p => pt_ViaProxy p = "") (ck_ParsedPorts srv) ->
  Forall (fun p => pt_ViaProxy p = "") (known_ports values mta mc srv).
Proof.
  intros H. unfold known_ports. destruct (ck_ParsedPorts srv); [|done].
  pose proof (config_ports_via values (ck_Script srv) (ck_Game srv) mta mc) as Hc. destruct (parseServerPortsFromConfig _ _ _ _ _); [|done].
  destruct (ck_Port srv >? 0); by repeat constructor.
Qed.
Lemma local_hosts_loopback bindIP queryHosts : "127.0.0.1" ∈ local_hosts bindIP queryHosts.
Proof.
  unfold local_hosts.
  assert (H0 : "127.0.0.1" ∈ if negb (String.eqb bindIP "") && negb (String.eqb bindIP "0.0.0.0") && is_ip bindIP
                             then appendUniqueString ["127.0.0.1"] bindIP else ["127.0.0.1"]).
  { destruct (_ && _); [|left]. unfold appendUniqueString. destruct (mem _ _); left. }
  revert H0. generalize (if negb (String.eqb bindIP "") && negb (String.eqb bindIP "0.0.0.0") && is_ip bindIP
                         then appendUniqueString ["127.0.0.1"] bindIP else ["127.0.0.1"]) as l.
  induction queryHosts as [|h qs IH]; intros l Hl; [done|]. cbn [fold_left]. apply IH.
  destruct (is_ip h); [|done]. unfold appendUniqueString. destruct (mem h l); [done|]. apply elem_of_app. by left.
Qed.
(** One checked port. *)
Lemma check_probe_spec net publicIP proxyHost querytype hasQ bindIP queryHosts q : pt_ViaProxy q = "" ->
  let p := check_probe net publicIP proxyHost querytype hasQ (local_hosts bindIP queryHosts) q in
  let test := portTestFor p querytype hasQ in
  let host := public_host publicIP p in
  pt_ViaProxy p = proxy_address proxyHost p /\
  (pt_Open p = true <-> test <> "" /\ host <> "" /\ runPortTest net test host (pt_Port p) = true) /\
  (pt_Status p = portStatusUntestable <-> test = "") /\
  (pt_Status p = portStatusClosed -> runPortTest net test "127.0.0.1" (pt_Port p) = false).
Proof.
  intros Hv. cbv zeta. set (p := check_probe _ _ _ _ _ _ _). set (proxied := proxy_address proxyHost q).
  destruct (probe_port_spec net (portTestFor q querytype hasQ) (if String.eqb proxied "" then publicIP else proxied) (local_hosts bindIP queryHosts) (pt_Port q))
    as (P1 & P2 & P3).
  assert (Hvia : pt_ViaProxy p = proxied).
  { unfold p, check_probe. fold proxied. cbn [pt_ViaProxy]. destruct (String.eqb_spec proxied "") as [E|]; [by rewrite E|done]. }
  assert (Hh : public_host publicIP p = if String.eqb proxied "" then publicIP else proxied) by (unfold public_host; by rewrite Hvia).
  rewrite Hh. split_and!; [exact Hvia| |exact P1|intros Hs; by apply P3, local_hosts_loopback].
  etransitivity; [|exact P2]. unfold p, check_probe. fold proxied. cbn [pt_Open]. apply String.eqb_eq.
Qed.

Lemma check_probe_query net publicIP proxyHost querytype hasQ hosts l :
  existsb (fun p => is_query (pt_Description p)) (map (check_probe net publicIP proxyHost querytype hasQ hosts) l) =
  existsb (fun p => is_query (pt_Description p)) l.
Proof. induction l as [|x l IH]; [done|]. cbn [map existsb]. by rewrite IH. Qed.

(** the port check (CheckServerPorts).  Every port that is known of the server is in the
    answer, once per port and protocol and with all its descriptions.  A port is said to be
    open exactly when something answered the test of its protocol at the address players use,
    the one of the proxy where it is published there; one without a test is never said to be
    open or closed; and a closed one did not answer on the machine itself either. *)
Theorem ports_checked net publicIP proxyHost queryHosts values mta mc srv :
  Forall (fun p => pt_ViaProxy p = "") (ck_ParsedPorts srv) ->
  let r := CheckServerPorts net publicIP proxyHost queryHosts values mta mc srv in
  NoDup (map port_key r) /\
  (forall p, p ∈ ck_ParsedPorts srv \/ ck_ParsedPorts srv = [] /\ p ∈ parseServerPortsFromConfig values (ck_Script srv) (ck_Game srv) mta mc ->
     describes r p) /\
  (forall p, p ∈ r ->
     let test := portTestFor p (default "" (values !! "querytype")) (existsb (fun p => is_query (pt_Description p)) r) in
     let host := public_host publicIP p in
     pt_ViaProxy p = proxy_address proxyHost p /\
     (pt_Open p = true <-> test <> "" /\ host <> "" /\ runPortTest net test host (pt_Port p) = true) /\
     (pt_Status p = portStatusUntestable <-> test = "") /\
     (pt_Status p = portStatusClosed -> runPortTest net test "127.0.0.1" (pt_Port p) = false)).
Proof.
  intros Hvia. cbv zeta. unfold CheckServerPorts. cbv zeta. set (probes := uniquePorts _). set (hasQ := existsb _ probes).
  set (chk := check_probe net publicIP proxyHost _ hasQ _).
  assert (Hk : forall l, map port_key (map chk l) = map port_key l) by (intros l; rewrite map_map; by apply map_ext).
  assert (Hq : existsb (fun p => is_query (pt_Description p)) (map chk probes) = hasQ) by apply check_probe_query.
  destruct (unique_ports_spec (known_ports values mta mc srv) []) as (H1 & _ & H3); [constructor|].
  rewrite Hk. split_and!; [exact H1| |].
  - intros p Hp. destruct (H3 p) as (q & Hin & Hkey & Hd).
    { left. unfold known_ports. destruct Hp as [Hp|[-> Hp]].
      - destruct (ck_ParsedPorts srv); [by apply elem_of_nil in Hp|done].
      - destruct (parseServerPortsFromConfig _ _ _ _ _); [by apply elem_of_nil in Hp|done]. }
    exists (chk q). split_and!; [apply list_elem_of_fmap; by exists q|exact Hkey|exact Hd].
  - intros p Hp. rewrite Hq. apply list_elem_of_fmap in Hp as (q & -> & Hin). apply check_probe_spec.
    by apply (proj1 (Forall_forall _ _) (unique_ports_via _ (known_ports_via values mta mc srv Hvia))).
Qed.

Lemma ports_checked_witness :
  let srv := mkChecked 0 "css" "css" "" [listed_port 27015 "UDP" "Game"; listed_port 27015 "udp" "Query"; listed_port 27020 "UDP" "SourceTV"] in
  let net := mkNetwork (fun _ _ => false) (fun h p _ => if String.eqb h "203.0.113.9" && (p =? 27015) then Some [255; 255; 255; 255; 73] else None) (fun _ _ => false) in
  let r := CheckServerPorts net "198.51.100.1" (Some (fun p _ => if p =? 27015 then "203.0.113.9" else "")) [] {[ "querytype" := "protocol-valve" ]} None None srv in
  r = [mkProbe 27015 "UDP" true "Game, Query" "203.0.113.9" "open"; mkProbe 27020 "UDP" false "SourceTV" "" "untestable"] /\ NoDup (map port_key r).
Proof. split; [vm_compute; reflexivity|]. apply ports_checked. by repeat constructor. Defined.
