(* ===== verification/Locks.v ===== *)
(** * One command per directory (backend/manager.go: dirLocks, RunAction, RunBulkAction)

    Instances of a directory share LinuxGSM's files, so their commands run one at a time.  A
    request for a single server gives up when the directory is busy ([tryLock]); commands
    without a browser that watches wait ([lock]); and a bulk action runs at most four commands
    at once, each of which waits.  Every critical section of the mutex, and every operation on
    a channel, is one step of a task, so tasks interleave freely.  Some requests run commands without the
    lock.  The theorems say that no two commands that take it meet in a directory, that no
    wake-up is lost, and that tasks end when their commands do and no newcomers overtake
    them for ever. *)

From Stdlib Require Import ZArith Lia Bool String Ascii List.
From stdpp Require Import base gmap strings list fin_maps relations.
From S2P Require Import Prelude.

#[local] Open Scope nat_scope.

Definition maxBulkWorkers : nat := 4.

(** Gives up when the directory is busy (RunAction, RestoreBackup), waits for it
    (RunActionDirect), waits as one of the workers of a bulk action, or runs its command
    without the lock: the stop of DeleteServer, the details of executeRefreshDetails, the
    mods-install of AvailableMods, and the jobs of the Docker scheduler. *)
Inductive task_kind := Gives_up | Waits | Bulk (action : nat) | Ignores_lock.

(** Where a task stands.  A channel is a number. *)
Inductive phase :=
| Queued                (* sends to the channel of the slots *)
| Checking              (* [checkAction] *)
| Trying                (* calls [tryLock] *)
| Looking               (* [tryLock] failed in [lock]: reads the channel of the directory *)
| Waiting (ch : nat)    (* receives from the channel *)
| Running (ch : nat)    (* holds the lock; the command runs *)
| Bare                  (* the command runs without the lock *)
| Closing (ch : nat)    (* [release] has deleted the entry and not yet closed the channel *)
| Leaving               (* gives its slot back *)
| Done.
#[export] Instance phase_eq : EqDecision phase.
Proof. solve_decision. Defined.

Record task := mkTask { t_kind : task_kind; t_dir : string; t_phase : phase }.
Definition set_phase (p : phase) (t : task) : task := mkTask (t_kind t) (t_dir t) p.

(** [busy] is the map of dirLocks; [slots] counts the elements in the channel of a bulk action. *)
Record state := mkState {
  busy : gmap string nat; closed : gset nat; fresh : nat; slots : gmap nat nat; tasks : list task }.
Definition used (st : state) (b : nat) : nat := default 0 (slots st !! b).

Definition put_task (i : nat) (t : task) (st : state) : state :=
  mkState (busy st) (closed st) (fresh st) (slots st) (<[i := t]> (tasks st)).
Definition set_busy (m : gmap string nat) (st : state) : state := mkState m (closed st) (fresh st) (slots st) (tasks st).
Definition set_used (b n : nat) (st : state) : state := mkState (busy st) (closed st) (fresh st) (<[b := n]> (slots st)) (tasks st).

(** Where a task goes when it is done with the lock, or was refused. *)
Definition leave (t : task) : phase := match t_kind t with Bulk _ => Leaving | _ => Done end.

Definition tryLock (i : nat) (t : task) (st : state) : option state :=
  match busy st !! t_dir t with
  | Some _ => None
  | None => let ch := fresh st in
            Some (put_task i (set_phase (Running ch) t) (mkState (<[t_dir t := ch]> (busy st)) (closed st) (S ch) (slots st) (tasks st)))
  end.
(** One step of task [i]; [ok] is the result of its checks, and whether its command has ended.
    [None]: it blocks, its command still runs, or it has ended. *)
Definition act (i : nat) (ok : bool) (st : state) : option state :=
  match tasks st !! i with
  | None => None
  | Some t =>
      let goto p := put_task i (set_phase p t) st in
      match t_phase t with
      | Queued =>
          match t_kind t with
          | Bulk b => if used st b <? maxBulkWorkers then Some (set_used b (S (used st b)) (goto Checking)) else None
          | _ => None
          end
      | Checking => Some (goto (if ok then match t_kind t with Ignores_lock => Bare | _ => Trying end else leave t))
      | Trying =>
          match tryLock i t st with
          | Some st' => Some st'
          | None => Some (goto (match t_kind t with Gives_up => Done | _ => Looking end))
          end
      | Looking => Some (goto (match busy st !! t_dir t with Some ch => Waiting ch | None => Trying end))
      | Waiting ch => if decide (ch ∈ closed st) then Some (goto Trying) else None
      | Running ch => if ok then Some (set_busy (delete (t_dir t) (busy st)) (goto (Closing ch))) else None
      | Bare => if ok then Some (goto Done) else None
      | Closing ch => let st := goto (leave t) in
                      Some (mkState (busy st) ({[ ch ]} ∪ closed st) (fresh st) (slots st) (tasks st))
      | Leaving => match t_kind t with Bulk b => Some (set_used b (Nat.pred (used st b)) (goto Done)) | _ => None end
      | Done => None
      end
  end.

(** A new request. *)
Definition arrive (k : task_kind) (dir : string) (st : state) : state :=
  mkState (busy st) (closed st) (fresh st) (slots st)
    (tasks st ++ [mkTask k dir (match k with Bulk _ => Queued | _ => Checking end)]).
Definition nothing : state := mkState ∅ ∅ 0 ∅ [].

Inductive step : state -> state -> Prop :=
| step_act i ok st st' : act i ok st = Some st' -> step st st'
| step_arrive k dir st : step st (arrive k dir st).
(** [n] steps of the tasks while [k] new requests come in. *)
Inductive runs : nat -> nat -> state -> state -> Prop :=
| runs_nil st : runs 0 0 st st
| runs_act n k i ok st st' st'' : act i ok st = Some st' -> runs n k st' st'' -> runs (S n) k st st''
| runs_arrive n k kind dir st st'' : runs n k (arrive kind dir st) st'' -> runs n (S k) st st''.

(** * The invariant *)

Definition has_slot (b : nat) (t : task) : bool :=
  match t_kind t, t_phase t with
  | Bulk _, Queued | Bulk _, Done => false
  | Bulk b', _ => b' =? b
  | _, _ => false
  end.
Definition workers (b : nat) (l : list task) : nat := sum_list_with (fun t => if has_slot b t then 1 else 0) l.

(** The channel a task made: it holds the lock, or is about to close the channel. *)
Definition owns (t : task) : option nat :=
  match t_phase t with Running ch | Closing ch => Some ch | _ => None end.
Definition shaped (t : task) : Prop :=
  match t_kind t, t_phase t with
  | Gives_up, (Queued | Looking | Waiting _ | Leaving | Bare) => False
  | Waits, (Queued | Leaving | Bare) => False
  | Bulk _, Bare => False
  | Ignores_lock, (Checking | Bare | Done) => True
  | Ignores_lock, _ => False
  | _, _ => True
  end.

Record ok (st : state) : Prop := {
  ok_shape : forall i t, tasks st !! i = Some t -> shaped t;
  (* the map holds exactly the channels of the tasks that hold a lock *)
  ok_busy : forall d ch, busy st !! d = Some ch -> exists i t, tasks st !! i = Some t /\ t_dir t = d /\ t_phase t = Running ch;
  ok_running : forall i t ch, tasks st !! i = Some t -> t_phase t = Running ch -> busy st !! t_dir t = Some ch;
  ok_owner : forall i j t u ch, tasks st !! i = Some t -> tasks st !! j = Some u -> owns t = Some ch -> owns u = Some ch -> i = j;
  ok_fresh : forall i t ch, tasks st !! i = Some t -> owns t = Some ch -> ch < fresh st /\ ch ∉ closed st;
  ok_closed : forall ch, ch ∈ closed st -> ch < fresh st;
  (* nobody waits for a channel that nobody closes *)
  ok_waiting : forall i t ch, tasks st !! i = Some t -> t_phase t = Waiting ch ->
    ch ∈ closed st \/ exists j u, tasks st !! j = Some u /\ owns u = Some ch;
  ok_slots : forall b, used st b = workers b (tasks st) /\ used st b <= maxBulkWorkers }.

Lemma sum_insert {A} (f : A -> nat) (l : list A) i x y : l !! i = Some x ->
  sum_list_with f (<[i := y]> l) + f x = sum_list_with f l + f y.
Proof.
  revert i. induction l as [|z l IH]; intros [|i] Hx; [done..|injection Hx as ->; cbn; lia|].
  change (f z + sum_list_with f (<[i := y]> l) + f x = f z + sum_list_with f l + f y). specialize (IH i Hx). lia.
Qed.
Lemma workers_put b l i t t' : l !! i = Some t ->
  workers b (<[i := t']> l) + (if has_slot b t then 1 else 0) = workers b l + (if has_slot b t' then 1 else 0).
Proof. intros H. exact (sum_insert (fun t => if has_slot b t then 1 else 0) l i t t' H). Qed.
Lemma workers_same b l i t t' : l !! i = Some t -> has_slot b t' = has_slot b t -> workers b (<[i := t']> l) = workers b l.
Proof. intros H E. pose proof (workers_put b l i t t' H) as Hw. rewrite E in Hw. lia. Qed.

(** A step of task [i] that takes, gives back and closes nothing. *)
Lemma quiet_ok st st' i t t' : ok st -> tasks st !! i = Some t ->
  busy st' = busy st -> closed st' = closed st -> fresh st' = fresh st -> tasks st' = <[i := t']> (tasks st) ->
  t_dir t' = t_dir t -> owns t = None -> owns t' = None -> shaped t' ->
  (forall ch, t_phase t' = Waiting ch -> ch ∈ closed st \/ exists j u, tasks st !! j = Some u /\ owns u = Some ch) ->
  (forall b, used st' b = workers b (tasks st') /\ used st' b <= maxBulkWorkers) -> ok st'.
Proof.
  intros [Os Ob Or Oo Of Oc Ow _] Hi Eb Ec Ef Et Hd Ho Ho' Hs Hw Hsl.
  assert (Hr : forall ch, t_phase t' <> Running ch) by (intros ch E; unfold owns in Ho'; by rewrite E in Ho').
  assert (Hj : forall u ch j, tasks st !! j = Some u -> owns u = Some ch -> j <> i) by (intros u ch j Hu Hou ->; congruence).
  constructor; rewrite ?Eb, ?Ec, ?Ef, ?Et in *; [..|exact Hsl].
  - intros j u [[-> ->]|[_ Hu]]%(lookup_put _ _ _ _ _ _ Hi); [done|by eapply Os].
  - intros d ch H. destruct (Ob d ch H) as (j & u & Hu & Hdu & Hph). exists j, u. split; [|done].
    apply (lookup_put _ _ _ _ _ _ Hi). right. split; [|done]. eapply (Hj u ch); [done|unfold owns; by rewrite Hph].
  - intros j u ch [[-> ->]|[_ Hu]]%(lookup_put _ _ _ _ _ _ Hi) Hph; [by destruct (Hr ch)|by eapply Or].
  - intros j k u v ch [[-> ->]|[_ Hu]]%(lookup_put _ _ _ _ _ _ Hi) [[-> ->]|[_ Hv]]%(lookup_put _ _ _ _ _ _ Hi) H1 H2; try congruence.
    by eapply (Oo j k u v).
  - intros j u ch [[-> ->]|[_ Hu]]%(lookup_put _ _ _ _ _ _ Hi) H; [congruence|by eapply Of].
  - exact Oc.
  - intros j u ch Hju Hph.
    assert (H : ch ∈ closed st \/ exists k v, tasks st !! k = Some v /\ owns v = Some ch)
      by (apply (lookup_put _ _ _ _ _ _ Hi) in Hju as [[-> ->]|[_ Hu]]; [by apply Hw|by eapply Ow]).
    destruct H as [|(k & v & Hv & Hov)]; [by left|right]. exists k, v. split; [|done].
    apply (lookup_put _ _ _ _ _ _ Hi). right. split; [by eapply Hj|done].
Qed.
Lemma goto_ok st i t p : ok st -> tasks st !! i = Some t -> owns t = None -> owns (set_phase p t) = None -> shaped (set_phase p t) ->
  (forall ch, p = Waiting ch -> ch ∈ closed st \/ exists j u, tasks st !! j = Some u /\ owns u = Some ch) ->
  (forall b, has_slot b (set_phase p t) = has_slot b t) -> ok (put_task i (set_phase p t) st).
Proof.
  intros O Hi Ho Ho' Hs Hw Hsl. eapply (quiet_ok st); try done. intros b. cbn [tasks put_task]. rewrite (workers_same b _ _ t) by done.
  exact (ok_slots _ O b).
Qed.

Lemma acquire_ok st i t st' : ok st -> tasks st !! i = Some t -> t_phase t = Trying -> tryLock i t st = Some st' -> ok st'.
Proof.
  intros [Os Ob Or Oo Of Oc Ow Osl] Hi Hph. unfold tryLock. destruct (busy st !! t_dir t) eqn:Hfree; [done|]. intros [= <-].
  assert (Hj : forall u ch j, tasks st !! j = Some u -> owns u = Some ch -> j <> i /\ ch <> fresh st).
  { intros u ch j Hu Hou. split; [intros ->; assert (u = t) as -> by congruence; unfold owns in Hou; by rewrite Hph in Hou|].
    destruct (Of j u ch Hu Hou). lia. }
  constructor; cbn [tasks busy closed fresh put_task].
  - intros j u [[-> ->]|[_ Hu]]%(lookup_put _ _ _ _ _ _ Hi); [|by eapply Os].
    pose proof (Os _ _ Hi) as Hsh. unfold shaped in Hsh |- *. rewrite Hph in Hsh. cbn. by destruct (t_kind t).
  - intros d ch [[<- <-]|[Hd H]]%lookup_insert_Some.
    + exists i, (set_phase (Running (fresh st)) t). split_and!; [|done..]. apply (lookup_put _ _ _ _ _ _ Hi). by left.
    + destruct (Ob d ch H) as (j & u & Hu & Hdu & Hp). exists j, u. split; [|done]. apply (lookup_put _ _ _ _ _ _ Hi). right.
      split; [|done]. eapply (Hj u ch); [done|unfold owns; by rewrite Hp].
  - intros j u ch [[-> ->]|[_ Hu]]%(lookup_put _ _ _ _ _ _ Hi) Hp; [injection Hp as <-; by rewrite lookup_insert_eq|].
    pose proof (Or _ _ _ Hu Hp) as H. rewrite lookup_insert_ne; [done|]. intros E. congruence.
  - intros j k u v ch [[-> ->]|[_ Hu]]%(lookup_put _ _ _ _ _ _ Hi) [[-> ->]|[_ Hv]]%(lookup_put _ _ _ _ _ _ Hi) H1 H2; [done|..].
    + injection H1 as <-. by destruct (Hj _ _ _ Hv H2).
    + injection H2 as <-. by destruct (Hj _ _ _ Hu H1).
    + by eapply (Oo j k u v).
  - intros j u ch [[-> ->]|[_ Hu]]%(lookup_put _ _ _ _ _ _ Hi) H.
    + injection H as <-. split; [lia|]. intros Hc%Oc. lia.
    + destruct (Of _ _ _ Hu H). split; [lia|done].
  - intros ch Hc%Oc. lia.
  - intros j u ch [[-> ->]|[_ Hu]]%(lookup_put _ _ _ _ _ _ Hi) Hp; [done|]. destruct (Ow _ _ _ Hu Hp) as [|(k & v & Hv & Hov)]; [by left|right].
    exists k, v. split; [|done]. apply (lookup_put _ _ _ _ _ _ Hi). right. split; [by eapply Hj|done].
  - intros b. unfold used. cbn [slots]. rewrite (workers_same b _ _ t); [apply Osl|done|]. unfold has_slot. cbn. by rewrite Hph.
Qed.

Lemma lock_release_ok st i t ch : ok st -> tasks st !! i = Some t -> t_phase t = Running ch ->
  ok (set_busy (delete (t_dir t) (busy st)) (put_task i (set_phase (Closing ch) t) st)).
Proof.
  intros [Os Ob Or Oo Of Oc Ow Osl] Hi Hph. assert (Hown : owns t = Some ch) by (unfold owns; by rewrite Hph).
  assert (Hin : forall u k, tasks st !! k = Some u -> exists v, <[i := set_phase (Closing ch) t]> (tasks st) !! k = Some v /\ owns v = owns u).
  { intros u k Hu. destruct (decide (k = i)) as [->|Hk]; [exists (set_phase (Closing ch) t); split; [apply (lookup_put _ _ _ _ _ _ Hi); by left|]|].
    - assert (u = t) as -> by congruence. by rewrite Hown.
    - exists u. split; [|done]. apply (lookup_put _ _ _ _ _ _ Hi). by right. }
  constructor; cbn [tasks busy closed fresh put_task set_busy].
  - intros j u [[-> ->]|[_ Hu]]%(lookup_put _ _ _ _ _ _ Hi); [|by eapply Os].
    pose proof (Os _ _ Hi) as Hsh. unfold shaped in Hsh |- *. rewrite Hph in Hsh. cbn. by destruct (t_kind t).
  - intros d c [Hd H]%lookup_delete_Some. destruct (Ob d c H) as (j & u & Hu & Hdu & Hp). exists j, u. split; [|done].
    apply (lookup_put _ _ _ _ _ _ Hi). right. split; [|done]. intros ->. congruence.
  - intros j u c [[-> ->]|[Hji Hu]]%(lookup_put _ _ _ _ _ _ Hi) Hp; [done|]. pose proof (Or _ _ _ Hu Hp) as H.
    rewrite lookup_delete_ne; [done|]. intros E. apply Hji. apply (Oo j i u t c); [done..|unfold owns; by rewrite Hp|].
    rewrite Hown. pose proof (Or _ _ _ Hi Hph). congruence.
  - intros j k u v c [[-> ->]|[_ Hu]]%(lookup_put _ _ _ _ _ _ Hi) [[-> ->]|[_ Hv]]%(lookup_put _ _ _ _ _ _ Hi) H1 H2; [done|..].
    + injection H1 as <-. by apply (Oo i k t v ch).
    + injection H2 as <-. by apply (Oo j i u t ch).
    + by eapply (Oo j k u v).
  - intros j u c [[-> ->]|[_ Hu]]%(lookup_put _ _ _ _ _ _ Hi) H; [|by eapply Of]. injection H as <-. by apply (Of i t).
  - exact Oc.
  - intros j u c [[-> ->]|[_ Hu]]%(lookup_put _ _ _ _ _ _ Hi) Hp; [done|]. destruct (Ow _ _ _ Hu Hp) as [|(k & v & Hv & Hov)]; [by left|right].
    destruct (Hin v k Hv) as (w & Hw & Eo). exists k, w. by rewrite Eo.
  - intros b. unfold used. cbn [slots]. rewrite (workers_same b _ _ t); [apply Osl|done|]. unfold has_slot. cbn. by rewrite Hph.
Qed.

Lemma lock_close_ok st i t ch : ok st -> tasks st !! i = Some t -> t_phase t = Closing ch ->
  let st1 := put_task i (set_phase (leave t) t) st in ok (mkState (busy st1) ({[ ch ]} ∪ closed st1) (fresh st1) (slots st1) (tasks st1)).
Proof.
  intros [Os Ob Or Oo Of Oc Ow Osl] Hi Hph. assert (Hown : owns t = Some ch) by (unfold owns; by rewrite Hph).
  assert (Hl : owns (set_phase (leave t) t) = None) by (unfold owns, leave; cbn; by destruct (t_kind t)).
  constructor; cbn [tasks busy closed fresh slots put_task].
  - intros j u [[-> ->]|[_ Hu]]%(lookup_put _ _ _ _ _ _ Hi); [|by eapply Os].
    unfold shaped, leave. cbn. by destruct (t_kind t).
  - intros d c H. destruct (Ob d c H) as (j & u & Hu & Hdu & Hp). exists j, u. split; [|done].
    apply (lookup_put _ _ _ _ _ _ Hi). right. split; [|done]. intros ->. congruence.
  - intros j u c [[-> ->]|[Hji Hu]]%(lookup_put _ _ _ _ _ _ Hi) Hp; [|by eapply Or]. unfold owns in Hl. by rewrite Hp in Hl.
  - intros j k u v c [[-> ->]|[_ Hu]]%(lookup_put _ _ _ _ _ _ Hi) [[-> ->]|[_ Hv]]%(lookup_put _ _ _ _ _ _ Hi) H1 H2; try congruence.
    by eapply (Oo j k u v).
  - intros j u c [[-> ->]|[Hji Hu]]%(lookup_put _ _ _ _ _ _ Hi) H; [congruence|]. destruct (Of _ _ _ Hu H). split; [done|].
    rewrite elem_of_union, elem_of_singleton. intros [->|?]; [|done]. apply Hji. by apply (Oo j i u t ch).
  - intros c. rewrite elem_of_union, elem_of_singleton. intros [->|?%Oc]; [|done]. by apply (Of i t).
  - intros j u c [[-> ->]|[_ Hu]]%(lookup_put _ _ _ _ _ _ Hi) Hp; [unfold leave in Hp; cbn in Hp; by destruct (t_kind t)|].
    rewrite elem_of_union, elem_of_singleton. destruct (Ow _ _ _ Hu Hp) as [|(k & v & Hv & Hov)]; [by left; right|].
    destruct (decide (k = i)) as [->|Hk]; [left; left; congruence|right]. exists k, v. split; [|done]. apply (lookup_put _ _ _ _ _ _ Hi). by right.
  - intros b. unfold used. cbn [slots]. rewrite (workers_same b _ _ t); [apply Osl|done|]. unfold has_slot, leave. cbn. rewrite Hph. by destruct (t_kind t).
Qed.

Lemma used_set b n st c : used (set_used b n st) c = if decide (c = b) then n else used st c.
Proof.
  unfold used, set_used. cbn [slots]. destruct (decide (c = b)) as [->|]; [by rewrite lookup_insert_eq|by rewrite lookup_insert_ne].
Qed.
(** Taking and giving back a slot. *)
Lemma bulk_slot_ok st i t p b n : ok st -> tasks st !! i = Some t -> t_kind t = Bulk b -> owns t = None -> owns (set_phase p t) = None ->
  (forall ch, p <> Waiting ch) -> p <> Bare -> n <= maxBulkWorkers ->
  n + (if has_slot b t then 1 else 0) = used st b + (if has_slot b (set_phase p t) then 1 else 0) ->
  ok (set_used b n (put_task i (set_phase p t) st)).
Proof.
  intros O Hi Hk Ho Ho' Hw Hba Hn Hsum. eapply (quiet_ok st); try done; [unfold shaped; cbn; rewrite Hk; by destruct p|intros ch Hch; by destruct (Hw ch)|].
  intros c. rewrite used_set. pose proof (workers_put c _ _ _ (set_phase p t) Hi) as Hc. destruct (ok_slots _ O c) as [E Hle].
  change (used (put_task i (set_phase p t) st) c) with (used st c). cbn [tasks set_used put_task].
  destruct (decide (c = b)) as [->|Hne]; [split; [lia|done]|]. split; [|done].
  assert (Hz : forall q, has_slot c (set_phase q t) = false /\ has_slot c t = false).
  { intros q. unfold has_slot. cbn. rewrite Hk. assert (Hb : (b =? c) = false) by by apply Nat.eqb_neq. rewrite Hb. by destruct q, (t_phase t). }
  destruct (Hz p) as [Hz1 Hz2]. rewrite Hz1, Hz2 in Hc. lia.
Qed.

Lemma act_ok i b st st' : act i b st = Some st' -> ok st -> ok st'.
Proof.
  unfold act. destruct (tasks st !! i) as [t|] eqn:Hi; [|done]. intros E O. pose proof (ok_shape _ O _ _ Hi) as Hsh. cbv zeta in E.
  destruct (t_phase t) as [| | | |ch|ch| |ch| |] eqn:Hp; unfold shaped in Hsh; rewrite Hp in Hsh.
  - destruct (t_kind t) as [| |c|] eqn:Hk; [done..| |done]. destruct (used st c <? maxBulkWorkers) eqn:Hu; [|done]. injection E as <-.
    apply Nat.ltb_lt in Hu. eapply bulk_slot_ok; try done; [unfold owns; by rewrite Hp|].
    unfold has_slot. cbn. rewrite Hk, Hp, Nat.eqb_refl. lia.
  - injection E as <-. apply goto_ok; try done; [unfold owns; by rewrite Hp|unfold owns, leave; cbn; by destruct b, (t_kind t)|
      unfold shaped, leave; cbn; by destruct b, (t_kind t)|unfold leave; by destruct b, (t_kind t)|].
    intros c. unfold has_slot, leave. cbn. rewrite Hp. by destruct b, (t_kind t).
  - destruct (tryLock i t st) as [st1|] eqn:El; [injection E as <-; by eapply acquire_ok|]. injection E as <-.
    apply goto_ok; try done; [unfold owns; by rewrite Hp|unfold owns; cbn; by destruct (t_kind t)|unfold shaped; cbn; by revert Hsh; destruct (t_kind t)|by destruct (t_kind t)|].
    intros c. unfold has_slot. cbn. rewrite Hp. by destruct (t_kind t).
  - injection E as <-. destruct (busy st !! t_dir t) as [ch|] eqn:Hb.
    + apply goto_ok; try done; [unfold owns; by rewrite Hp| |intros c; unfold has_slot; cbn; rewrite Hp; by destruct (t_kind t)].
      intros ? [= <-]. right. destruct (ok_busy _ O _ _ Hb) as (j & u & Hu & _ & Hr). exists j, u. split; [done|]. unfold owns. by rewrite Hr.
    + apply goto_ok; try done; [unfold owns; by rewrite Hp|unfold shaped; cbn; by revert Hsh; destruct (t_kind t)|intros c; unfold has_slot; cbn; rewrite Hp; by destruct (t_kind t)].
  - destruct (decide (ch ∈ closed st)); [|done]. injection E as <-.
    apply goto_ok; try done; [unfold owns; by rewrite Hp|unfold shaped; cbn; by revert Hsh; destruct (t_kind t)|intros c; unfold has_slot; cbn; rewrite Hp; by destruct (t_kind t)].
  - destruct b; [|done]. injection E as <-. by apply lock_release_ok.
  - destruct b; [|done]. injection E as <-. apply goto_ok; try done; [unfold owns; by rewrite Hp|unfold shaped; cbn; by destruct (t_kind t)|].
    intros c. unfold has_slot. cbn. rewrite Hp. by destruct (t_kind t).
  - injection E as <-. by apply lock_close_ok.
  - destruct (t_kind t) as [| |c|] eqn:Hk; [done..| |done]. injection E as <-. destruct (ok_slots _ O c) as [Hu Hle].
    assert (Hpos : 1 <= used st c).
    { rewrite Hu. unfold workers. transitivity (if has_slot c t then 1 else 0); [unfold has_slot; by rewrite Hk, Hp, Nat.eqb_refl|].
      apply (sum_list_with_in t (fun t => if has_slot c t then 1 else 0)). by eapply list_elem_of_lookup_2. }
    eapply bulk_slot_ok; try done; [unfold owns; by rewrite Hp|lia|]. unfold has_slot. cbn. rewrite Hk, Hp, Nat.eqb_refl. lia.
  - done.
Qed.

Lemma arrive_ok k dir st : ok st -> ok (arrive k dir st).
Proof.
  intros [Os Ob Or Oo Of Oc Ow Osl]. unfold arrive. set (t := mkTask k dir _).
  assert (Ht : owns t = None /\ shaped t) by (unfold owns, shaped, t; cbn; by destruct k).
  assert (Hin : forall j u, (tasks st ++ [t]) !! j = Some u -> tasks st !! j = Some u \/ u = t).
  { intros j u [?|[_ H]]%lookup_app_Some; [by left|right]. apply list_lookup_singleton_Some in H as [_ H]. done. }
  assert (Hold : forall j u, tasks st !! j = Some u -> (tasks st ++ [t]) !! j = Some u) by (intros j u ?; by apply lookup_app_l_Some).
  destruct Ht as [Ho Hsh]. assert (Hph : forall ch, t_phase t <> Running ch /\ t_phase t <> Waiting ch) by (intros ch; unfold t; cbn; by destruct k).
  constructor; cbn [tasks busy closed fresh].
  - intros j u [Hu|Hu]%Hin; [by eapply Os|by rewrite Hu].
  - intros d ch H. destruct (Ob d ch H) as (j & u & Hu & ?). exists j, u. auto.
  - intros j u ch [Hu|Hu]%Hin Hp; [by eapply Or|rewrite Hu in Hp; by destruct (Hph ch)].
  - intros j k' u v ch [Hu|Hu]%Hin [Hv|Hv]%Hin H1 H2; [by eapply (Oo j k' u v)|congruence..].
  - intros j u ch [Hu|Hu]%Hin H; [by eapply Of|congruence].
  - exact Oc.
  - intros j u ch [Hu|Hu]%Hin Hp; [|rewrite Hu in Hp; by destruct (Hph ch)]. destruct (Ow _ _ _ Hu Hp) as [|(l & v & Hv & ?)]; [by left|].
    right. exists l, v. auto.
  - intros b. change (used _ b) with (used st b). unfold workers. rewrite sum_list_with_app. destruct (Osl b) as [E Hle]. split; [|done].
    assert (Hs : has_slot b t = false) by (unfold has_slot, t; cbn; by destruct k). cbn. rewrite Hs. unfold workers in E. lia.
Qed.

Definition reachable : state -> Prop := rtc step nothing.
Lemma reachable_ok st : reachable st -> ok st.
Proof.
  intros H. apply (rtc_ind_r (R := step) ok nothing); [|intros y z _ Hs Hy|exact H].
  - constructor; cbn; try done. intros b. by split; [|apply Nat.le_0_l].
  - destruct Hs as [i b st1 st2 E|k dir st1]; [by eapply act_ok|by apply arrive_ok].
Qed.

(** A task whose command runs. *)
Definition executes (t : task) : Prop := t_phase t = Bare \/ exists ch, t_phase t = Running ch.

(** C12: commands and directories, over every interleaving of any number of requests.  When two
    commands run in the same directory, one of them is of the kind that does not take the
    lock (the stop of a deletion, details, mods-install, the Docker scheduler): RunAction,
    RunActionDirect, bulk actions and RestoreBackup never meet each other there.  The map of
    busy directories lists exactly the directories of commands that hold the lock; at most
    four commands of a bulk action are past their slot at any time; and whoever waits for a
    directory waits for a channel that is closed already or belongs to a task that will close
    it: no wake-up is lost. *)
Theorem one_command_per_directory st : reachable st ->
  (forall i j t u, tasks st !! i = Some t -> tasks st !! j = Some u -> executes t -> executes u ->
     t_dir t = t_dir u -> i <> j -> t_kind t = Ignores_lock \/ t_kind u = Ignores_lock) /\
  (forall dir, is_Some (busy st !! dir) <-> exists i t c, tasks st !! i = Some t /\ t_dir t = dir /\ t_phase t = Running c) /\
  (forall b, workers b (tasks st) <= maxBulkWorkers) /\
  (forall i t ch, tasks st !! i = Some t -> t_phase t = Waiting ch ->
     ch ∈ closed st \/ exists j u, tasks st !! j = Some u /\ owns u = Some ch).
Proof.
  intros O%reachable_ok. split_and!.
  - assert (Hbare : forall i t, tasks st !! i = Some t -> t_phase t = Bare -> t_kind t = Ignores_lock).
    { intros i t Hi Hp. pose proof (ok_shape _ O _ _ Hi) as Hs. unfold shaped in Hs. rewrite Hp in Hs. by destruct (t_kind t). }
    intros i j t u Hi Hj [Ht|[c Ht]] [Hu|[d Hu]] E Hne; [by eauto..|]. exfalso. apply Hne.
    pose proof (ok_running _ O _ _ _ Hi Ht) as H1. pose proof (ok_running _ O _ _ _ Hj Hu) as H2.
    assert (c = d) as <- by congruence. apply (ok_owner _ O i j t u c); [done..|unfold owns; by rewrite Ht|unfold owns; by rewrite Hu].
  - intros dir. split; [intros [ch H]; destruct (ok_busy _ O _ _ H) as (i & t & Hi & Hd & Hp); by exists i, t, ch|].
    intros (i & t & c & Hi & <- & Hp). exists c. by eapply ok_running.
  - intros b. destruct (ok_slots _ O b). lia.
  - intros i t ch Hi Hp. by eapply ok_waiting.
Qed.

(** * Every task ends *)

Definition unfinished (st : state) : Prop := exists i t, tasks st !! i = Some t /\ t_phase t <> Done.
Definition blocked (st : state) (t : task) : Prop :=
  match t_phase t with
  | Queued => forall b, t_kind t = Bulk b -> maxBulkWorkers <= used st b
  | Waiting ch => ch ∉ closed st
  | Done => True
  | _ => False
  end.
Lemma not_blocked st i t : ok st -> tasks st !! i = Some t -> ~ blocked st t -> exists st', act i true st = Some st'.
Proof.
  intros O Hi Hb. pose proof (ok_shape _ O _ _ Hi) as Hsh. unfold act. rewrite Hi. cbv zeta. unfold shaped in Hsh. unfold blocked in Hb.
  destruct (t_phase t) as [| | | |ch|ch| |ch| |]; try (eexists; reflexivity).
  - destruct (t_kind t) as [| |b|]; [done..| |done]. destruct (used st b <? maxBulkWorkers) eqn:E; [by eexists|]. apply Nat.ltb_ge in E.
    destruct Hb. by intros ? [= <-].
  - destruct (tryLock i t st); by eexists.
  - destruct (decide (ch ∈ closed st)) as [|Hn]; [by eexists|done].
  - destruct (t_kind t); [done..|by eexists|done].
  - by destruct Hb.
Qed.

(** A task that is not waiting for a slot, and has not ended, can go on or waits for one that can. *)
Lemma some_moves st i t : ok st -> tasks st !! i = Some t -> t_phase t <> Done -> t_phase t <> Queued ->
  exists j st', act j true st = Some st'.
Proof.
  intros O Hi Hd Hq. destruct (t_phase t) as [| | | |ch|ch| |ch| |] eqn:Hp; [done|..|done].
  4: destruct (decide (ch ∈ closed st)) as [Hc|Hc];
      [|destruct (ok_waiting _ O _ _ _ Hi Hp) as [|(j & u & Hj & Ho)]; [done|]; exists j;
        apply (not_blocked st j u); [done..|]; unfold blocked; unfold owns in Ho; revert Ho; destruct (t_phase u); (discriminate || by intros _ [])].
  all: exists i; apply (not_blocked st i t); [done..|unfold blocked; rewrite Hp]; auto.
Qed.
Lemma no_deadlock st : ok st -> unfinished st -> exists j st', act j true st = Some st'.
Proof.
  intros O (i & t & Hi & Hd). destruct (decide (t_phase t = Queued)) as [Hq|Hq]; [|by eapply some_moves].
  pose proof (ok_shape _ O _ _ Hi) as Hsh. unfold shaped in Hsh. rewrite Hq in Hsh. destruct (t_kind t) as [| |b|] eqn:Hk; [done..| |done].
  destruct (decide (used st b < maxBulkWorkers)) as [Hu|Hu].
  - exists i. apply (not_blocked st i t); [done..|]. unfold blocked. rewrite Hq. intros H. specialize (H b Hk). lia.
  - (* all slots are taken, by tasks that are past the queue *)
    assert (Hw : 0 < workers b (tasks st)) by (destruct (ok_slots _ O b) as [<- _]; unfold maxBulkWorkers in Hu; lia).
    assert (Hex : exists j u, tasks st !! j = Some u /\ has_slot b u = true).
    { revert Hw. generalize (tasks st) as l. clear. unfold workers. induction l as [|u l IH]; cbn; [lia|]. destruct (has_slot b u) eqn:E; [by exists 0, u|].
      intros H. destruct (IH H) as (j & v & Hj & Hv). by exists (S j), v. }
    destruct Hex as (j & u & Hj & Hs). apply (some_moves st j u); [done..| |]; intros E; unfold has_slot in Hs; rewrite E in Hs; by destruct (t_kind u).
Qed.

(** What a task still has to do to the shared state, and the steps it can take before someone
    changes that state again. *)
Definition rank (t : task) : nat :=
  match t_phase t with
  | Queued => 6 | Checking => 5 | Trying | Looking | Waiting _ => 4 | Running _ | Bare => 3 | Closing _ => 2 | Leaving => 1 | Done => 0
  end.
Definition local (st : state) (t : task) : nat :=
  match t_phase t with
  | Trying => 3
  | Looking => match busy st !! t_dir t with Some _ => 1 | None => 4 end
  | Waiting ch => if decide (ch ∈ closed st) then 4 else 0
  | _ => 0
  end.
(** With [k] requests that still come in. *)
Definition measure (k : nat) (st : state) : nat :=
  (sum_list_with rank (tasks st) + 6 * k) * (4 * (length (tasks st) + k) + 1) + sum_list_with (local st) (tasks st).

Lemma local_bound st l : sum_list_with (local st) l <= 4 * length l.
Proof.
  induction l as [|t l IH]; cbn [sum_list_with length]; [lia|]. assert (local st t <= 4); [|lia].
  unfold local. destruct (t_phase t); try lia; [destruct (busy st !! _); lia|destruct (decide _); lia].
Qed.
(** A step that brings its task further. *)
Lemma rank_down k st st' i t t' : tasks st !! i = Some t -> tasks st' = <[i := t']> (tasks st) -> rank t' < rank t -> measure k st' < measure k st.
Proof.
  intros Hi Et Hr. unfold measure. pose proof (local_bound st' (tasks st')) as Hl. rewrite Et in *. rewrite length_insert in *.
  pose proof (sum_insert rank _ _ _ t' Hi) as Hs. nia.
Qed.
(** A step that only looks. *)
Lemma local_down k st i t p : tasks st !! i = Some t -> rank (set_phase p t) = rank t -> local st (set_phase p t) < local st t ->
  measure k (put_task i (set_phase p t) st) < measure k st.
Proof.
  intros Hi Hr Hl. unfold measure. cbn [tasks put_task]. rewrite length_insert.
  pose proof (sum_insert rank _ _ _ (set_phase p t) Hi) as Hs. pose proof (sum_insert (local st) _ _ _ (set_phase p t) Hi) as Hm.
  change (sum_list_with (local (put_task i (set_phase p t) st))) with (sum_list_with (local st)). nia.
Qed.

Lemma act_measure k i b st st' : ok st -> act i b st = Some st' -> measure k st' < measure k st.
Proof.
  intros O. unfold act. destruct (tasks st !! i) as [t|] eqn:Hi; [|done]. cbv zeta. pose proof (ok_shape _ O _ _ Hi) as Hsh. unfold shaped in Hsh.
  destruct (t_phase t) as [| | | |ch|ch| |ch| |] eqn:Hp; intros E.
  - destruct (t_kind t) as [| |c|]; [done..| |done]. destruct (used st c <? maxBulkWorkers); [|done]. injection E as <-.
    eapply rank_down; [exact Hi|done|]. unfold rank. rewrite Hp. cbn. lia.
  - injection E as <-. eapply rank_down; [exact Hi|done|]. unfold rank, leave. rewrite Hp. cbn. destruct b, (t_kind t); cbn; lia.
  - unfold tryLock in E. destruct (busy st !! t_dir t) eqn:Hb.
    + injection E as <-. destruct (t_kind t) eqn:Hk; [eapply rank_down; [exact Hi|done|unfold rank; rewrite Hp; cbn; lia]|..|done];
        (apply local_down; [done|unfold rank; by rewrite Hp|unfold local; rewrite Hp; cbn; rewrite Hb; lia]).
    + injection E as <-. eapply rank_down; [exact Hi|done|]. unfold rank. rewrite Hp. cbn. lia.
  - injection E as <-. apply local_down; [done|unfold rank; rewrite Hp; cbn; by destruct (busy st !! _)|]. unfold local. rewrite Hp. cbn.
    destruct (busy st !! t_dir t) as [ch|] eqn:Hb; [|lia]. rewrite decide_False; [lia|].
    destruct (ok_busy _ O _ _ Hb) as (j & u & Hj & _ & Hu). apply (ok_fresh _ O j u ch Hj). unfold owns. by rewrite Hu.
  - destruct (decide (ch ∈ closed st)) as [Hc|]; [|done]. injection E as <-.
    apply local_down; [done|unfold rank; by rewrite Hp|]. unfold local. rewrite Hp. cbn. rewrite decide_True by done. lia.
  - destruct b; [|done]. injection E as <-. eapply rank_down; [exact Hi|done|]. unfold rank. rewrite Hp. cbn. lia.
  - destruct b; [|done]. injection E as <-. eapply rank_down; [exact Hi|done|]. unfold rank. rewrite Hp. cbn. lia.
  - injection E as <-. eapply rank_down; [exact Hi|done|]. unfold rank, leave. rewrite Hp. cbn. destruct (t_kind t); lia.
  - destruct (t_kind t); [done..| |done]. injection E as <-. eapply rank_down; [exact Hi|done|]. unfold rank. rewrite Hp. cbn. lia.
  - done.
Qed.
Lemma arrive_measure k kind dir st : measure k (arrive kind dir st) <= measure (S k) st.
Proof.
  unfold measure, arrive. cbn [tasks]. rewrite !sum_list_with_app, length_app. cbn [sum_list_with length].
  set (t := mkTask kind dir _). assert (rank t <= 6) by (unfold rank, t; destruct kind; cbn; lia).
  change (local (mkState _ _ _ _ _)) with (local st). assert (local st t = 0) by (unfold local, t; by destruct kind). nia.
Qed.
Lemma runs_bound n k st st' : runs n k st st' -> ok st -> n + measure 0 st' <= measure k st /\ ok st'.
Proof.
  induction 1 as [st|n k i b st st' st'' E _ IH|n k kind dir st st'' _ IH]; intros O; [split; [lia|done]|..].
  - pose proof (act_measure k _ _ _ _ O E). destruct (IH (act_ok _ _ _ _ E O)) as [Hm O']. split; [lia|done].
  - pose proof (arrive_measure k kind dir st). destruct (IH (arrive_ok kind dir _ O)) as [Hm O']. split; [lia|done].
Qed.

(** C21: however the steps of the requests interleave and whatever their checks answer, the
    number of their steps is bounded in terms of the number [k] of requests that still come
    in; and as long as one has not ended, a command runs or a task that runs none can go on,
    so nobody waits for ever for a directory or a slot while no command runs.  Two things can
    keep a request from ending, and the theorem leaves them open: a command that never ends,
    and an endless stream of newcomers, because [lock] is unfair ([newcomer_overtakes]). *)
Theorem commands_all_end st k : reachable st ->
  exists bound, forall n st', runs n k st st' -> n <= bound /\
    (unfinished st' ->
     (exists i t, tasks st' !! i = Some t /\ executes t) \/
     (exists i t st'', tasks st' !! i = Some t /\ ~ executes t /\ act i true st' = Some st'')).
Proof.
  intros O%reachable_ok. exists (measure k st). intros n st' H. destruct (runs_bound _ _ _ _ H O) as [Hm O']. split; [lia|].
  intros Hu. destruct (no_deadlock _ O' Hu) as (i & st'' & E).
  destruct (tasks st' !! i) as [t|] eqn:Hi; [|unfold act in E; by rewrite Hi in E].
  destruct (decide (t_phase t = Bare)) as [Hb|Hb]; [left; exists i, t; split; [done|by left]|].
  destruct (t_phase t) as [| | | |ch|ch| |ch| |] eqn:Hp; [..|done| | |];
    try (right; exists i, t, st''; split_and!; [done| |done]; unfold executes; rewrite Hp; by intros [?|[? ?]]).
  left. exists i, t. split; [done|]. right. by exists ch.
Qed.

(** Two workers of a bulk action and a single request for the same directory. *)
Definition demo_tasks : state := arrive Gives_up "/srv/a" (arrive (Bulk 0) "/srv/a" (arrive (Bulk 0) "/srv/a" nothing)).
Definition after (l : list nat) (st : state) : state := fold_left (fun st i => default st (act i true st)) l st.
Definition demo_running : state := after [0; 1; 0; 1; 0; 1; 1; 2; 2] demo_tasks.
Lemma after_reachable l : forall st, reachable st -> reachable (after l st).
Proof.
  induction l as [|i l IH]; intros st H; [done|]. cbn [after fold_left]. apply IH. destruct (act i true st) as [st'|] eqn:E; [|done].
  eapply rtc_r; [exact H|]. by eapply step_act.
Qed.
Lemma demo_reachable : reachable demo_running.
Proof. apply after_reachable. do 3 (eapply rtc_r; [|apply step_arrive]). apply rtc_refl. Qed.

(** The first runs, the second waits, the request was refused; they end in order. *)
Example demo_phases :
  map t_phase (tasks demo_running) = [Running 0; Waiting 0; Done] /\
  map t_phase (tasks (after [0; 1; 0; 1; 1; 1; 1; 1; 0] demo_running)) = [Done; Done; Done].
Proof. split; vm_compute; reflexivity. Qed.

Lemma one_command_per_directory_witness :
  map t_phase (tasks demo_running) = [Running 0; Waiting 0; Done] /\ workers 0 (tasks demo_running) <= maxBulkWorkers.
Proof. split; [vm_compute; reflexivity|]. apply (one_command_per_directory demo_running demo_reachable). Defined.
Lemma commands_all_end_witness :
  map t_phase (tasks demo_running) = [Running 0; Waiting 0; Done] /\
  exists bound, forall n st', runs n 2 demo_running st' -> n <= bound /\
    (unfinished st' ->
     (exists i t, tasks st' !! i = Some t /\ executes t) \/
     (exists i t st'', tasks st' !! i = Some t /\ ~ executes t /\ act i true st' = Some st'')).
Proof. split; [vm_compute; reflexivity|]. apply (commands_all_end demo_running 2 demo_reachable). Defined.

(** An update runs, and the stop of a deletion meets it in the directory. *)
Definition demo_meeting : state := after [0; 0; 1] (arrive Ignores_lock "/srv/a" (arrive Gives_up "/srv/a" nothing)).
Example stop_meets_command :
  reachable demo_meeting /\ map t_phase (tasks demo_meeting) = [Running 0; Bare] /\
  map t_dir (tasks demo_meeting) = ["/srv/a"; "/srv/a"].
Proof.
  split_and!; [|vm_compute; reflexivity..]. apply after_reachable. do 2 (eapply rtc_r; [|apply step_arrive]). apply rtc_refl.
Qed.

Definition demo_waiting : state := after [0; 0; 1; 1; 1] (arrive Waits "/srv/a" (arrive Gives_up "/srv/a" nothing)).
(** The second task waits for the first.  When the first has ended, a newcomer takes the lock
    before the second, which waits again: as often as somebody new arrives. *)
Definition demo_overtaken : state := after [0; 0; 2; 2; 1; 1; 1] (arrive Waits "/srv/a" demo_waiting).
Example newcomer_overtakes :
  map t_phase (tasks demo_waiting) = [Running 0; Waiting 0] /\ map t_phase (tasks demo_overtaken) = [Done; Waiting 1; Running 1].
Proof. split; vm_compute; reflexivity. Qed.
