(* ===== verification/Manager.v ===== *)
(** * Commands of the instance manager (backend/manager.go, commands.go, install.go, steamlogin.go)

    What a request does to a server: a LinuxGSM command with its output streamed, a bulk
    action, the input of the console, an installation, and the deletion.  An operation is the
    list of what it does to the outside, in order; what tmux, LinuxGSM and the runtime answer
    is in its environment.  Who may run when is the subject of Locks.v, the status a server
    shows that of Status.v. *)

From Stdlib Require Import ZArith Lia Bool String Ascii List.
From stdpp Require Import base gmap strings list fin_maps.
From S2P Require Import Prelude GoStrings Text Validate Authz Paths SafeFs Cron Cfg Stores ProxyController Output.

(** ** The commands of a game (commands.go) *)

(** [values]: engine, appid and consoleinteract of the merged configs. *)
Definition linuxGSMCommands (values : gmap string string) (shortname : string) : list string :=
  let value k := default "" (values !! k) in
  let engine := value "engine" in
  let named names := mem shortname names in
  let add (b : bool) (names : list string) := if b then names else [] in
  ["start"; "stop"; "restart"; "monitor"; "test-alert"; "details"; "postdetails"; "skeleton"; "update-lgsm"] ++
  (let updates := (named ["jk2"; "jk3"; "etl"] || negb (String.eqb engine "idtech3")) &&
                  negb (named ["bf1942"; "bfv"; "samp"; "ut2k4"]) && negb (mem engine ["idtech2"; "iw2.0"; "iw3.0"; "quake"]) in
   add updates ["update"; "check-update"] ++
   add (updates && (negb (String.eqb (value "appid") "") || named ["mta"; "hyt"])) ["force-update"]) ++
  add (negb (String.eqb (value "appid") "")) ["validate"] ++ ["backup"] ++
  add (String.eqb (value "consoleinteract") "yes") ["send"] ++
  add (mem engine ["source"; "goldsrc"]) ["fastdl"] ++
  add (named ["ts3"]) ["change-password"] ++
  add (named ["rust"]) ["full-wipe"; "map-wipe"] ++
  add (mem engine ["unreal"; "unreal2"]) ["map-compressor"] ++
  add (named ["mta"]) ["install-default-resources"] ++
  add (String.eqb engine "source" || named ["cs2"; "rust"; "hq"; "sdtd"; "cs"; "dod"; "tfc"; "ns"; "ts"; "hldm"; "vh"])
    ["mods-install"; "mods-remove"; "mods-update"] ++
  add (named ["arma3"; "dayz"; "bt"; "col"; "hw"; "l4d2"; "ohd"; "sb"; "squad"; "squad44"; "sol"; "st"]) ["workshop-update"].
Definition HasCommand (commands : option (list string)) (command : string) : bool :=
  match commands with None => true | Some l => mem command l end.

(** ** tmux *)

Definition tmuxSaysNoServer (stderr : string) : bool :=
  existsb (contains stderr) ["no server running"; "No such file or directory"; "Connection refused"].

(** What [tmux list-sessions] did: its output, and whether it failed, within its time, with what
    message. *)
Record tmux_reply := mkReply { tr_out : string; tr_failed : bool; tr_late : bool; tr_stderr : string }.
Inductive tmux_error := NoServer | TmuxUnclear.
Definition listTmuxSessions (r : tmux_reply) : result tmux_error string :=
  if negb (tr_failed r) then Ok (tr_out r)
  else if tr_late r || negb (tmuxSaysNoServer (tr_stderr r)) then Err TmuxUnclear else Err NoServer.

Inductive tmuxState := tmuxAbsent | tmuxActive | tmuxUnknown.
(** [tmux]: what the server behind each socket answers. *)
Fixpoint session_state (tmux : string -> tmux_reply) (script : string) (sockets : list string) (state : tmuxState) : tmuxState :=
  match sockets with
  | [] => state
  | socket :: r =>
      match listTmuxSessions (tmux socket) with
      | Err TmuxUnclear => session_state tmux script r tmuxUnknown
      | Ok sessions => if tmuxSessionExists sessions script then tmuxActive else session_state tmux script r state
      | Err NoServer => session_state tmux script r state
      end
  end.
Definition reTmuxUID (s : string) : bool :=
  sall (fun c => is_alnum c || one_of "_-" c) s && (1 <=? slen s) && (slen s <=? 64).
(** [uid]: the first 256 bytes of the uid file. *)
Definition linuxGSMTmuxSocketNames (script : string) (uid : option string) : list string :=
  let sockets := match uid with
                 | Some u => let u := trim_space (stake 256 u) in if reTmuxUID u then appendUniqueString [] (script +:+ "-" +:+ u) else []
                 | None => []
                 end in
  appendUniqueString sockets script.
Definition tmuxSessionState (tmux : string -> tmux_reply) (script : string) (uid : option string) : tmuxState :=
  session_state tmux script (linuxGSMTmuxSocketNames script uid) tmuxAbsent.
Definition isTmuxSessionActive (tmux : string -> tmux_reply) (script : string) (uid : option string) : bool :=
  match tmuxSessionState tmux script uid with tmuxAbsent => false | _ => true end.
Definition findLinuxGSMTmuxTarget (tmux : string -> tmux_reply) (script : string) (uid : option string) : option (string * string) :=
  match List.find (fun socket => match listTmuxSessions (tmux socket) with Ok s => tmuxSessionExists s script | Err _ => false end)
          (linuxGSMTmuxSocketNames script uid) with
  | Some socket => Some (socket, script)
  | None => None
  end.

(** ** The console *)

Definition ValidateConsoleCommand (command : string) : bool :=
  negb (String.eqb (trim_space command) "") && (slen command <=? 1024) && forallb (fun r => negb (is_control r)) (runes (to_bytes command)).

Inductive console_error := ConsoleUnknown | NoConsole | BadCommand | NotRunning | SendFailed.
(** The tmux calls made, each of which may fail ([works]). *)
Definition SendConsoleCommand (srv : option (Instance * option (list string))) (tmux : string -> tmux_reply) (uid : option string)
    (works : nat -> bool) (command : string) : result console_error unit * list (list string) :=
  match srv with
  | None => (Err ConsoleUnknown, [])
  | Some (srv, commands) =>
      if negb (HasCommand commands "send") then (Err NoConsole, [])
      else if negb (ValidateConsoleCommand command) then (Err BadCommand, [])
      else match findLinuxGSMTmuxTarget tmux (i_Script srv) uid with
           | None => (Err NotRunning, [])
           | Some (socket, session) =>
               let text := ["tmux"; "-L"; socket; "send-keys"; "-t"; session; "-l"; "--"; command] in
               let enter := ["tmux"; "-L"; socket; "send-keys"; "-t"; session; "Enter"] in
               if negb (works 0%nat) then (Err SendFailed, [text])
               else ((if works 1%nat then Ok tt else Err SendFailed), [text; enter])
           end
  end.

(** ** Running commands *)

(** The error of a command that did not end with 0: not started, the exit code, or anything else. *)
Inductive run_error := NotStarted | Exited (code : Z) | Failed.
Definition ExitCode (err : option run_error) : Z :=
  match err with None => 0 | Some (Exited code) => code | Some _ => 1 end.
Definition isStartError (err : option run_error) : bool :=
  match err with Some NotStarted => true | _ => false end.

Inductive action_error := InvalidAction | NoSuchCommand | BeingInstalled | UnknownServer.
Definition checkAction (commands : option (list string)) (installing : bool) (action : string) : option action_error :=
  match ActionPermission action with
  | None => Some InvalidAction
  | Some _ => if negb (HasCommand commands action) then Some NoSuchCommand
              else if installing then Some BeingInstalled else None
  end.

(** What an action finds: the server, whether it is being installed, whether the directory is
    busy, whether the answer can be streamed, the output and the end of the command. *)
Record action_env := mkActionEnv {
  ae_srv : option (Instance * option (list string)); ae_status : string; ae_installing : bool; ae_busy : bool; ae_stream : bool;
  ae_output : string; ae_end : option run_error }.
Inductive action_event :=
| Lock (dir : string) | Status (id status : string) | RunLGSM (id action stdin : string) | Log (msgs : list log_message)
| StartFailed | Scan | RefreshDetails (id : string) | Exit (code : Z) | Release.
Inductive answer := Refused (code : Z) | Streamed.

Definition updating (action : string) : bool :=
  mem action ["update"; "update-lgsm"; "force-update"; "validate"; "mods-update"; "workshop-update"].
Definition end_events (e : action_env) (id action : string) : list action_event :=
  (if updating action then [Status id "stopped"] else []) ++
  (if isStartError (ae_end e) then [Scan; StartFailed; Exit 1]
   else [Scan] ++ (if mem action ["start"; "restart"; "update"] then [RefreshDetails id] else []) ++ [Exit (ExitCode (ae_end e))]).
Definition run_events (e : action_env) (id action stdin : string) : list action_event :=
  [RunLGSM id action stdin; Log (log false (streamLines (ae_output e)))] ++ end_events e id action.
Definition RunAction (e : action_env) (id action : string) (input : ActionInput) : answer * list action_event :=
  match ActionPermission action, ActionStdin action input, ae_srv e with
  | None, _, _ => (Refused 400, [])
  | Some _, Err _, _ => (Refused 400, [])
  | Some _, Ok _, None => (Refused 404, [])
  | Some _, Ok stdin, Some (srv, commands) =>
      match checkAction commands (ae_installing e) action with
      | Some _ => (Refused 400, [])
      | None =>
          if ae_busy e then (Refused 409, []) else
          let begin := if updating action then [Status id "updating"] else [] in
          if negb (ae_stream e)
          then (Refused 500, (Lock (i_Dir srv) :: begin) ++ (if updating action then [Status id (ae_status e)] else []) ++ [Release])
          else (Streamed, (Lock (i_Dir srv) :: begin) ++ run_events e id action stdin ++ [Release])
      end
  end.

(** Waits for the directory and discards the output. *)
Definition RunActionDirect (srv : option (Instance * option (list string))) (installing : bool) (end_ : option run_error) (action : string)
  : (action_error + option run_error) * list action_event :=
  match srv with
  | None => (inl UnknownServer, [])
  | Some (srv, commands) =>
      match checkAction commands installing action with
      | Some e => (inl e, [])
      | None => (inr end_, [Lock (i_Dir srv); RunLGSM (i_ID srv) action ""; Release])
      end
  end.

Inductive bulk_result := Success | Warning | Error (e : action_error + run_error).
Definition bulk_text (r : action_error + option run_error) : bulk_result :=
  match r with
  | inr None => Success
  | inl e => Error (inl e)
  | inr (Some e) => if ExitCode (Some e) =? 3 then Warning else Error (inr e)
  end.
(** [ended]: the positions of the list in the order in which their commands ended; [run] is what
    [RunActionDirect] answers for the server at a position. *)
Definition store_result (ids : list string) (run : nat -> action_error + option run_error) (m : gmap string bulk_result) (n : nat)
  : gmap string bulk_result :=
  match ids !! n with Some id => <[id := bulk_text (run n)]> m | None => m end.
Definition RunBulkAction (action : string) (ids : list string) (ended : list nat) (run : nat -> action_error + option run_error)
  : gmap string bulk_result * list action_event :=
  match BulkActionPermission action with
  | None => (foldr (fun id m => <[id := Error (inl InvalidAction)]> m) ∅ ids, [])
  | Some _ =>
      (fold_left (store_result ids run) ended ∅, [Scan])
  end.

(** ** Installations *)

(** [im.installing]: the number of installations under a name. *)
Definition isInstalling (installing : gmap string Z) (srv : Instance) : bool :=
  (default 0 (installing !! i_User srv) >? 0) || (default 0 (installing !! i_ID srv) >? 0).
Definition beginInstall (installing : gmap string Z) (username : string) : option (gmap string Z) :=
  let n := default 0 (installing !! username) in
  if n >? 0 then None else Some (<[username := n + 1]> installing).
Definition doneInstall (installing : gmap string Z) (username : string) : gmap string Z :=
  let n := default 0 (installing !! username) - 1 in
  if n <=? 0 then delete username installing else <[username := n]> installing.

Inductive install_event := IMark (username : string) | IInstall | IUnmark (username : string) | IScan | IExit (code : Z).
Definition InstallGame (valid stream : bool) (installing : gmap string Z) (end_ : option run_error) (username : string)
  : answer * list install_event :=
  if negb valid then (Refused 400, [])
  else match beginInstall installing username with
       | None => (Refused 409, [])
       | Some _ => if negb stream then (Refused 500, [IMark username; IUnmark username])
                   else (Streamed, [IMark username; IInstall; IUnmark username; IScan; IExit (ExitCode end_)])
       end.

Definition reInstanceSuffix (s : string) : bool :=
  sall (fun c => is_lower c || is_digit c || one_of "-" c) s && (1 <=? slen s) && (slen s <=? 32).
Inductive clone_error := CloneUnknown | EmptySuffix | BadSuffix | CloneFailed.
(** [clone]: the runtime's answer for the cleaned suffix. *)
Definition CreateMultiInstance (known : bool) (clone : string -> option string) (suffix : string) : result clone_error string :=
  if negb known then Err CloneUnknown else
  let clean := to_lower (trim_space suffix) in
  if String.eqb clean "" then Err EmptySuffix
  else if negb (reInstanceSuffix clean) then Err BadSuffix
  else match clone clean with Some id => Ok id | None => Err CloneFailed end.

(** *** Steam accounts (steamlogin.go) *)

Record SteamLogin := mkSteamLogin { sl_User : string; sl_Pass : string }.
Definition steamLoginGames : list string :=
  ["acserver"; "ahl2server"; "arma3server"; "bsserver"; "dayzserver"; "jk2server"; "jk3server"; "kfserver";
   "ndserver"; "pc2server"; "q4server"; "roserver"; "rwrserver"; "sbserver"; "terrariaserver"; "twserver"].
Definition NeedsSteamLogin (gameCmd : string) : bool := mem gameCmd steamLoginGames.
Definition reSteamUser (s : string) : bool := sall (fun c => is_alnum c || one_of "_.@-" c) s && (1 <=? slen s) && (slen s <=? 64).
Definition steam_valid (s : SteamLogin) : bool :=
  if String.eqb (sl_User s) "" then String.eqb (sl_Pass s) ""
  else reSteamUser (sl_User s) && (slen (sl_Pass s) <=? 256) && negb (sany is_ctl (sl_Pass s)).
(** [existing]: what secrets-common.cfg holds; [write] stores the new text. *)
Definition seed_text (existing : string) (login : SteamLogin) : string :=
  applyCfgChanges existing {[ "steamuser" := Some (sl_User login); "steampass" := Some (sl_Pass login) ]}.

(** ** Deletion *)

(** What a deletion finds.  tmux is looked at up to four times: before and after the stop, to
    find the session to kill, and after that; [de_users] are the users of all servers listed
    when the deletion counts them. *)
Record delete_env := mkDeleteEnv {
  de_srv : option Instance; de_installing : bool; de_tmux : nat -> string -> tmux_reply; de_uid : option string;
  de_force : bool; de_users : list string; de_deleted : bool }.
Inductive delete_event :=
| DStop | DKill (socket session : string) | DDelete (sharedUser : bool) | DRelease (id : string) | DScan.
Inductive delete_answer := Deleted | DeleteUnknown | DeleteInstalling | TmuxUnresponsive | StillRunning | DeleteFailed.

Definition delete_files (e : delete_env) (srv : Instance) : delete_answer * list delete_event :=
  let count := length (List.filter (String.eqb (i_User srv)) (de_users e)) in
  let del := DDelete (1 <? count)%nat in
  if de_deleted e then (Deleted, [del; DRelease (i_ID srv); DScan]) else (DeleteFailed, [del]).
Definition DeleteServer (e : delete_env) : delete_answer * list delete_event :=
  match de_srv e with
  | None => (DeleteUnknown, [])
  | Some srv =>
      let look n := tmuxSessionState (de_tmux e n) (i_Script srv) (de_uid e) in
      if de_installing e then (DeleteInstalling, []) else
      match look 0%nat with
      | tmuxUnknown => (TmuxUnresponsive, [])
      | _ =>
          match look 1%nat with
          | tmuxUnknown => (TmuxUnresponsive, [DStop])
          | tmuxAbsent => let '(a, l) := delete_files e srv in (a, DStop :: l)
          | tmuxActive =>
              if negb (de_force e) then (StillRunning, [DStop]) else
              let kill := match findLinuxGSMTmuxTarget (de_tmux e 2%nat) (i_Script srv) (de_uid e) with
                          | Some (socket, session) => [DKill socket session]
                          | None => []
                          end in
              if isTmuxSessionActive (de_tmux e 3%nat) (i_Script srv) (de_uid e) then (StillRunning, DStop :: kill)
              else let '(a, l) := delete_files e srv in (a, (DStop :: kill) ++ l)
          end
      end
  end%list.

(** * Properties *)

(** What a game offers can be asked for, apart from the two commands with ways of their own. *)
Lemma offered_commands values shortname c :
  In c (linuxGSMCommands values shortname) -> ActionPermission c <> None \/ c = "monitor" \/ c = "send".
Proof.
  intros H. enough (E : forallb (fun c => match ActionPermission c with Some _ => true | None => mem c ["monitor"; "send"] end)
                          (linuxGSMCommands values shortname) = true).
  { rewrite forallb_forall in E. apply E in H. destruct (ActionPermission c); [by left|right]. apply mem_true in H as [?|[?|[]]]; auto. }
  unfold linuxGSMCommands. cbv zeta. rewrite !forallb_app. repeat (apply andb_true_iff; split); try reflexivity; by case_match.
Qed.

(** ** tmux *)

(** tmux said clearly that the session of the server is not there: every socket answered, or
    has no server, and none lists the session. *)
Definition says_absent (tmux : string -> tmux_reply) (script : string) (socket : string) : Prop :=
  match listTmuxSessions (tmux socket) with
  | Ok sessions => tmuxSessionExists sessions script = false
  | Err NoServer => True
  | Err TmuxUnclear => False
  end.
Lemma session_state_absent tmux script sockets : forall state,
  session_state tmux script sockets state = tmuxAbsent <-> state = tmuxAbsent /\ Forall (says_absent tmux script) sockets.
Proof.
  induction sockets as [|socket r IH]; intros state; cbn [session_state]; [split; [by intros ->|by intros [-> _]]|].
  rewrite Forall_cons. unfold says_absent at 1.
  destruct (listTmuxSessions (tmux socket)) as [s|[|]]; [destruct (tmuxSessionExists s script)|..]; rewrite ?IH; split; intros H; try done; destruct_and?; try done.
Qed.
Lemma tmux_absent tmux script uid :
  tmuxSessionState tmux script uid = tmuxAbsent <-> Forall (says_absent tmux script) (linuxGSMTmuxSocketNames script uid).
Proof. unfold tmuxSessionState. rewrite session_state_absent. tauto. Qed.
Lemma session_active tmux script uid :
  isTmuxSessionActive tmux script uid = false <-> tmuxSessionState tmux script uid = tmuxAbsent.
Proof. unfold isTmuxSessionActive. by destruct (tmuxSessionState tmux script uid). Qed.

Lemma delete_files_events e srv a l : delete_files e srv = (a, l) ->
  exists shared, (shared = true <-> (1 < length (List.filter (String.eqb (i_User srv)) (de_users e)))%nat) /\
    (a = Deleted /\ l = [DDelete shared; DRelease (i_ID srv); DScan] \/ a = DeleteFailed /\ l = [DDelete shared]).
Proof.
  unfold delete_files. cbv zeta. intros E. exists (1 <? length (List.filter (String.eqb (i_User srv)) (de_users e)))%nat.
  split; [apply Nat.ltb_lt|]. destruct (de_deleted e); injection E as <- <-; auto.
Qed.

(** C9: deleting a server (DeleteServer).  Files are deleted only after the stop command, and
    only when tmux then says clearly, on every socket the server may use, that its session is
    gone: a tmux that does not answer, or a session that is still there, ends the deletion
    before, and a session is killed only when that was asked for.  The runtime is told that
    the Linux user is shared exactly when, at the moment it counts, at least two servers of
    that user are listed; the count assumes that the deleted server is listed itself, and is
    wrong when a discovery has just missed it ([missed_server_deletes_user]).  The ID is
    released, after the deletion and once, exactly when the deletion succeeds. *)
Theorem delete_only_stopped e a evs srv : de_srv e = Some srv -> DeleteServer e = (a, evs) ->
  ((forall shared, DDelete shared ∉ evs) /\ (forall id, DRelease id ∉ evs) /\ a <> Deleted) \/
  exists n kill shared l, evs = (DStop :: kill ++ l)%list /\ de_installing e = false /\
    (n = 1%nat /\ kill = [] \/ n = 3%nat /\ de_force e = true /\ forall ev, ev ∈ kill -> exists socket session, ev = DKill socket session) /\
    Forall (says_absent (de_tmux e n) (i_Script srv)) (linuxGSMTmuxSocketNames (i_Script srv) (de_uid e)) /\
    (shared = true <-> (1 < length (List.filter (String.eqb (i_User srv)) (de_users e)))%nat) /\
    (a = Deleted /\ l = [DDelete shared; DRelease (i_ID srv); DScan] \/ a = DeleteFailed /\ l = [DDelete shared]).
Proof.
  intros Hs. unfold DeleteServer. rewrite Hs. cbv zeta.
  set (kill := match findLinuxGSMTmuxTarget _ _ _ with Some _ => _ | None => _ end).
  assert (Hkill : forall ev, ev ∈ kill -> exists socket session, ev = DKill socket session).
  { subst kill. intros ev. destruct (findLinuxGSMTmuxTarget _ _ _) as [[socket session]|]; [|by intros ?%elem_of_nil].
    intros ->%list_elem_of_singleton. eauto. }
  clearbody kill.
  assert (Hno : forall a' l, (forall ev, ev ∈ l -> ev = DStop \/ exists socket session, ev = DKill socket session) -> a' <> Deleted -> (a', l) = (a, evs) ->
    (forall shared, DDelete shared ∉ evs) /\ (forall id, DRelease id ∉ evs) /\ a <> Deleted).
  { intros a' l Hl Ha [= <- <-]. split_and!; [..|done]; intros x [|(? & ? & ?)]%Hl; done. }
  assert (Hstop : forall ev, ev ∈ [DStop] -> ev = DStop \/ exists socket session, ev = DKill socket session) by (intros ev ->%list_elem_of_singleton; by left).
  assert (Hyes : forall k, (a, evs) = (let '(a', l) := delete_files e srv in (a', (DStop :: k ++ l)%list)) -> exists shared l, evs = (DStop :: k ++ l)%list /\
    (shared = true <-> (1 < length (List.filter (String.eqb (i_User srv)) (de_users e)))%nat) /\
    (a = Deleted /\ l = [DDelete shared; DRelease (i_ID srv); DScan] \/ a = DeleteFailed /\ l = [DDelete shared])).
  { intros k. destruct (delete_files e srv) as [a' l] eqn:Ed. intros [= -> ->]. apply delete_files_events in Ed as (shared & Hsh & Ha). by exists shared, l. }
  intros H. destruct (de_installing e); [left; eapply Hno; [| |exact H]; [by intros ? ?%elem_of_nil|done]|].
  destruct (tmuxSessionState (de_tmux e 0%nat) _ _); [..|left; eapply Hno; [| |exact H]; [by intros ? ?%elem_of_nil|done]].
  all: destruct (tmuxSessionState (de_tmux e 1%nat) _ _) eqn:E1; [| |left; eapply Hno; [| |exact H]; [exact Hstop|done]].
  1,3: right; destruct (Hyes [] (eq_sym H)) as (shared & l & He & Hsh & Ha); exists 1%nat, [], shared, l; apply tmux_absent in E1; by auto 10.
  all: destruct (de_force e); cbn [negb] in H; [|left; eapply Hno; [| |exact H]; [exact Hstop|done]].
  all: destruct (isTmuxSessionActive _ _ _) eqn:E3;
    [left; eapply Hno; [| |exact H]; [intros ev [->|?]%elem_of_cons; [by left|right; by apply Hkill]|done]|].
  all: right; destruct (Hyes kill (eq_sym H)) as (shared & l & He & Hsh & Ha); exists 3%nat, kill, shared, l;
    apply session_active, tmux_absent in E3; by auto 10.
Qed.

Definition demo_tmux (running : nat) (n : nat) (socket : string) : tmux_reply :=
  if (n <? running)%nat && String.eqb socket "vhserver-ab12" then mkReply (line "vhserver") false false ""
  else mkReply "" true false "no server running on /tmp/tmux-1000/x".
Definition demo_instance : Instance := mkInstance "vhserver" "vhserver" "vhserver" "/home/vhserver" "host".
Definition demo_delete (running : nat) (force : bool) (users : list string) : delete_env :=
  mkDeleteEnv (Some demo_instance) false (demo_tmux running) (Some "ab12") force users true.
Lemma delete_only_stopped_witness :
  DeleteServer (demo_delete 1 false ["vhserver"; "other"]) = (Deleted, [DStop; DDelete false; DRelease "vhserver"; DScan]) /\
  DeleteServer (demo_delete 2 false ["vhserver"]) = (StillRunning, [DStop]) /\
  let r := DeleteServer (demo_delete 3 true ["vhserver"; "vhserver"]) in
  r = (Deleted, [DStop; DKill "vhserver-ab12" "vhserver"; DDelete true; DRelease "vhserver"; DScan]) /\
  (((forall shared, DDelete shared ∉ r.2) /\ (forall id, DRelease id ∉ r.2) /\ r.1 <> Deleted) \/
   exists n kill shared l, r.2 = (DStop :: kill ++ l)%list /\ false = false /\
    (n = 1%nat /\ kill = [] \/ n = 3%nat /\ true = true /\ forall ev, ev ∈ kill -> exists socket session, ev = DKill socket session) /\
    Forall (says_absent (demo_tmux 3 n) "vhserver") (linuxGSMTmuxSocketNames "vhserver" (Some "ab12")) /\
    (shared = true <-> (1 < length (List.filter (String.eqb "vhserver") ["vhserver"; "vhserver"]))%nat) /\
    (r.1 = Deleted /\ l = [DDelete shared; DRelease "vhserver"; DScan] \/ r.1 = DeleteFailed /\ l = [DDelete shared])).
Proof.
  split; [vm_compute; reflexivity|]. split; [vm_compute; reflexivity|]. split; [vm_compute; reflexivity|].
  apply (delete_only_stopped (demo_delete 3 true ["vhserver"; "vhserver"]) _ _ demo_instance); [reflexivity|apply surjective_pairing].
Defined.

(** A discovery that misses the server while its stop command runs: the other server of the
    user is counted alone, and the runtime is told to delete the user with all its files. *)
Example missed_server_deletes_user :
  DeleteServer (demo_delete 1 false ["vhserver"]) = (Deleted, [DStop; DDelete false; DRelease "vhserver"; DScan]).
Proof. vm_compute. reflexivity. Qed.


(** ** Actions *)

(** Events that change something outside of the dashboard, or the status of a server. *)
Definition acts (ev : action_event) : bool :=
  match ev with RunLGSM _ _ _ | Status _ _ | Lock _ | Release => true | _ => false end.

(** C28: an action asked for in the browser (RunAction).  A request that is refused, because the
    action, its input or the server is unknown, LinuxGSM does not offer it, the server is being
    installed or its directory is busy, does nothing at all.  An accepted one runs exactly the
    command of that action, once, with the answers of that action on its standard input,
    between taking and giving back the lock of the directory; what is shown is the output and the
    exit code; and an action that updates shows the server as updating meanwhile, and leaves the
    status to the discovery that follows. *)
Theorem run_action_course e id action input a evs : RunAction e id action input = (a, evs) ->
  match a with
  | Refused code =>
      (code <> 500 /\ evs = []) \/ (code = 500 /\ (forall i b c, RunLGSM i b c ∉ evs) /\ last evs = Some Release)
  | Streamed =>
      exists srv commands stdin before after_, ae_srv e = Some (srv, commands) /\ ActionStdin action input = Ok stdin /\
        ActionPermission action <> None /\ HasCommand commands action = true /\ ae_installing e = false /\ ae_busy e = false /\
        evs = ((Lock (i_Dir srv) :: before) ++ [RunLGSM id action stdin; Log (log false (streamLines (ae_output e)))] ++ after_ ++ [Release])%list /\
        (before, List.filter acts after_) = (if updating action then ([Status id "updating"], [Status id "stopped"]) else ([], [])) /\
        Scan ∈ after_ /\ last after_ = Some (Exit (ExitCode (ae_end e)))
  end.
Proof.
  unfold RunAction. destruct (ActionPermission action) as [perm|] eqn:Ep; [|intros [= <- <-]; by left].
  destruct (ActionStdin action input) as [stdin|] eqn:Es; [|intros [= <- <-]; by left].
  destruct (ae_srv e) as [[srv commands]|] eqn:Ev; [|intros [= <- <-]; by left].
  destruct (checkAction commands (ae_installing e) action) eqn:Ec; [intros [= <- <-]; by left|].
  destruct (ae_busy e); [intros [= <- <-]; by left|].
  destruct (ae_stream e); cbn [negb]; intros [= <- <-].
  - unfold checkAction in Ec. rewrite Ep in Ec. destruct (HasCommand commands action) eqn:Eh; [|done]. destruct (ae_installing e); [done|].
    exists srv, commands, stdin, (if updating action then [Status id "updating"] else []), (end_events e id action).
    split_and!; [done..| | | |]; unfold run_events, end_events.
    + by rewrite <- !app_assoc.
    + destruct (updating action), (isStartError (ae_end e)), (mem action ["start"; "restart"; "update"]); reflexivity.
    + destruct (updating action), (isStartError (ae_end e)); cbn [app]; first [by left|by right; left].
    + destruct (updating action), (ae_end e) as [[| |]|], (mem action ["start"; "restart"; "update"]); reflexivity.
  - right. split; [done|]. destruct (updating action); (split; [intros i b c H; repeat (apply elem_of_cons in H as [H|H]; [done|]); by apply elem_of_nil in H|reflexivity]).
Qed.
Lemma run_action_course_witness :
  let e := mkActionEnv (Some (demo_instance, None)) "running" false false true (line "[ .... ]" +:+ "done") (Some (Exited 3)) in
  let r := RunAction e "vhserver" "mods-install" (mkActionInput "valheimplus" "") in
  r = (Streamed, [Lock "/home/vhserver"; RunLGSM "vhserver" "mods-install" ("valheimplus" +:+ nl +:+ "y" +:+ nl);
                  Log [mkLog (line "[ .... ]") false; mkLog "done" false]; Scan; Exit 3; Release]) /\
  exists srv commands stdin before after_, Some (demo_instance, None) = Some (srv, commands) /\
    ActionStdin "mods-install" (mkActionInput "valheimplus" "") = Ok stdin /\
    ActionPermission "mods-install" <> None /\ HasCommand commands "mods-install" = true /\ false = false /\ false = false /\
    r.2 = ((Lock (i_Dir srv) :: before) ++ [RunLGSM "vhserver" "mods-install" stdin; Log (log false (streamLines (line "[ .... ]" +:+ "done")))] ++ after_ ++ [Release])%list /\
    (before, List.filter acts after_) = (if updating "mods-install" then ([Status "vhserver" "updating"], [Status "vhserver" "stopped"]) else ([], [])) /\
    Scan ∈ after_ /\ last after_ = Some (Exit (ExitCode (Some (Exited 3)))).
Proof.
  split; [vm_compute; reflexivity|].
  exact (run_action_course (mkActionEnv (Some (demo_instance, None)) "running" false false true (line "[ .... ]" +:+ "done") (Some (Exited 3)))
           "vhserver" "mods-install" (mkActionInput "valheimplus" "") Streamed _ (eq_refl _)).
Defined.

(** ** Bulk actions *)

Lemma stored_results ids run l : forall m, (forall n, n ∈ l -> (n < length ids)%nat) -> forall id,
  match fold_left (store_result ids run) l m !! id with
  | Some x => m !! id = Some x /\ (forall n, n ∈ l -> ids !! n <> Some id) \/ exists n, n ∈ l /\ ids !! n = Some id /\ x = bulk_text (run n)
  | None => m !! id = None /\ forall n, n ∈ l -> ids !! n <> Some id
  end.
Proof.
  induction l as [|n l IH]; intros m Hl id; cbn [fold_left].
  - destruct (m !! id) eqn:E; [left|]; (split; [done|by intros ? ?%elem_of_nil]).
  - assert (Hn : (n < length ids)%nat) by (apply Hl; left). apply lookup_lt_is_Some in Hn as [x Hx].
    specialize (IH (store_result ids run m n) (fun k Hk => Hl k (list_elem_of_further _ _ _ Hk)) id).
    assert (Es : store_result ids run m n = <[x := bulk_text (run n)]> m) by (unfold store_result; by rewrite Hx). rewrite Es in *.
    destruct (_ !! id) as [y|]; [destruct IH as [[Hm Hno]|(k & Hk & Hid & ->)]|destruct IH as [Hm Hno]].
    + apply lookup_insert_Some in Hm as [[<- <-]|[Hne Hm]]; [right; exists n; split_and!; [left|done..]|].
      left. split; [done|]. intros k [->|Hk]%elem_of_cons; [congruence|by apply Hno].
    + right. exists k. split_and!; [by right|done..].
    + apply lookup_insert_None in Hm as [Hm Hne]. split; [done|]. intros k [->|Hk]%elem_of_cons; [congruence|by apply Hno].
Qed.

(** the answer of a bulk action (RunBulkAction): in whatever order its commands end, there is
    one result for each server asked for and none for another; and it is the result of a command
    that ran for this server, which is a warning for LinuxGSM's exit code 3. *)
Theorem bulk_results action ids ended run results evs :
  ended ≡ₚ seq 0 (length ids) -> RunBulkAction action ids ended run = (results, evs) ->
  (forall id, is_Some (results !! id) <-> id ∈ ids) /\
  (forall id r, results !! id = Some r ->
     r = Error (inl InvalidAction) /\ BulkActionPermission action = None /\ evs = [] \/
     exists n, ids !! n = Some id /\ r = bulk_text (run n) /\ BulkActionPermission action <> None).
Proof.
  intros Hp. unfold RunBulkAction. destruct (BulkActionPermission action) as [perm|]; intros [= <- <-].
  - assert (Hin : forall n, n ∈ ended <-> (n < length ids)%nat) by (intros n; rewrite Hp, elem_of_seq; lia). clear Hp.
    pose proof (stored_results ids run) as H.
    specialize (H ended ∅ (fun n => proj1 (Hin n))). split.
    + intros id. specialize (H id). destruct (_ !! id) as [y|]; (split; [intros Hs|intros Hs]).
      * destruct H as [[Hm _]|(n & _ & Hn & _)]; [by rewrite lookup_empty in Hm|by eapply list_elem_of_lookup_2].
      * done.
      * by destruct Hs.
      * destruct H as [_ Hno]. apply list_elem_of_lookup_1 in Hs as [n Hn]. destruct (Hno n); [apply Hin; by eapply lookup_lt_Some|done].
    + intros id r Hr. specialize (H id). rewrite Hr in H. right. destruct H as [[Hm _]|(n & _ & Hn & ->)]; [by rewrite lookup_empty in Hm|]. by exists n.
  - assert (H : forall id, foldr (fun id m => <[id := Error (inl InvalidAction)]> m) (∅ : gmap string bulk_result) ids !! id =
      if decide (id ∈ ids) then Some (Error (inl InvalidAction)) else None).
    { intros id. clear. induction ids as [|x l IH]; [done|]. cbn [foldr]. destruct (decide (x = id)) as [->|Hne].
      - rewrite lookup_insert_eq, decide_True by left. done.
      - rewrite lookup_insert_ne by done. rewrite IH. destruct (decide (id ∈ l)); [by rewrite decide_True by by right|].
        rewrite decide_False; [done|]. by intros [?|?]%elem_of_cons. }
    split; intros id; rewrite H; destruct (decide (id ∈ ids)) as [Hi|Hi]; [done|by split; [intros [? ?]|]|intros r [= <-]; by left|done].
Qed.
Lemma bulk_results_witness :
  let run n := if (n =? 0)%nat then inr (Some (Exited 3)) else if (n =? 1)%nat then inr None else inl UnknownServer in
  let r := RunBulkAction "start" ["a"; "b"; "c"] [2; 0; 1]%nat run in
  map_to_list r.1 = [("c", Error (inl UnknownServer)); ("a", Warning); ("b", Success)] /\ forall id, is_Some (r.1 !! id) <-> id ∈ ["a"; "b"; "c"].
Proof.
  set (run n := if (n =? 0)%nat then _ else _). split; [vm_compute; reflexivity|].
  refine (proj1 (bulk_results "start" ["a"; "b"; "c"] [2; 0; 1]%nat run _ _ _ (surjective_pairing _))).
  apply (Permutation_cons_append [0; 1]%nat 2%nat).
Defined.

(** ** The console *)

Lemma runes_ascii f : forall l c, (length l <= f)%nat -> In c l -> code c < 128 -> In [c] (runes_fuel f l).
Proof.
  induction f as [|f IH]; intros [|x r] c Hf Hc Ha; try done; [cbn in Hf; lia|]. cbn [runes_fuel length] in *.
  destruct (rune_width (x :: r)) as [|w] eqn:E.
  - right. apply IH; [lia| |done]. destruct Hc as [->|]; [|done]. exfalso. unfold rune_width in E. cbn [take map] in E.
    replace (code c <? 0x80) with true in E by (symmetry; by apply Z.ltb_lt). done.
  - rewrite <- (take_drop (S w) (x :: r)) in Hc. apply in_app_iff in Hc as [Hc|Hc].
    + left. apply rune_width_take in E as [E1 E2]. apply rune_ascii; [split; [|congruence]|done|done]. intros H. by rewrite H in E2.
    + right. apply IH; [rewrite length_drop; cbn [length]; lia|done|done].
Qed.

(** the input of the console (SendConsoleCommand).  What is typed into the session of a game
    is one line of printable text, typed as it is and after [--], so neither tmux nor the game
    sees another key or another command in it; it is followed by Enter and by nothing else; and
    nothing is typed into a server that reads no input or does not run. *)
Theorem console_one_line srv tmux uid works command r calls :
  SendConsoleCommand srv tmux uid works command = (r, calls) ->
  calls = [] /\ r <> Ok tt \/
  exists inst commands socket text enter, srv = Some (inst, commands) /\ HasCommand commands "send" = true /\
    findLinuxGSMTmuxTarget tmux (i_Script inst) uid = Some (socket, i_Script inst) /\
    text = ["tmux"; "-L"; socket; "send-keys"; "-t"; i_Script inst; "-l"; "--"; command] /\
    enter = ["tmux"; "-L"; socket; "send-keys"; "-t"; i_Script inst; "Enter"] /\
    (calls = [text] /\ r = Err SendFailed \/ calls = [text; enter]) /\
    (0 < slen command <= 1024) /\ Forall (fun c => is_ctl c = false) (to_bytes command).
Proof.
  unfold SendConsoleCommand. destruct srv as [[inst commands]|]; [|intros [= <- <-]; by left].
  destruct (HasCommand commands "send") eqn:Eh; cbn [negb]; [|intros [= <- <-]; by left].
  destruct (ValidateConsoleCommand command) eqn:Ev; cbn [negb]; [|intros [= <- <-]; by left].
  destruct (findLinuxGSMTmuxTarget tmux (i_Script inst) uid) as [[socket session]|] eqn:Et; [|intros [= <- <-]; by left].
  assert (session = i_Script inst) as -> by (unfold findLinuxGSMTmuxTarget in Et; destruct (List.find _ _); congruence).
  unfold ValidateConsoleCommand in Ev. apply andb_true_iff in Ev as [[Ene Elen]%andb_true_iff Ectl]. intros H. right.
  exists inst, commands, socket. eexists _, _. split_and!; [done..| | | |].
  - destruct (works 0%nat); cbn [negb] in H; [right|left]; by injection H as <- <-.
  - assert (command <> "") by (intros ->; done). destruct command; [done|]. unfold slen. cbn [String.length]. lia.
  - by apply Z.leb_le.
  - apply List.Forall_forall. intros c Hc. destruct (is_ctl c) eqn:E; [|done]. exfalso.
    assert (Hr : In [c] (runes (to_bytes command))) by (apply runes_ascii; [done|done|unfold is_ctl in E; lia]).
    rewrite forallb_forall in Ectl. apply Ectl in Hr. unfold is_ctl in E. unfold is_control in Hr. cbn [map] in Hr.
    change 0x20 with 32 in Hr. change 0x7F with 127 in Hr. by rewrite E in Hr.
Qed.

Lemma console_one_line_witness :
  let r := SendConsoleCommand (Some (demo_instance, None)) (demo_tmux 1 0) (Some "ab12") (fun _ => true) "say C-c; hello" in
  r = (Ok tt, [["tmux"; "-L"; "vhserver-ab12"; "send-keys"; "-t"; "vhserver"; "-l"; "--"; "say C-c; hello"];
               ["tmux"; "-L"; "vhserver-ab12"; "send-keys"; "-t"; "vhserver"; "Enter"]]) /\
  Forall (fun c => is_ctl c = false) (to_bytes "say C-c; hello").
Proof.
  split; [vm_compute; reflexivity|].
  destruct (console_one_line (Some (demo_instance, None)) (demo_tmux 1 0) (Some "ab12") (fun _ => true) "say C-c; hello" (Ok tt) _ (eq_refl _))
    as [[_ H]|(? & ? & ? & ? & ? & _ & _ & _ & _ & _ & _ & _ & H)]; [by destruct H|exact H].
Defined.
