(* ===== verification/Status.v ===== *)
(** * The status of a server (backend/manager.go, backend/backups.go)

    Discovery replaces the list of servers every few seconds, while commands that update a
    server, and restores of a backup, show it as updating.  This file models the merge of a
    discovery with what is known ([scanLocked]), the details LinuxGSM reports, and the status
    over every interleaving of discoveries with such operations. *)

From Stdlib Require Import ZArith Lia Bool String Ascii List.
From stdpp Require Import base gmap strings list fin_maps relations.
From S2P Require Import Prelude GoStrings Text Validate Http Paths ServerIDs Hub Output Manager.

(** ** Discovery *)

(** A server in memory: the fields the dashboard keeps up to date. *)
Record live := mkLive {
  lv_srv : Instance; lv_Name : string; lv_Status : string; lv_statusUnknown : bool; lv_Port : Z;
  lv_ParsedPorts : list PortProbe; lv_Tag : string; lv_BindIP : string }.
Definition set_status (s : string) (v : live) : live :=
  mkLive (lv_srv v) (lv_Name v) s (lv_statusUnknown v) (lv_Port v) (lv_ParsedPorts v) (lv_Tag v) (lv_BindIP v).
Definition set_tag (t : string) (v : live) : live :=
  mkLive (lv_srv v) (lv_Name v) (lv_Status v) (lv_statusUnknown v) (lv_Port v) (lv_ParsedPorts v) t (lv_BindIP v).
Definition same_place (a b : live) : bool :=
  String.eqb (i_Dir (lv_srv a)) (i_Dir (lv_srv b)) && String.eqb (i_Script (lv_srv a)) (i_Script (lv_srv b)).

(** The status after a discovery, for a server that was known. *)
Definition kept_status (existing v : live) : string :=
  if String.eqb (lv_Status existing) "updating" then lv_Status existing
  else if lv_statusUnknown v && (String.eqb (lv_Status existing) "running" || String.eqb (lv_Status existing) "stopped")
  then lv_Status existing else lv_Status v.
Definition merge_one (tags : gmap string string) (old : gmap string live) (k : string) (v : live) : live :=
  let v := match tags !! k with Some t => set_tag t v | None => v end in
  match old !! k with
  | None => if lv_statusUnknown v then set_status "stopped" v else v
  | Some existing =>
      if same_place existing v then
        let parsed := match lv_ParsedPorts existing with [] => false | _ => true end in
        mkLive (lv_srv v) (lv_Name existing) (kept_status existing v) (lv_statusUnknown v)
          (if parsed then lv_Port existing else lv_Port v) (if parsed then lv_ParsedPorts existing else lv_ParsedPorts v)
          (if String.eqb (lv_Tag existing) "" then lv_Tag v else lv_Tag existing) (lv_BindIP existing)
      else v
  end.
Definition show_installing (installing : gmap string Z) (v : live) : live :=
  if isInstalling installing (lv_srv v) then set_status "installing" v else v.
Definition merge (tags : gmap string string) (installing : gmap string Z) (old detected : gmap string live) : gmap string live :=
  map_imap (fun k v => Some (show_installing installing (merge_one tags old k v))) detected.

Definition with_id (v : live) (srv : Instance) : live :=
  mkLive srv (lv_Name v) (lv_Status v) (lv_statusUnknown v) (lv_Port v) (lv_ParsedPorts v) (lv_Tag v) (lv_BindIP v).
Definition by_id (found : list live) : gmap string live := fold_left (fun m v => <[i_ID (lv_srv v) := v]> m) found ∅.
(** [found] is [None] when the discovery fails; the result also has the ID file.  The search for
    a free ID always ends (ServerIDs.v). *)
Definition scanLocked (found : option (list live)) (file : id_file) (readable saved : bool) (tags : gmap string string)
    (installing : gmap string Z) (old : gmap string live) : gmap string live * id_file :=
  match found with
  | None => (old, file)
  | Some found =>
      match assignStableIDs file readable saved (map lv_srv found) with
      | Some (ids, file') => (merge tags installing old (by_id (zip_with with_id found ids)), file')
      | None => (old, file)
      end
  end.

(** ** Details *)

Definition game_port (ports : list PortProbe) (port : Z) : Z :=
  let port := match List.find (fun p => EqualFold (pt_Description p) "Game") ports with Some p => pt_Port p | None => port end in
  match ports with
  | p :: _ => if port =? 0 then pt_Port p else port
  | [] => port
  end.
(** The goroutine of [executeRefreshDetails]: [asked] is the server the command ran for,
    [output] what it printed. *)
Definition apply_details (asked : live) (output : string) (cur : live) : live :=
  let clean := stripAnsi output in
  let '(name, ports) := parseDetailsOutput clean in
  let name := sanitizeDisplayText name 128 in
  let ip := parseDetailsIP clean in
  if same_place cur asked then
    let parsed := match ports with [] => false | _ => true end in
    mkLive (lv_srv cur) (if String.eqb name "" then mapScriptToGameName (i_Script (lv_srv asked)) else name)
      (lv_Status cur) (lv_statusUnknown cur)
      (if parsed then game_port ports (lv_Port cur) else lv_Port cur) (if parsed then ports else lv_ParsedPorts cur)
      (lv_Tag cur) (if String.eqb ip "" then lv_BindIP cur else ip)
  else cur.
(** [details] is not asked again within ten minutes. *)
Definition shouldTryDetails (tried : gmap string Z) (now : Z) (id : string) : bool * gmap string Z :=
  match tried !! id with
  | Some t => if now - t <? 10 * ns_minute then (false, tried) else (true, <[id := now]> tried)
  | None => (true, <[id := now]> tried)
  end.

(** ** Operations that show a server as updating *)

(** A command that updates, or a restore.  [o_old] is the status it read before it had the lock. *)
Inductive stage := Asked | Working | Ended | Gone.
#[export] Instance stage_eq : EqDecision stage.
Proof. solve_decision. Defined.
Record operation := mkOp { o_restore : bool; o_id : string; o_dir : string; o_old : string; o_stage : stage }.
Definition set_stage (s : stage) (o : operation) : operation := mkOp (o_restore o) (o_id o) (o_dir o) (o_old o) s.
Record dashboard := mkDash { servers : gmap string live; ops : list operation }.

Definition show_status (id s : string) (m : gmap string live) : gmap string live := alter (set_status s) id m.
Definition ask (restore : bool) (id : string) (d : dashboard) : option dashboard :=
  match servers d !! id with
  | Some v => Some (mkDash (servers d) (ops d ++ [mkOp restore id (i_Dir (lv_srv v)) (lv_Status v) Asked]))
  | None => None
  end.
Definition locked (dir : string) (l : list operation) : bool :=
  existsb (fun o => String.eqb (o_dir o) dir && match o_stage o with Working | Ended => true | _ => false end) l.
(** [tryLock], then the status. *)
Definition begin_op (i : nat) (d : dashboard) : option dashboard :=
  match ops d !! i with
  | Some o => match o_stage o with
              | Asked => if locked (o_dir o) (ops d) then None
                         else Some (mkDash (show_status (o_id o) "updating" (servers d)) (<[i := set_stage Working o]> (ops d)))
              | _ => None
              end
  | None => None
  end.
(** The last status an operation sets: the one it read (when the answer cannot be streamed, or
    the archive is refused), [stopped], or, after a restore, [running]. *)
Definition may_end (o : operation) (s : string) : bool :=
  mem s ([o_old o; "stopped"] ++ if o_restore o then ["running"] else []).
Definition end_op (i : nat) (s : string) (d : dashboard) : option dashboard :=
  match ops d !! i with
  | Some o => match o_stage o with
              | Working => if may_end o s then Some (mkDash (show_status (o_id o) s (servers d)) (<[i := set_stage Ended o]> (ops d))) else None
              | _ => None
              end
  | None => None
  end.
(** The directory is given back, or could not be had. *)
Definition leave_op (i : nat) (d : dashboard) : option dashboard :=
  match ops d !! i with
  | Some o => match o_stage o with Asked | Ended => Some (mkDash (servers d) (<[i := set_stage Gone o]> (ops d))) | _ => None end
  | None => None
  end.

(** What discovery reports of a server is that it runs or does not. *)
Definition discovered (m : gmap string live) : Prop := map_Forall (fun _ v => lv_Status v <> "updating") m.
(** Discovery finds every server an operation was asked for until it ends, at its place, and no
    installation runs under its name. *)
Definition finds_all (installing : gmap string Z) (d : dashboard) (detected : gmap string live) : Prop :=
  forall o v, o ∈ ops d -> o_stage o = Asked \/ o_stage o = Working -> servers d !! o_id o = Some v ->
    exists v', detected !! o_id o = Some v' /\ same_place v v' = true /\ isInstalling installing (lv_srv v') = false.

(** [steady]: whether discoveries are required to find every server that is being worked on. *)
Inductive dash_step (steady : bool) : dashboard -> dashboard -> Prop :=
| step_scan tags installing detected d : discovered detected -> (steady = true -> finds_all installing d detected) ->
    dash_step steady d (mkDash (merge tags installing (servers d) detected) (ops d))
| step_details id asked output d : dash_step steady d (mkDash (alter (apply_details asked output) id (servers d)) (ops d))
| step_ask restore id d d' : ask restore id d = Some d' -> dash_step steady d d'
| step_begin i d d' : begin_op i d = Some d' -> dash_step steady d d'
| step_end i s d d' : end_op i s d = Some d' -> dash_step steady d d'
| step_leave i d d' : leave_op i d = Some d' -> dash_step steady d d'.
Definition start_up : dashboard := mkDash ∅ [].

(** * Properties *)

Lemma merge_servers_lookup tags installing old detected k :
  merge tags installing old detected !! k = (fun v => show_installing installing (merge_one tags old k v)) <$> detected !! k.
Proof. unfold merge. rewrite map_lookup_imap. by destruct (detected !! k). Qed.
Lemma merge_one_srv tags old k v : lv_srv (merge_one tags old k v) = lv_srv v.
Proof.
  unfold merge_one. destruct (tags !! k); destruct (old !! k) as [e|]; cbn [set_tag lv_statusUnknown];
    try destruct (same_place e _); try destruct (lv_statusUnknown v); done.
Qed.
(** A discovery shows a server as updating only if it was shown so before. *)
Lemma merge_updating tags installing old detected k v : discovered detected ->
  merge tags installing old detected !! k = Some v -> lv_Status v = "updating" -> exists e, old !! k = Some e /\ lv_Status e = "updating".
Proof.
  intros Hd. rewrite merge_servers_lookup. destruct (detected !! k) as [x|] eqn:Ex; [|done]. intros [= <-]. apply Hd in Ex.
  unfold show_installing. destruct (isInstalling _ _); [done|]. unfold merge_one.
  destruct (old !! k) as [e|].
  - intros H. exists e. split; [done|]. revert H.
    destruct (tags !! k); (destruct (same_place e _); [|done]); cbn [lv_Status set_tag]; unfold kept_status; cbn [lv_Status lv_statusUnknown set_tag];
      (destruct (String.eqb_spec (lv_Status e) "updating") as [|Hu]; [done|]); by destruct (_ && _).
  - by destruct (tags !! k); cbn [lv_Status lv_statusUnknown set_tag]; destruct (lv_statusUnknown x).
Qed.
(** A server shown as updating that is found at its place stays so. *)
Lemma merge_keeps tags installing old detected k e v : old !! k = Some e -> lv_Status e = "updating" -> detected !! k = Some v ->
  same_place e v = true -> isInstalling installing (lv_srv v) = false ->
  exists v', merge tags installing old detected !! k = Some v' /\ lv_Status v' = "updating" /\ lv_srv v' = lv_srv v.
Proof.
  intros He Hs Hv Hp Hi. rewrite merge_servers_lookup, Hv. cbn [fmap option_fmap option_map]. eexists. split; [reflexivity|].
  unfold show_installing. rewrite merge_one_srv, Hi. split; [|by apply merge_one_srv]. unfold merge_one. rewrite He.
  assert (Ht : forall t, same_place e (set_tag t v) = same_place e v) by done.
  destruct (tags !! k); rewrite ?Ht, Hp; cbn [lv_Status]; unfold kept_status; by rewrite Hs.
Qed.
Lemma same_place_dir a b : same_place a b = true -> i_Dir (lv_srv a) = i_Dir (lv_srv b).
Proof. unfold same_place. intros [H _]%andb_true_iff. by apply String.eqb_eq. Qed.
Lemma apply_details_keeps asked output v :
  lv_srv (apply_details asked output v) = lv_srv v /\ lv_Status (apply_details asked output v) = lv_Status v.
Proof. unfold apply_details. destruct (parseDetailsOutput _) as [name ports]. by destruct (same_place v asked). Qed.

(** ** Locks *)

Definition holds_lock (o : operation) : Prop := o_stage o = Working \/ o_stage o = Ended.
Definition locks_ok (d : dashboard) : Prop :=
  forall i j o p, ops d !! i = Some o -> ops d !! j = Some p -> holds_lock o -> holds_lock p -> o_dir o = o_dir p -> i = j.
Lemma locked_false dir l : locked dir l = false -> forall o, o ∈ l -> holds_lock o -> o_dir o <> dir.
Proof.
  intros H o Hin Hl E. unfold locked in H. assert (Ht : locked dir l = true); [|unfold locked in Ht; congruence].
  apply existsb_exists. exists o. split; [by apply list_elem_of_In|]. rewrite E, String.eqb_refl. by destruct Hl as [-> | ->].
Qed.
(** How the operations change: nothing, a new one that was asked for, or one goes on to its next stage. *)
Lemma step_ops steady d d' : dash_step steady d d' ->
  ops d' = ops d \/ (exists restore id v, servers d !! id = Some v /\ ops d' = (ops d ++ [mkOp restore id (i_Dir (lv_srv v)) (lv_Status v) Asked])%list) \/
  exists i o s, ops d !! i = Some o /\ ops d' = <[i := set_stage s o]> (ops d) /\
    ((o_stage o = Asked /\ s = Working /\ locked (o_dir o) (ops d) = false) \/ (o_stage o = Working /\ s = Ended) \/ (s = Gone /\ o_stage o <> Working)).
Proof.
  destruct 1 as [| |restore id d d' E|i d d' E|i s d d' E|i d d' E]; [by left..| | | |]; right.
  - left. unfold ask in E. destruct (servers d !! id) as [v|] eqn:Ev; [|done]. injection E as <-. by exists restore, id, v.
  - right. unfold begin_op in E. destruct (ops d !! i) as [o|] eqn:Eo; [|done]. destruct (o_stage o) eqn:Es; try done.
    destruct (locked (o_dir o) (ops d)) eqn:El; [done|]. injection E as <-. exists i, o, Working. split_and!; [done|done|by left].
  - right. unfold end_op in E. destruct (ops d !! i) as [o|] eqn:Eo; [|done]. destruct (o_stage o) eqn:Es; try done.
    destruct (may_end o s); [|done]. injection E as <-. exists i, o, Ended. split_and!; [done|done|right; by left].
  - right. unfold leave_op in E. destruct (ops d !! i) as [o|] eqn:Eo; [|done]. exists i, o, Gone.
    destruct (o_stage o) eqn:Es; try done; injection E as <-; (split_and!; [done..|right; right; by split]).
Qed.
Lemma step_locks steady d d' : dash_step steady d d' -> locks_ok d -> locks_ok d'.
Proof.
  intros Hs H. apply step_ops in Hs as [E|[(restore & id & v & _ & E)|(i & o & s & Ho & E & Hst)]]; unfold locks_ok; rewrite E; [done|..].
  - assert (Hold : forall k p, (ops d ++ [mkOp restore id (i_Dir (lv_srv v)) (lv_Status v) Asked])%list !! k = Some p -> holds_lock p -> ops d !! k = Some p).
    { intros k p [Hp|[_ Hp]]%lookup_app_Some Hl; [done|]. apply list_lookup_singleton_Some in Hp as [_ <-]. by destruct Hl. }
    intros j k p q Hp Hq Hlp Hlq. apply H; auto.
  - intros j k p q [[-> ->]|[Hj Hp]]%(lookup_put _ _ _ _ _ _ Ho) [[-> ->]|[Hk Hq]]%(lookup_put _ _ _ _ _ _ Ho) Hlp Hlq Ed; [done|..].
    + cbn [o_dir set_stage] in Ed. destruct Hst as [(Ha & -> & Hl)|[[Hw ->]|[-> _]]]; [|exfalso; apply Hk; symmetry; apply (H i k o q); auto; by left|by destruct Hlp].
      destruct (locked_false _ _ Hl q); [by eapply list_elem_of_lookup_2|done|done].
    + cbn [o_dir set_stage] in Ed. destruct Hst as [(Ha & -> & Hl)|[[Hw ->]|[-> _]]]; [|exfalso; apply Hj; apply (H j i p o); auto; by left|by destruct Hlq].
      destruct (locked_false _ _ Hl p); [by eapply list_elem_of_lookup_2|done|done].
    + by apply (H j k p q).
Qed.

(** ** No server is left updating *)

(** Every operation read a status other than updating when it was asked for. *)
Definition fresh_reads (d : dashboard) : Prop := Forall (fun o => o_old o <> "updating") (ops d).
Definition updating_explained (d : dashboard) : Prop :=
  forall id v, servers d !! id = Some v -> lv_Status v = "updating" -> exists o, o ∈ ops d /\ o_stage o = Working /\ o_id o = id.

Lemma show_status_lookup id s m k v : show_status id s m !! k = Some v ->
  (k = id /\ exists w, m !! id = Some w /\ v = set_status s w) \/ (k <> id /\ m !! k = Some v).
Proof. unfold show_status. intros [[-> (w & Hw & ->)]|[? ?]]%lookup_alter_Some; [left; eauto|by right]. Qed.
Lemma put_other (l : list operation) i o q p : l !! i = Some o -> p ∈ l -> p <> o -> p ∈ <[i := q]> l.
Proof.
  intros Ho Hp Hne. apply list_elem_of_lookup_1 in Hp as [j Hj]. eapply list_elem_of_lookup_2. apply (lookup_put _ _ _ _ _ _ Ho). right.
  split; [|exact Hj]. intros ->. congruence.
Qed.
Lemma put_here (l : list operation) i o q : l !! i = Some o -> q ∈ <[i := q]> l.
Proof. intros Ho. eapply list_elem_of_lookup_2. apply (lookup_put _ _ _ _ _ _ Ho). by left. Qed.

Lemma step_fresh steady d d' : dash_step steady d d' -> fresh_reads d' -> fresh_reads d.
Proof.
  unfold fresh_reads. intros Hs. apply step_ops in Hs as [->|[(restore & id & v & _ & ->)|(i & o & s & Ho & -> & _)]]; [done|by intros [? _]%Forall_app|].
  rewrite !Forall_forall. intros H p Hp. apply list_elem_of_lookup_1 in Hp as [j Hj]. destruct (decide (j = i)) as [->|Hji].
  - assert (p = o) as -> by congruence. exact (H _ (put_here _ _ _ (set_stage s o) Ho)).
  - apply H. eapply list_elem_of_lookup_2. apply (lookup_put _ _ _ _ _ _ Ho). right. by split.
Qed.
Lemma step_explained steady d d' : dash_step steady d d' -> fresh_reads d -> updating_explained d -> updating_explained d'.
Proof.
  intros Hs Hf H. destruct Hs as [tags inst detected d Hd _|id asked output d|restore id d d' E|i d d' E|i s d d' E|i d d' E]; intros k v Hv Hu; cbn [servers ops] in *.
  - destruct (merge_updating _ _ _ _ _ _ Hd Hv Hu) as (e & He & Hs). by eapply H.
  - apply lookup_alter_Some in Hv as [[-> (w & Hw & ->)]|[_ Hv]]; [|by eapply H]. apply (H _ w Hw). by rewrite <- (proj2 (apply_details_keeps asked output w)).
  - unfold ask in E. destruct (servers d !! id); [|done]. injection E as <-. cbn [servers ops] in *.
    destruct (H _ _ Hv Hu) as (o & Ho & ?). exists o. split; [apply elem_of_app; by left|done].
  - unfold begin_op in E. destruct (ops d !! i) as [o|] eqn:Eo; [|done]. destruct (o_stage o) eqn:Es; try done. destruct (locked _ _); [done|].
    injection E as <-. cbn [servers ops] in *. apply show_status_lookup in Hv as [[-> _]|[_ Hv]]; [exists (set_stage Working o); split; [by eapply put_here|done]|].
    destruct (H _ _ Hv Hu) as (p & Hp & Hw & Hid). exists p. split; [|done]. eapply put_other; [done|done|]. intros ->. congruence.
  - unfold end_op in E. destruct (ops d !! i) as [o|] eqn:Eo; [|done]. destruct (o_stage o) eqn:Es; try done. destruct (may_end o s) eqn:Em; [|done].
    injection E as <-. cbn [servers ops] in *. apply show_status_lookup in Hv as [[-> (w & _ & ->)]|[Hne Hv]].
    + cbn in Hu. subst s. unfold may_end in Em. apply mem_true in Em. unfold fresh_reads in Hf. rewrite Forall_forall in Hf.
      specialize (Hf o (list_elem_of_lookup_2 _ _ _ Eo)). apply in_app_iff in Em as [[?|[?|[]]]|Em]; [done|done|]. destruct (o_restore o); [by destruct Em as [?|[]]|done].
    + destruct (H _ _ Hv Hu) as (p & Hp & Hw & Hid). exists p. split; [|done]. eapply put_other; [done|done|]. intros ->. congruence.
  - unfold leave_op in E. destruct (ops d !! i) as [o|] eqn:Eo; [|done].
    assert (E' : o_stage o <> Working /\ d' = mkDash (servers d) (<[i := set_stage Gone o]> (ops d))) by (destruct (o_stage o); by injection E as <- || done).
    destruct E' as [Hn ->]. cbn [servers ops] in *.
    destruct (H _ _ Hv Hu) as (p & Hp & Hw & Hid). exists p. split; [|done]. eapply put_other; [done|done|]. intros ->. congruence.
Qed.

(** ** A server is shown as updating while it is *)

Definition shown (d : dashboard) : Prop :=
  forall i o, ops d !! i = Some o -> o_stage o = Asked \/ o_stage o = Working ->
    exists v, servers d !! o_id o = Some v /\ i_Dir (lv_srv v) = o_dir o /\ (o_stage o = Working -> lv_Status v = "updating").

Lemma show_status_same id s m k v : m !! k = Some v ->
  exists w, show_status id s m !! k = Some w /\ lv_srv w = lv_srv v /\ lv_Status w = if decide (k = id) then s else lv_Status v.
Proof.
  intros H. unfold show_status. destruct (decide (k = id)) as [->|Hne].
  - exists (set_status s v). rewrite lookup_alter_eq, H. done.
  - exists v. by rewrite lookup_alter_ne.
Qed.
Lemma step_shown d d' : dash_step true d d' -> locks_ok d -> shown d -> shown d'.
Proof.
  intros Hs Hl H. destruct Hs as [tags inst detected d Hd Hall|id asked output d|restore id d d' E|i d d' E|i s d d' E|i d d' E]; intros k p Hp Hst; cbn [servers ops] in *.
  - destruct (H k p Hp Hst) as (v & Hv & Hdir & Hu). destruct (Hall eq_refl p v) as (x & Hx & Hsame & Hinst); [by eapply list_elem_of_lookup_2|done|done|].
    destruct (o_stage p) eqn:Es; [|destruct (merge_keeps tags inst _ _ _ v x Hv (Hu eq_refl) Hx Hsame Hinst) as (y & Hy & Hsy & Hsrv)|by destruct Hst..].
    + rewrite merge_servers_lookup, Hx. eexists. split; [reflexivity|]. split; [|done]. unfold show_installing. rewrite merge_one_srv, Hinst, merge_one_srv.
      rewrite <- Hdir. symmetry. by apply same_place_dir.
    + exists y. split_and!; [done| |done]. rewrite Hsrv, <- Hdir. symmetry. by apply same_place_dir.
  - destruct (H k p Hp Hst) as (v & Hv & Hdir & Hu). destruct (apply_details_keeps asked output v) as [E1 E2].
    destruct (decide (o_id p = id)) as [<-|Hne]; [exists (apply_details asked output v); rewrite lookup_alter_eq, Hv, E1, E2; done|].
    exists v. by rewrite lookup_alter_ne.
  - unfold ask in E. destruct (servers d !! id) as [v|] eqn:Ev; [|done]. injection E as <-. cbn [servers ops] in *.
    apply lookup_app_Some in Hp as [Hp|[_ Hp]]; [by eapply H|]. apply list_lookup_singleton_Some in Hp as [_ <-]. by exists v.
  - unfold begin_op in E. destruct (ops d !! i) as [o|] eqn:Eo; [|done]. destruct (o_stage o) eqn:Es; try done. destruct (locked _ _); [done|].
    injection E as <-. cbn [servers ops] in *. apply (lookup_put _ _ _ _ _ _ Eo) in Hp as [[-> ->]|[_ Hp]].
    + destruct (H i o Eo (or_introl Es)) as (v & Hv & Hdir & _). destruct (show_status_same (o_id o) "updating" _ _ _ Hv) as (w & Hw & E1 & E2).
      exists w. cbn [o_id set_stage o_dir]. rewrite decide_True in E2 by done. rewrite E1. done.
    + destruct (H k p Hp Hst) as (v & Hv & Hdir & Hu). destruct (show_status_same (o_id o) "updating" _ _ _ Hv) as (w & Hw & E1 & E2).
      exists w. rewrite E1, E2. split_and!; [done..|]. intros Hk. destruct (decide _); [done|by apply Hu].
  - unfold end_op in E. destruct (ops d !! i) as [o|] eqn:Eo; [|done]. destruct (o_stage o) eqn:Es; try done. destruct (may_end o s); [|done].
    injection E as <-. cbn [servers ops] in *. apply (lookup_put _ _ _ _ _ _ Eo) in Hp as [[-> ->]|[Hki Hp]]; [by destruct Hst|].
    destruct (H k p Hp Hst) as (v & Hv & Hdir & Hu). destruct (show_status_same (o_id o) s _ _ _ Hv) as (w & Hw & E1 & E2).
    exists w. rewrite E1, E2. split_and!; [done..|]. intros Hk. destruct (decide (o_id p = o_id o)) as [Eid|]; [|by apply Hu].
    destruct Hki. destruct (H i o Eo (or_intror Es)) as (v' & Hv' & Hdir' & _).
    apply (Hl k i p o); [done..|by left|by left|]. rewrite Eid in Hv. congruence.
  - unfold leave_op in E. destruct (ops d !! i) as [o|] eqn:Eo; [|done].
    assert (d' = mkDash (servers d) (<[i := set_stage Gone o]> (ops d))) as -> by (destruct (o_stage o); by injection E as <- || done). cbn [servers ops] in *.
    apply (lookup_put _ _ _ _ _ _ Eo) in Hp as [[-> ->]|[_ Hp]]; [by destruct Hst|by eapply H].
Qed.

(** C22: the status updating, over every interleaving of discoveries, details, commands that
    update and restores.  When no request was made while its server was shown as updating, a
    server is shown so only while such an operation runs for it: nothing stays updating for
    ever.  And as long as discovery finds the server at its place and no installation runs
    under its name, it is shown as updating the whole time the operation runs. *)
Theorem updating_while_working d steady : rtc (dash_step steady) start_up d ->
  (fresh_reads d -> forall id v, servers d !! id = Some v -> lv_Status v = "updating" ->
     exists o, o ∈ ops d /\ o_stage o = Working /\ o_id o = id) /\
  (steady = true -> forall o, o ∈ ops d -> o_stage o = Working ->
     exists v, servers d !! o_id o = Some v /\ i_Dir (lv_srv v) = o_dir o /\ lv_Status v = "updating").
Proof.
  intros Hr. split.
  - revert Hr. apply (rtc_ind_r (R := dash_step steady) (fun d => fresh_reads d -> updating_explained d)); [by intros _ id v Hv|].
    intros y z _ Hs IH Hf. eapply step_explained; [done| |apply IH]; by eapply step_fresh.
  - intros ->. assert (H : locks_ok d /\ shown d).
    { revert Hr. apply (rtc_ind_r (R := dash_step true) (fun d => locks_ok d /\ shown d)); [by split; intros i ? ? ?|].
      intros y z _ Hs [H1 H2]. split; [by eapply step_locks|by eapply step_shown]. }
    destruct H as [_ H]. intros o Ho Hw. apply list_elem_of_lookup_1 in Ho as [i Hi]. destruct (H i o Hi (or_intror Hw)) as (v & Hv & Hd & Hu).
    exists v. auto.
Qed.

Definition demo_live : live := mkLive demo_instance "Valheim" "running" false 2456 [] "" "".
Definition demo_found : gmap string live := {[ "vhserver" := demo_live ]}.
Lemma demo_discovered : discovered demo_found.
Proof. by apply map_Forall_singleton. Qed.
Definition after_scan (d : dashboard) : dashboard := mkDash (merge ∅ ∅ (servers d) demo_found) (ops d).
Lemma scan_demo d : dash_step false d (after_scan d).
Proof. exact (step_scan false ∅ ∅ demo_found d demo_discovered (fun H => False_ind _ (Bool.diff_false_true H))). Qed.
Definition try_step (f : dashboard -> option dashboard) (d : dashboard) : dashboard := default d (f d).
Definition demo_working : dashboard := try_step (begin_op 0) (try_step (ask false "vhserver") (after_scan start_up)).
(** Whether a step is possible is computed. *)
Definition possible {A} (o : option A) : bool := match o with Some _ => true | None => false end.
Lemma try_possible f d : possible (f d) = true -> f d = Some (try_step f d).
Proof. unfold try_step. by destruct (f d). Qed.
Lemma demo_steps : rtc (dash_step false) start_up demo_working.
Proof.
  eapply rtc_l; [apply scan_demo|]. eapply rtc_l; [apply (step_ask false false "vhserver"), try_possible; vm_compute; reflexivity|].
  apply rtc_once, (step_begin false 0), try_possible. vm_compute. reflexivity.
Qed.
Lemma updating_while_working_witness :
  lv_Status <$> servers demo_working !! "vhserver" = Some "updating" /\
  forall v, servers demo_working !! "vhserver" = Some v -> lv_Status v = "updating" ->
    exists o, o ∈ ops demo_working /\ o_stage o = Working /\ o_id o = "vhserver".
Proof.
  split; [vm_compute; reflexivity|].
  refine (proj1 (updating_while_working demo_working false demo_steps) _ "vhserver"). constructor; [discriminate|constructor].
Defined.

(** A restore that is asked for while its server updates reads that status.  When it has the
    lock at last and refuses the archive, it puts the status back that it read: the server is
    shown as updating although nothing runs, and every later discovery keeps it so. *)
Definition demo_stuck : dashboard :=
  try_step (leave_op 1) (try_step (end_op 1 "updating") (try_step (begin_op 1) (try_step (leave_op 0) (after_scan
    (try_step (end_op 0 "stopped") (try_step (ask true "vhserver") demo_working)))))).
Example stale_status_sticks :
  rtc (dash_step false) start_up demo_stuck /\ Forall (fun o => o_stage o = Gone) (ops demo_stuck) /\
  lv_Status <$> servers demo_stuck !! "vhserver" = Some "updating" /\
  lv_Status <$> servers (after_scan demo_stuck) !! "vhserver" = Some "updating".
Proof.
  split_and!; [|vm_compute; repeat constructor|vm_compute; reflexivity|vm_compute; reflexivity].
  etransitivity; [exact demo_steps|].
  eapply rtc_l; [apply (step_ask false true "vhserver"), try_possible; vm_compute; reflexivity|].
  eapply rtc_l; [apply (step_end false 0 "stopped"), try_possible; vm_compute; reflexivity|]. eapply rtc_l; [apply scan_demo|].
  eapply rtc_l; [apply (step_leave false 0), try_possible; vm_compute; reflexivity|].
  eapply rtc_l; [apply (step_begin false 1), try_possible; vm_compute; reflexivity|].
  eapply rtc_l; [apply (step_end false 1 "updating"), try_possible; vm_compute; reflexivity|].
  apply rtc_once, (step_leave false 1), try_possible. vm_compute. reflexivity.
Qed.
