(* ===== verification/Autostart.v ===== *)
(** * Autostart units (backend/autostart.go)

    The systemd units that start a server at boot: their names, their text, how the dashboard
    tells its own unit of a server from the units of others, and how units are installed,
    replaced, removed and migrated.  The directory of the units is explicit state; the calls of
    systemctl are a list of argument lists. *)

From Stdlib Require Import ZArith Lia Bool String Ascii List.
From stdpp Require Import base gmap strings list fin_maps.
From S2P Require Import Prelude GoStrings Text Validate Paths Cfg Schedule Stores Manager.

Definition autostartUnitName (srv : Instance) : string :=
  "linuxgsm-" +:+ i_User srv +:+ "-" +:+ i_Script srv +:+ ".service".
Definition legacyAutostartUnitNames (srv : Instance) : list string :=
  ("linuxgsm-" +:+ i_Script srv +:+ ".service") ::
  (if negb (String.eqb (i_ID srv) (i_Script srv)) && IsValidScriptName (i_ID srv) then [i_ID srv +:+ ".service"] else []).

(** The display name without anything systemd could interpret. *)
Definition unit_description (name : string) : string :=
  of_bytes (List.filter (fun c => negb (one_of "%\" c)) (to_bytes (sanitizeDisplayText name 100))).
Definition unit_lines (desc user dir scriptPath : string) : list string :=
  ["[Unit]"; "Description=LinuxGSM " +:+ desc +:+ " Server"; "After=network-online.target"; "Wants=network-online.target"; "";
   "[Service]"; "Type=forking"; "User=" +:+ user; "WorkingDirectory=" +:+ dir; "RemainAfterExit=yes";
   "ExecStart=" +:+ scriptPath +:+ " start"; "ExecStop=-" +:+ scriptPath +:+ " stop"; "Restart=no";
   "TimeoutStartSec=15min"; "TimeoutStopSec=5min"; ""; "[Install]"; "WantedBy=multi-user.target"; ""].
Definition installable (srv : Instance) : bool :=
  IsSafeServerDir (i_Dir srv) && IsValidScriptName (i_Script srv) && IsValidLinuxUsername (i_User srv).
Definition autostartUnit (srv : Instance) (name : string) : option string :=
  if negb (installable srv) then None else
  Some (join (byte_str newline) (unit_lines (unit_description name) (i_User srv) (i_Dir srv) (scriptPathOf srv))).

(** An entry of the directory of the units. *)
Inductive unit_entry := UnitFile (text : string) | UnreadableFile | NotAFile.

Definition unit_line (st : string * string * string) (line : string) : string * string * string :=
  let '(user, dir, start) := st in
  let line := trim_space line in
  match cut_prefix line "User=" with
  | Some v => (v, dir, start)
  | None =>
      match cut_prefix line "WorkingDirectory=" with
      | Some v => (user, v, start)
      | None => match cut_prefix line "ExecStart=" with Some v => (user, dir, v) | None => st end
      end
  end.
Definition unitRunsServer (e : option unit_entry) (srv : Instance) : bool :=
  match e with
  | Some (UnitFile text) =>
      if 64 * 1024 <? slen text then false else
      let '(user, dir, start) := fold_left unit_line (scanner_lines (split newline text)) ("", "", "") in
      String.eqb user (i_User srv) && String.eqb (Clean dir) (Clean (i_Dir srv))
        && String.eqb start (scriptPathOf srv +:+ " start")
  | _ => false
  end.


Section Units.
(** [stuck]: the entries that cannot be deleted. *)
Context (stuck : string -> bool).

Definition remove_unit (name : string) (dir : gmap string unit_entry) : gmap string unit_entry := if stuck name then dir else delete name dir.

Fixpoint remove_units (srv : Instance) (names : list string) (dir : gmap string unit_entry) : bool * gmap string unit_entry * list (list string) :=
  match names with
  | [] => (false, dir, [])
  | name :: names =>
      if negb (unitRunsServer (dir !! name) srv) then remove_units srv names dir else
      let '(_, dir, calls) := remove_units srv names (remove_unit name dir) in
      (true, dir, ["stop"; name] :: ["disable"; name] :: calls)
  end.
Definition removeLegacyAutostart (srv : Instance) (dir : gmap string unit_entry) : bool * gmap string unit_entry * list (list string) :=
  let '(found, dir, calls) := remove_units srv (legacyAutostartUnitNames srv) dir in
  (found, dir, if found then (calls ++ [["daemon-reload"]])%list else calls).
Definition removeAutostart (srv : Instance) (dir : gmap string unit_entry) : gmap string unit_entry * list (list string) :=
  let '(_, dir, calls) := removeLegacyAutostart srv dir in
  let name := autostartUnitName srv in
  if negb (unitRunsServer (dir !! name) srv) then (dir, calls)
  else (remove_unit name dir, (calls ++ [["stop"; name]; ["disable"; name]; ["daemon-reload"]])%list).

Inductive autostart_error := CannotInstall | UnitNotWritten | EnableFailed.
(** [wrote] and [enabled]: the unit could be written, systemctl could enable it. *)
Definition InstallAutostart (wrote enabled : bool) (srv : Instance) (display : string) (dir : gmap string unit_entry)
  : result autostart_error unit * gmap string unit_entry * list (list string) :=
  match autostartUnit srv display with
  | None => (Err CannotInstall, dir, [])
  | Some text =>
      let '(_, dir, calls) := removeLegacyAutostart srv dir in
      let name := autostartUnitName srv in
      if negb wrote then (Err UnitNotWritten, dir, calls) else
      (if enabled then Ok tt else Err EnableFailed, <[name := UnitFile text]> dir,
       (calls ++ [["daemon-reload"]; ["enable"; name]])%list)
  end.

Definition has_legacy (srv : Instance) (dir : gmap string unit_entry) : bool :=
  existsb (fun name => unitRunsServer (dir !! name) srv) (legacyAutostartUnitNames srv).
(** tmux is asked before and, for a running server, after the migration. *)
Definition MigrateAutostart (root wrote enabled : bool) (before after : tmuxState) (srv : Instance) (display : string) (dir : gmap string unit_entry)
  : gmap string unit_entry * list (list string) :=
  if negb root || String.eqb (i_Layout srv) LayoutData then (dir, []) else
  if negb (has_legacy srv dir) then (dir, []) else
  let '(r, dir, calls) := InstallAutostart wrote enabled srv display dir in
  match r, before, after with
  | Ok _, tmuxActive, tmuxAbsent => (dir, (calls ++ [["start"; autostartUnitName srv]])%list)
  | _, _, _ => (dir, calls)
  end.
End Units.

Definition demo_srv : Instance := mkInstance "vhserver" "vh" "vhserver" "/home/vh" LayoutHost.
Definition old_unit : string :=
  join (byte_str newline) ["[Service]"; "Type=simple"; "User=vh"; "WorkingDirectory=/home/vh/"; "ExecStart=/home/vh/vhserver start"; "Restart=always"].
Example migrate_example :
  let no _ := false in
  let dir := <["linuxgsm-vhserver.service" := UnitFile old_unit]> ∅ in
  let '(dir', calls) := MigrateAutostart no true true true tmuxActive tmuxAbsent demo_srv "My 100% Server" dir in
  (map fst (map_to_list dir'), calls, unitRunsServer (dir' !! autostartUnitName demo_srv) demo_srv) =
  (["linuxgsm-vh-vhserver.service"],
   [["stop"; "linuxgsm-vhserver.service"]; ["disable"; "linuxgsm-vhserver.service"]; ["daemon-reload"]; ["daemon-reload"];
    ["enable"; "linuxgsm-vh-vhserver.service"]; ["start"; "linuxgsm-vh-vhserver.service"]], true).
Proof. vm_compute. reflexivity. Qed.

(** * Properties *)

(** ** Names and directories of servers *)

Lemma script_byte_plain c : is_alnum c || one_of "._-" c = true -> plain c = true /\ c <> "/"%char.
Proof. destruct c as [[] [] [] [] [] [] [] []]; vm_compute; done. Qed.
Lemma dir_byte_plain c : dir_char c = true -> plain c = true.
Proof. destruct c as [[] [] [] [] [] [] [] []]; vm_compute; done. Qed.
Lemma plain_not_newline s : sall plain s = true -> contains_byte s newline = false.
Proof. rewrite sall_forall. intros H. apply contains_byte_false. by intros ?%H. Qed.

Lemma script_name_ok s : IsValidScriptName s = true -> name_ok s /\ sall plain s = true /\ (String.length s <= 64)%nat.
Proof.
  unfold IsValidScriptName, reScriptName. intros [H Hd]%andb_true_iff.
  assert (Hdot : s <> "." /\ s <> "..") by (by split; intros ->). apply re_word_inv in H as (Hne & Hc & Hl).
  assert (Hp : forall c, In c (to_bytes s) -> plain c = true /\ c <> "/"%char).
  { intros c [Hi|Hi]%Hc; apply script_byte_plain; [by rewrite Hi|exact Hi]. }
  split; [|split; [by apply sall_forall; intros; apply Hp|lia]].
  split_and!; [done|apply Hdot|apply Hdot|]. apply contains_byte_false. by intros [_ ?]%Hp.
Qed.
Lemma user_name_ok u : IsValidLinuxUsername u = true -> u <> "" /\ sall plain u = true /\ (String.length u <= 32)%nat.
Proof.
  unfold IsValidLinuxUsername, reLinuxUsername. intros (Hne & Hc & Hl)%re_word_inv. split_and!; [done| |lia].
  apply sall_forall. intros c Hi%Hc. revert Hi. destruct c as [[] [] [] [] [] [] [] []]; vm_compute; intuition done.
Qed.
Lemma safe_dir_ok d : IsSafeServerDir d = true ->
  IsAbs d = true /\ Clean d = d /\ sall plain d = true /\ elements d <> [] /\ (String.length d <= 255)%nat.
Proof.
  intros H. pose proof (safe_dir_facts d H) as (Ha & Hc & Hs & Hroot). split_and!; [done|done| | |].
  - by eapply sall_impl; [apply dir_byte_plain|].
  - intros E. rewrite (abs_path_clean d Ha Hc), E in Hroot. by apply Hroot.
  - unfold IsSafeServerDir in H. destruct (String.eqb d "" || (255 <? slen d) || _) eqn:E; [done|].
    apply orb_false_iff in E as [[_ E]%orb_false_iff _]. unfold slen in E. lia.
Qed.

(** The path of the script is the directory, a slash and the name. *)
Lemma script_path d s : IsSafeServerDir d = true -> IsValidScriptName s = true ->
  Join [d; s] = d +:+ "/" +:+ s.
Proof.
  intros (Ha & Hc & _ & Hne & _)%safe_dir_ok (Hn & _)%script_name_ok.
  destruct (elements_join d [s] Ha) as [He _]; [by apply Forall_singleton|done|]. rewrite join_one in He.
  destruct (join_root_clean d s Ha) as [Hja Hjc]. rewrite (abs_path_clean _ Hja Hjc), He. unfold abs_path.
  rewrite join_app, join_one by done. rewrite (abs_path_clean d Ha Hc) at 2. unfold abs_path. by rewrite !string_app_assoc.
Qed.

(** ** Reading a unit back *)

Lemma trim_ends c m d : plain c = true -> plain d = true ->
  trim_space (byte_str c +:+ m +:+ byte_str d) = byte_str c +:+ m +:+ byte_str d.
Proof.
  intros Hc Hd. unfold trim_space, byte_str. rewrite !to_bytes_app, !to_of_bytes.
  change ([c] ++ to_bytes m ++ [d])%list with (c :: to_bytes m ++ [d])%list. rewrite trim_space_plain by done.
  apply to_bytes_inj. by rewrite !to_bytes_app, !to_of_bytes.
Qed.
Lemma string_end s : s <> "" -> exists m d, s = m +:+ byte_str d /\ In d (to_bytes s).
Proof.
  intros Hne. destruct (to_bytes s) as [|c l] eqn:E using rev_ind; [by apply to_bytes_nil in E|].
  exists (of_bytes l), c. split; [|by apply in_or_app; right; left].
  apply to_bytes_inj. unfold byte_str. by rewrite to_bytes_app, !to_of_bytes.
Qed.
(** A line that starts with a plain byte and ends in a plain text is kept as it is. *)
Lemma trim_line c pre s : plain c = true -> s <> "" -> sall plain s = true ->
  trim_space (byte_str c +:+ pre +:+ s) = byte_str c +:+ pre +:+ s.
Proof.
  intros Hc Hne Hs. destruct (string_end s Hne) as (m & d & E & Hd). rewrite sall_forall in Hs. apply Hs in Hd.
  rewrite E. rewrite <- (string_app_assoc pre). by apply trim_ends.
Qed.

Lemma unit_line_skip st l :
  existsb (has_prefix (trim_space l)) ["User="; "WorkingDirectory="; "ExecStart="] = false -> unit_line st l = st.
Proof.
  destruct st as [[u d] x]. cbn [existsb]. intros [H1 [H2 [H3 _]%orb_false_iff]%orb_false_iff]%orb_false_iff. unfold unit_line, cut_prefix. by rewrite H1, H2, H3.
Qed.
Lemma unit_line_set (k : nat) pre v st : v <> "" -> sall plain v = true ->
  nth_error ["User="; "WorkingDirectory="; "ExecStart="] k = Some pre ->
  unit_line st (pre +:+ v) = match k, st with
    | O, (_, d, x) => (v, d, x) | 1%nat, (u, _, x) => (u, v, x) | _, (u, d, _) => (u, d, v) end.
Proof.
  intros Hne Hv Hk. destruct st as [[u d] x]. assert (Ht : trim_space (pre +:+ v) = pre +:+ v).
  { destruct k as [|[|[|k]]]; [..|by destruct k]; injection Hk as <-; cbn [String.append];
      [apply (trim_line "U" "ser=")|apply (trim_line "W" "orkingDirectory=")|apply (trim_line "E" "xecStart=")]; done. }
  unfold unit_line. rewrite Ht. destruct k as [|[|[|k]]]; [..|by destruct k]; injection Hk as <-; unfold cut_prefix;
    rewrite has_prefix_app, sdrop_app; reflexivity.
Qed.

Lemma unit_read desc user dir sp :
  user <> "" -> sall plain user = true -> dir <> "" -> sall plain dir = true -> sp <> "" -> sall plain sp = true ->
  fold_left unit_line (unit_lines desc user dir sp) ("", "", "") = (user, dir, sp +:+ " start").
Proof.
  intros Hu1 Hu Hd1 Hd Hs1 Hs. unfold unit_lines. cbn [fold_left].
  rewrite (unit_line_skip _ "[Unit]") by reflexivity.
  assert (Ht : trim_space ("Description=LinuxGSM " +:+ desc +:+ " Server") = "Description=LinuxGSM " +:+ desc +:+ " Server").
  { pose proof (trim_line "D" ("escription=LinuxGSM " +:+ desc +:+ " ") "Server" eq_refl ltac:(done) eq_refl) as H.
    rewrite !string_app_assoc in H. exact H. }
  rewrite (unit_line_skip _ (_ +:+ desc +:+ _)) by (rewrite Ht; reflexivity).
  do 5 rewrite (unit_line_skip (_, _, _)) by reflexivity.
  rewrite (unit_line_set 0 "User=" user) by done. rewrite (unit_line_set 1 "WorkingDirectory=" dir) by done.
  rewrite (unit_line_skip _ "RemainAfterExit=yes") by reflexivity.
  assert (Hx : trim_space ("ExecStart=" +:+ sp +:+ " start") = "ExecStart=" +:+ sp +:+ " start").
  { pose proof (trim_line "E" ("xecStart=" +:+ sp +:+ " ") "start" eq_refl ltac:(done) eq_refl) as H.
    rewrite !string_app_assoc in H. exact H. }
  assert (Hy : trim_space ("ExecStop=-" +:+ sp +:+ " stop") = "ExecStop=-" +:+ sp +:+ " stop").
  { pose proof (trim_line "E" ("xecStop=-" +:+ sp +:+ " ") "stop" eq_refl ltac:(done) eq_refl) as H.
    rewrite !string_app_assoc in H. exact H. }
  replace (unit_line _ ("ExecStart=" +:+ sp +:+ " start")) with (user, dir, sp +:+ " start").
  2: { unfold unit_line. rewrite Hx. cbn [cut_prefix]. unfold cut_prefix. rewrite (has_prefix_app "ExecStart="), (sdrop_app "ExecStart="). reflexivity. }
  rewrite (unit_line_skip _ ("ExecStop=-" +:+ _)) by (rewrite Hy; reflexivity).
  repeat rewrite (unit_line_skip (_, _, _)) by reflexivity. reflexivity.
Qed.

Lemma scanner_all lines : Forall (fun l => slen l <= 65535) lines -> scanner_lines lines = lines.
Proof. induction 1 as [|l r Hl _ IH]; [done|]. cbn [scanner_lines]. by rewrite (proj2 (Z.ltb_ge _ _) Hl), IH. Qed.
Lemma join_slen l b : l <> [] -> Forall (fun s => slen s <= b) l ->
  slen (join (byte_str newline) l) + 1 <= Z.of_nat (length l) * (b + 1).
Proof.
  intros Hne H. induction H as [|x [|y l] Hx Hr IH]; [done| |].
  { rewrite join_one. cbn [length]. lia. }
  rewrite join_cons. unfold slen in *. rewrite !string_app_length. specialize (IH ltac:(done)). cbn [length] in *.
  change (String.length (byte_str newline)) with 1%nat. lia.
Qed.
Lemma description_ok name :
  contains_byte (unit_description name) newline = false /\ (String.length (unit_description name) <= 400)%nat.
Proof.
  pose proof (sanitize_ok name 100) as (Hc & _ & Hl). cbv zeta in *. unfold unit_description. split.
  - apply contains_byte_false. rewrite to_of_bytes. intros [Hi _]%List.filter_In. rewrite sall_forall in Hc. by apply Hc in Hi.
  - rewrite length_of_bytes. etransitivity; [apply List.filter_length_le|]. by rewrite length_to_bytes.
Qed.

(** What [unitRunsServer] reads from a unit the dashboard wrote. *)
Lemma unit_text_read srv name text :
  i_Layout srv <> LayoutData -> autostartUnit srv name = Some text ->
  slen text <= 64 * 1024 /\ fold_left unit_line (scanner_lines (split newline text)) ("", "", "") =
    (i_User srv, i_Dir srv, scriptPathOf srv +:+ " start") /\
  installable srv = true /\ scriptPathOf srv = i_Dir srv +:+ "/" +:+ i_Script srv.
Proof.
  intros Hl. unfold autostartUnit. destruct (installable srv) eqn:Ei; [|done]. cbn [negb]. intros [= <-].
  pose proof Ei as [[Hd Hs]%andb_true_iff Hu]%andb_true_iff.
  assert (Hsp : scriptPathOf srv = i_Dir srv +:+ "/" +:+ i_Script srv).
  { unfold scriptPathOf. rewrite (proj2 (String.eqb_neq _ _) Hl). by apply script_path. }
  pose proof (safe_dir_ok _ Hd) as (Ha & _ & Hdp & _ & Hdl). pose proof (script_name_ok _ Hs) as (_ & Hsp' & Hsl).
  pose proof (user_name_ok _ Hu) as (Hune & Hup & Hul). pose proof (description_ok name) as [Hdn Hdsl].
  assert (Hdne : i_Dir srv <> "") by by intros E; rewrite E in Ha.
  set (sp := scriptPathOf srv) in *. assert (Hpl : sall plain sp = true) by (rewrite Hsp, !sall_app, Hdp, Hsp'; done).
  assert (Hspl : (String.length sp <= 320)%nat) by (rewrite Hsp, !string_app_length; simpl; lia).
  assert (Hspne : sp <> "") by (rewrite Hsp; by destruct (i_Dir srv)).
  set (lines := unit_lines _ _ _ _). assert (Hnl : Forall (fun w => contains_byte w newline = false) lines).
  { assert (Happ : forall a b, contains_byte (a +:+ b) newline = contains_byte a newline || contains_byte b newline)
      by (intros; unfold contains_byte, sany; rewrite to_bytes_app; apply existsb_app).
    pose proof (plain_not_newline _ Hup). pose proof (plain_not_newline _ Hdp). pose proof (plain_not_newline _ Hpl).
    unfold lines, unit_lines. repeat constructor; rewrite ?Happ; rewrite ?Hdn, ?H, ?H0, ?H1; reflexivity. }
  assert (Hlen : Forall (fun l => slen l <= 1000) lines).
  { unfold lines, unit_lines, slen. repeat constructor; rewrite ?string_app_length; cbn [String.length]; lia. }
  assert (Htot : slen (join (byte_str newline) lines) <= 64 * 1024).
  { pose proof (join_slen lines 1000 ltac:(done) Hlen) as Hj. change (Z.of_nat (length lines)) with 19 in Hj. lia. }
  split; [done|]. split; [|done]. rewrite split_join by done.
  rewrite scanner_all by (eapply Forall_impl; [exact Hlen|]; simpl; intros; lia). by apply unit_read.
Qed.

Lemma unit_text_self srv name text :
  i_Layout srv <> LayoutData -> autostartUnit srv name = Some text -> unitRunsServer (Some (UnitFile text)) srv = true.
Proof.
  intros Hl Ht. destruct (unit_text_read srv name text Hl Ht) as (Hlen & Hr & Hi & Hsp).
  unfold unitRunsServer. by rewrite (proj2 (Z.ltb_ge _ _) Hlen), Hr, !String.eqb_refl.
Qed.

(** C26: the unit file the dashboard writes for a server is recognised as the unit of exactly
    this server - whatever the display name, which comes from the game server's own output, can
    hold: for another server that could be installed, the same file counts as its own only if
    Linux user, directory and script are the same. *)
Theorem autostart_unit_identifies_server srv srv' name text :
  i_Layout srv <> LayoutData -> i_Layout srv' <> LayoutData ->
  autostartUnit srv name = Some text -> installable srv' = true ->
  unitRunsServer (Some (UnitFile text)) srv' = true <->
    i_User srv = i_User srv' /\ i_Dir srv = i_Dir srv' /\ i_Script srv = i_Script srv'.
Proof.
  intros Hl Hl' Ht Hi'. destruct (unit_text_read srv name text Hl Ht) as (Hlen & Hr & Hi & Hsp).
  assert (Ht' : exists text', autostartUnit srv' name = Some text') by (unfold autostartUnit; rewrite Hi'; by eexists).
  destruct Ht' as [text' Ht']. destruct (unit_text_read srv' name text' Hl' Ht') as (_ & _ & _ & Hsp').
  unfold installable in Hi, Hi'. apply andb_true_iff in Hi as [[Hd _]%andb_true_iff _], Hi' as [[Hd' _]%andb_true_iff _].
  apply safe_dir_ok in Hd as (_ & Hc & _), Hd' as (_ & Hc' & _).
  unfold unitRunsServer. rewrite (proj2 (Z.ltb_ge _ _) Hlen), Hr, Hc, Hc', Hsp, Hsp'.
  rewrite !andb_true_iff, !String.eqb_eq, !string_app_assoc. split.
  - intros ((-> & E) & Hx). rewrite E in *. split_and!; [done|done|].
    apply to_bytes_inj. apply (f_equal to_bytes) in Hx. rewrite !to_bytes_app in Hx.
    apply app_inv_head, (app_inv_head (to_bytes "/")), app_inv_tail in Hx. done.
  - intros (-> & -> & ->). done.
Qed.
Lemma autostart_unit_identifies_server_witness :
  exists text, autostartUnit demo_srv ("x" +:+ byte_str newline +:+ "User=root") = Some text /\
  unitRunsServer (Some (UnitFile text)) demo_srv = true.
Proof.
  eexists. split; [vm_compute; reflexivity|].
  apply (autostart_unit_identifies_server demo_srv demo_srv ("x" +:+ byte_str newline +:+ "User=root"));
    [discriminate|discriminate|vm_compute; reflexivity|vm_compute; reflexivity|done].
Defined.

(** ** Installing, replacing and removing *)

Section Replace.
Context (stuck : string -> bool) (srv : Instance).
Local Abbreviation runs e := (unitRunsServer e srv).

Lemma remove_unit_lookup name dir n :
  remove_unit stuck name dir !! n = if String.eqb n name && negb (stuck name) then None else dir !! n.
Proof.
  unfold remove_unit. destruct (String.eqb_spec n name) as [->|Hn]; destruct (stuck name); cbn [andb negb];
    rewrite ?lookup_delete_eq, ?lookup_delete_ne; done.
Qed.

(** Only units of this server go, and those under the given names do. *)
Lemma remove_units_spec names : forall dir found dir' calls, remove_units stuck srv names dir = (found, dir', calls) ->
  found = existsb (fun n => runs (dir !! n)) names /\
  (forall n, dir' !! n = if mem n names && runs (dir !! n) && negb (stuck n) then None else dir !! n).
Proof.
  induction names as [|name names IH]; intros dir found dir' calls; cbn [remove_units].
  { intros [= <- <- <-]. done. }
  destruct (runs (dir !! name)) eqn:Hr; cbn [negb].
  - destruct (remove_units stuck srv names _) as [[f d] c] eqn:E. intros [= <- <- <-]. apply IH in E as [_ E].
    cbn [existsb]. rewrite Hr. split; [done|]. intros n. rewrite E, remove_unit_lookup. cbn [mem existsb]. fold (mem n names).
    destruct (String.eqb_spec n name) as [->|Hn]; cbn [orb andb]; [|done]. rewrite Hr.
    destruct (stuck name) eqn:Es; cbn [negb andb]; rewrite ?andb_false_r; [done|]. by destruct (_ && _).
  - intros E. apply IH in E as [-> E]. cbn [existsb]. rewrite Hr. split; [done|]. intros n. rewrite E.
    cbn [mem existsb]. fold (mem n names). destruct (String.eqb_spec n name) as [->|Hn]; cbn [orb]; [|done].
    rewrite Hr. by rewrite andb_false_r.
Qed.

Lemma remove_legacy_spec dir found dir' calls : removeLegacyAutostart stuck srv dir = (found, dir', calls) ->
  found = existsb (fun n => runs (dir !! n)) (legacyAutostartUnitNames srv) /\
  (forall n, dir' !! n = if mem n (legacyAutostartUnitNames srv) && runs (dir !! n) && negb (stuck n) then None else dir !! n).
Proof.
  unfold removeLegacyAutostart. destruct (remove_units _ _ _ _) as [[f d] c] eqn:E. intros [= <- <- _]. by eapply remove_units_spec.
Qed.
Lemma remove_autostart_spec dir dir' calls : removeAutostart stuck srv dir = (dir', calls) ->
  forall n, dir' !! n = if mem n (autostartUnitName srv :: legacyAutostartUnitNames srv) && runs (dir !! n) && negb (stuck n)
                        then None else dir !! n.
Proof.
  unfold removeAutostart. destruct (removeLegacyAutostart _ _ _) as [[f d] c] eqn:E. apply remove_legacy_spec in E as [_ E].
  set (name := autostartUnitName srv). intros H n. cbn [mem existsb]. fold (mem n (legacyAutostartUnitNames srv)).
  destruct (runs (d !! name)) eqn:Hr; cbn [negb] in H; injection H as <- <-.
  - rewrite remove_unit_lookup, !E. destruct (String.eqb_spec n name) as [->|Hn]; cbn [orb andb]; [|done].
    rewrite E in Hr. destruct (mem name _); cbn [andb orb] in *; [|rewrite Hr; by destruct (stuck name)].
    destruct (runs (dir !! name)) eqn:Hd; cbn [andb] in *; [by destruct (stuck name)|]. congruence.
  - rewrite E. destruct (String.eqb_spec n name) as [->|Hn]; cbn [orb]; [|done]. rewrite E in Hr.
    destruct (mem name _); cbn [andb orb] in *; [done|]. by rewrite Hr.
Qed.

Lemma install_autostart_spec wrote enabled display dir r dir' calls :
  InstallAutostart stuck wrote enabled srv display dir = (r, dir', calls) ->
  (exists text, autostartUnit srv display = Some text /\ is_ok r = wrote && enabled /\
     forall n, dir' !! n = if wrote && String.eqb n (autostartUnitName srv) then Some (UnitFile text)
       else if mem n (legacyAutostartUnitNames srv) && runs (dir !! n) && negb (stuck n) then None else dir !! n) \/
  (autostartUnit srv display = None /\ r = Err CannotInstall /\ dir' = dir /\ calls = []).
Proof.
  unfold InstallAutostart. intros H. destruct (autostartUnit srv display) as [text|]; [left|right; by injection H as <- <- <-].
  destruct (removeLegacyAutostart _ _ _) as [[f d] c] eqn:E. apply remove_legacy_spec in E as [_ E].
  exists text. split; [done|]. destruct wrote; cbn [negb andb] in *; injection H as <- <- _.
  - split; [by destruct enabled|]. intros n. destruct (String.eqb_spec n (autostartUnitName srv)) as [->|Hn].
    + by rewrite lookup_insert_eq.
    + rewrite lookup_insert_ne by done. apply E.
  - split; [done|exact E].
Qed.
End Replace.

(** After the autostart of a server was installed, its unit is the one the dashboard wrote
    and no unit under one of the older names starts the server as well; after a removal, no unit
    under any of its names runs it.  In both, every unit of another server stays as it was,
    unless it stands under the very name of the new unit. *)
Theorem autostart_units_replaced stuck enabled srv display dir r dir1 calls1 dir2 calls2 :
  i_Layout srv <> LayoutData -> installable srv = true -> (forall n, stuck n = false) ->
  InstallAutostart stuck true enabled srv display dir = (r, dir1, calls1) ->
  removeAutostart stuck srv dir1 = (dir2, calls2) ->
  let name := autostartUnitName srv in let names := name :: legacyAutostartUnitNames srv in
  unitRunsServer (dir1 !! name) srv = true /\ (r = Ok tt <-> enabled = true) /\
  (forall n, In n names -> unitRunsServer (dir1 !! n) srv = true -> n = name) /\
  (forall n, In n names -> unitRunsServer (dir2 !! n) srv = false) /\
  (forall n, n <> name -> unitRunsServer (dir !! n) srv = false -> dir1 !! n = dir !! n /\ dir2 !! n = dir !! n).
Proof.
  intros Hl Hi Hst HI HR name names. apply install_autostart_spec in HI as [(text & Ht & Hr & HI)|(Hn & _)].
  2: { unfold autostartUnit in Hn. by rewrite Hi in Hn. }
  pose proof (remove_autostart_spec stuck srv _ _ _ HR) as HR'. cbn [andb] in HI. fold name in HI. fold name names in HR'.
  assert (Hown : unitRunsServer (dir1 !! name) srv = true).
  { rewrite HI, String.eqb_refl. apply (unit_text_self srv display text Hl Ht). }
  split_and!; [done| | | |].
  - destruct r as [[]|e], enabled; cbn in Hr; by split; intros ?; try discriminate.
  - intros n [<-|Hin] Hrun; [done|]. rewrite HI in Hrun. destruct (String.eqb_spec n name) as [->|Hne]; [done|].
    rewrite (proj2 (mem_true n _) Hin), Hst in Hrun. cbn [andb negb] in Hrun. rewrite andb_true_r in Hrun.
    destruct (unitRunsServer (dir !! n) srv) eqn:Ed; [done|congruence].
  - intros n Hin. rewrite HR', (proj2 (mem_true n _) Hin), Hst. cbn [andb negb]. rewrite andb_true_r.
    by destruct (unitRunsServer (dir1 !! n) srv) eqn:Ed.
  - intros n Hne Hrun. assert (E : dir1 !! n = dir !! n).
    { rewrite HI, (proj2 (String.eqb_neq _ _) Hne), Hrun, andb_false_r. done. }
    split; [done|]. by rewrite HR', E, Hrun, andb_false_r.
Qed.
Definition demo_units : gmap string unit_entry := <["linuxgsm-vhserver.service" := UnitFile old_unit]> (<["sshd.service" := UnreadableFile]> ∅).
Lemma autostart_units_replaced_witness :
  let no _ := false in
  let '(_, dir1, _) := InstallAutostart no true true demo_srv "My server" demo_units in
  unitRunsServer (dir1 !! "linuxgsm-vhserver.service") demo_srv = false /\ dir1 !! "sshd.service" = Some UnreadableFile.
Proof.
  intros no. destruct (InstallAutostart no true true demo_srv "My server" demo_units) as [[r dir1] calls1] eqn:E1.
  destruct (removeAutostart no demo_srv dir1) as [dir2 calls2] eqn:E2.
  destruct (autostart_units_replaced no true demo_srv "My server" demo_units r dir1 calls1 dir2 calls2
    ltac:(discriminate) ltac:(vm_compute; reflexivity) (fun _ => eq_refl) E1 E2) as (_ & _ & H & _ & Ho).
  split.
  - destruct (unitRunsServer (dir1 !! "linuxgsm-vhserver.service") demo_srv) eqn:E; [|reflexivity].
    specialize (H "linuxgsm-vhserver.service" (or_intror (or_introl eq_refl)) E). discriminate H.
  - refine (proj1 (Ho "sshd.service" _ _)); [discriminate|vm_compute; reflexivity].
Defined.

(** A migration leaves nothing to migrate. *)
Lemma install_no_legacy stuck wrote srv enabled display dir r d c :
  installable srv = true -> (forall n, stuck n = false) ->
  ~ In (autostartUnitName srv) (legacyAutostartUnitNames srv) ->
  InstallAutostart stuck wrote enabled srv display dir = (r, d, c) -> has_legacy srv d = false.
Proof.
  intros Hi Hst Hnot. intros [(text & _ & _ & E)|(Hn & _)]%install_autostart_spec; [|unfold autostartUnit in Hn; by rewrite Hi in Hn].
  apply not_true_iff_false. unfold has_legacy. rewrite existsb_exists. intros (n & Hin & Hrun). rewrite E in Hrun.
  rewrite (proj2 (String.eqb_neq n (autostartUnitName srv))), andb_false_r in Hrun by (by intros ->).
  rewrite (proj2 (mem_true n _) Hin), Hst in Hrun. cbn [andb negb] in Hrun. rewrite andb_true_r in Hrun.
  destruct (unitRunsServer (dir !! n) srv) eqn:Ed; [done|congruence].
Qed.
Lemma migration_once stuck wrote enabled before after srv display dir before' after' display' :
  installable srv = true -> (forall n, stuck n = false) -> ~ In (autostartUnitName srv) (legacyAutostartUnitNames srv) ->
  let dir1 := (MigrateAutostart stuck true wrote enabled before after srv display dir).1 in
  MigrateAutostart stuck true wrote enabled before' after' srv display' dir1 = (dir1, []).
Proof.
  intros Hi Hst Hnot. cbv zeta. unfold MigrateAutostart at 2 3. cbn [negb orb].
  destruct (String.eqb (i_Layout srv) LayoutData) eqn:El; [unfold MigrateAutostart; by rewrite El|].
  destruct (has_legacy srv dir) eqn:Eo; cbn [negb fst]; [|unfold MigrateAutostart; by rewrite El, Eo].
  destruct (InstallAutostart stuck wrote enabled srv display dir) as [[r d] c] eqn:E.
  replace ((match r with Ok _ => _ | Err _ => _ end).1) with d by (by destruct r, before, after).
  unfold MigrateAutostart. by rewrite El, (install_no_legacy _ _ _ _ _ _ _ _ _ Hi Hst Hnot E).
Qed.

(** The name of a unit does not say where the user ends: a server of the user "a" can have the
    unit name of a server of the user "a-vhserver", and then the later one replaces the unit of
    the other. *)
Example unit_names_collide :
  let no _ := false in
  let other := mkInstance "vhserver" "a-vhserver" "vhserver" "/home/a-vhserver" LayoutHost in
  let clone := mkInstance "vhserver-vhserver" "a" "vhserver-vhserver" "/home/a" LayoutHost in
  let '(_, dir1, _) := InstallAutostart no true true other "A" ∅ in
  let '(_, dir2, _) := InstallAutostart no true true clone "B" dir1 in
  (unitRunsServer (dir1 !! autostartUnitName other) other, unitRunsServer (dir2 !! autostartUnitName other) other) = (true, false).
Proof. vm_compute. reflexivity. Qed.
