(* ===== verification/HostUsers.v ===== *)
(** * Linux users of game servers (backend/host_users.go, backend/runtime_host.go)

    Which Linux accounts the dashboard may use and which it may delete: the users it recorded as
    created by itself, administrator accounts, dedicated server users, and the deletion of a
    server with or without its user.  What the machine answers is a record of functions; what a
    deletion does is a list of events. *)

From Stdlib Require Import ZArith Lia Bool String Ascii List.
From stdpp Require Import base gmap strings list fin_maps.
From S2P Require Import Prelude GoStrings Validate Paths Cfg Schedule Stores ConfigFiles Output Manager Autostart.

(** ** What the machine answers *)

Inductive file_type := TDir | TRegular | TSymlink | TOther.
Record file_info := mkInfo { f_type : file_type; f_uid : Z; f_size : Z; f_mode : Z }.
Inductive lstat_answer := Found (i : file_info) | Missing | LstatError.

(** [m_head] gives the first 500 bytes of a file, [m_eval] is [filepath.EvalSymlinks]. *)
Record machine := mkMachine {
  m_passwd : option string; m_group : option string;
  m_lstat : string -> lstat_answer; m_readDir : string -> option (list (string * file_type));
  m_head : string -> option string; m_eval : string -> option string }.

Definition isLinuxGSMScriptAt (m : machine) (path : string) : bool := isLinuxGSMScript (m_head m path).
Definition is_regular (t : file_type) : bool := match t with TRegular => true | _ => false end.
Definition lfileOwnerUID (m : machine) (path : string) : option Z :=
  match m_lstat m path with Found i => Some (f_uid i) | _ => None end.

(** ** Accounts *)

Record passwdEntry := mkEntry { pw_Name : string; pw_UID : Z; pw_GID : Z; pw_Home : string }.
Definition passwd_line (line : string) : option passwdEntry :=
  match split ":" line with
  | name :: _ :: uid :: gid :: _ :: home :: _ =>
      match atoi uid, atoi gid with Some u, Some g => Some (mkEntry name u g home) | _, _ => None end
  | _ => None
  end.
(** A line of a [bufio.Scanner] loses its carriage return; a line that does not fit is an error. *)
Definition scanned (line : string) : string := trim_suffix line cr.
Definition readPasswd (file : option string) : option (list passwdEntry) :=
  match file with
  | None => None
  | Some text =>
      let lines := split newline text in
      if existsb (fun l => 65535 <? slen l) lines then None else Some (omap (fun l => passwd_line (scanned l)) lines)
  end.
Definition user_named (name : string) (users : list passwdEntry) : option passwdEntry :=
  List.find (fun e => String.eqb (pw_Name e) name) users.

(** ** Users the dashboard created *)

Record createdUser := mkCreated { cu_Name : string; cu_UID : Z }.
(** The content of created_users.json; without a config directory there is none, and nothing
    is stored. *)
Definition created_users : Type := option (list createdUser).
Definition loadCreatedUsers (c : created_users) : list createdUser := default [] c.
Definition without_user (name : string) : list createdUser -> list createdUser :=
  List.filter (fun u => negb (String.eqb (cu_Name u) name)).
(** [saved]: the file could be written. *)
Definition store_users (saved : bool) (l : list createdUser) (c : created_users) : created_users :=
  match c with None => None | Some _ => if saved then Some l else c end.
(** The last line of this name counts. *)
Definition recorded_uid (passwd : option string) (name : string) : Z :=
  match readPasswd passwd with
  | Some users => fold_left (fun uid u => if String.eqb (pw_Name u) name then pw_UID u else uid) users (-1)
  | None => -1
  end.
Definition recordCreatedUser (passwd : option string) (saved : bool) (name : string) (c : created_users) : created_users :=
  store_users saved (without_user name (loadCreatedUsers c) ++ [mkCreated name (recorded_uid passwd name)])%list c.
Definition forgetCreatedUser (saved : bool) (name : string) (c : created_users) : created_users :=
  store_users saved (without_user name (loadCreatedUsers c)) c.
Definition wasCreatedByDashboard (c : created_users) (name : string) (uid : Z) : bool :=
  existsb (fun u => String.eqb (cu_Name u) name && ((cu_UID u <? 0) || (cu_UID u =? uid))) (loadCreatedUsers c).

(** ** Administrators and dedicated users *)

Definition adminGroups : list string := ["sudo"; "wheel"; "admin"; "adm"].
Definition group_lists (name line : string) : bool :=
  match split ":" line with
  | group :: _ :: _ :: members :: _ => mem group adminGroups && mem name (split "," members)
  | _ => false
  end.
Definition hasAuthorizedKeys (m : machine) (home : string) : bool :=
  existsb (fun f => match m_lstat m (Join [home; ".ssh"; f]) with Found i => 0 <? f_size i | _ => false end)
    ["authorized_keys"; "authorized_keys2"].
(** The loop ends at a line that does not fit the scanner, without an error. *)
Definition isAdminAccount (m : machine) (name home : string) : bool :=
  if hasAuthorizedKeys m home then true else
  match m_group m with
  | None => true
  | Some text => existsb (fun l => group_lists name (scanned l)) (scanner_lines (split newline text))
  end.

Definition linuxGSMRootEntries : list string := ["linuxgsm.sh"; "lgsm"; "log"; "serverfiles"; "backup"; "backups"; "public_html"].
Definition regular_uid (uid : Z) : bool := (1000 <=? uid) && (uid <? 65534).
Definition lgsm_script_entry (m : machine) (dir : string) (e : string * file_type) : bool :=
  is_regular e.2 && IsValidScriptName e.1 && isLinuxGSMScriptAt m (Join [dir; e.1]).
Definition own_entry (m : machine) (dir : string) (e : string * file_type) : bool :=
  has_prefix e.1 "." || mem e.1 linuxGSMRootEntries || lgsm_script_entry m dir e.

Definition isDedicatedServerUser (m : machine) (srv : Instance) (uid : Z) : bool :=
  match readPasswd (m_passwd m) with
  | None => false
  | Some users =>
      match user_named (i_User srv) users with
      | None => false
      | Some e =>
          if negb (regular_uid (pw_UID e) && (pw_UID e =? uid)) then false else
          if negb (String.eqb (Clean (pw_Home e)) (Clean (i_Dir srv))) then false else
          match m_readDir m (i_Dir srv) with
          | None => false
          | Some entries => forallb (own_entry m (i_Dir srv)) entries
          end
      end
  end.
Definition mayDeleteLinuxUser (m : machine) (c : created_users) (srv : Instance) (uid : Z) : bool :=
  if negb (isDedicatedServerUser m srv uid) then false
  else if wasCreatedByDashboard c (i_User srv) uid then true
  else negb (isAdminAccount m (i_User srv) (i_Dir srv)).

(** ** An existing user for a new server *)

Record InstallRequest := mkRequest {
  r_GameCmd : string; r_Username : string; r_Password : string; r_Dir : string; r_Lang : string; r_Steam : SteamLogin }.
Inductive reuse_error :=
| PasswdUnreadable | SystemAccount | HomeUnusable | OtherHome | HomeNotDirectory | HomeOfOther | AdministratorAccount
| HomeUnreadable | NotLinuxGSM | ServerRunning | OtherGame (script : string) | OtherFiles.

Definition game_root (script : string) : string := hd "" (split "-" script).
Definition other_game (m : machine) (home gameCmd : string) (e : string * file_type) : bool :=
  is_regular e.2 && negb (String.eqb e.1 "linuxgsm.sh") && IsValidScriptName e.1
    && negb (String.eqb (game_root e.1) (game_root gameCmd)) && isLinuxGSMScriptAt m (Join [home; e.1]).
Definition is_lgsm_entry (e : string * file_type) : bool := String.eqb e.1 "lgsm" || String.eqb e.1 "linuxgsm.sh".

(** What the home directory of the user holds; [running]: the tmux session of the game is there. *)
Definition check_home (m : machine) (running : bool) (gameCmd : string) (e : passwdEntry) : result reuse_error (option passwdEntry) :=
  let home := pw_Home e in
  match m_readDir m home with
  | None => Err HomeUnreadable
  | Some entries =>
      let script := Join [home; gameCmd] in
      let found := m_lstat m script in
      let? _ := match found with
                | Found i =>
                    if negb (is_regular (f_type i)) || negb (isLinuxGSMScriptAt m script) then Err NotLinuxGSM
                    else if running then Err ServerRunning else Ok tt
                | _ => Ok tt
                end in
      match List.find (other_game m home gameCmd) entries with
      | Some other => Err (OtherGame other.1)
      | None =>
          if existsb is_lgsm_entry entries then Ok (Some e)
          else if forallb (fun x => has_prefix x.1 ".") entries then Ok (Some e) else Err OtherFiles
      end
  end.
Definition existingInstallUser (m : machine) (c : created_users) (running : bool) (req : InstallRequest)
  : result reuse_error (option passwdEntry) :=
  match readPasswd (m_passwd m) with
  | None => Err PasswdUnreadable
  | Some users =>
      match user_named (r_Username req) users with
      | None => Ok None
      | Some e =>
          let home := pw_Home e in
          if negb (regular_uid (pw_UID e)) then Err SystemAccount else
          if negb (IsSafeServerDir home) || IsForbiddenServerDir home then Err HomeUnusable else
          if negb (String.eqb (r_Dir req) "") && negb (String.eqb (r_Dir req) home) then Err OtherHome else
          match m_lstat m home with
          | Missing => Ok (Some e)
          | LstatError => Err HomeNotDirectory
          | Found i =>
              match f_type i with
              | TDir =>
                  if (0 <=? f_uid i) && negb (f_uid i =? pw_UID e) then Err HomeOfOther else
                  if negb (wasCreatedByDashboard c (pw_Name e) (pw_UID e)) && isAdminAccount m (pw_Name e) home
                  then Err AdministratorAccount
                  else check_home m running (r_GameCmd req) e
              | _ => Err HomeNotDirectory
              end
          end
      end
  end.

(** ** Deleting a server *)

Inductive host_event :=
| HSystemctl (args : list string) | HWriteCrontab (text : string) | HRemove (path : string) | HRemoveAll (path : string)
| HRemoveCrontab (user : string) | HKill (user : string) | HKillHard (user : string) | HShm (path : string) | HUserdel (user : string).

Definition removeUserShm (m : machine) (uid : Z) : list host_event :=
  if uid <=? 0 then [] else
  omap (fun e : string * file_type =>
    let path := Join ["/dev/shm"; e.1] in
    match m_lstat m path with
    | Found i => if is_regular (f_type i) && (f_uid i =? uid) then Some (HShm path) else None
    | _ => None
    end) (default [] (m_readDir m "/dev/shm")).

(** The closure [remove] of [removeInstanceFiles]. *)
Definition remove_entry (m : machine) (root rel : string) (all : bool) : list host_event :=
  let p := Join [root; rel] in
  match m_lstat m p with
  | Found i =>
      if match m_eval m (Dir p) with Some parent => String.eqb parent (Dir p) | None => false end
      then [match all, f_type i with true, TDir => HRemoveAll p | _, _ => HRemove p end]
      else []
  | _ => []
  end.
Definition other_instance (m : machine) (root : string) (e : string * file_type) : bool :=
  negb (String.eqb e.1 "linuxgsm.sh") && lgsm_script_entry m root e.

(** [before] and [after]: the files before and after the files of the instance are gone. *)
Definition removeInstanceFiles (before after : machine) (srv : Instance) (gameName : string) : option (list host_event) :=
  match m_eval before (i_Dir srv) with
  | None => None
  | Some root =>
      let cfgRel := lgsmConfigRel srv gameName in
      let legacy := configRel srv (i_Script srv) in
      let own :=
        (remove_entry before root (Join [cfgRel; i_Script srv +:+ ".cfg"]) false ++
         remove_entry before root (Join [cfgRel; "secrets-" +:+ i_Script srv +:+ ".cfg"]) false ++
         (if String.eqb legacy cfgRel then [] else remove_entry before root legacy true) ++
         remove_entry before root (Join [lgsmDataRel srv; i_Script srv +:+ ".uid"]) false ++
         remove_entry before root (i_Script srv) false)%list in
      match m_readDir after root with
      | None => Some own
      | Some entries =>
          if existsb (other_instance after root) entries then Some own else
          let log := match m_lstat after (Join [root; "log"; "script"]) with
                     | Found i => match f_type i with TDir => remove_entry after root "log" true | _ => [] end
                     | _ => []
                     end in
          Some (own ++ flat_map (fun name => remove_entry after root name true) ["serverfiles"; "lgsm"; "linuxgsm.sh"] ++ log)%list
      end
  end.

(** What a deletion finds: the machine before, after the units and the crontab, after the files
    of the instance, and after its processes ended. *)
Record delete_input := mkDelete {
  di_machine : machine; di_after : machine; di_quiet : machine; di_gameName : string; di_crontab : option string;
  di_stuck : string -> bool; di_userdel : bool; di_saved : bool }.
Inductive host_error := NoServerDir | UserNotDeleted.

Definition Delete (d : delete_input) (srv : Instance) (uid : Z) (sharedUser : bool)
    (c : created_users) (units : gmap string unit_entry)
  : result host_error unit * list host_event * created_users * gmap string unit_entry :=
  let '(units, calls) := removeAutostart (di_stuck d) srv units in
  let stop := map HSystemctl calls in
  if sharedUser || negb (mayDeleteLinuxUser (di_machine d) c srv uid) then
    let cron := match removeCronLinesForScript (di_crontab d) srv None with
                | Some text => [HWriteCrontab (WriteCrontab text)]
                | None => []
                end in
    match removeInstanceFiles (di_machine d) (di_after d) srv (di_gameName d) with
    | Some files => (Ok tt, stop ++ cron ++ files, c, units)%list
    | None => (Err NoServerDir, stop ++ cron, c, units)%list
    end
  else
    let user := i_User srv in
    let events := (stop ++ [HRemoveCrontab user; HKill user; HKillHard user] ++ removeUserShm (di_quiet d) uid ++ [HUserdel user])%list in
    if di_userdel d then (Ok tt, events, forgetCreatedUser (di_saved d) user c, units)
    else (Err UserNotDeleted, events, c, units).

(** * Properties *)

(** ** Users the dashboard created *)

Lemma without_user_In name l u : In u (without_user name l) <-> In u l /\ cu_Name u <> name.
Proof. unfold without_user. rewrite List.filter_In, negb_true_iff, String.eqb_neq. done. Qed.

(** The list stands for a map from names to recorded UIDs. *)
Definition stands_for (c : created_users) (m : gmap string Z) : Prop :=
  forall name uid, wasCreatedByDashboard c name uid = match m !! name with Some u => (u <? 0) || (u =? uid) | None => false end.

Lemma was_created_app l l' name uid :
  wasCreatedByDashboard (Some (l ++ l')%list) name uid = wasCreatedByDashboard (Some l) name uid || wasCreatedByDashboard (Some l') name uid.
Proof. apply existsb_app. Qed.
Lemma was_created_without l name name' uid :
  wasCreatedByDashboard (Some (without_user name l)) name' uid =
  if String.eqb name' name then false else wasCreatedByDashboard (Some l) name' uid.
Proof.
  unfold wasCreatedByDashboard, without_user. cbn [loadCreatedUsers default from_option id].
  induction l as [|u l IH]; cbn [List.filter existsb]; [by destruct (String.eqb _ _)|].
  destruct (String.eqb_spec (cu_Name u) name) as [Hu|Hu]; cbn [negb existsb]; rewrite IH.
  - destruct (String.eqb_spec name' name) as [->|Hn]; [done|]. rewrite Hu, (proj2 (String.eqb_neq name name')) by congruence. done.
  - destruct (String.eqb_spec name' name) as [->|Hn]; [|done]. by rewrite (proj2 (String.eqb_neq (cu_Name u) name)).
Qed.
Lemma record_stands passwd name l m : stands_for (Some l) m ->
  stands_for (recordCreatedUser passwd true name (Some l)) (<[name := recorded_uid passwd name]> m).
Proof.
  intros H name' uid. unfold recordCreatedUser, store_users. cbn [loadCreatedUsers default from_option id].
  rewrite was_created_app, was_created_without, H. unfold wasCreatedByDashboard. cbn [loadCreatedUsers default from_option id existsb cu_Name cu_UID].
  rewrite orb_false_r, (String.eqb_sym name). destruct (String.eqb_spec name' name) as [->|Hn].
  - by rewrite lookup_insert_eq.
  - rewrite lookup_insert_ne by congruence. cbn [andb]. by rewrite orb_false_r.
Qed.
Lemma forget_stands name l m : stands_for (Some l) m -> stands_for (forgetCreatedUser true name (Some l)) (delete name m).
Proof.
  intros H name' uid. unfold forgetCreatedUser, store_users. cbn [loadCreatedUsers default from_option id]. rewrite was_created_without, H.
  destruct (String.eqb_spec name' name) as [->|Hn]; [by rewrite lookup_delete_eq|by rewrite lookup_delete_ne by congruence].
Qed.
Lemma recorded_uid_present users name e : NoDup (map pw_Name users) -> In e users -> pw_Name e = name ->
  forall uid0, fold_left (fun uid u => if String.eqb (pw_Name u) name then pw_UID u else uid) users uid0 = pw_UID e.
Proof.
  induction users as [|u l IH]; intros Hnd Hin Hn uid0; [done|]. inversion Hnd as [|? ? Hni Hnd']; subst. cbn [fold_left].
  destruct Hin as [->|Hin]; [|by apply IH]. rewrite String.eqb_refl. clear IH.
  assert (Hno : forall u, In u l -> pw_Name u <> pw_Name e).
  { intros u Hu E. apply Hni. rewrite <- E. by apply list_elem_of_In, in_map. }
  clear - Hno. induction l as [|u l IH]; [done|]. cbn [fold_left]. rewrite (proj2 (String.eqb_neq _ _)) by (apply Hno; by left).
  apply IH. intros; apply Hno; by right.
Qed.

Inductive user_event := UserCreated (passwd : option string) (name : string) | UserDeleted (name : string).
Definition apply_user_event (c : created_users) (e : user_event) : created_users :=
  match e with UserCreated passwd name => recordCreatedUser passwd true name c | UserDeleted name => forgetCreatedUser true name c end.
Definition user_event_spec (m : gmap string Z) (e : user_event) : gmap string Z :=
  match e with UserCreated passwd name => <[name := recorded_uid passwd name]> m | UserDeleted name => delete name m end.

(** The list the dashboard keeps is a map from names to UIDs: a user counts as its own exactly
    when it was created last, and not deleted since, with this UID. *)
Lemma created_users_refine events : forall l m, stands_for (Some l) m ->
  exists l', fold_left apply_user_event events (Some l) = Some l' /\ stands_for (Some l') (fold_left user_event_spec events m).
Proof.
  induction events as [|e events IH]; intros l m H; [by exists l|]. cbn [fold_left].
  destruct e as [passwd name|name]; [apply (IH _ _ (record_stands passwd name l m H))|apply (IH _ _ (forget_stands name l m H))].
Qed.

(** ** Which users a deletion can remove *)

(** The account exists only for LinuxGSM. *)
Record dedicated (m : machine) (srv : Instance) (uid : Z) : Prop := mkDedicated {
  ded_entry : exists users e, readPasswd (m_passwd m) = Some users /\ user_named (i_User srv) users = Some e /\
    pw_UID e = uid /\ 1000 <= uid < 65534 /\ Clean (pw_Home e) = Clean (i_Dir srv);
  ded_files : exists entries, m_readDir m (i_Dir srv) = Some entries /\
    forall name t, In (name, t) entries ->
      has_prefix name "." = true \/ In name linuxGSMRootEntries \/
      (t = TRegular /\ IsValidScriptName name = true /\ isLinuxGSMScript (m_head m (Join [i_Dir srv; name])) = true) }.

Lemma dedicated_spec m srv uid : isDedicatedServerUser m srv uid = true -> dedicated m srv uid.
Proof.
  unfold isDedicatedServerUser. destruct (readPasswd (m_passwd m)) as [users|] eqn:Eu; [|done].
  destruct (user_named (i_User srv) users) as [e|] eqn:Ee; [|done].
  destruct (regular_uid (pw_UID e) && (pw_UID e =? uid)) eqn:Ei; [|done]. cbn [negb].
  destruct (String.eqb_spec (Clean (pw_Home e)) (Clean (i_Dir srv))) as [Eh|]; [|done]. cbn [negb].
  destruct (m_readDir m (i_Dir srv)) as [entries|] eqn:Er; [|done]. intros Hall. unfold regular_uid in Ei.
  split; [exists users, e; split_and!; [done|done|lia|lia|lia|done]|]. exists entries. split; [done|]. intros name t Hin.
  rewrite forallb_forall in Hall. apply Hall in Hin. unfold own_entry, lgsm_script_entry, isLinuxGSMScriptAt in Hin. cbn [fst snd] in Hin.
  apply orb_true_iff in Hin as [[Hin|Hin]%orb_true_iff|Hin]; [by left|right; left; by apply mem_true|right; right].
  apply andb_true_iff in Hin as [[Ht Hn]%andb_true_iff Hs]. by destruct t.
Qed.

(** Nobody logs in with the account. *)
Definition no_admin (m : machine) (name home : string) : Prop :=
  (forall f, In f ["authorized_keys"; "authorized_keys2"] ->
     match m_lstat m (Join [home; ".ssh"; f]) with Found i => f_size i <= 0 | _ => True end) /\
  exists text, m_group m = Some text /\
    forall l, In l (scanner_lines (split newline text)) -> group_lists name (scanned l) = false.
Lemma no_admin_spec m name home : isAdminAccount m name home = false -> no_admin m name home.
Proof.
  unfold isAdminAccount. destruct (hasAuthorizedKeys m home) eqn:Ek; [done|]. destruct (m_group m) as [text|] eqn:Eg; [|done].
  intros H. split.
  - intros f Hf. unfold hasAuthorizedKeys in Ek. apply not_true_iff_false in Ek.
    destruct (m_lstat m (Join [home; ".ssh"; f])) as [i| |] eqn:El; try done. apply Z.le_ngt. intros Hs. apply Ek, existsb_exists.
    exists f. split; [done|]. rewrite El. lia.
  - exists text. split; [done|]. intros l Hl. apply not_true_iff_false. intros Hg. apply not_true_iff_false in H.
    apply H, existsb_exists. by exists l.
Qed.

Definition is_user_event (ev : host_event) : bool :=
  match ev with HRemoveCrontab _ | HKill _ | HKillHard _ | HShm _ | HUserdel _ => true | _ => false end.
Lemma remove_entry_files m root rel all : forallb (fun ev => negb (is_user_event ev)) (remove_entry m root rel all) = true.
Proof. unfold remove_entry. repeat case_match; done. Qed.
Lemma instance_files_events before after srv gameName l :
  removeInstanceFiles before after srv gameName = Some l -> forallb (fun ev => negb (is_user_event ev)) l = true.
Proof.
  unfold removeInstanceFiles. destruct (m_eval before (i_Dir srv)) as [root|]; [|done].
  set (own := (_ ++ _ ++ _ ++ _ ++ _)%list). assert (Ho : forallb (fun ev => negb (is_user_event ev)) own = true).
  { unfold own. rewrite !forallb_app, !remove_entry_files. by case_match; rewrite ?remove_entry_files. }
  repeat case_match; intros [= <-]; rewrite ?forallb_app, ?Ho; cbn [flat_map forallb andb];
    rewrite ?forallb_app, ?remove_entry_files; done.
Qed.

(** Where every line of the group file fits the scanner, no line of the whole file lists the name
    in a group of administrators. *)
Definition in_no_admin_group (m : machine) (name : string) : Prop :=
  exists text, m_group m = Some text /\
    (Forall (fun l => slen l <= 65535) (split newline text) ->
     forall l, In l (split newline text) -> group_lists name (scanned l) = false).
Lemma no_admin_in_group m name home : no_admin m name home -> in_no_admin_group m name.
Proof. intros [_ (text & Ht & Hl)]. exists text. split; [done|]. intros Hf l. specialize (Hl l). by rewrite scanner_all in Hl. Qed.

(** C10: deleting a server touches the account it runs under - its crontab, its processes, its
    shared memory, the account with its home directory - only if Delete was told that no other
    server uses it (how that is found, and when it is wrong, is in Manager.v), the account exists
    only for LinuxGSM (a regular user whose home is the directory of the server and holds nothing
    but dotfiles and LinuxGSM), and the dashboard recorded that it created it or it has no SSH
    keys and no line of /etc/group that the scanner reads lists it as an administrator; where
    all lines fit the scanner, that is no line of the file ([admin_after_long_line] is the other
    case).  The account then removed is that of the server. *)
Theorem delete_spares_accounts d srv uid sharedUser c units r events c' units' ev :
  Delete d srv uid sharedUser c units = (r, events, c', units') -> In ev events -> is_user_event ev = true ->
  sharedUser = false /\ dedicated (di_machine d) srv uid /\
  (wasCreatedByDashboard c (i_User srv) uid = true \/
   no_admin (di_machine d) (i_User srv) (i_Dir srv) /\ in_no_admin_group (di_machine d) (i_User srv)) /\
  (forall u, ev = HUserdel u \/ ev = HKill u \/ ev = HKillHard u \/ ev = HRemoveCrontab u -> u = i_User srv).
Proof.
  unfold Delete. destruct (removeAutostart _ _ _) as [us calls]. intros H Hin Hev.
  assert (Hst : forall l, In ev (map HSystemctl calls ++ l) -> In ev l).
  { intros l [(a & <- & _)%in_map_iff|]%in_app_or; done. }
  destruct (sharedUser || negb (mayDeleteLinuxUser (di_machine d) c srv uid)) eqn:Em.
  - exfalso. set (cron := match removeCronLinesForScript _ _ _ with Some _ => _ | None => _ end) in H.
    assert (Hc : ~ In ev cron) by (unfold cron; destruct (removeCronLinesForScript _ _ _); [by intros [<-|[]]|by intros []]).
    destruct (removeInstanceFiles _ _ _ _) as [files|] eqn:Ef; injection H as <- <- <- <-; apply Hst in Hin; [|done].
    apply in_app_or in Hin as [Hin|Hin]; [done|]. apply instance_files_events in Ef. rewrite forallb_forall in Ef.
    apply Ef in Hin. by rewrite Hev in Hin.
  - apply orb_false_iff in Em as [-> Em]. apply negb_false_iff in Em. unfold mayDeleteLinuxUser in Em.
    destruct (isDedicatedServerUser _ _ _) eqn:Ed; [|done]. cbn [negb] in Em.
    split; [done|]. split; [by apply dedicated_spec|]. split.
    + destruct (wasCreatedByDashboard _ _ _); [by left|right]. apply negb_true_iff in Em.
      apply no_admin_spec in Em. split; [done|by eapply no_admin_in_group].
    + assert (Hl : In ev ([HRemoveCrontab (i_User srv); HKill (i_User srv); HKillHard (i_User srv)] ++
                      removeUserShm (di_quiet d) uid ++ [HUserdel (i_User srv)])%list)
        by (destruct (di_userdel d); injection H as <- <- <- <-; by apply Hst).
      intros u Hu. apply in_app_or in Hl as [Hl|[Hl|Hl]%in_app_or].
      * destruct Hl as [<-|[<-|[<-|[]]]]; naive_solver.
      * unfold removeUserShm in Hl. destruct (uid <=? 0); [done|]. apply list_elem_of_In, list_elem_of_omap in Hl as (x & _ & Hx).
        repeat case_match; try done; injection Hx as <-; naive_solver.
      * destruct Hl as [<-|[]]; naive_solver.
Qed.
Definition lines_text (l : list string) : string := join (byte_str newline) l.
Definition demo_home : list (string * file_type) :=
  [(".bashrc", TRegular); ("lgsm", TDir); ("linuxgsm.sh", TRegular); ("serverfiles", TDir); ("vhserver", TRegular)].
Definition demo_info (t : file_type) (uid : Z) : lstat_answer := Found (mkInfo t uid 10 0x1ed).
(** A machine with the game server user "vh" and an administrator. *)
Definition demo_machine (home : list (string * file_type)) : machine := mkMachine
  (Some (lines_text ["root:x:0:0:root:/root:/bin/bash"; "ubuntu:x:1000:1000::/home/ubuntu:/bin/bash"; "vh:x:1001:1001::/home/vh:/bin/bash"; ""]))
  (Some (lines_text ["root:x:0:"; "sudo:x:27:ubuntu"; ""]))
  (fun p => if mem p ["/home/vh"; "/home/vh/lgsm"; "/home/vh/serverfiles"; "/home/ubuntu"]
            then demo_info TDir (if String.eqb p "/home/ubuntu" then 1000 else 1001)
            else if mem p ["/home/vh/vhserver"; "/home/vh/linuxgsm.sh"; "/dev/shm/x"] then demo_info TRegular 1001 else Missing)
  (fun p => if String.eqb p "/home/vh" then Some home else if String.eqb p "/home/ubuntu" then Some [(".ssh", TDir)]
            else if String.eqb p "/dev/shm" then Some [("x", TRegular)] else None)
  (fun p => if mem p ["/home/vh/vhserver"; "/home/vh/linuxgsm.sh"] then Some "#!/bin/bash # LinuxGSM" else None)
  (fun p => Some p).
Definition demo_deletion (home : list (string * file_type)) : delete_input :=
  mkDelete (demo_machine home) (demo_machine [("lgsm", TDir)]) (demo_machine home) "vhserver" (Some "") (fun _ => false) true true.

(** The user goes with the server; beside a foreign file only the server does. *)
Example delete_examples :
  let run home := (Delete (demo_deletion home) demo_srv 1001 false (Some []) ∅).1.1 in
  run demo_home = (Ok tt, [HRemoveCrontab "vh"; HKill "vh"; HKillHard "vh"; HShm "/dev/shm/x"; HUserdel "vh"]) /\
  run (("notes.txt", TRegular) :: demo_home) =
    (Ok tt, [HWriteCrontab ""; HRemove "/home/vh/vhserver"; HRemoveAll "/home/vh/serverfiles"; HRemoveAll "/home/vh/lgsm";
             HRemove "/home/vh/linuxgsm.sh"]).
Proof. vm_compute. by split. Qed.
Lemma delete_spares_accounts_witness :
  dedicated (demo_machine demo_home) demo_srv 1001 /\ no_admin (demo_machine demo_home) "vh" "/home/vh".
Proof.
  destruct (Delete (demo_deletion demo_home) demo_srv 1001 false (Some []) ∅) as [[[r events] c'] units'] eqn:E.
  assert (Hin : In (HUserdel "vh") events).
  { pose proof (f_equal (fun x => x.1.1.2) E) as H. vm_compute in H. rewrite <- H. do 4 right. by left. }
  destruct (delete_spares_accounts _ _ _ _ _ _ _ _ _ _ _ E Hin eq_refl) as (_ & Hd & Ha & _).
  split; [exact Hd|]. destruct Ha as [Ha|Ha]; [discriminate Ha|exact (proj1 Ha)].
Defined.

(** ** The files of one instance *)

Lemma remove_entry_spec m root names all ev : IsAbs root = true -> Forall name_ok names -> names <> [] ->
  In ev (remove_entry m root (join "/" names) all) ->
  exists p i, elements p = (elements root ++ names)%list /\ IsAbs p = true /\ m_lstat m p = Found i /\ m_eval m (Dir p) = Some (Dir p) /\
    (ev = HRemove p \/ (ev = HRemoveAll p /\ f_type i = TDir /\ all = true)).
Proof.
  intros Ha Hn Hne. unfold remove_entry. destruct (elements_join root names Ha Hn Hne) as [He Hj].
  set (p := Join [root; join "/" names]) in *. destruct (m_lstat m p) as [i| |] eqn:El; [|done|done].
  destruct (m_eval m (Dir p)) as [parent|] eqn:Ed; [|done]. destruct (String.eqb_spec parent (Dir p)) as [->|]; [|done].
  intros [<-|[]]. exists p, i. split_and!; try done. destruct all, (f_type i); auto.
Qed.

Definition own_names (script gameName : string) : list (list string) :=
  [["lgsm"; "config-lgsm"; gameName; script +:+ ".cfg"]; ["lgsm"; "config-lgsm"; gameName; "secrets-" +:+ script +:+ ".cfg"];
   ["lgsm"; "config-lgsm"; script]; ["lgsm"; "data"; script +:+ ".uid"]; [script]].
Definition shared_names : list (list string) := [["serverfiles"]; ["lgsm"]; ["linuxgsm.sh"]; ["log"]].

Lemma name_ok_affix pre s suf : name_ok s -> no_slash pre -> no_slash suf -> (2 < slen (pre +:+ s +:+ suf)) -> name_ok (pre +:+ s +:+ suf).
Proof.
  intros (_ & _ & _ & H) Hp Hs Hl. unfold name_ok. split_and!; try (intros E; rewrite E in Hl; by vm_compute in Hl).
  unfold no_slash, contains_byte, sany in *. by rewrite !to_bytes_app, !existsb_app, Hp, H, Hs.
Qed.
Lemma join_names_snoc l x : l <> [] -> Forall name_ok l -> name_ok x -> Join [join "/" l; x] = join "/" (l ++ [x])%list.
Proof.
  intros Hne Hl Hx. destruct l as [|y l]; [done|]. inversion Hl as [|? ? Hy Hl']; subst.
  cbn [app]. rewrite <- (join_names y (l ++ [x])%list Hy) by (by (apply Forall_app; split; [done|by apply Forall_singleton]) || by destruct l).
  cbn [Join]. rewrite (proj2 (String.eqb_neq _ _) (join_not_empty y l Hy)). destruct Hy as (Hy & _). rewrite (proj2 (String.eqb_neq _ _) Hy).
  f_equal. rewrite (join_cons "/" (join "/" (y :: l)) x []), (join_cons "/" y (join "/" (l ++ [x])%list) []), !join_one.
  destruct l as [|z l]; [cbn [app]; by rewrite (join_one "/" y), (join_one "/" x)|].
  rewrite (join_app "/" (z :: l) [x]), join_cons, join_one by done. by rewrite !string_app_assoc.
Qed.

Section InstanceFiles.
Context (srv : Instance) (gameName : string).
Hypotheses (Hlayout : i_Layout srv <> LayoutData) (Hscript : IsValidScriptName (i_Script srv) = true) (Hgame : name_ok gameName).

Lemma own_parts_ok :
  name_ok "lgsm" /\ name_ok "config-lgsm" /\ name_ok "data" /\ name_ok (i_Script srv) /\ name_ok (i_Script srv +:+ ".cfg") /\
  name_ok ("secrets-" +:+ i_Script srv +:+ ".cfg") /\ name_ok (i_Script srv +:+ ".uid").
Proof.
  destruct (script_name_ok _ Hscript) as (Hs & _). assert (Hlen : 0 < slen (i_Script srv)).
  { destruct Hs as (Hs & _). unfold slen. destruct (i_Script srv); [done|]. cbn [String.length]. lia. }
  repeat (split; [by split_and!|]). split; [done|].
  split; [|split]; [apply (name_ok_affix "" (i_Script srv) ".cfg")|apply name_ok_affix|apply (name_ok_affix "" (i_Script srv) ".uid")];
    try done; unfold slen in *; rewrite !string_app_length; cbn [String.length]; lia.
Qed.
Ltac own_parts := destruct own_parts_ok as (? & ? & ? & ? & ? & ? & ?);
  repeat match goal with
    | |- Forall _ [] => constructor
    | |- Forall name_ok (_ :: _) => apply List.Forall_cons; [assumption|]
    | |- Forall _ (_ :: _) => constructor; [split; [|done]|]
    end.
Lemma own_names_ok : Forall (fun names => Forall name_ok names /\ names <> []) (own_names (i_Script srv) gameName).
Proof. unfold own_names. own_parts. Qed.
Lemma own_rels :
  [Join [lgsmConfigRel srv gameName; i_Script srv +:+ ".cfg"]; Join [lgsmConfigRel srv gameName; "secrets-" +:+ i_Script srv +:+ ".cfg"];
   configRel srv (i_Script srv); Join [lgsmDataRel srv; i_Script srv +:+ ".uid"]; i_Script srv] =
  map (join "/") (own_names (i_Script srv) gameName).
Proof.
  unfold own_names, lgsmConfigRel, lgsmDataRel, configRel, configLgsmRel. rewrite (proj2 (String.eqb_neq _ _) Hlayout).
  change (Join ["lgsm"; "config-lgsm"]) with (join "/" ["lgsm"; "config-lgsm"]). change (Join ["lgsm"; "data"]) with (join "/" ["lgsm"; "data"]).
  cbn [map]. rewrite join_one. destruct own_parts_ok as (? & ? & ? & ? & ? & ? & ?).
  repeat (rewrite join_names_snoc by (done || own_parts); cbn [app]). done.
Qed.

(** The paths a removal touches are below the directory of the server, and the directory they are
    in is no link. *)
Definition removes (m : machine) (root : string) (names : list string) (ev : host_event) : Prop :=
  exists p i, elements p = (elements root ++ names)%list /\ IsAbs p = true /\ m_lstat m p = Found i /\ m_eval m (Dir p) = Some (Dir p) /\
    (ev = HRemove p \/ (ev = HRemoveAll p /\ f_type i = TDir)).
Lemma removes_entry m root names all ev : IsAbs root = true -> Forall name_ok names /\ names <> [] ->
  In ev (remove_entry m root (join "/" names) all) -> removes m root names ev.
Proof.
  intros Ha [Hn Hne] (p & i & H1 & H2 & H3 & H4 & H5)%remove_entry_spec; [|done..]. exists p, i. split_and!; try done.
  destruct H5 as [->|(-> & Ht & _)]; auto.
Qed.

Lemma instance_files before after root l ev :
  m_eval before (i_Dir srv) = Some root -> IsAbs root = true -> removeInstanceFiles before after srv gameName = Some l -> In ev l ->
  (exists names, In names (own_names (i_Script srv) gameName) /\ removes before root names ev) \/
  (exists names entries, In names shared_names /\ removes after root names ev /\ m_readDir after root = Some entries /\
     forall e, In e entries -> other_instance after root e = false).
Proof.
  intros Hr Ha. unfold removeInstanceFiles. rewrite Hr. pose proof own_names_ok as Hok. pose proof own_rels as Hrels.
  rewrite List.Forall_forall in Hok. set (own := (_ ++ _ ++ _ ++ _ ++ _)%list).
  assert (Hown : In ev own -> exists names, In names (own_names (i_Script srv) gameName) /\ removes before root names ev).
  { intros Hin. assert (Hx : exists rel all, In rel (map (join "/") (own_names (i_Script srv) gameName)) /\ In ev (remove_entry before root rel all)).
    { rewrite <- Hrels. unfold own in Hin. rewrite !in_app_iff in Hin.
      destruct Hin as [Hin|[Hin|[Hin|[Hin|Hin]]]]; try (destruct (String.eqb _ _); [done|]); do 2 eexists; (split; [|exact Hin]); simpl; tauto. }
    destruct Hx as (rel & all & (names & <- & Hn)%in_map_iff & He). exists names. split; [done|]. by eapply removes_entry; [|apply Hok|]. }
  clear Hrels. destruct (m_readDir after root) as [entries|] eqn:Ee; [|by intros [= <-] Hin; left; apply Hown].
  destruct (existsb (other_instance after root) entries) eqn:Eo; [by intros [= <-] Hin; left; apply Hown|].
  intros [= <-] [Hin|Hin]%in_app_or; [by left; apply Hown|right].
  assert (Hsh : exists names, In names shared_names /\ In ev (remove_entry after root (join "/" names) true)).
  { unfold shared_names. rewrite in_app_iff in Hin. destruct Hin as [Hin|Hin].
    - change (In ev (flat_map (fun name => remove_entry after root name true) ["serverfiles"; "lgsm"; "linuxgsm.sh"])) in Hin.
      apply in_flat_map in Hin as (n & Hn & Hin). exists [n]. rewrite join_one. split; [|done].
      destruct Hn as [<-|[<-|[<-|[]]]]; simpl; tauto.
    - exists ["log"]. split; [simpl; tauto|]. rewrite join_one. by repeat case_match. }
  destruct Hsh as (names & Hn & He). exists names, entries. split; [done|]. split; [|split; [done|]].
  - eapply removes_entry; [done| |done]. destruct Hn as [<-|[<-|[<-|[<-|[]]]]]; (split; [|done]); apply Forall_singleton; by split_and!.
  - intros e He'. apply not_true_iff_false. intros E. apply not_true_iff_false in Eo. apply Eo, existsb_exists. by exists e.
Qed.
End InstanceFiles.

(** C11: a deletion that keeps the Linux user removes only the instance: its script, its own
    configs and its uid file, and LinuxGSM's shared files only when no other LinuxGSM script is
    left in the directory.  Everything it removes lies below the resolved directory of the
    server, its parent directory is no link, and a whole tree goes only where the entry is a real
    directory. *)
Theorem delete_keeps_other_files d srv uid sharedUser c units r events c' units' root ev :
  Delete d srv uid sharedUser c units = (r, events, c', units') ->
  i_Layout srv <> LayoutData -> IsValidScriptName (i_Script srv) = true -> name_ok (di_gameName d) ->
  m_eval (di_machine d) (i_Dir srv) = Some root -> IsAbs root = true ->
  In ev events -> (exists p, ev = HRemove p \/ ev = HRemoveAll p) ->
  (exists names, In names (own_names (i_Script srv) (di_gameName d)) /\ removes (di_machine d) root names ev) \/
  (exists names entries, In names shared_names /\ removes (di_after d) root names ev /\ m_readDir (di_after d) root = Some entries /\
     forall e, In e entries -> other_instance (di_after d) root e = false).
Proof.
  intros H Hl Hs Hg Hroot Ha Hin (p & Hev). unfold Delete in H. destruct (removeAutostart _ _ _) as [us calls].
  assert (Hst : forall l, In ev (map HSystemctl calls ++ l)%list -> In ev l).
  { intros l [(a & <- & _)%in_map_iff|]%in_app_or; [|done]. by destruct Hev. }
  destruct (sharedUser || _).
  - destruct (removeInstanceFiles (di_machine d) (di_after d) srv (di_gameName d)) as [files|] eqn:Ef.
    + injection H as <- <- <- <-. apply Hst, in_app_or in Hin as [Hin|Hin]; [|by eapply instance_files].
      exfalso. destruct (removeCronLinesForScript _ _ _); [|done]. destruct Hin as [<-|[]]. by destruct Hev.
    + unfold removeInstanceFiles in Ef. rewrite Hroot in Ef. by repeat case_match.
  - exfalso. assert (Hu : is_user_event ev = true); [|by destruct Hev; subst].
    assert (Hl' : In ev ([HRemoveCrontab (i_User srv); HKill (i_User srv); HKillHard (i_User srv)] ++
                      removeUserShm (di_quiet d) uid ++ [HUserdel (i_User srv)])%list)
        by (destruct (di_userdel d); injection H as <- <- <- <-; by apply Hst).
    apply in_app_or in Hl' as [Hl'|[Hl'|Hl']%in_app_or].
    + by destruct Hl' as [<-|[<-|[<-|[]]]].
    + unfold removeUserShm in Hl'. destruct (uid <=? 0); [done|]. apply list_elem_of_In, list_elem_of_omap in Hl' as (x & _ & Hx).
      repeat case_match; try done; by injection Hx as <-.
    + by destruct Hl' as [<-|[]].
Qed.
Lemma delete_keeps_other_files_witness :
  exists names, removes (demo_machine [("lgsm", TDir)]) "/home/vh" names (HRemoveAll "/home/vh/serverfiles").
Proof.
  destruct (Delete (demo_deletion demo_home) demo_srv 1001 true (Some []) ∅) as [[[r events] c'] units'] eqn:E.
  assert (Hin : In (HRemoveAll "/home/vh/serverfiles") events).
  { pose proof (f_equal (fun x => x.1.1.2) E) as H. vm_compute in H. rewrite <- H. do 2 right. by left. }
  destruct (delete_keeps_other_files _ _ _ _ _ _ _ _ _ _ "/home/vh" _ E ltac:(discriminate) eq_refl
    ltac:(vm_compute; repeat split; discriminate) eq_refl eq_refl Hin (ex_intro _ _ (or_intror eq_refl)))
    as [(names & Hn & Hr)|(names & entries & Hn & Hr & _)]; exists names; [|exact Hr].
  destruct Hr as (p & i & He & _ & _ & _ & [Hp|[Hp _]]); [discriminate Hp|]. exfalso. injection Hp as <-.
  vm_compute in He. destruct Hn as [<-|[<-|[<-|[<-|[<-|[]]]]]]; discriminate He.
Defined.

(** ** Users that are used again *)

(** What a home directory that is already there must look like for a new server of [game]. *)
Record home_fits (m : machine) (running : bool) (game : string) (e : passwdEntry) : Prop := mkFits {
  fit_script : forall i, m_lstat m (Join [pw_Home e; game]) = Found i ->
    f_type i = TRegular /\ isLinuxGSMScript (m_head m (Join [pw_Home e; game])) = true /\ running = false;
  fit_files : exists entries, m_readDir m (pw_Home e) = Some entries /\
    (forall name, In (name, TRegular) entries -> name <> "linuxgsm.sh" -> IsValidScriptName name = true ->
       isLinuxGSMScript (m_head m (Join [pw_Home e; name])) = true -> game_root name = game_root game) /\
    ((exists t, In ("lgsm", t) entries \/ In ("linuxgsm.sh", t) entries) \/
     forall name t, In (name, t) entries -> has_prefix name "." = true) }.

Lemma check_home_spec m running game e r : check_home m running game e = Ok r -> r = Some e /\ home_fits m running game e.
Proof.
  unfold check_home. destruct (m_readDir m (pw_Home e)) as [entries|] eqn:Er; [|done]. set (script := Join [pw_Home e; game]).
  destruct (match m_lstat m script with Found _ => _ | _ => _ end) as [[]|] eqn:Es; [|done].
  destruct (List.find (other_game m (pw_Home e) game) entries) as [o|] eqn:Ef; [done|]. intros H.
  assert (Hr : r = Some e /\ (existsb is_lgsm_entry entries = true \/ forallb (fun x => has_prefix x.1 ".") entries = true)).
  { destruct (existsb _ _); [by injection H as <-; auto|]. destruct (forallb _ _); [by injection H as <-; auto|done]. }
  destruct Hr as [-> Hr]. split; [done|]. split.
  - intros i Hi. fold script in Hi. rewrite Hi in Es. unfold isLinuxGSMScriptAt in Es.
    destruct (is_regular (f_type i)) eqn:Et; cbn [negb orb] in Es; [|done].
    destruct (isLinuxGSMScript (m_head m script)) eqn:Eh; cbn [negb orb] in Es; [|done]. destruct running; [done|].
    split_and!; [by destruct (f_type i)|done|done].
  - exists entries. split; [done|]. split.
    + intros name Hin Hn Hv Hh. apply (find_none _ _ Ef) in Hin. unfold other_game, isLinuxGSMScriptAt in Hin. cbn [fst snd] in Hin.
      rewrite Hv, Hh, (proj2 (String.eqb_neq _ _) Hn) in Hin. cbn [is_regular negb andb] in Hin. rewrite andb_true_r in Hin.
      by apply negb_false_iff, String.eqb_eq in Hin.
    + destruct Hr as [Hr|Hr]; [left|right].
      * apply existsb_exists in Hr as ([name t] & Hin & [<-%String.eqb_eq|<-%String.eqb_eq]%orb_true_iff); exists t; auto.
      * intros name t Hin. rewrite forallb_forall in Hr. by apply (Hr (name, t)).
Qed.

(** C20: an account that exists already is used for a new server only if it is a regular user
    whose home is a permitted server directory and is where the server shall go; and, where that
    home is there, only if it is the user's own directory, the account is no administrator's
    (or was created by the dashboard), no server of another game is in it, a server of the same
    game is LinuxGSM's and stopped, and it holds LinuxGSM or dotfiles alone. *)
Theorem existing_user_reused m c running req e :
  existingInstallUser m c running req = Ok (Some e) ->
  pw_Name e = r_Username req /\ 1000 <= pw_UID e < 65534 /\
  IsSafeServerDir (pw_Home e) = true /\ IsForbiddenServerDir (pw_Home e) = false /\ (r_Dir req = "" \/ r_Dir req = pw_Home e) /\
  (m_lstat m (pw_Home e) = Missing \/
   exists i, m_lstat m (pw_Home e) = Found i /\ f_type i = TDir /\ (f_uid i < 0 \/ f_uid i = pw_UID e) /\
     (wasCreatedByDashboard c (pw_Name e) (pw_UID e) = true \/ no_admin m (pw_Name e) (pw_Home e)) /\
     home_fits m running (r_GameCmd req) e).
Proof.
  unfold existingInstallUser. destruct (readPasswd (m_passwd m)) as [users|]; [|done].
  destruct (user_named (r_Username req) users) as [u|] eqn:Eu; [|done].
  assert (Hname : pw_Name u = r_Username req) by (apply find_some in Eu as [_ Eu]; by apply String.eqb_eq).
  destruct (regular_uid (pw_UID u)) eqn:Ei; [|done]. cbn [negb].
  destruct (IsSafeServerDir (pw_Home u)) eqn:Es; [|done]. destruct (IsForbiddenServerDir (pw_Home u)) eqn:Ef; [done|]. cbn [negb orb].
  destruct (negb (String.eqb (r_Dir req) "") && negb (String.eqb (r_Dir req) (pw_Home u))) eqn:Ed; [done|].
  assert (Hd : r_Dir req = "" \/ r_Dir req = pw_Home u).
  { apply andb_false_iff in Ed as [Ed|Ed]; apply negb_false_iff, String.eqb_eq in Ed; auto. }
  unfold regular_uid in Ei. destruct (m_lstat m (pw_Home u)) as [i| |] eqn:El; [|intros [= <-]; split_and!; try done; try lia; by left|done].
  destruct (f_type i) eqn:Et; try done.
  destruct ((0 <=? f_uid i) && negb (f_uid i =? pw_UID u)) eqn:Eo; [done|].
  destruct (negb (wasCreatedByDashboard c (pw_Name u) (pw_UID u)) && isAdminAccount m (pw_Name u) (pw_Home u)) eqn:Ea; [done|].
  intros H. pose proof (check_home_spec _ _ _ _ _ H) as [He Hfit]. injection He as ->.
  split_and!; try done; try lia. right. exists i. split_and!; try done; [lia|].
  apply andb_false_iff in Ea as [Ea|Ea]; [left; by apply negb_false_iff|right; by apply no_admin_spec].
Qed.
Definition demo_request : InstallRequest := mkRequest "vhserver" "vh" "" "" "en" (mkSteamLogin "" "").
Lemma existing_user_reused_witness : IsSafeServerDir "/home/vh" = true /\ home_fits (demo_machine demo_home) false "vhserver" (mkEntry "vh" 1001 1001 "/home/vh").
Proof.
  destruct (existing_user_reused (demo_machine demo_home) (Some []) false demo_request (mkEntry "vh" 1001 1001 "/home/vh")
    ltac:(vm_compute; reflexivity)) as (_ & _ & Hs & _ & _ & [Hm|(i & _ & _ & _ & _ & Hf)]); [discriminate Hm|].
  split; [exact Hs|exact Hf].
Defined.
(** The administrator is refused, and so is a user whose server runs. *)
Example refused_users :
  let ask m running name := existingInstallUser m (Some []) running (mkRequest "vhserver" name "" "" "en" (mkSteamLogin "" "")) in
  ask (demo_machine demo_home) true "vh" = Err ServerRunning /\
  ask (demo_machine demo_home) false "ubuntu" = Err AdministratorAccount /\
  ask (demo_machine demo_home) false "root" = Err SystemAccount /\
  ask (demo_machine [("notes.txt", TRegular)]) false "vh" = Err OtherFiles /\
  ask (demo_machine demo_home) false "new" = Ok None.
Proof. vm_compute. repeat split. Qed.

(** A line of the group file that does not fit the scanner hides the groups after it: its members
    then count as no administrators. *)
Definition long_line : string := of_bytes (repeat "x"%char (Z.to_nat 65536)).
Example admin_after_long_line :
  let m groups := mkMachine None (Some (lines_text groups)) (fun _ => Missing) (fun _ => None) (fun _ => None) Some in
  (isAdminAccount (m ["sudo:x:27:ubuntu"; long_line]) "ubuntu" "/home/ubuntu",
   isAdminAccount (m [long_line; "sudo:x:27:ubuntu"]) "ubuntu" "/home/ubuntu") = (true, false).
Proof. vm_compute. reflexivity. Qed.
