(* ===== verification/Deps.v ===== *)
(** * Packages a game server needs (backend/deps.go, backend/runtime_host.go)

    The dashboard installs the packages of LinuxGSM's dependency list as root: which list belongs
    to the distribution, which packages of it count, and the commands the package manager is run
    with. *)

From Stdlib Require Import ZArith Lia Bool String Ascii List.
From stdpp Require Import base gmap strings list.
From S2P Require Import Prelude GoStrings Validate Cfg Stores HostUsers.

Definition package_char (c : ascii) : bool := is_alnum c || one_of ".+_-" c.
Definition rePackageName (s : string) : bool := re_word is_alnum package_char 100 (trim_suffix s ":i386").

(** ID and VERSION_ID of /etc/os-release. *)
Definition os_line (st : string * string) (line : string) : string * string :=
  match cut "=" (scanned line) with
  | None => st
  | Some (k, v) =>
      let v := trim v (dq +:+ "'") in
      if String.eqb k "ID" then (v, st.2) else if String.eqb k "VERSION_ID" then (st.1, v) else st
  end.
Definition osRelease (file : option string) : string * string :=
  match file with Some text => fold_left os_line (scanner_lines (split newline text)) ("", "") | None => ("", "") end.

Definition digits1 (s : string) : bool := negb (String.eqb s "") && sall is_digit s.
Definition is_version (v : string) : bool := match cut "." v with Some (a, b) => digits1 a && digits1 b | None => digits1 v end.
Definition depsCSVName (id version : string) : option string :=
  let file v := if is_version v then Some (id +:+ "-" +:+ v +:+ ".csv") else None in
  if mem id ["ubuntu"; "debian"] then file version
  else if mem id ["rhel"; "almalinux"; "rocky"; "centos"] then file (match cut "." version with Some (major, _) => major | None => version end)
  else None.

Definition shortnameOf (gameCmd : string) : string := trim_suffix gameCmd "server".
Definition packages_of (fields : list string) : list string := List.filter rePackageName (map trim_space fields).
Definition deps_line (shortname : string) (st : list string * list string) (line : string) : list string * list string :=
  match split "," (trim_space line) with
  | row :: f :: fs =>
      if String.eqb row "all" || String.eqb row shortname then (st.1 ++ packages_of (f :: fs), st.2)%list
      else if String.eqb row "steamcmd" then (st.1, st.2 ++ packages_of (f :: fs))%list
      else st
  | _ => st
  end.
Definition parseDepsCSV (data shortname : string) : list string * list string :=
  fold_left (deps_line shortname) (split newline data) ([], []).
Definition is_i386 (p : string) : bool := has_suffix p ":i386".
Definition withoutI386 (pkgs : list string) : list string := List.filter (fun p => negb (is_i386 p)) pkgs.

(** A command the dashboard runs as root: what it reads, and its argument list. *)
Definition root_command : Type := string * list string.
(** [outsideServiceSandbox]: [runner] is the path of systemd-run, [service] that the dashboard
    runs as a systemd service. *)
Definition outsideServiceSandbox (service : bool) (runner : option string) (argv : list string) : list string :=
  match service, runner with
  | true, Some r =>
      (r :: ["--quiet"; "--wait"; "--pipe"; "--collect"; "--service-type=exec";
             "--description=LinuxGSM Dashboard: game server installation"; "--"] ++ argv)%list
  | _, _ => argv
  end.

Fixpoint missing_of (installed : string -> bool) (seen : list string) (pkgs : list string) : list string :=
  match pkgs with
  | [] => []
  | p :: r =>
      let rest := missing_of installed (p :: seen) r in
      if negb (mem p seen) && negb (installed p) then p :: rest else rest
  end.

(** What the installation finds: the distribution, the dependency list (if it could be loaded),
    the processor, and whether dnf is there. *)
Record deps_env := mkDeps {
  dp_release : option string; dp_csv : option string; dp_amd64 : bool; dp_dnf : bool; dp_installed : string -> bool }.
Inductive deps_result := NoList | ListUnreadable | AllInstalled | Ran (commands : list root_command).

Definition install_command (manager : string) (pkgs : list string) : list root_command :=
  match pkgs with
  | [] => []
  | _ => [("", (manager :: "-y" :: "install" :: (if String.eqb manager "apt-get" then ["--"] else []) ++ pkgs)%list)]
  end.
(** A failed command is a warning; the next one runs all the same. *)
Definition installDependencies (e : deps_env) (gameCmd : string) (withSteamCMD : bool) : deps_result :=
  let '(id, version) := osRelease (dp_release e) in
  match depsCSVName id version with
  | None => NoList
  | Some _ =>
      match dp_csv e with
      | None => ListUnreadable
      | Some data =>
          let '(base, steam) := parseDepsCSV data (shortnameOf gameCmd) in
          let '(base, steam) := if dp_amd64 e then (base, steam) else (withoutI386 base, withoutI386 steam) in
          let steam := if withSteamCMD then steam else [] in
          let baseMissing := missing_of (dp_installed e) [] base in
          let steamMissing := missing_of (dp_installed e) [] steam in
          if match baseMissing, steamMissing with [], [] => true | _, _ => false end then AllInstalled else
          if negb (mem id ["ubuntu"; "debian"]) then
            let manager := if dp_dnf e then "dnf" else "yum" in
            Ran (install_command manager baseMissing ++ install_command manager steamMissing)%list
          else
            Ran ((if existsb is_i386 (baseMissing ++ steamMissing) then [("", ["dpkg"; "--add-architecture"; "i386"])] else []) ++
                 [("steamcmd steam/question select I AGREE" +:+ byte_str newline +:+ "steamcmd steam/license note ''" +:+ byte_str newline,
                   ["debconf-set-selections"]); ("", ["apt-get"; "update"])] ++
                 install_command "apt-get" baseMissing ++ install_command "apt-get" steamMissing)%list
      end
  end.

(** A line that sets a Steam app ID in a default config. *)
Definition reAppID (line : string) : bool :=
  match cut_prefix (of_bytes (ldrop_while re_space (to_bytes line))) "appid=" with
  | None => false
  | Some v => match to_bytes (trim_prefix v dq) with c :: _ => is_digit c | [] => false end
  end.
Definition usesSteamCMD (defaults : option string) : bool :=
  match defaults with None => true | Some data => existsb reAppID (split newline data) end.

Definition demo_csv : string :=
  lines_text ["all,curl,jq,lib32gcc-s1,bad name,-x"; "steamcmd,steamcmd,libsdl2-2.0-0:i386"; "vh,libpulse0"; "rust,unzip"; ""].
Definition demo_deps (release : list string) (installed : list string) : deps_env :=
  mkDeps (Some (lines_text release)) (Some demo_csv) true false (fun p => mem p installed).
Example deps_examples :
  installDependencies (demo_deps ["ID=ubuntu"; "VERSION_ID=" +:+ dq +:+ "24.04" +:+ dq] ["jq"]) "vhserver" true =
    Ran [("", ["dpkg"; "--add-architecture"; "i386"]);
         (lines_text ["steamcmd steam/question select I AGREE"; "steamcmd steam/license note ''"; ""], ["debconf-set-selections"]);
         ("", ["apt-get"; "update"]);
         ("", ["apt-get"; "-y"; "install"; "--"; "curl"; "lib32gcc-s1"; "libpulse0"]);
         ("", ["apt-get"; "-y"; "install"; "--"; "steamcmd"; "libsdl2-2.0-0:i386"])] /\
  installDependencies (demo_deps ["ID='rocky'"; "VERSION_ID=9.3"] ["curl"]) "rustserver" false =
    Ran [("", ["yum"; "-y"; "install"; "jq"; "lib32gcc-s1"; "unzip"])] /\
  installDependencies (demo_deps ["ID=arch"] []) "rustserver" false = NoList /\
  usesSteamCMD (Some (lines_text ["# x"; " appid=" +:+ dq +:+ "896660" +:+ dq])) = true.
Proof. vm_compute. repeat split. Qed.

(** * Properties *)

(** The list names the package in a row that counts for the game. *)
Definition row_lists (data : string) (counts : string -> Prop) (p : string) : Prop :=
  exists line row fields, In line (split newline data) /\ split "," (trim_space line) = row :: fields /\ counts row /\
    In p (map trim_space fields) /\ rePackageName p = true.
Definition base_row (shortname row : string) : Prop := row = "all" \/ row = shortname.
Definition steam_row (shortname row : string) : Prop := row = "steamcmd" /\ row <> shortname.

Lemma packages_of_In p fields : In p (packages_of fields) <-> In p (map trim_space fields) /\ rePackageName p = true.
Proof. apply List.filter_In. Qed.

Lemma parse_fold shortname lines : forall base steam,
  let st := fold_left (deps_line shortname) lines (base, steam) in
  (forall p, In p st.1 <-> In p base \/ exists line row fields, In line lines /\ split "," (trim_space line) = row :: fields /\
     base_row shortname row /\ In p (packages_of fields)) /\
  (forall p, In p st.2 <-> In p steam \/ exists line row fields, In line lines /\ split "," (trim_space line) = row :: fields /\
     steam_row shortname row /\ In p (packages_of fields)).
Proof.
  induction lines as [|l lines IH]; intros base steam; cbn [fold_left].
  { cbn. split; intros p; (split; [by left|]); intros [?|(? & ? & ? & [] & _)]; done. }
  assert (Hstep : exists b s, deps_line shortname (base, steam) l = (base ++ b, steam ++ s)%list /\
    (forall p, In p b <-> exists row fields, split "," (trim_space l) = row :: fields /\ base_row shortname row /\ In p (packages_of fields)) /\
    (forall p, In p s <-> exists row fields, split "," (trim_space l) = row :: fields /\ steam_row shortname row /\ In p (packages_of fields))).
  { unfold deps_line. destruct (split "," (trim_space l)) as [|row [|f fs]] eqn:Es.
    - by apply split_not_nil in Es.
    - exists [], []. rewrite !app_nil_r. split; [done|]. split; intros p; (split; [done|]); intros (r & fl & [= <- <-] & _ & H); done.
    - cbn [fst snd]. destruct (String.eqb row "all" || String.eqb row shortname) eqn:Eb.
      + exists (packages_of (f :: fs)), []. rewrite app_nil_r. split; [done|].
        apply orb_true_iff in Eb. rewrite !String.eqb_eq in Eb. split; intros p.
        * split; [intros H; by exists row, (f :: fs)|]. by intros (r & fl & [= <- <-] & _ & H).
        * split; [done|]. intros (r & fl & [= <- <-] & [-> Hn] & _). by destruct Eb.
      + apply orb_false_iff in Eb. rewrite !String.eqb_neq in Eb. destruct Eb as [Ea Eb]. destruct (String.eqb_spec row "steamcmd") as [->|Hr].
        * exists [], (packages_of (f :: fs)). rewrite app_nil_r. split; [done|]. split; intros p.
          -- split; [done|]. intros (r & fl & [= <- <-] & [H|H] & _); done.
          -- split; [intros H; exists "steamcmd", (f :: fs); by split_and!|]. by intros (r & fl & [= <- <-] & _ & H).
        * exists [], []. rewrite !app_nil_r. split; [done|].
          split; intros p; (split; [done|]); intros (r & fl & [= <- <-] & Hc & _); [by destruct Hc|by destruct Hc]. }
  destruct Hstep as (b & s & -> & Hb & Hs). destruct (IH (base ++ b)%list (steam ++ s)%list) as [H1 H2]. cbv zeta in *.
  split; intros p; [rewrite H1, in_app_iff, Hb|rewrite H2, in_app_iff, Hs]; clear; split.
  all: try (intros [[?|(r & fl & H)]|(x & r & fl & Hx & H)]; [by left|right; exists l, r, fl; split; [by left|done]|right; exists x, r, fl; split; [by right|done]]).
  all: intros [?|(x & r & fl & [<-|Hx] & H)]; [left; by left|left; right; by exists r, fl|right; by exists x, r, fl].
Qed.
Lemma parse_deps_spec data shortname p :
  (In p (parseDepsCSV data shortname).1 <-> row_lists data (base_row shortname) p) /\
  (In p (parseDepsCSV data shortname).2 <-> row_lists data (steam_row shortname) p).
Proof.
  unfold parseDepsCSV. destruct (parse_fold shortname (split newline data) [] []) as [H1 H2]. rewrite H1, H2. unfold row_lists.
  split; (split; [intros [[]|(l & r & f & ? & ? & ? & Hp)]; apply packages_of_In in Hp as [? ?]; by exists l, r, f|]);
    intros (l & r & f & ? & ? & ? & ? & ?); right; exists l, r, f; (split_and!; try done); by apply packages_of_In.
Qed.

Lemma missing_of_spec installed pkgs : forall seen,
  (forall p, In p (missing_of installed seen pkgs) <-> In p pkgs /\ ~ In p seen /\ installed p = false) /\
  NoDup (missing_of installed seen pkgs).
Proof.
  induction pkgs as [|x l IH]; intros seen; cbn [missing_of]; [split; [by split; [|intros [[] _]]|constructor]|].
  destruct (IH (x :: seen)) as [H1 H2]. destruct (negb (mem x seen) && negb (installed x)) eqn:E.
  - apply andb_true_iff in E as [E1%negb_true_iff E2%negb_true_iff]. apply mem_false in E1. split.
    + intros p. cbn [In]. rewrite H1. cbn [In]. split; [intros [<-|(? & ? & ?)]; naive_solver|].
      intros (Hp & Hs & Hi). destruct (decide (x = p)) as [->|Hn]; [by left|right]. naive_solver.
    + constructor; [|done]. rewrite list_elem_of_In, H1. cbn [In]. naive_solver.
  - split; [|done]. intros p. rewrite H1. cbn [In]. split; [naive_solver|]. intros (Hp & Hs & Hi).
    assert (Hx : x <> p). { intros ->. rewrite Hi in E. cbn [negb] in E. rewrite andb_true_r in E. apply negb_false_iff, mem_true in E. done. }
    naive_solver.
Qed.

(** The packages the game needs from the list on this machine. *)
Definition wanted (e : deps_env) (gameCmd : string) (withSteamCMD : bool) (p : string) : Prop :=
  exists data, dp_csv e = Some data /\ (dp_amd64 e = true \/ is_i386 p = false) /\
    (row_lists data (base_row (shortnameOf gameCmd)) p \/
     (withSteamCMD = true /\ row_lists data (steam_row (shortnameOf gameCmd)) p)).

(** The packages of an installation command. *)
Inductive installs : root_command -> list string -> Prop :=
| by_apt pkgs : installs ("", "apt-get" :: "-y" :: "install" :: "--" :: pkgs) pkgs
| by_dnf pkgs : installs ("", "dnf" :: "-y" :: "install" :: pkgs) pkgs
| by_yum pkgs : installs ("", "yum" :: "-y" :: "install" :: pkgs) pkgs.
Definition prepares (argv : list string) : Prop :=
  argv = ["dpkg"; "--add-architecture"; "i386"] \/ argv = ["debconf-set-selections"] \/ argv = ["apt-get"; "update"].

Lemma install_command_spec manager pkgs : In manager ["apt-get"; "dnf"; "yum"] ->
  (forall cmd, In cmd (install_command manager pkgs) -> installs cmd pkgs /\ pkgs <> []) /\
  (pkgs <> [] -> exists cmd, In cmd (install_command manager pkgs) /\ installs cmd pkgs).
Proof.
  intros Hm. destruct pkgs as [|p l]; [by split|]. unfold install_command.
  assert (H : installs ("", manager :: "-y" :: "install" :: (if String.eqb manager "apt-get" then ["--"] else []) ++ p :: l)%list (p :: l))
    by (destruct Hm as [<-|[<-|[<-|[]]]]; constructor).
  split; [intros cmd [<-|[]]; by split|]. intros _. eexists. split; [by left|done].
Qed.

Lemma package_name_safe p : rePackageName p = true -> p <> "" /\ has_prefix p "-" = false.
Proof.
  intros H. assert (H' : forall c r, to_bytes p = c :: r -> is_alnum c = true \/ c = ":"%char).
  { intros c r E. unfold rePackageName, re_word in H. unfold trim_suffix in H. destruct (has_suffix p ":i386") eqn:Es.
    - apply has_suffix_spec in Es as [q ->]. unfold stake in H. rewrite to_of_bytes in H.
      destruct (to_bytes q) as [|c' q'] eqn:Eq.
      + rewrite to_bytes_app, Eq in E. injection E as <- _. by right.
      + rewrite to_bytes_app, Eq in E, H. injection E as -> _. left.
        rewrite string_app_length in H. rewrite <- length_to_bytes, Eq in H. cbn [length] in H.
        replace (S (length q') + String.length ":i386" - String.length ":i386")%nat with (S (length q')) in H by lia.
        cbn [app take] in H. by apply andb_true_iff in H as [[H _]%andb_true_iff _].
    - rewrite E in H. by apply andb_true_iff in H as [[H _]%andb_true_iff _]; left. }
  split; [by intros ->|]. apply not_true_iff_false. intros [r ->]%has_prefix_spec. by destruct (H' "-"%char (to_bytes r) eq_refl).
Qed.

Lemma with_arch (amd : bool) base steam :
  (if amd then (base, steam) else (withoutI386 base, withoutI386 steam)) =
  (List.filter (fun p => amd || negb (is_i386 p)) base, List.filter (fun p => amd || negb (is_i386 p)) steam).
Proof.
  destruct amd; [|done]. f_equal; symmetry; cbn [orb].
  - induction base as [|x l IH]; [done|]. cbn [List.filter]. by rewrite IH.
  - induction steam as [|x l IH]; [done|]. cbn [List.filter]. by rewrite IH.
Qed.

(** Commands before and after the two installations do no harm. *)
Section Commands.
Context (e : deps_env) (gameCmd : string) (withSteamCMD : bool) (bm sm : list string).
Let good (p : string) : Prop := wanted e gameCmd withSteamCMD p /\ dp_installed e p = false /\ p <> "" /\ has_prefix p "-" = false.
Definition commands_fit (cmds : list root_command) : Prop :=
  (forall cmd, In cmd cmds -> prepares cmd.2 \/
     exists pkgs, installs cmd pkgs /\ pkgs <> [] /\ NoDup pkgs /\ forall p, In p pkgs -> good p) /\
  (forall p, wanted e gameCmd withSteamCMD p -> dp_installed e p = false -> exists cmd pkgs, In cmd cmds /\ installs cmd pkgs /\ In p pkgs).

Lemma commands_ok manager pre :
  In manager ["apt-get"; "dnf"; "yum"] -> (forall cmd, In cmd pre -> prepares cmd.2) ->
  NoDup bm -> NoDup sm -> (forall p, In p bm \/ In p sm -> good p) ->
  (forall p, In p bm \/ In p sm <-> wanted e gameCmd withSteamCMD p /\ dp_installed e p = false) ->
  commands_fit (pre ++ install_command manager bm ++ install_command manager sm)%list.
Proof.
  intros Hm Hpre Hb Hs Hgood Hand. destruct (install_command_spec manager bm Hm) as [Hb1 Hb2], (install_command_spec manager sm Hm) as [Hs1 Hs2]. split.
  - intros cmd [H|[H|H]%in_app_or]%in_app_or; [left; by apply Hpre|right..].
    + apply Hb1 in H as [Hi Hn]. exists bm. split_and!; try done. intros; apply Hgood; auto.
    + apply Hs1 in H as [Hi Hn]. exists sm. split_and!; try done. intros; apply Hgood; auto.
  - intros p Hw Hi. destruct (proj2 (Hand p) (conj Hw Hi)) as [Hp|Hp].
    + destruct Hb2 as (cmd & Hc & Hic); [by intros ->|]. exists cmd, bm. rewrite !in_app_iff. auto.
    + destruct Hs2 as (cmd & Hc & Hic); [by intros ->|]. exists cmd, sm. rewrite !in_app_iff. auto.
Qed.
End Commands.

(** C27: what runs as root to prepare a game: every command is one of three fixed ones or installs
    packages, all of which the list of the distribution names for the game, have the form of a
    package name - so none is taken for an option - and are not installed; every such package is
    in one of the commands.  When nothing runs there is no list for the distribution, it could
    not be loaded, or all packages are there. *)
Theorem packages_installed e gameCmd withSteamCMD :
  match installDependencies e gameCmd withSteamCMD with
  | NoList => depsCSVName (osRelease (dp_release e)).1 (osRelease (dp_release e)).2 = None
  | ListUnreadable => dp_csv e = None
  | AllInstalled => forall p, wanted e gameCmd withSteamCMD p -> dp_installed e p = true
  | Ran cmds =>
      (forall cmd, In cmd cmds -> prepares cmd.2 \/
         exists pkgs, installs cmd pkgs /\ pkgs <> [] /\ NoDup pkgs /\ forall p, In p pkgs ->
           wanted e gameCmd withSteamCMD p /\ dp_installed e p = false /\ p <> "" /\ has_prefix p "-" = false) /\
      (forall p, wanted e gameCmd withSteamCMD p -> dp_installed e p = false ->
         exists cmd pkgs, In cmd cmds /\ installs cmd pkgs /\ In p pkgs)
  end.
Proof.
  unfold installDependencies. destruct (osRelease (dp_release e)) as [id version]. cbn [fst snd].
  destruct (depsCSVName id version) as [name|]; [|done]. destruct (dp_csv e) as [data|] eqn:Ec; [|done].
  pose proof (fun p => parse_deps_spec data (shortnameOf gameCmd) p) as Hparse.
  destruct (parseDepsCSV data (shortnameOf gameCmd)) as [base steam]. cbn [fst snd] in Hparse. rewrite with_arch.
  set (arch := fun p => dp_amd64 e || negb (is_i386 p)).
  set (bm := missing_of (dp_installed e) [] (List.filter arch base)).
  set (sm := missing_of (dp_installed e) [] (if withSteamCMD then List.filter arch steam else [])).
  assert (Hform : forall p, row_lists data (base_row (shortnameOf gameCmd)) p \/ row_lists data (steam_row (shortnameOf gameCmd)) p -> rePackageName p = true)
    by (intros p [(? & ? & ? & _ & _ & _ & _ & H)|(? & ? & ? & _ & _ & _ & _ & H)]; done).
  assert (Harch : forall p, arch p = true <-> dp_amd64 e = true \/ is_i386 p = false)
    by (intros p; unfold arch; rewrite orb_true_iff, negb_true_iff; done).
  assert (Hbm : forall p, In p bm <-> row_lists data (base_row (shortnameOf gameCmd)) p /\ arch p = true /\ dp_installed e p = false).
  { intros p. unfold bm. rewrite (proj1 (missing_of_spec _ _ _)), List.filter_In, (proj1 (Hparse p)). cbn [In]. tauto. }
  assert (Hsm : forall p, In p sm <-> withSteamCMD = true /\ row_lists data (steam_row (shortnameOf gameCmd)) p /\ arch p = true /\ dp_installed e p = false).
  { intros p. unfold sm. rewrite (proj1 (missing_of_spec _ _ _)). cbn [In]. destruct withSteamCMD; [|cbn [In]; naive_solver].
    rewrite List.filter_In, (proj2 (Hparse p)). tauto. }
  assert (Hand : forall p, In p bm \/ In p sm <-> wanted e gameCmd withSteamCMD p /\ dp_installed e p = false).
  { intros p. rewrite Hbm, Hsm, Harch. unfold wanted. rewrite Ec. split.
    - intros H. split; [exists data|]; tauto.
    - intros ((d & [= <-] & H) & Hi). tauto. }
  assert (Hnd : NoDup bm /\ NoDup sm) by (split; apply missing_of_spec).
  assert (Hpkgs : forall p, In p bm \/ In p sm -> wanted e gameCmd withSteamCMD p /\ dp_installed e p = false /\ p <> "" /\ has_prefix p "-" = false).
  { intros p Hp. pose proof (proj1 (Hand p) Hp) as [Hw Hi]. split_and!; [done|done|..]; apply package_name_safe, Hform;
      rewrite Hbm, Hsm in Hp; tauto. }
  clearbody bm sm. clear Hbm Hsm Hparse Hform Harch arch.
  destruct (match bm, sm with [], [] => true | _, _ => false end) eqn:Ee.
  { intros p Hw. apply not_false_iff_true. intros Hi. destruct (proj2 (Hand p) (conj Hw Hi)) as [H|H]; destruct bm, sm; done. }
  destruct Hnd as [Hnb Hns]. destruct (negb (mem id ["ubuntu"; "debian"])).
  - apply (commands_ok e gameCmd withSteamCMD bm sm _ []); try done. destruct (dp_dnf e); simpl; auto.
  - rewrite app_assoc. apply commands_ok; try done; [simpl; auto|]. intros cmd Hc. unfold prepares.
    apply in_app_or in Hc as [Hc|[<-|[<-|[]]]]; [|auto..]. destruct (existsb _ _); [|done]. destruct Hc as [<-|[]]. auto.
Qed.
