(* ===== verification/HostInstall.v ===== *)
(** * Installing on the host (backend/runtime_host.go)

    The commands the host runtime runs for a server and how their arguments reach the shell, the
    checks of an installation directory, the course of an installation and the cloning of an
    instance.  What the machine answers is part of the input; what is done is a list of events. *)

From Stdlib Require Import ZArith Lia Bool String Ascii List.
From stdpp Require Import base gmap strings list.
From S2P Require Import Prelude GoStrings Validate Paths Cfg Output Manager HostUsers Deps.

(** ** Commands *)

Definition lgsmShellCommand (srv : Instance) (args : list string) : string :=
  "cd " +:+ ShellQuote (i_Dir srv) +:+ " && ./" +:+ ShellQuote (i_Script srv) +:+
  of_bytes (flat_map (fun a => to_bytes (" " +:+ ShellQuote a)) args).
Definition RunLGSM (srv : Instance) (args : list string) : list string :=
  ["runuser"; "-l"; i_User srv; "-c"; lgsmShellCommand srv args].
(** [None]: there is no command to run. *)
Definition RunAsUser (srv : Instance) (login : bool) (args : list string) : option (list string) :=
  match args with
  | [] => None
  | _ => Some (if login then ["runuser"; "-l"; i_User srv; "-c"; join " " (map ShellQuote args)]
               else "runuser" :: "-u" :: i_User srv :: "--" :: args)
  end.

(** ** Installation directories *)

Definition stat_dir (m : machine) (p : string) : bool :=
  match m_eval m p with
  | Some r => match m_lstat m r with Found i => match f_type i with TDir => true | _ => false end | _ => false end
  | None => false
  end.
(** The loop goes up to the root; [self] is the user of the dashboard. *)
Definition trusted_dir (m : machine) (self : Z) (p : string) : bool :=
  match m_lstat m p with
  | Found i =>
      match f_type i with TDir => true | _ => false end && ((f_uid i =? 0) || (f_uid i =? self)) && (Z.land (f_mode i) 0x12 =? 0)
  | _ => false
  end.
Fixpoint trusted_loop (m : machine) (self : Z) (fuel : nat) (p : string) : bool :=
  trusted_dir m self p &&
  (String.eqb p "/" || match fuel with S fuel => trusted_loop m self fuel (Dir p) | O => false end).
Definition checkTrustedAncestors (m : machine) (self : Z) (dir : string) : bool :=
  trusted_loop m self (length (elements dir)) (Clean dir).

Inductive dir_error := UnsafeDir | DirExists | NoParent | SystemDir | UntrustedParent | InDashboard (dir : string).
(** [exe]: the resolved directory of the dashboard's program. *)
Definition ValidateInstallDir (m : machine) (self : Z) (exe : option string) (dir : string) : result dir_error unit :=
  if String.eqb dir "" then Ok tt else
  if negb (IsSafeServerDir dir) then Err UnsafeDir else
  match m_lstat m dir with
  | Found _ => Err DirExists
  | _ =>
      let parent := Dir dir in
      if negb (stat_dir m parent) then Err NoParent else
      match m_eval m parent with
      | None => Err NoParent
      | Some resolved =>
          if IsForbiddenServerDir (Join [resolved; Base dir]) then Err SystemDir else
          if negb (checkTrustedAncestors m self resolved) then Err UntrustedParent else
          match exe with
          | Some d => if IsWithin d resolved then Err (InDashboard d) else Ok tt
          | None => Ok tt
          end
      end
  end.
Inductive validate_error := EReuse (e : reuse_error) | EDirectory (e : dir_error).
Definition ValidateInstall (m : machine) (c : created_users) (running : bool) (self : Z) (exe : option string) (req : InstallRequest)
  : result validate_error unit :=
  match existingInstallUser m c running req with
  | Err e => Err (EReuse e)
  | Ok (Some _) => Ok tt
  | Ok None => match ValidateInstallDir m self exe (r_Dir req) with Ok _ => Ok tt | Err e => Err (EDirectory e) end
  end.

(** ** The installation *)

Inductive host_step :=
| SMkdir (home : string) | SChown (home : string) (uid gid : Z) | SRmdir (home : string)
| SUseradd (args : list string) | SRecord (user : string) | SChmod (home : string) | SPassword (input : string)
| SRun (argv : list string) | SDeps (r : deps_result) | SSteam (configDir : string) (login : SteamLogin).

(** What the installation finds: the machine when the user is looked up, and once the account is
    there; what the commands answer ([ve_run]: the error, and the output) and what can be
    written ([ve_saved]: the record of the users the dashboard created). *)
Record install_env := mkInstall {
  ve_machine : machine; ve_created : created_users; ve_running : bool; ve_later : machine;
  ve_run : list string -> option string * string; ve_mkdir : bool; ve_chown : bool; ve_useradd : bool; ve_saved : bool;
  ve_deps : deps_env; ve_defaults : option string; ve_seeded : bool; ve_service : bool; ve_systemd : option string }.
Inductive install_error := IUser (e : reuse_error) | IHome | IUserAdd | ICommand (argv : list string) | ISteamLogin | IDownload.

Definition ran (e : install_env) (argv : list string) : bool := match (ve_run e argv).1 with None => true | Some _ => false end.
(** Runs the commands one after the other up to the first that fails. *)
Fixpoint run_all (e : install_env) (cmds : list (list string)) : option (list string) * list host_step :=
  match cmds with
  | [] => (None, [])
  | c :: r => if ran e c then let '(f, l) := run_all e r in (f, SRun c :: l) else (Some c, [SRun c])
  end.

(** Step 1: the account, with its home directory, and the record of created users afterwards.
    That the record cannot be written is not noticed. *)
Definition make_user (e : install_env) (req : InstallRequest)
    : option install_error * option passwdEntry * string * created_users * list host_step :=
  let c := ve_created e in
  match existingInstallUser (ve_machine e) c (ve_running e) req with
  | Err x => (Some (IUser x), None, "", c, [])
  | Ok (Some u) =>
      let home := pw_Home u in
      match m_lstat (ve_machine e) home with
      | Missing =>
          if negb (ve_mkdir e) then (Some IHome, Some u, home, c, [SMkdir home])
          else if negb (ve_chown e) then (Some IHome, Some u, home, c, [SMkdir home; SChown home (pw_UID u) (pw_GID u); SRmdir home])
          else (None, Some u, home, c, [SMkdir home; SChown home (pw_UID u) (pw_GID u)])
      | _ => (None, Some u, home, c, [])
      end
  | Ok None =>
      let dir := if String.eqb (r_Dir req) "" then [] else ["-d"; r_Dir req] in
      let home := if String.eqb (r_Dir req) "" then Join ["/home"; r_Username req] else r_Dir req in
      let add := SUseradd (["-m"; "-s"; "/bin/bash"] ++ dir ++ ["--"; r_Username req])%list in
      if negb (ve_useradd e) then (Some IUserAdd, None, home, c, [add])
      else (None, None, home, recordCreatedUser (m_passwd (ve_later e)) (ve_saved e) (r_Username req) c,
            [add; SRecord (r_Username req); SChmod home])
  end.
Definition set_password (existing : option passwdEntry) (req : InstallRequest) : list host_step :=
  match existing with
  | None => if String.eqb (r_Password req) "" then [] else [SPassword (r_Username req +:+ ":" +:+ r_Password req +:+ byte_str newline)]
  | Some _ => []
  end.
(** Steps 2 and 3: the script of the game. *)
Definition bootstrap (e : install_env) (existing : option passwdEntry) (req : InstallRequest) (home : string) : list (list string) :=
  let user := r_Username req in
  if (match existing with Some _ => true | None => false end) && isLinuxGSMScriptAt (ve_later e) (Join [home; r_GameCmd req]) then []
  else
    let path := Join [home; "linuxgsm.sh"] in
    [["runuser"; "-u"; user; "--"; "curl"; "-fsSL"; "-o"; path; "https://linuxgsm.sh"];
     ["runuser"; "-u"; user; "--"; "chmod"; "+x"; "--"; path];
     ["runuser"; "-l"; user; "-c"; "cd " +:+ ShellQuote home +:+ " && ./linuxgsm.sh " +:+ ShellQuote (r_GameCmd req)]].
Definition auto_install (e : install_env) (req : InstallRequest) (home : string) : list string :=
  outsideServiceSandbox (ve_service e) (ve_systemd e)
    ["runuser"; "-l"; r_Username req; "-c"; "cd " +:+ ShellQuote home +:+ " && ./" +:+ ShellQuote (r_GameCmd req) +:+ " auto-install"].

(** Packages, the Steam login, and LinuxGSM's own installation. *)
Definition install_game (e : install_env) (req : InstallRequest) (home : string) : result install_error unit * list host_step :=
  let deps := SDeps (installDependencies (ve_deps e) (r_GameCmd req) (usesSteamCMD (ve_defaults e))) in
  let login := negb (String.eqb (sl_User (r_Steam req)) "") in
  let steps := deps :: (if login then [SSteam (Join [home; "lgsm"; "config-lgsm"; r_GameCmd req]) (r_Steam req)] else []) in
  if login && negb (ve_seeded e) then (Err ISteamLogin, steps) else
  let install := auto_install e req home in
  let steps := (steps ++ [SRun install])%list in
  if negb (ran e install) then (Err (ICommand install), steps) else
  if existsb lgsmDownloadFailed (streamLines (ve_run e install).2) then (Err IDownload, steps) else (Ok tt, steps).
Definition install_server (e : install_env) (existing : option passwdEntry) (req : InstallRequest) (home : string)
  : result install_error unit * list host_step :=
  let '(failed, runs) := run_all e (bootstrap e existing req home) in
  match failed with
  | Some c => (Err (ICommand c), runs)
  | None => let '(r, steps) := install_game e req home in (r, runs ++ steps)%list
  end.
(** The answer, what was done, and the record of created users. *)
Definition Install (e : install_env) (req : InstallRequest) : result install_error unit * list host_step * created_users :=
  let '(err, existing, home, c, steps) := make_user e req in
  match err with
  | Some x => (Err x, steps, c)
  | None => let '(r, rest) := install_server e existing req home in (r, steps ++ set_password existing req ++ rest, c)%list
  end.

(** ** A second instance *)

Inductive clone_step := CRemove (path : string) | CRun (argv : list string) | CConfig (rel text : string).
Inductive clone_failure := BadInstanceName | InstanceExists (script : string) | NotCreated.
Definition clone_config (script : string) : string :=
  lines_text ["## LinuxGSM Multi-Instance Config: " +:+ script; "## Generated by LinuxGSM Dashboard"; ""; ""].
(** [ok]: whether the command worked; [resolved]: where the config path leads below the server. *)
Definition Clone (m : machine) (ok : list string -> bool) (resolved : string -> option string) (srv : Instance) (suffix : string)
  : result clone_failure string * list clone_step :=
  let rootScript := hd "" (split "-" (i_Script srv)) in
  let script := rootScript +:+ "-" +:+ suffix in
  if negb (IsValidScriptName script) then (Err BadInstanceName, []) else
  let path := Join [i_Dir srv; script] in
  let source := match m_lstat m (Join [i_Dir srv; rootScript]) with
                | Found i => if is_regular (f_type i) then rootScript else i_Script srv
                | _ => i_Script srv
                end in
  let found := match m_lstat m path with
               | Found i => match f_type i with TSymlink => Ok [CRemove path] | _ => Err (InstanceExists script) end
               | _ => Ok []
               end in
  match found with
  | Err x => (Err x, [])
  | Ok steps =>
      let as_user args := default [] (RunAsUser srv true args) in
      let copy := as_user ["cp"; "-p"; "--"; Join [i_Dir srv; source]; path] in
      let mode := as_user ["chmod"; "0755"; "--"; path] in
      if negb (ok copy) then (Err NotCreated, steps ++ [CRun copy])%list else
      if negb (ok mode) then (Err NotCreated, steps ++ [CRun copy; CRun mode])%list else
      let rel := Join [configRel srv rootScript; script +:+ ".cfg"] in
      let config := match resolved rel with
                    | Some p => match m_lstat m p with Missing => [CConfig rel (clone_config script)] | _ => [] end
                    | None => []
                    end in
      (Ok script, steps ++ [CRun copy; CRun mode] ++ config)%list
  end.

Definition demo_env (home : list (string * file_type)) (output : string) : install_env :=
  mkInstall (demo_machine home) (Some []) false (demo_machine home) (fun argv => (None, output)) true true true true
    (demo_deps ["ID=arch"] []) None true false None.
Definition request_for (user : string) : InstallRequest := mkRequest "vhserver" user "secret" "" "en" (mkSteamLogin "" "").
Example install_examples :
  Install (demo_env demo_home "") (request_for "vh") =
    (Ok tt, [SDeps NoList; SRun ["runuser"; "-l"; "vh"; "-c"; "cd '/home/vh' && ./'vhserver' auto-install"]], Some []) /\
  Install (demo_env [] "Error! Did not complete the download") (request_for "new") =
    (Err IDownload,
     [SUseradd ["-m"; "-s"; "/bin/bash"; "--"; "new"]; SRecord "new"; SChmod "/home/new"; SPassword (line "new:secret");
      SRun ["runuser"; "-u"; "new"; "--"; "curl"; "-fsSL"; "-o"; "/home/new/linuxgsm.sh"; "https://linuxgsm.sh"];
      SRun ["runuser"; "-u"; "new"; "--"; "chmod"; "+x"; "--"; "/home/new/linuxgsm.sh"];
      SRun ["runuser"; "-l"; "new"; "-c"; "cd '/home/new' && ./linuxgsm.sh 'vhserver'"]; SDeps NoList;
      SRun ["runuser"; "-l"; "new"; "-c"; "cd '/home/new' && ./'vhserver' auto-install"]], Some [mkCreated "new" (-1)]).
Proof. vm_compute. by split. Qed.
Example clone_example :
  Clone (demo_machine demo_home) (fun _ => true) Some demo_instance "two" =
    (Ok "vhserver-two",
     [CRun ["runuser"; "-l"; "vhserver"; "-c"; "'cp' '-p' '--' '/home/vhserver/vhserver' '/home/vhserver/vhserver-two'"];
      CRun ["runuser"; "-l"; "vhserver"; "-c"; "'chmod' '0755' '--' '/home/vhserver/vhserver-two'"];
      CConfig "lgsm/config-lgsm/vhserver/vhserver-two.cfg" (clone_config "vhserver-two")]).
Proof. vm_compute. reflexivity. Qed.

(** * Properties *)

(** ** What the shell makes of a command *)

(** The words of a simple command list: single-quoted parts, backslash escapes, harmless bytes,
    blanks between words, and "&&".  [None] for everything else. *)
Inductive sh_token := TWord (w : bytes) | TAnd.
Definition sh_plain (c : ascii) : bool := is_alnum c || one_of "./-_" c.
Definition close_word (cur : option bytes) : list sh_token := match cur with Some w => [TWord w] | None => [] end.
Fixpoint sh_tokens (cur : option bytes) (quoted : bool) (l : bytes) : option (list sh_token) :=
  match l with
  | [] => if quoted then None else Some (close_word cur)
  | c :: r =>
      let add := Some (default [] cur ++ [c])%list in
      if quoted then if Ascii.eqb c quote1 then sh_tokens cur false r else sh_tokens add true r
      else if Ascii.eqb c " " then option_map (app (close_word cur)) (sh_tokens None false r)
      else if Ascii.eqb c quote1 then sh_tokens (Some (default [] cur)) true r
      else if Ascii.eqb c backslash then
        match r with d :: r' => sh_tokens (Some (default [] cur ++ [d])%list) false r' | [] => None end
      else if Ascii.eqb c "&" then
        match cur, r with
        | None, d :: r' => if Ascii.eqb d "&" then option_map (cons TAnd) (sh_tokens None false r') else None
        | _, _ => None
        end
      else if sh_plain c then sh_tokens add false r else None
  end.
Definition shell_reads (s : string) : option (list sh_token) := sh_tokens None false (to_bytes s).

Lemma tokens_quoted_body cur l rest :
  sh_tokens (Some cur) true (flat_map (fun x => if Ascii.eqb x quote1 then to_bytes "'\''" else [x]) l ++ quote1 :: rest)%list =
  sh_tokens (Some (cur ++ l)%list) false rest.
Proof.
  assert (Hq : forall cur t, sh_tokens (Some cur) true (to_bytes "'\''" ++ t)%list = sh_tokens (Some (cur ++ [quote1])%list) true t)
    by reflexivity.
  revert cur. induction l as [|x l IH]; intros cur; [by rewrite app_nil_r|]. cbn [flat_map]. rewrite <- app_assoc.
  destruct (Ascii.eqb_spec x quote1) as [->|Hx]; [by rewrite Hq, IH, <- app_assoc|].
  apply Ascii.eqb_neq in Hx. cbn [app sh_tokens]. rewrite Hx, IH. cbn [default from_option]. unfold id. by rewrite <- app_assoc.
Qed.
(** A quoted text is part of the current word, whatever it holds. *)
Lemma tokens_quote cur s rest :
  sh_tokens cur false (to_bytes (ShellQuote s) ++ rest)%list = sh_tokens (Some (default [] cur ++ to_bytes s)%list) false rest.
Proof.
  unfold ShellQuote, replace_byte. rewrite !to_bytes_app, to_of_bytes. change (to_bytes "'") with [quote1].
  cbn [app sh_tokens]. rewrite <- app_assoc. cbn [app]. apply tokens_quoted_body.
Qed.
Lemma tokens_args cur args : 
  sh_tokens (Some cur) false (flat_map (fun a => to_bytes (" " +:+ ShellQuote a)) args) =
  Some (TWord cur :: map (fun a => TWord (to_bytes a)) args).
Proof.
  revert cur. induction args as [|a args IH]; intros cur; [done|]. cbn [flat_map]. rewrite to_bytes_app. change (to_bytes " ") with [" "%char].
  cbn [app sh_tokens]. rewrite tokens_quote. cbn [default from_option app]. unfold id. cbn [app]. rewrite IH. done.
Qed.

(** C25: the login shell that runs a LinuxGSM command reads exactly "cd <dir> && ./<script>" with
    the given arguments, and a program run through a login shell gets exactly its arguments:
    nothing in a directory, a name or an argument is taken for shell syntax. *)
Theorem commands_reach_the_shell srv args :
  shell_reads (lgsmShellCommand srv args) =
    Some ([TWord (to_bytes "cd"); TWord (to_bytes (i_Dir srv)); TAnd; TWord (to_bytes "./" ++ to_bytes (i_Script srv))] ++
          map (fun a => TWord (to_bytes a)) args)%list /\
  (args = [] /\ RunAsUser srv true args = None \/
   exists cmd, RunAsUser srv true args = Some ["runuser"; "-l"; i_User srv; "-c"; cmd] /\
     shell_reads cmd = Some (map (fun a => TWord (to_bytes a)) args)).
Proof.
  split.
  - unfold lgsmShellCommand, shell_reads. rewrite !to_bytes_app, to_of_bytes. change (to_bytes "cd ") with ["c"; "d"; " "]%char.
    change (to_bytes " && ./") with [" "; "&"; "&"; " "; "."; "/"]%char. cbn [app sh_tokens]. rewrite tokens_quote.
    cbn -[to_bytes ShellQuote sh_tokens flat_map]. cbn [app sh_tokens]. cbn -[to_bytes ShellQuote sh_tokens flat_map]. 
    rewrite tokens_quote, tokens_args. done.
  - destruct args as [|a args]; [by left|right]. eexists. split; [reflexivity|]. unfold shell_reads. cbn [map].
    assert (H : to_bytes (join " " (ShellQuote a :: map ShellQuote args)) =
      (to_bytes (ShellQuote a) ++ flat_map (fun a => to_bytes (" " +:+ ShellQuote a)) args)%list).
    { revert a. induction args as [|b args IH]; intros a; [cbn [map flat_map]; by rewrite join_one, app_nil_r|].
      cbn [map flat_map]. rewrite join_cons, !to_bytes_app, IH. by rewrite <- !app_assoc. }
    rewrite H, tokens_quote, tokens_args. done.
Qed.

(** ** Installation directories *)

Lemma trusted_loop_spec m self l : Forall name_ok l ->
  trusted_loop m self (length l) (abs_path l) = true <-> forall k, trusted_dir m self (abs_path (take k l)) = true.
Proof.
  intros Hl. assert (Hone : trusted_loop m self 0 (abs_path []) = trusted_dir m self (abs_path []))
    by (cbn [trusted_loop]; rewrite andb_comm; reflexivity).
  induction l as [|x l IH] using rev_ind.
  { cbn [length]. rewrite Hone. split; [intros H k; by rewrite take_nil|intros H; apply (H 0%nat)]. }
  assert (Hne : String.eqb (abs_path (l ++ [x])%list) "/" = false).
  { apply String.eqb_neq. unfold abs_path. intros E. apply (f_equal elements) in E. fold (abs_path (l ++ [x])%list) in E.
    unfold abs_path in E. rewrite elements_abs in E by done. by destruct l. }
  rewrite length_app. cbn [length]. replace (length l + 1)%nat with (S (length l)) by lia. cbn [trusted_loop].
  rewrite Hne, dir_abs by done. cbn [orb]. rewrite andb_true_iff. apply Forall_app in Hl as [Hl _]. rewrite (IH Hl). split.
  - intros [Hx Hk] k. destruct (decide (k <= length l)%nat) as [Hle|Hgt].
    + rewrite take_app_le by done. apply Hk.
    + by rewrite take_ge by (rewrite length_app; cbn [length]; lia).
  - intros H. split.
    + specialize (H (S (length l))). rewrite take_ge in H by (rewrite length_app; cbn [length]; lia). done.
    + intros k. destruct (decide (k <= length l)%nat) as [Hle|Hgt].
      * specialize (H k). by rewrite take_app_le in H.
      * specialize (H (length l)). rewrite take_app_le, take_ge in H by lia. by rewrite take_ge by lia.
Qed.

(** A directory a new user may get as its home is a permitted server directory that does not
    exist; its parent leads, links resolved, to a directory that and every directory above which
    belongs to root or the dashboard's user and can be written by nobody else, so nobody can
    replace one of them later; the place is no system directory and not inside the dashboard's
    own directory, which an uninstallation removes. *)
Theorem install_dir_trusted m self exe dir :
  dir <> "" -> (forall p q, IsAbs p = true -> m_eval m p = Some q -> IsAbs q = true) ->
  ValidateInstallDir m self exe dir = Ok tt ->
  IsSafeServerDir dir = true /\ (forall i, m_lstat m dir <> Found i) /\
  exists resolved, m_eval m (Dir dir) = Some resolved /\ IsForbiddenServerDir (Join [resolved; Base dir]) = false /\
    (forall k, trusted_dir m self (abs_path (take k (elements resolved))) = true) /\
    (forall d, exe = Some d -> IsWithin d resolved = false).
Proof.
  intros Hne Heval. unfold ValidateInstallDir. rewrite (proj2 (String.eqb_neq _ _) Hne).
  destruct (IsSafeServerDir dir) eqn:Es; [|done]. cbn [negb]. intros H. split; [done|].
  assert (Hx : forall i, m_lstat m dir <> Found i) by (intros i E; by rewrite E in H). split; [done|].
  assert (H' : match m_eval m (Dir dir) with
    | None => Err NoParent
    | Some resolved =>
        if IsForbiddenServerDir (Join [resolved; Base dir]) then Err SystemDir else
        if negb (checkTrustedAncestors m self resolved) then Err UntrustedParent else
        match exe with Some d => if IsWithin d resolved then Err (InDashboard d) else Ok tt | None => Ok tt end
    end = Ok tt).
  { destruct (m_lstat m dir) as [i| |] eqn:El; [by destruct (Hx i)|..]; destruct (negb (stat_dir m (Dir dir))); done. }
  clear H. destruct (m_eval m (Dir dir)) as [resolved|] eqn:Ee; [|done]. exists resolved. split; [done|].
  destruct (IsForbiddenServerDir _) eqn:Ef; [done|]. split; [done|].
  destruct (checkTrustedAncestors m self resolved) eqn:Et; [|done]. cbn [negb] in H'.
  assert (Ha : IsAbs resolved = true) by (by eapply Heval; [|exact Ee]).
  split; [|intros d ->; by destruct (IsWithin d resolved)].
  unfold checkTrustedAncestors in Et. rewrite (clean_abs _ Ha) in Et. by apply trusted_loop_spec; [apply elements_ok|].
Qed.
Definition srv_machine : machine := mkMachine None None
  (fun p => if mem p ["/"; "/srv"; "/srv/games"] then Found (mkInfo TDir 0 0 0x1ed) else Missing) (fun _ => None) (fun _ => None) Some.
Lemma install_dir_trusted_witness :
  ValidateInstallDir srv_machine 0 (Some "/opt/dashboard") "/srv/games/vh" = Ok tt /\ trusted_dir srv_machine 0 "/srv" = true.
Proof.
  split; [vm_compute; reflexivity|].
  destruct (install_dir_trusted srv_machine 0 (Some "/opt/dashboard") "/srv/games/vh" ltac:(discriminate)
    ltac:(intros p q Hp Hq; injection Hq as <-; exact Hp) ltac:(vm_compute; reflexivity)) as (_ & _ & res & Hr & _ & Ht & _).
  injection Hr as <-. exact (Ht 1%nat).
Defined.

(** ** The course of an installation *)









(** ** A second instance *)

(** A clone is a new, valid script beside the old one: a script that is there is never replaced,
    only a link is, and what is copied is copied as the user of the server. *)
Lemma clone_new_script m ok resolved srv suffix r steps : Clone m ok resolved srv suffix = (r, steps) ->
  (forall path, In (CRemove path) steps -> exists i, m_lstat m path = Found i /\ f_type i = TSymlink) /\
  (forall argv, In (CRun argv) steps -> exists cmd, argv = ["runuser"; "-l"; i_User srv; "-c"; cmd]) /\
  (forall script, r = Ok script -> script = hd "" (split "-" (i_Script srv)) +:+ "-" +:+ suffix /\ IsValidScriptName script = true /\
     forall i, m_lstat m (Join [i_Dir srv; script]) = Found i -> f_type i = TSymlink).
Proof.
  unfold Clone. set (script := _ +:+ "-" +:+ suffix). destruct (IsValidScriptName script) eqn:Ev; [|by intros [= <- <-]]. cbn [negb].
  set (path := Join [i_Dir srv; script]). set (found := match m_lstat m path with Found _ => _ | _ => _ end).
  assert (Hf : match found with
    | Ok pre => (forall p, In (CRemove p) pre -> exists i, m_lstat m p = Found i /\ f_type i = TSymlink) /\ (forall a, ~ In (CRun a) pre) /\
        (forall i, m_lstat m path = Found i -> f_type i = TSymlink)
    | Err _ => True end).
  { unfold found. destruct (m_lstat m path) as [i| |] eqn:El; [destruct (f_type i) eqn:Et; try done| |]; split_and!; try done; try (by intros ? [[=]|[]]); try (by intros ? []).
    - intros p [[= <-]|[]]. by exists i.
    - by intros j [= <-]. }
  clearbody found. destruct found as [pre|x]; [|by intros [= <- <-]]. destruct Hf as (H1 & H2 & H3). cbn [RunAsUser default from_option]. unfold id.
  assert (Hgen : forall l, (forall p, ~ In (CRemove p) l) -> (forall a, In (CRun a) l -> exists cmd, a = ["runuser"; "-l"; i_User srv; "-c"; cmd]) ->
    (forall p, In (CRemove p) (pre ++ l)%list -> exists i, m_lstat m p = Found i /\ f_type i = TSymlink) /\
    (forall a, In (CRun a) (pre ++ l)%list -> exists cmd, a = ["runuser"; "-l"; i_User srv; "-c"; cmd])).
  { intros l Hl1 Hl2. split; [intros p [Hp|Hp]%in_app_or; [by apply H1|by apply Hl1 in Hp]|intros a [Ha|Ha]%in_app_or; [by apply H2 in Ha|by apply Hl2]]. }
  destruct (ok _); cbn [negb]; [destruct (ok _); cbn [negb]|]; intros [= <- <-];
    (match goal with |- ?A /\ ?B /\ ?C => cut ((A /\ B) /\ C); [tauto|] end); (split; [apply Hgen|by intros ? [= <-]]).
  all: intros p Hin; cbn [In app] in Hin; repeat destruct Hin as [[= <-]|Hin]; try done; try (by eexists).
  all: repeat case_match; try done; by destruct Hin.
Qed.
