(* ===== verification/Discovery.v ===== *)
(** * Discovery of game servers (backend/runtime_host.go)

    The host runtime finds servers by their scripts: in the home directories of /etc/passwd and in
    the directories an administrator configured.  Which directories are read, which files count as
    servers, what a linked script is replaced by, and the IDs the servers get.  What must be
    found is stated without the functions that scan. *)

From Stdlib Require Import ZArith Lia Bool String Ascii List.
From stdpp Require Import base gmap strings list fin_sets.
From S2P Require Import Prelude GoStrings Validate Paths ServerIDs Output Ports Manager Status HostUsers Autostart.

(** What the configs of a server say: the values, the files of games with a config of their own,
    the game and its short name. *)
Record game_files := mkFiles {
  gf_values : string -> string -> gmap string string; gf_mta : string -> option string; gf_mc : string -> option string;
  gf_root : string -> string -> string; gf_short : string -> string -> string }.
(** A server as discovery describes it. *)
Record detected := mkDetected { dt_live : live; dt_Game : string; dt_Commands : list string; dt_UID : Z; dt_GID : Z }.
Definition dt_srv (d : detected) : Instance := lv_srv (dt_live d).
Definition with_server (srv : Instance) (d : detected) : detected :=
  mkDetected (with_id (dt_live d) srv) (dt_Game d) (dt_Commands d) (dt_UID d) (dt_GID d).

Definition isDiscoverableHome (e : passwdEntry) : bool :=
  if (pw_UID e =? 0) || negb (IsValidLinuxUsername (pw_Name e)) || negb (IsSafeServerDir (pw_Home e)) then false
  else has_prefix (pw_Home e) "/home/" || regular_uid (pw_UID e).

Section Discovery.
(** [m]: the machine when a directory is read; [later]: after links in it were replaced; [works]:
    whether a command succeeds. *)
Context (m later : machine) (files : game_files) (works : list string -> bool).

(** The commands that replace a link by a copy of its target. *)
Definition convertScriptSymlink (dir scriptPath : string) (owner : passwdEntry) : list (list string) :=
  match m_eval m scriptPath, m_eval m dir with
  | Some target, Some dirResolved =>
      if negb (IsWithin dirResolved target) || negb (isLinuxGSMScriptAt m target) then [] else
      match lfileOwnerUID m target with
      | None => []
      | Some uid =>
          if (0 <=? uid) && negb (uid =? pw_UID owner) then [] else
          let tmp := scriptPath +:+ ".lgsm-dashboard-copy" in
          let as_owner args := ("runuser" :: "-u" :: pw_Name owner :: "--" :: args) in
          let cp := as_owner ["cp"; "-p"; "--"; target; tmp] in
          let chmod := as_owner ["chmod"; "0755"; "--"; tmp] in
          let mv := as_owner ["mv"; "-f"; "-T"; "--"; tmp; scriptPath] in
          let rm := as_owner ["rm"; "-f"; "--"; tmp] in
          if negb (works cp) then [cp; rm] else if negb (works chmod) then [cp; chmod; rm]
          else if negb (works mv) then [cp; chmod; mv; rm] else [cp; chmod; mv]
      end
  | _, _ => []
  end.

Definition instance_at (dir script : string) (owner : passwdEntry) : detected :=
  mkDetected
    (mkLive (mkInstance script (pw_Name owner) script dir LayoutHost) (mapScriptToGameName script) "stopped" false
       (parseServerPort (gf_values files dir script) (gf_root files dir script) script (gf_mta files dir) (gf_mc files dir)) [] "" "")
    (getGameFromScriptName script)
    (linuxGSMCommands (gf_values files dir script) (gf_short files dir script)) (pw_UID owner) (pw_GID owner).

(** The entry is a server of [owner], seen after links were replaced. *)
Definition is_server (dir : string) (owner : passwdEntry) (requireOwner : bool) (script : string) : bool :=
  match m_lstat later (Join [dir; script]) with
  | Found i => is_regular (f_type i) && negb (Z.land (f_mode i) 0x49 =? 0)
               && (negb requireOwner || (f_uid i =? pw_UID owner)) && isLinuxGSMScriptAt later (Join [dir; script])
  | _ => false
  end.
Definition scan_entry (dir : string) (owner : passwdEntry) (requireOwner : bool) (e : string * file_type)
  : list detected * list (list string) :=
  let '(script, t) := e in
  match t with
  | TDir => ([], [])
  | _ =>
      if String.eqb script "linuxgsm.sh" || negb (IsValidScriptName script) then ([], []) else
      let cmds := match t with TSymlink => convertScriptSymlink dir (Join [dir; script]) owner | _ => [] end in
      (if is_server dir owner requireOwner script then [instance_at dir script owner] else [], cmds)
  end.
Definition scanServerDir (dir : string) (owner : passwdEntry) (requireOwner : bool) : list detected * list (list string) :=
  match m_readDir m dir with
  | None => ([], [])
  | Some entries =>
      (flat_map (fun e => (scan_entry dir owner requireOwner e).1) entries, flat_map (fun e => (scan_entry dir owner requireOwner e).2) entries)
  end.

(** [for n := 2; taken[id]; n++]: the fuel is one more than there are IDs. *)
Fixpoint pick_id (fuel : nat) (taken : gset string) (base id : string) (n : Z) : option string :=
  if bool_decide (id ∈ taken) then
    match fuel with O => None | S fuel => pick_id fuel taken base (base +:+ "-" +:+ itoa n) (n + 1) end
  else Some id.
Definition found_id (taken : gset string) (srv : Instance) : option string :=
  if bool_decide (i_Script srv ∈ taken) then
    let id := i_Script srv +:+ "@" +:+ i_User srv in pick_id (S (size taken)) taken id id 2
  else Some (i_Script srv).

Record search := mkSearch { se_found : list detected; se_taken : gset string; se_seen : gset string }.
(** The closure [add]; [None]: the search for an ID does not end. *)
Definition add_found (d : detected) (st : search) : option search :=
  let key := Join [i_Dir (dt_srv d); i_Script (dt_srv d)] in
  if decide (key ∈ se_seen st) then Some st else
  match found_id (se_taken st) (dt_srv d) with
  | None => None
  | Some id => Some (mkSearch (se_found st ++ [with_server (set_id id (dt_srv d)) d])%list ({[id]} ∪ se_taken st) ({[key]} ∪ se_seen st))
  end.
Fixpoint add_all (l : list detected) (st : search) : option search :=
  match l with
  | [] => Some st
  | d :: l => match add_found d st with Some st => add_all l st | None => None end
  end.

Definition owner_by_uid (users : list passwdEntry) (uid : Z) : option passwdEntry := List.find (fun u => pw_UID u =? uid) users.
(** A configured directory and its direct subdirectories. *)
Definition candidates (base : string) : list string :=
  base :: match m_readDir m base with
          | None => []
          | Some entries => omap (fun e : string * file_type => match e.2 with
                                    | TDir => if has_prefix e.1 "." then None else Some (Join [base; e.1])
                                    | _ => None end) entries
          end.
Definition scan_custom (users : list passwdEntry) (dir : string) : list detected :=
  let dir := Clean dir in
  if negb (IsSafeServerDir dir) then [] else
  match lfileOwnerUID m dir with
  | None => []
  | Some uid =>
      if uid <=? 0 then [] else
      match owner_by_uid users uid with
      | None => []
      | Some owner => if IsValidLinuxUsername (pw_Name owner) then (scanServerDir dir owner true).1 else []
      end
  end.
Definition scan_homes (users : list passwdEntry) : list detected :=
  flat_map (fun u => if isDiscoverableHome u then (scanServerDir (pw_Home u) u false).1 else []) users.

(** tmux is asked about every server. *)
Definition with_status (state : Instance -> tmuxState) (d : detected) : detected :=
  let v := dt_live d in
  let v := match state (dt_srv d) with
           | tmuxActive => set_status "running" v
           | tmuxUnknown => mkLive (lv_srv v) (lv_Name v) (lv_Status v) true (lv_Port v) (lv_ParsedPorts v) (lv_Tag v) (lv_BindIP v)
           | tmuxAbsent => v
           end in
  mkDetected v (dt_Game d) (dt_Commands d) (dt_UID d) (dt_GID d).

Inductive discovery := PasswdError | Endless | Servers (l : list detected).
Definition Discover (state : Instance -> tmuxState) (customPaths : list string) : discovery :=
  match readPasswd (m_passwd m) with
  | None => PasswdError
  | Some users =>
      let l := (scan_homes users ++ flat_map (fun base => flat_map (scan_custom users) (candidates base)) customPaths)%list in
      match add_all l (mkSearch [] ∅ ∅) with
      | None => Endless
      | Some st => Servers (map (with_status state) (se_found st))
      end
  end.
End Discovery.

(** * Properties *)

(** ** The IDs *)

Lemma pick_id_some taken base fuel : forall id n (seen : gset string),
  seen ⊆ taken -> (size taken < fuel + size seen)%nat -> 2 <= n -> n + Z.of_nat fuel <= int64_max ->
  (forall k, n <= k <= int64_max -> base +:+ "-" +:+ itoa k ∉ seen) ->
  (id ∉ seen) -> (forall k, n <= k <= int64_max -> base +:+ "-" +:+ itoa k <> id) ->
  exists id', pick_id fuel taken base id n = Some id'.
Proof.
  induction fuel as [|fuel IH]; intros id n seen Hsub Hsz H2 Hmax Hseen Hid Hne; [exfalso; apply subseteq_size in Hsub; lia|].
  cbn [pick_id]. destruct (bool_decide (id ∈ taken)) eqn:Et; [|by eexists]. apply bool_decide_eq_true in Et.
  apply (IH _ _ ({[id]} ∪ seen)); try lia.
  - by apply union_least; [apply singleton_subseteq_l|].
  - rewrite (size_union {[id]} seen); [rewrite size_singleton; lia|]. intros x Hx%elem_of_singleton Hx2. by subst x.
  - intros k Hk. apply not_elem_of_union. split; [apply not_elem_of_singleton, Hne; lia|apply Hseen; lia].
  - apply not_elem_of_union. split; [apply not_elem_of_singleton, Hne; lia|apply Hseen; lia].
  - intros k Hk E. apply numbered_inj in E; lia.
Qed.
Lemma pick_id_free taken base fuel : forall id n id', pick_id fuel taken base id n = Some id' -> id' ∉ taken.
Proof.
  induction fuel as [|f IH]; intros id n id'; cbn [pick_id]; (destruct (bool_decide (id ∈ taken)) eqn:E;
    [|intros [= <-]; by apply bool_decide_eq_false in E]); [done|apply IH].
Qed.
Lemma found_id_some taken srv : Z.of_nat (size taken) < 2 ^ 62 -> exists id, found_id taken srv = Some id.
Proof.
  intros Hsz. unfold found_id. destruct (bool_decide _); [|by eexists].
  apply (pick_id_some _ _ _ _ _ ∅); try done; unfold int64_max; [rewrite size_empty; lia|lia|].
  intros k _ E. apply (f_equal String.length) in E. rewrite !string_app_length in E. simpl in E. lia.
Qed.
Lemma found_id_free taken srv id : found_id taken srv = Some id -> id ∉ taken.
Proof.
  unfold found_id. destruct (bool_decide (i_Script srv ∈ taken)) eqn:E; [apply pick_id_free|].
  intros [= <-]. by apply bool_decide_eq_false in E.
Qed.

(** ** The list of servers *)

Local Abbreviation key d := (serverIDKey (dt_srv d)).
Local Abbreviation id_of d := (i_ID (dt_srv d)).
(** Two descriptions of the same server, which may have different IDs. *)
Definition same_but_id (d d' : detected) : Prop := d' = with_server (set_id (id_of d') (dt_srv d)) d.

Record search_ok (st : search) : Prop := mkSearchOk {
  so_ids : NoDup (map (fun d => id_of d) (se_found st)); so_keys : NoDup (map (fun d => key d) (se_found st));
  so_taken : forall d, In d (se_found st) -> id_of d ∈ se_taken st; so_seen : forall d, In d (se_found st) -> key d ∈ se_seen st;
  so_found : forall k, k ∈ se_seen st -> exists d, In d (se_found st) /\ key d = k;
  so_size : (size (se_taken st) <= length (se_found st))%nat }.

Lemma add_found_ok d st : search_ok st -> Z.of_nat (length (se_found st)) < 2 ^ 62 ->
  exists st', add_found d st = Some st' /\ search_ok st' /\ (key d ∈ se_seen st') /\
    ((se_found st' = se_found st) \/ exists d', se_found st' = (se_found st ++ [d'])%list /\ same_but_id d d') /\
    se_seen st ⊆ se_seen st'.
Proof.
  intros [H1 H2 H3 H4 H5 H6] Hsz. unfold add_found. change (Join [i_Dir (dt_srv d); i_Script (dt_srv d)]) with (key d).
  destruct (decide (key d ∈ se_seen st)) as [Hin|Hnot]; [exists st; split_and!; try done; by left|].
  destruct (found_id_some (se_taken st) (dt_srv d)) as [id Hid]; [lia|]. rewrite Hid. eexists. split; [reflexivity|].
  pose proof (found_id_free _ _ _ Hid) as Hfree. set (d' := with_server (set_id id (dt_srv d)) d).
  split; [|split_and!; [set_solver|right; by exists d'|set_solver]].
  split; cbn [se_found se_taken se_seen].
  - rewrite map_app. apply NoDup_app. split_and!; [done| |apply NoDup_singleton]. intros x Hx%list_elem_of_In Hx'.
    apply list_elem_of_singleton in Hx' as ->. apply in_map_iff in Hx as (y & Hy & Hin). apply H3 in Hin. rewrite Hy in Hin. done.
  - rewrite map_app. apply NoDup_app. split_and!; [done| |apply NoDup_singleton]. intros x Hx%list_elem_of_In Hx'.
    apply list_elem_of_singleton in Hx' as ->. apply in_map_iff in Hx as (y & Hy & Hin). apply H4 in Hin. rewrite Hy in Hin. done.
  - intros x [Hx%H3|[<-|[]]]%in_app_or; set_solver.
  - intros x [Hx%H4|[<-|[]]]%in_app_or; [set_solver|]. change (key d') with (key d). set_solver.
  - intros k [->%elem_of_singleton|Hk]%elem_of_union; [exists d'; split; [apply in_or_app; right; by left|done]|].
    destruct (H5 k Hk) as (x & Hx & E). exists x. split; [apply in_or_app; by left|done].
  - rewrite length_app. cbn [length]. rewrite size_union by set_solver. rewrite size_singleton. lia.
Qed.

Lemma add_all_ok l : forall st, search_ok st -> Z.of_nat (length (se_found st) + length l) < 2 ^ 62 ->
  exists st', add_all l st = Some st' /\ search_ok st' /\ se_seen st ⊆ se_seen st' /\
    (forall d, In d l -> key d ∈ se_seen st') /\
    (forall d', In d' (se_found st') -> In d' (se_found st) \/ exists d, In d l /\ same_but_id d d').
Proof.
  induction l as [|d l IH]; intros st Hok Hsz; cbn [add_all]; [exists st; split_and!; try done; by left|].
  cbn [length] in Hsz. destruct (add_found_ok d st Hok ltac:(lia)) as (st1 & -> & Hok1 & Hd & Hf & Hsub).
  assert (Hlen : (length (se_found st1) <= S (length (se_found st)))%nat).
  { destruct Hf as [->|(d' & -> & _)]; [lia|]. rewrite length_app. cbn [length]. lia. }
  destruct (IH st1 Hok1 ltac:(lia)) as (st2 & -> & Hok2 & Hsub2 & Hk & Hfrom). exists st2. split_and!; [done|done|set_solver| |].
  - intros x [<-|Hx]; [set_solver|by apply Hk].
  - intros x Hx. destruct (Hfrom x Hx) as [Hx'|(y & Hy & Hs)]; [|right; exists y; split; [by right|done]].
    destruct Hf as [E|(d' & E & Hs)]; rewrite E in Hx'; [by left|]. apply in_app_or in Hx' as [Hx'|[<-|[]]]; [by left|].
    right. exists d. split; [by left|done].
Qed.

(** ** What counts as a server *)

Section Found.
Context (m later : machine) (files : game_files) (works : list string -> bool).

(** A server of an account of the machine: a LinuxGSM script that can be executed, in a permitted
    directory. *)
Record server_of (users : list passwdEntry) (customPaths : list string) (d : detected) : Prop := mkServerOf {
  sv_owner : exists u, In u users /\ i_User (dt_srv d) = pw_Name u /\ dt_UID d = pw_UID u /\ dt_GID d = pw_GID u /\ pw_UID u <> 0 /\
    IsValidLinuxUsername (pw_Name u) = true /\
    exists i, m_lstat later (Join [i_Dir (dt_srv d); i_Script (dt_srv d)]) = Found i /\ f_type i = TRegular /\ Z.land (f_mode i) 0x49 <> 0 /\
      isLinuxGSMScript (m_head later (Join [i_Dir (dt_srv d); i_Script (dt_srv d)])) = true /\
      (i_Dir (dt_srv d) = pw_Home u \/
       (f_uid i = pw_UID u /\ lfileOwnerUID m (i_Dir (dt_srv d)) = Some (pw_UID u) /\
        exists base dir, In base customPaths /\ In dir (candidates m base) /\ i_Dir (dt_srv d) = Clean dir));
  sv_dir : IsSafeServerDir (i_Dir (dt_srv d)) = true;
  sv_script : IsValidScriptName (i_Script (dt_srv d)) = true /\ i_Script (dt_srv d) <> "linuxgsm.sh";
  sv_layout : i_Layout (dt_srv d) = LayoutHost }.

Lemma scan_dir_In dir owner requireOwner d : In d (scanServerDir m later files works dir owner requireOwner).1 ->
  exists script, d = instance_at files dir script owner /\ IsValidScriptName script = true /\ script <> "linuxgsm.sh" /\
    is_server later dir owner requireOwner script = true.
Proof.
  unfold scanServerDir. destruct (m_readDir m dir) as [entries|]; [|done]. cbn [fst]. intros ((script & t) & _ & Hin)%in_flat_map.
  exists script. unfold scan_entry in Hin.
  assert (H : In d (if String.eqb script "linuxgsm.sh" || negb (IsValidScriptName script) then []
                    else if is_server later dir owner requireOwner script then [instance_at files dir script owner] else [])).
  { destruct t; [done|..]; by destruct (_ || _). }
  destruct (String.eqb_spec script "linuxgsm.sh") as [|Hne]; [done|]. destruct (IsValidScriptName script); [|done]. cbn [orb negb] in H.
  destruct (is_server _ _ _ _ _); [|done]. destruct H as [<-|[]]. by split_and!.
Qed.
Lemma is_server_spec dir owner requireOwner script : is_server later dir owner requireOwner script = true ->
  exists i, m_lstat later (Join [dir; script]) = Found i /\ f_type i = TRegular /\ Z.land (f_mode i) 0x49 <> 0 /\
    isLinuxGSMScript (m_head later (Join [dir; script])) = true /\ (requireOwner = true -> f_uid i = pw_UID owner).
Proof.
  unfold is_server, isLinuxGSMScriptAt. destruct (m_lstat later _) as [i| |]; [|done..].
  intros [[[Ht Hm]%andb_true_iff Ho]%andb_true_iff Hs]%andb_true_iff. exists i. split_and!; [done|by destruct (f_type i)| |done|].
  - intros E. by rewrite E in Hm.
  - intros ->. cbn [negb orb] in Ho. lia.
Qed.

Lemma scanned_server users customPaths d :
  In d (scan_homes m later files works users ++
        flat_map (fun base => flat_map (scan_custom m later files works users) (candidates m base)) customPaths) ->
  server_of users customPaths d.
Proof.
  intros [H|H]%in_app_or.
  - apply in_flat_map in H as (u & Hu & H). unfold isDiscoverableHome in H.
    destruct (Z.eqb_spec (pw_UID u) 0) as [|Hz]; [done|]. destruct (IsValidLinuxUsername (pw_Name u)) eqn:Ev; [|done].
    destruct (IsSafeServerDir (pw_Home u)) eqn:Es; [|done]. cbn [negb orb] in H. destruct (_ || _); [|done].
    apply scan_dir_In in H as (script & -> & Hv & Hn & (i & Hf & Ht & Hm & Hs & _)%is_server_spec).
    split; [|done|done|done]. exists u. split_and!; try done. exists i. split_and!; try done. by left.
  - apply in_flat_map in H as (base & Hb & (dir & Hd & H)%in_flat_map). unfold scan_custom in H.
    destruct (IsSafeServerDir (Clean dir)) eqn:Es; [|done]. cbn [negb] in H.
    destruct (lfileOwnerUID m (Clean dir)) as [uid|] eqn:Eu; [|done]. destruct (Z.leb_spec uid 0) as [|Hz]; [done|].
    destruct (owner_by_uid users uid) as [u|] eqn:Eo; [|done]. destruct (IsValidLinuxUsername (pw_Name u)) eqn:Ev; [|done].
    unfold owner_by_uid in Eo. apply find_some in Eo as [Hu Huid]. apply Z.eqb_eq in Huid as <-.
    apply scan_dir_In in H as (script & -> & Hv & Hn & (i & Hf & Ht & Hm & Hs & Ho)%is_server_spec).
    split; [|done|done|done]. exists u. split_and!; try done; [lia|]. exists i. split_and!; try done. right.
    split_and!; [by apply Ho|done|]. by exists base, dir.
Qed.
(** *** What a discovery has to find

    The directories it reads and the accounts that count there, and the scripts in them, without
    the functions above. *)

(** A home directory of an account. *)
Definition home_of (users : list passwdEntry) (u : passwdEntry) (dir : string) : Prop :=
  In u users /\ dir = pw_Home u /\ pw_UID u <> 0 /\ (has_prefix dir "/home/" = true \/ 1000 <= pw_UID u < 65534).
(** A configured directory, or a directory in it whose name begins with no dot, that belongs to
    the account; of accounts with one UID the first of /etc/passwd counts. *)
Definition configured_of (users : list passwdEntry) (customPaths : list string) (u : passwdEntry) (dir : string) : Prop :=
  (exists base, In base customPaths /\
     (dir = Clean base \/
      exists entries name, m_readDir m base = Some entries /\ In (name, TDir) entries /\ has_prefix name "." = false /\
        dir = Clean (Join [base; name]))) /\
  lfileOwnerUID m dir = Some (pw_UID u) /\ 0 < pw_UID u /\
  exists before after, users = (before ++ u :: after)%list /\ Forall (fun x => pw_UID x <> pw_UID u) before.
(** An executable LinuxGSM script. *)
Definition script_at (dir script : string) (i : file_info) : Prop :=
  (exists entries t, m_readDir m dir = Some entries /\ In (script, t) entries /\ t <> TDir) /\
  IsValidScriptName script = true /\ script <> "linuxgsm.sh" /\
  m_lstat later (Join [dir; script]) = Found i /\ f_type i = TRegular /\ Z.land (f_mode i) 0x49 <> 0 /\
  isLinuxGSMScript (m_head later (Join [dir; script])) = true.
Definition must_list (users : list passwdEntry) (customPaths : list string) (u : passwdEntry) (dir script : string) : Prop :=
  IsValidLinuxUsername (pw_Name u) = true /\ IsSafeServerDir dir = true /\
  exists i, script_at dir script i /\
    (home_of users u dir \/ configured_of users customPaths u dir /\ f_uid i = pw_UID u).

Lemma script_scanned dir script i u requireOwner : script_at dir script i -> (requireOwner = true -> f_uid i = pw_UID u) ->
  In (instance_at files dir script u) (scanServerDir m later files works dir u requireOwner).1.
Proof.
  intros ((entries & t & He & Hin & Ht) & Hv & Hn & Hl & Hr & Hx & Hs) Ho. unfold scanServerDir. rewrite He. cbn [fst].
  apply in_flat_map. exists (script, t). split; [done|]. unfold scan_entry. rewrite (proj2 (String.eqb_neq _ _) Hn), Hv. cbn [orb negb].
  assert (Hserver : is_server later dir u requireOwner script = true).
  { unfold is_server, isLinuxGSMScriptAt. rewrite Hl, Hr, Hs, (proj2 (Z.eqb_neq _ _) Hx). cbn. destruct requireOwner; [|done].
    rewrite (Ho eq_refl). cbn. by rewrite Z.eqb_refl. }
  destruct t; [done|..]; rewrite Hserver; by left.
Qed.

Lemma first_owner users u : (exists before after, users = (before ++ u :: after)%list /\ Forall (fun x => pw_UID x <> pw_UID u) before) ->
  owner_by_uid users (pw_UID u) = Some u.
Proof.
  intros (before & after & -> & Hb). unfold owner_by_uid. induction Hb as [|x before Hx _ IH]; cbn; [by rewrite Z.eqb_refl|].
  by rewrite (proj2 (Z.eqb_neq _ _) Hx).
Qed.

Lemma must_list_scanned users customPaths u dir script : must_list users customPaths u dir script ->
  In (instance_at files dir script u) (scan_homes m later files works users ++
    flat_map (fun base => flat_map (scan_custom m later files works users) (candidates m base)) customPaths)%list.
Proof.
  intros (Hv & Hsafe & i & Hs & [(Hu & -> & Hz & Hh)|[((base & Hb & Hd) & Ho & Hpos & Hfirst) Hi]]); apply in_or_app; [left|right].
  - apply in_flat_map. exists u. split; [done|]. unfold isDiscoverableHome. rewrite Hv, Hsafe, (proj2 (Z.eqb_neq _ _) Hz). cbn [negb orb].
    replace (has_prefix (pw_Home u) "/home/" || regular_uid (pw_UID u)) with true; [by eapply script_scanned|].
    symmetry. apply orb_true_iff. destruct Hh as [Hh|Hh]; [by left|right]. unfold regular_uid. lia.
  - apply in_flat_map. exists base. split; [done|]. apply in_flat_map.
    assert (Hc : exists c, In c (candidates m base) /\ dir = Clean c).
    { destruct Hd as [->|(entries & name & He & Hin & Hdot & ->)]; [exists base; split; [by left|done]|].
      exists (Join [base; name]). split; [|done]. right. rewrite He. apply list_elem_of_In, list_elem_of_omap.
      exists (name, TDir). split; [by apply list_elem_of_In|].
      cbn [fst snd]. by rewrite Hdot. }
    destruct Hc as (c & Hc & ->). exists c. split; [done|]. unfold scan_custom. rewrite Hsafe, Ho. cbn [negb].
    replace (pw_UID u <=? 0) with false by lia. rewrite (first_owner _ _ Hfirst), Hv. by eapply script_scanned.
Qed.
End Found.

(** C15: a discovery that can read the accounts ends, and what it lists are servers: executable
    LinuxGSM scripts in permitted directories, of accounts that are not root, found in the home
    of the account or, in a configured directory, only where directory and script belong to the
    account.  It misses none: every executable LinuxGSM script with a valid name in a home
    directory it may read, and every such script of the owner of a configured directory, or of
    one in it, is listed under its path ([must_list]).  No two servers have the same path or the
    same ID, and none has the status of a running update.  The list is one the assignment of
    stable IDs accepts. *)
Theorem discovery_lists_servers m later files works state customPaths users :
  readPasswd (m_passwd m) = Some users ->
  let scanned := (scan_homes m later files works users ++
    flat_map (fun base => flat_map (scan_custom m later files works users) (candidates m base)) customPaths)%list in
  Z.of_nat (length scanned) < 2 ^ 62 ->
  exists l, Discover m later files works state customPaths = Servers l /\
    NoDup (map (fun d => id_of d) l) /\ host_found (map dt_srv l) /\
    Forall (fun d => server_of m later users customPaths d /\ lv_Status (dt_live d) <> "updating") l /\
    (forall u dir script, must_list m later users customPaths u dir script -> exists d, In d l /\ key d = Join [dir; script]).
Proof.
  intros Hu scanned Hsz. unfold Discover. rewrite Hu. fold scanned.
  assert (Hok : search_ok (mkSearch [] ∅ ∅)) by (split; cbn; try constructor; try done; set_solver).
  destruct (add_all_ok scanned _ Hok Hsz) as (st & -> & [H1 H2 _ _ H5 _] & _ & Hk & Hfrom).
  assert (Hsrv : forall d, dt_srv (with_status state d) = dt_srv d) by (intros d; unfold with_status, dt_srv; by destruct (state _)).
  eexists. split; [reflexivity|]. rewrite !map_map. split_and!.
  - erewrite map_ext; [exact H1|]. intros d. by rewrite Hsrv.
  - split.
    + apply Forall_forall. intros x Hx%list_elem_of_In. apply in_map_iff in Hx as (d & <- & Hd). rewrite Hsrv.
      destruct (Hfrom d Hd) as [[]|(d0 & Hd0 & E)]. rewrite E. by destruct (scanned_server _ _ _ _ _ _ _ Hd0).
    + rewrite map_map. erewrite map_ext; [exact H2|]. intros d. by rewrite Hsrv.
  - apply Forall_forall. intros x Hx%list_elem_of_In. apply in_map_iff in Hx as (d & <- & Hd).
    destruct (Hfrom d Hd) as [[]|(d0 & Hd0 & E)]. pose proof (scanned_server _ _ _ _ _ _ _ Hd0) as [S1 S2 S3 S4].
    assert (Hst : lv_Status (dt_live d0) = "stopped").
    { clear - Hd0. apply in_app_or in Hd0 as [H|H].
      - apply in_flat_map in H as (u & _ & H). destruct (isDiscoverableHome u); [|done]. by apply scan_dir_In in H as (s & -> & _).
      - apply in_flat_map in H as (b & _ & (dir & _ & H)%in_flat_map). unfold scan_custom in H.
        repeat case_match; try done; by apply scan_dir_In in H as (s & -> & _). }
    rewrite E. split.
    + split; rewrite ?Hsrv; [|done|done|done]. destruct S1 as (u & S1). exists u.
      unfold with_status, dt_srv in *. destruct (state _); exact S1.
    + unfold with_status. cbn [dt_live]. destruct (state _); cbn; congruence.
  - intros u dir script Hd%(must_list_scanned m later files works). destruct (H5 _ (Hk _ Hd)) as (d' & Hd' & E).
    exists (with_status state d'). split; [by apply in_map|]. by rewrite Hsrv, E.
Qed.

(** Two accounts with the same script, and a configured directory of one of them. *)
Definition two_homes : machine := mkMachine
  (Some (lines_text ["root:x:0:0:root:/root:/bin/bash"; "a:x:1001:1001::/home/a:/bin/bash"; "b:x:1002:1002::/home/b:/bin/bash"]))
  None
  (fun p => if has_prefix p "/home/a/" then demo_info TRegular 1001
            else if has_prefix p "/home/b/" || String.eqb p "/srv/b/vhserver" then demo_info TRegular 1002
            else if String.eqb p "/srv/b" then demo_info TDir 1002 else if String.eqb p "/srv" then demo_info TDir 0 else Missing)
  (fun p => if mem p ["/home/a"; "/home/b"; "/srv/b"] then Some [("linuxgsm.sh", TRegular); ("lgsm", TDir); ("vhserver", TRegular)]
            else if String.eqb p "/srv" then Some [("b", TDir); (".x", TDir)] else None)
  (fun p => Some "#!/bin/bash # LinuxGSM") Some.
Definition no_files : game_files := mkFiles (fun _ _ => ∅) (fun _ => None) (fun _ => None) (fun _ s => s) (fun _ _ => "vh").
Definition demo_discovery : discovery :=
  Discover two_homes two_homes no_files (fun _ => true) (fun srv => if String.eqb (i_User srv) "b" then tmuxActive else tmuxAbsent) ["/srv"].
Example discovery_example :
  match demo_discovery with
  | Servers l => map (fun d => (id_of d, i_Dir (dt_srv d), lv_Status (dt_live d))) l
  | _ => []
  end = [("vhserver", "/home/a", "stopped"); ("vhserver@b", "/home/b", "running"); ("vhserver@b-2", "/srv/b", "running")].
Proof. vm_compute. reflexivity. Qed.
Definition demo_owner : passwdEntry := mkEntry "b" 1002 1002 "/home/b".
Lemma demo_must_list users : readPasswd (m_passwd two_homes) = Some users ->
  must_list two_homes two_homes users ["/srv"] demo_owner "/srv/b" "vhserver".
Proof.
  intros E. vm_compute in E. injection E as <-. split; [reflexivity|]. split; [reflexivity|].
  exists (mkInfo TRegular 1002 10 0x1ed). split.
  - unfold script_at. split_and!; [|reflexivity|discriminate|reflexivity|reflexivity|vm_compute; discriminate|reflexivity].
    eexists _, TRegular. split_and!; [reflexivity|right; right; by left|discriminate].
  - right. split; [|reflexivity]. unfold configured_of. split_and!; [|reflexivity|reflexivity|].
    + exists "/srv". split; [by left|right]. eexists _, "b". split_and!; [reflexivity|by left|reflexivity|reflexivity].
    + eexists [_; _], []. split; [reflexivity|]. repeat constructor; vm_compute; discriminate.
Qed.
Lemma discovery_lists_servers_witness :
  exists l, demo_discovery = Servers l /\ NoDup (map (fun d => id_of d) l) /\ exists d, In d l /\ key d = "/srv/b/vhserver".
Proof.
  destruct (readPasswd (m_passwd two_homes)) as [users|] eqn:E; [|discriminate E].
  destruct (discovery_lists_servers two_homes two_homes no_files (fun _ => true)
    (fun srv => if String.eqb (i_User srv) "b" then tmuxActive else tmuxAbsent) ["/srv"] users E
    ltac:(vm_compute in E; injection E as <-; vm_compute; reflexivity)) as (l & Hl & Hn & _ & _ & Hc).
  exists l. split; [exact Hl|]. split; [exact Hn|]. exact (Hc _ _ _ (demo_must_list users E)).
Defined.

(** A link that leads out of the directory, or to a file of another account, is not replaced; the
    copy is made as the owner and the link stays until the copy is complete. *)
Lemma link_replaced_safely m works dir path owner : convertScriptSymlink m works dir path owner <> [] ->
  exists target root, m_eval m path = Some target /\ m_eval m dir = Some root /\ IsWithin root target = true /\
    isLinuxGSMScript (m_head m target) = true /\ (forall uid, lfileOwnerUID m target = Some uid -> uid < 0 \/ uid = pw_UID owner) /\
    forall c, In c (convertScriptSymlink m works dir path owner) ->
      exists args, c = "runuser" :: "-u" :: pw_Name owner :: "--" :: args /\
        (hd "" args = "mv" -> works ("runuser" :: "-u" :: pw_Name owner :: "--" :: ["cp"; "-p"; "--"; target; path +:+ ".lgsm-dashboard-copy"]) = true).
Proof.
  unfold convertScriptSymlink. destruct (m_eval m path) as [target|] eqn:Et; [|done]. destruct (m_eval m dir) as [root|] eqn:Er; [|done].
  destruct (IsWithin root target) eqn:Ew; [|done]. destruct (isLinuxGSMScriptAt m target) eqn:Es; [|done]. cbn [negb orb].
  destruct (lfileOwnerUID m target) as [uid|] eqn:Eu; [|done].
  destruct ((0 <=? uid) && negb (uid =? pw_UID owner)) eqn:Eo; [done|]. intros _. exists target, root. split_and!; try done.
  - intros u Hu. rewrite Eu in Hu. injection Hu as <-. lia.
  - set (tmp := path +:+ ".lgsm-dashboard-copy"). set (cp := ["runuser"; "-u"; pw_Name owner; "--"; "cp"; "-p"; "--"; target; tmp]).
    intros c Hc. destruct (works cp) eqn:Ecp; cbn [negb] in Hc.
    + assert (Hl : exists args, c = "runuser" :: "-u" :: pw_Name owner :: "--" :: args).
      { repeat case_match; cbn [In] in Hc; repeat destruct Hc as [<-|Hc]; try done; eexists; reflexivity. }
      destruct Hl as [args ->]. by exists args.
    + destruct Hc as [<-|[<-|[]]]; eexists; (split; [reflexivity|]); discriminate.
Qed.
