(* ===== verification/ProxyFirewall.v ===== *)
(** * Firewall rules of the proxy (backend/proxy_rules.go)

    The nftables rules a proxy machine and a node load: the text the program renders, rules as
    data with the meaning nft(8) documents for the statements used, the proof that the text is
    that of the rules, and what the rules let through. *)

From Stdlib Require Import ZArith Lia Bool String Ascii List.
From stdpp Require Import base gmap strings list.
From S2P Require Import Prelude GoStrings Validate GoNet Cfg ProxyRules.

(** ** The text *)

Definition proxyInterface : string := "wg-lgsm".
Definition proxyTableProxy : string := "lgsm_proxy".
Definition proxyTableNode : string := "lgsm_node".
Definition proxyFlowMark : string := "0x77".
Definition proxyNoEgress : string :=
  "{ 0.0.0.0/8, 10.0.0.0/8, 100.64.0.0/10, 127.0.0.0/8, 169.254.0.0/16, 172.16.0.0/12, 192.168.0.0/16, 224.0.0.0/4, 240.0.0.0/4 }".
Definition proxyNewFlowLimit : string := "rate over 30/second burst 60 packets".
Definition proxyEgressNewLimit : string := "rate over 100/second burst 200 packets".

(** [%q] of an interface name, which holds no byte that would be escaped. *)
Definition quoted (s : string) : string := dq +:+ s +:+ dq.
Definition wg : string := quoted proxyInterface.

(** The lines, each of which is written with a line feed. *)
Definition replaceTable (name : string) (body : list string) : list string :=
  (["table inet " +:+ name +:+ " {}"; "delete table inet " +:+ name; "table inet " +:+ name +:+ " {"] ++ body ++ ["}"])%list.
Definition render_lines (lines : list string) : string := fold_right (fun l acc => l +:+ byte_str newline +:+ acc) "" lines.

Definition set_lines (forwards : list ProxyForward) (f : string -> string -> string) : list string :=
  omap (fun proto => let set := portSet forwards proto in if String.eqb set "" then None else Some (f proto set)) ["udp"; "tcp"].
Definition pre_lines (iface : string) (peer : ProxyPeer) : list string :=
  set_lines (p_Forwards peer) (fun proto set =>
    "    iifname " +:+ quoted iface +:+ " " +:+ proto +:+ " dport " +:+ set +:+ " dnat ip to " +:+ p_TunnelIP peer).
Definition fwd_lines (iface : string) (peer : ProxyPeer) : list string :=
  set_lines (p_Forwards peer) (fun proto set =>
    "    iifname " +:+ quoted iface +:+ " oifname " +:+ wg +:+ " ip daddr " +:+ p_TunnelIP peer +:+ " " +:+ proto +:+ " dport " +:+ set +:+ " accept").
Definition egress_lines (iface : string) (peer : ProxyPeer) : list string :=
  if p_Egress peer then
    let way := "    iifname " +:+ wg +:+ " oifname " +:+ quoted iface +:+ " ip saddr " +:+ p_TunnelIP peer in
    [way +:+ " ip daddr " +:+ proxyNoEgress +:+ " drop"; way +:+ " ct state new limit " +:+ proxyEgressNewLimit +:+ " drop"; way +:+ " accept"]
  else [].
Definition snat_lines (iface : string) (peer : ProxyPeer) : list string :=
  if p_Egress peer then ["    oifname " +:+ quoted iface +:+ " ip saddr " +:+ p_TunnelIP peer +:+ " masquerade"] else [].

Definition proxy_lines (s : ProxySide) (iface : string) : list string :=
  let snat := flat_map (snat_lines iface) (Peers s) in
  replaceTable proxyTableProxy
    (["  set s_flows {"; "    type ipv4_addr; size 65535; flags dynamic,timeout; timeout 1m;"; "  }";
      "  chain c_in {"; "    type filter hook input priority filter; policy accept;";
      "    iifname " +:+ wg +:+ " ct state established,related accept";
      "    iifname " +:+ wg +:+ " meta l4proto icmp accept"; "    iifname " +:+ wg +:+ " drop"; "  }";
      "  chain c_pre {"; "    type nat hook prerouting priority dstnat; policy accept;"] ++ flat_map (pre_lines iface) (Peers s) ++ ["  }";
      "  chain c_fwd {"; "    type filter hook forward priority filter; policy accept;";
      "    iifname " +:+ wg +:+ " tcp flags syn tcp option maxseg size set rt mtu";
      "    oifname " +:+ wg +:+ " tcp flags syn tcp option maxseg size set rt mtu";
      "    iifname " +:+ wg +:+ " ct state established,related accept";
      "    oifname " +:+ wg +:+ " ct state established,related accept";
      "    iifname " +:+ quoted iface +:+ " oifname " +:+ wg +:+ " ct state new add @s_flows { ip saddr limit " +:+ proxyNewFlowLimit +:+ " } drop"] ++
      flat_map (fwd_lines iface) (Peers s) ++ flat_map (egress_lines iface) (Peers s) ++
     ["    iifname " +:+ wg +:+ " drop"; "    oifname " +:+ wg +:+ " drop"; "  }"] ++
     match snat with
     | [] => []
     | _ => ["  chain c_snat {"; "    type nat hook postrouting priority srcnat; policy accept;"] ++ snat ++ ["  }"]
     end)%list.
Definition renderProxyRules (s : ProxySide) (iface : string) : string := render_lines (proxy_lines s iface).

Definition node_lines (s : NodeSide) (targetIP : string) (egressUIDs : list Z) : list string :=
  let users := "{ " +:+ join ", " (map itoa egressUIDs) +:+ " }" in
  let route := "    ct mark " +:+ proxyFlowMark +:+ " meta mark set " +:+ proxyFlowMark in
  replaceTable proxyTableNode
    (["  chain c_in {"; "    type filter hook input priority filter; policy accept;";
      "    iifname " +:+ wg +:+ " ct state established,related accept"] ++
      set_lines (n_Forwards s) (fun proto set => "    iifname " +:+ wg +:+ " " +:+ proto +:+ " dport " +:+ set +:+ " accept") ++
     ["    iifname " +:+ wg +:+ " meta l4proto icmp accept"; "    iifname " +:+ wg +:+ " drop"; "  }";
      "  chain c_mangle {"; "    type filter hook prerouting priority mangle; policy accept;";
      "    iifname " +:+ wg +:+ " ct state new ct mark set " +:+ proxyFlowMark; "  }";
      "  chain c_out {"; "    type route hook output priority mangle; policy accept;"; "    meta mark " +:+ proxyTunnelMark +:+ " return"] ++
     match egressUIDs with
     | [] => [route; "  }"]
     | _ =>
       ["    ct state new meta skuid " +:+ users +:+ " ip daddr != " +:+ proxyNoEgress +:+ " ct mark set " +:+ proxyFlowMark; route; "  }";
        "  chain c_out6 {"; "    type filter hook output priority filter; policy accept;"; "    meta mark " +:+ proxyTunnelMark +:+ " return";
        "    meta nfproto ipv6 meta skuid " +:+ users +:+ " ip6 daddr != { ::1, fe80::/10, fc00::/7 } reject"; "  }";
        "  chain c_snat {"; "    type nat hook postrouting priority srcnat; policy accept;";
        "    oifname " +:+ wg +:+ " ip saddr != " +:+ n_TunnelIP s +:+ " snat ip to " +:+ n_TunnelIP s; "  }";
        "  chain c_mss {"; "    type filter hook postrouting priority mangle; policy accept;";
        "    oifname " +:+ wg +:+ " tcp flags syn tcp option maxseg size set rt mtu"; "  }"]
     end ++
     ["  chain c_nat {"; "    type nat hook prerouting priority dstnat; policy accept;"] ++
      set_lines (n_Forwards s) (fun proto set => "    iifname " +:+ wg +:+ " " +:+ proto +:+ " dport " +:+ set +:+ " dnat ip to " +:+ targetIP) ++
     ["  }"])%list.
Definition renderNodeRules (s : NodeSide) (targetIP : string) (egressUIDs : list Z) : string := render_lines (node_lines s targetIP egressUIDs).

(** ** Rules as data *)

(** The tests and statements the rules are made of, with their notation in nft(8). *)
Inductive test :=
| TIif (iface : string) | TOif (iface : string) | TSaddr (ip : string) | TNotSaddr (ip : string) | TDaddr (ip : string)
| TPrivate | TPublic | TPorts (proto : string) (ports : list Z) | TSyn | TEstablished | TNew | TIcmp
| TFlood | TRate (limit : string) | TMark (mark : string) | TCtMark (mark : string) | TUsers (uids : list Z) | TIPv6 | TPublic6.
Inductive action :=
| AAccept | ADrop | AReject | AReturn | ADnat (ip : string) | ASnat (ip : string) | AMasquerade
| ASetCtMark (mark : string) | ASetMark (mark : string) | AClamp.
Record rule := mkRule { tests : list test; act : action }.
Record chain := mkChain { c_name : string; c_hook : string; c_rules : list rule }.

Definition show_ints (l : list Z) : string := "{ " +:+ join ", " (map itoa l) +:+ " }".
Definition show_test (t : test) : string :=
  match t with
  | TIif i => "iifname " +:+ quoted i
  | TOif i => "oifname " +:+ quoted i
  | TSaddr ip => "ip saddr " +:+ ip
  | TNotSaddr ip => "ip saddr != " +:+ ip
  | TDaddr ip => "ip daddr " +:+ ip
  | TPrivate => "ip daddr " +:+ proxyNoEgress
  | TPublic => "ip daddr != " +:+ proxyNoEgress
  | TPorts proto ports => proto +:+ " dport " +:+ show_ints ports
  | TSyn => "tcp flags syn"
  | TEstablished => "ct state established,related"
  | TNew => "ct state new"
  | TIcmp => "meta l4proto icmp"
  | TFlood => "add @s_flows { ip saddr limit " +:+ proxyNewFlowLimit +:+ " }"
  | TRate limit => "limit " +:+ limit
  | TMark m => "meta mark " +:+ m
  | TCtMark m => "ct mark " +:+ m
  | TUsers uids => "meta skuid " +:+ show_ints uids
  | TIPv6 => "meta nfproto ipv6"
  | TPublic6 => "ip6 daddr != { ::1, fe80::/10, fc00::/7 }"
  end.
Definition show_action (a : action) : string :=
  match a with
  | AAccept => "accept" | ADrop => "drop" | AReject => "reject" | AReturn => "return"
  | ADnat ip => "dnat ip to " +:+ ip | ASnat ip => "snat ip to " +:+ ip | AMasquerade => "masquerade"
  | ASetCtMark m => "ct mark set " +:+ m | ASetMark m => "meta mark set " +:+ m
  | AClamp => "tcp option maxseg size set rt mtu"
  end.
Definition show_rule (r : rule) : string :=
  "    " +:+ fold_right (fun t acc => show_test t +:+ " " +:+ acc) (show_action (act r)) (tests r).
Definition show_chain (c : chain) : list string :=
  (["  chain " +:+ c_name c +:+ " {"; "    type " +:+ c_hook c +:+ "; policy accept;"] ++ map show_rule (c_rules c) ++ ["  }"])%list.

Definition port_rules (forwards : list ProxyForward) (f : test -> rule) : list rule :=
  omap (fun proto => match ports_of forwards proto with [] => None | ports => Some (f (TPorts proto (sort_ints ports))) end) ["udp"; "tcp"].

Definition proxy_input : list rule :=
  [mkRule [TIif proxyInterface; TEstablished] AAccept; mkRule [TIif proxyInterface; TIcmp] AAccept; mkRule [TIif proxyInterface] ADrop].
Definition proxy_prerouting (s : ProxySide) (iface : string) : list rule :=
  flat_map (fun p => port_rules (p_Forwards p) (fun t => mkRule [TIif iface; t] (ADnat (p_TunnelIP p)))) (Peers s).
Definition to_peer (iface : string) (p : ProxyPeer) : list rule :=
  port_rules (p_Forwards p) (fun t => mkRule [TIif iface; TOif proxyInterface; TDaddr (p_TunnelIP p); t] AAccept).
Definition from_peer (iface : string) (p : ProxyPeer) : list rule :=
  if p_Egress p then
    let way := [TIif proxyInterface; TOif iface; TSaddr (p_TunnelIP p)] in
    [mkRule (way ++ [TPrivate]) ADrop; mkRule (way ++ [TNew; TRate proxyEgressNewLimit]) ADrop; mkRule way AAccept]%list
  else [].
Definition proxy_forward (s : ProxySide) (iface : string) : list rule :=
  ([mkRule [TIif proxyInterface; TSyn] AClamp; mkRule [TOif proxyInterface; TSyn] AClamp;
    mkRule [TIif proxyInterface; TEstablished] AAccept; mkRule [TOif proxyInterface; TEstablished] AAccept;
    mkRule [TIif iface; TOif proxyInterface; TNew; TFlood] ADrop] ++
   flat_map (to_peer iface) (Peers s) ++ flat_map (from_peer iface) (Peers s) ++
   [mkRule [TIif proxyInterface] ADrop; mkRule [TOif proxyInterface] ADrop])%list.
Definition proxy_snat (s : ProxySide) (iface : string) : list rule :=
  flat_map (fun p => if p_Egress p then [mkRule [TOif iface; TSaddr (p_TunnelIP p)] AMasquerade] else []) (Peers s).
Definition proxy_chains (s : ProxySide) (iface : string) : list chain :=
  ([mkChain "c_in" "filter hook input priority filter" proxy_input;
    mkChain "c_pre" "nat hook prerouting priority dstnat" (proxy_prerouting s iface);
    mkChain "c_fwd" "filter hook forward priority filter" (proxy_forward s iface)] ++
   match proxy_snat s iface with
   | [] => []
   | rules => [mkChain "c_snat" "nat hook postrouting priority srcnat" rules]
   end)%list.

Definition node_input (s : NodeSide) : list rule :=
  (mkRule [TIif proxyInterface; TEstablished] AAccept ::
   port_rules (n_Forwards s) (fun t => mkRule [TIif proxyInterface; t] AAccept) ++
   [mkRule [TIif proxyInterface; TIcmp] AAccept; mkRule [TIif proxyInterface] ADrop])%list.
Definition node_mangle : list rule := [mkRule [TIif proxyInterface; TNew] (ASetCtMark proxyFlowMark)].
Definition node_output (uids : list Z) : list rule :=
  (mkRule [TMark proxyTunnelMark] AReturn ::
   (match uids with [] => [] | _ => [mkRule [TNew; TUsers uids; TPublic] (ASetCtMark proxyFlowMark)] end) ++
   [mkRule [TCtMark proxyFlowMark] (ASetMark proxyFlowMark)])%list.
Definition node_output6 (uids : list Z) : list rule :=
  [mkRule [TMark proxyTunnelMark] AReturn; mkRule [TIPv6; TUsers uids; TPublic6] AReject].
Definition node_snat (s : NodeSide) : list rule :=
  [mkRule [TOif proxyInterface; TNotSaddr (n_TunnelIP s)] (ASnat (n_TunnelIP s))].
Definition node_nat (s : NodeSide) (targetIP : string) : list rule :=
  port_rules (n_Forwards s) (fun t => mkRule [TIif proxyInterface; t] (ADnat targetIP)).
Definition node_chains (s : NodeSide) (targetIP : string) (uids : list Z) : list chain :=
  ([mkChain "c_in" "filter hook input priority filter" (node_input s);
    mkChain "c_mangle" "filter hook prerouting priority mangle" node_mangle;
    mkChain "c_out" "route hook output priority mangle" (node_output uids)] ++
   match uids with
   | [] => []
   | _ => [mkChain "c_out6" "filter hook output priority filter" (node_output6 uids);
           mkChain "c_snat" "nat hook postrouting priority srcnat" (node_snat s);
           mkChain "c_mss" "filter hook postrouting priority mangle" [mkRule [TOif proxyInterface; TSyn] AClamp]]
   end ++
   [mkChain "c_nat" "nat hook prerouting priority dstnat" (node_nat s targetIP)])%list.

(** *** The text is that of the rules *)

Lemma set_lines_rules forwards f g :
  (forall proto ports, g proto (show_ints ports) = show_rule (f (TPorts proto ports))) ->
  set_lines forwards g = map show_rule (port_rules forwards f).
Proof.
  intros H. unfold set_lines, port_rules. cbn [omap list_omap]. unfold portSet.
  assert (Hone : forall proto, (if String.eqb (match ports_of forwards proto with [] => "" | ports => show_ints (sort_ints ports) end) "" then None
     else Some (g proto (match ports_of forwards proto with [] => "" | ports => show_ints (sort_ints ports) end))) =
     option_map show_rule (match ports_of forwards proto with [] => None | ports => Some (f (TPorts proto (sort_ints ports))) end)).
  { intros proto. destruct (ports_of forwards proto) as [|x l]; [done|]. unfold option_map. rewrite <- H. done. }
  unfold show_ints in Hone. rewrite !Hone.
  destruct (ports_of forwards "udp"), (ports_of forwards "tcp"); reflexivity.
Qed.
Lemma flat_map_show {A} (f : A -> list string) (g : A -> list rule) l :
  (forall x, f x = map show_rule (g x)) -> flat_map f l = map show_rule (flat_map g l).
Proof. intros H. induction l as [|x l IH]; [done|]. cbn [flat_map]. by rewrite H, IH, map_app. Qed.

Ltac same_text :=
  unfold show_rule; cbn [tests act fold_right show_test show_action map app]; unfold wg, quoted; rewrite ?string_app_assoc; reflexivity.

Lemma proxy_text s iface : proxy_lines s iface = replaceTable proxyTableProxy
  (["  set s_flows {"; "    type ipv4_addr; size 65535; flags dynamic,timeout; timeout 1m;"; "  }"] ++
   flat_map show_chain (proxy_chains s iface))%list.
Proof.
  assert (Hpre : flat_map (pre_lines iface) (Peers s) = map show_rule (proxy_prerouting s iface)).
  { apply flat_map_show. intros p. apply set_lines_rules. intros proto ports. same_text. }
  assert (Hfwd : flat_map (fwd_lines iface) (Peers s) = map show_rule (flat_map (to_peer iface) (Peers s))).
  { apply flat_map_show. intros p. apply set_lines_rules. intros proto ports. same_text. }
  assert (Heg : flat_map (egress_lines iface) (Peers s) = map show_rule (flat_map (from_peer iface) (Peers s))).
  { apply flat_map_show. intros p. unfold egress_lines, from_peer. destruct (p_Egress p); [|done]. same_text. }
  assert (Hsn : flat_map (snat_lines iface) (Peers s) = map show_rule (proxy_snat s iface)).
  { apply flat_map_show. intros p. unfold snat_lines. destruct (p_Egress p); [|done]. same_text. }
  unfold proxy_lines. rewrite Hpre, Hfwd, Heg, Hsn. cbv zeta. f_equal. unfold proxy_chains.
  assert (Hs : (match map show_rule (proxy_snat s iface) with [] => []
     | _ => ["  chain c_snat {"; "    type nat hook postrouting priority srcnat; policy accept;"] ++ map show_rule (proxy_snat s iface) ++ ["  }"] end =
     flat_map show_chain (match proxy_snat s iface with [] => [] | rules => [mkChain "c_snat" "nat hook postrouting priority srcnat" rules] end))%list)
    by (destruct (proxy_snat s iface); [done|]; cbn [flat_map]; by rewrite app_nil_r).
  rewrite Hs, flat_map_app. clear Hpre Hfwd Heg Hsn Hs. set (snat := flat_map show_chain (match proxy_snat s iface with [] => _ | _ => _ end)).
  unfold proxy_forward. cbn [flat_map]. unfold show_chain. cbn [c_name c_hook c_rules]. rewrite !map_app, <- !app_assoc. cbn [app map].
  rewrite <- ?app_assoc. cbn [app map]. same_text.
Qed.
Lemma node_text s targetIP uids : node_lines s targetIP uids = replaceTable proxyTableNode (flat_map show_chain (node_chains s targetIP uids)).
Proof.
  assert (Hin : set_lines (n_Forwards s) (fun proto set => "    iifname " +:+ wg +:+ " " +:+ proto +:+ " dport " +:+ set +:+ " accept") =
    map show_rule (port_rules (n_Forwards s) (fun t => mkRule [TIif proxyInterface; t] AAccept))) by (apply set_lines_rules; intros; same_text).
  assert (Hnat : set_lines (n_Forwards s) (fun proto set => "    iifname " +:+ wg +:+ " " +:+ proto +:+ " dport " +:+ set +:+ " dnat ip to " +:+ targetIP) =
    map show_rule (node_nat s targetIP)) by (apply set_lines_rules; intros; same_text).
  unfold node_lines. rewrite Hin, Hnat. cbv zeta. f_equal. change ("{ " +:+ join ", " (map itoa uids) +:+ " }") with (show_ints uids).
  unfold node_chains, node_input. clear Hin Hnat.
  destruct uids as [|u uids]; unfold node_output, node_output6, node_mangle, node_snat; cbn [flat_map app]; unfold show_chain;
    cbn [c_name c_hook c_rules map app]; rewrite !map_app; cbn [map app]; rewrite <- ?app_assoc; cbn [app]; same_text.
Qed.

(** ** What the rules do *)

Inductive ct_state := New | Established | Invalid.
(** A packet as the hooks of nftables see it: the interfaces, addresses (four bytes), the
    connection it belongs to, its marks and, for packets of this machine, the user. *)
Record packet := mkPacket {
  k_iif : string; k_oif : string; k_v6 : bool; k_proto : string; k_dport : Z; k_syn : bool; k_saddr : list Z; k_daddr : list Z;
  k_local6 : bool; k_state : ct_state; k_ctmark : string; k_mark : string; k_uid : Z }.
Definition with_daddr (a : list Z) (k : packet) : packet :=
  mkPacket (k_iif k) (k_oif k) (k_v6 k) (k_proto k) (k_dport k) (k_syn k) (k_saddr k) a (k_local6 k) (k_state k) (k_ctmark k) (k_mark k) (k_uid k).
Definition with_saddr (a : list Z) (k : packet) : packet :=
  mkPacket (k_iif k) (k_oif k) (k_v6 k) (k_proto k) (k_dport k) (k_syn k) a (k_daddr k) (k_local6 k) (k_state k) (k_ctmark k) (k_mark k) (k_uid k).
Definition with_oif (i : string) (k : packet) : packet :=
  mkPacket (k_iif k) i (k_v6 k) (k_proto k) (k_dport k) (k_syn k) (k_saddr k) (k_daddr k) (k_local6 k) (k_state k) (k_ctmark k) (k_mark k) (k_uid k).
Definition with_marks (ct m : string) (k : packet) : packet :=
  mkPacket (k_iif k) (k_oif k) (k_v6 k) (k_proto k) (k_dport k) (k_syn k) (k_saddr k) (k_daddr k) (k_local6 k) (k_state k) ct m (k_uid k).

(** The address a rule names: nft(8) takes IPv4 in dotted notation after [ip]. *)
Definition dotted (ip : string) : bool := sall (fun c => is_digit c || Ascii.eqb c "."%char) ip.
Definition address (ip : string) : option (list Z) :=
  if dotted ip then match ParseIP ip with Some p => To4 p | None => None end else None.
Definition is_address (ip : string) (a : list Z) : bool := bool_decide (address ip = Some a).
(** The set [proxyNoEgress]. *)
Definition private_address (a : list Z) : bool :=
  match a with
  | [a; b; _; _] =>
      existsb (Z.eqb a) [0; 10; 127] || ((a =? 100) && (64 <=? b) && (b <=? 127)) || ((a =? 169) && (b =? 254))
      || ((a =? 172) && (16 <=? b) && (b <=? 31)) || ((a =? 192) && (b =? 168)) || (224 <=? a)
  | _ => false
  end.
Definition state_is (s : ct_state) (k : packet) : bool :=
  match s, k_state k with New, New | Established, Established | Invalid, Invalid => true | _, _ => false end.

Inductive verdict := Accept | Drop | Reject.

(** What the program relies on of nftables: [over] tells whether a packet exceeds a limit, [own]
    is the address of an interface, and a chain is evaluated as nft(8) says: the first rule that
    fits decides, statements that only change the packet go on, and a packet no rule decides about
    is accepted, the policy of every chain here. *)
Section Tests.
Context (over : string -> packet -> bool) (own : string -> list Z).
Definition holds (k : packet) (t : test) : bool :=
  match t with
  | TIif i => String.eqb (k_iif k) i
  | TOif i => String.eqb (k_oif k) i
  | TSaddr ip => negb (k_v6 k) && is_address ip (k_saddr k)
  | TNotSaddr ip => negb (k_v6 k) && negb (is_address ip (k_saddr k))
  | TDaddr ip => negb (k_v6 k) && is_address ip (k_daddr k)
  | TPrivate => negb (k_v6 k) && private_address (k_daddr k)
  | TPublic => negb (k_v6 k) && negb (private_address (k_daddr k))
  | TPorts proto ports => String.eqb (k_proto k) proto && existsb (Z.eqb (k_dport k)) ports
  | TSyn => String.eqb (k_proto k) "tcp" && k_syn k
  | TEstablished => state_is Established k
  | TNew => state_is New k
  | TIcmp => String.eqb (k_proto k) "icmp"
  | TFlood => negb (k_v6 k) && over proxyNewFlowLimit k
  | TRate limit => over limit k
  | TMark m => String.eqb (k_mark k) m
  | TCtMark m => String.eqb (k_ctmark k) m
  | TUsers uids => existsb (Z.eqb (k_uid k)) uids
  | TIPv6 => k_v6 k
  | TPublic6 => k_v6 k && negb (k_local6 k)
  end.
(** The verdict of a statement, or the packet it leaves for the next rule. A translation to an
    IPv4 address does nothing to other packets. *)
Definition perform (a : action) (k : packet) : verdict * packet + packet :=
  match a with
  | AAccept | AReturn => inl (Accept, k)
  | ADrop => inl (Drop, k)
  | AReject => inl (Reject, k)
  | ADnat ip => if k_v6 k then inr k else inl (Accept, match address ip with Some a => with_daddr a k | None => k end)
  | ASnat ip => if k_v6 k then inr k else inl (Accept, match address ip with Some a => with_saddr a k | None => k end)
  | AMasquerade => inl (Accept, with_saddr (own (k_oif k)) k)
  | ASetCtMark m => inr (with_marks m (k_mark k) k)
  | ASetMark m => inr (with_marks (k_ctmark k) m k)
  | AClamp => inr k
  end.
End Tests.

Class Nft := {
  over : string -> packet -> bool;
  own : string -> list Z;
  run : list rule -> packet -> verdict * packet;
  run_nil : forall k, run [] k = (Accept, k);
  run_cons : forall r rules k, run (r :: rules) k =
    if forallb (holds over k) (tests r) then
      match perform own (act r) k with inl res => res | inr k' => run rules k' end
    else run rules k }.

(** An interpreter with this behaviour. *)
Fixpoint interpret (over : string -> packet -> bool) (own : string -> list Z) (rules : list rule) (k : packet) : verdict * packet :=
  match rules with
  | [] => (Accept, k)
  | r :: rules =>
      if forallb (holds over k) (tests r) then
        match perform own (act r) k with inl res => res | inr k' => interpret over own rules k' end
      else interpret over own rules k
  end.
Definition interpreter (over : string -> packet -> bool) (own : string -> list Z) : Nft :=
  {| over := over; own := own; run := interpret over own; run_nil := fun _ => eq_refl; run_cons := fun _ _ _ => eq_refl |}.

(** *** Shared lemmas *)

(** The packets a server's rules are for. *)
Definition forwards_port (fs : list ProxyForward) (k : packet) : bool :=
  existsb (fun f => String.eqb (k_proto k) (Protocol f) && (k_dport k =? Port f)) fs.

Section Policy.
Context `{Nft}.
Local Abbreviation fits k := (fun r => forallb (holds over k) (tests r)).

Lemma run_one a rules rest k : Forall (fun r => act r = a) rules ->
  run (rules ++ rest) k =
  match perform own a k with
  | inl res => if existsb (fits k) rules then res else run rest k
  | inr _ => run (rules ++ rest) k
  end.
Proof.
  intros Ha. destruct (perform own a k) as [res|] eqn:E; [|done].
  induction Ha as [|r rules Hr Ha IH]; [done|]. cbn [app existsb]. rewrite run_cons, Hr, E.
  destruct (forallb _ _); [done|]. exact IH.
Qed.
Lemma run_pass a rules rest k : Forall (fun r => act r = a) rules -> perform own a k = inr k -> run (rules ++ rest) k = run rest k.
Proof.
  intros Ha E. induction Ha as [|r rules Hr Ha IH]; [done|]. cbn [app]. rewrite run_cons, Hr, E, IH. by destruct (forallb _ _).
Qed.
Lemma run_skip rules rest k : existsb (fits k) rules = false -> run (rules ++ rest) k = run rest k.
Proof.
  induction rules as [|r rules IH]; [done|]. cbn [app existsb]. rewrite orb_false_iff, run_cons. intros [-> Hr]. auto.
Qed.
Lemma sort_ints_existsb x l : existsb (Z.eqb x) (sort_ints l) = existsb (Z.eqb x) l.
Proof.
  assert (Hin : forall y m, existsb (Z.eqb x) (insert_int y m) = (x =? y) || existsb (Z.eqb x) m).
  { intros y m. induction m as [|z m IH]; [done|]. cbn [insert_int]. destruct (_ <=? _); cbn [existsb]; [done|].
    rewrite IH. destruct (x =? y), (x =? z); done. }
  induction l as [|y l IH]; [done|]. change (sort_ints (y :: l)) with (insert_int y (sort_ints l)). by rewrite Hin, IH.
Qed.
Lemma ports_of_existsb fs proto x :
  existsb (Z.eqb x) (ports_of fs proto) = existsb (fun f => String.eqb proto (Protocol f) && (x =? Port f)) fs.
Proof.
  unfold ports_of. induction fs as [|f fs IH]; [done|]. rewrite filter_cons. cbn [existsb]. rewrite <- IH.
  destruct (String.eqb_spec proto (Protocol f)) as [->|Hn]; [by rewrite decide_True|]. by rewrite decide_False by congruence.
Qed.
Lemma forwards_port_protocols fs k : Forall (fun f => Protocol f = "udp" \/ Protocol f = "tcp") fs ->
  forwards_port fs k = existsb (fun proto => String.eqb (k_proto k) proto && existsb (Z.eqb (k_dport k)) (ports_of fs proto)) ["udp"; "tcp"].
Proof.
  intros Hp. cbn [existsb]. rewrite !ports_of_existsb. unfold forwards_port. induction Hp as [|f fs Hf _ IH]; [by rewrite !andb_false_r|].
  cbn [existsb]. rewrite IH. clear IH.
  destruct (String.eqb_spec (k_proto k) "udp") as [E|N], (String.eqb_spec (k_proto k) "tcp") as [E'|N']; [by rewrite E in E'| | |];
    destruct Hf as [-> | ->]; rewrite ?E, ?E'; try apply String.eqb_neq in N; try apply String.eqb_neq in N';
    rewrite ?N, ?N'; cbn; by rewrite ?orb_false_r.
Qed.
(** Rules for a server's ports fit exactly the packets to one of them that pass the other tests. *)
Lemma port_rules_fit ts a fs k : Forall (fun f => Protocol f = "udp" \/ Protocol f = "tcp") fs ->
  existsb (fits k) (port_rules fs (fun t => mkRule (ts ++ [t]) a)) = forallb (holds over k) ts && forwards_port fs k.
Proof.
  intros Hp. rewrite forwards_port_protocols by done. unfold port_rules. cbn [omap list_omap existsb].
  assert (Hone : forall proto, existsb (fits k) (match (match ports_of fs proto with [] => None
      | ports => Some (mkRule (ts ++ [TPorts proto (sort_ints ports)]) a) end) with Some r => [r] | None => [] end) =
    forallb (holds over k) ts && (String.eqb (k_proto k) proto && existsb (Z.eqb (k_dport k)) (ports_of fs proto))).
  { intros proto. destruct (ports_of fs proto) as [|x l]; [by rewrite !andb_false_r|].
    cbn [existsb tests]. rewrite forallb_app. cbn [forallb holds]. by rewrite sort_ints_existsb, !andb_true_r, orb_false_r. }
  rewrite orb_false_r, andb_orb_distrib_r, <- !Hone.
  destruct (ports_of fs "udp"), (ports_of fs "tcp"); cbn [existsb]; by rewrite ?orb_false_r.
Qed.
Lemma port_rules_act ts a fs : Forall (fun r => act r = a) (port_rules fs (fun t => mkRule (ts ++ [t]) a)).
Proof. unfold port_rules. cbn [omap list_omap]. destruct (ports_of fs "udp"), (ports_of fs "tcp"); repeat constructor. Qed.

(** *** A node *)

(** What a node promises: from the tunnel only answers, the forwarded ports and ICMP are let in. *)
Definition node_accepts (s : NodeSide) (k : packet) : bool :=
  negb (String.eqb (k_iif k) proxyInterface) || state_is Established k || forwards_port (n_Forwards s) k || String.eqb (k_proto k) "icmp".
(** A connection an egress user opens to a public IPv4 address. *)
Definition egress_start (uids : list Z) (k : packet) : bool :=
  state_is New k && existsb (Z.eqb (k_uid k)) uids && negb (k_v6 k) && negb (private_address (k_daddr k)).
(** Packets that go on through the tunnel carry the flow mark. *)
Definition node_marks (uids : list Z) (k : packet) : packet :=
  if String.eqb (k_mark k) proxyTunnelMark then k
  else if egress_start uids k || String.eqb (k_ctmark k) proxyFlowMark then with_marks proxyFlowMark proxyFlowMark k else k.

Ltac eval_rules := rewrite ?run_cons, ?run_nil; cbn [tests act forallb holds perform].

Lemma node_input_run s k : Forall (fun f => Protocol f = "udp" \/ Protocol f = "tcp") (n_Forwards s) ->
  run (node_input s) k = (if node_accepts s k then Accept else Drop, k).
Proof.
  intros Hp. unfold node_input, node_accepts. eval_rules.
  rewrite (run_one AAccept) by apply (port_rules_act [TIif proxyInterface]).
  rewrite (port_rules_fit [TIif proxyInterface]) by done. eval_rules.
  destruct (String.eqb (k_iif k) proxyInterface), (state_is Established k), (forwards_port (n_Forwards s) k), (String.eqb (k_proto k) "icmp"); done.
Qed.
Lemma node_mangle_run k :
  run node_mangle k = (Accept, if String.eqb (k_iif k) proxyInterface && state_is New k then with_marks proxyFlowMark (k_mark k) k else k).
Proof. unfold node_mangle. eval_rules. destruct (String.eqb (k_iif k) proxyInterface), (state_is New k); cbn; by rewrite ?run_nil. Qed.
Lemma node_nat_run s ip k : Forall (fun f => Protocol f = "udp" \/ Protocol f = "tcp") (n_Forwards s) ->
  run (node_nat s ip) k = (Accept, match address ip with
    | Some a => if String.eqb (k_iif k) proxyInterface && forwards_port (n_Forwards s) k && negb (k_v6 k) then with_daddr a k else k
    | None => k end).
Proof.
  intros Hp. unfold node_nat. rewrite <- (app_nil_r (port_rules _ _)). pose proof (port_rules_act [TIif proxyInterface] (ADnat ip) (n_Forwards s)) as Ha.
  destruct (k_v6 k) eqn:E6.
  - rewrite (run_pass _ _ _ _ Ha), run_nil by (cbn; by rewrite E6). rewrite andb_false_r. by destruct (address ip).
  - rewrite (run_one _ _ _ _ Ha), (port_rules_fit [TIif proxyInterface]) by done. eval_rules. rewrite E6, !andb_true_r. by destruct (_ && _), (address ip).
Qed.
Lemma node_output_run uids k : run (node_output uids) k = (Accept, node_marks uids k).
Proof.
  unfold node_output, node_marks, egress_start. eval_rules. rewrite andb_true_r. destruct (String.eqb (k_mark k) proxyTunnelMark); [done|].
  assert (Hlast : forall k, run [mkRule [TCtMark proxyFlowMark] (ASetMark proxyFlowMark)] k =
    (Accept, if String.eqb (k_ctmark k) proxyFlowMark then with_marks (k_ctmark k) proxyFlowMark k else k)).
  { intros k'. eval_rules. rewrite andb_true_r. destruct (String.eqb _ _); by rewrite ?run_nil. }
  assert (Hsame : String.eqb (k_ctmark k) proxyFlowMark = true -> with_marks (k_ctmark k) proxyFlowMark k = with_marks proxyFlowMark proxyFlowMark k)
    by (intros ->%String.eqb_eq; done).
  destruct uids as [|u uids].
  - rewrite app_nil_l, Hlast. cbn [existsb]. rewrite andb_false_r. cbn [andb orb]. destruct (String.eqb _ _) eqn:E; [by rewrite Hsame|done].
  - cbn [app]. rewrite run_cons. cbn [tests act forallb holds perform]. rewrite !andb_true_r, <- !andb_assoc.
    destruct (_ && (_ && _)); rewrite Hlast; cbn [orb].
    + cbn [with_marks k_ctmark]. by rewrite String.eqb_refl.
    + destruct (String.eqb _ _) eqn:E; [by rewrite Hsame|done].
Qed.
Lemma node_output6_run uids k : run (node_output6 uids) k =
  (if negb (String.eqb (k_mark k) proxyTunnelMark) && k_v6 k && existsb (Z.eqb (k_uid k)) uids && negb (k_local6 k) then Reject else Accept, k).
Proof.
  unfold node_output6. eval_rules. destruct (String.eqb (k_mark k) proxyTunnelMark), (k_v6 k), (existsb _ _), (k_local6 k); done.
Qed.
Lemma node_snat_run s k : run (node_snat s) k =
  (Accept, match address (n_TunnelIP s) with
   | Some a => if String.eqb (k_oif k) proxyInterface && negb (k_v6 k) then with_saddr a k else k
   | None => k end).
Proof.
  unfold node_snat. eval_rules. unfold is_address. destruct (k_v6 k).
  { cbn [negb]. rewrite !andb_false_r. by destruct (address _). }
  destruct (address (n_TunnelIP s)) as [a|]; [|by destruct (_ && _)]. destruct (String.eqb (k_oif k) proxyInterface); [|done]. cbn [negb andb]. rewrite andb_true_r.
  case_bool_decide as Ha; [|done]. cbn. f_equal. injection Ha as ->. by destruct k.
Qed.

(** *** A proxy *)

Definition from_tunnel (k : packet) : bool := String.eqb (k_iif k) proxyInterface.
Definition to_tunnel (k : packet) : bool := String.eqb (k_oif k) proxyInterface.
(** A packet for a port of a node, with the address of that node. *)
Definition for_peer (k : packet) (p : ProxyPeer) : bool :=
  negb (k_v6 k) && is_address (p_TunnelIP p) (k_daddr k) && forwards_port (p_Forwards p) k.
(** A packet of a node that may use the address of the proxy. *)
Definition of_egress (k : packet) (p : ProxyPeer) : bool := p_Egress p && (negb (k_v6 k) && is_address (p_TunnelIP p) (k_saddr k)).
(** What a proxy promises: answers pass; a player reaches the forwarded ports of the node unless
    its source floods; a node whose traffic may leave reaches public addresses up to a rate;
    nothing else passes from or to the tunnel; and the rest of the host is left alone. *)
Definition proxy_passes (s : ProxySide) (iface : string) (k : packet) : bool :=
  if negb (from_tunnel k || to_tunnel k) then true
  else if state_is Established k then true
  else if String.eqb (k_iif k) iface && to_tunnel k then
    negb (state_is New k && negb (k_v6 k) && over proxyNewFlowLimit k) && existsb (for_peer k) (Peers s)
  else if from_tunnel k && String.eqb (k_oif k) iface then
    existsb (of_egress k) (Peers s) && negb (private_address (k_daddr k)) && negb (state_is New k && over proxyEgressNewLimit k)
  else false.

Definition known_protocols (fs : list ProxyForward) : Prop := Forall (fun f => Protocol f = "udp" \/ Protocol f = "tcp") fs.

Lemma proxy_input_run k :
  run proxy_input k = (if negb (from_tunnel k) || state_is Established k || String.eqb (k_proto k) "icmp" then Accept else Drop, k).
Proof.
  unfold proxy_input, from_tunnel. eval_rules. destruct (String.eqb (k_iif k) _), (state_is Established k), (String.eqb (k_proto k) "icmp"); done.
Qed.
(** The first node that forwards the port gets the packet. *)
Lemma proxy_pre_run peers iface k : Forall (fun p => known_protocols (p_Forwards p)) peers ->
  run (flat_map (fun p => port_rules (p_Forwards p) (fun t => mkRule [TIif iface; t] (ADnat (p_TunnelIP p)))) peers) k =
  (Accept, if String.eqb (k_iif k) iface && negb (k_v6 k) then
     match List.find (fun p => forwards_port (p_Forwards p) k) peers with
     | Some p => match address (p_TunnelIP p) with Some a => with_daddr a k | None => k end
     | None => k end
   else k).
Proof.
  intros Hp. induction Hp as [|p peers Hp _ IH]; cbn [flat_map List.find]; [rewrite run_nil; by destruct (_ && _)|].
  pose proof (port_rules_act [TIif iface] (ADnat (p_TunnelIP p)) (p_Forwards p)) as Ha. destruct (k_v6 k) eqn:E6.
  - rewrite (run_pass _ _ _ _ Ha), IH by (cbn; by rewrite E6). by rewrite !andb_false_r.
  - rewrite (run_one _ _ _ _ Ha), (port_rules_fit [TIif iface]) by done. cbn [perform forallb holds]. rewrite E6, IH, !andb_true_r.
    destruct (String.eqb (k_iif k) iface); [|done]. cbn [andb]. by destruct (forwards_port (p_Forwards p) k).
Qed.
Lemma to_peers_run peers iface rest k : Forall (fun p => known_protocols (p_Forwards p)) peers ->
  run (flat_map (to_peer iface) peers ++ rest) k =
  if String.eqb (k_iif k) iface && to_tunnel k && existsb (for_peer k) peers then (Accept, k) else run rest k.
Proof.
  intros Hp. induction Hp as [|p peers Hp _ IH]; [by rewrite andb_false_r|]. cbn [flat_map existsb]. rewrite <- app_assoc. unfold to_peer at 1.
  rewrite (run_one AAccept) by apply (port_rules_act [TIif iface; TOif proxyInterface; TDaddr (p_TunnelIP p)]).
  rewrite (port_rules_fit [TIif iface; TOif proxyInterface; TDaddr (p_TunnelIP p)]) by done. cbn [perform forallb holds]. rewrite IH.
  unfold for_peer at 2, to_tunnel. rewrite andb_true_r.
  destruct (String.eqb (k_iif k) iface), (String.eqb (k_oif k) _), (k_v6 k), (is_address _ _), (forwards_port _ _); done.
Qed.
Lemma from_peers_run peers iface rest k :
  run (flat_map (from_peer iface) peers ++ rest) k =
  if from_tunnel k && String.eqb (k_oif k) iface && existsb (of_egress k) peers then
    (if private_address (k_daddr k) || state_is New k && over proxyEgressNewLimit k then Drop else Accept, k)
  else run rest k.
Proof.
  induction peers as [|p peers IH]; [by rewrite andb_false_r|]. cbn [flat_map existsb]. rewrite <- app_assoc. unfold from_peer at 1, of_egress at 1.
  destruct (p_Egress p); [|exact IH]. cbn [app]. eval_rules. rewrite IH. unfold from_tunnel.
  destruct (String.eqb (k_iif k) _), (String.eqb (k_oif k) _), (k_v6 k), (is_address _ _), (private_address _), (state_is New k), (over _ _);
    try done; cbn; by destruct (existsb _ _).
Qed.
Lemma run_clamp ts rules k : run (mkRule ts AClamp :: rules) k = run rules k.
Proof. rewrite run_cons. cbn. by destruct (forallb _ _). Qed.
Lemma proxy_forward_run s iface k (Hi : iface <> proxyInterface) : Forall (fun p => known_protocols (p_Forwards p)) (Peers s) ->
  run (proxy_forward s iface) k = (if proxy_passes s iface k then Accept else Drop, k).
Proof.
  intros Hp. unfold proxy_forward. cbn [app].
  set (rest := (flat_map (to_peer iface) (Peers s) ++ _)%list).
  assert (Hrest : run rest k = if String.eqb (k_iif k) iface && to_tunnel k && existsb (for_peer k) (Peers s) then (Accept, k) else
    if from_tunnel k && String.eqb (k_oif k) iface && existsb (of_egress k) (Peers s) then
      (if private_address (k_daddr k) || state_is New k && over proxyEgressNewLimit k then Drop else Accept, k)
    else (if from_tunnel k || to_tunnel k then Drop else Accept, k)).
  { unfold rest. rewrite to_peers_run by done. rewrite from_peers_run. eval_rules. unfold from_tunnel, to_tunnel.
    by destruct (String.eqb (k_iif k) proxyInterface), (String.eqb (k_oif k) proxyInterface). }
  generalize dependent rest. intros rest Hrest.
  rewrite !run_clamp. eval_rules. rewrite Hrest. clear Hrest. rewrite ?andb_true_r.
  unfold proxy_passes, from_tunnel, to_tunnel.
  assert (Hne : String.eqb proxyInterface iface = false) by (apply String.eqb_neq; congruence).
  destruct (String.eqb_spec (k_iif k) proxyInterface) as [Ei|Ei], (String.eqb_spec (k_oif k) proxyInterface) as [Eo|Eo]; rewrite ?Ei, ?Eo, ?Hne;
    destruct (state_is Established k); cbn [andb orb negb]; rewrite ?andb_false_r; try done; cbn [andb orb negb].
  - destruct (String.eqb (k_oif k) iface), (existsb (of_egress k) _), (private_address _), (state_is New k), (over _ _); done.
  - destruct (String.eqb (k_iif k) iface), (state_is New k), (k_v6 k), (over _ _), (existsb (for_peer k) _); done.
Qed.
Lemma proxy_snat_run s iface k : run (proxy_snat s iface) k =
  (Accept, if String.eqb (k_oif k) iface && existsb (of_egress k) (Peers s) then with_saddr (own (k_oif k)) k else k).
Proof.
  unfold proxy_snat. induction (Peers s) as [|p peers IH]; [rewrite run_nil; by rewrite andb_false_r|]. cbn [flat_map existsb]. unfold of_egress at 1.
  destruct (p_Egress p); [|exact IH]. cbn [app]. eval_rules. rewrite IH, andb_true_r.
  destruct (String.eqb (k_oif k) iface); [|done]. cbn [andb]. by destruct (k_v6 k), (is_address _ _).
Qed.
End Policy.

(** ** What a valid plan's rules let through *)

Lemma tunnel_address ip : validTunnelIP ip = true -> dotted ip = true -> is_Some (address ip).
Proof.
  unfold validTunnelIP, address. intros Hv ->. destruct (ParseIP ip) as [p|]; [|done]. destruct (To4 p); [done|]. done.
Qed.
Lemma forwards_known fs lp : forwards_ok fs lp -> known_protocols fs.
Proof. intros (_ & Hf & _). apply (Forall_impl _ _ _ Hf). by intros f (? & _). Qed.
Lemma known_peers s lp : forwards_ok (flat_map p_Forwards (Peers s)) lp -> Forall (fun p => known_protocols (p_Forwards p)) (Peers s).
Proof.
  intros Hf%forwards_known. apply Forall_forall. intros p Hp%list_elem_of_In. apply Forall_forall. intros f Hin.
  apply (proj1 (Forall_forall _ _) Hf). apply list_elem_of_In, in_flat_map. exists p. split; [done|]. by apply list_elem_of_In.
Qed.
(** A port leads to one node. *)
Lemma forwards_to_one peers k p : NoDup (flat_map p_Forwards peers) -> In p peers -> forwards_port (p_Forwards p) k = true ->
  List.find (fun p => forwards_port (p_Forwards p) k) peers = Some p.
Proof.
  intros Hn Hp Hk. induction peers as [|q peers IH]; [done|]. cbn [flat_map List.find] in *. apply NoDup_app in Hn as (Hq & Hne & Hn).
  destruct Hp as [->|Hp]; [by rewrite Hk|]. destruct (forwards_port (p_Forwards q) k) eqn:Eq; [|auto].
  exfalso. unfold forwards_port in Hk, Eq. apply existsb_exists in Hk as (f & Hf & Ef), Eq as (g & Hg & Eg).
  apply andb_prop in Ef as [Ef1%String.eqb_eq Ef2%Z.eqb_eq], Eg as [Eg1%String.eqb_eq Eg2%Z.eqb_eq].
  assert (f = g) as -> by (destruct f, g; cbn in *; congruence).
  apply (Hne g); [by apply list_elem_of_In|]. apply list_elem_of_In, in_flat_map. by exists p.
Qed.

(** C6: the firewall of a proxy is its plan: the loaded text is that of the rules, a node reaches
    no service of its proxy except ICMP, a packet a player sends to a forwarded port of the public
    interface is redirected to the one node that forwards the port and passes unless its source
    floods, packets to other ports and interfaces are left as they are, forwarding passes exactly
    what the policy of a proxy allows, and exactly the traffic of the nodes that may use the
    address of the proxy leaves with that address. *)
Theorem proxy_rules_exact `{Nft} s iface k (Hv : Validate (mkPlan (Some s) None) = None)
    (Hd : Forall (fun p => dotted (p_TunnelIP p) = true) (Peers s)) (Hi : iface <> proxyInterface) :
  renderProxyRules s iface = render_lines (replaceTable proxyTableProxy
    (["  set s_flows {"; "    type ipv4_addr; size 65535; flags dynamic,timeout; timeout 1m;"; "  }"] ++
     flat_map show_chain (proxy_chains s iface))%list) /\
  run proxy_input k = (if negb (from_tunnel k) || state_is Established k || String.eqb (k_proto k) "icmp" then Accept else Drop, k) /\
  (forall p, In p (Peers s) -> forwards_port (p_Forwards p) k = true -> k_iif k = iface -> k_v6 k = false -> k_state k = New ->
    exists a, address (p_TunnelIP p) = Some a /\
      run (proxy_prerouting s iface) k = (Accept, with_daddr a k) /\
      let routed := with_oif proxyInterface (with_daddr a k) in
      run (proxy_forward s iface) routed = (if over proxyNewFlowLimit routed then Drop else Accept, routed)) /\
  (k_iif k <> iface \/ Forall (fun p => forwards_port (p_Forwards p) k = false) (Peers s) -> run (proxy_prerouting s iface) k = (Accept, k)) /\
  run (proxy_forward s iface) k = (if proxy_passes s iface k then Accept else Drop, k) /\
  run (proxy_snat s iface) k =
    (Accept, if String.eqb (k_oif k) iface && existsb (of_egress k) (Peers s) then with_saddr (own (k_oif k)) k else k).
Proof.
  apply validate_iff in Hv as (_ & _ & Hpeers & _ & Hf). pose proof (known_peers _ _ Hf) as Hk. destruct Hf as (_ & _ & Hn).
  split_and!; [unfold renderProxyRules; by rewrite proxy_text|apply proxy_input_run| | |by apply proxy_forward_run|apply proxy_snat_run].
  - intros p Hp Hfp Hif H6 Hst. pose proof (proj1 (List.Forall_forall _ _) Hpeers p Hp) as (_ & Hip & _).
    destruct (tunnel_address _ Hip (proj1 (List.Forall_forall _ _) Hd p Hp)) as [a Ha]. exists a. split; [done|]. split.
    + unfold proxy_prerouting. rewrite proxy_pre_run by done. rewrite Hif, String.eqb_refl, H6. cbn [andb negb].
      by rewrite (forwards_to_one _ _ _ Hn Hp Hfp), Ha.
    + cbn zeta. rewrite proxy_forward_run by done. f_equal. set (routed := with_oif _ _).
      assert (Hfor : existsb (for_peer routed) (Peers s) = true).
      { apply existsb_exists. exists p. split; [done|]. unfold for_peer, is_address. cbn. rewrite H6, Ha, bool_decide_true by done. exact Hfp. }
      unfold proxy_passes, from_tunnel, to_tunnel. rewrite Hfor. unfold state_is. cbn. rewrite Hif, Hst, H6, String.eqb_refl.
      rewrite orb_true_r. cbn. by destruct (over _ _).
  - intros Hno. unfold proxy_prerouting. rewrite proxy_pre_run by done. destruct Hno as [Hno|Hno].
    + by apply String.eqb_neq in Hno as ->.
    + assert (List.find (fun p => forwards_port (p_Forwards p) k) (Peers s) = None) as ->; [|by destruct (_ && _)].
      clear -Hno. induction Hno as [|p peers Hp _ IH]; [done|]. cbn [List.find]. by rewrite Hp.
Qed.
Definition demo_side : ProxySide := match Proxy demo_plan with Some s => s | None => mkProxySide 0 [] end.
Definition player_packet (iif : string) (port : Z) : packet :=
  mkPacket iif "" false "udp" port false [203; 0; 113; 5] [198; 51; 100; 7] false New "" "" 0.
Lemma proxy_rules_exact_witness :
  let k := player_packet "eth0" 27016 in
  @run (interpreter (fun _ _ => false) (fun _ => [])) (proxy_prerouting demo_side "eth0") k = (Accept, with_daddr [10; 77; 0; 3] k).
Proof.
  intros k.
  destruct (@proxy_rules_exact (interpreter (fun _ _ => false) (fun _ => [])) demo_side "eth0" k) as (_ & _ & H & _).
  - vm_compute; reflexivity.
  - repeat constructor.
  - discriminate.
  - destruct (H (mkPeer demo_key "10.77.0.3" [mkForward 27016 "udp"; mkForward 27015 "tcp"] "" true)) as (a & Ha & Hr & _);
      [right; left; reflexivity|vm_compute; reflexivity..|].
    assert (Hx : address "10.77.0.3" = Some [10; 77; 0; 3]) by (vm_compute; reflexivity). cbn [p_TunnelIP] in Ha. rewrite Hx in Ha.
    injection Ha as <-. exact Hr.
Defined.

(** C7: the firewall of a node is its plan: the loaded text is that of the rules; from the tunnel
    only answers, forwarded ports and ICMP are let in and other interfaces are left alone; a
    player's new connection is marked, redirected to the address the server is bound to and let
    in; of the packets the machine sends, those of marked connections and the new connections of
    egress users to public addresses are marked for the tunnel, and nothing else, the tunnel's own
    packets being exempt; IPv6 of an egress user to public addresses is refused; and what leaves
    through the tunnel has the tunnel address. *)
Theorem node_rules_exact `{Nft} s target uids k (Hv : Validate (mkPlan None (Some s)) = None) :
  renderNodeRules s target uids = render_lines (replaceTable proxyTableNode (flat_map show_chain (node_chains s target uids))) /\
  run (node_input s) k = (if node_accepts s k then Accept else Drop, k) /\
  (k_iif k <> proxyInterface -> run node_mangle k = (Accept, k) /\ run (node_nat s target) k = (Accept, k)) /\
  (forall a, k_iif k = proxyInterface -> k_state k = New -> k_v6 k = false -> forwards_port (n_Forwards s) k = true ->
    address target = Some a ->
    let marked := with_marks proxyFlowMark (k_mark k) k in
    run node_mangle k = (Accept, marked) /\ run (node_nat s target) marked = (Accept, with_daddr a marked) /\
    run (node_input s) (with_daddr a marked) = (Accept, with_daddr a marked)) /\
  (exists out, run (node_output uids) k = (Accept, out) /\
    (k_mark k = proxyTunnelMark -> out = k) /\
    (k_mark out = proxyFlowMark <-> k_mark k = proxyFlowMark \/
       (k_mark k <> proxyTunnelMark /\ (k_ctmark k = proxyFlowMark \/ egress_start uids k = true)))) /\
  run (node_output6 uids) k =
    (if negb (String.eqb (k_mark k) proxyTunnelMark) && k_v6 k && existsb (Z.eqb (k_uid k)) uids && negb (k_local6 k) then Reject else Accept, k) /\
  (dotted (n_TunnelIP s) = true -> k_oif k = proxyInterface -> k_v6 k = false ->
    exists a, address (n_TunnelIP s) = Some a /\ run (node_snat s) k = (Accept, with_saddr a k)).
Proof.
  apply validate_iff in Hv as (Hip & _ & _ & Hf & _). apply forwards_known in Hf.
  split_and!; [unfold renderNodeRules; by rewrite node_text|by apply node_input_run| | | |apply node_output6_run|].
  - intros Hi%String.eqb_neq. rewrite node_mangle_run, node_nat_run, Hi by done. split; [done|]. by destruct (address target).
  - intros a Hi Hst H6 Hfp Ha marked. rewrite node_mangle_run, !node_nat_run, node_input_run, Ha by done.
    unfold node_accepts, state_is. change (forwards_port (n_Forwards s) (with_daddr a marked)) with (forwards_port (n_Forwards s) k).
    change (forwards_port (n_Forwards s) marked) with (forwards_port (n_Forwards s) k). cbn [marked k_iif k_state k_v6 with_marks with_daddr].
    rewrite Hi, Hst, H6, Hfp. done.
  - exists (node_marks uids k). split; [apply node_output_run|]. unfold node_marks.
    destruct (String.eqb_spec (k_mark k) proxyTunnelMark) as [E|E].
    + split; [done|]. rewrite E. split; [by left|]. by intros [?|[? _]].
    + split; [done|]. destruct (egress_start uids k), (String.eqb_spec (k_ctmark k) proxyFlowMark); cbn [orb]; cbn; naive_solver.
  - intros Hd Ho H6. destruct (tunnel_address _ Hip Hd) as [a Ha]. exists a. split; [done|]. rewrite node_snat_run, Ha, Ho, H6. done.
Qed.
Definition demo_node : NodeSide := mkNodeSide "10.77.0.2" demo_key "proxy.example:51820" [mkForward 27015 "udp"] "" "" ["vh"].
Lemma node_rules_exact_witness :
  @run (interpreter (fun _ _ => false) (fun _ => [])) (node_input demo_node) (player_packet proxyInterface 27016) =
  (Drop, player_packet proxyInterface 27016).
Proof.
  destruct (@node_rules_exact (interpreter (fun _ _ => false) (fun _ => [])) demo_node "192.168.0.7" [1001] (player_packet proxyInterface 27016))
    as (_ & H & _); [vm_compute; reflexivity|]. exact H.
Defined.

(** Two notations of one address pass as two addresses, and the second one is none nft takes. *)
Example tunnel_ip_alias : validTunnelIP "10.77.0.2" = true /\ validTunnelIP "::ffff:10.77.0.2" = true /\
  To4 (default [] (ParseIP "::ffff:10.77.0.2")) = To4 (default [] (ParseIP "10.77.0.2")).
Proof. vm_compute. done. Qed.
Example aliases_valid : Validate (mkPlan (Some (mkProxySide 51820
  [mkPeer demo_key "10.77.0.2" [mkForward 27015 "udp"] "" false; mkPeer demo_key "::ffff:10.77.0.2" [mkForward 27016 "udp"] "" false])) None) = None.
Proof. vm_compute. done. Qed.
(** A target of IPv6 passes, for which the rule reads [dnat ip to ::1]. *)
Example target_v6_valid : Validate (mkPlan None (Some
  (mkNodeSide "10.77.0.2" demo_key "proxy.example:51820" [mkForward 27015 "udp"] "::1" "" []))) = None.
Proof. vm_compute. done. Qed.
